(* ===== verification/_CoqProject ===== *)
-Q . S2P
Prelude.v
Kernel.v
Spinlock.v
Sched.v
Kalloc.v
Console.v
Umem.v
Signal.v
User.v
Umalloc.v
Uthread.v
Ustacks.v
Ubsem.v
Usemaphore.v
Sleeplock.v
Pipe.v
Str.v
Boot.v
Ulib.v
Grep.v
Sh.v
Shparse.v
Shrun.v
Progs.v
Vm.v
Vmspace.v
Vmops.v
Intr.v
Kbd.v
Buf.v
Ide.v
Memide.v
Ring.v
Bio.v
Bcache.v
Log.v
Logsafe.v
Crash.v
Inode.v
Usertests.v
Consdev.v
Tty.v
Dir.v
Fsread.v
Fstxn.v
Mkfs.v
Mkfsok.v
Mkfsimg.v
Fsimage.v
Fsview.v
Fswrite.v
Fsfile.v
Fstrunc.v
Fsdir.v
Path.v
File.v
Fsatomic.v
Fsdrop.v
Sysarg.v
Sysfile.v
Fscreate.v
Fsopen.v
Fsunlink.v
Exec.v
Proc.v
Life.v
Fork.v
Syscall.v
Trap.v
Main.v
