(* ===== verification/Prelude.v ===== *)
(** * xv6 with signals and user-level threads: verification development

    The program is the xv6 teaching kernel for 32-bit x86, extended with
    signals and an alarm, and a library of user-level threads, binary and
    counting semaphores that is built on them.  Every C function of the
    kernel, of the libraries and of the user programs, of the boot loader and
    of the program that builds the file system has a definition here, under
    its own name; the theorems state what the parts promise to each other.

    ** How the code is modelled

    Kernel.v has the kernel's state [kst], a record with a field per global
    of the C code and per device, and the monad [M] in which kernel functions
    are written.  A function returns ([Ok]), calls panic ([Panic]), or waits
    for something that never happens ([Blocked]).  What other processors,
    interrupts and processes do while it waits is a list [env] of arbitrary
    changes of the state, one consumed by every wait; theorems quantify over
    it.  Machine integers are [Z] with their wrap-around written out ([u32],
    [s32], [u16], [u8] below).  Physical memory is a map of bytes, and user
    memory is reached through the page tables in it (Umem.v).

    Loops that are not over a fixed list have fuel.  The fuel is a bound the
    code itself implies (NBUF buffers in a ring, LOGSIZE entries in a header,
    the bytes a device holds, the characters of a path, the pages below a
    size), and running out is the outcome [Blocked WFuel], never a result:
    the theorems show that the functions return.  A loop that waits has the
    length of [env] as its fuel, which every turn consumes.

    What is outside the sources is a parameter: where the linker puts things
    ([Link]), what devices answer ([Hw], a function of what was written to
    them), the disk driver that is linked in ([Driver], with ide.c and
    memide.c as its implementations), and malloc and free for the thread
    library ([Malloc], which umalloc.c implements, Ustacks.v).

    A user program (User.v) is a function of the answers the kernel gives to
    its system calls, in order, and yields the trace of its calls.  A loop
    that makes a call every time goes round at most once per answer, and a
    program whose answers are used up waits in its last call.

    ** The kernel's parts

    - Spinlock.v: spinlock.c; its module [Smp] has the interleavings of
      several processors.  Sched.v: the scheduling half of proc.c.
      Sleeplock.v: sleeplock.c.
    - Kalloc.v: kalloc.c.  Vm.v: vm.c.  Vmspace.v and Vmops.v: what the
      functions of vm.c do to address spaces.  Str.v: string.c.
    - Console.v: the output half of console.c, and uart.c.  Kbd.v: kbd.c and
      serial input.  Consdev.v: console input and the console device.  Tty.v:
      its line discipline.
    - Intr.v: picirq.c, ioapic.c, lapic.c, timer.c, mp.c.
    - Buf.v, Ide.v, Memide.v: buf.h and the two disk drivers.  Bio.v: bio.c.
      Ring.v and Bcache.v: the buffer cache as its clients see it.  Log.v:
      log.c.  Logsafe.v and Crash.v: transactions and power failures.
    - Inode.v and Dir.v: fs.c.  Path.v: its path names.  File.v: file.c and
      pipealloc.  Pipe.v: the rest of pipe.c.
    - Fsread.v to Fsunlink.v: what fs.c, file.c and sysfile.c do to the blocks.
      Fsview.v has the abstract file system: which block is whose ([fs_ok]),
      what an inode and a file are ([disk_inode], [file_at]) and when all is
      well formed ([Fsfile.fs_wf]).  Fsread.v: [iget], [ilock], [readi] and
      [namei] on a quiet disk, and Fsimage.v: on the image of mkfs.  Fstxn.v:
      the blocks as an open transaction sees them.  Fswrite.v, Fsfile.v:
      [bmap] and [writei].  Fstrunc.v: [itrunc] and [iput].  Fsdir.v:
      [ialloc], [dirlookup] and [dirlink].  Fsatomic.v: [filewrite].
      Fsdrop.v: [fileclose].  Fscreate.v, Fsopen.v: [create] and [sys_open].
      Fsunlink.v: [sys_unlink].
    - Signal.v: the signal functions of proc.c.  Proc.v: the rest of it.
      Life.v and Fork.v: what they do.
    - Sysarg.v, Sysfile.v, Exec.v, Syscall.v: the system calls.  Trap.v:
      trap.c and trapasm.S.  Main.v: main.c.

    ** The user's side, and the host's

    - User.v: the system calls of user.h and printf.c.  Ulib.v: ulib.c.
      Umalloc.v: umalloc.c.
    - Grep.v: grep.c.  Sh.v: sh.c; Shparse.v: what its parser reads, and
      Shrun.v: what the processes it makes do, over descriptor tables.
      Progs.v: cat.c, wc.c, ls.c, init.c and the other small programs,
      forktest.c and stressfs.c.  Usertests.v: tests of usertests.c.
    - Boot.v: bootmain.c.  Mkfs.v: mkfs.c; Mkfsok.v: which blocks its files
      own, and Mkfsimg.v: the image.

    ** The thread library

    - Uthread.v: uthread.c, whose state [ust] has the library's globals, the
      process's memory, and the part of the kernel the library drives.  A
      step relation [lib_step] has a step per call and per clock tick.
      Ubsem.v: what semaphores, join and creation guarantee.
    - Usemaphore.v: usemaphore.c, with [down] and [up] as transition systems
      whose threads can be switched between any two statements.
    - Ustacks.v: threads on top of umalloc.c.

    ** What is shown

    - Storage: a transaction of the log happens entirely or not at all,
      wherever the power fails, also during recovery, and lasts once [end_op]
      has returned (Crash).  It rests on specifications of [bread], [bwrite],
      [brelse] and [log_write] over an abstract cache ([Bcache.Cache]), which
      the linked list of buffers is shown to implement for every driver that
      satisfies [Bcache.SyncDisk]; memide.c does.  Paths are split at
      slashes, with names cut to DIRSIZ characters (Path).
    - Files: on top of transactions, [filewrite], [sys_open] with O_CREATE,
      [sys_unlink] and the last [fileclose] of a removed file refine what they
      mean on the abstract file system: the file has its new bytes, the directory its
      entry, the blocks of the removed file are free, everything else is as
      it was, and the file system is well formed.  The power may fail at any
      request; recovery gives the state before or after the call, or, for
      long writes, after one of its transactions (Fsatomic, Fsopen, Fsunlink,
      Fsdrop).
      [Fsopen.create_then_write] has two calls one after the other.  One
      process uses the file system: the log is idle when a call begins.
    - Memory: [kalloc] and [kfree] are a stack of free pages; [freerange]
      frees whole pages; [copyuvm] gives a copy that shares nothing; [freevm]
      gives everything back; memmove copies overlapping ranges.
    - Processes: [fork] makes a child that is a copy; system call arguments
      that are accepted lie in the process; locks exclude each other on
      several processors; [pushcli] and [popcli] nest.
    - Signals: a handler is delivered as documented and is transparent at the
      level of [handleSignal] and [sigreturn]; [alarm] and [sigsend] act at
      the right time.
    - Console and pipes: [printint] and [cprintf] print the right text; the
      serial interrupt implements a line editor; pipes are queues, whatever
      happens while they wait.
    - Threads: the table stays well formed; scheduling is round robin and
      starves nobody; a switch is transparent; binary semaphores exclude;
      counting semaphores are safe and make progress; the stacks of live
      threads are apart from each other and from the rest of the heap.
    - The user's memory: blocks of [malloc] are apart and keep their bytes,
      and [free] joins neighbours.
    - User programs: the parser of the shell ends on every line and reads its
      grammar back, and the commands it runs start the programs they mean
      with the right descriptors, or print the right message; grep's matcher
      finds what its patterns stand for, and grep prints the lines that
      match; wc counts independently of how the file is cut by read; printf
      prints what its format stands for, and atoi reads it back.
    - The disk and the start: mkfs builds an image in which the kernel's own
      reading of super block, inodes, blocks and bitmap finds the files, and
      from which [namei] and [readi] read them back (Fsimage); the boot
      loader puts the kernel's segments where they belong.
    - Behaviour that the code's authors did not mean is stated as theorems
      too: [sigsend] to an unknown pid, [sigreturn] through the system call
      (the lost eax, the unchecked frame), [kill] of pid 0, [growproc] to
      size 0, [mpinit] on an unknown entry, grep on a read without a newline,
      the root directory of mkfs with thirty files, [malloc] of nearly 4 GB,
      tests that pass on wrong files or leave files behind (Usertests), and
      the races and unchecked results of uthread.c and usemaphore.c.

    ** Not modelled

    The assembly files are not modelled, but for the stubs of usys.S and
    umsigret.S: they run before the C code or are instructions between its
    functions.  [swtch] appears as the point where other processes run, and
    the register saving of trapasm.S as the frame that [trap] is given.  The
    lines that panic prints are not modelled, nor are a lock's debugging
    fields.  Of usertests.c, the tests that look at memory or contain
    assembly (mem, sbrktest, validatetest, bsstest, uio, argptest), a few of
    the shortest, and main are not modelled, nor is sanity.c: they exercise
    the rest and promise nothing to it.  In the shell, [malloc] is taken to succeed; mkfs's messages
    are left out, and its host is little-endian.  The kernel's answers to a
    user program are arbitrary in User.v and those of a descriptor table in
    Shrun.v; they are not derived from the kernel's own system calls.
    Disk requests are atomic in the crash theorem: a sector is written
    entirely or not at all, and the driver is one that has served a request
    when it returns. *)

From stdpp Require Import base numbers list gmap strings.

#[global] Open Scope Z_scope.

(** ** Machine integers

    A C [uint] is a [Z] in [0, 2^32); a C [int] is a [Z] in [-2^31, 2^31).
    Wrap-around is always written out with [u32] and [s32]. *)

Definition u32 (x : Z) : Z := x mod 4294967296.
Definition s32 (x : Z) : Z := (x + 2147483648) mod 4294967296 - 2147483648.
Definition u16 (x : Z) : Z := x mod 65536.
Definition u8 (x : Z) : Z := x mod 256.

(** Linear arithmetic with the machine-width reductions unfolded. *)
Ltac zmod := unfold u32, s32, u16, u8 in *; Z.div_mod_to_equations; lia.

(** Case analysis on the integer comparisons of the goal. *)
Ltac zcase :=
  repeat match goal with
  | |- context [?a <=? ?b] => destruct (Z.leb_spec a b)
  | |- context [?a <? ?b] => destruct (Z.ltb_spec a b)
  | |- context [?a =? ?b] => destruct (Z.eqb_spec a b)
  end.

Lemma u32_range x : 0 <= u32 x < 4294967296.
Proof. zmod. Qed.
Lemma u32_small x : 0 <= x < 4294967296 -> u32 x = x.
Proof. zmod. Qed.
Lemma u32_idem x : u32 (u32 x) = u32 x.
Proof. apply u32_small, u32_range. Qed.
Lemma s32_range x : -2147483648 <= s32 x < 2147483648.
Proof. zmod. Qed.
Lemma s32_small x : -2147483648 <= x < 2147483648 -> s32 x = x.
Proof. zmod. Qed.
Lemma u32_add_l a b : u32 (u32 a + b) = u32 (a + b).
Proof. unfold u32. apply Zplus_mod_idemp_l. Qed.
Lemma u32_add_r a b : u32 (a + u32 b) = u32 (a + b).
Proof. unfold u32. apply Zplus_mod_idemp_r. Qed.
Lemma u32_sub_l a b : u32 (u32 a - b) = u32 (a - b).
Proof. unfold u32. apply Zminus_mod_idemp_l. Qed.
Lemma u32_sub_r a b : u32 (a - u32 b) = u32 (a - b).
Proof. unfold u32. apply Zminus_mod_idemp_r. Qed.
Lemma u32_s32 x : u32 (s32 x) = u32 x.
Proof. zmod. Qed.
Lemma s32_u32 x : s32 (u32 x) = s32 x.
Proof. zmod. Qed.

(** [x & ~0xFFF] on 32 bits. *)
Lemma land_page_mask x : 0 <= x < 4294967296 -> Z.land x 4294963200 = x - x mod 4096.
Proof.
  intros Hx.
  replace 4294963200 with (Z.ldiff (Z.ones 32) (Z.ones 12)) by reflexivity.
  assert (Z.land x (Z.ldiff (Z.ones 32) (Z.ones 12)) = Z.ldiff (Z.land x (Z.ones 32)) (Z.ones 12)) as ->.
  { apply Z.bits_inj'. intros i Hi. rewrite !Z.land_spec, !Z.ldiff_spec, Z.land_spec.
    by rewrite andb_assoc. }
  rewrite Z.land_ones, Z.ldiff_ones_r, Z.shiftl_mul_pow2, Z.shiftr_div_pow2 by lia.
  rewrite (Z.mod_small x) by (change (2 ^ 32) with 4294967296; lia).
  change (2 ^ 12) with 4096. Z.div_mod_to_equations. lia.
Qed.

(** Bits of a 32-bit word, as [1 << i] masks. *)
Lemma shiftl_bit_small i : 0 <= i < 32 -> u32 (Z.shiftl 1 i) = 2 ^ i.
Proof.
  intros Hi. rewrite Z.shiftl_1_l. apply u32_small. split; [lia|].
  change 4294967296 with (2 ^ 32). apply Z.pow_lt_mono_r; lia.
Qed.

Lemma land_bit x i : 0 <= i < 32 -> (Z.land x (u32 (Z.shiftl 1 i)) =? 0) = negb (Z.testbit x i).
Proof.
  intros Hi. rewrite shiftl_bit_small by done.
  assert (Z.land x (2 ^ i) = if Z.testbit x i then 2 ^ i else 0) as ->.
  { apply Z.bits_inj'. intros n Hn. rewrite Z.land_spec, Z.pow2_bits_eqb by lia.
    destruct (Z.eqb_spec i n) as [<-|Hne].
    - destruct (Z.testbit x i) eqn:E; [by rewrite Z.pow2_bits_true by lia | by rewrite Z.bits_0].
    - rewrite andb_false_r. destruct (Z.testbit x i); [by rewrite Z.pow2_bits_false by lia|].
      by rewrite Z.bits_0. }
  destruct (Z.testbit x i); simpl; [|done].
  apply Z.eqb_neq. pose proof (Z.pow_pos_nonneg 2 i). lia.
Qed.

Lemma testbit_u32 x n : 0 <= n -> Z.testbit (u32 x) n = (n <? 32) && Z.testbit x n.
Proof.
  intros Hn. unfold u32. change 4294967296 with (2 ^ 32).
  destruct (Z.ltb_spec n 32); [by rewrite Z.mod_pow2_bits_low | by rewrite Z.mod_pow2_bits_high by lia].
Qed.

Lemma testbit_small x n : 0 <= x < 4294967296 -> 32 <= n -> Z.testbit x n = false.
Proof.
  intros Hx Hn. rewrite <- (u32_small x Hx), testbit_u32 by lia.
  by destruct (Z.ltb_spec n 32); [lia|].
Qed.

Lemma land_clear_bit x i :
  0 <= i < 32 -> 0 <= x < 4294967296 ->
  Z.land x (u32 (Z.lnot (u32 (Z.shiftl 1 i)))) = Z.clearbit x i.
Proof.
  intros Hi Hx. rewrite shiftl_bit_small by done. apply Z.bits_inj'. intros n Hn.
  rewrite Z.land_spec, testbit_u32, Z.lnot_spec, Z.pow2_bits_eqb, Z.clearbit_eqb by lia.
  destruct (Z.ltb_spec n 32); simpl; [done|]. by rewrite (testbit_small x n) by lia.
Qed.

Lemma lor_set_bit x i : 0 <= i < 32 -> Z.lor x (u32 (Z.shiftl 1 i)) = Z.setbit x i.
Proof. intros Hi. rewrite shiftl_bit_small by done. by rewrite Z.setbit_spec'. Qed.

Create HintDb u32.
#[export] Hint Rewrite u32_idem u32_add_l u32_add_r u32_sub_l u32_sub_r
  u32_s32 s32_u32 : u32.

(** ** Record setters

    [mk_setter eta proj] builds the function that replaces the field
    [proj] of a record, from the record's eta expansion [eta], in which
    every projection occurs once. *)

Ltac mk_setter eta proj :=
  let b := eval cbv delta [eta] in eta in
  let p := eval pattern proj in b in
  lazymatch p with
  | ?F proj =>
      lazymatch type of proj with
      | ?R -> ?T =>
          let t := eval cbv beta in (fun (v : T) (r : R) => F (fun _ => v) r) in
          exact t
      end
  end.

(** ** Searching a table

    The kernel's and the thread library's tables are arrays scanned from
    index 0; [find_idx f l] is the index at which such a scan stops. *)

Fixpoint find_idx {A} (f : A -> bool) (l : list A) : option nat :=
  match l with
  | [] => None
  | x :: l' => if f x then Some 0%nat else S <$> find_idx f l'
  end.

Section find_idx.
Context {A : Type}.
Implicit Types (l : list A) (f : A -> bool).

Lemma find_idx_Some f l i :
  find_idx f l = Some i <->
  (exists x, l !! i = Some x /\ f x = true) /\
  (forall j y, (j < i)%nat -> l !! j = Some y -> f y = false).
Proof.
  revert i. induction l as [|x l IH]; intros i; simpl.
  { split; [done|]. intros [(y & H & _) _]. done. }
  destruct (f x) eqn:E.
  - split.
    + intros [= <-]. split; [eauto|]. intros j y Hj. lia.
    + intros [(y & H1 & H2) Hlt]. destruct i as [|i]; [done|].
      specialize (Hlt 0%nat x ltac:(lia) eq_refl). congruence.
  - split.
    + intros (k & Hk & ->)%fmap_Some. apply IH in Hk as [(y & H1 & H2) Hlt].
      split; [by exists y|]. intros [|j] z Hj Hz; simpl in Hz.
      * congruence.
      * eapply (Hlt j); [lia|done].
    + intros [(y & H1 & H2) Hlt]. destruct i as [|i]; simpl in H1; [congruence|].
      apply fmap_Some. exists i. split; [|done]. apply IH. split; [by exists y|].
      intros j z Hj Hz. apply (Hlt (S j) z); [lia|done].
Qed.

Lemma find_idx_None f l :
  find_idx f l = None <-> (forall j y, l !! j = Some y -> f y = false).
Proof.
  induction l as [|x l IH]; simpl.
  { split; [|done]. intros _ j y H. done. }
  destruct (f x) eqn:E.
  - split; [done|]. intros H. specialize (H 0%nat x eq_refl). congruence.
  - rewrite fmap_None, IH. split.
    + intros H [|j] y Hy; simpl in Hy; [congruence|eauto].
    + intros H j y Hy. apply (H (S j) y Hy).
Qed.

Lemma find_idx_lt f l i : find_idx f l = Some i -> (i < length l)%nat.
Proof.
  intros [(x & H & _) _]%find_idx_Some. by apply lookup_lt_Some in H.
Qed.

Lemma find_idx_ext f g l : (forall x, x ∈ l -> f x = g x) -> find_idx f l = find_idx g l.
Proof.
  induction l as [|x l IH]; intros E; cbn; [done|]. rewrite (E x) by left.
  destruct (g x); [done|]. rewrite IH; [done|]. intros y Hy. apply E. by right.
Qed.

Lemma find_idx_upd f g l i :
  (forall x, f (g x) = f x) -> find_idx f (alter g i l) = find_idx f l.
Proof.
  intros E. revert i. induction l as [|x l IH]; intros [|i]; cbn; rewrite ?E, ?IH; done.
Qed.
End find_idx.

(** The test of one bit with a mask. *)
Lemma bit_test x m : 0 <= m -> (Z.land x (Z.shiftl 1 m) =? 0) = negb (Z.testbit x m).
Proof.
  intros Hm. rewrite Z.shiftl_1_l. destruct (Z.testbit x m) eqn:E; cbn [negb].
  - apply Z.eqb_neq. intros H0. assert (Z.testbit (Z.land x (2 ^ m)) m = false) as H1 by (by rewrite H0, Z.testbit_0_l).
    rewrite Z.land_spec, E, Z.pow2_bits_true in H1 by lia. done.
  - apply Z.eqb_eq. apply Z.bits_inj'. intros n Hn. rewrite Z.land_spec, Z.testbit_0_l.
    destruct (decide (n = m)) as [->|Hne]; [by rewrite E|]. rewrite Z.pow2_bits_false by lia. apply andb_false_r.
Qed.

(** Applying a function to one entry of a table; out of range, nothing. *)
Definition upd {A} (i : nat) (f : A -> A) (l : list A) : list A := alter f i l.

Lemma length_upd {A} i (f : A -> A) l : length (upd i f l) = length l.
Proof. apply length_alter. Qed.
Lemma lookup_upd_eq {A} i (f : A -> A) l : upd i f l !! i = f <$> l !! i.
Proof. apply list_lookup_alter_eq. Qed.
Lemma lookup_upd_ne {A} i j (f : A -> A) l : i <> j -> upd i f l !! j = l !! j.
Proof. apply list_lookup_alter_ne. Qed.

Lemma upd_ext {A} i (f g : A -> A) l x :
  l !! i = Some x -> f x = g x -> upd i f l = upd i g l.
Proof.
  intros Hx E. apply list_eq. intros j. destruct (decide (i = j)) as [<-|Hj].
  - rewrite !lookup_upd_eq, Hx. simpl. by rewrite E.
  - by rewrite !lookup_upd_ne.
Qed.

Lemma upd_ext_all {A} i (f g : A -> A) l : (forall x, f x = g x) -> upd i f l = upd i g l.
Proof.
  intros E. destruct (l !! i) as [x|] eqn:Hx; [by apply (upd_ext _ _ _ _ x)|].
  apply list_eq. intros j. destruct (decide (i = j)) as [<-|Hj].
  - by rewrite !lookup_upd_eq, Hx.
  - by rewrite !lookup_upd_ne.
Qed.

Lemma upd_upd {A} i (f g : A -> A) l : upd i f (upd i g l) = upd i (fun x => f (g x)) l.
Proof.
  apply list_eq. intros j. destruct (decide (i = j)) as [<-|Hj].
  - rewrite !lookup_upd_eq. by destruct (l !! i).
  - by rewrite !lookup_upd_ne.
Qed.

Lemma upd_insert {A} i (f : A -> A) l x : l !! i = Some x -> upd i f l = <[i := f x]> l.
Proof.
  intros Hx. apply list_eq. intros j. destruct (decide (i = j)) as [<-|Hj].
  - by rewrite lookup_upd_eq, Hx, list_lookup_insert_eq by (by eapply lookup_lt_Some).
  - by rewrite lookup_upd_ne, list_lookup_insert_ne.
Qed.

Create HintDb tbl.
#[export] Hint Rewrite @length_upd @lookup_upd_eq @length_insert @length_fmap : tbl.
