(* ===== verification/Kernel.v ===== *)
(** * The kernel's state and the monad its functions are written in

    The kernel is one program whose functions share global tables, so
    its state is one record [kst] with a field per global of the C
    code.  A kernel function is a state transformer [M A]: it runs in a
    state, and ends by returning ([Ok]), by calling [panic] ([Panic]),
    or by waiting for something that never happens ([Blocked]).

    What other CPUs, interrupt handlers and other processes do while
    the function waits (in the scheduler, or spinning on a lock) is the
    [env] argument: a list of arbitrary state changes, one consumed by
    every wait.  Theorems quantify over [env]; an empty list means that
    nothing happens any more and the wait never ends. *)

From stdpp Require Import base numbers list gmap strings countable.
From S2P Require Import Prelude.

(** ** Constants of param.h, memlayout.h, mmu.h, proc.h *)

Definition NPROC : nat := 64.
Definition KSTACKSIZE : Z := 4096.
Definition NOFILE : nat := 16.
Definition NFILE : nat := 100.
Definition NUMSIG : nat := 32.
Definition KERNBASE : Z := 2147483648.
Definition PHYSTOP : Z := 234881024.
Definition PGSIZE : Z := 4096.
Definition DPL_USER : Z := 3.
Definition SEG_KCODE : Z := 1.
Definition SEG_KDATA : Z := 2.
Definition SEG_KCPU : Z := 3.
Definition SEG_UCODE : Z := 4.
Definition SEG_UDATA : Z := 5.
Definition SEG_TSS : Z := 6.
Definition STA_X : Z := 8.
Definition STA_W : Z := 2.
Definition STA_R : Z := 2.
Definition STS_T32A : Z := 9.
Definition FL_IF : Z := 512.

(** Addresses fixed by the linker: the C code takes the address of these
    symbols, and their values are not in the sources. *)
Class Link := {
  a_defaultHandler : Z;
  a_forkret : Z;
  a_trapret : Z;
  a_end : Z;
  a_cpus : Z;
  a_data : Z;
  a_vectors : nat -> Z;
  a_idt : Z;
  a_mpenter : Z;
  a_entrypgdir : Z;
}.

(** ** Addresses that identify kernel objects

    Locks and sleep channels are addresses of kernel objects in C; only
    their identity matters, so they are named here. *)

Inductive slid := SLbuf (i : nat) | SLinode (i : nat).

Inductive lockid :=
| LPtable | LTicks | LKmem | LFtable | LIcache | LBcache | LLog | LIde
| LCons | LPipe (a : Z) | LSleep (l : slid).

Inductive chan :=
| CTicks | CProc (p : nat) | CLog | CBuf (i : nat) | CSleep (l : slid)
| CPipeR (a : Z) | CPipeW (a : Z) | CInput.

#[export] Instance slid_eq_dec : EqDecision slid.
Proof. solve_decision. Defined.
#[export] Instance lockid_eq_dec : EqDecision lockid.
Proof. solve_decision. Defined.
#[export] Instance chan_eq_dec : EqDecision chan.
Proof. solve_decision. Defined.

Definition slid_enc (l : slid) : nat + nat := match l with SLbuf i => inl i | SLinode i => inr i end.
Definition slid_dec (x : nat + nat) : slid := match x with inl i => SLbuf i | inr i => SLinode i end.
Lemma slid_dec_enc l : slid_dec (slid_enc l) = l.
Proof. by destruct l. Qed.
#[export] Instance slid_countable : Countable slid := inj_countable' slid_enc slid_dec slid_dec_enc.

Definition lockid_enc (l : lockid) : nat * Z :=
  match l with
  | LPtable => (0%nat, 0) | LTicks => (1%nat, 0) | LKmem => (2%nat, 0)
  | LFtable => (3%nat, 0) | LIcache => (4%nat, 0) | LBcache => (5%nat, 0)
  | LLog => (6%nat, 0) | LIde => (7%nat, 0) | LCons => (8%nat, 0)
  | LPipe a => (9%nat, a)
  | LSleep (SLbuf i) => (10%nat, Z.of_nat i)
  | LSleep (SLinode i) => (11%nat, Z.of_nat i)
  end.

Definition lockid_dec (x : nat * Z) : lockid :=
  match x with
  | (0%nat, _) => LPtable | (1%nat, _) => LTicks | (2%nat, _) => LKmem
  | (3%nat, _) => LFtable | (4%nat, _) => LIcache | (5%nat, _) => LBcache
  | (6%nat, _) => LLog | (7%nat, _) => LIde | (8%nat, _) => LCons
  | (9%nat, a) => LPipe a
  | (10%nat, i) => LSleep (SLbuf (Z.to_nat i))
  | (_, i) => LSleep (SLinode (Z.to_nat i))
  end.

Lemma lockid_dec_enc l : lockid_dec (lockid_enc l) = l.
Proof. destruct l as [| | | | | | | | | |[i|i]]; simpl; by rewrite ?Nat2Z.id. Qed.

#[export] Instance lockid_countable : Countable lockid :=
  inj_countable' lockid_enc lockid_dec lockid_dec_enc.

(** ** Data *)

(** x86.h: struct trapframe. *)
Record trapframe := mktf {
  tf_edi : Z; tf_esi : Z; tf_ebp : Z; tf_oesp : Z;
  tf_ebx : Z; tf_edx : Z; tf_ecx : Z; tf_eax : Z;
  tf_gs : Z; tf_padding1 : Z; tf_fs : Z; tf_padding2 : Z;
  tf_es : Z; tf_padding3 : Z; tf_ds : Z; tf_padding4 : Z;
  tf_trapno : Z;
  tf_err : Z; tf_eip : Z; tf_cs : Z; tf_padding5 : Z; tf_eflags : Z;
  tf_esp : Z; tf_ss : Z; tf_padding6 : Z;
}.

Definition eta_tf (t : trapframe) : trapframe :=
  mktf (tf_edi t) (tf_esi t) (tf_ebp t) (tf_oesp t)
    (tf_ebx t) (tf_edx t) (tf_ecx t) (tf_eax t)
    (tf_gs t) (tf_padding1 t) (tf_fs t) (tf_padding2 t)
    (tf_es t) (tf_padding3 t) (tf_ds t) (tf_padding4 t)
    (tf_trapno t) (tf_err t) (tf_eip t) (tf_cs t) (tf_padding5 t)
    (tf_eflags t) (tf_esp t) (tf_ss t) (tf_padding6 t).

Definition set_eax : Z -> trapframe -> trapframe := ltac:(mk_setter eta_tf tf_eax).
Definition set_ebp : Z -> trapframe -> trapframe := ltac:(mk_setter eta_tf tf_ebp).
Definition set_eip : Z -> trapframe -> trapframe := ltac:(mk_setter eta_tf tf_eip).
Definition set_esp : Z -> trapframe -> trapframe := ltac:(mk_setter eta_tf tf_esp).
Definition set_cs : Z -> trapframe -> trapframe := ltac:(mk_setter eta_tf tf_cs).
Definition set_ds : Z -> trapframe -> trapframe := ltac:(mk_setter eta_tf tf_ds).
Definition set_es : Z -> trapframe -> trapframe := ltac:(mk_setter eta_tf tf_es).
Definition set_ss : Z -> trapframe -> trapframe := ltac:(mk_setter eta_tf tf_ss).
Definition set_eflags : Z -> trapframe -> trapframe := ltac:(mk_setter eta_tf tf_eflags).

Definition tf_zero : trapframe :=
  mktf 0 0 0 0 0 0 0 0 0 0 0 0 0 0 0 0 0 0 0 0 0 0 0 0 0.

(** proc.h: struct context. *)
Record context := mkcontext { cx_edi : Z; cx_esi : Z; cx_ebx : Z; cx_ebp : Z; cx_eip : Z }.

(** proc.h: enum procstate. *)
Inductive procstate := UNUSED | EMBRYO | SLEEPING | RUNNABLE | RUNNING | ZOMBIE.
#[export] Instance procstate_eq_dec : EqDecision procstate.
Proof. solve_decision. Defined.

(** proc.h: struct proc.  [tf] and [context] point into the process's
    kernel stack; the record holds what they point to next to the
    pointers ([tf_ptr], [context_ptr]). *)
Record proc := mkproc {
  sz : Z;
  pgdir : Z;
  kstack : Z;
  state : procstate;
  pid : Z;
  parent : option nat;
  tf_ptr : Z;
  tf : trapframe;
  context_ptr : Z;
  p_context : context;
  p_chan : option chan;
  killed : bool;
  ofile : list (option nat);
  cwd : option nat;
  name : list Z;
  pending : Z;
  signals : list Z;
  alarmEnd : Z;
}.

Definition eta_proc (p : proc) : proc :=
  mkproc (sz p) (pgdir p) (kstack p) (state p) (pid p) (parent p) (tf_ptr p)
    (tf p) (context_ptr p) (p_context p) (p_chan p) (killed p) (ofile p)
    (cwd p) (name p) (pending p) (signals p) (alarmEnd p).

Definition set_sz : Z -> proc -> proc := ltac:(mk_setter eta_proc sz).
Definition set_pgdir : Z -> proc -> proc := ltac:(mk_setter eta_proc pgdir).
Definition set_kstack : Z -> proc -> proc := ltac:(mk_setter eta_proc kstack).
Definition set_state : procstate -> proc -> proc := ltac:(mk_setter eta_proc state).
Definition set_pid : Z -> proc -> proc := ltac:(mk_setter eta_proc pid).
Definition set_parent : option nat -> proc -> proc := ltac:(mk_setter eta_proc parent).
Definition set_tf_ptr : Z -> proc -> proc := ltac:(mk_setter eta_proc tf_ptr).
Definition set_tf : trapframe -> proc -> proc := ltac:(mk_setter eta_proc tf).
Definition set_context_ptr : Z -> proc -> proc := ltac:(mk_setter eta_proc context_ptr).
Definition set_p_context : context -> proc -> proc := ltac:(mk_setter eta_proc p_context).
Definition set_p_chan : option chan -> proc -> proc := ltac:(mk_setter eta_proc p_chan).
Definition set_killed : bool -> proc -> proc := ltac:(mk_setter eta_proc killed).
Definition set_ofile : list (option nat) -> proc -> proc := ltac:(mk_setter eta_proc ofile).
Definition set_cwd : option nat -> proc -> proc := ltac:(mk_setter eta_proc cwd).
Definition set_name : list Z -> proc -> proc := ltac:(mk_setter eta_proc name).
Definition set_pending : Z -> proc -> proc := ltac:(mk_setter eta_proc pending).
Definition set_signals : list Z -> proc -> proc := ltac:(mk_setter eta_proc signals).
Definition set_alarmEnd : Z -> proc -> proc := ltac:(mk_setter eta_proc alarmEnd).

(** A never used entry of the process table: C zero-initialises it. *)
Definition proc_zero : proc :=
  mkproc 0 0 0 UNUSED 0 None 0 tf_zero 0 (mkcontext 0 0 0 0 0) None false
    (replicate NOFILE None) None (replicate 16 0) 0 (replicate NUMSIG 0) 0.

(** mmu.h: struct segdesc. *)
Record segdesc := mkseg {
  lim_15_0 : Z; base_15_0 : Z; base_23_16 : Z; sd_type : Z; sd_s : Z; sd_dpl : Z;
  sd_p : Z; lim_19_16 : Z; sd_avl : Z; sd_rsv1 : Z; sd_db : Z; sd_g : Z; base_31_24 : Z;
}.

Definition SEG (type base lim dpl : Z) : segdesc :=
  mkseg (Z.land (Z.shiftr lim 12) 65535) (Z.land base 65535) (Z.land (Z.shiftr base 16) 255)
    type 1 dpl 1 (Z.shiftr lim 28) 0 0 1 1 (Z.shiftr base 24).
Definition SEG16 (type base lim dpl : Z) : segdesc :=
  mkseg (Z.land lim 65535) (Z.land base 65535) (Z.land (Z.shiftr base 16) 255)
    type 1 dpl 1 (Z.shiftr lim 16) 0 0 1 0 (Z.shiftr base 24).
Definition sd_clear_s (d : segdesc) : segdesc :=
  mkseg (lim_15_0 d) (base_15_0 d) (base_23_16 d) (sd_type d) 0 (sd_dpl d) (sd_p d)
    (lim_19_16 d) (sd_avl d) (sd_rsv1 d) (sd_db d) (sd_g d) (base_31_24 d).

(** The segment state of a CPU: its descriptor table, the registers that
    refer to it, and the two fields of the task state next to esp0 that
    the kernel sets. *)
Record segs := mksegs {
  gdt : list segdesc;
  gdtr : Z * Z;
  idtr : Z * Z;
  tr : Z;
  gs : Z;
  ts_ss0 : Z;
  ts_iomb : Z;
}.
Definition eta_segs (x : segs) : segs := mksegs (gdt x) (gdtr x) (idtr x) (tr x) (gs x) (ts_ss0 x) (ts_iomb x).
Definition set_gdt : list segdesc -> segs -> segs := ltac:(mk_setter eta_segs gdt).
Definition set_gdtr : Z * Z -> segs -> segs := ltac:(mk_setter eta_segs gdtr).
Definition set_idtr : Z * Z -> segs -> segs := ltac:(mk_setter eta_segs idtr).
Definition set_tr : Z -> segs -> segs := ltac:(mk_setter eta_segs tr).
Definition set_gs : Z -> segs -> segs := ltac:(mk_setter eta_segs gs).
Definition set_ts_ss0 : Z -> segs -> segs := ltac:(mk_setter eta_segs ts_ss0).
Definition set_ts_iomb : Z -> segs -> segs := ltac:(mk_setter eta_segs ts_iomb).

(** proc.h: struct cpu, with the processor's registers the kernel
    touches: the interrupt flag of eflags, the page-table base [cr3], the
    ring-0 stack pointer of the task state and the segments. *)
Record cpu := mkcpu {
  cpuid : Z;
  ncli : Z;
  intena : bool;
  iflag : bool;
  curproc : option nat;
  cr3 : Z;
  esp0 : Z;
  csegs : segs;
}.

Definition eta_cpu (c : cpu) : cpu :=
  mkcpu (cpuid c) (ncli c) (intena c) (iflag c) (curproc c) (cr3 c) (esp0 c) (csegs c).
Definition set_ncli : Z -> cpu -> cpu := ltac:(mk_setter eta_cpu ncli).
Definition set_intena : bool -> cpu -> cpu := ltac:(mk_setter eta_cpu intena).
Definition set_iflag : bool -> cpu -> cpu := ltac:(mk_setter eta_cpu iflag).
Definition set_curproc : option nat -> cpu -> cpu := ltac:(mk_setter eta_cpu curproc).
Definition set_cr3 : Z -> cpu -> cpu := ltac:(mk_setter eta_cpu cr3).
Definition set_esp0 : Z -> cpu -> cpu := ltac:(mk_setter eta_cpu esp0).
Definition set_csegs : segs -> cpu -> cpu := ltac:(mk_setter eta_cpu csegs).

(** Addresses of the fields of [cpus[i]] whose address is taken. *)
Definition cpu_ts `{Link} (c : cpu) : Z := a_cpus + 188 * cpuid c + 8.
Definition cpu_gdt `{Link} (c : cpu) : Z := a_cpus + 188 * cpuid c + 112.
Definition cpu_local `{Link} (c : cpu) : Z := a_cpus + 188 * cpuid c + 180.

(** pipe.c: struct pipe. *)
Definition PIPESIZE : Z := 512.
Record pipe := mkpipe {
  p_data : list Z;
  nread : Z;
  nwrite : Z;
  readopen : bool;
  writeopen : bool;
}.
Definition eta_pipe (p : pipe) : pipe :=
  mkpipe (p_data p) (nread p) (nwrite p) (readopen p) (writeopen p).
Definition set_p_data : list Z -> pipe -> pipe := ltac:(mk_setter eta_pipe p_data).
Definition set_nread : Z -> pipe -> pipe := ltac:(mk_setter eta_pipe nread).
Definition set_nwrite : Z -> pipe -> pipe := ltac:(mk_setter eta_pipe nwrite).
Definition set_readopen : bool -> pipe -> pipe := ltac:(mk_setter eta_pipe readopen).
Definition set_writeopen : bool -> pipe -> pipe := ltac:(mk_setter eta_pipe writeopen).

(** file.h: struct file. *)
Inductive ftype := FD_NONE | FD_PIPE | FD_INODE.
#[export] Instance ftype_eq_dec : EqDecision ftype.
Proof. solve_decision. Defined.
Record file := mkfile {
  f_type : ftype;
  f_ref : Z;
  f_readable : bool;
  f_writable : bool;
  f_pipe : Z;
  f_ip : option nat;
  f_off : Z;
}.
Definition eta_file (f : file) : file :=
  mkfile (f_type f) (f_ref f) (f_readable f) (f_writable f) (f_pipe f) (f_ip f) (f_off f).
Definition set_f_type : ftype -> file -> file := ltac:(mk_setter eta_file f_type).
Definition set_f_ref : Z -> file -> file := ltac:(mk_setter eta_file f_ref).
Definition set_f_readable : bool -> file -> file := ltac:(mk_setter eta_file f_readable).
Definition set_f_writable : bool -> file -> file := ltac:(mk_setter eta_file f_writable).
Definition set_f_pipe : Z -> file -> file := ltac:(mk_setter eta_file f_pipe).
Definition set_f_ip : option nat -> file -> file := ltac:(mk_setter eta_file f_ip).
Definition set_f_off : Z -> file -> file := ltac:(mk_setter eta_file f_off).
Definition file_zero : file := mkfile FD_NONE 0 false false 0 None 0.

(** buf.h: struct buf.  The LRU list and the disk queue link buffers by
    their position in the cache; position [NBUF] is the list head
    [bcache.head]. *)
Record buf := mkbuf {
  b_flags : Z;
  b_dev : Z;
  b_blockno : Z;
  b_refcnt : Z;
  b_prev : nat;
  b_next : nat;
  b_qnext : option nat;
  b_data : list Z;
}.
Definition eta_buf (b : buf) : buf :=
  mkbuf (b_flags b) (b_dev b) (b_blockno b) (b_refcnt b) (b_prev b) (b_next b) (b_qnext b) (b_data b).
Definition set_b_flags : Z -> buf -> buf := ltac:(mk_setter eta_buf b_flags).
Definition set_b_dev : Z -> buf -> buf := ltac:(mk_setter eta_buf b_dev).
Definition set_b_blockno : Z -> buf -> buf := ltac:(mk_setter eta_buf b_blockno).
Definition set_b_refcnt : Z -> buf -> buf := ltac:(mk_setter eta_buf b_refcnt).
Definition set_b_prev : nat -> buf -> buf := ltac:(mk_setter eta_buf b_prev).
Definition set_b_next : nat -> buf -> buf := ltac:(mk_setter eta_buf b_next).
Definition set_b_qnext : option nat -> buf -> buf := ltac:(mk_setter eta_buf b_qnext).
Definition set_b_data : list Z -> buf -> buf := ltac:(mk_setter eta_buf b_data).
Definition BSIZE : Z := 512.
Definition buf_zero : buf := mkbuf 0 0 0 0 0 0 None (replicate (Z.to_nat BSIZE) 0).

(** log.c: struct log, with its struct logheader. *)
Record logst := mklog {
  lg_start : Z;
  lg_size : Z;
  lg_outstanding : Z;
  lg_committing : bool;
  lg_dev : Z;
  lh_n : Z;
  lh_block : list Z;
}.
Definition eta_log (l : logst) : logst :=
  mklog (lg_start l) (lg_size l) (lg_outstanding l) (lg_committing l) (lg_dev l) (lh_n l) (lh_block l).
Definition set_lg_start : Z -> logst -> logst := ltac:(mk_setter eta_log lg_start).
Definition set_lg_size : Z -> logst -> logst := ltac:(mk_setter eta_log lg_size).
Definition set_lg_outstanding : Z -> logst -> logst := ltac:(mk_setter eta_log lg_outstanding).
Definition set_lg_committing : bool -> logst -> logst := ltac:(mk_setter eta_log lg_committing).
Definition set_lg_dev : Z -> logst -> logst := ltac:(mk_setter eta_log lg_dev).
Definition set_lh_n : Z -> logst -> logst := ltac:(mk_setter eta_log lh_n).
Definition set_lh_block : list Z -> logst -> logst := ltac:(mk_setter eta_log lh_block).
Definition log_zero : logst := mklog 0 0 0 false 0 0 (replicate 30 0).

(** fs.h: struct superblock. *)
Record superblock := mksb {
  sb_size : Z; sb_nblocks : Z; sb_ninodes : Z; sb_nlog : Z;
  sb_logstart : Z; sb_inodestart : Z; sb_bmapstart : Z;
}.

(** file.h: struct inode; its sleep lock is [SLinode] of its position. *)
Record inode := mkinode {
  i_dev : Z;
  i_inum : Z;
  i_ref : Z;
  i_flags : Z;
  i_type : Z;
  i_major : Z;
  i_minor : Z;
  i_nlink : Z;
  i_size : Z;
  i_addrs : list Z;
}.
Definition eta_inode (i : inode) : inode :=
  mkinode (i_dev i) (i_inum i) (i_ref i) (i_flags i) (i_type i) (i_major i) (i_minor i)
    (i_nlink i) (i_size i) (i_addrs i).
Definition set_i_dev : Z -> inode -> inode := ltac:(mk_setter eta_inode i_dev).
Definition set_i_inum : Z -> inode -> inode := ltac:(mk_setter eta_inode i_inum).
Definition set_i_ref : Z -> inode -> inode := ltac:(mk_setter eta_inode i_ref).
Definition set_i_flags : Z -> inode -> inode := ltac:(mk_setter eta_inode i_flags).
Definition set_i_type : Z -> inode -> inode := ltac:(mk_setter eta_inode i_type).
Definition set_i_major : Z -> inode -> inode := ltac:(mk_setter eta_inode i_major).
Definition set_i_minor : Z -> inode -> inode := ltac:(mk_setter eta_inode i_minor).
Definition set_i_nlink : Z -> inode -> inode := ltac:(mk_setter eta_inode i_nlink).
Definition set_i_size : Z -> inode -> inode := ltac:(mk_setter eta_inode i_size).
Definition set_i_addrs : list Z -> inode -> inode := ltac:(mk_setter eta_inode i_addrs).
Definition inode_zero : inode := mkinode 0 0 0 0 0 0 0 0 0 (replicate 13 0).

(** mmu.h: struct gatedesc, and the macro that fills one in. *)
Record gatedesc := mkgate {
  g_off_15_0 : Z; g_cs : Z; g_args : Z; g_rsv1 : Z; g_type : Z;
  g_s : Z; g_dpl : Z; g_p : Z; g_off_31_16 : Z;
}.
Definition STS_IG32 : Z := 14.
Definition STS_TG32 : Z := 15.
Definition SETGATE (istrap : bool) (sel off d : Z) : gatedesc :=
  mkgate (Z.land off 65535) sel 0 0 (if istrap then STS_TG32 else STS_IG32) 0 d 1 (Z.shiftr off 16).
Definition gate_zero : gatedesc := mkgate 0 0 0 0 0 0 0 0 0.

(** console.c: the input buffer. *)
Record inbuf := mkinbuf { in_buf : list Z; in_r : Z; in_w : Z; in_e : Z }.
Definition eta_inbuf (x : inbuf) : inbuf := mkinbuf (in_buf x) (in_r x) (in_w x) (in_e x).
Definition set_in_buf : list Z -> inbuf -> inbuf := ltac:(mk_setter eta_inbuf in_buf).
Definition set_in_r : Z -> inbuf -> inbuf := ltac:(mk_setter eta_inbuf in_r).
Definition set_in_w : Z -> inbuf -> inbuf := ltac:(mk_setter eta_inbuf in_w).
Definition set_in_e : Z -> inbuf -> inbuf := ltac:(mk_setter eta_inbuf in_e).

(** mp.c and lapic.c: what is known of the processors: the globals
    [ismp], [ncpu], [ioapicid], [lapic], the [apicid] and [started] of each
    CPU, and whether [cpunum] has complained already. *)
Record mpst := mkmp {
  ismp : bool;
  ncpu : Z;
  ioapicid : Z;
  lapic : Z;
  apicids : list Z;
  started : list Z;
  cpunum_n : Z;
}.
Definition eta_mp (m : mpst) : mpst :=
  mkmp (ismp m) (ncpu m) (ioapicid m) (lapic m) (apicids m) (started m) (cpunum_n m).
Definition set_ismp : bool -> mpst -> mpst := ltac:(mk_setter eta_mp ismp).
Definition set_ncpu : Z -> mpst -> mpst := ltac:(mk_setter eta_mp ncpu).
Definition set_ioapicid : Z -> mpst -> mpst := ltac:(mk_setter eta_mp ioapicid).
Definition set_lapic : Z -> mpst -> mpst := ltac:(mk_setter eta_mp lapic).
Definition set_apicids : list Z -> mpst -> mpst := ltac:(mk_setter eta_mp apicids).
Definition set_started : list Z -> mpst -> mpst := ltac:(mk_setter eta_mp started).
Definition set_cpunum_n : Z -> mpst -> mpst := ltac:(mk_setter eta_mp cpunum_n).
Definition NCPU : nat := 8.
Definition mp_zero : mpst := mkmp false 0 0 0 (replicate NCPU 0) (replicate NCPU 0) 0.

(** A register of a device: an I/O port, a register of the local APIC or
    of the I/O APIC. *)
Inductive devreg := Port (p : Z) | Lapic (r : Z) | Ioapic (r : Z).

(** ** The state

    [locks] maps every spinlock that is locked to the CPU recorded as
    its holder; a lock that is not in the map is free.  [slocks] does the
    same for sleep locks, with the pid of the holder.  [phys] is the
    physical memory, by byte; an absent byte is 0.  [disk] holds the
    contents of the disks by device and block.  [crt] and [crt_pos]
    are the text screen and its cursor, [uart_out] what was sent to the
    serial port, [dev_out] what was written to the registers of the other
    devices; [kbd_in]
    and [uart_in] the bytes waiting in the keyboard controller and the
    serial port; [ide_cmd] the device and sector of the last command given
    to the disk controller, and [ide_err] the error bits of its status.
    [oob_pending] and [oob_alarmEnd] are the words of memory where the
    fields of a process-table entry numbered NPROC, one past the end,
    would be. *)
Record kst := mkkst {
  kcpu : cpu;
  locks : gmap lockid Z;
  phys : gmap Z Z;
  use_lock : bool;
  freelist : Z;
  kpgdir : Z;
  procs : list proc;
  nextpid : Z;
  initproc : option nat;
  ticks : Z;
  cons_locking : bool;
  panicked : bool;
  crt : list Z;
  crt_pos : Z;
  uart : bool;
  uart_out : list Z;
  oob_pending : Z;
  oob_alarmEnd : Z;
  pipes : gmap Z pipe;
  files : list file;
  slocks : gmap slid Z;
  bcache : list buf;
  disk : gmap (Z * Z) (list Z);
  idequeue : option nat;
  log : logst;
  sb : superblock;
  icache : list inode;
  input : inbuf;
  mpc : mpst;
  irqmask : Z;
  dev_out : list (devreg * Z);
  kbd_shift : Z;
  kbd_in : list Z;
  uart_in : list Z;
  idt : list gatedesc;
  forkret_first : bool;
  devsw_console : bool;
  havedisk1 : bool;
  ide_cmd : option (Z * Z);
  ide_err : bool;
}.

Definition eta_kst (s : kst) : kst :=
  mkkst (kcpu s) (locks s) (phys s) (use_lock s) (freelist s) (kpgdir s) (procs s) (nextpid s)
    (initproc s) (ticks s) (cons_locking s) (panicked s) (crt s) (crt_pos s) (uart s) (uart_out
    s) (oob_pending s) (oob_alarmEnd s) (pipes s) (files s) (slocks s) (bcache s) (disk s)
    (idequeue s) (log s) (sb s) (icache s) (input s) (mpc s) (irqmask s) (dev_out s) (kbd_shift s)
    (kbd_in s) (uart_in s) (idt s) (forkret_first s) (devsw_console s) (havedisk1 s) (ide_cmd s) (ide_err s).
Definition set_kcpu : cpu -> kst -> kst := ltac:(mk_setter eta_kst kcpu).
Definition set_locks : gmap lockid Z -> kst -> kst := ltac:(mk_setter eta_kst locks).
Definition set_phys : gmap Z Z -> kst -> kst := ltac:(mk_setter eta_kst phys).
Definition set_use_lock : bool -> kst -> kst := ltac:(mk_setter eta_kst use_lock).
Definition set_freelist : Z -> kst -> kst := ltac:(mk_setter eta_kst freelist).
Definition set_kpgdir : Z -> kst -> kst := ltac:(mk_setter eta_kst kpgdir).
Definition set_procs : list proc -> kst -> kst := ltac:(mk_setter eta_kst procs).
Definition set_nextpid : Z -> kst -> kst := ltac:(mk_setter eta_kst nextpid).
Definition set_initproc : option nat -> kst -> kst := ltac:(mk_setter eta_kst initproc).
Definition set_ticks : Z -> kst -> kst := ltac:(mk_setter eta_kst ticks).
Definition set_cons_locking : bool -> kst -> kst := ltac:(mk_setter eta_kst cons_locking).
Definition set_panicked : bool -> kst -> kst := ltac:(mk_setter eta_kst panicked).
Definition set_crt : list Z -> kst -> kst := ltac:(mk_setter eta_kst crt).
Definition set_crt_pos : Z -> kst -> kst := ltac:(mk_setter eta_kst crt_pos).
Definition set_uart : bool -> kst -> kst := ltac:(mk_setter eta_kst uart).
Definition set_uart_out : list Z -> kst -> kst := ltac:(mk_setter eta_kst uart_out).
Definition set_oob_pending : Z -> kst -> kst := ltac:(mk_setter eta_kst oob_pending).
Definition set_oob_alarmEnd : Z -> kst -> kst := ltac:(mk_setter eta_kst oob_alarmEnd).
Definition set_pipes : gmap Z pipe -> kst -> kst := ltac:(mk_setter eta_kst pipes).
Definition set_files : list file -> kst -> kst := ltac:(mk_setter eta_kst files).
Definition set_slocks : gmap slid Z -> kst -> kst := ltac:(mk_setter eta_kst slocks).
Definition set_bcache : list buf -> kst -> kst := ltac:(mk_setter eta_kst bcache).
Definition set_disk : gmap (Z * Z) (list Z) -> kst -> kst := ltac:(mk_setter eta_kst disk).
Definition set_idequeue : option nat -> kst -> kst := ltac:(mk_setter eta_kst idequeue).
Definition set_log : logst -> kst -> kst := ltac:(mk_setter eta_kst log).
Definition set_sb : superblock -> kst -> kst := ltac:(mk_setter eta_kst sb).
Definition set_icache : list inode -> kst -> kst := ltac:(mk_setter eta_kst icache).
Definition set_input : inbuf -> kst -> kst := ltac:(mk_setter eta_kst input).
Definition set_mpc : mpst -> kst -> kst := ltac:(mk_setter eta_kst mpc).
Definition set_irqmask : Z -> kst -> kst := ltac:(mk_setter eta_kst irqmask).
Definition set_dev_out : list (devreg * Z) -> kst -> kst := ltac:(mk_setter eta_kst dev_out).
Definition set_kbd_shift : Z -> kst -> kst := ltac:(mk_setter eta_kst kbd_shift).
Definition set_kbd_in : list Z -> kst -> kst := ltac:(mk_setter eta_kst kbd_in).
Definition set_uart_in : list Z -> kst -> kst := ltac:(mk_setter eta_kst uart_in).
Definition set_idt : list gatedesc -> kst -> kst := ltac:(mk_setter eta_kst idt).
Definition set_forkret_first : bool -> kst -> kst := ltac:(mk_setter eta_kst forkret_first).
Definition set_devsw_console : bool -> kst -> kst := ltac:(mk_setter eta_kst devsw_console).
Definition set_havedisk1 : bool -> kst -> kst := ltac:(mk_setter eta_kst havedisk1).
Definition set_ide_cmd : option (Z * Z) -> kst -> kst := ltac:(mk_setter eta_kst ide_cmd).
Definition set_ide_err : bool -> kst -> kst := ltac:(mk_setter eta_kst ide_err).

(** Storing back a field's own value changes nothing. *)
Lemma set_kcpu_id s : set_kcpu (kcpu s) s = s.
Proof. by destruct s. Qed.
Lemma set_locks_id s : set_locks (locks s) s = s.
Proof. by destruct s. Qed.
Lemma set_phys_id s : set_phys (phys s) s = s.
Proof. by destruct s. Qed.
Lemma set_use_lock_id s : set_use_lock (use_lock s) s = s.
Proof. by destruct s. Qed.
Lemma set_freelist_id s : set_freelist (freelist s) s = s.
Proof. by destruct s. Qed.
Lemma set_kpgdir_id s : set_kpgdir (kpgdir s) s = s.
Proof. by destruct s. Qed.
Lemma set_procs_id s : set_procs (procs s) s = s.
Proof. by destruct s. Qed.
Lemma set_procs_twice a b s : set_procs a (set_procs b s) = set_procs a s.
Proof. done. Qed.
Lemma set_nextpid_id s : set_nextpid (nextpid s) s = s.
Proof. by destruct s. Qed.
Lemma set_initproc_id s : set_initproc (initproc s) s = s.
Proof. by destruct s. Qed.
Lemma set_ticks_id s : set_ticks (ticks s) s = s.
Proof. by destruct s. Qed.
Lemma set_cons_locking_id s : set_cons_locking (cons_locking s) s = s.
Proof. by destruct s. Qed.
Lemma set_panicked_id s : set_panicked (panicked s) s = s.
Proof. by destruct s. Qed.
Lemma set_crt_id s : set_crt (crt s) s = s.
Proof. by destruct s. Qed.
Lemma set_crt_pos_id s : set_crt_pos (crt_pos s) s = s.
Proof. by destruct s. Qed.
Lemma set_uart_id s : set_uart (uart s) s = s.
Proof. by destruct s. Qed.
Lemma set_uart_out_id s : set_uart_out (uart_out s) s = s.
Proof. by destruct s. Qed.
Lemma set_oob_pending_id s : set_oob_pending (oob_pending s) s = s.
Proof. by destruct s. Qed.
Lemma set_oob_alarmEnd_id s : set_oob_alarmEnd (oob_alarmEnd s) s = s.
Proof. by destruct s. Qed.
Lemma set_pipes_id s : set_pipes (pipes s) s = s.
Proof. by destruct s. Qed.
Lemma set_files_id s : set_files (files s) s = s.
Proof. by destruct s. Qed.
Lemma set_slocks_id s : set_slocks (slocks s) s = s.
Proof. by destruct s. Qed.
Lemma set_bcache_id s : set_bcache (bcache s) s = s.
Proof. by destruct s. Qed.
Lemma set_disk_id s : set_disk (disk s) s = s.
Proof. by destruct s. Qed.
Lemma set_idequeue_id s : set_idequeue (idequeue s) s = s.
Proof. by destruct s. Qed.
Lemma set_log_id s : set_log (log s) s = s.
Proof. by destruct s. Qed.
Lemma set_sb_id s : set_sb (sb s) s = s.
Proof. by destruct s. Qed.
Lemma set_icache_id s : set_icache (icache s) s = s.
Proof. by destruct s. Qed.
Lemma set_input_id s : set_input (input s) s = s.
Proof. by destruct s. Qed.
Lemma set_mpc_id s : set_mpc (mpc s) s = s.
Proof. by destruct s. Qed.
Lemma set_irqmask_id s : set_irqmask (irqmask s) s = s.
Proof. by destruct s. Qed.
Lemma set_dev_out_id s : set_dev_out (dev_out s) s = s.
Proof. by destruct s. Qed.
Lemma set_kbd_shift_id s : set_kbd_shift (kbd_shift s) s = s.
Proof. by destruct s. Qed.
Lemma set_kbd_in_id s : set_kbd_in (kbd_in s) s = s.
Proof. by destruct s. Qed.
Lemma set_uart_in_id s : set_uart_in (uart_in s) s = s.
Proof. by destruct s. Qed.
Lemma set_idt_id s : set_idt (idt s) s = s.
Proof. by destruct s. Qed.
Lemma set_forkret_first_id s : set_forkret_first (forkret_first s) s = s.
Proof. by destruct s. Qed.
Lemma set_devsw_console_id s : set_devsw_console (devsw_console s) s = s.
Proof. by destruct s. Qed.
Lemma set_havedisk1_id s : set_havedisk1 (havedisk1 s) s = s.
Proof. by destruct s. Qed.
Lemma set_ide_cmd_id s : set_ide_cmd (ide_cmd s) s = s.
Proof. by destruct s. Qed.
Lemma set_ide_err_id s : set_ide_err (ide_err s) s = s.
Proof. by destruct s. Qed.

(** ** The monad *)

(** Why a kernel function does not go on. *)
Inductive wait :=
| WSpin (l : lockid)      (* spins on a lock nobody releases *)
| WSched                  (* gave up the CPU and is never chosen again *)
| WHalt                   (* the CPU stopped in an endless loop *)
| WFuel.                  (* loop bound reached: shown not to happen *)

Inductive outcome (A : Type) :=
| Ok (a : A) (s : kst) (env : list (kst -> kst))
| Panic (msg : string)
| Blocked (w : wait) (s : kst).
Arguments Ok {A} a s env.
Arguments Panic {A} msg.
Arguments Blocked {A} w s.

Definition M (A : Type) : Type := list (kst -> kst) -> kst -> outcome A.

Definition ret {A} (a : A) : M A := fun env s => Ok a s env.

Definition bind {A B} (m : M A) (f : A -> M B) : M B := fun env s =>
  match m env s with
  | Ok a s' env' => f a env' s'
  | Panic msg => Panic msg
  | Blocked w s' => Blocked w s'
  end.

Definition panic {A} (msg : string) : M A := fun _ _ => Panic msg.
Definition gets {A} (f : kst -> A) : M A := fun env s => Ok (f s) s env.
Definition modify (f : kst -> kst) : M unit := fun env s => Ok tt (f s) env.
Definition halt {A} (w : wait) : M A := fun _ s => Blocked w s.

(** Let the rest of the system run: the next change of [env] happens. *)
Definition wait_env (w : wait) : M unit := fun env s =>
  match env with
  | [] => Blocked w s
  | e :: env' => Ok tt (e s) env'
  end.

Declare Scope kernel_scope.
Delimit Scope kernel_scope with kernel.
Notation "'let!' x := m 'in' k" := (bind m (fun x => k))
  (at level 200, x name, right associativity) : kernel_scope.
Notation "'let!' ( x , y ) := m 'in' k" := (bind m (fun p => let (x, y) := p in k))
  (at level 200, x name, y name, right associativity) : kernel_scope.
Notation "m ;; k" := (bind m (fun _ => k))
  (at level 100, right associativity) : kernel_scope.
#[global] Open Scope kernel_scope.

Definition when (b : bool) (m : M unit) : M unit := if b then m else ret tt.

(** [for(;;)] and [while] loops.  The body returns [inl] to go round
    again with new local variables and [inr] to leave. *)
Fixpoint loop_n {L A} (n : nat) (body : L -> M (L + A)) (l : L) : M A :=
  match n with
  | O => halt WFuel
  | S n' =>
      let! r := body l in
      match r with
      | inl l' => loop_n n' body l'
      | inr a => ret a
      end
  end.

(** A loop every iteration of which waits: [S (length env)] iterations
    are enough, since each one but the last uses up a change of [env]. *)
Definition wait_loop {L A} (body : L -> M (L + A)) (l : L) : M A :=
  fun env s => loop_n (S (length env)) body l env s.

(** [for x in l do f x], for loops that change the state. *)
Fixpoint for_each {X} (l : list X) (f : X -> M unit) : M unit :=
  match l with
  | [] => ret tt
  | x :: l' => f x ;; for_each l' f
  end.

(** ** Running a function step by step *)

Lemma bind_ok {A B} (m : M A) (f : A -> M B) env s a s' env' :
  m env s = Ok a s' env' -> bind m f env s = f a env' s'.
Proof. unfold bind. by intros ->. Qed.

Lemma bind_gets {A B} (g : kst -> A) (f : A -> M B) env s :
  bind (gets g) f env s = f (g s) env s.
Proof. done. Qed.
Lemma bind_modify {B} g (f : unit -> M B) env s :
  bind (modify g) f env s = f tt env (g s).
Proof. done. Qed.
Lemma bind_ret {A B} (a : A) (f : A -> M B) env s : bind (ret a) f env s = f a env s.
Proof. done. Qed.
Lemma bind_assoc {A B C} (m : M A) (f : A -> M B) (g : B -> M C) env s :
  bind (bind m f) g env s = bind m (fun a => bind (f a) g) env s.
Proof. unfold bind. by destruct (m env s). Qed.
Lemma bind_if {A B} (b : bool) (m1 m2 : M A) (f : A -> M B) env s :
  bind (if b then m1 else m2) f env s = (if b then bind m1 f else bind m2 f) env s.
Proof. by destruct b. Qed.

Create HintDb kernel.
#[export] Hint Rewrite @bind_gets @bind_modify @bind_ret @bind_assoc : kernel.

(** [mrun] performs the steps of a function that only read and write the
    state; [mstep H] performs the next call, by its lemma [H]. *)
Ltac mrun := autorewrite with kernel; simpl.
Ltac mstep H := rewrite (bind_ok _ _ _ _ _ _ _ H); mrun.

(** ** Runs in the presence of others

    [runs B o Q]: a run that does not panic, spin or stop: it returns in a
    state that satisfies [Q], unless it waits in the scheduler in a state
    that satisfies [B] and nothing ever happens that lets it go on. *)

Definition runs {A} (B : kst -> Prop) (o : outcome A) (Q : A -> kst -> list (kst -> kst) -> Prop) : Prop :=
  match o with
  | Ok a s env => Q a s env
  | Blocked WSched s => B s
  | _ => False
  end.

Lemma runs_bind {A C} B (m : M A) (f : A -> M C) env s Q R :
  runs B (m env s) Q -> (forall a s' env', Q a s' env' -> runs B (f a env' s') R) ->
  runs B (bind m f env s) R.
Proof. unfold bind. destruct (m env s) as [a s' env'| |[]]; simpl; auto. Qed.

Lemma runs_mono {A} B (o : outcome A) (Q R : A -> kst -> list (kst -> kst) -> Prop) :
  runs B o Q -> (forall a s env, Q a s env -> R a s env) -> runs B o R.
Proof. destruct o as [| |[]]; simpl; auto. Qed.

Lemma runs_ok {A} B (o : outcome A) a s env (Q : A -> kst -> list (kst -> kst) -> Prop) :
  o = Ok a s env -> Q a s env -> runs B o Q.
Proof. by intros ->. Qed.

(** A loop whose every turn uses up a change of [env] ends; [Inv] is its
    invariant. *)
Lemma runs_wait_loop {L A} B (body : L -> M (L + A)) (Inv : L -> kst -> list (kst -> kst) -> Prop)
    (Q : A -> kst -> list (kst -> kst) -> Prop) :
  (forall l env s, Inv l s env ->
     runs B (body l env s) (fun r s' env' =>
       match r with
       | inl l' => Inv l' s' env' /\ (length env' < length env)%nat
       | inr a => Q a s' env'
       end)) ->
  forall l env s, Inv l s env -> runs B (wait_loop body l env s) Q.
Proof.
  intros Hb l env s HI. unfold wait_loop.
  assert (length env < S (length env))%nat as Hn by lia. revert Hn.
  generalize (S (length env)) as n. intros n. revert l env s HI.
  induction n as [|n IH]; intros l env s HI Hn; [lia|]. cbn [loop_n].
  eapply runs_bind; [by apply Hb|]. intros [l'|x] s' env' H; cbn in H; [|done].
  destruct H as [H1 H2]. apply IH; [done|lia].
Qed.

(** ** The current process *)

(** [proc]: dereferencing a null [proc] faults in the kernel. *)
Definition myproc : M nat :=
  let! p := gets (fun s => curproc (kcpu s)) in
  match p with Some i => ret i | None => panic "trap" end.

Definition get_proc (i : nat) : M proc := fun env s =>
  match procs s !! i with Some p => Ok p s env | None => Panic "trap" end.

Definition mod_proc (i : nat) (f : proc -> proc) : M unit :=
  modify (fun s => set_procs (upd i f (procs s)) s).

Definition myproc_get : M (nat * proc) :=
  let! i := myproc in let! p := get_proc i in ret (i, p).

(** CPU [s] runs process [i], whose entry is [p]. *)
Definition cur (s : kst) (i : nat) (p : proc) : Prop :=
  curproc (kcpu s) = Some i /\ procs s !! i = Some p.

Lemma myproc_is env s i : curproc (kcpu s) = Some i -> myproc env s = Ok i s env.
Proof. intros H. unfold myproc, bind, gets. by rewrite H. Qed.
Lemma myproc_run env s i p : cur s i p -> myproc env s = Ok i s env.
Proof. intros [H _]. by apply myproc_is. Qed.
Lemma get_proc_run env s i p : procs s !! i = Some p -> get_proc i env s = Ok p s env.
Proof. unfold get_proc. by intros ->. Qed.
Lemma myproc_get_run env s i p : cur s i p -> myproc_get env s = Ok (i, p) s env.
Proof.
  intros H. unfold myproc_get. mstep (myproc_run env s i p H).
  by mstep (get_proc_run env s i p (proj2 H)).
Qed.

(** ** A small concrete state, for examples *)

Definition cpu_boot : cpu :=
  mkcpu 0 0 false true None 0 0 (mksegs (replicate 7 (mkseg 0 0 0 0 0 0 0 0 0 0 0 0 0)) (0, 0) (0, 0) 0 0 0 0).

Definition kst_boot : kst :=
  mkkst cpu_boot ∅ ∅ true 0 0 (replicate NPROC proc_zero) 1 None 0 true false
    (replicate (Z.to_nat 2000) 0) 0 true [] 0 0 ∅ (replicate NFILE file_zero)
    ∅ (replicate 31 buf_zero) ∅ None log_zero (mksb 0 0 0 0 0 0 0) (replicate 50 inode_zero)
    (mkinbuf (replicate 128 0) 0 0 0) mp_zero 65531 [] 0
    [] [] (replicate 256 gate_zero) true true true None false.

Definition link_example : Link := {|
  a_defaultHandler := 2148532000;
  a_forkret := 2148533000;
  a_trapret := 2148534000;
  a_end := 2148619264;
  a_cpus := 2148600000;
  a_data := 2148564992;
  a_vectors := fun i => 2148540000 + 8 * Z.of_nat i;
  a_idt := 2148610000;
  a_mpenter := 2148535000;
  a_entrypgdir := 2148569088;
|}.
