(* ===== verification/Spinlock.v ===== *)
(** * spinlock.c: spinlocks and nested interrupt disabling

    The functions of spinlock.c as operations on the kernel state, the
    lemmas every client of a lock uses, and a model of [acquire] and
    [release] run by several CPUs at once, one memory access at a time,
    with mutual exclusion by rule induction. *)

From stdpp Require Import base numbers list gmap strings.
From S2P Require Import Prelude Kernel.

(** ** The functions *)

Definition readeflags_IF : M bool := gets (fun s => iflag (kcpu s)).
Definition mod_cpu (f : cpu -> cpu) : M unit := modify (fun s => set_kcpu (f (kcpu s)) s).

Definition initlock (lk : lockid) : M unit :=
  modify (fun s => set_locks (delete lk (locks s)) s).

Definition holding (lk : lockid) : M bool :=
  gets (fun s => bool_decide (locks s !! lk = Some (cpuid (kcpu s)))).

Definition pushcli : M unit :=
  let! eflags := readeflags_IF in
  mod_cpu (set_iflag false) ;;
  let! n := gets (fun s => ncli (kcpu s)) in
  when (n =? 0) (mod_cpu (set_intena eflags)) ;;
  mod_cpu (set_ncli (n + 1)).

Definition popcli : M unit :=
  let! eflags := readeflags_IF in
  if eflags then panic "popcli - interruptible" else
  let! n := gets (fun s => ncli (kcpu s)) in
  mod_cpu (set_ncli (n - 1)) ;;
  if n - 1 <? 0 then panic "popcli" else
  let! i := gets (fun s => intena (kcpu s)) in
  when ((n - 1 =? 0) && i) (mod_cpu (set_iflag true)).

(** [xchg(&lk->locked, 1)]: the old value; a free lock becomes ours. *)
Definition xchg_locked (lk : lockid) : M bool := fun env s =>
  match locks s !! lk with
  | Some _ => Ok true s env
  | None => Ok false (set_locks (<[lk := cpuid (kcpu s)]> (locks s)) s) env
  end.

Definition acquire (lk : lockid) : M unit :=
  pushcli ;;
  let! h := holding lk in
  if h then panic "acquire" else
  wait_loop (fun _ : unit =>
    let! old := xchg_locked lk in
    if (old : bool) then wait_env (WSpin lk) ;; ret (inl tt) else ret (inr tt)) tt.

Definition release (lk : lockid) : M unit :=
  let! h := holding lk in
  if negb h then panic "release" else
  modify (fun s => set_locks (delete lk (locks s)) s) ;;
  popcli.

(** ** What they do *)

Definition pushed (c : cpu) : cpu :=
  set_ncli (ncli c + 1)
    (set_intena (if ncli c =? 0 then iflag c else intena c) (set_iflag false c)).
Definition popped (c : cpu) : cpu :=
  let c' := set_ncli (ncli c - 1) c in
  if (ncli c - 1 =? 0) && intena c then set_iflag true c' else c'.

(** Interrupts are off on a CPU that has pushed at least once. *)
Definition wf_cpu (c : cpu) : Prop := 0 <= ncli c /\ (0 < ncli c -> iflag c = false).

(** What one [pushcli]/[popcli] pair leaves behind: [intena] is only
    meaningful while [ncli] is positive. *)
Definition crit (c : cpu) : cpu :=
  set_intena (if ncli c =? 0 then iflag c else intena c) c.

Definition acquired (lk : lockid) (s : kst) : kst :=
  set_locks (<[lk := cpuid (kcpu s)]> (locks s)) (set_kcpu (pushed (kcpu s)) s).
Definition released (lk : lockid) (s : kst) : kst :=
  set_locks (delete lk (locks s)) (set_kcpu (popped (kcpu s)) s).

Lemma pushcli_run env s : pushcli env s = Ok tt (set_kcpu (pushed (kcpu s)) s) env.
Proof.
  unfold pushcli, bind, readeflags_IF, mod_cpu, gets, modify, when, pushed. simpl.
  destruct (ncli (kcpu s) =? 0); reflexivity.
Qed.

Lemma popcli_run env s :
  iflag (kcpu s) = false -> 0 < ncli (kcpu s) ->
  popcli env s = Ok tt (set_kcpu (popped (kcpu s)) s) env.
Proof.
  intros Hi Hn. unfold popcli, bind, readeflags_IF, mod_cpu, gets, modify, when, popped.
  simpl. rewrite Hi. destruct (Z.ltb_spec (ncli (kcpu s) - 1) 0); [lia|]. simpl.
  destruct (ncli (kcpu s) - 1 =? 0), (intena (kcpu s)); reflexivity.
Qed.

Lemma popped_pushed c : wf_cpu c -> popped (pushed c) = crit c.
Proof.
  intros [H1 H2]. destruct c as [i n a f p c3 e sg]; simpl in *.
  unfold popped, pushed, crit, set_iflag, set_ncli, set_intena; simpl in *.
  replace (n + 1 - 1) with n by lia.
  destruct (Z.eqb_spec n 0) as [->|Hn]; simpl; [by destruct f|].
  rewrite (H2 ltac:(lia)). done.
Qed.

Lemma crit_idem c : crit (crit c) = crit c.
Proof.
  destruct c as [i n a f p c3 e sg]; unfold crit, set_intena; simpl.
  destruct (n =? 0); done.
Qed.

Lemma crit_pushed c : wf_cpu c -> crit (pushed c) = pushed c.
Proof.
  intros [H _]. destruct c as [i n a f p c3 e sg]; unfold crit, pushed, set_intena, set_ncli, set_iflag; simpl in *.
  destruct (Z.eqb_spec (n + 1) 0); [lia|done].
Qed.

Lemma wf_pushed c : wf_cpu c -> wf_cpu (pushed c).
Proof. intros [? ?]. split; simpl; [lia|done]. Qed.
Lemma wf_crit c : wf_cpu c -> wf_cpu (crit c).
Proof. done. Qed.

Lemma acquire_free lk env s :
  locks s !! lk = None -> acquire lk env s = Ok tt (acquired lk s) env.
Proof.
  intros H. unfold acquire, bind. rewrite pushcli_run.
  unfold holding, gets. simpl. rewrite H. simpl.
  unfold wait_loop. simpl. unfold bind, xchg_locked. simpl. rewrite H. done.
Qed.

Lemma acquire_twice lk env s :
  locks s !! lk = Some (cpuid (kcpu s)) -> acquire lk env s = Panic "acquire".
Proof.
  intros H. unfold acquire, bind. rewrite pushcli_run.
  unfold holding, gets. simpl. by rewrite H, bool_decide_eq_true_2.
Qed.

Lemma release_held lk env s :
  locks s !! lk = Some (cpuid (kcpu s)) ->
  iflag (kcpu s) = false -> 0 < ncli (kcpu s) ->
  release lk env s = Ok tt (released lk s) env.
Proof.
  intros H Hi Hn. unfold release, bind, holding, gets.
  rewrite bool_decide_eq_true_2 by done. simpl.
  rewrite popcli_run by done. done.
Qed.

Lemma released_acquired lk s :
  locks s !! lk = None -> wf_cpu (kcpu s) ->
  released lk (acquired lk s) = set_kcpu (crit (kcpu s)) s.
Proof.
  intros H Hw. unfold released, acquired. simpl.
  rewrite popped_pushed by done. rewrite delete_insert_id by done.
  destruct s; reflexivity.
Qed.

(** A critical section: what [body] does between [acquire] and [release]
    is what it does to the state apart from the lock and the CPU. *)
Lemma critical {A B} lk (body : M A) (k : A -> M B) env env' s s' a :
  locks s !! lk = None -> wf_cpu (kcpu s) -> kcpu s' = kcpu s -> locks s' = locks s ->
  body env (acquired lk s) = Ok a (acquired lk s') env' ->
  (acquire lk ;; bind body (fun a => release lk ;; k a)) env s =
    k a env' (set_kcpu (crit (kcpu s)) s').
Proof.
  intros Hl Hw Hc Hk Hb. rewrite (bind_ok _ _ _ _ _ _ _ (acquire_free lk env s Hl)).
  rewrite (bind_ok _ _ _ _ _ _ _ Hb). erewrite bind_ok; [|apply release_held; simpl].
  - rewrite released_acquired by congruence. by rewrite Hc.
  - by rewrite lookup_insert_eq.
  - done.
  - rewrite Hc. destruct Hw. lia.
Qed.

(** Releasing the lock taken in [s], in a state [t] reached meanwhile. *)
Lemma release_crit lk env s t :
  locks s !! lk = None -> wf_cpu (kcpu s) ->
  locks t = <[lk := cpuid (kcpu s)]> (locks s) -> kcpu t = pushed (kcpu s) ->
  release lk env t = Ok tt (set_locks (locks s) (set_kcpu (crit (kcpu s)) t)) env.
Proof.
  intros Hl Hw E1 E2. rewrite release_held.
  - unfold released. rewrite E1, E2, popped_pushed, delete_insert_id by done. done.
  - rewrite E1, E2. by rewrite lookup_insert_eq.
  - by rewrite E2.
  - rewrite E2. destruct Hw. simpl. lia.
Qed.

(** The next call releases the lock [lk] that was taken in [s]. *)
Ltac crit_release lk s Hl Hw :=
  erewrite bind_ok by (apply (release_crit lk _ s _ Hl Hw); reflexivity).

(** Interrupts after any well-nested sequence of [pushcli] and [popcli]. *)
Fixpoint pushcli_n (n : nat) : M unit :=
  match n with O => ret tt | S n => pushcli ;; pushcli_n n end.
Fixpoint popcli_n (n : nat) : M unit :=
  match n with O => ret tt | S n => popcli ;; popcli_n n end.

Lemma pushcli_n_run n env s :
  wf_cpu (kcpu s) ->
  exists s', pushcli_n n env s = Ok tt s' env /\
    ncli (kcpu s') = ncli (kcpu s) + Z.of_nat n /\
    ((0 < n)%nat -> iflag (kcpu s') = false /\
       intena (kcpu s') = (if ncli (kcpu s) =? 0 then iflag (kcpu s) else intena (kcpu s))) /\
    (n = 0%nat -> s' = s).
Proof.
  revert s. induction n as [|n IH]; intros s Hw; simpl.
  { exists s. split_and!; auto; lia. }
  unfold bind. rewrite pushcli_run.
  destruct (IH (set_kcpu (pushed (kcpu s)) s)) as (s' & -> & Hn & Hp & Hz);
    [by apply wf_pushed|]. simpl in *.
  destruct Hw as [Hw1 Hw2].
  exists s'. split_and!; [done|lia| |lia]. intros _.
  destruct n as [|n]; [rewrite Hz by done; simpl; done|].
  destruct Hp as [Hp1 Hp2]; [lia|]. split; [done|]. rewrite Hp2.
  destruct (Z.eqb_spec (ncli (kcpu s) + 1) 0); [lia|done].
Qed.

Lemma popcli_n_run n env s :
  iflag (kcpu s) = false -> ncli (kcpu s) = Z.of_nat n -> (0 < n)%nat ->
  exists s', popcli_n n env s = Ok tt s' env /\
    ncli (kcpu s') = 0 /\ iflag (kcpu s') = intena (kcpu s).
Proof.
  revert s. induction n as [|n IH]; intros s Hi Hn Hpos; [lia|]. simpl.
  unfold bind. rewrite popcli_run by (done || lia).
  destruct n as [|n].
  { simpl. eexists. split; [reflexivity|]. simpl.
    unfold popped. rewrite Hn. simpl. destruct (intena (kcpu s)) eqn:E; simpl; done. }
  assert (Hp : popped (kcpu s) = set_ncli (Z.of_nat (S n)) (kcpu s)).
  { unfold popped. rewrite Hn. replace (Z.of_nat (S (S n)) - 1) with (Z.of_nat (S n)) by lia.
    destruct (Z.eqb_spec (Z.of_nat (S n)) 0); [lia|done]. }
  rewrite Hp.
  destruct (IH (set_kcpu (set_ncli (Z.of_nat (S n)) (kcpu s)) s)) as (s' & E & H1 & H2);
    [done|done|lia|]. exists s'. split; [exact E|]. split; [done|]. rewrite H2. done.
Qed.

(** ** Several CPUs *)

Module Smp.

(** Where a CPU is in [acquire] or [release].  Every constructor is a
    point between two accesses to the shared words of the lock. *)
Inductive pc :=
| Idle        (* does not hold the lock and is not asking for it *)
| Pushed      (* acquire: after pushcli, before reading lk->locked *)
| HoldA       (* acquire: lk->locked was not 0, before reading lk->cpu *)
| Spin        (* acquire: in the xchg loop *)
| Got         (* acquire: xchg returned 0, before lk->cpu = cpu *)
| Crit        (* holds the lock *)
| HoldR       (* release: lk->locked was not 0, before reading lk->cpu *)
| Rel         (* release: checked, before lk->cpu = 0 *)
| Cleared     (* release: before movl $0, lk->locked *)
| Freed       (* release: before popcli *)
| Panicked.
#[export] Instance pc_eq_dec : EqDecision pc.
Proof. solve_decision. Defined.

Record st := mkst { locked : Z; owner : option nat; pcs : list pc }.

Definition at_pc (s : st) (c : nat) (p : pc) : Prop := pcs s !! c = Some p.
Definition goto (s : st) (c : nat) (p : pc) : st := mkst (locked s) (owner s) (<[c := p]> (pcs s)).

Inductive step : st -> st -> Prop :=
| s_pushcli s c : at_pc s c Idle -> step s (goto s c Pushed)
| s_hold_free s c : at_pc s c Pushed -> locked s = 0 -> step s (goto s c Spin)
| s_hold_locked s c : at_pc s c Pushed -> locked s <> 0 -> step s (goto s c HoldA)
| s_hold_mine s c : at_pc s c HoldA -> owner s = Some c -> step s (goto s c Panicked)
| s_hold_other s c : at_pc s c HoldA -> owner s <> Some c -> step s (goto s c Spin)
| s_xchg_busy s c : at_pc s c Spin -> locked s <> 0 ->
    step s (mkst 1 (owner s) (<[c := Spin]> (pcs s)))
| s_xchg_free s c : at_pc s c Spin -> locked s = 0 ->
    step s (mkst 1 (owner s) (<[c := Got]> (pcs s)))
| s_setcpu s c : at_pc s c Got -> step s (mkst (locked s) (Some c) (<[c := Crit]> (pcs s)))
| s_rel_free s c : at_pc s c Crit -> locked s = 0 -> step s (goto s c Panicked)
| s_rel_locked s c : at_pc s c Crit -> locked s <> 0 -> step s (goto s c HoldR)
| s_rel_mine s c : at_pc s c HoldR -> owner s = Some c -> step s (goto s c Rel)
| s_rel_other s c : at_pc s c HoldR -> owner s <> Some c -> step s (goto s c Panicked)
| s_clrcpu s c : at_pc s c Rel -> step s (mkst (locked s) None (<[c := Cleared]> (pcs s)))
| s_unlock s c : at_pc s c Cleared -> step s (mkst 0 (owner s) (<[c := Freed]> (pcs s)))
| s_popcli s c : at_pc s c Freed -> step s (goto s c Idle).

Definition init (n : nat) : st := mkst 0 None (replicate n Idle).

Inductive reachable (n : nat) : st -> Prop :=
| r_init : reachable n (init n)
| r_step s s' : reachable n s -> step s s' -> reachable n s'.

(** Between the successful xchg and the store that frees the lock. *)
Definition inside (p : pc) : bool :=
  match p with Got | Crit | HoldR | Rel | Cleared => true | _ => false end.
(** Between [lk->cpu = cpu] and [lk->cpu = 0]. *)
Definition owning (p : pc) : bool :=
  match p with Crit | HoldR | Rel => true | _ => false end.

(** [h] is the CPU inside, if any: [locked] and [owner] follow from it. *)
Definition owner_of (ps : list pc) (h : option nat) : option nat :=
  c ← h; p ← ps !! c; if owning p then Some c else None.

Definition rep (s : st) (h : option nat) : Prop :=
  (forall c p, at_pc s c p -> inside p = bool_decide (h = Some c) /\ p <> Panicked) /\
  (h = None <-> locked s = 0) /\
  owner s = owner_of (pcs s) h.

Definition inv (s : st) : Prop := exists h, rep s h.

Lemma owning_inside p : owning p = true -> inside p = true.
Proof. by destruct p. Qed.

(** CPU [c] moves to [q]; the new holder is [h']. *)
Lemma rep_move s h c p q h' l' :
  rep s h -> at_pc s c p -> q <> Panicked ->
  inside q = bool_decide (h' = Some c) ->
  (forall d, d <> c -> h' = Some d <-> h = Some d) ->
  (h' = None <-> l' = 0) ->
  rep (mkst l' (owner_of (<[c := q]> (pcs s)) h') (<[c := q]> (pcs s))) h'.
Proof.
  intros (Hin & _ & _) Hp Hq Hc Hd Hl. unfold rep; split_and!; [|done|done].
  intros d x. unfold at_pc; simpl. destruct (decide (d = c)) as [->|Hne].
  - rewrite list_lookup_insert_eq by (by eapply lookup_lt_Some). intros [= <-]. done.
  - rewrite list_lookup_insert_ne by done. intros Hx.
    destruct (Hin d x Hx) as [-> Hx']. split; [|done].
    apply bool_decide_ext. by rewrite Hd.
Qed.

Lemma owner_of_insert ps c p q h :
  ps !! c = Some p -> owning p = owning q ->
  owner_of (<[c := q]> ps) h = owner_of ps h.
Proof.
  intros Hp Hpq. destruct h as [d|]; [|done]. simpl.
  destruct (decide (d = c)) as [->|Hne].
  - rewrite list_lookup_insert_eq by (by eapply lookup_lt_Some).
    rewrite Hp. simpl. by rewrite Hpq.
  - by rewrite list_lookup_insert_ne.
Qed.

Lemma owner_of_self ps c q :
  (c < length ps)%nat ->
  owner_of (<[c := q]> ps) (Some c) = if owning q then Some c else None.
Proof. intros H. simpl. by rewrite list_lookup_insert_eq. Qed.

(** A move that changes neither the holder nor the owner. *)
Lemma rep_quiet s h c p q l' :
  rep s h -> at_pc s c p -> q <> Panicked ->
  inside p = inside q -> owning p = owning q -> (h = None <-> l' = 0) ->
  rep (mkst l' (owner s) (<[c := q]> (pcs s))) h.
Proof.
  intros Hr Hp Hq Hi Ho Hl. pose proof Hr as (Hin & _ & ->).
  rewrite <- (owner_of_insert _ c p q) by done.
  apply (rep_move s h c p q); auto.
  rewrite <- Hi. by apply Hin.
Qed.

(** What the invariant says of one CPU. *)
Lemma rep_inside s h c p : rep s h -> at_pc s c p -> inside p = true -> h = Some c.
Proof. intros (Hin & _) Hp Hi. destruct (Hin _ _ Hp) as [H _]. by case_bool_decide; congruence. Qed.

Lemma rep_owner s h c p : rep s h -> at_pc s c p -> owning p = true <-> owner s = Some c.
Proof.
  intros Hr Hp. pose proof Hr as (Hin & Hl & ->). split.
  - intros Ho. rewrite (rep_inside s h c p Hr Hp) by (by apply owning_inside).
    simpl. unfold at_pc in Hp. rewrite Hp. simpl. by rewrite Ho.
  - destruct h as [d|]; [|done]. simpl. destruct (pcs s !! d) as [x|] eqn:E; [|done]. simpl.
    destruct (owning x) eqn:E'; [|done]. intros [= ->]. unfold at_pc in Hp. congruence.
Qed.

Lemma rep_free s h c p : rep s h -> at_pc s c p -> inside p = true -> locked s <> 0.
Proof.
  intros Hr Hp Hi. rewrite (rep_inside _ _ _ _ Hr Hp Hi) in Hr.
  destruct Hr as (_ & Hl & _). intros E. by apply Hl in E.
Qed.

Lemma rep_step s s' : inv s -> step s s' -> inv s'.
Proof.
  intros [h Hr] Hs. pose proof Hr as (Hin & Hl & Hown).
  destruct Hs as
    [s c H|s c H E|s c H E|s c H E|s c H E|s c H E|s c H E|s c H
    |s c H E|s c H E|s c H E|s c H E|s c H|s c H|s c H]; unfold goto.
  1,2,3,5,10,11,15: exists h; eapply rep_quiet; eauto.
  - apply (rep_owner _ _ _ _ Hr H) in E. done.
  - exists h. eapply rep_quiet; eauto. rewrite Hl. lia.
  - exists (Some c). assert (h = None) as -> by tauto.
    rewrite Hown. pose proof (rep_move s None c Spin Got (Some c) 1 Hr H) as Hm.
    rewrite owner_of_self in Hm by (by eapply lookup_lt_Some).
    apply Hm; auto; [by rewrite bool_decide_eq_true_2|split; congruence|done].
  - exists h. pose proof (rep_inside _ _ _ _ Hr H eq_refl) as ->.
    pose proof (rep_move s (Some c) c Got Crit (Some c) (locked s) Hr H) as Hm.
    rewrite owner_of_self in Hm by (by eapply lookup_lt_Some).
    apply Hm; auto. by rewrite bool_decide_eq_true_2.
  - exfalso. by eapply rep_free in E.
  - exfalso. apply E. by apply (rep_owner _ _ _ _ Hr H).
  - exists h. pose proof (rep_inside _ _ _ _ Hr H eq_refl) as ->.
    pose proof (rep_move s (Some c) c Rel Cleared (Some c) (locked s) Hr H) as Hm.
    rewrite owner_of_self in Hm by (by eapply lookup_lt_Some).
    apply Hm; auto. by rewrite bool_decide_eq_true_2.
  - exists None. pose proof (rep_inside _ _ _ _ Hr H eq_refl) as ->.
    assert (owner s = None) as ->.
    { rewrite Hown. simpl. unfold at_pc in H. by rewrite H. }
    apply (rep_move s (Some c) c Cleared Freed None 0 Hr H); auto; split; congruence.
Qed.

Lemma smp_reachable_inv n s : reachable n s -> inv s.
Proof.
  induction 1; [|by eapply rep_step].
  exists None. unfold rep; split_and!; [|done|done].
  intros c p H. unfold at_pc, init in H. simpl in H.
  apply lookup_replicate in H as [-> _]. done.
Qed.

(** C9: spinlock.c, any number of CPUs, every interleaving of the
    accesses [acquire] and [release] make to [lk->locked] and [lk->cpu]:
    no two CPUs are ever between a successful [xchg] and the store that
    frees the lock; whoever is in its critical section is the owner
    recorded in [lk->cpu] with [lk->locked] set; and no CPU that calls
    [acquire] and [release] alternately ever reaches one of their
    panics. *)
Theorem spinlock_mutual_exclusion n s :
  reachable n s ->
  (forall c d p q, at_pc s c p -> at_pc s d q ->
     inside p = true -> inside q = true -> c = d) /\
  (forall c, at_pc s c Crit -> owner s = Some c /\ locked s <> 0) /\
  (forall c, ~ at_pc s c Panicked).
Proof.
  intros [h Hr]%smp_reachable_inv. split_and!.
  - intros c d p q Hc Hd Hp Hq.
    pose proof (rep_inside _ _ _ _ Hr Hc Hp). pose proof (rep_inside _ _ _ _ Hr Hd Hq). congruence.
  - intros c Hc. split; [by apply (rep_owner _ _ _ _ Hr Hc)|by eapply rep_free].
  - intros c Hc. destruct Hr as (Hin & _). by destruct (Hin _ _ Hc).
Qed.

Lemma spinlock_mutual_exclusion_witness :
  reachable 2 (mkst 1 (Some 0%nat) [Crit; Spin]) /\
  owner (mkst 1 (Some 0%nat) [Crit; Spin]) = Some 0%nat.
Proof.
  assert (reachable 2 (mkst 1 (Some 0%nat) [Crit; Spin])) as Hr;
    [|split; [exact Hr|]; by apply (spinlock_mutual_exclusion 2 _ Hr)].
  eapply r_step; [|apply (s_setcpu (mkst 1 None [Got; Spin]) 0%nat eq_refl)].
  eapply r_step; [|apply (s_xchg_free (mkst 0 None [Spin; Spin]) 0%nat eq_refl eq_refl)].
  eapply r_step; [|apply (s_hold_free (mkst 0 None [Spin; Pushed]) 1%nat eq_refl eq_refl)].
  eapply r_step; [|apply (s_pushcli (mkst 0 None [Spin; Idle]) 1%nat eq_refl)].
  eapply r_step; [|apply (s_hold_free (mkst 0 None [Pushed; Idle]) 0%nat eq_refl eq_refl)].
  eapply r_step; [|apply (s_pushcli (mkst 0 None [Idle; Idle]) 0%nat eq_refl)].
  apply r_init.
Defined.

End Smp.

(** spinlock.c, pushcli/popcli: after [n] nested [pushcli] calls,
    interrupts are off, and [n] matching [popcli] calls bring back the
    nesting depth 0 and the interrupt flag the CPU had before, whatever
    it was; none of them panics. *)
Theorem pushcli_popcli_nest n env s :
  (0 < n)%nat -> ncli (kcpu s) = 0 ->
  exists s1 s2,
    pushcli_n n env s = Ok tt s1 env /\ iflag (kcpu s1) = false /\
    popcli_n n env s1 = Ok tt s2 env /\
    ncli (kcpu s2) = 0 /\ iflag (kcpu s2) = iflag (kcpu s).
Proof.
  intros Hn H0.
  destruct (pushcli_n_run n env s) as (s1 & E1 & H1 & H2 & _); [split; [lia|by rewrite H0]|].
  destruct (H2 Hn) as [Hi Ha]. rewrite H0 in Ha. simpl in Ha.
  destruct (popcli_n_run n env s1) as (s2 & E2 & H3 & H4); [done|lia|done|].
  exists s1, s2. split_and!; auto. congruence.
Qed.

Lemma pushcli_popcli_nest_witness :
  exists s1 s2,
    pushcli_n 3 [] kst_boot = Ok tt s1 [] /\ iflag (kcpu s1) = false /\
    popcli_n 3 [] s1 = Ok tt s2 [] /\
    ncli (kcpu s2) = 0 /\ iflag (kcpu s2) = iflag (kcpu kst_boot).
Proof. apply (pushcli_popcli_nest 3 [] kst_boot); [lia | reflexivity]. Defined.
