(* ===== verification/Sched.v ===== *)
(** * proc.c, scheduling: sched, yield, sleep, wakeup, scheduler

    Also [switchuvm] and [switchkvm] of vm.c, which the scheduler calls.
    The context switch [swtch] is the point at which the rest of the
    system runs: it consumes one change of the environment. *)

From stdpp Require Import base numbers list gmap strings.
From S2P Require Import Prelude Kernel Spinlock.

(** ** vm.c: switching address spaces *)

Definition V2P (a : Z) : Z := u32 (a - KERNBASE).
Definition P2V (a : Z) : Z := u32 (a + KERNBASE).

Definition switchkvm : M unit :=
  let! k := gets kpgdir in
  mod_cpu (set_cr3 (V2P k)).

Definition mod_segs (f : segs -> segs) : M unit := mod_cpu (fun c => set_csegs (f (csegs c)) c).

Definition SIZEOF_TASKSTATE : Z := 104.

Definition switchuvm `{Link} (i : nat) : M unit :=
  let! p := get_proc i in
  if kstack p =? 0 then panic "switchuvm: no kstack" else
  if pgdir p =? 0 then panic "switchuvm: no pgdir" else
  pushcli ;;
  let! c := gets kcpu in
  mod_segs (fun g => set_gdt (<[Z.to_nat SEG_TSS :=
    SEG16 STS_T32A (cpu_ts c) (SIZEOF_TASKSTATE - 1) 0]> (gdt g)) g) ;;
  mod_segs (fun g => set_gdt (upd (Z.to_nat SEG_TSS) sd_clear_s (gdt g)) g) ;;
  mod_segs (set_ts_ss0 (Z.shiftl SEG_KDATA 3)) ;;
  mod_cpu (set_esp0 (u32 (kstack p + KSTACKSIZE))) ;;
  mod_segs (set_ts_iomb 65535) ;;
  mod_segs (set_tr (Z.shiftl SEG_TSS 3)) ;;
  mod_cpu (set_cr3 (V2P (pgdir p))) ;;
  popcli.

(** ** Giving up the CPU *)

(** [swtch] to the scheduler, and back when it chooses this process. *)
Definition swtch : M unit := wait_env WSched.

Definition sched : M unit :=
  let! h := holding LPtable in
  if negb h then panic "sched ptable.lock" else
  let! n := gets (fun s => ncli (kcpu s)) in
  if negb (n =? 1) then panic "sched locks" else
  let! (_, p) := myproc_get in
  if bool_decide (state p = RUNNING) then panic "sched running" else
  let! f := readeflags_IF in
  if (f : bool) then panic "sched interruptible" else
  let! ie := gets (fun s => intena (kcpu s)) in
  swtch ;;
  mod_cpu (set_intena ie).

Definition yield : M unit :=
  acquire LPtable ;;
  let! i := myproc in
  mod_proc i (set_state RUNNABLE) ;;
  sched ;;
  release LPtable.

Definition sleep (c : chan) (lk : lockid) : M unit :=
  let! cp := gets (fun s => curproc (kcpu s)) in
  match cp with
  | None => panic "sleep"
  | Some _ =>
      (if bool_decide (lk = LPtable) then ret tt
       else acquire LPtable ;; release lk) ;;
      let! i := myproc in
      mod_proc i (set_p_chan (Some c)) ;;
      mod_proc i (set_state SLEEPING) ;;
      sched ;;
      let! i := myproc in
      mod_proc i (set_p_chan None) ;;
      (if bool_decide (lk = LPtable) then ret tt
       else release LPtable ;; acquire lk)
  end.

(** ** Waking up *)

Definition wake (c : option chan) (p : proc) : proc :=
  if bool_decide (state p = SLEEPING) && bool_decide (p_chan p = c)
  then set_state RUNNABLE p else p.

Definition wakeup1 (c : option chan) : M unit :=
  modify (fun s => set_procs (wake c <$> procs s) s).

Definition wakeup (c : chan) : M unit :=
  acquire LPtable ;;
  wakeup1 (Some c) ;;
  release LPtable.

(** ** The scheduler *)

(** One visit of the scan over the process table. *)
Definition sched_visit `{Link} (i : nat) : M unit :=
  let! p := get_proc i in
  if negb (bool_decide (state p = RUNNABLE)) then ret tt else
  mod_cpu (set_curproc (Some i)) ;;
  switchuvm i ;;
  mod_proc i (set_state RUNNING) ;;
  swtch ;;
  switchkvm ;;
  mod_cpu (set_curproc None).

(** One iteration of [for(;;)]. *)
Definition scheduler_round `{Link} : M unit :=
  mod_cpu (set_iflag true) ;;
  acquire LPtable ;;
  for_each (seq 0 NPROC) sched_visit ;;
  release LPtable.

(** [scheduler] never returns: its first [n] rounds. *)
Fixpoint scheduler `{Link} (n : nat) : M unit :=
  match n with
  | O => ret tt
  | S n => scheduler_round ;; scheduler n
  end.

(** ** What they do *)

(** The process is on the wait queue of [c], and has released [lk]. *)
Definition asleep (i : nat) (c : chan) (lk : lockid) (s : kst) : kst :=
  let s1 := released lk (acquired LPtable s) in
  set_procs (upd i (set_state SLEEPING) (upd i (set_p_chan (Some c)) (procs s))) s1.

(** A CPU that holds one lock with interrupts off, as [sleep] requires. *)
Definition holds_only (s : kst) (lk : lockid) : Prop :=
  locks s !! lk = Some (cpuid (kcpu s)) /\ ncli (kcpu s) = 1 /\ iflag (kcpu s) = false.

Lemma wakeup_run c env s :
  locks s !! LPtable = None -> wf_cpu (kcpu s) ->
  wakeup c env s =
    Ok tt (set_procs (wake (Some c) <$> procs s) (set_kcpu (crit (kcpu s)) s)) env.
Proof.
  intros Hl Hw. unfold wakeup. mstep (acquire_free LPtable env s Hl).
  unfold wakeup1. mrun.
  rewrite release_held; simpl; [|by rewrite lookup_insert_eq|done|destruct Hw; lia].
  f_equal. change (set_procs (wake (Some c) <$> procs s) (released LPtable (acquired LPtable s))
    = set_procs (wake (Some c) <$> procs s) (set_kcpu (crit (kcpu s)) s)).
  by rewrite released_acquired.
Qed.

(** The part of [sleep] that runs after the process was chosen again. *)
Definition after_sleep (lk : lockid) (ie : bool) : M unit :=
  mod_cpu (set_intena ie) ;;
  let! i := myproc in
  mod_proc i (set_p_chan None) ;;
  (if bool_decide (lk = LPtable) then ret tt
   else release LPtable ;; acquire lk).

Lemma sched_run env s i p :
  holds_only s LPtable -> cur s i p -> state p <> RUNNING ->
  sched env s = (swtch ;; mod_cpu (set_intena (intena (kcpu s)))) env s.
Proof.
  intros (Hl & Hn & Hi) Hc Hr. unfold sched, holding, readeflags_IF. mrun.
  rewrite bool_decide_eq_true_2 by done. simpl. mrun. rewrite Hn. simpl.
  mstep (myproc_get_run env s i p Hc). rewrite bool_decide_eq_false_2 by done.
  mrun. by rewrite Hi.
Qed.

Lemma holds_only_swap s lk :
  lk <> LPtable -> holds_only s lk ->
  holds_only (released lk (acquired LPtable s)) LPtable.
Proof.
  intros Hne (H1 & H2 & H3). unfold holds_only, released, acquired, popped, pushed. simpl.
  rewrite H2. simpl. split_and!; try done.
  by rewrite lookup_delete_ne, lookup_insert_eq.
Qed.

Lemma asleep_intena i c lk s : holds_only s lk -> intena (kcpu (asleep i c lk s)) = intena (kcpu s).
Proof.
  intros (H1 & H2 & H3). unfold asleep, released, acquired, popped, pushed. simpl.
  by rewrite H2.
Qed.

Lemma cur_asleep s i p c lk :
  cur s i p -> holds_only s lk ->
  cur (asleep i c lk s) i (set_state SLEEPING (set_p_chan (Some c) p)).
Proof.
  intros [H1 H2] (_ & Hn & _). unfold cur, asleep, released, acquired, popped, pushed. simpl.
  rewrite Hn. simpl. split; [done|]. by rewrite !lookup_upd_eq, H2.
Qed.

Lemma sleep_swtch c lk env s i p :
  lk <> LPtable -> cur s i p -> holds_only s lk -> locks s !! LPtable = None ->
  sleep c lk env s =
    (swtch ;; after_sleep lk (intena (kcpu s))) env (asleep i c lk s).
Proof.
  intros Hne Hc Hh Hp. pose proof Hh as (H1 & H2 & H3). unfold sleep. mrun.
  rewrite (proj1 Hc). rewrite bool_decide_eq_false_2 by done. mrun.
  mstep (acquire_free LPtable env s Hp).
  erewrite bind_ok; [|apply release_held; simpl; [by rewrite lookup_insert_ne|done|lia]].
  pose proof (cur_asleep s i p c lk Hc Hh) as [Hc1 Hc2].
  erewrite bind_ok; [|apply myproc_is; exact Hc1]. unfold mod_proc. mrun.
  unfold bind at 1.
  match goal with |- context [sched env ?st] => change st with (asleep i c lk s) end.
  rewrite (sched_run _ _ i (set_state SLEEPING (set_p_chan (Some c) p))).
  - unfold after_sleep, mod_proc. rewrite (asleep_intena i c lk s Hh).
    unfold swtch, wait_env, bind, mod_cpu, modify. destruct env; [done|]. simpl.
    by rewrite bool_decide_eq_false_2.
  - apply (holds_only_swap s lk Hne Hh).
  - by apply cur_asleep.
  - done.
Qed.

(** ** Coming back from sleep *)

(** What the scheduler hands over when it chooses process [i] again: the
    process is current, this CPU holds the process-table lock and nothing
    else, and the lock the sleeper wants back is free. *)
Record chosen (i : nat) (lk : lockid) (s : kst) : Prop := {
  ch_cur : curproc (kcpu s) = Some i;
  ch_lock : locks s !! LPtable = Some (cpuid (kcpu s));
  ch_ncli : ncli (kcpu s) = 1;
  ch_iflag : iflag (kcpu s) = false;
  ch_free : locks s !! lk = None;
}.

(** The state in which [sleep] returns. *)
Definition awake (i : nat) (lk : lockid) (ie : bool) (s : kst) : kst :=
  set_kcpu (set_intena ie (kcpu s))
    (set_locks (<[lk := cpuid (kcpu s)]> (delete LPtable (locks s)))
      (set_procs (upd i (set_p_chan None) (procs s)) s)).

Lemma after_sleep_run i lk ie env s :
  lk <> LPtable -> chosen i lk s ->
  after_sleep lk ie env s = Ok tt (awake i lk ie s) env.
Proof.
  intros Hne [H1 H2 H3 H4 H5]. unfold after_sleep, mod_cpu, mod_proc. mrun.
  rewrite (bind_ok _ _ _ _ _ _ _ (myproc_is _ (set_kcpu (set_intena ie (kcpu s)) s) i H1)). mrun.
  rewrite bool_decide_eq_false_2 by done.
  erewrite bind_ok by (apply release_held; simpl; [exact H2|exact H4|lia]).
  rewrite acquire_free by (simpl; by rewrite lookup_delete_ne).
  f_equal. unfold acquired, released, awake, popped, pushed. destruct s as [c ?]. destruct c; simpl in *. subst.
  simpl. by destruct ie.
Qed.

Lemma sleep_run c lk e env s i p :
  lk <> LPtable -> cur s i p -> holds_only s lk -> locks s !! LPtable = None ->
  chosen i lk (e (asleep i c lk s)) ->
  sleep c lk (e :: env) s = Ok tt (awake i lk (intena (kcpu s)) (e (asleep i c lk s))) env.
Proof.
  intros Hne Hc Hh Hp Hch. rewrite (sleep_swtch c lk (e :: env) s i p) by done.
  unfold swtch, wait_env. unfold bind at 1. by apply after_sleep_run.
Qed.

Lemma awake_holds i lk ie s :
  chosen i lk s -> holds_only (awake i lk ie s) lk.
Proof.
  intros [H1 H2 H3 H4 H5]. unfold holds_only, awake. simpl. by rewrite lookup_insert_eq.
Qed.
