(* ===== verification/Kalloc.v ===== *)
(** * kalloc.c: the physical page allocator

    The free list is a linked list threaded through the free pages
    themselves, as in the source: the first word of a free page holds
    the kernel address of the next one.  [fl_rep] ties it to the list of
    free pages it stands for. *)

From stdpp Require Import base numbers list gmap strings.
From S2P Require Import Prelude Kernel Spinlock Sched.

(** ** Bytes and words of physical memory *)

Definition mget (m : gmap Z Z) (a : Z) : Z := default 0 (m !! a).

Definition load32 (m : gmap Z Z) (a : Z) : Z :=
  mget m a + 256 * mget m (a + 1) + 65536 * mget m (a + 2) + 16777216 * mget m (a + 3).

(** The bytes of a word and of a half word, lowest first, as the x86
    stores them. *)
Definition bytes32 (v : Z) : list Z :=
  [v mod 256; (v / 256) mod 256; (v / 65536) mod 256; (v / 16777216) mod 256].
Definition bytes16 (v : Z) : list Z := [v mod 256; (v / 256) mod 256].

Fixpoint mput (m : gmap Z Z) (a : Z) (bs : list Z) : gmap Z Z :=
  match bs with
  | [] => m
  | b :: bs' => mput (<[a := b]> m) (a + 1) bs'
  end.

Definition store32 (m : gmap Z Z) (a : Z) (v : Z) : gmap Z Z := mput m a (bytes32 v).

(** [memset(dst, c, n)], on the bytes it sets. *)
Definition mset (m : gmap Z Z) (a : Z) (c : Z) (n : Z) : gmap Z Z :=
  mput m a (replicate (Z.to_nat n) (u8 c)).

#[global] Arguments store32 : simpl never.
#[global] Arguments load32 : simpl never.
#[global] Arguments mset : simpl never.
#[global] Arguments mget : simpl never.

Lemma mget_mput m a bs x :
  mget (mput m a bs) x =
    if (a <=? x) && (x <? a + Z.of_nat (length bs))
    then nth (Z.to_nat (x - a)) bs 0 else mget m x.
Proof.
  revert m a. induction bs as [|b bs IH]; intros m a; simpl.
  { zcase; simpl; auto; lia. }
  rewrite IH. zcase; simpl; try lia.
  all: try (unfold mget; by rewrite lookup_insert_ne by lia).
  - replace (Z.to_nat (x - a)) with (S (Z.to_nat (x - (a + 1)))) by lia. done.
  - replace x with a by lia. rewrite Z.sub_diag. simpl.
    unfold mget. by rewrite lookup_insert_eq.
Qed.

Lemma mget_mput_out m a bs x :
  x < a \/ a + Z.of_nat (length bs) <= x -> mget (mput m a bs) x = mget m x.
Proof.
  intros H. rewrite mget_mput.
  zcase; simpl; auto; lia.
Qed.

Lemma load32_store32 m a v : 0 <= v < 4294967296 -> load32 (store32 m a v) a = v.
Proof.
  intros Hv. unfold load32, store32. rewrite !mget_mput. unfold bytes32. simpl length.
  rewrite !(proj2 (Z.leb_le _ _)), !(proj2 (Z.ltb_lt _ _)) by lia.
  replace (a - a) with 0 by lia. replace (a + 1 - a) with 1 by lia.
  replace (a + 2 - a) with 2 by lia. replace (a + 3 - a) with 3 by lia.
  simpl. Z.div_mod_to_equations. lia.
Qed.

Lemma load32_mput_out m a bs x :
  x + 4 <= a \/ a + Z.of_nat (length bs) <= x -> load32 (mput m a bs) x = load32 m x.
Proof. intros H. unfold load32. rewrite !mget_mput_out by lia. done. Qed.

Lemma load32_ext m m' a :
  (forall x, a <= x < a + 4 -> mget m' x = mget m x) -> load32 m' a = load32 m a.
Proof. intros H. unfold load32. rewrite !H by lia. done. Qed.

Lemma load32_zero m a : (forall x, a <= x < a + 4 -> mget m x = 0) -> load32 m a = 0.
Proof. intros H. unfold load32. rewrite !H by lia. done. Qed.

Lemma load32_store32_ne m a v x : x + 4 <= a \/ a + 4 <= x -> load32 (store32 m a v) x = load32 m x.
Proof. intros H. unfold store32. by rewrite load32_mput_out. Qed.

Lemma mget_store32_ne m a v x : x < a \/ a + 4 <= x -> mget (store32 m a v) x = mget m x.
Proof. intros H. unfold store32. by rewrite mget_mput_out. Qed.

Lemma mset_mput m a c n : mset m a c n = mput m a (replicate (Z.to_nat n) (u8 c)).
Proof. done. Qed.
Lemma store32_mput m a v : store32 m a v = mput m a (bytes32 v).
Proof. done. Qed.
#[global] Opaque mset store32 load32.

(** ** The functions *)

Definition PGROUNDUP (a : Z) : Z := Z.land (u32 (a + PGSIZE - 1)) (u32 (Z.lnot (PGSIZE - 1))).
Definition PGROUNDDOWN (a : Z) : Z := Z.land a (u32 (Z.lnot (PGSIZE - 1))).

(** [if(kmem.use_lock) acquire(&kmem.lock)] and its counterpart. *)
Definition kmem_acquire : M unit := let! u := gets use_lock in when u (acquire LKmem).
Definition kmem_release : M unit := let! u := gets use_lock in when u (release LKmem).

Definition bad_page `{Link} (v : Z) : bool :=
  negb (v mod PGSIZE =? 0) || (v <? a_end) || (PHYSTOP <=? V2P v).

Definition kfree `{Link} (v : Z) : M unit :=
  if bad_page v then panic "kfree" else
  modify (fun s => set_phys (mset (phys s) (V2P v) 1 PGSIZE) s) ;;
  kmem_acquire ;;
  let! fl := gets freelist in
  modify (fun s => set_phys (store32 (phys s) (V2P v) fl) s) ;;
  modify (set_freelist v) ;;
  kmem_release.

(** The address of the page, 0 if there is none left. *)
Definition kalloc : M Z :=
  kmem_acquire ;;
  let! r := gets freelist in
  (if r =? 0 then ret tt
   else modify (fun s => set_freelist (load32 (phys s) (V2P r)) s)) ;;
  kmem_release ;;
  ret r.

Definition freerange `{Link} (vstart vend : Z) : M unit :=
  loop_n (S (Z.to_nat (vend / PGSIZE)))
    (fun p =>
      if p + PGSIZE <=? vend
      then kfree p ;; ret (inl (p + PGSIZE))
      else ret (inr tt))
    (PGROUNDUP vstart).

Definition kinit1 `{Link} (vstart vend : Z) : M unit :=
  initlock LKmem ;;
  modify (set_use_lock false) ;;
  freerange vstart vend.

Definition kinit2 `{Link} (vstart vend : Z) : M unit :=
  freerange vstart vend ;;
  modify (set_use_lock true).

(** ** The free list as a list of pages *)

(** A page [kfree] accepts, at a kernel address that is not null. *)
Definition good_page `{Link} (v : Z) : Prop :=
  v mod PGSIZE = 0 /\ a_end <= v /\ KERNBASE <= v < KERNBASE + PHYSTOP.

Fixpoint links (m : gmap Z Z) (head : Z) (l : list Z) : Prop :=
  match l with
  | [] => head = 0
  | v :: l' => head = v /\ links m (load32 m (V2P v)) l'
  end.

Definition fl_rep `{Link} (s : kst) (l : list Z) : Prop :=
  links (phys s) (freelist s) l /\ NoDup l /\ Forall good_page l.

Section kalloc_facts.
Context `{Link}.

(** The lock of the allocator can be taken: it is free, or locking has
    not been turned on yet. *)
Definition kmem_ready (s : kst) : Prop :=
  (use_lock s = true -> locks s !! LKmem = None) /\ wf_cpu (kcpu s).

(** The CPU after a call that took the allocator's lock, or did not. *)
Definition kmem_cpu (s : kst) : cpu := if use_lock s then crit (kcpu s) else kcpu s.

Lemma V2P_good v : good_page v -> V2P v = v - KERNBASE.
Proof.
  intros (_ & _ & Hv). unfold V2P. apply u32_small.
  unfold KERNBASE, PHYSTOP in *. lia.
Qed.

Lemma good_not_bad v : good_page v -> bad_page v = false.
Proof.
  intros Hg. unfold bad_page. rewrite (V2P_good v Hg).
  destruct Hg as (Ha & Hb & Hv). unfold KERNBASE, PHYSTOP in *. rewrite Ha. simpl.
  zcase; simpl; auto; lia.
Qed.

(** Pages are aligned, so distinct ones do not overlap. *)
Lemma pages_apart v w :
  good_page v -> good_page w -> v <> w -> v + PGSIZE <= w \/ w + PGSIZE <= v.
Proof.
  intros (Ha & _ & _) (Hb & _ & _) Hne. unfold PGSIZE in *.
  Z.div_mod_to_equations. lia.
Qed.

Lemma links_mput m a bs head l :
  links m head l ->
  (forall v, v ∈ l -> V2P v + 4 <= a \/ a + Z.of_nat (length bs) <= V2P v) ->
  links (mput m a bs) head l.
Proof.
  revert head. induction l as [|v l IH]; intros head; simpl; [done|].
  intros [-> Hl] Hd. split; [done|].
  rewrite load32_mput_out by (apply Hd; by left).
  apply IH; [done|]. intros w Hw. apply Hd. by right.
Qed.

Lemma kmem_acquire_run env s :
  kmem_ready s ->
  kmem_acquire env s = Ok tt (if use_lock s then acquired LKmem s else s) env.
Proof.
  intros [Hl Hw]. unfold kmem_acquire. mrun. unfold when.
  destruct (use_lock s); [|done]. apply acquire_free. auto.
Qed.

(** Leaving the critical section after changing memory and the list. *)
Lemma kmem_release_run env s m fl :
  kmem_ready s ->
  kmem_release env
    (set_freelist fl (set_phys m (if use_lock s then acquired LKmem s else s))) =
  Ok tt (set_freelist fl (set_phys m (set_kcpu (kmem_cpu s) s))) env.
Proof.
  intros [Hl Hw]. unfold kmem_release, kmem_cpu. mrun. unfold when.
  destruct (use_lock s) eqn:E; simpl.
  2: { rewrite E. by destruct s. }
  rewrite E. rewrite release_held; simpl; [|by rewrite lookup_insert_eq|done|destruct Hw; lia].
  f_equal. change (set_freelist fl (set_phys m (released LKmem (acquired LKmem s)))
    = set_freelist fl (set_phys m (set_kcpu (crit (kcpu s)) s))).
  rewrite released_acquired by auto. done.
Qed.

Lemma kmem_ready_phys s m : kmem_ready s -> kmem_ready (set_phys m s).
Proof. done. Qed.

(** What [kfree] leaves: the page filled with 1s but for its link. *)
Definition freed (v : Z) (s : kst) : kst :=
  set_freelist v
    (set_phys (store32 (mset (phys s) (V2P v) 1 PGSIZE) (V2P v) (freelist s))
      (set_kcpu (kmem_cpu s) s)).

Lemma kfree_good v env s :
  good_page v -> kmem_ready s -> kfree v env s = Ok tt (freed v s) env.
Proof.
  intros Hg Hr. unfold kfree, freed. rewrite (good_not_bad v Hg). mrun.
  generalize (mset (phys s) (V2P v) 1 PGSIZE). intros m.
  set (s1 := set_phys m s).
  mstep (kmem_acquire_run env s1 Hr).
  assert (phys (if use_lock s then acquired LKmem s1 else s1) = phys s1 /\
    freelist (if use_lock s then acquired LKmem s1 else s1) = freelist s) as [E1 E2]
    by (by destruct (use_lock s)).
  rewrite E1, E2. change (use_lock s) with (use_lock s1).
  by rewrite (kmem_release_run env s1).
Qed.

Lemma kalloc_run env s :
  kmem_ready s ->
  kalloc env s =
    Ok (freelist s)
       (set_freelist (if freelist s =? 0 then 0 else load32 (phys s) (V2P (freelist s)))
         (set_kcpu (kmem_cpu s) s)) env.
Proof.
  intros Hr. unfold kalloc. mstep (kmem_acquire_run env s Hr).
  set (s1 := if use_lock s then acquired LKmem s else s).
  assert (phys s1 = phys s /\ freelist s1 = freelist s) as [E1 E2]
    by (unfold s1; by destruct (use_lock s)).
  pose proof (fun fl => kmem_release_run env s (phys s) fl Hr) as Hrel. fold s1 in Hrel.
  rewrite <- E1, set_phys_id in Hrel. rewrite E2.
  destruct (Z.eqb_spec (freelist s) 0) as [E|E]; mrun.
  - specialize (Hrel (freelist s1)). rewrite set_freelist_id, E2, E in Hrel.
    mstep Hrel. unfold ret. rewrite E, E1. by destruct s.
  - rewrite E1 in *. mstep (Hrel (load32 (phys s) (V2P (freelist s)))).
    unfold ret. by destruct s.
Qed.

(** *** The free list as a stack of pages *)

Lemma fl_rep_head s l : fl_rep s l -> 0 <= freelist s < 4294967296.
Proof.
  intros (Hl & _ & Hf). destruct l as [|v l]; simpl in Hl; [lia|].
  destruct Hl as [-> _]. inversion Hf as [|? ? (_ & _ & Hv)]; subst.
  unfold KERNBASE, PHYSTOP in *. lia.
Qed.

Lemma fl_rep_freed v s l :
  good_page v -> v ∉ l -> fl_rep s l -> fl_rep (freed v s) (v :: l).
Proof.
  intros Hg Hv Hr. pose proof (fl_rep_head s l Hr) as Hh. destruct Hr as (Hl & Hd & Hf). unfold fl_rep, freed. simpl.
  split_and!; [done| |by apply NoDup_cons|by constructor].
  rewrite load32_store32 by done. rewrite store32_mput, mset_mput.
  assert (Hapart : forall w, w ∈ l -> V2P w + 4 <= V2P v \/ V2P v + PGSIZE <= V2P w).
  { intros w Hw. assert (good_page w) as Hgw by (by eapply Forall_forall in Hf).
    rewrite !V2P_good by done. pose proof (pages_apart v w Hg Hgw ltac:(set_solver)).
    unfold PGSIZE in *. lia. }
  apply links_mput; [apply links_mput; [done|]|].
  - intros w Hw. rewrite length_replicate. specialize (Hapart w Hw). unfold PGSIZE in *. lia.
  - intros w Hw. simpl length. specialize (Hapart w Hw). unfold PGSIZE in *. lia.
Qed.

Lemma fl_rep_pop v s l :
  fl_rep s (v :: l) ->
  freelist s = v /\ v <> 0 /\ good_page v /\ v ∉ l /\
  forall c, fl_rep (set_freelist (load32 (phys s) (V2P v)) (set_kcpu c s)) l.
Proof.
  intros ((Hh & Hl) & [Hv Hd]%NoDup_cons & [Hg Hf]%Forall_cons).
  split_and!; auto; [|intros c; by split_and!].
  destruct Hg as (_ & _ & Hr). unfold KERNBASE in Hr. lia.
Qed.

(** C11: kalloc.c: the allocator behaves as a stack of free pages.  With
    free pages [l]: [kalloc] returns the top page of [l] and leaves the
    rest, a page that is aligned, not null and not on the remaining list
    (so no page is handed out twice), or returns 0 and changes nothing
    when [l] is empty; [kfree] of an aligned page of physical memory
    above the kernel that is not free pushes it, and of anything else
    panics.  Both leave every lock, and every other part of the state but
    the free page's own bytes, as they found them. *)
Theorem kalloc_refines_stack env s l :
  kmem_ready s -> fl_rep s l ->
  (match l with
   | [] => kalloc env s = Ok 0 (set_kcpu (kmem_cpu s) s) env
   | v :: l' =>
       exists s', kalloc env s = Ok v s' env /\ fl_rep s' l' /\
         v <> 0 /\ good_page v /\ v ∉ l' /\
         locks s' = locks s /\ phys s' = phys s /\ procs s' = procs s
   end) /\
  (forall v, good_page v -> v ∉ l ->
     exists s', kfree v env s = Ok tt s' env /\ fl_rep s' (v :: l) /\
       locks s' = locks s /\ procs s' = procs s /\
       (forall a, a < V2P v \/ V2P v + PGSIZE <= a -> mget (phys s') a = mget (phys s) a)) /\
  (forall v, bad_page v = true -> kfree v env s = Panic "kfree").
Proof.
  intros Hr Hl. split_and!.
  - rewrite kalloc_run by done. destruct l as [|v l'].
    + destruct Hl as (Hh & _ & _). simpl in Hh. rewrite Hh. simpl. destruct s; simpl in *; by subst.
    + apply fl_rep_pop in Hl as (Hh & H0 & Hg & Hv & Hrep).
      rewrite Hh. destruct (Z.eqb_spec v 0); [done|]. eexists. split; [done|].
      split_and!; auto.
  - intros v Hg Hv. exists (freed v s).
    split_and!; [by apply kfree_good|by apply fl_rep_freed|done|done|].
    intros a Ha. unfold freed. simpl. rewrite store32_mput, mset_mput.
    rewrite !mget_mput_out; [done| |]; rewrite ?length_replicate; simpl length;
      unfold PGSIZE in *; lia.
  - intros v Hb. unfold kfree. by rewrite Hb.
Qed.

(** *** Filling the list *)

Lemma PGROUNDUP_eq a :
  0 <= a -> a + 4095 < 4294967296 -> PGROUNDUP a = (a + 4095) - (a + 4095) mod 4096.
Proof.
  intros H0 H1. unfold PGROUNDUP, PGSIZE. replace (a + 4096 - 1) with (a + 4095) by lia.
  rewrite u32_small by lia. change (u32 (Z.lnot (4096 - 1))) with 4294963200.
  apply land_page_mask. lia.
Qed.

(** The pages from [p] on, lowest first. *)
Definition page_run (p : Z) (k : nat) : list Z :=
  (fun i : nat => p + PGSIZE * Z.of_nat i) <$> seq 0 k.

Lemma page_run_S p k : page_run p (S k) = p :: page_run (p + PGSIZE) k.
Proof.
  unfold page_run. simpl. f_equal; [lia|]. rewrite <- fmap_S_seq, <- list_fmap_compose.
  apply list_fmap_ext. intros _ i _. simpl. lia.
Qed.

Lemma kmem_ready_freed v s : kmem_ready s -> kmem_ready (freed v s).
Proof.
  intros [Hl Hw]. split; [done|]. simpl. unfold kmem_cpu. destruct (use_lock s); [|done].
  by apply wf_crit.
Qed.

Lemma freerange_loop vend env n : forall p s l,
  (Z.to_nat ((vend - p) / PGSIZE) < n)%nat ->
  p mod PGSIZE = 0 -> a_end <= p -> KERNBASE <= p -> vend <= KERNBASE + PHYSTOP ->
  (forall w, w ∈ l -> w < p \/ vend <= w) ->
  fl_rep s l -> kmem_ready s ->
  exists s',
    loop_n n (fun p => if p + PGSIZE <=? vend then kfree p ;; ret (inl (p + PGSIZE))
                       else ret (inr tt)) p env s = Ok tt s' env /\
    fl_rep s' (reverse (page_run p (Z.to_nat ((vend - p) / PGSIZE))) ++ l) /\
    kmem_ready s' /\ locks s' = locks s /\ use_lock s' = use_lock s.
Proof.
  induction n as [|n IH]; intros p s l Hn Ha Hend Hk Hv Hw Hl Hr; [lia|]. simpl.
  destruct (Z.leb_spec (p + PGSIZE) vend) as [Hle|Hgt].
  - assert (good_page p) as Hg by (unfold good_page, PGSIZE in *; lia).
    assert (p ∉ l) as Hp by (intros Hin; destruct (Hw p Hin); unfold PGSIZE in *; lia).
    rewrite bind_assoc. mstep (kfree_good p env s Hg Hr).
    assert (Hk1 : Z.to_nat ((vend - p) / PGSIZE) = S (Z.to_nat ((vend - (p + PGSIZE)) / PGSIZE))).
    { unfold PGSIZE in *. Z.div_mod_to_equations. lia. }
    destruct (IH (p + PGSIZE) (freed p s) (p :: l)) as (s' & E & H1 & H2 & H3 & H4).
    + lia.
    + unfold PGSIZE in *. Z.div_mod_to_equations. lia.
    + unfold PGSIZE in *. lia.
    + unfold PGSIZE in *. lia.
    + done.
    + intros w [->|Hin]%elem_of_cons; [unfold PGSIZE; lia|].
      destruct (Hw w Hin); unfold PGSIZE; lia.
    + by apply fl_rep_freed.
    + by apply kmem_ready_freed.
    + exists s'. split; [exact E|]. rewrite Hk1, page_run_S, reverse_cons, <- app_assoc.
      split_and!; auto.
  - exists s. rewrite bind_ret.
    replace (Z.to_nat ((vend - p) / PGSIZE)) with 0%nat
      by (unfold PGSIZE in *; Z.div_mod_to_equations; lia).
    simpl. split_and!; auto.
Qed.

(** kalloc.c, freerange: called on a range of kernel addresses above
    [end] and below the top of physical memory, none of whose pages is
    free yet, it returns, having freed exactly the whole pages of the
    range: those from the first page boundary at or after [vstart] whose
    end does not pass [vend]; the last one freed is on top. *)
Theorem freerange_frees_whole_pages vstart vend env s l :
  kmem_ready s -> fl_rep s l ->
  a_end <= vstart -> KERNBASE <= vstart <= vend -> vend <= KERNBASE + PHYSTOP ->
  (forall w, w ∈ l -> w < vstart \/ vend <= w) ->
  let p := PGROUNDUP vstart in
  exists s', freerange vstart vend env s = Ok tt s' env /\
    fl_rep s' (reverse (page_run p (Z.to_nat ((vend - p) / PGSIZE))) ++ l) /\
    locks s' = locks s.
Proof.
  intros Hr Hl Hend Hk Hv Hw p.
  assert (Hp : p = vstart + 4095 - (vstart + 4095) mod 4096).
  { apply PGROUNDUP_eq; unfold KERNBASE, PHYSTOP in *; lia. }
  destruct (freerange_loop vend env (S (Z.to_nat (vend / PGSIZE))) p s l)
    as (s' & E & H1 & H2 & H3 & H4); auto.
  - unfold PGSIZE, KERNBASE in *. Z.div_mod_to_equations. lia.
  - rewrite Hp. unfold PGSIZE. Z.div_mod_to_equations. lia.
  - rewrite Hp. Z.div_mod_to_equations. lia.
  - rewrite Hp. Z.div_mod_to_equations. lia.
  - intros w Hin. destruct (Hw w Hin); [left|by right]. rewrite Hp. Z.div_mod_to_equations. lia.
  - exists s'. split_and!; auto.
Qed.
End kalloc_facts.

#[local] Existing Instance link_example.

(** Two free pages, the first linked to the second. *)
Definition kst_two_pages : kst :=
  set_freelist 2148622336
    (set_phys (store32 ∅ (V2P 2148622336) 2148626432) kst_boot).

Lemma kalloc_refines_stack_witness :
  exists s', kalloc [] kst_two_pages = Ok 2148622336 s' [] /\ freelist s' = 2148626432.
Proof.
  assert (fl_rep kst_two_pages [2148622336; 2148626432]) as Hrep.
  { split_and!; [by vm_compute| |].
    - by apply (bool_decide_unpack (NoDup [2148622336; 2148626432])); vm_compute.
    - repeat constructor; vm_compute; intuition discriminate. }
  assert (kmem_ready kst_two_pages) as Hr by (by vm_compute).
  destruct (proj1 (kalloc_refines_stack [] kst_two_pages _ Hr Hrep)) as (s' & E & (Hl & _) & _).
  exists s'. split; [exact E|]. apply Hl.
Defined.

Lemma freerange_frees_whole_pages_witness :
  exists s', freerange 2148619264 2148626500 [] kst_boot = Ok tt s' [] /\
    locks s' = locks kst_boot.
Proof.
  destruct (freerange_frees_whole_pages 2148619264 2148626500 [] kst_boot [])
    as (s' & E & _ & Hl).
  - by vm_compute.
  - split_and!; constructor.
  - by vm_compute.
  - by vm_compute.
  - by vm_compute.
  - intros w Hw. by apply not_elem_of_nil in Hw.
  - exists s'. split; [exact E|exact Hl].
Defined.
