(* ===== verification/Console.v ===== *)
(** * console.c: kernel output

    [cprintf], the conversion of integers to digits and the driver of
    the text screen; [uartputc] of uart.c, whose device is the list of
    bytes sent. *)

From stdpp Require Import base numbers list gmap strings.
From S2P Require Import Prelude Kernel Spinlock.

(** ** Characters *)

Definition BACKSPACE : Z := 256.
Definition ch_newline : Z := 10.
Definition ch_minus : Z := 45.
Definition ch_percent : Z := 37.

(** The bytes of a C string literal, without its terminator. *)
Fixpoint bytes_of (s : string) : list Z :=
  match s with
  | EmptyString => []
  | String c s' => Z.of_nat (Ascii.nat_of_ascii c) :: bytes_of s'
  end.

(** ** Output devices *)

(** uart.c: the loop that waits for the device to be ready has no effect
    on the state. *)
Definition uartputc (c : Z) : M unit :=
  let! u := gets uart in
  if negb u then ret tt else
  modify (fun s => set_uart_out (uart_out s ++ [u8 c]) s).

(** [memmove(crt, crt+80, sizeof(crt[0])*n)] and
    [memset(crt+i, 0, sizeof(crt[0])*n)]. *)
Definition crt_up (n : Z) (l : list Z) : list Z :=
  take (Z.to_nat n) (drop (Z.to_nat 80) l) ++ drop (Z.to_nat n) l.
Definition crt_blank (i n : Z) (l : list Z) : list Z :=
  take (Z.to_nat i) l ++ replicate (Z.to_nat n) 0 ++ drop (Z.to_nat (i + n)) l.

Definition cgaputc (c : Z) : M unit :=
  let! pos := gets crt_pos in
  let! pos := (
    if c =? ch_newline then ret (pos + (80 - pos mod 80))
    else if c =? BACKSPACE then ret (if 0 <? pos then pos - 1 else pos)
    else
      modify (fun s =>
        set_crt (<[Z.to_nat pos := Z.lor (Z.land c 255) 1792]> (crt s)) s) ;;
      ret (pos + 1)) in
  if (pos <? 0) || (25 * 80 <? pos) then panic "pos under/overflow" else
  let! pos := (
    if 24 <=? pos / 80 then
      modify (fun s => set_crt (crt_up (23 * 80) (crt s)) s) ;;
      modify (fun s => set_crt (crt_blank (pos - 80) (24 * 80 - (pos - 80)) (crt s)) s) ;;
      ret (pos - 80)
    else ret pos) in
  modify (set_crt_pos (u16 pos)) ;;
  modify (fun s => set_crt (<[Z.to_nat pos := Z.lor 32 1792]> (crt s)) s).

Definition consputc (c : Z) : M unit :=
  let! p := gets panicked in
  if (p : bool) then mod_cpu (set_iflag false) ;; halt WHalt else
  (if c =? BACKSPACE then uartputc 8 ;; uartputc 32 ;; uartputc 8
   else uartputc c) ;;
  cgaputc c.

(** ** Integers *)

Definition digit (d : Z) : Z := nth (Z.to_nat d) (bytes_of "0123456789abcdef") 0.

(** The [do .. while] loop: digits of [x], lowest first.  [fuel] bounds
    the number of digits; 32 is enough for every base from 2 on. *)
Fixpoint digits_rev (fuel : nat) (x base : Z) : list Z :=
  match fuel with
  | O => []
  | S n => digit (x mod base) :: (if x / base =? 0 then [] else digits_rev n (x / base) base)
  end.

(** The characters [printint] prints, in order. *)
Definition printint_chars (xx base : Z) (sign : bool) : list Z :=
  let neg := sign && (xx <? 0) in
  let x := if neg then u32 (- xx) else u32 xx in
  reverse (digits_rev 32 x base ++ (if neg then [ch_minus] else [])).

Definition printint (xx base : Z) (sign : bool) : M unit :=
  for_each (printint_chars xx base sign) consputc.

(** ** cprintf *)

(** A variadic argument: a word, or a pointer to a string (None: null). *)
Inductive carg := AInt (x : Z) | AStr (s : option (list Z)).

Definition arg_int (a : list carg) : Z :=
  match a with AInt x :: _ => x | _ => 0 end.
Definition arg_str (a : list carg) : list Z :=
  match a with AStr (Some s) :: _ => s | _ => bytes_of "(null)" end.

Fixpoint cprintf_loop (fmt : list Z) (args : list carg) : M unit :=
  match fmt with
  | [] => ret tt
  | c :: fmt' =>
      if negb (c =? ch_percent) then consputc c ;; cprintf_loop fmt' args else
      match fmt' with
      | [] => ret tt
      | c :: fmt'' =>
          if c =? 100 (* d *) then
            printint (s32 (arg_int args)) 10 true ;; cprintf_loop fmt'' (tail args)
          else if (c =? 120) || (c =? 112) (* x, p *) then
            printint (s32 (arg_int args)) 16 false ;; cprintf_loop fmt'' (tail args)
          else if c =? 115 (* s *) then
            for_each (arg_str args) consputc ;; cprintf_loop fmt'' (tail args)
          else if c =? ch_percent then consputc ch_percent ;; cprintf_loop fmt'' args
          else consputc ch_percent ;; consputc c ;; cprintf_loop fmt'' args
      end
  end.

Definition cprintf (fmt : list Z) (args : list carg) : M unit :=
  let! locking := gets cons_locking in
  when locking (acquire LCons) ;;
  cprintf_loop fmt args ;;
  when locking (release LCons).

(** ** Integers come out right *)

(** The value of a digit character, and of a number lowest digit first. *)
Definition undigit (c : Z) : Z := if c <? 58 then c - 48 else c - 87.
Fixpoint value_rev (base : Z) (ds : list Z) : Z :=
  match ds with
  | [] => 0
  | d :: ds' => undigit d + base * value_rev base ds'
  end.

(** Reading back what was printed. *)
Definition read_int (base : Z) (cs : list Z) : Z :=
  match cs with
  | [] => 0
  | c :: cs' => if c =? ch_minus then - value_rev base (reverse cs')
                else value_rev base (reverse cs)
  end.

Lemma digit_cases d : 0 <= d < 16 -> undigit (digit d) = d /\ digit d <> ch_minus.
Proof.
  intros H.
  assert (In d [0;1;2;3;4;5;6;7;8;9;10;11;12;13;14;15]) as Hin by (simpl; lia).
  simpl in Hin. repeat (destruct Hin as [<-|Hin]; [by vm_compute|]). done.
Qed.

Lemma digits_rev_value base n : 2 <= base <= 16 -> forall x,
  0 <= x < base ^ Z.of_nat (S n) -> value_rev base (digits_rev (S n) x base) = x.
Proof.
  intros Hb. induction n as [|n IH]; intros x Hx.
  - change (base ^ Z.of_nat 1) with (base ^ 1) in Hx. rewrite Z.pow_1_r in Hx. simpl.
    rewrite Z.mod_small, Z.div_small by lia. simpl.
    rewrite (proj1 (digit_cases x ltac:(lia))). lia.
  - change (digits_rev (S (S n)) x base) with (digit (x mod base) ::
      (if x / base =? 0 then [] else digits_rev (S n) (x / base) base)).
    cbn [value_rev]. rewrite (proj1 (digit_cases (x mod base) ltac:(Z.div_mod_to_equations; lia))).
    destruct (Z.eqb_spec (x / base) 0) as [E|E].
    + simpl. Z.div_mod_to_equations. lia.
    + rewrite IH; [Z.div_mod_to_equations; lia|].
      rewrite Nat2Z.inj_succ, Z.pow_succ_r in Hx by lia.
      split; [apply Z.div_pos; lia|]. apply Z.div_lt_upper_bound; lia.
Qed.

Lemma digits_rev_length base n k : 2 <= base -> forall x,
  0 <= x < base ^ Z.of_nat (S k) -> (length (digits_rev n x base) <= S k)%nat.
Proof.
  intros Hb. revert k. induction n as [|n IH]; intros k x Hx; simpl; [lia|].
  destruct (Z.eqb_spec (x / base) 0) as [E|E]; simpl; [lia|].
  destruct k as [|k].
  { change (base ^ Z.of_nat 1) with (base ^ 1) in Hx. rewrite Z.pow_1_r in Hx.
    rewrite Z.div_small in E by lia. done. }
  enough (length (digits_rev n (x / base) base) <= S k)%nat by lia.
  apply IH. rewrite Nat2Z.inj_succ, Z.pow_succ_r in Hx by lia.
  split; [apply Z.div_pos; lia|]. apply Z.div_lt_upper_bound; lia.
Qed.

Lemma digits_rev_last base n x :
  2 <= base <= 16 -> 0 <= x -> (0 < n)%nat ->
  exists ds d, digits_rev n x base = ds ++ [d] /\ d <> ch_minus.
Proof.
  intros Hb. revert x. induction n as [|n IH]; intros x Hx Hn; [lia|]. simpl.
  pose proof (digit_cases (x mod base) ltac:(Z.div_mod_to_equations; lia)) as [_ Hd].
  destruct (Z.eqb_spec (x / base) 0) as [E|E]; [by exists [], (digit (x mod base))|].
  destruct n as [|n]; [by exists [], (digit (x mod base))|].
  destruct (IH (x / base)) as (ds & d & -> & Hd'); [by apply Z.div_pos; lia|lia|].
  by exists (digit (x mod base) :: ds), d.
Qed.

(** console.c, printint: the characters printed for a signed integer
    in base 10, or for an unsigned one in base 16, read back as that
    integer (the most negative one included, whose negation overflows),
    and never exceed the 16 bytes of the local buffer. *)
Theorem printint_reads_back xx :
  -2147483648 <= xx < 2147483648 ->
  read_int 10 (printint_chars xx 10 true) = xx /\
  read_int 16 (printint_chars xx 16 false) = u32 xx /\
  (length (printint_chars xx 10 true) <= 16)%nat /\
  (length (printint_chars xx 16 false) <= 16)%nat.
Proof.
  intros Hxx.
  assert (Hread : forall base x, 2 <= base <= 16 -> 0 <= x < base ^ 32 ->
    read_int base (reverse (digits_rev 32 x base)) = x /\
    read_int base (reverse (digits_rev 32 x base ++ [ch_minus])) = - x).
  { intros base x Hb Hx. pose proof (digits_rev_value base 31 Hb x Hx) as Hv.
    destruct (digits_rev_last base 32 x Hb ltac:(lia) ltac:(lia)) as (ds & d & E & Hd).
    revert Hv E. generalize (digits_rev 32 x base). intros l Hv ->.
    split.
    - rewrite reverse_app. simpl. destruct (Z.eqb_spec d ch_minus); [done|].
      change (d :: reverse ds) with (reverse [d] ++ reverse ds).
      by rewrite <- reverse_app, reverse_involutive.
    - rewrite (reverse_app (ds ++ [d]) [ch_minus]).
      change (reverse [ch_minus]) with [ch_minus]. cbn [app read_int].
      by rewrite Z.eqb_refl, reverse_involutive, Hv. }
  pose proof (u32_range xx). pose proof (u32_range (- xx)).
  unfold printint_chars. rewrite andb_true_l, andb_false_l, app_nil_r. split_and!.
  - destruct (Z.ltb_spec xx 0).
    + rewrite (proj2 (Hread 10 (u32 (- xx)) ltac:(lia) ltac:(lia))), u32_small by lia. lia.
    + rewrite app_nil_r, (proj1 (Hread 10 (u32 xx) ltac:(lia) ltac:(lia))), u32_small by lia. lia.
  - apply Hread; lia.
  - rewrite length_reverse, length_app.
    pose proof (digits_rev_length 10 32 9 ltac:(lia) (if xx <? 0 then u32 (- xx) else u32 xx)).
    change (10 ^ Z.of_nat 10) with 10000000000 in *.
    destruct (Z.ltb_spec xx 0); cbn [length]; lia.
  - rewrite length_reverse.
    pose proof (digits_rev_length 16 32 7 ltac:(lia) (u32 xx)).
    change (16 ^ Z.of_nat 8) with 4294967296 in *. lia.
Qed.

Lemma printint_reads_back_witness :
  read_int 10 (printint_chars (-2147483648) 10 true) = -2147483648 /\
  printint_chars (-120) 10 true = bytes_of "-120" /\
  printint_chars (-1) 16 false = bytes_of "ffffffff".
Proof.
  split; [apply (printint_reads_back (-2147483648)); lia|]. by vm_compute.
Defined.

(** ** The screen driver *)

(** The cursor is on one of the first 24 rows, and nothing panicked. *)
Definition screen_ok (s : kst) : Prop :=
  0 <= crt_pos s < 24 * 80 /\ Z.of_nat (length (crt s)) = 2000 /\ panicked s = false.

(** A state that differs from [s] by what is on the screen and in the
    serial line. *)
Definition redrawn (c : list Z) (p : Z) (o : list Z) (s : kst) : kst :=
  set_crt c (set_crt_pos p (set_uart_out o s)).

Definition uart_chars (c : Z) : list Z :=
  if c =? BACKSPACE then [8; 32; 8] else [u8 c].

Lemma redrawn_redrawn c p o c' p' o' s :
  redrawn c' p' o' (redrawn c p o s) = redrawn c' p' o' s.
Proof. done. Qed.

#[local] Arguments crt_up : simpl never.
#[local] Arguments crt_blank : simpl never.

(** The row of the cursor after [cgaputc], before scrolling. *)
Definition cga_advance (c pos : Z) : Z :=
  if c =? ch_newline then pos + (80 - pos mod 80)
  else if c =? BACKSPACE then (if 0 <? pos then pos - 1 else pos)
  else pos + 1.

Lemma cga_advance_range c pos :
  0 <= pos < 24 * 80 -> 0 <= cga_advance c pos <= 24 * 80.
Proof. unfold cga_advance. zcase; Z.div_mod_to_equations; lia. Qed.

Lemma cgaputc_run c env s :
  screen_ok s ->
  let pos := cga_advance c (crt_pos s) in
  exists scr, Z.of_nat (length scr) = 2000 /\
    cgaputc c env s =
      Ok tt (redrawn scr (if pos =? 1920 then 1840 else pos) (uart_out s) s) env.
Proof.
  intros (Hp & Hl & _) pos. pose proof (cga_advance_range c (crt_pos s) Hp) as Hr. fold pos in Hr.
  unfold cgaputc. rewrite bind_gets.
  set (crt1 := if (c =? ch_newline) || (c =? BACKSPACE) then crt s
               else <[Z.to_nat (crt_pos s) := Z.lor (Z.land c 255) 1792]> (crt s)).
  assert (Z.of_nat (length crt1) = 2000) as Hl1.
  { unfold crt1. destruct (_ || _); [done|]. by rewrite length_insert. }
  erewrite (bind_ok _ _ _ _ pos (set_crt crt1 s)).
  2: { unfold pos, cga_advance, crt1. destruct (c =? ch_newline); [by destruct s|].
       destruct (c =? BACKSPACE); by destruct s. }
  destruct (Z.ltb_spec pos 0); [lia|]. destruct (Z.ltb_spec (25 * 80) pos); [lia|].
  cbn [orb]. destruct (Z.eqb_spec pos 1920) as [E|E].
  - rewrite E. change (24 <=? 1920 / 80) with true. cbv iota. mrun.
    change (u16 (1920 - 80)) with 1840.
    eexists. split; [|unfold redrawn; rewrite <- (set_uart_out_id s) at 1; reflexivity].
    simpl. rewrite length_insert. unfold crt_blank, crt_up.
    repeat rewrite ?length_app, ?length_take, ?length_drop, ?length_replicate. lia.
  - assert ((24 <=? pos / 80) = false) as -> by (apply Z.leb_gt; Z.div_mod_to_equations; lia).
    mrun. replace (u16 pos) with pos by zmod.
    eexists. split; [|unfold redrawn; rewrite <- (set_uart_out_id s) at 1; reflexivity].
    by rewrite length_insert.
Qed.

Lemma uartputc_run c env s :
  uartputc c env s =
    Ok tt (set_uart_out (uart_out s ++ (if uart s then [u8 c] else [])) s) env.
Proof.
  unfold uartputc. rewrite bind_gets. destruct (uart s); simpl; [done|].
  by rewrite app_nil_r, set_uart_out_id.
Qed.

Lemma consputc_run c env s :
  screen_ok s ->
  exists scr p,
    consputc c env s =
      Ok tt (redrawn scr p (uart_out s ++ (if uart s then uart_chars c else [])) s) env /\
    screen_ok (redrawn scr p (uart_out s ++ (if uart s then uart_chars c else [])) s).
Proof.
  intros Hs. pose proof Hs as (Hp & Hl & Hn). unfold consputc. rewrite bind_gets, Hn.
  set (s1 := set_uart_out (uart_out s ++ (if uart s then uart_chars c else [])) s).
  erewrite (bind_ok _ _ _ _ tt s1).
  2: { unfold s1, uart_chars. destruct (c =? BACKSPACE).
       - mstep (uartputc_run 8 env s). rewrite (bind_ok _ _ _ _ _ _ _ (uartputc_run 32 env _)).
         rewrite uartputc_run. simpl.
         destruct (uart s); rewrite ?app_nil_r, <- ?app_assoc; done.
       - by rewrite uartputc_run. }
  destruct (cgaputc_run c env s1) as (scr & Hlen & E); [done|].
  eexists scr, _. rewrite E. split; [reflexivity|].
  split; [|done]. pose proof (cga_advance_range c (crt_pos s) Hp). simpl. zcase; lia.
Qed.

Lemma consputs_run cs : forall env s,
  screen_ok s ->
  exists scr p,
    for_each cs consputc env s =
      Ok tt (redrawn scr p (uart_out s ++ (if uart s then cs ≫= uart_chars else [])) s) env /\
    screen_ok (redrawn scr p (uart_out s ++ (if uart s then cs ≫= uart_chars else [])) s).
Proof.
  induction cs as [|c cs IH]; intros env s Hs; cbn [for_each].
  { exists (crt s), (crt_pos s).
    replace (uart_out s ++ _) with (uart_out s) by (destruct (uart s); simpl; by rewrite app_nil_r).
    assert (redrawn (crt s) (crt_pos s) (uart_out s) s = s) as -> by (by destruct s). done. }
  destruct (consputc_run c env s Hs) as (scr & p & E & Hs1).
  rewrite (bind_ok _ _ _ _ _ _ _ E).
  destruct (IH env _ Hs1) as (scr' & p' & E' & Hs2). exists scr', p'.
  rewrite E'.
  replace (uart_out s ++ (if uart s then (c :: cs) ≫= uart_chars else []))
    with ((uart_out s ++ (if uart s then uart_chars c else [])) ++
          (if uart s then cs ≫= uart_chars else []))
    by (rewrite <- app_assoc; by destruct (uart s)).
  split; [reflexivity|exact Hs2].
Qed.

(** The text a format stands for. *)
Fixpoint fmt_chars (fmt : list Z) (args : list carg) : list Z :=
  match fmt with
  | [] => []
  | c :: fmt' =>
      if negb (c =? ch_percent) then c :: fmt_chars fmt' args else
      match fmt' with
      | [] => []
      | c :: fmt'' =>
          if c =? 100 then
            printint_chars (s32 (arg_int args)) 10 true ++ fmt_chars fmt'' (tail args)
          else if (c =? 120) || (c =? 112) then
            printint_chars (s32 (arg_int args)) 16 false ++ fmt_chars fmt'' (tail args)
          else if c =? 115 then arg_str args ++ fmt_chars fmt'' (tail args)
          else if c =? ch_percent then ch_percent :: fmt_chars fmt'' args
          else ch_percent :: c :: fmt_chars fmt'' args
      end
  end.

Lemma for_each_app {X} (l1 l2 : list X) f env s :
  for_each (l1 ++ l2) f env s = (for_each l1 f ;; for_each l2 f) env s.
Proof.
  revert env s. induction l1 as [|x l1 IH]; intros env s; simpl; [done|].
  rewrite bind_assoc. unfold bind. destruct (f x env s); auto.
Qed.

(** Only the characters matter, not the calls they are printed by. *)
Lemma cprintf_loop_chars n : forall fmt args env s,
  (length fmt <= n)%nat ->
  cprintf_loop fmt args env s = for_each (fmt_chars fmt args) consputc env s.
Proof.
  induction n as [|n IH]; intros fmt args env s Hn.
  { destruct fmt; [done|simpl in Hn; lia]. }
  destruct fmt as [|c fmt]; [done|]. simpl in Hn. cbn [cprintf_loop fmt_chars].
  destruct (negb (c =? ch_percent)).
  { simpl. unfold bind. destruct (consputc c env s); auto. apply IH. lia. }
  destruct fmt as [|d fmt]; [done|]. simpl in Hn.
  assert (Hrest : forall a e t, cprintf_loop fmt a e t = for_each (fmt_chars fmt a) consputc e t)
    by (intros; apply IH; lia).
  unfold printint.
  repeat match goal with |- context [if ?b then _ else _] => destruct b end;
    cbn [for_each]; rewrite ?for_each_app; unfold bind;
    repeat match goal with |- context [match ?m with _ => _ end] => destruct m end; auto.
Qed.

Lemma cprintf_run fmt args env s :
  screen_ok s -> wf_cpu (kcpu s) -> locks s !! LCons = None ->
  exists scr p,
    let o := uart_out s ++ (if uart s then fmt_chars fmt args ≫= uart_chars else []) in
    cprintf fmt args env s =
      Ok tt (redrawn scr p o (set_kcpu (if cons_locking s then crit (kcpu s) else kcpu s) s)) env
    /\ screen_ok (redrawn scr p o s).
Proof.
  intros Hs Hw Hl. unfold cprintf. rewrite bind_gets. unfold when.
  destruct (cons_locking s) eqn:El.
  - rewrite (bind_ok _ _ _ _ _ _ _ (acquire_free LCons env s Hl)).
    destruct (consputs_run (fmt_chars fmt args) env (acquired LCons s)) as (scr & p & E & Hs').
    { done. }
    exists scr, p. split; [|exact Hs']. unfold bind.
    rewrite (cprintf_loop_chars (length fmt)), E by done. cbv iota beta.
    rewrite release_held; [|apply lookup_insert_eq|done|destruct Hw; simpl; lia].
    change (released LCons (redrawn scr p ?o (acquired LCons s)))
      with (redrawn scr p o (released LCons (acquired LCons s))).
    by rewrite released_acquired.
  - rewrite bind_ret.
    destruct (consputs_run (fmt_chars fmt args) env s Hs) as (scr & p & E & Hs').
    exists scr, p. split; [|exact Hs']. unfold bind.
    rewrite (cprintf_loop_chars (length fmt)), E by done. unfold ret.
    by rewrite set_kcpu_id.
Qed.

(** console.c, cprintf, consputc and cgaputc: on a console that has
    not panicked, whose cursor is on one of the first 24 rows and whose
    lock is free, [cprintf] returns, whatever the format and arguments:
    it never reaches the cursor's panic and the cursor stays on those
    rows; the serial port receives exactly the text the format stands
    for; every lock is as before; and nothing else but the screen
    changes. *)
Theorem cprintf_prints fmt args env s :
  screen_ok s -> wf_cpu (kcpu s) -> locks s !! LCons = None ->
  exists scr p,
    let o := uart_out s ++ (if uart s then fmt_chars fmt args ≫= uart_chars else []) in
    cprintf fmt args env s =
      Ok tt (redrawn scr p o (set_kcpu (if cons_locking s then crit (kcpu s) else kcpu s) s)) env
    /\ screen_ok (redrawn scr p o s).
Proof. apply cprintf_run. Qed.

Lemma cprintf_prints_witness :
  exists s', cprintf (bytes_of "cpu%d: %s %x") [AInt 3; AStr (Some (bytes_of "ok")); AInt 255]
      [] kst_boot = Ok tt s' [] /\ uart_out s' = bytes_of "cpu3: ok ff".
Proof.
  destruct (cprintf_prints (bytes_of "cpu%d: %s %x")
    [AInt 3; AStr (Some (bytes_of "ok")); AInt 255] [] kst_boot) as (scr & p & E & _).
  - by vm_compute.
  - by vm_compute.
  - by vm_compute.
  - eexists. split; [exact E|]. by vm_compute.
Defined.
