(* ===== verification/Umem.v ===== *)
(** * User memory seen from the kernel

    Kernel code that dereferences a user pointer goes through the page
    tables of the current address space (cr3).  This file has the page
    walk mmu.h describes, the bytes it gives access to, and the laws of
    stores to a range of user addresses.  An access the page tables do
    not allow raises a page fault in the kernel, on which [trap] panics. *)

From stdpp Require Import base numbers list gmap strings.
From S2P Require Import Prelude Kernel Spinlock Sched Kalloc.

(** ** mmu.h: page-table entries *)

Definition PDX (va : Z) : Z := Z.land (Z.shiftr va 22) 1023.
Definition PTX (va : Z) : Z := Z.land (Z.shiftr va 12) 1023.
Definition PTE_P : Z := 1.
Definition PTE_W : Z := 2.
Definition PTE_U : Z := 4.
Definition PTE_ADDR (pte : Z) : Z := Z.land pte (u32 (Z.lnot 4095)).
Definition PTE_FLAGS (pte : Z) : Z := Z.land pte 4095.

(** Present, and writable if the access is a store (CR0_WP is set). *)
Definition pte_allows (wr : bool) (pte : Z) : bool :=
  negb (Z.land pte PTE_P =? 0) && (negb wr || negb (Z.land pte PTE_W =? 0)).

(** Physical addresses of the two entries a walk reads. *)
Definition pde_at (c3 va : Z) : Z := PTE_ADDR c3 + 4 * PDX va.
Definition pte_at (m : gmap Z Z) (c3 va : Z) : Z :=
  PTE_ADDR (load32 m (pde_at c3 va)) + 4 * PTX va.

Definition walk (m : gmap Z Z) (c3 : Z) (wr : bool) (va : Z) : option Z :=
  let pde := load32 m (pde_at c3 va) in
  if negb (pte_allows wr pde) then None else
  let pte := load32 m (pte_at m c3 va) in
  if negb (pte_allows wr pte) then None else
  Some (PTE_ADDR pte + va mod PGSIZE).

(** ** Accesses *)

Definition uget8 (m : gmap Z Z) (c3 va : Z) : option Z := mget m <$> walk m c3 false va.

Fixpoint ubytes (m : gmap Z Z) (c3 va : Z) (n : nat) : option (list Z) :=
  match n with
  | O => Some []
  | S n' => b ← uget8 m c3 (u32 va); bs ← ubytes m c3 (va + 1) n'; Some (b :: bs)
  end.

Fixpoint uput (m : gmap Z Z) (c3 va : Z) (bs : list Z) : option (gmap Z Z) :=
  match bs with
  | [] => Some m
  | b :: bs' => pa ← walk m c3 true (u32 va); uput (<[pa := b]> m) c3 (va + 1) bs'
  end.

Definition uload (va : Z) (n : nat) : M (list Z) := fun env s =>
  match ubytes (phys s) (cr3 (kcpu s)) va n with
  | Some bs => Ok bs s env
  | None => Panic "trap"
  end.

Definition ustore (va : Z) (bs : list Z) : M unit := fun env s =>
  match uput (phys s) (cr3 (kcpu s)) va bs with
  | Some m => Ok tt (set_phys m s) env
  | None => Panic "trap"
  end.

Definition of_bytes32 (bs : list Z) : Z :=
  nth 0 bs 0 + 256 * nth 1 bs 0 + 65536 * nth 2 bs 0 + 16777216 * nth 3 bs 0.

Definition uload32 (va : Z) : M Z := let! bs := uload va 4 in ret (of_bytes32 bs).
Definition ustore32 (va v : Z) : M unit := ustore va (bytes32 v).

(** ** Ranges of user addresses that can be stored to

    [mapped m c3 lo n f]: the [n] addresses from [lo] can be written, the
    walk sends them to distinct physical bytes [f], and none of these is
    a byte of a page-table entry the walk of the range reads. *)

Definition pt_byte (m : gmap Z Z) (c3 va a : Z) : Prop :=
  (pde_at c3 va <= a < pde_at c3 va + 4) \/ (pte_at m c3 va <= a < pte_at m c3 va + 4).

Record mapped (m : gmap Z Z) (c3 lo n : Z) (f : Z -> Z) : Prop := {
  mapped_lo : 0 <= lo;
  mapped_hi : lo + n <= 4294967296;
  mapped_walk : forall va, lo <= va < lo + n -> walk m c3 true va = Some (f va);
  mapped_inj : forall va vb, lo <= va < lo + n -> lo <= vb < lo + n -> f va = f vb -> va = vb;
  mapped_pt : forall va vb, lo <= va < lo + n -> lo <= vb < lo + n -> ~ pt_byte m c3 vb (f va);
}.

Lemma pte_allows_read pte : pte_allows true pte = true -> pte_allows false pte = true.
Proof. unfold pte_allows. simpl. intros [-> _]%andb_true_iff. done. Qed.

(** What can be written can be read. *)
Lemma walk_read m c3 va pa : walk m c3 true va = Some pa -> walk m c3 false va = Some pa.
Proof.
  unfold walk. destruct (pte_allows true (load32 m (pde_at c3 va))) eqn:E1; [|done]. simpl.
  destruct (pte_allows true (load32 m (pte_at m c3 va))) eqn:E2; [|done]. simpl.
  by rewrite (pte_allows_read _ E1), (pte_allows_read _ E2).
Qed.

Lemma load32_insert_out m a b x : a < x \/ x + 4 <= a -> load32 (<[a := b]> m) x = load32 m x.
Proof.
  intros H. change (<[a := b]> m) with (mput m a [b]). apply load32_mput_out. simpl. lia.
Qed.

(** A store outside the entries a walk reads does not change the walk. *)
Lemma walk_insert m c3 wr va a b :
  ~ pt_byte m c3 va a ->
  pte_at (<[a := b]> m) c3 va = pte_at m c3 va /\ walk (<[a := b]> m) c3 wr va = walk m c3 wr va.
Proof.
  unfold pt_byte. intros H.
  assert (load32 (<[a := b]> m) (pde_at c3 va) = load32 m (pde_at c3 va)) as E1
    by (apply load32_insert_out; lia).
  assert (pte_at (<[a := b]> m) c3 va = pte_at m c3 va) as E2 by (unfold pte_at; by rewrite E1).
  split; [done|]. unfold walk. rewrite E1, E2.
  by rewrite load32_insert_out by lia.
Qed.

Lemma mapped_insert m c3 lo n f va b :
  mapped m c3 lo n f -> lo <= va < lo + n -> mapped (<[f va := b]> m) c3 lo n f.
Proof.
  intros [Hlo Hhi Hw Hi Hp] Hva. constructor; auto.
  - intros x Hx. rewrite <- (Hw x Hx). apply walk_insert. auto.
  - intros x y Hx Hy. unfold pt_byte.
    destruct (walk_insert m c3 true y (f va) b (Hp va y Hva Hy)) as [-> _].
    apply (Hp x y); auto.
Qed.

Lemma uget8_mapped m c3 lo n f va :
  mapped m c3 lo n f -> lo <= va < lo + n -> uget8 m c3 va = Some (mget m (f va)).
Proof.
  intros Hm Hva. unfold uget8. rewrite (walk_read _ _ _ (f va)); [done|].
  by apply (mapped_walk _ _ _ _ _ Hm).
Qed.

(** ** Laws of stores and loads in a mapped range *)

Fixpoint fput (f : Z -> Z) (m : gmap Z Z) (va : Z) (bs : list Z) : gmap Z Z :=
  match bs with
  | [] => m
  | b :: bs' => fput f (<[f va := b]> m) (va + 1) bs'
  end.

Fixpoint fget (f : Z -> Z) (m : gmap Z Z) (va : Z) (n : nat) : list Z :=
  match n with
  | O => []
  | S n' => mget m (f va) :: fget f m (va + 1) n'
  end.

Lemma uput_mapped c3 lo n f bs : forall m va,
  mapped m c3 lo n f -> lo <= va -> va + Z.of_nat (length bs) <= lo + n ->
  uput m c3 va bs = Some (fput f m va bs) /\ mapped (fput f m va bs) c3 lo n f.
Proof.
  induction bs as [|b bs IH]; intros m va Hm Hlo Hhi; cbn [uput fput length] in *; [done|].
  destruct Hm as [H1 H2 H3 H4 H5].
  rewrite u32_small, H3 by lia. simpl. apply IH; [|lia..].
  apply mapped_insert; [by constructor | lia].
Qed.

Lemma ubytes_mapped c3 lo n f k : forall m va,
  mapped m c3 lo n f -> lo <= va -> va + Z.of_nat k <= lo + n ->
  ubytes m c3 va k = Some (fget f m va k).
Proof.
  induction k as [|k IH]; intros m va Hm Hlo Hhi; cbn [ubytes fget] in *; [done|].
  rewrite u32_small by (destruct Hm; lia).
  rewrite (uget8_mapped _ _ _ _ _ _ Hm) by lia. simpl. rewrite IH by (auto; lia). done.
Qed.

Lemma fput_app f l1 l2 : forall m va,
  fput f m va (l1 ++ l2) = fput f (fput f m va l1) (va + Z.of_nat (length l1)) l2.
Proof.
  induction l1 as [|b l1 IH]; intros m va; cbn [fput app length].
  - f_equal. lia.
  - rewrite IH. f_equal. lia.
Qed.

(** Injectivity on an interval is all the byte laws need. *)
Definition inj_on (f : Z -> Z) (lo hi : Z) : Prop :=
  forall x y, lo <= x < hi -> lo <= y < hi -> f x = f y -> x = y.

Lemma mapped_inj_on m c3 lo n f : mapped m c3 lo n f -> inj_on f lo (lo + n).
Proof. intros [_ _ _ H _]. exact H. Qed.

Lemma inj_on_mono f lo hi lo' hi' : inj_on f lo hi -> lo <= lo' -> hi' <= hi -> inj_on f lo' hi'.
Proof. intros H ? ? x y ? ? ?. apply H; lia || done. Qed.

Lemma mget_insert_ne (m : gmap Z Z) a b x : x <> a -> mget (<[a := b]> m) x = mget m x.
Proof. intros. unfold mget. by rewrite lookup_insert_ne by done. Qed.

Lemma mget_insert_eq (m : gmap Z Z) a b : mget (<[a := b]> m) a = b.
Proof. unfold mget. by rewrite lookup_insert_eq. Qed.

Lemma mget_fput_out f bs : forall m va a,
  (forall x, va <= x < va + Z.of_nat (length bs) -> f x <> a) ->
  mget (fput f m va bs) a = mget m a.
Proof.
  induction bs as [|b bs IH]; intros m va a H; cbn [fput length] in *; [done|].
  rewrite IH by (intros; apply H; lia).
  apply mget_insert_ne. intros ->. apply (H va); [lia | done].
Qed.

Lemma fget_fput_out f bs k : forall m va vb,
  (forall x y, va <= x < va + Z.of_nat (length bs) -> vb <= y < vb + Z.of_nat k -> f x <> f y) ->
  fget f (fput f m va bs) vb k = fget f m vb k.
Proof.
  induction k as [|k IH]; intros m va vb H; cbn [fget] in *; [done|].
  rewrite IH by (intros; apply H; lia). f_equal.
  apply mget_fput_out. intros. apply H; lia.
Qed.

Lemma fget_fput_same f bs : forall m va,
  inj_on f va (va + Z.of_nat (length bs)) ->
  fget f (fput f m va bs) va (length bs) = bs.
Proof.
  induction bs as [|b bs IH]; intros m va H; cbn [fput fget length] in *; [done|].
  rewrite IH by (eapply inj_on_mono; [exact H | lia..]).
  rewrite mget_fput_out, mget_insert_eq; [done|].
  intros x Hx E. pose proof (H x va ltac:(lia) ltac:(lia) E). lia.
Qed.

(** Byte lists of 32-bit words. *)
Lemma of_bytes32_bytes32 v : of_bytes32 (bytes32 v) = u32 v.
Proof.
  unfold of_bytes32, bytes32, u32. cbn [nth].
  replace (v / 65536) with (v / 256 / 256) by (by rewrite Z.div_div).
  replace (v / 16777216) with (v / 256 / 256 / 256) by (by rewrite !Z.div_div).
  Z.div_mod_to_equations. lia.
Qed.

Lemma length_bytes32 v : length (bytes32 v) = 4%nat.
Proof. done. Qed.

(** The monadic accesses on a mapped range. *)
Section Run.
Context (s : kst) (env : list (kst -> kst)) (lo n : Z) (f : Z -> Z).
Context (Hm : mapped (phys s) (cr3 (kcpu s)) lo n f).

Lemma ustore_run va bs :
  lo <= va -> va + Z.of_nat (length bs) <= lo + n ->
  ustore va bs env s = Ok tt (set_phys (fput f (phys s) va bs) s) env.
Proof using Hm.
  intros H1 H2. unfold ustore. by rewrite (proj1 (uput_mapped _ _ _ _ _ _ _ Hm H1 H2)).
Qed.

Lemma uload_run va k :
  lo <= va -> va + Z.of_nat k <= lo + n ->
  uload va k env s = Ok (fget f (phys s) va k) s env.
Proof using Hm.
  intros. unfold uload. by rewrite (ubytes_mapped _ _ _ _ _ _ _ Hm) by lia.
Qed.
End Run.

(** ** Checking a mapping on a concrete memory *)

Definition pt_byteb (m : gmap Z Z) (c3 va a : Z) : bool :=
  ((pde_at c3 va <=? a) && (a <? pde_at c3 va + 4)) ||
  ((pte_at m c3 va <=? a) && (a <? pte_at m c3 va + 4)).

Definition mappedb (m : gmap Z Z) (c3 lo n : Z) (f : Z -> Z) : bool :=
  (0 <=? lo) && (lo + n <=? 4294967296) &&
  forallb (fun va =>
    bool_decide (walk m c3 true va = Some (f va)) &&
    forallb (fun vb => negb (pt_byteb m c3 vb (f va)) && (negb (f va =? f vb) || (va =? vb)))
      (seqZ lo n)) (seqZ lo n).

Lemma mappedb_sound m c3 lo n f : mappedb m c3 lo n f = true -> mapped m c3 lo n f.
Proof.
  unfold mappedb. intros [[H1 H2]%andb_true_iff H3]%andb_true_iff.
  apply Z.leb_le in H1, H2. rewrite forallb_forall in H3.
  assert (forall va, lo <= va < lo + n -> In va (seqZ lo n)) as HI.
  { intros va Hva. apply list_elem_of_In, elem_of_seqZ. lia. }
  assert (forall va vb, lo <= va < lo + n -> lo <= vb < lo + n ->
    walk m c3 true va = Some (f va) /\ pt_byteb m c3 vb (f va) = false /\
    (negb (f va =? f vb) || (va =? vb)) = true) as HA.
  { intros va vb Ha Hb. specialize (H3 va (HI va Ha)). apply andb_true_iff in H3 as [Hw H3].
    rewrite forallb_forall in H3. specialize (H3 vb (HI vb Hb)).
    apply andb_true_iff in H3 as [Hp Hi]. apply bool_decide_eq_true_1 in Hw.
    apply negb_true_iff in Hp. done. }
  constructor; [done|done| | |].
  - intros va Hva. by apply (HA va va).
  - intros va vb Ha Hb E. destruct (HA va vb Ha Hb) as (_ & _ & HE).
    rewrite E, Z.eqb_refl in HE. simpl in HE. by apply Z.eqb_eq.
  - intros va vb Ha Hb Hp. destruct (HA va vb Ha Hb) as (_ & HE & _).
    unfold pt_byteb in HE. unfold pt_byte in Hp.
    apply orb_false_iff in HE as [E1 E2]. apply andb_false_iff in E1, E2.
    rewrite Z.leb_gt, Z.ltb_ge in E1, E2. lia.
Qed.
