(* ===== verification/Signal.v ===== *)
(** * proc.c: signals

    [signal], [sigsend], [alarm], the delivery of a pending signal on the
    way back to user mode ([handleSignal]) and [sigreturn].  The frame
    [handleSignal] builds on the user stack holds the code of umsigret.S
    and a copy of the trap frame; both are written byte by byte through
    the page tables. *)

From stdpp Require Import base numbers list gmap strings.
From S2P Require Import Prelude Kernel Spinlock Sched Kalloc Console Umem.

(** ** struct trapframe in memory *)

Definition tf_bytes (t : trapframe) : list Z :=
  bytes32 (tf_edi t) ++ bytes32 (tf_esi t) ++ bytes32 (tf_ebp t) ++ bytes32 (tf_oesp t) ++
  bytes32 (tf_ebx t) ++ bytes32 (tf_edx t) ++ bytes32 (tf_ecx t) ++ bytes32 (tf_eax t) ++
  bytes16 (tf_gs t) ++ bytes16 (tf_padding1 t) ++ bytes16 (tf_fs t) ++ bytes16 (tf_padding2 t) ++
  bytes16 (tf_es t) ++ bytes16 (tf_padding3 t) ++ bytes16 (tf_ds t) ++ bytes16 (tf_padding4 t) ++
  bytes32 (tf_trapno t) ++ bytes32 (tf_err t) ++ bytes32 (tf_eip t) ++
  bytes16 (tf_cs t) ++ bytes16 (tf_padding5 t) ++ bytes32 (tf_eflags t) ++
  bytes32 (tf_esp t) ++ bytes16 (tf_ss t) ++ bytes16 (tf_padding6 t).

Definition at32 (bs : list Z) (k : nat) : Z := of_bytes32 (drop k bs).
Definition at16 (bs : list Z) (k : nat) : Z := nth k bs 0 + 256 * nth (S k) bs 0.

Definition tf_of_bytes (bs : list Z) : trapframe :=
  mktf (at32 bs 0) (at32 bs 4) (at32 bs 8) (at32 bs 12)
    (at32 bs 16) (at32 bs 20) (at32 bs 24) (at32 bs 28)
    (at16 bs 32) (at16 bs 34) (at16 bs 36) (at16 bs 38)
    (at16 bs 40) (at16 bs 42) (at16 bs 44) (at16 bs 46)
    (at32 bs 48) (at32 bs 52) (at32 bs 56)
    (at16 bs 60) (at16 bs 62) (at32 bs 64)
    (at32 bs 68) (at16 bs 72) (at16 bs 74).

Definition TF_SIZE : nat := 76.      (* sizeof(struct trapframe) *)
Definition TF_ESP_OFF : Z := 68.     (* offset of the field esp *)

(** umsigret.S, assembled: [movl $SYS_sigreturn,%eax; int $T_SYSCALL; ret]. *)
Definition SYS_sigreturn : Z := 24.
Definition T_SYSCALL : Z := 64.
Definition sigreturn_stub : list Z := [184] ++ bytes32 SYS_sigreturn ++ [205; T_SYSCALL] ++ [195].

(** ** Operations *)

Definition SIGALRM_BIT : Z := 14.

Definition mod_tf (i : nat) (g : trapframe -> trapframe) : M unit :=
  mod_proc i (fun p => set_tf (g (tf p)) p).

Definition alarm (tickTime : Z) : M Z :=
  let sigBit := u32 (Z.shiftl 1 SIGALRM_BIT) in
  let! i := myproc in
  if tickTime =? 0 then
    mod_proc i (fun p => set_pending (Z.land (pending p) (u32 (Z.lnot sigBit))) p) ;;
    ret 0
  else
    mod_proc i (fun p => set_pending (Z.lor (pending p) sigBit) p) ;;
    let! t := gets ticks in
    mod_proc i (set_alarmEnd (u32 (t + tickTime))) ;;
    ret 0.

Definition defaultHandler (signum : Z) : M unit :=
  let! (i, p) := myproc_get in
  cprintf (bytes_of "A signal %d was accepted by process %d" ++ [ch_newline])
    [AInt signum; AInt (pid p)].

Definition initHandlers `{Link} (i : nat) : M unit :=
  for_each (seq 0 NUMSIG)
    (fun j => mod_proc i (fun p => set_signals (<[j := a_defaultHandler]> (signals p)) p)).

Definition bad_signum (signum : Z) : bool := (signum <? 0) || (31 <? signum).

Definition signal (signum handler : Z) : M Z :=
  if bad_signum signum then ret (u32 (-1)) else
  let! (i, p) := myproc_get in
  let oldHandler := nth (Z.to_nat signum) (signals p) 0 in
  mod_proc i (fun p => set_signals (<[Z.to_nat signum := handler]> (signals p)) p) ;;
  ret oldHandler.

(** After the loop [p] points to the entry found, or one past the end of
    the table; in both cases it is not null, and it is written to. *)
Definition sigsend (pid' signum : Z) : M Z :=
  if bad_signum signum then ret (-1) else
  let sigBit := u32 (Z.shiftl 1 signum) in
  acquire LPtable ;;
  let! k := gets (fun s => find_idx (fun p => pid p =? pid') (procs s)) in
  release LPtable ;;
  match k with
  | Some k =>
      mod_proc k (fun p => set_pending (Z.lor (pending p) sigBit) p) ;;
      when (signum =? SIGALRM_BIT) (mod_proc k (set_alarmEnd 0))
  | None =>
      modify (fun s => set_oob_pending (Z.lor (oob_pending s) sigBit) s) ;;
      when (signum =? SIGALRM_BIT) (modify (set_oob_alarmEnd 0))
  end ;;
  ret 0.

Definition sigreturn : M Z :=
  let! i := myproc in
  mod_tf i (fun t => set_esp (u32 (tf_esp t + 4)) t) ;;
  let! p := get_proc i in
  let! bs := uload (tf_esp (tf p)) TF_SIZE in
  mod_tf i (fun _ => tf_of_bytes bs) ;;
  ret 0.

Fixpoint getLitSignal_loop (i : nat) (js : list nat) : M Z :=
  match js with
  | [] => ret (-1)
  | j :: js' =>
      let sigBit := u32 (Z.shiftl 1 (Z.of_nat j)) in
      let! p := get_proc i in
      let! t := gets ticks in
      if negb (Z.land (pending p) sigBit =? 0) then
        if (Z.of_nat j =? SIGALRM_BIT) && (t <? alarmEnd p) then getLitSignal_loop i js'
        else mod_proc i (fun p => set_pending (Z.land (pending p) (u32 (Z.lnot sigBit))) p) ;;
             ret (Z.of_nat j)
      else getLitSignal_loop i js'
  end.

Definition getLitSignal : M Z :=
  let! i := myproc in getLitSignal_loop i (seq 0 NUMSIG).

(** The part of [handleSignal] that builds the frame and redirects the
    process to its handler. *)
Definition push_frame (i : nat) (litSignal handler : Z) : M unit :=
  let! p := get_proc i in
  let origESP := tf_esp (tf p) in
  let funcSize := Z.of_nat (length sigreturn_stub) in
  mod_tf i (fun t => set_esp (u32 (tf_esp t - funcSize)) t) ;;
  let! p := get_proc i in
  ustore (tf_esp (tf p)) sigreturn_stub ;;
  let funcAddr := tf_esp (tf p) in
  mod_tf i (fun t => set_esp (u32 (tf_esp t - Z.of_nat TF_SIZE)) t) ;;
  let! p := get_proc i in
  ustore (tf_esp (tf p)) (tf_bytes (tf p)) ;;
  ustore32 (u32 (tf_esp (tf p) + TF_ESP_OFF)) origESP ;;
  mod_tf i (fun t => set_esp (u32 (tf_esp t - 4)) t) ;;
  let! p := get_proc i in
  ustore32 (tf_esp (tf p)) litSignal ;;
  mod_tf i (fun t => set_esp (u32 (tf_esp t - 4)) t) ;;
  let! p := get_proc i in
  ustore32 (tf_esp (tf p)) funcAddr ;;
  mod_tf i (set_eip handler).

Definition handleSignal `{Link} (t : trapframe) : M unit :=
  let! c := gets (fun s => curproc (kcpu s)) in
  match c with
  | None => ret tt
  | Some i =>
      if Z.land (tf_cs t) 3 =? 0 then ret tt else
      let! litSignal := getLitSignal in
      if litSignal =? -1 then ret tt else
      let! p := get_proc i in
      let handler := nth (Z.to_nat litSignal) (signals p) 0 in
      if handler =? a_defaultHandler then defaultHandler litSignal
      else push_frame i litSignal handler
  end.

(** ** A trap frame survives the trip through memory *)

Definition is_word (x : Z) : Prop := 0 <= x < 4294967296.
Definition is_half (x : Z) : Prop := 0 <= x < 65536.

Record wf_tf (t : trapframe) : Prop := {
  wf_words : Forall is_word [tf_edi t; tf_esi t; tf_ebp t; tf_oesp t; tf_ebx t; tf_edx t; tf_ecx t;
    tf_eax t; tf_trapno t; tf_err t; tf_eip t; tf_eflags t; tf_esp t];
  wf_halves : Forall is_half [tf_gs t; tf_padding1 t; tf_fs t; tf_padding2 t; tf_es t; tf_padding3 t;
    tf_ds t; tf_padding4 t; tf_cs t; tf_padding5 t; tf_ss t; tf_padding6 t];
}.

Lemma word_of_bytes v :
  is_word v ->
  v mod 256 + 256 * ((v / 256) mod 256) + 65536 * ((v / 65536) mod 256)
    + 16777216 * ((v / 16777216) mod 256) = v.
Proof.
  intros Hv. transitivity (of_bytes32 (bytes32 v)); [done|].
  rewrite of_bytes32_bytes32. by apply u32_small.
Qed.

Lemma half_of_bytes v : is_half v -> v mod 256 + 256 * ((v / 256) mod 256) = v.
Proof. unfold is_half. intros. Z.div_mod_to_equations. lia. Qed.

Lemma length_tf_bytes t : length (tf_bytes t) = TF_SIZE.
Proof. done. Qed.

Lemma tf_of_bytes_tf_bytes t : wf_tf t -> tf_of_bytes (tf_bytes t) = t.
Proof.
  intros [Hw Hh]. rewrite !Forall_cons in Hw. rewrite !Forall_cons in Hh.
  destruct t as [a1 a2 a3 a4 a5 a6 a7 a8 a9 a10 a11 a12 a13 a14 a15 a16 a17 a18 a19 a20 a21 a22 a23 a24 a25].
  cbn [tf_edi tf_esi tf_ebp tf_oesp tf_ebx tf_edx tf_ecx tf_eax tf_gs tf_padding1
    tf_fs tf_padding2 tf_es tf_padding3 tf_ds tf_padding4 tf_trapno tf_err tf_eip tf_cs
    tf_padding5 tf_eflags tf_esp tf_ss tf_padding6] in *.
  unfold tf_of_bytes, at32, at16, tf_bytes, of_bytes32, bytes32, bytes16. cbn [app drop nth].
  cbn [tf_edi tf_esi tf_ebp tf_oesp tf_ebx tf_edx tf_ecx tf_eax tf_gs tf_padding1
    tf_fs tf_padding2 tf_es tf_padding3 tf_ds tf_padding4 tf_trapno tf_err tf_eip tf_cs
    tf_padding5 tf_eflags tf_esp tf_ss tf_padding6].
  f_equal; first [apply word_of_bytes; tauto | apply half_of_bytes; tauto].
Qed.

(** ** Running the operations on the current process *)

Section OnCurrent.
Context (i : nat) (s : kst) (p0 : proc) (H0 : procs s !! i = Some p0).

(** [s] with the entry [i] replaced and another memory. *)
Definition with_cur (p : proc) (m : gmap Z Z) : kst :=
  set_procs (<[i := p]> (procs s)) (set_phys m s).

Lemma with_cur_start : with_cur p0 (phys s) = s.
Proof using H0. unfold with_cur. rewrite list_insert_id by done. by destruct s. Qed.

Lemma with_cur_lookup p m : procs (with_cur p m) !! i = Some p.
Proof using H0. simpl. apply list_lookup_insert_eq. by eapply lookup_lt_Some. Qed.

Lemma get_proc_with p m env : get_proc i env (with_cur p m) = Ok p (with_cur p m) env.
Proof using H0. apply get_proc_run, with_cur_lookup. Qed.

Lemma mod_proc_with g p m env :
  mod_proc i g env (with_cur p m) = Ok tt (with_cur (g p) m) env.
Proof using H0.
  unfold mod_proc, modify, with_cur, set_procs. simpl. do 2 f_equal.
  apply list_eq. intros j. destruct (decide (i = j)) as [<-|Hj].
  - rewrite lookup_upd_eq, !list_lookup_insert_eq by (by eapply lookup_lt_Some). done.
  - by rewrite lookup_upd_ne, !list_lookup_insert_ne by done.
Qed.

Lemma mod_tf_with g p m env :
  mod_tf i g env (with_cur p m) = Ok tt (with_cur (set_tf (g (tf p)) p) m) env.
Proof using H0. exact (mod_proc_with (fun p => set_tf (g (tf p)) p) p m env). Qed.

Lemma ustore_with lo n f va bs p m env :
  mapped m (cr3 (kcpu s)) lo n f ->
  lo <= va -> va + Z.of_nat (length bs) <= lo + n ->
  ustore va bs env (with_cur p m) = Ok tt (with_cur p (fput f m va bs)) env.
Proof using. intros Hm H1 H2. by rewrite (ustore_run (with_cur p m) env lo n f Hm va bs H1 H2). Qed.

(** The frame, from the handler's stack pointer up. *)
Definition frame (esp sig : Z) (t : trapframe) : list Z :=
  bytes32 (esp - 8) ++ bytes32 sig ++ tf_bytes t ++ sigreturn_stub.

Definition FRAME_SIZE : Z := 92.

End OnCurrent.

Lemma length_frame esp sig t : length (frame esp sig t) = 92%nat.
Proof. done. Qed.

Lemma fget_split f m va a b : fget f m va (a + b) = fget f m va a ++ fget f m (va + Z.of_nat a) b.
Proof.
  revert va. induction a as [|a IH]; intros va; cbn [fget Nat.add app].
  - by replace (va + Z.of_nat 0) with va by lia.
  - rewrite IH. by replace (va + Z.of_nat (S a)) with (va + 1 + Z.of_nat a) by lia.
Qed.

Lemma length_fget f m va n : length (fget f m va n) = n.
Proof. revert va. induction n as [|n IH]; intros va; cbn [fget length]; auto. Qed.

(** Reading back a part of what was stored. *)
Lemma fget_fput_in f bs k n m va vb :
  vb = va + Z.of_nat k -> (k + n <= length bs)%nat ->
  inj_on f va (va + Z.of_nat (length bs)) ->
  fget f (fput f m va bs) vb n = take n (drop k bs).
Proof.
  intros -> Hlen Hi. pose proof (fget_fput_same f bs m va Hi) as E.
  replace (length bs) with (k + (n + (length bs - k - n)))%nat in E at 1 by lia.
  rewrite !fget_split in E. rewrite <- E at 2.
  rewrite drop_app_length', take_app_length' by (by rewrite length_fget). done.
Qed.

Definition frame_mem (f : Z -> Z) (m : gmap Z Z) (esp sig : Z) (t : trapframe) : gmap Z Z :=
  let m1 := fput f m (esp - 8) sigreturn_stub in
  let m2 := fput f m1 (esp - 84) (tf_bytes (set_esp (esp - 84) t)) in
  let m3 := fput f m2 (esp - 16) (bytes32 esp) in
  let m4 := fput f m3 (esp - 88) (bytes32 sig) in
  fput f m4 (esp - 92) (bytes32 (esp - 8)).

Ltac flen := rewrite ?length_tf_bytes; unfold TF_SIZE; simpl length; lia.

(** One step of [push_frame] on the current process's entry. *)
Ltac cur_step i s p Hp :=
  first [ erewrite bind_ok by (exact (get_proc_with i s p Hp _ _ _))
        | erewrite bind_ok by (exact (mod_tf_with i s p Hp _ _ _ _)) ];
  cbn [tf set_tf tf_esp set_esp].

Lemma push_frame_run i s p f sig h env :
  procs s !! i = Some p ->
  let esp := tf_esp (tf p) in
  esp < 4294967296 ->
  mapped (phys s) (cr3 (kcpu s)) (esp - FRAME_SIZE) FRAME_SIZE f ->
  push_frame i sig h env s =
    Ok tt (with_cur i s (set_tf (set_eip h (set_esp (esp - FRAME_SIZE) (tf p))) p)
             (frame_mem f (phys s) esp sig (tf p))) env /\
  mapped (frame_mem f (phys s) esp sig (tf p)) (cr3 (kcpu s)) (esp - FRAME_SIZE) FRAME_SIZE f.
Proof.
  intros Hp esp Hesp Hm. unfold FRAME_SIZE in *. pose proof (mapped_lo _ _ _ _ _ Hm) as Hlo.
  set (c3 := cr3 (kcpu s)) in *.
  assert (forall m va bs, mapped m c3 (esp - 92) 92 f -> esp - 92 <= va ->
    va + Z.of_nat (length bs) <= esp -> mapped (fput f m va bs) c3 (esp - 92) 92 f) as HK.
  { intros m va bs Hx ? ?. apply (uput_mapped c3 (esp - 92) 92 f bs m va); auto; lia. }
  rewrite <- (with_cur_start i s p Hp) at 1. unfold push_frame, ustore32.
  do 3 cur_step i s p Hp. fold esp.
  change (Z.of_nat (length sigreturn_stub)) with 8. change (Z.of_nat TF_SIZE) with 76.
  rewrite (u32_small (esp - 8)) by lia.
  erewrite bind_ok by (apply (ustore_with i s (esp - 92) 92 f); [done | flen..]).
  do 2 cur_step i s p Hp.
  replace (u32 (esp - 8 - 76)) with (esp - 84) by (rewrite u32_small; lia).
  erewrite bind_ok by (apply (ustore_with i s (esp - 92) 92 f);
    [apply HK; [done | flen..] | flen..]).
  replace (u32 (esp - 84 + TF_ESP_OFF)) with (esp - 16) by (unfold TF_ESP_OFF; rewrite u32_small; lia).
  erewrite bind_ok by (apply (ustore_with i s (esp - 92) 92 f);
    [repeat (apply HK; [|flen..]); done | flen..]).
  do 2 cur_step i s p Hp.
  replace (u32 (esp - 84 - 4)) with (esp - 88) by (rewrite u32_small; lia).
  erewrite bind_ok by (apply (ustore_with i s (esp - 92) 92 f);
    [repeat (apply HK; [|flen..]); done | flen..]).
  do 2 cur_step i s p Hp.
  replace (u32 (esp - 88 - 4)) with (esp - 92) by (rewrite u32_small; lia).
  erewrite bind_ok by (apply (ustore_with i s (esp - 92) 92 f);
    [repeat (apply HK; [|flen..]); done | flen..]).
  rewrite (mod_tf_with i s p Hp). split; [done|].
  unfold frame_mem. repeat (apply HK; [|flen..]). done.
Qed.

(** The stores leave the frame, and nothing else, in memory. *)
Lemma frame_mem_frame f m esp sig t :
  inj_on f (esp - 92) esp -> tf_esp t = esp ->
  fget f (frame_mem f m esp sig t) (esp - 92) 92 = frame esp sig t.
Proof.
  intros Hi Ht. unfold frame_mem, frame.
  change 92%nat with (4 + (4 + (68 + (4 + (4 + 8)))))%nat. rewrite !fget_split. simpl Z.of_nat.
  assert (forall va bs vb k m', esp - 92 <= va -> va + Z.of_nat (length bs) <= esp ->
     esp - 92 <= vb -> vb + Z.of_nat k <= esp ->
     va + Z.of_nat (length bs) <= vb \/ vb + Z.of_nat k <= va ->
     fget f (fput f m' va bs) vb k = fget f m' vb k) as HO.
  { intros va bs vb k m' ? ? ? ? ?. apply fget_fput_out. intros x y ? ? E.
    assert (x = y) by (apply Hi; [lia..|done]). lia. }
  assert (forall va bs vb k n m', vb = va + Z.of_nat k -> (k + n <= length bs)%nat ->
     esp - 92 <= va -> va + Z.of_nat (length bs) <= esp ->
     fget f (fput f m' va bs) vb n = take n (drop k bs)) as HIn.
  { intros. apply fget_fput_in; auto. eapply inj_on_mono; [exact Hi | lia..]. }
  rewrite (HIn (esp - 92) _ (esp - 92) 0%nat 4%nat) by flen.
  rewrite (HO (esp - 92)), (HIn (esp - 88) _ _ 0%nat 4%nat) by flen.
  rewrite (HO (esp - 92)), (HO (esp - 88)), (HO (esp - 16)), (HIn (esp - 84) _ _ 0%nat 68%nat) by flen.
  rewrite (HO (esp - 92)), (HO (esp - 88)), (HIn (esp - 16) _ _ 0%nat 4%nat) by flen.
  rewrite (HO (esp - 92)), (HO (esp - 88)), (HO (esp - 16)), (HIn (esp - 84) _ _ 72%nat 4%nat) by flen.
  rewrite (HO (esp - 92)), (HO (esp - 88)), (HO (esp - 16)), (HO (esp - 84)),
    (HIn (esp - 8) _ _ 0%nat 8%nat) by flen.
  rewrite <- Ht. by destruct t.
Qed.

Lemma frame_mem_out f m esp sig t a :
  (forall x, esp - 92 <= x < esp -> f x <> a) ->
  mget (frame_mem f m esp sig t) a = mget m a.
Proof.
  intros H. unfold frame_mem.
  rewrite !mget_fput_out; [done | intros x Hx; apply H; simpl in Hx; lia..].
Qed.

(** ** Which signal is delivered *)

(** Signal [j] is pending, and if it is the alarm its time has come. *)
Definition deliverable (p : proc) (t : Z) (j : nat) : bool :=
  Z.testbit (pending p) (Z.of_nat j) && negb ((Z.of_nat j =? SIGALRM_BIT) && (t <? alarmEnd p)).

Definition taken (i j : nat) (s : kst) : kst :=
  set_procs (upd i (fun p => set_pending (Z.clearbit (pending p) (Z.of_nat j)) p) (procs s)) s.

Lemma getLitSignal_loop_run i p js env s :
  procs s !! i = Some p -> is_word (pending p) -> Forall (fun j => (j < 32)%nat) js ->
  getLitSignal_loop i js env s =
    match find_idx (deliverable p (ticks s)) js with
    | Some k => Ok (Z.of_nat (nth k js 0%nat)) (taken i (nth k js 0%nat) s) env
    | None => Ok (-1) s env
    end.
Proof.
  intros Hp Hw. induction js as [|j js IH]; intros HF; [done|].
  apply Forall_cons in HF as [Hj HF]. cbn [getLitSignal_loop find_idx].
  rewrite (bind_ok _ _ _ _ _ _ _ (get_proc_run env s i p Hp)). mrun.
  rewrite land_bit, negb_involutive by lia. unfold deliverable at 1.
  destruct (Z.testbit (pending p) (Z.of_nat j)); cbn [andb].
  - destruct ((Z.of_nat j =? SIGALRM_BIT) && (ticks s <? alarmEnd p)); cbn [negb].
    + rewrite IH by done. by destruct (find_idx _ js).
    + unfold mod_proc. mrun. unfold ret, taken. do 2 f_equal.
      apply (upd_ext _ _ _ _ p Hp). by rewrite land_clear_bit by (unfold is_word in Hw; lia).
  - rewrite IH by done. by destruct (find_idx _ js).
Qed.

Lemma nth_seq0 k n : (k < n)%nat -> nth k (seq 0 n) 0%nat = k.
Proof. intros. rewrite seq_nth; lia. Qed.

Lemma getLitSignal_run i p env s :
  cur s i p -> is_word (pending p) ->
  getLitSignal env s =
    match find_idx (deliverable p (ticks s)) (seq 0 NUMSIG) with
    | Some j => Ok (Z.of_nat j) (taken i j s) env
    | None => Ok (-1) s env
    end.
Proof.
  intros Hc Hw. unfold getLitSignal. rewrite (bind_ok _ _ _ _ _ _ _ (myproc_run env s i p Hc)).
  rewrite (getLitSignal_loop_run i p) by
    (first [apply Hc | done | apply Forall_seq; unfold NUMSIG; lia]).
  destruct (find_idx _ _) as [k|] eqn:E; [|done].
  apply find_idx_lt in E. rewrite length_seq in E. by rewrite nth_seq0.
Qed.

Lemma find_idx_seq (g : nat -> bool) n j :
  find_idx g (seq 0 n) = Some j <->
  (j < n)%nat /\ g j = true /\ forall k, (k < j)%nat -> g k = false.
Proof.
  rewrite find_idx_Some. split.
  - intros [(x & Hx & Hg) Hlt]. apply lookup_seq in Hx as [-> Hn]. simpl in *.
    split_and!; [done|done|]. intros k Hk. apply (Hlt k); [done|]. apply lookup_seq. lia.
  - intros (Hn & Hg & Hlt). split.
    + exists j. split; [apply lookup_seq; lia | done].
    + intros k y Hk [-> _]%lookup_seq. by apply Hlt.
Qed.

Lemma find_idx_seq_None (g : nat -> bool) n :
  find_idx g (seq 0 n) = None <-> forall j, (j < n)%nat -> g j = false.
Proof.
  rewrite find_idx_None. split.
  - intros H j Hj. apply (H j). apply lookup_seq. lia.
  - intros H j y [-> Hj]%lookup_seq. by apply H.
Qed.

(** ** A small machine with one user process, for examples

    Process 0 runs with its page directory at 4096; its first page is
    mapped, user-writable, to the frame at 12288. *)

Definition tf_user (esp : Z) : trapframe :=
  mktf 1 2 3 4 5 6 7 8 35 0 35 0 35 0 35 0 64 0 256 27 0 512 esp 35 0.

Definition proc_user (pend : Z) (hs : list Z) (t : trapframe) : proc :=
  set_pending pend (set_signals hs (set_tf t (set_state RUNNING (set_pid 3
    (set_pgdir (P2V 4096) (set_sz 4096 proc_zero)))))).

Definition phys_user : gmap Z Z := store32 (store32 ∅ 4096 (8192 + 7)) 8192 (12288 + 7).

Definition kst_user (p : proc) : kst :=
  set_kcpu (set_curproc (Some 0%nat) (set_cr3 4096 cpu_boot))
    (set_phys phys_user (set_procs (<[0%nat := p]> (procs kst_boot)) kst_boot)).

Lemma kst_user_mapped p esp :
  esp = 3840 -> mapped (phys (kst_user p)) (cr3 (kcpu (kst_user p))) (esp - FRAME_SIZE) FRAME_SIZE
    (fun va => 12288 + va).
Proof. intros ->. apply mappedb_sound. by vm_compute. Qed.

(** ** Delivery and return *)

Section Delivery.
Context `{Link}.

(** [j] is the signal [handleSignal] has to deliver to process [i]. *)
Definition due (s : kst) (i : nat) (p : proc) (j : nat) : Prop :=
  cur s i p /\ is_word (pending p) /\ (j < NUMSIG)%nat /\
  deliverable p (ticks s) j = true /\
  forall k, (k < j)%nat -> deliverable p (ticks s) k = false.

Definition user_frame (t : trapframe) : Prop := Z.land (tf_cs t) 3 <> 0.

Lemma due_taken s i p j env :
  due s i p j -> getLitSignal env s = Ok (Z.of_nat j) (taken i j s) env.
Proof.
  intros (Hc & Hw & Hj & Hd & Hlt). rewrite (getLitSignal_run i p) by done.
  assert (find_idx (deliverable p (ticks s)) (seq 0 NUMSIG) = Some j) as ->; [|done].
  by apply find_idx_seq.
Qed.

Lemma taken_with_cur s i p j :
  procs s !! i = Some p ->
  taken i j s = with_cur i s (set_pending (Z.clearbit (pending p) (Z.of_nat j)) p) (phys s).
Proof.
  intros Hp.
  pose proof (mod_proc_with i s p Hp
    (fun p => set_pending (Z.clearbit (pending p) (Z.of_nat j)) p) p (phys s) []) as E.
  rewrite with_cur_start in E by done.
  exact (f_equal (fun o => match o with Ok _ s' _ => s' | _ => s end) E).
Qed.

(** What [handleSignal] does up to the choice between the two kinds of
    handler. *)
Lemma handleSignal_due s i p j t env :
  due s i p j -> user_frame t ->
  let h := nth j (signals p) 0 in
  handleSignal t env s =
    (if h =? a_defaultHandler then defaultHandler (Z.of_nat j) else push_frame i (Z.of_nat j) h)
      env (taken i j s).
Proof.
  intros Hd Hu h. pose proof Hd as ((Hc & Hp) & _). unfold handleSignal. mrun. rewrite Hc.
  unfold user_frame in Hu. destruct (Z.eqb_spec (Z.land (tf_cs t) 3) 0) as [E|_]; [done|].
  rewrite (bind_ok _ _ _ _ _ _ _ (due_taken s i p j env Hd)).
  destruct (Z.eqb_spec (Z.of_nat j) (-1)) as [E|_]; [lia|].
  rewrite (taken_with_cur s i p j Hp).
  rewrite (bind_ok _ _ _ _ _ _ _ (get_proc_with i s p Hp _ _ env)).
  cbn [signals set_pending]. rewrite Nat2Z.id. fold h. by destruct (h =? a_defaultHandler).
Qed.

(** Delivery to a handler of the process, as an exact result. *)
Lemma handleSignal_frame s i p j t f env :
  due s i p j -> user_frame t ->
  let h := nth j (signals p) 0 in
  let esp := tf_esp (tf p) in
  h <> a_defaultHandler -> is_word esp ->
  mapped (phys s) (cr3 (kcpu s)) (esp - FRAME_SIZE) FRAME_SIZE f ->
  let m' := frame_mem f (phys s) esp (Z.of_nat j) (tf p) in
  handleSignal t env s =
    Ok tt (with_cur i s
      (set_pending (Z.clearbit (pending p) (Z.of_nat j))
        (set_tf (set_eip h (set_esp (esp - FRAME_SIZE) (tf p))) p)) m') env /\
  mapped m' (cr3 (kcpu s)) (esp - FRAME_SIZE) FRAME_SIZE f /\
  fget f m' (esp - FRAME_SIZE) 92 = frame esp (Z.of_nat j) (tf p).
Proof.
  intros Hd Hu h esp Hh Hesp Hm m'. pose proof Hd as ((_ & Hp) & _).
  rewrite (handleSignal_due s i p j t env Hd Hu). fold h.
  destruct (Z.eqb_spec h a_defaultHandler) as [E|_]; [done|].
  rewrite (taken_with_cur s i p j Hp).
  set (p1 := set_pending _ p). set (s1 := with_cur i s p1 (phys s)).
  assert (procs s1 !! i = Some p1) as Hp1 by (by apply (with_cur_lookup i s p Hp)).
  destruct (push_frame_run i s1 p1 f (Z.of_nat j) h env Hp1) as [E Hm'].
  - unfold is_word in Hesp. exact (proj2 Hesp).
  - exact Hm.
  - split_and!; [|exact Hm'|].
    + rewrite E. f_equal. unfold with_cur, set_procs. simpl. f_equal. apply list_insert_insert_eq.
    + apply frame_mem_frame; [|done]. apply mapped_inj_on in Hm.
      unfold FRAME_SIZE in Hm. by replace (esp - 92 + 92) with esp in Hm by lia.
Qed.

(** C31: proc.c [handleSignal].  When the process returns to user mode and
    signal [j] is the lowest signal that is due and has a handler of its
    own, exactly this happens: the signal's bit, and no other, is cleared;
    eip becomes the handler; esp goes down by 92 bytes; and these 92 bytes
    hold the return address (the stub's), the signal number, the complete
    trap frame the process had, and the code of the sigreturn stub.  No
    other byte of memory and no other process changes. *)
Theorem handleSignal_delivers s i p j t f env :
  due s i p j -> user_frame t ->
  let h := nth j (signals p) 0 in
  let esp := tf_esp (tf p) in
  h <> a_defaultHandler -> is_word esp ->
  mapped (phys s) (cr3 (kcpu s)) (esp - FRAME_SIZE) FRAME_SIZE f ->
  exists m',
    handleSignal t env s =
      Ok tt (set_phys m' (set_procs (<[i :=
        set_pending (Z.clearbit (pending p) (Z.of_nat j))
          (set_tf (set_eip h (set_esp (esp - FRAME_SIZE) (tf p))) p)]> (procs s)) s)) env /\
    ubytes m' (cr3 (kcpu s)) (esp - FRAME_SIZE) 92 =
      Some (bytes32 (esp - 8) ++ bytes32 (Z.of_nat j) ++ tf_bytes (tf p) ++ sigreturn_stub) /\
    (forall a, (forall x, esp - FRAME_SIZE <= x < esp -> f x <> a) -> mget m' a = mget (phys s) a).
Proof.
  intros Hd Hu h esp Hh Hesp Hm.
  destruct (handleSignal_frame s i p j t f env Hd Hu Hh Hesp Hm) as (E & Hm' & Hf).
  eexists. split_and!; [exact E | |].
  - rewrite (ubytes_mapped _ _ _ _ _ _ _ Hm'); [|unfold FRAME_SIZE; lia..].
    exact (f_equal Some Hf).
  - intros a Ha. by apply frame_mem_out.
Qed.

Lemma ubytes_take m c3 va a b bs :
  ubytes m c3 va (a + b) = Some bs -> ubytes m c3 va a = Some (take a bs).
Proof.
  revert va bs. induction a as [|a IH]; intros va bs; cbn [ubytes Nat.add]; [by rewrite take_0|].
  destruct (uget8 m c3 (u32 va)) as [x|]; simpl; [|done].
  destruct (ubytes m c3 (va + 1) (a + b)) as [l|] eqn:E; simpl; [|done].
  intros [= <-]. by rewrite (IH _ _ E).
Qed.

(** [sigreturn] loads the trap frame found 4 bytes above esp. *)
Lemma sigreturn_run s i p bs env :
  cur s i p -> 0 <= tf_esp (tf p) + 4 < 4294967296 ->
  ubytes (phys s) (cr3 (kcpu s)) (tf_esp (tf p) + 4) TF_SIZE = Some bs ->
  sigreturn env s = Ok 0 (with_cur i s (set_tf (tf_of_bytes bs) p) (phys s)) env.
Proof.
  intros [Hc Hp] Hesp Hb. unfold sigreturn.
  rewrite (bind_ok _ _ _ _ _ _ _ (myproc_is env s i Hc)).
  rewrite <- (with_cur_start i s p Hp) at 1.
  do 2 cur_step i s p Hp. rewrite u32_small by done.
  erewrite bind_ok by (unfold uload; cbn [phys kcpu with_cur set_procs set_phys];
    change (kcpu (with_cur i s _ _)) with (kcpu s); change (phys (with_cur i s _ (phys s))) with (phys s);
    rewrite Hb; reflexivity).
  by cur_step i s p Hp.
Qed.

(** What [handleSignal] saved is the trap frame. *)
Lemma handleSignal_saved s i p j t f env :
  due s i p j -> user_frame t ->
  let esp := tf_esp (tf p) in
  nth j (signals p) 0 <> a_defaultHandler -> is_word esp ->
  mapped (phys s) (cr3 (kcpu s)) (esp - FRAME_SIZE) FRAME_SIZE f ->
  exists s1,
    handleSignal t env s = Ok tt s1 env /\
    ubytes (phys s1) (cr3 (kcpu s1)) (esp - 84) TF_SIZE = Some (tf_bytes (tf p)).
Proof.
  intros Hd Hu esp Hh Hesp Hm.
  destruct (handleSignal_frame s i p j t f env Hd Hu Hh Hesp Hm) as (E & Hm' & Hf).
  eexists. split; [exact E|].
  change (kcpu (with_cur i s _ _)) with (kcpu s). change (phys (with_cur i s _ ?m)) with m.
  pose proof (mapped_lo _ _ _ _ _ Hm). unfold FRAME_SIZE in *.
  rewrite (ubytes_mapped _ _ _ _ _ _ _ Hm'); [|unfold TF_SIZE; lia..]. f_equal.
  change 92%nat with (8 + (76 + 8))%nat in Hf. rewrite !fget_split in Hf.
  apply (f_equal (fun l => take 76 (drop 8 l))) in Hf.
  rewrite drop_app_length', take_app_length' in Hf by (by rewrite length_fget).
  replace (esp - 84) with (tf_esp (tf p) - 92 + Z.of_nat 8) by (unfold esp; lia). exact Hf.
Qed.

Lemma wf_tf_esp t : wf_tf t -> is_word (tf_esp t).
Proof. intros [Hw _]. rewrite !Forall_cons in Hw. tauto. Qed.


Lemma cur_taken s i p j :
  cur s i p -> cur (taken i j s) i (set_pending (Z.clearbit (pending p) (Z.of_nat j)) p).
Proof. intros [H1 H2]. split; [done|]. unfold taken. simpl. by rewrite lookup_upd_eq, H2. Qed.

(** proc.c [handleSignal], the other ways out.  Without a current
    process, or when the trap came from the kernel, or when no signal is
    due, it does nothing at all.  When the signal due has the default
    handler, it clears the signal's bit and prints the message with the
    signal's and the process's numbers; the process's registers and its
    memory stay as they are. *)
Theorem handleSignal_otherwise s i p t env :
  (curproc (kcpu s) = None \/ Z.land (tf_cs t) 3 = 0 ->
     handleSignal t env s = Ok tt s env) /\
  (cur s i p -> is_word (pending p) ->
     (forall j, (j < NUMSIG)%nat -> deliverable p (ticks s) j = false) ->
     handleSignal t env s = Ok tt s env) /\
  (forall j, due s i p j -> user_frame t -> nth j (signals p) 0 = a_defaultHandler ->
     screen_ok s -> wf_cpu (kcpu s) -> locks s !! LCons = None ->
     cons_locking s = true -> uart s = true ->
     exists scr pos,
       handleSignal t env s =
         Ok tt (redrawn scr pos
           (uart_out s ++
             (fmt_chars (bytes_of "A signal %d was accepted by process %d" ++ [ch_newline])
                [AInt (Z.of_nat j); AInt (pid p)] ≫= uart_chars))
           (set_kcpu (crit (kcpu s)) (taken i j s))) env).
Proof.
  split_and!.
  - intros Ho. unfold handleSignal. mrun. destruct (curproc (kcpu s)); [|done].
    destruct Ho as [Ho|Ho]; [done|]. by rewrite Ho.
  - intros Hc Hw Hn. unfold handleSignal. mrun. pose proof Hc as [-> _].
    destruct (Z.land (tf_cs t) 3 =? 0); [done|].
    assert (getLitSignal env s = Ok (-1) s env) as E.
    { rewrite (getLitSignal_run i p) by done.
      by rewrite (proj2 (find_idx_seq_None (deliverable p (ticks s)) NUMSIG) Hn). }
    by rewrite (bind_ok _ _ _ _ _ _ _ E).
  - intros j Hd Hu Hh Hs Hw Hl Hcl Hua. pose proof Hd as (Hc & _).
    rewrite (handleSignal_due s i p j t env Hd Hu), Hh, Z.eqb_refl. unfold defaultHandler.
    pose proof (cur_taken s i p j Hc) as Hc'.
    rewrite (bind_ok _ _ _ _ _ _ _ (myproc_get_run env _ i _ Hc')). cbn [pid set_pending].
    set (fmt := bytes_of _ ++ _). set (args := [_; _]).
    destruct (cprintf_run fmt args env (taken i j s) Hs Hw Hl) as (scr & pos & E & _).
    exists scr, pos. rewrite E. change (cons_locking (taken i j s)) with (cons_locking s).
    change (uart (taken i j s)) with (uart s). by rewrite Hcl, Hua.
Qed.

End Delivery.

#[local] Existing Instance link_example.

Definition proc_example : proc := proc_user 8 (replicate 32 4660) (tf_user 3840).

Lemma due_example : due (kst_user proc_example) 0 proc_example 3.
Proof.
  unfold due. split_and!; [by vm_compute.. | unfold NUMSIG; lia | by vm_compute |].
  intros k Hk. destruct k as [|[|[|k]]]; [by vm_compute.. | lia].
Qed.

Lemma handleSignal_delivers_witness :
  let p := proc_example in
  let s := kst_user p in
  exists m', handleSignal (tf p) [] s =
    Ok tt (set_phys m' (set_procs (<[0%nat := set_pending 0
      (set_tf (set_eip 4660 (set_esp 3748 (tf p))) p)]> (procs s)) s)) [] /\
    ubytes m' 4096 3748 92 =
      Some (bytes32 3832 ++ bytes32 3 ++ tf_bytes (tf_user 3840) ++ sigreturn_stub).
Proof.
  intros p s.
  destruct (handleSignal_delivers s 0 p 3 (tf p) (fun va => 12288 + va) [])
    as (m' & E & Hb & _).
  - apply due_example.
  - by vm_compute.
  - by vm_compute.
  - by vm_compute.
  - by apply kst_user_mapped.
  - exists m'. split; [exact E | exact Hb].
Defined.


Lemma handleSignal_otherwise_witness :
  let p := proc_user 16384 (replicate 32 2148532000) (tf_user 3840) in
  exists s', handleSignal (tf p) [] (kst_user p) = Ok tt s' [] /\
    uart_out s' = bytes_of "A signal 14 was accepted by process 3" ++ [ch_newline].
Proof.
  intros p.
  assert (due (kst_user p) 0 p 14) as Hd.
  { unfold due. split_and!; [by vm_compute.. | unfold NUMSIG; lia | by vm_compute |].
    intros k Hk. do 14 (destruct k as [|k]; [by vm_compute|]). lia. }
  destruct (handleSignal_otherwise (kst_user p) 0 p (tf p) []) as (_ & _ & HD).
  destruct (HD 14%nat Hd) as (scr & pos & E); [by vm_compute.. |].
  eexists. split; [exact E|]. by vm_compute.
Defined.

(** ** Sending and installing *)

Definition marked (k : nat) (sig : Z) (s : kst) : kst :=
  set_procs (upd k (fun p =>
    (if sig =? SIGALRM_BIT then set_alarmEnd 0 else id)
      (set_pending (Z.setbit (pending p) sig) p)) (procs s)) s.

Definition marked_oob (sig : Z) (s : kst) : kst :=
  (if sig =? SIGALRM_BIT then set_oob_alarmEnd 0 else id)
    (set_oob_pending (Z.setbit (oob_pending s) sig) s).

Lemma sigsend_run pid' sig env s :
  0 <= sig < 32 -> locks s !! LPtable = None -> wf_cpu (kcpu s) ->
  sigsend pid' sig env s =
    Ok 0 (match find_idx (fun p => pid p =? pid') (procs s) with
          | Some k => marked k sig (set_kcpu (crit (kcpu s)) s)
          | None => marked_oob sig (set_kcpu (crit (kcpu s)) s)
          end) env.
Proof.
  intros Hs Hl Hw. unfold sigsend, bad_signum.
  destruct (Z.ltb_spec sig 0), (Z.ltb_spec 31 sig); cbn [orb]; cbv iota zeta; [lia..|].
  etransitivity.
  { apply (critical LPtable _ _ env env s s (find_idx (fun p => pid p =? pid') (procs s))); done. }
  destruct (find_idx _ _) as [k|]; unfold marked, marked_oob, mod_proc, when;
    destruct (sig =? SIGALRM_BIT); mrun; unfold ret; f_equal.
  - rewrite set_procs_twice. f_equal. rewrite upd_upd. apply upd_ext_all. intros p. by rewrite lor_set_bit.
  - f_equal. apply upd_ext_all. intros p. by rewrite lor_set_bit.
  - unfold set_oob_alarmEnd, set_oob_pending. simpl. by rewrite lor_set_bit.
  - by rewrite lor_set_bit.
Qed.

Lemma testbit_setbit x i n : 0 <= i -> 0 <= n -> Z.testbit (Z.setbit x i) n = (i =? n) || Z.testbit x n.
Proof. intros. by rewrite Z.setbit_eqb by done. Qed.

(** proc.c [sigsend].  A signal number outside 0..31 is refused with
    -1 and nothing changes.  Otherwise, if some process has the given pid,
    the call returns 0 and the first such entry of the table has the
    signal pending and due at once, at whatever tick (for the alarm signal
    a running alarm is cut short); its other pending signals, its other
    fields and every other process are as before. *)
Theorem sigsend_marks pid' sig env s :
  locks s !! LPtable = None -> wf_cpu (kcpu s) ->
  (sig < 0 \/ 31 < sig -> sigsend pid' sig env s = Ok (-1) s env) /\
  (0 <= sig <= 31 -> forall k p,
     procs s !! k = Some p -> pid p = pid' ->
     (forall j q, (j < k)%nat -> procs s !! j = Some q -> pid q <> pid') ->
     exists s' p',
       sigsend pid' sig env s = Ok 0 s' env /\
       s' = set_kcpu (crit (kcpu s)) (set_procs (<[k := p']> (procs s)) s) /\
       p' = set_pending (pending p') (set_alarmEnd (alarmEnd p') p) /\
       (forall t, 0 <= t -> deliverable p' t (Z.to_nat sig) = true) /\
       (forall t j, j <> Z.to_nat sig -> deliverable p' t j = deliverable p t j)).
Proof.
  intros Hl Hw. split.
  { intros Hs. unfold sigsend, bad_signum.
    destruct (Z.ltb_spec sig 0), (Z.ltb_spec 31 sig); simpl; done || lia. }
  intros Hs k p Hk Hp Hlt.
  set (p' := (if sig =? SIGALRM_BIT then set_alarmEnd 0 else id) (set_pending (Z.setbit (pending p) sig) p)).
  exists (marked k sig (set_kcpu (crit (kcpu s)) s)), p'. split_and!.
  - rewrite sigsend_run by (done || lia).
    assert (find_idx (fun p => pid p =? pid') (procs s) = Some k) as ->; [|done].
    apply find_idx_Some. split.
    + exists p. split; [done|]. by apply Z.eqb_eq.
    + intros j q Hj Hq. apply Z.eqb_neq. by eapply Hlt.
  - unfold marked, set_procs, set_kcpu. simpl. f_equal.
    apply list_eq. intros j. destruct (decide (k = j)) as [<-|Hj].
    + by rewrite lookup_upd_eq, Hk, list_lookup_insert_eq by (by eapply lookup_lt_Some).
    + by rewrite lookup_upd_ne, list_lookup_insert_ne.
  - unfold p'. by destruct p, (sig =? SIGALRM_BIT).
  - intros t Ht. unfold deliverable, p'. rewrite Z2Nat.id by lia.
    destruct (Z.eqb_spec sig SIGALRM_BIT); simpl;
      rewrite testbit_setbit, Z.eqb_refl by lia; simpl; [|done].
    destruct (Z.ltb_spec t 0); [lia|done].
  - intros t j Hj. unfold deliverable, p'.
    assert (Z.testbit (Z.setbit (pending p) sig) (Z.of_nat j) = Z.testbit (pending p) (Z.of_nat j)) as E.
    { rewrite testbit_setbit by lia. destruct (Z.eqb_spec sig (Z.of_nat j)); [lia|done]. }
    destruct (Z.eqb_spec sig SIGALRM_BIT); simpl; rewrite E; [|done].
    destruct (Z.eqb_spec (Z.of_nat j) SIGALRM_BIT); [lia|done].
Qed.

Lemma sigsend_marks_witness :
  exists s' p', sigsend 3 14 [] (kst_user proc_example) = Ok 0 s' [] /\ procs s' !! 0%nat = Some p' /\
    pending p' = 8 + 16384.
Proof.
  destruct (proj2 (sigsend_marks 3 14 [] (kst_user proc_example) eq_refl ltac:(by vm_compute))
    ltac:(lia) 0%nat proc_example eq_refl eq_refl ltac:(intros; lia)) as (s' & p' & E & Hs' & _).
  exists s', (set_alarmEnd 0 (set_pending 16392 proc_example)).
  split; [exact E|]. split; [|done].
  assert (sigsend 3 14 [] (kst_user proc_example) = Ok 0 s' []) as E2 by exact E.
  vm_compute in E2. injection E2 as <-. by vm_compute.
Defined.

(** proc.c [sigsend], pid not in the table.  The loop leaves [p] one
    past the last entry, which is not null, so the test [p == 0] never
    fires: the call answers 0 (success) and sets the signal's bit in the
    word of memory that follows the process table (and, for the alarm
    signal, zeroes another one). *)
Theorem sigsend_unknown_pid pid' sig env s :
  locks s !! LPtable = None -> wf_cpu (kcpu s) -> 0 <= sig <= 31 ->
  (forall p, p ∈ procs s -> pid p <> pid') ->
  exists s', sigsend pid' sig env s = Ok 0 s' env /\
    procs s' = procs s /\
    Z.testbit (oob_pending s') sig = true /\
    (sig = SIGALRM_BIT -> oob_alarmEnd s' = 0).
Proof.
  intros Hl Hw Hs Hn. eexists. split; [by apply sigsend_run; [lia|..]|].
  assert (find_idx (fun p => pid p =? pid') (procs s) = None) as ->.
  { apply find_idx_None. intros j y Hy. apply Z.eqb_neq, Hn. by eapply list_elem_of_lookup_2. }
  unfold marked_oob. destruct (Z.eqb_spec sig SIGALRM_BIT); simpl.
  - by rewrite testbit_setbit, Z.eqb_refl by lia.
  - by rewrite testbit_setbit, Z.eqb_refl by lia.
Qed.

Lemma sigsend_unknown_pid_witness :
  exists s', sigsend 99 14 [] (kst_user proc_example) = Ok 0 s' [] /\
    procs s' = procs (kst_user proc_example) /\ Z.testbit (oob_pending s') 14 = true.
Proof.
  destruct (sigsend_unknown_pid 99 14 [] (kst_user proc_example)) as (s' & E & H1 & H2 & _).
  - done.
  - by vm_compute.
  - lia.
  - intros p Hp. apply list_elem_of_lookup in Hp as [j Hj].
    assert (forallb (fun q => negb (pid q =? 99)) (procs (kst_user proc_example)) = true) as HF
      by (by vm_compute).
    rewrite forallb_forall in HF. apply Z.eqb_neq, negb_true_iff, HF.
    apply list_elem_of_In. by eapply list_elem_of_lookup_2.
  - by exists s'.
Defined.

Lemma testbit_clearbit x i n : 0 <= i -> 0 <= n ->
  Z.testbit (Z.clearbit x i) n = Z.testbit x n && negb (i =? n).
Proof. intros. by rewrite Z.clearbit_eqb by done. Qed.

(** proc.c [alarm] with [getLitSignal]'s test.  [alarm(n)] at tick
    [t0] makes the alarm signal due from tick [t0 + n] on and not before;
    [alarm(0)] cancels it: it is due at no tick.  The other signals and
    the other processes are not affected. *)
Theorem alarm_timing n env s i p :
  cur s i p -> is_word (pending p) ->
  exists p',
    alarm n env s = Ok 0 (set_procs (<[i := p']> (procs s)) s) env /\
    (n = 0 -> forall t, deliverable p' t 14 = false) /\
    (n <> 0 -> 0 <= ticks s + n < 4294967296 ->
       forall t, deliverable p' t 14 = (ticks s + n <=? t)) /\
    (forall t j, j <> 14%nat -> deliverable p' t j = deliverable p t j).
Proof.
  intros Hc Hw. pose proof Hc as [Hci Hp]. unfold is_word in Hw.
  exists (if n =? 0 then set_pending (Z.clearbit (pending p) 14) p
          else set_alarmEnd (u32 (ticks s + n)) (set_pending (Z.setbit (pending p) 14) p)).
  split_and!.
  - unfold alarm. rewrite (bind_ok _ _ _ _ _ _ _ (myproc_is env s i Hci)).
    pose proof (with_cur_start i s p Hp) as Es. unfold with_cur in Es.
    rewrite set_phys_id in Es.
    destruct (n =? 0).
    + rewrite <- (with_cur_start i s p Hp) at 1.
      rewrite (bind_ok _ _ _ _ _ _ _ (mod_proc_with i s p Hp _ _ _ env)).
      unfold ret, with_cur. rewrite set_phys_id, land_clear_bit by (unfold SIGALRM_BIT; lia). done.
    + rewrite <- (with_cur_start i s p Hp) at 1.
      rewrite (bind_ok _ _ _ _ _ _ _ (mod_proc_with i s p Hp _ _ _ env)), bind_gets.
      rewrite (bind_ok _ _ _ _ _ _ _ (mod_proc_with i s p Hp _ _ _ env)).
      unfold ret, with_cur. rewrite set_phys_id, lor_set_bit by (unfold SIGALRM_BIT; lia). done.
  - intros -> t. unfold deliverable. change (Z.of_nat 14) with 14. cbn [Z.eqb pending set_pending].
    by rewrite testbit_clearbit, Z.eqb_refl, andb_false_r.
  - intros Hn Hr t. destruct (Z.eqb_spec n 0); [done|]. unfold deliverable.
    change (Z.of_nat 14) with 14. cbn [pending set_pending set_alarmEnd alarmEnd].
    rewrite testbit_setbit, u32_small, Z.eqb_refl by lia. cbn [orb andb]. unfold SIGALRM_BIT.
    rewrite Z.eqb_refl.
    destruct (Z.ltb_spec t (ticks s + n)), (Z.leb_spec (ticks s + n) t); lia || done.
  - intros t j Hj. unfold deliverable, SIGALRM_BIT.
    destruct (Z.eqb_spec (Z.of_nat j) 14); [lia|]. rewrite andb_false_l, !andb_true_r.
    destruct (n =? 0); simpl.
    + rewrite testbit_clearbit by lia. destruct (Z.eqb_spec 14 (Z.of_nat j)); [lia|]. by rewrite andb_true_r.
    + rewrite testbit_setbit by lia. by destruct (Z.eqb_spec 14 (Z.of_nat j)); [lia|].
Qed.

Lemma alarm_timing_witness :
  exists p', alarm 10 [] (kst_user proc_example) =
      Ok 0 (set_procs (<[0%nat := p']> (procs (kst_user proc_example))) (kst_user proc_example)) [] /\
    deliverable p' 9 14 = false /\ deliverable p' 10 14 = true.
Proof.
  destruct (alarm_timing 10 [] (kst_user proc_example) 0 proc_example) as (p' & E & _ & Ht & _).
  - done.
  - by vm_compute.
  - exists p'. split; [exact E|]. split; apply (Ht ltac:(done) ltac:(vm_compute; intuition congruence)).
Defined.

Lemma initHandlers_loop `{Link} i k : forall a env s p,
  procs s !! i = Some p -> length (signals p) = (a + k)%nat ->
  for_each (seq a k)
    (fun j => mod_proc i (fun p => set_signals (<[j := a_defaultHandler]> (signals p)) p)) env s =
  Ok tt (set_procs (<[i := set_signals (take a (signals p) ++ replicate k a_defaultHandler) p]> (procs s)) s) env.
Proof.
  induction k as [|k IH]; intros a env s p Hp Hl; cbn [seq for_each].
  - rewrite app_nil_r, take_ge by lia. unfold ret. f_equal.
    rewrite list_insert_id by (by rewrite Hp; destruct p). by rewrite set_procs_id.
  - unfold mod_proc at 1. rewrite bind_modify.
    rewrite (IH _ _ _ (set_signals (<[a := a_defaultHandler]> (signals p)) p)).
    + f_equal. rewrite set_procs_twice. f_equal. cbn [procs set_procs].
      apply list_eq. intros j. destruct (decide (i = j)) as [<-|Hj].
      * rewrite !list_lookup_insert_eq by (rewrite ?length_upd; by eapply lookup_lt_Some).
        f_equal. unfold set_signals. simpl. f_equal.
        rewrite (take_S_r _ _ a_defaultHandler) by (rewrite list_lookup_insert_eq; [done|lia]).
        rewrite take_insert_ge by lia. by rewrite <- app_assoc.
      * by rewrite !list_lookup_insert_ne, lookup_upd_ne by done.
    + cbn [procs set_procs]. by rewrite lookup_upd_eq, Hp.
    + simpl. rewrite length_insert. lia.
Qed.

Lemma signal_run sig h env s i p old :
  0 <= sig <= 31 -> cur s i p -> signals p !! Z.to_nat sig = Some old ->
  signal sig h env s =
    Ok old (set_procs (<[i := set_signals (<[Z.to_nat sig := h]> (signals p)) p]> (procs s)) s) env.
Proof.
  intros Hs Hc Ho. pose proof Hc as [_ Hp]. unfold signal, bad_signum.
  destruct (Z.ltb_spec sig 0), (Z.ltb_spec 31 sig); cbn [orb]; cbv iota; [lia..|].
  rewrite (bind_ok _ _ _ _ _ _ _ (myproc_get_run env s i p Hc)). cbv iota beta zeta.
  rewrite <- (with_cur_start i s p Hp) at 1.
  rewrite (bind_ok _ _ _ _ _ _ _ (mod_proc_with i s p Hp _ _ _ env)).
  unfold with_cur, ret. rewrite set_phys_id. f_equal. by apply nth_lookup_Some.
Qed.

(** proc.c [initHandlers] and [signal].  A new process has the
    default handler for all 32 signals.  [signal] refuses a number outside
    0..31 with (sighandler_t)-1 and no change; otherwise it returns the
    handler installed before, installs the new one, and touches no other
    handler, so the next [signal] for that number returns it. *)
Theorem signal_installs `{Link} sig h env s i p :
  cur s i p -> length (signals p) = NUMSIG ->
  initHandlers i env s =
    Ok tt (set_procs (<[i := set_signals (replicate NUMSIG a_defaultHandler) p]> (procs s)) s) env /\
  (sig < 0 \/ 31 < sig -> signal sig h env s = Ok 4294967295 s env) /\
  (0 <= sig <= 31 -> exists old s',
     signals p !! Z.to_nat sig = Some old /\
     signal sig h env s = Ok old s' env /\
     s' = set_procs (<[i := set_signals (<[Z.to_nat sig := h]> (signals p)) p]> (procs s)) s /\
     forall h2, exists s2, signal sig h2 env s' = Ok h s2 env).
Proof.
  intros Hc Hl. pose proof Hc as [_ Hp]. split_and!.
  - unfold initHandlers. by rewrite (initHandlers_loop i NUMSIG 0 env s p Hp Hl).
  - intros Hs. unfold signal, bad_signum.
    destruct (Z.ltb_spec sig 0), (Z.ltb_spec 31 sig); simpl; done || lia.
  - intros Hs.
    destruct (lookup_lt_is_Some_2 (signals p) (Z.to_nat sig)) as [old Ho]; [unfold NUMSIG in Hl; lia|].
    exists old. eexists. split_and!; [done|by apply (signal_run sig h env s i p)|done|].
    intros h2. eexists. apply (signal_run sig h2 env _ i
      (set_signals (<[Z.to_nat sig := h]> (signals p)) p)); [lia| |].
    + split; [apply Hc|]. cbn [procs set_procs]. apply list_lookup_insert_eq. by eapply lookup_lt_Some.
    + cbn [signals set_signals]. apply list_lookup_insert_eq. unfold NUMSIG in Hl. lia.
Qed.

Lemma signal_installs_witness :
  exists s' s2, signal 5 777 [] (kst_user proc_example) = Ok 4660 s' [] /\
    signal 5 0 [] s' = Ok 777 s2 [].
Proof.
  destruct (signal_installs 5 777 [] (kst_user proc_example) 0 proc_example) as (_ & _ & HS).
  - done.
  - done.
  - destruct (HS ltac:(lia)) as (old & s' & Ho & E & _ & H2). destruct (H2 0) as [s2 E2].
    exists s', s2. split; [|exact E2]. rewrite E. vm_compute in Ho. by injection Ho as <-.
Defined.
