(* ===== verification/User.v ===== *)
(** * User programs and their system calls

    A user program sees the rest of the system through the system calls of
    user.h.  Here it is a function of the answers the kernel will give to
    its calls, in order, and it yields the trace of the calls it makes.  A
    program ends with [exit], or when [exec] replaces it; when the answers
    are used up it is waiting in the last call of the trace.  [fork] answers
    0 in the child and the pid of the child in the parent, so a trace is what
    one process does.

    The file also has the user's [printf] (printf.c). *)

From stdpp Require Import base numbers list strings.
From S2P Require Import Prelude Kernel Console.

(** C strings and arrays of characters, without the terminator. *)
Notation str := (list Z).

Inductive call :=
| CFork | CExit | CWait | CPipe
| CWrite (fd : Z) (bs : str)
| CRead (fd n : Z)
| CClose (fd : Z)
| CKill (pid : Z)
| CExec (path : str) (argv : list str)
| COpen (path : str) (mode : Z)
| CMknod (path : str) (major minor : Z)
| CUnlink (path : str)
| CFstat (fd : Z)
| CLink (old new : str)
| CMkdir (path : str)
| CChdir (path : str)
| CDup (fd : Z)
| CSleep (n : Z).

(** The value a call returns, and what it stores through a pointer. *)
Record ans := mkans { retval : Z; data : list Z }.

(** How a piece of a program ends: it goes on with the answers that are
    left; the program is over; it waits; or it stored outside of an array. *)
Inductive pres (A : Type) :=
| Goes (a : A) (rest : list ans) (tr : list call)
| Over (tr : list call)
| Waits (tr : list call)
| Faults (tr : list call).
#[global] Arguments Goes {A} a rest tr.
#[global] Arguments Over {A} tr.
#[global] Arguments Waits {A} tr.
#[global] Arguments Faults {A} tr.

Definition P (A : Type) : Type := list ans -> pres A.
Definition pret {A} (a : A) : P A := fun l => Goes a l [].
Definition pbind {A B} (m : P A) (f : A -> P B) : P B := fun l =>
  match m l with
  | Goes a l' tr =>
      match f a l' with
      | Goes b l'' tr' => Goes b l'' (tr ++ tr')
      | Over tr' => Over (tr ++ tr')
      | Waits tr' => Waits (tr ++ tr')
      | Faults tr' => Faults (tr ++ tr')
      end
  | Over tr => Over tr
  | Waits tr => Waits tr
  | Faults tr => Faults tr
  end.
Definition pfault {A} : P A := fun _ => Faults [].

Declare Scope user_scope.
Delimit Scope user_scope with user.
Notation "'let+' x := m 'in' k" := (pbind m (fun x => k))
  (at level 200, x name, right associativity) : user_scope.
Notation "m ;+ k" := (pbind m (fun _ => k))
  (at level 100, right associativity) : user_scope.
#[global] Open Scope user_scope.

Definition syscall (c : call) : P ans := fun l =>
  match l with
  | [] => Waits [c]
  | a :: l' => Goes a l' [c]
  end.
Definition scall (c : call) : P Z := let+ a := syscall c in pret (retval a).

(** ** The system calls of user.h *)

Definition exit {A} : P A := fun _ => Over [CExit].
Definition fork : P Z := scall CFork.
Definition wait : P Z := scall CWait.
Definition write (fd : Z) (bs : str) : P Z := scall (CWrite fd bs).
Definition close (fd : Z) : P Z := scall (CClose fd).
Definition kill (pid : Z) : P Z := scall (CKill pid).
Definition open (path : str) (mode : Z) : P Z := scall (COpen path mode).
Definition mknod (path : str) (major minor : Z) : P Z := scall (CMknod path major minor).
Definition unlink (path : str) : P Z := scall (CUnlink path).
Definition link (old new : str) : P Z := scall (CLink old new).
Definition mkdir (path : str) : P Z := scall (CMkdir path).
Definition chdir (path : str) : P Z := scall (CChdir path).
Definition dup (fd : Z) : P Z := scall (CDup fd).
Definition sleep (n : Z) : P Z := scall (CSleep n).

(** [read] returns as many bytes as it stores, at most [n], or -1. *)
Definition read (fd n : Z) : P (Z * list Z) :=
  let+ a := syscall (CRead fd n) in
  pret (if retval a <? 0 then (-1, [])
        else let d := take (Z.to_nat n) (data a) in (Z.of_nat (length d), d)).

(** [exec] only returns when it fails. *)
Definition exec (path : str) (argv : list str) : P Z := fun l =>
  match l with
  | [] => Waits [CExec path argv]
  | a :: l' => if retval a <? 0 then Goes (-1) l' [CExec path argv] else Over [CExec path argv]
  end.

(** [pipe] stores two descriptors. *)
Definition pipe : P (Z * (Z * Z)) :=
  let+ a := syscall CPipe in
  pret (retval a, (nth 0 (data a) 0, nth 1 (data a) 0)).

(** [struct stat], as fstat stores it. *)
Record stat_t := mkstat { st_type : Z; st_dev : Z; st_ino : Z; st_nlink : Z; st_size : Z }.
Definition fstat (fd : Z) : P (Z * stat_t) :=
  let+ a := syscall (CFstat fd) in
  pret (retval a, mkstat (nth 0 (data a) 0) (nth 1 (data a) 0) (nth 2 (data a) 0) (nth 3 (data a) 0) (nth 4 (data a) 0)).

(** ** Loops

    A loop whose body makes a system call every time goes round at most once
    per answer. *)
Fixpoint while_n {S A} (n : nat) (body : S -> P (S + A)) (s : S) : P A :=
  match n with
  | O => fun _ => Waits []
  | Datatypes.S n' =>
      let+ r := body s in
      match r with
      | inl s' => while_n n' body s'
      | inr a => pret a
      end
  end.
Definition while {S A} (body : S -> P (S + A)) (s : S) : P A :=
  fun l => while_n (Datatypes.S (length l)) body s l.

(** [for(i = ..; i < argc; i++)] over the arguments that are left. *)
Fixpoint pfor {X} (l : list X) (f : X -> P unit) : P unit :=
  match l with
  | [] => pret tt
  | x :: l' => f x ;+ pfor l' f
  end.

(** ** printf.c *)

Definition putc (fd c : Z) : P unit := write fd [u8 c] ;+ pret tt.

Definition digit_up (d : Z) : Z := nth (Z.to_nat d) (bytes_of "0123456789ABCDEF") 0.

(** [buf[i++] = c] for the local [char buf[16]], whose first [i] characters
    are the list. *)
Definition buf_put (buf : list Z) (c : Z) : option (list Z) :=
  if (length buf <? 16)%nat then Some (buf ++ [c]) else None.

(** The [do .. while] loop; [fuel] bounds the number of digits, and 32 are
    enough for every base from 2 on. *)
Fixpoint put_digits (fuel : nat) (x base : Z) (buf : list Z) : option (list Z) :=
  match fuel with
  | O => None
  | S n =>
      match buf_put buf (digit_up (x mod base)) with
      | None => None
      | Some buf => if x / base =? 0 then Some buf else put_digits n (x / base) base buf
      end
  end.

Definition printint (fd xx base : Z) (sgn : bool) : P unit :=
  let neg := sgn && (xx <? 0) in
  let x := if neg then u32 (- xx) else u32 xx in
  match put_digits 33 x base [] with
  | None => pfault
  | Some buf =>
      match (if neg then buf_put buf ch_minus else Some buf) with
      | None => pfault
      | Some buf => pfor (reverse buf) (putc fd)
      end
  end.

(** The loop over the format; [state] is set after a percent sign. *)
Fixpoint printf_loop (fd : Z) (fmt : list Z) (state : bool) (ap : list carg) : P unit :=
  match fmt with
  | [] => pret tt
  | c :: fmt' =>
      let c := Z.land c 255 in
      if negb state then
        if c =? ch_percent then printf_loop fd fmt' true ap
        else putc fd c ;+ printf_loop fd fmt' false ap
      else if c =? 100 (* d *) then
        printint fd (s32 (arg_int ap)) 10 true ;+ printf_loop fd fmt' false (tail ap)
      else if (c =? 120) || (c =? 112) (* x, p *) then
        printint fd (s32 (arg_int ap)) 16 false ;+ printf_loop fd fmt' false (tail ap)
      else if c =? 115 (* s *) then
        pfor (arg_str ap) (putc fd) ;+ printf_loop fd fmt' false (tail ap)
      else if c =? 99 (* c *) then
        putc fd (arg_int ap) ;+ printf_loop fd fmt' false (tail ap)
      else if c =? ch_percent then putc fd c ;+ printf_loop fd fmt' false ap
      else putc fd ch_percent ;+ putc fd c ;+ printf_loop fd fmt' false ap
  end.
Definition printf (fd : Z) (fmt : list Z) (ap : list carg) : P unit := printf_loop fd fmt false ap.

(** ** Running programs *)

Lemma pbind_ret {A B} (a : A) (f : A -> P B) l : pbind (pret a) f l = f a l.
Proof. unfold pbind, pret. by destruct (f a l). Qed.

Lemma pbind_goes {A B} (m : P A) (f : A -> P B) l a l' tr :
  m l = Goes a l' tr ->
  pbind m f l = match f a l' with
                | Goes b l'' tr' => Goes b l'' (tr ++ tr')
                | Over tr' => Over (tr ++ tr')
                | Waits tr' => Waits (tr ++ tr')
                | Faults tr' => Faults (tr ++ tr')
                end.
Proof. unfold pbind. by intros ->. Qed.

Lemma pbind_assoc {A B C} (m : P A) (f : A -> P B) (g : B -> P C) l :
  pbind (pbind m f) g l = pbind m (fun a => pbind (f a) g) l.
Proof.
  unfold pbind. destruct (m l) as [a l' tr|tr|tr|tr]; try done.
  destruct (f a l') as [b l'' tr'|tr'|tr'|tr']; try done.
  destruct (g b l''); by rewrite app_assoc.
Qed.

Lemma pbind_ext {A B} (m : P A) (f g : A -> P B) l :
  (forall a l', f a l' = g a l') -> pbind m f l = pbind m g l.
Proof. intros H. unfold pbind. destruct (m l); try done. by rewrite H. Qed.

Lemma pbind_ext_l {A B} (m m' : P A) (f : A -> P B) l : m l = m' l -> pbind m f l = pbind m' f l.
Proof. unfold pbind. by intros ->. Qed.

Lemma pfor_app {X} (l1 l2 : list X) (f : X -> P unit) l :
  pfor (l1 ++ l2) f l = (pfor l1 f ;+ pfor l2 f) l.
Proof.
  revert l. induction l1 as [|x l1 IH]; intros l; cbn [app pfor]; [by rewrite pbind_ret|].
  rewrite pbind_assoc. apply pbind_ext. intros _ l'. apply IH.
Qed.

(** With enough answers, all characters are written, one call each. *)
Lemma puts_goes fd cs : forall l, (length cs <= length l)%nat ->
  pfor cs (putc fd) l = Goes tt (drop (length cs) l) ((fun c => CWrite fd [u8 c]) <$> cs).
Proof.
  induction cs as [|c cs IH]; intros [|a l] Hl; cbn in Hl |- *; try done; try lia.
  unfold putc, write, scall, syscall, pbind, pret in IH |- *. cbn in IH |- *. by rewrite IH by lia.
Qed.

(** Nothing gives answers back, and a system call takes one. *)
Definition shrinks {A} (m : P A) : Prop := forall l a l' tr, m l = Goes a l' tr -> (length l' <= length l)%nat.
Definition consumes {A} (m : P A) : Prop := forall l a l' tr, m l = Goes a l' tr -> (length l' < length l)%nat.

Lemma shrinks_ret {A} (a : A) : shrinks (pret a).
Proof. intros l b l' tr [= _ <- _]. done. Qed.
Lemma shrinks_fault {A} : shrinks (A := A) pfault.
Proof. by intros l b l' tr. Qed.
Lemma shrinks_exit {A} : shrinks (A := A) exit.
Proof. by intros l b l' tr. Qed.
Lemma pbind_inv {A B} (m : P A) (f : A -> P B) l b l'' tr :
  pbind m f l = Goes b l'' tr -> exists a l' tr1 tr2, m l = Goes a l' tr1 /\ f a l' = Goes b l'' tr2 /\ tr = tr1 ++ tr2.
Proof.
  unfold pbind. destruct (m l) as [a l' tr1| | |]; try done. destruct (f a l') as [b' l1 tr2| | |] eqn:E; try done.
  intros [= <- <- <-]. by exists a, l', tr1, tr2.
Qed.
Lemma shrinks_bind {A B} (m : P A) (f : A -> P B) : shrinks m -> (forall a, shrinks (f a)) -> shrinks (pbind m f).
Proof. intros Hm Hf l b l'' tr (a & l' & tr1 & tr2 & E1 & E2 & _)%pbind_inv. apply Hm in E1. apply Hf in E2. lia. Qed.
Lemma consumes_bind {A B} (m : P A) (f : A -> P B) : consumes m -> (forall a, shrinks (f a)) -> consumes (pbind m f).
Proof. intros Hm Hf l b l'' tr (a & l' & tr1 & tr2 & E1 & E2 & _)%pbind_inv. apply Hm in E1. apply Hf in E2. lia. Qed.
Lemma consumes_shrinks {A} (m : P A) : consumes m -> shrinks m.
Proof. intros Hm l a l' tr E. apply Hm in E. lia. Qed.
Lemma consumes_syscall c : consumes (syscall c).
Proof. intros [|a l] b l' tr [= _ <- _]. cbn. lia. Qed.
Lemma consumes_scall c : consumes (scall c).
Proof. apply consumes_bind; [apply consumes_syscall|]. intros. apply shrinks_ret. Qed.
Lemma consumes_read fd n : consumes (read fd n).
Proof. apply consumes_bind; [apply consumes_syscall|]. intros. apply shrinks_ret. Qed.
Lemma shrinks_for {X} (xs : list X) f : (forall x, shrinks (f x)) -> shrinks (pfor xs f).
Proof. intros Hf. induction xs as [|x xs IH]; [apply shrinks_ret|]. apply shrinks_bind; [apply Hf|done]. Qed.
Lemma shrinks_putc fd c : shrinks (putc fd c).
Proof. apply shrinks_bind; [apply consumes_shrinks, consumes_scall|]. intros. apply shrinks_ret. Qed.

Create HintDb prog.
#[export] Hint Resolve shrinks_ret shrinks_fault shrinks_exit shrinks_bind consumes_bind consumes_syscall consumes_scall
  consumes_read shrinks_for shrinks_putc : prog.
#[export] Hint Extern 5 (shrinks (scall _)) => apply consumes_shrinks, consumes_scall : prog.
#[export] Hint Extern 5 (shrinks (read _ _)) => apply consumes_shrinks, consumes_read : prog.

Lemma shrinks_printint fd xx base sgn : shrinks (printint fd xx base sgn).
Proof.
  unfold printint. destruct (put_digits _ _ _ _) as [buf|]; [|apply shrinks_fault].
  destruct (if sgn && (xx <? 0) then _ else _); [apply shrinks_for, shrinks_putc|apply shrinks_fault].
Qed.
#[export] Hint Resolve shrinks_printint : prog.
Lemma shrinks_printf fd fmt ap : shrinks (printf fd fmt ap).
Proof.
  unfold printf. generalize false. revert ap. induction fmt as [|c fmt IH]; intros ap state; cbn [printf_loop]; cbv zeta; [auto with prog|].
  repeat match goal with |- shrinks (if ?b then _ else _) => destruct b end;
    repeat first [apply IH | apply shrinks_putc | apply shrinks_printint | apply shrinks_for, shrinks_putc | apply shrinks_bind; [|intros _]].
Qed.
#[export] Hint Resolve shrinks_printf : prog.

(** A loop is its body and then the rest. *)
Lemma while_n_enough {S A} (body : S -> P (S + A)) : (forall s, consumes (body s)) ->
  forall n n' s l, (length l < n)%nat -> (length l < n')%nat -> while_n n body s l = while_n n' body s l.
Proof.
  intros Hc. induction n as [|n IH]; intros n' s l Hn Hn'; [lia|]. destruct n' as [|n']; [lia|]. cbn [while_n].
  unfold pbind. destruct (body s l) as [r l' tr| | |] eqn:E; try done. apply Hc in E. destruct r as [s'|a]; [|done].
  rewrite (IH n') by lia. done.
Qed.
Lemma while_unfold {S A} (body : S -> P (S + A)) s l : (forall s, consumes (body s)) ->
  while body s l = (let+ r := body s in match r with inl s' => while body s' | inr a => pret a end) l.
Proof.
  intros Hc. unfold while at 1. cbn [while_n]. unfold pbind. destruct (body s l) as [r l' tr| | |] eqn:E; try done.
  apply Hc in E. destruct r as [s'|a]; [|done]. unfold while. rewrite (while_n_enough body Hc _ (Datatypes.S (length l'))) by lia. done.
Qed.

(** ** What printf prints *)

(** The digits of a number, most significant first. *)
Fixpoint digits_of (fuel : nat) (x base : Z) : list Z :=
  match fuel with
  | O => []
  | S n => (if x / base =? 0 then [] else digits_of n (x / base) base) ++ [digit_up (x mod base)]
  end.
Definition int_text (xx base : Z) (sgn : bool) : list Z :=
  if sgn && (xx <? 0) then ch_minus :: digits_of 33 (u32 (- xx)) base else digits_of 33 (u32 xx) base.

(** The text a format stands for. *)
Fixpoint text_of (fmt : list Z) (ap : list carg) : list Z :=
  match fmt with
  | [] => []
  | c :: fmt' =>
      if negb (c =? ch_percent) then c :: text_of fmt' ap else
      match fmt' with
      | [] => []
      | c :: fmt'' =>
          if c =? 100 then int_text (s32 (arg_int ap)) 10 true ++ text_of fmt'' (tail ap)
          else if (c =? 120) || (c =? 112) then int_text (s32 (arg_int ap)) 16 false ++ text_of fmt'' (tail ap)
          else if c =? 115 then arg_str ap ++ text_of fmt'' (tail ap)
          else if c =? 99 then arg_int ap :: text_of fmt'' (tail ap)
          else if c =? ch_percent then ch_percent :: text_of fmt'' ap
          else ch_percent :: c :: text_of fmt'' ap
      end
  end.

Lemma put_digits_fits base : 2 <= base -> forall k n x buf,
  0 <= x < base ^ Z.of_nat (S k) -> (S k <= n)%nat -> (length buf + S k <= 16)%nat ->
  put_digits n x base buf = Some (buf ++ reverse (digits_of n x base)) /\ (length (digits_of n x base) <= S k)%nat.
Proof.
  intros Hb. induction k as [|k IH]; intros [|n] x buf Hx Hn Hl; try lia; cbn [put_digits digits_of];
    unfold buf_put; rewrite (proj2 (Nat.ltb_lt _ _)) by lia.
  - change (base ^ Z.of_nat 1) with (base ^ 1) in Hx. rewrite Z.pow_1_r in Hx.
    rewrite (Z.div_small x) by lia. done.
  - destruct (Z.eqb_spec (x / base) 0) as [E|E]; [split; [done|cbn; lia]|].
    rewrite Nat2Z.inj_succ, Z.pow_succ_r in Hx by lia.
    destruct (IH n (x / base) (buf ++ [digit_up (x mod base)])) as [E1 E2].
    + split; [apply Z.div_pos; lia|apply Z.div_lt_upper_bound; lia].
    + lia.
    + rewrite length_app. cbn. lia.
    + rewrite E1, length_app. cbn [length]. split; [|lia]. by rewrite reverse_app, <- app_assoc.
Qed.

Lemma printint_text fd xx base sgn l :
  base = 10 \/ base = 16 -> printint fd xx base sgn l = pfor (int_text xx base sgn) (putc fd) l.
Proof.
  intros Hb. unfold printint, int_text. cbv zeta.
  assert (forall x, 0 <= x < 4294967296 -> put_digits 33 x base [] = Some (reverse (digits_of 33 x base)) /\
    (length (digits_of 33 x base) <= 10)%nat) as Hd.
  { intros x Hx. apply (put_digits_fits base ltac:(lia) 9); cbn; [|lia|lia].
    change (Z.pow_pos base 10) with (base ^ 10). destruct Hb as [-> | ->]; lia. }
  destruct (sgn && (xx <? 0)).
  - destruct (Hd (u32 (- xx)) (u32_range _)) as [-> Hl]. unfold buf_put. rewrite length_reverse, (proj2 (Nat.ltb_lt _ _)) by lia.
    by rewrite reverse_app, reverse_involutive.
  - destruct (Hd (u32 xx) (u32_range _)) as [-> _]. by rewrite reverse_involutive.
Qed.

Lemma printf_text fd fmt ap l :
  Forall (fun c => 0 <= c < 256) fmt -> printf fd fmt ap l = pfor (text_of fmt ap) (putc fd) l.
Proof.
  unfold printf. remember (length fmt) as n eqn:Hn. revert fmt Hn ap l.
  induction n as [n IH] using lt_wf_ind. intros fmt Hn ap l Hf.
  destruct fmt as [|c fmt]; [done|]. apply Forall_cons in Hf as [Hc Hf].
  assert (forall ap l, printf_loop fd fmt false ap l = pfor (text_of fmt ap) (putc fd) l) as IH1.
  { intros ap' l'. apply (IH (length fmt)); cbn in Hn; [lia|done|done]. }
  cbn [printf_loop text_of negb]. change 255 with (Z.ones 8). rewrite Z.land_ones, Z.mod_small by lia.
  destruct (c =? ch_percent); cbn [negb]; [|cbn [pfor]; by apply pbind_ext].
  destruct fmt as [|d fmt]; [done|]. apply Forall_cons in Hf as [Hd Hf].
  assert (forall ap l, printf_loop fd fmt false ap l = pfor (text_of fmt ap) (putc fd) l) as IH2.
  { intros ap' l'. apply (IH (length fmt)); cbn in Hn; [lia|done|done]. }
  clear IH IH1. cbn [printf_loop negb]. change 255 with (Z.ones 8). rewrite Z.land_ones, (Z.mod_small d) by lia.
  destruct (d =? 100).
  { rewrite pfor_app. rewrite (pbind_ext_l _ (pfor (int_text (s32 (arg_int ap)) 10 true) (putc fd))) by (apply printint_text; lia).
    by apply pbind_ext. }
  destruct ((d =? 120) || (d =? 112)).
  { rewrite pfor_app. rewrite (pbind_ext_l _ (pfor (int_text (s32 (arg_int ap)) 16 false) (putc fd))) by (apply printint_text; lia).
    by apply pbind_ext. }
  destruct (d =? 115); [rewrite pfor_app; by apply pbind_ext|].
  destruct (d =? 99); [cbn [pfor]; by apply pbind_ext|].
  destruct (Z.eqb_spec d ch_percent) as [->|]; cbn [pfor]; [by apply pbind_ext|].
  apply pbind_ext. intros _ l'. by apply pbind_ext.
Qed.

(** C30: printf.c: for every format, of characters that are bytes, and all
    arguments, [printf] writes exactly the text the format stands for, one
    character per call, whatever the calls return, and never stores outside
    of the 16 characters of [printint]'s buffer. *)
Theorem printf_prints fd fmt ap l :
  Forall (fun c => 0 <= c < 256) fmt -> printf fd fmt ap l = pfor (text_of fmt ap) (putc fd) l.
Proof. apply printf_text. Qed.

Lemma printf_prints_witness :
  printf 1 (bytes_of "%d %x%s") [AInt (-2147483648); AInt 255; AStr (Some (bytes_of "!"))] (replicate 20 (mkans 1 [])) =
  Goes tt (replicate 5 (mkans 1 [])) ((fun c => CWrite 1 [c]) <$> bytes_of "-2147483648 FF!").
Proof.
  rewrite (printf_prints 1 (bytes_of "%d %x%s")); [vm_compute; reflexivity|].
  cbn. repeat constructor; cbn; lia.
Defined.
