(* ===== verification/Umalloc.v ===== *)
(** * umalloc.c: malloc and free

    The allocator of Kernighan and Ritchie.  Its free list is circular,
    ordered by address, and threaded through the headers of the free blocks,
    which are words of the process's memory; [freep] points to where the next
    search starts.  Sizes are in units of a header. *)

From stdpp Require Import base numbers list gmap strings.
From S2P Require Import Prelude Kernel Kalloc.

(** ** The functions *)

(** Where the linker puts [base], and whether the kernel grants a request of
    [sbrk] for so many bytes more at this break; [growproc] keeps a process
    below [KERNBASE]. *)
Class Heap := {
  a_base : Z;
  grants : Z -> Z -> bool;
  grants_top : forall b n, 0 < n -> grants b n = true -> b + n <= 2147483648;
}.

Definition HDR : Z := 8.                       (* sizeof(Header) *)
Definition MAXPTR : Z := 4294967295.           (* the pointer -1 *)

Record heapst := mkheap { freep : Z; brk : Z }.
Notation mem := (gmap Z Z).

Section Umalloc.
Context {HP : Heap}.

(** [p->s.ptr] and [p->s.size], and assignments to them. *)
Definition hptr (m : mem) (p : Z) : Z := load32 m p.
Definition hsize (m : mem) (p : Z) : Z := load32 m (p + 4).
Definition set_hptr (m : mem) (p v : Z) : mem := store32 m p v.
Definition set_hsize (m : mem) (p v : Z) : mem := store32 m (p + 4) v.
(** [p + n], in units of a header. *)
Definition hadd (p n : Z) : Z := u32 (p + n * HDR).

(** [sbrk(n)]: the old break, or -1. *)
Definition sbrk (n : Z) (h : heapst) : Z * heapst :=
  if grants (brk h) n then (brk h, mkheap (freep h) (u32 (brk h + n))) else (MAXPTR, h).

(** The search loop of [free]; it looks at most at every free block once, so
    [fuel] is a bound on their number. *)
Fixpoint free_find (fuel : nat) (m : mem) (bp p : Z) : option Z :=
  match fuel with
  | O => None
  | S f =>
      let q := hptr m p in
      if (p <? bp) && (bp <? q) then Some p
      else if (q <=? p) && ((p <? bp) || (bp <? q)) then Some p
      else free_find f m bp q
  end.

Definition free (fuel : nat) (ap : Z) (s : mem * heapst) : option (mem * heapst) :=
  let (m, h) := s in
  let bp := u32 (ap - HDR) in
  match free_find fuel m bp (freep h) with
  | None => None
  | Some p =>
      let m :=
        if hadd bp (hsize m bp) =? hptr m p then
          let m := set_hsize m bp (u32 (hsize m bp + hsize m (hptr m p))) in
          set_hptr m bp (hptr m (hptr m p))
        else set_hptr m bp (hptr m p) in
      let m :=
        if hadd p (hsize m p) =? bp then
          let m := set_hsize m p (u32 (hsize m p + hsize m bp)) in
          set_hptr m p (hptr m bp)
        else set_hptr m p bp in
      Some (m, mkheap p (brk h))
  end.

Definition morecore (fuel : nat) (nu : Z) (s : mem * heapst) : option (Z * (mem * heapst)) :=
  let (m, h) := s in
  let nu := if nu <? 4096 then 4096 else nu in
  let (p, h) := sbrk (s32 (u32 (nu * HDR))) h in
  if p =? MAXPTR then Some (0, (m, h)) else
  let m := set_hsize m p nu in
  match free fuel (hadd p 1) (m, h) with
  | None => None
  | Some (m, h) => Some (freep h, (m, h))
  end.

(** The block [p] is taken, or its tail. *)
Definition take_block (nunits prevp p : Z) (s : mem * heapst) : Z * (mem * heapst) :=
  let (m, h) := s in
  if hsize m p =? nunits then
    (hadd p 1, (set_hptr m prevp (hptr m p), mkheap prevp (brk h)))
  else
    let m := set_hsize m p (u32 (hsize m p - nunits)) in
    let p := hadd p (hsize m p) in
    let m := set_hsize m p nunits in
    (hadd p 1, (m, mkheap prevp (brk h))).

Fixpoint malloc_loop (fuel : nat) (nunits prevp p : Z) (s : mem * heapst) : option (Z * (mem * heapst)) :=
  match fuel with
  | O => None
  | S f =>
      let (m, h) := s in
      if nunits <=? hsize m p then Some (take_block nunits prevp p s) else
      if p =? freep h then
        match morecore f nunits s with
        | None => None
        | Some (r, s) => if r =? 0 then Some (0, s) else malloc_loop f nunits r (hptr (fst s) r) s
        end
      else malloc_loop f nunits p (hptr m p) s
  end.

Definition units (nbytes : Z) : Z := u32 (nbytes + HDR - 1) / HDR + 1.

Definition malloc (fuel : nat) (nbytes : Z) (s : mem * heapst) : option (Z * (mem * heapst)) :=
  let (m, h) := s in
  let nunits := units nbytes in
  let (m, h) :=
    if freep h =? 0 then (set_hsize (set_hptr m a_base a_base) a_base 0, mkheap a_base (brk h)) else (m, h) in
  malloc_loop fuel nunits (freep h) (hptr m (freep h)) (m, h).

(** ** Memory *)

(** Only the headers at the addresses [l] differ. *)
Definition changed_only (l : list Z) (m m' : mem) : Prop :=
  forall x, (forall a, a ∈ l -> ~ (a <= x < a + HDR)) -> mget m' x = mget m x.

Lemma changed_refl l m : changed_only l m m.
Proof using. done. Qed.
Lemma changed_trans l m1 m2 m3 : changed_only l m1 m2 -> changed_only l m2 m3 -> changed_only l m1 m3.
Proof using. intros H1 H2 x Hx. by rewrite H2, H1. Qed.
Lemma changed_hptr l m p v : p ∈ l -> changed_only l m (set_hptr m p v).
Proof using. intros Hp x Hx. specialize (Hx p Hp). unfold set_hptr. apply mget_store32_ne. unfold HDR in *. lia. Qed.
Lemma changed_hsize l m p v : p ∈ l -> changed_only l m (set_hsize m p v).
Proof using. intros Hp x Hx. specialize (Hx p Hp). unfold set_hsize. apply mget_store32_ne. unfold HDR in *. lia. Qed.

Lemma hptr_hptr m p v : 0 <= v < 4294967296 -> hptr (set_hptr m p v) p = v.
Proof using. apply load32_store32. Qed.
Lemma hsize_hsize m p v : 0 <= v < 4294967296 -> hsize (set_hsize m p v) p = v.
Proof using. apply load32_store32. Qed.
Lemma hptr_hsize m p v q : q = p \/ q + HDR <= p \/ p + HDR <= q -> hptr (set_hsize m p v) q = hptr m q.
Proof using. intros H. unfold hptr, set_hsize, HDR in *. rewrite load32_store32_ne by lia. done. Qed.
Lemma hsize_hptr m p v q : q = p \/ q + HDR <= p \/ p + HDR <= q -> hsize (set_hptr m p v) q = hsize m q.
Proof using. intros H. unfold hsize, set_hptr, HDR in *. rewrite load32_store32_ne by lia. done. Qed.

(** A header outside of the ones that changed. *)
Lemma hdr_kept l m m' q :
  changed_only l m m' -> (forall a, a ∈ l -> q + HDR <= a \/ a + HDR <= q) -> hptr m' q = hptr m q /\ hsize m' q = hsize m q.
Proof using.
  intros Hc Hq. split; apply load32_ext; intros x Hx; apply Hc; intros a Ha; specialize (Hq a Ha); unfold HDR in *; lia.
Qed.

(** ** The free list *)

Notation blocks := (list (Z * Z)).

(** From the header at [p] the pointers lead through the blocks [F] to [z]. *)
Fixpoint seg (m : mem) (p : Z) (F : blocks) (z : Z) : Prop :=
  match F with
  | [] => hptr m p = z
  | (a, n) :: F' => hptr m p = a /\ hsize m a = n /\ seg m a F' z
  end.

(** The blocks lie in this order above [lo] and up to [hi], and no two are
    adjacent. *)
Fixpoint ordered (lo : Z) (F : blocks) (hi : Z) : Prop :=
  match F with
  | [] => lo <= hi
  | (a, n) :: F' => lo < a /\ 0 < n /\ ordered (a + n * HDR) F' hi
  end.

(** The address [x] is in one of the blocks. *)
Definition covers (F : blocks) (x : Z) : Prop := exists a n, (a, n) ∈ F /\ a <= x < a + n * HDR.

Lemma covers_cons a n F x : covers ((a, n) :: F) x <-> a <= x < a + n * HDR \/ covers F x.
Proof using.
  split.
  - intros (b & k & [[= -> ->]|Hin]%elem_of_cons & Hx); [by left|right; by exists b, k].
  - intros [Hx|(b & k & Hin & Hx)]; [exists a, n; split; [by left|done]|exists b, k; split; [by right|done]].
Qed.
Lemma covers_app F1 F2 x : covers (F1 ++ F2) x <-> covers F1 x \/ covers F2 x.
Proof using.
  induction F1 as [|[a n] F1 IH]; cbn [app].
  - split; [by right|]. intros [(b & k & Hin & _)|Hc]; [by apply elem_of_nil in Hin|done].
  - rewrite !covers_cons, IH. tauto.
Qed.

Lemma seg_app m p F1 a n F2 z :
  seg m p (F1 ++ (a, n) :: F2) z <-> seg m p F1 a /\ hsize m a = n /\ seg m a F2 z.
Proof using. revert p. induction F1 as [|[b k] F1 IH]; intros p; cbn; [tauto|]. rewrite IH. tauto. Qed.

Lemma ordered_app lo F1 a n F2 hi :
  ordered lo (F1 ++ (a, n) :: F2) hi <-> ordered lo F1 (a - 1) /\ 0 < n /\ ordered (a + n * HDR) F2 hi.
Proof using.
  revert lo. induction F1 as [|[b k] F1 IH]; intros lo; cbn; [|rewrite IH; tauto]. split; intros; split_and!; try tauto; lia.
Qed.

Lemma ordered_le lo F hi : ordered lo F hi -> lo <= hi.
Proof using.
  revert lo. induction F as [|[a n] F IH]; intros lo; cbn; [done|]. intros (H1 & H2 & H3%IH). unfold HDR in *. lia.
Qed.

Lemma ordered_in lo F hi a n : ordered lo F hi -> (a, n) ∈ F -> lo < a /\ 0 < n /\ a + n * HDR <= hi.
Proof using.
  revert lo. induction F as [|[b k] F IH]; intros lo; cbn; [intros _ Hin; by apply elem_of_nil in Hin|].
  intros (H1 & H2 & H3) [[= -> ->]|Hin]%elem_of_cons.
  - apply ordered_le in H3. done.
  - destruct (IH _ H3 Hin) as (? & ? & ?). unfold HDR in *. lia.
Qed.

Lemma ordered_mono lo lo' F hi hi' : ordered lo F hi -> lo' <= lo -> hi <= hi' -> ordered lo' F hi'.
Proof using.
  revert lo lo'. induction F as [|[a n] F IH]; intros lo lo'; cbn; [lia|]. intros (H1 & H2 & H3) Hlo Hhi.
  split_and!; [lia|done|]. by apply IH with (a + n * HDR).
Qed.

(** Only the headers of the list matter. *)
Lemma seg_ext m m' z : forall F p, seg m p F z ->
  (forall q, q = p \/ q ∈ F.*1 -> hptr m' q = hptr m q /\ hsize m' q = hsize m q) -> seg m' p F z.
Proof using.
  induction F as [|[a n] F IH]; intros p Hs He; cbn in Hs |- *; [by rewrite (proj1 (He p (or_introl eq_refl)))|].
  destruct Hs as (H1 & H2 & H3). rewrite (proj1 (He p (or_introl eq_refl))). split; [done|].
  assert (forall q, q = a \/ q ∈ F.*1 -> hptr m' q = hptr m q /\ hsize m' q = hsize m q) as Ha.
  { intros q Hq. apply He. right. cbn. apply elem_of_cons. tauto. }
  rewrite (proj2 (Ha a (or_introl eq_refl))). split; [done|]. by apply IH.
Qed.
Lemma seg_kept l m m' p F z :
  seg m p F z -> changed_only l m m' ->
  (forall q, q = p \/ q ∈ F.*1 -> forall a, a ∈ l -> q + HDR <= a \/ a + HDR <= q) -> seg m' p F z.
Proof using. intros Hs Hc Hq. eapply seg_ext; [exact Hs|]. intros q Hqq. eapply hdr_kept; [exact Hc|]. by apply Hq. Qed.

(** ** Searching *)

(** [z] is what follows the last block below [bp]. *)
Lemma find_below m bp z : (bp < z \/ z = a_base) -> a_base < bp -> forall F s fuel,
  seg m s F z -> ordered s F bp -> a_base <= s < bp -> (length F < fuel)%nat ->
  free_find fuel m bp s = Some (default s (fst <$> last F)).
Proof using.
  intros Hz Hb. induction F as [|[a n] F IH]; intros s fuel Hs Ho Hlo Hf; (destruct fuel as [|fuel]; [cbn in Hf; lia|]);
    cbn [free_find seg ordered] in *.
  - rewrite Hs. destruct Hz as [Hz| ->].
    + rewrite (proj2 (Z.ltb_lt s bp)), (proj2 (Z.ltb_lt bp z)) by lia. done.
    + rewrite (proj2 (Z.ltb_ge bp a_base)), andb_false_r by lia.
      rewrite (proj2 (Z.leb_le a_base s)), (proj2 (Z.ltb_lt s bp)) by lia. done.
  - destruct Hs as (E & _ & Hs). destruct Ho as (H1 & H2 & Ho). rewrite E.
    pose proof (ordered_le _ _ _ Ho). unfold HDR in *.
    rewrite (proj2 (Z.ltb_ge bp a)), andb_false_r by lia.
    rewrite (proj2 (Z.leb_gt a s)) by lia. cbn [andb].
    rewrite (IH a fuel Hs); [|apply (ordered_mono (a + n * 8) _ _ bp); [done|lia|lia]|lia|cbn in Hf; lia].
    rewrite last_cons. by destruct (last F) as [[? ?]|].
Qed.

(** From above [bp] the search goes round by [base]. *)
Lemma find_above m bp : a_base < bp -> forall F s fuel,
  seg m s F a_base -> (exists hi, ordered s F hi) -> bp < s -> (length F < fuel)%nat ->
  free_find fuel m bp s = free_find (fuel - S (length F)) m bp a_base.
Proof using.
  intros Hb. induction F as [|[a n] F IH]; intros s fuel Hs [hi Ho] Hlo Hf; (destruct fuel as [|fuel]; [cbn in Hf; lia|]);
    cbn [free_find seg ordered length] in *.
  - rewrite Hs. rewrite (proj2 (Z.ltb_ge s bp)), (proj2 (Z.ltb_ge bp a_base)), andb_false_r by lia. cbn.
    by rewrite andb_false_r, Nat.sub_0_r.
  - destruct Hs as (E & _ & Hs). destruct Ho as (H1 & H2 & Ho). rewrite E.
    rewrite (proj2 (Z.ltb_ge s bp)) by lia. rewrite (proj2 (Z.leb_gt a s)) by lia. cbn [andb].
    rewrite (IH a fuel Hs); [done| |lia|lia]. exists hi. apply (ordered_mono (a + n * HDR) _ _ hi); [done|unfold HDR; lia|lia].
Qed.

(** The header before the blocks [F2], and the one after [F1]. *)
Definition pred_of (F1 : blocks) : Z := default a_base (fst <$> last F1).
Definition next_of (F2 : blocks) : Z := default a_base (fst <$> head F2).

Lemma seg_split m p F1 F2 :
  seg m p (F1 ++ F2) a_base <-> seg m p F1 (next_of F2) /\ seg m (default p (fst <$> last F1)) F2 a_base.
Proof using.
  revert p. induction F1 as [|[b k] F1 IH]; intros p; cbn [app seg].
  - cbn. destruct F2 as [|[a n] F2]; cbn; tauto.
  - rewrite IH. rewrite last_cons. destruct (last F1) as [[? ?]|]; cbn; tauto.
Qed.

Lemma pred_of_app G s n G' : pred_of (G ++ (s, n) :: G') = default s (fst <$> last G').
Proof using. unfold pred_of. rewrite last_app_cons, last_cons. by destruct (last G') as [[? ?]|]. Qed.

Lemma next_of_above bp F2 hi : ordered bp F2 hi -> bp < next_of F2 \/ next_of F2 = a_base.
Proof using. destruct F2 as [|[a n] F2]; cbn; [by right|]. intros (? & _). by left. Qed.

Lemma find_pred m bp F1 F2 s fuel hi :
  seg m a_base (F1 ++ F2) a_base -> ordered a_base F1 bp -> ordered bp F2 hi -> a_base < bp ->
  s = a_base \/ s ∈ (F1 ++ F2).*1 -> (length F1 + length F2 + 1 < fuel)%nat ->
  free_find fuel m bp s = Some (pred_of F1).
Proof using.
  intros Hs Ho1 Ho2 Hb Hin Hf. destruct (proj1 (seg_split _ _ _ _) Hs) as [Hs1 Hs2].
  assert (forall fuel, (length F1 < fuel)%nat -> free_find fuel m bp a_base = Some (pred_of F1)) as Hbase.
  { intros f Hf'. eapply find_below; [by eapply next_of_above|done|done|done|lia|done]. }
  destruct Hin as [->|Hin]; [apply Hbase; lia|]. rewrite fmap_app in Hin. apply elem_of_app in Hin as [Hin|Hin].
  - apply list_elem_of_fmap in Hin as ([a n] & -> & Hin). apply list_elem_of_split in Hin as (G & G' & ->). cbn [fst].
    rewrite pred_of_app. apply seg_app in Hs1 as (_ & _ & Hs1). apply ordered_app in Ho1 as (Ho1 & Hn & Ho1').
    rewrite length_app in Hf. cbn [length] in Hf. pose proof (ordered_le _ _ _ Ho1). pose proof (ordered_le _ _ _ Ho1').
    unfold HDR in *.
    eapply find_below; [by eapply next_of_above|done|done|apply (ordered_mono (a + n * 8) _ _ bp); [done|lia|lia]|lia|lia].
  - apply list_elem_of_fmap in Hin as ([a n] & -> & Hin). apply list_elem_of_split in Hin as (G & G' & ->). cbn [fst].
    apply seg_app in Hs2 as (_ & _ & Hs2). apply ordered_app in Ho2 as (Ho2 & Hn & Ho2').
    rewrite length_app in Hf. cbn [length] in Hf. pose proof (ordered_le _ _ _ Ho2). unfold HDR in *.
    rewrite (find_above m bp Hb G' a fuel Hs2); [apply Hbase; lia| |lia|lia].
    exists hi. apply (ordered_mono (a + n * 8) _ _ hi); [done|lia|lia].
Qed.

(** ** Merging with the neighbours *)

Definition TOP : Z := 2147483648.

Definition merge_next (bp p : Z) (m : mem) : mem :=
  if hadd bp (hsize m bp) =? hptr m p then
    let m := set_hsize m bp (u32 (hsize m bp + hsize m (hptr m p))) in
    set_hptr m bp (hptr m (hptr m p))
  else set_hptr m bp (hptr m p).
Definition merge_prev (bp p : Z) (m : mem) : mem :=
  if hadd p (hsize m p) =? bp then
    let m := set_hsize m p (u32 (hsize m p + hsize m bp)) in
    set_hptr m p (hptr m bp)
  else set_hptr m p bp.

Lemma free_unfold fuel ap m h p :
  free_find fuel m (u32 (ap - HDR)) (freep h) = Some p ->
  free fuel ap (m, h) = Some (merge_prev (u32 (ap - HDR)) p (merge_next (u32 (ap - HDR)) p m), mkheap p (brk h)).
Proof using. intros E. unfold free. by rewrite E. Qed.

Lemma hadd_small p n : 0 <= p -> 0 <= n -> p + n * HDR < 4294967296 -> hadd p n = p + n * HDR.
Proof using. intros H1 H2 H3. unfold hadd, HDR in *. apply u32_small. lia. Qed.

(** The block at [bp] with the free blocks above it: their headers keep
    clear of the block's. *)
Lemma above_apart bp n F hi q :
  ordered (bp + n * HDR - 1) F hi -> 0 < n -> q ∈ F.*1 -> bp + HDR <= q.
Proof using.
  intros Ho Hn ([a k] & -> & Hin)%list_elem_of_fmap. destruct (ordered_in _ _ _ _ _ Ho Hin) as (? & ? & ?).
  cbn. unfold HDR in *. lia.
Qed.

Lemma next_of_range bp n F hi :
  ordered (bp + n * HDR - 1) F hi -> 0 < n -> 0 <= a_base < bp -> hi <= TOP -> 0 <= next_of F < 4294967296.
Proof using.
  intros Ho Hn Hb Hhi. unfold TOP in *. destruct F as [|[a k] F]; cbn.
  - cbn in Ho. unfold HDR in *. lia.
  - destruct (ordered_in _ _ _ a k Ho ltac:(by left)) as (? & ? & ?). unfold HDR in *. lia.
Qed.

(** The block at [bp] now heads the blocks [F']. *)
Definition headed (m m1 : mem) (bp n n' : Z) (F F' : blocks) (hi : Z) : Prop :=
  hsize m1 bp = n' /\ 0 < n' /\ seg m1 bp F' a_base /\ ordered (bp + n' * HDR) F' hi /\ changed_only [bp] m m1 /\
  (forall x, covers ((bp, n') :: F') x <-> covers ((bp, n) :: F) x) /\ (length F' <= length F)%nat.

(** Giving the block at [bp] the blocks [F] that [q] leads to. *)
Lemma seg_relink m m1 bp q F n hi :
  seg m q F a_base -> changed_only [bp] m m1 -> hptr m1 bp = next_of F -> ordered (bp + n * HDR - 1) F hi -> 0 < n ->
  q + HDR <= bp \/ bp + HDR <= q -> seg m1 bp F a_base.
Proof using.
  intros Hs Hc Hp Ho Hn Hq. assert (seg m1 q F a_base) as Hs'.
  { eapply (seg_kept [bp]); [exact Hs|done|]. intros x Hx b ->%list_elem_of_singleton.
    destruct Hx as [->|Hx]; [lia|right]. by apply (above_apart bp n F hi). }
  destruct F as [|[b j] F]; cbn in Hs', Hp |- *; [done|]. destruct Hs' as (_ & ? & ?). done.
Qed.

Lemma merge_next_joins m bp p n a k F hi :
  seg m p ((a, k) :: F) a_base -> hsize m bp = n -> 0 < n -> ordered (bp + n * HDR - 1) ((a, k) :: F) hi -> hi <= TOP ->
  0 <= a_base < bp -> p + HDR <= bp -> bp + n * HDR = a -> headed m (merge_next bp p m) bp n (n + k) ((a, k) :: F) F hi.
Proof using.
  intros (Hp & Hk & Hs) Hsz Hn (_ & Hk0 & Ho) Hhi Hb Hpb Ea. pose proof (ordered_le _ _ _ Ho) as Hle2.
  assert (ordered (a + k * HDR - 1) F hi) as Ho' by (apply (ordered_mono (a + k * HDR) _ _ hi); [done|lia|lia]).
  assert (0 <= next_of F < 4294967296) as Hr2.
  { apply (next_of_range a k F hi); [done|lia|unfold HDR in *; lia|done]. }
  assert (hptr m a = next_of F) as En by (destruct F as [|[b j] F]; apply Hs).
  set (m' := set_hsize m bp (n + k)). set (m1 := set_hptr m' bp (next_of F)).
  assert (merge_next bp p m = m1) as ->.
  { unfold merge_next, TOP, HDR in *. rewrite Hsz, Hp, Hk, hadd_small by (unfold HDR; lia).
    rewrite (proj2 (Z.eqb_eq _ _)) by (unfold HDR; lia). rewrite (u32_small (n + k)) by lia. fold m'. cbv zeta.
    assert (hptr m' p = a) as -> by (unfold m'; rewrite hptr_hsize; [done|unfold HDR; lia]).
    assert (hptr m' a = next_of F) as -> by (unfold m'; rewrite hptr_hsize; [done|unfold HDR; lia]). done. }
  assert (changed_only [bp] m m1) as Hc.
  { eapply changed_trans; [apply changed_hsize; by left|apply changed_hptr; by left]. }
  split_and!; [|lia| | |done| |cbn; lia].
  - unfold m1. rewrite hsize_hptr by (by left). unfold m', TOP, HDR in *. apply hsize_hsize. lia.
  - apply (seg_relink m m1 bp a F (n + k) hi); [done|done|by apply hptr_hptr| |lia|unfold HDR in *; lia].
    by replace (bp + (n + k) * HDR) with (a + k * HDR) by (unfold HDR in *; lia).
  - by replace (bp + (n + k) * HDR) with (a + k * HDR) by (unfold HDR in *; lia).
  - intros x. rewrite !covers_cons. unfold HDR in *. split.
    + intros [Hx|Hx]; [|by right; right]. destruct (decide (x < a)); [left; lia|right; left; lia].
    + intros [Hx|[Hx|Hx]]; [left; lia|left; lia|by right].
Qed.

Lemma merge_next_spec m bp p n F hi :
  seg m p F a_base -> hsize m bp = n -> 0 < n -> ordered (bp + n * HDR - 1) F hi -> hi <= TOP ->
  0 <= a_base < bp -> p + HDR <= bp -> bp + n * HDR <= hi ->
  exists n' F', headed m (merge_next bp p m) bp n n' F F' hi.
Proof using.
  intros Hs Hsz Hn Ho Hhi Hb Hpb Hle.
  pose proof (next_of_range _ _ _ _ Ho Hn Hb Hhi) as Hnr.
  assert (hptr m p = next_of F) as Ep by (destruct F as [|[a k] F]; apply Hs).
  destruct (decide (bp + n * HDR = next_of F)) as [Ea|Ena].
  - destruct F as [|[a k] F]; [cbn in Ea; unfold HDR in *; lia|]. exists (n + k), F. by apply merge_next_joins.
  - assert (merge_next bp p m = set_hptr m bp (next_of F)) as ->.
    { unfold merge_next. rewrite Hsz, Ep, hadd_small by (unfold TOP, HDR in *; lia). by rewrite (proj2 (Z.eqb_neq _ _)). }
    assert (changed_only [bp] m (set_hptr m bp (next_of F))) as Hc by (apply changed_hptr; by left).
    exists n, F. split_and!; [|done| | |done|done|done].
    + rewrite hsize_hptr by (by left). done.
    + apply (seg_relink m _ bp p F n hi); [done|done|by apply hptr_hptr|done|done|by left].
    + destruct F as [|[a k] F]; unfold next_of in Ena; cbn [ordered head fmap option_fmap option_map fst default] in *;
        [unfold HDR in *; lia|]. destruct Ho as (? & ? & ?). split_and!; [|done|done]. cbn in Ena. lia.
Qed.

(** The headers below [bp] keep clear of it, and of each other. *)
Lemma below_apart lo F c q : ordered lo F (c - 1) -> q ∈ F.*1 -> q + HDR <= c.
Proof using.
  intros Ho ([a k] & -> & Hin)%list_elem_of_fmap. destruct (ordered_in _ _ _ _ _ Ho Hin) as (? & ? & ?).
  cbn. unfold HDR in *. lia.
Qed.

(** What [merge_prev] leaves: all the blocks in one list. *)
Definition joined (m m2 : mem) (p lo hi bp n : Z) (F1 F' G : blocks) : Prop :=
  seg m2 a_base G a_base /\ hsize m2 a_base = 0 /\ ordered (lo - 1) G hi /\ changed_only [p] m m2 /\
  (forall x, covers G x <-> covers F1 x \/ covers ((bp, n) :: F') x) /\
  (p = a_base \/ p ∈ G.*1) /\ (length G <= length F1 + S (length F'))%nat.

Lemma join_base m bp n F' lo hi :
  seg m bp F' a_base -> hsize m bp = n -> hsize m a_base = 0 -> 0 < n -> ordered (bp + n * HDR) F' hi -> hi <= TOP ->
  0 <= a_base -> a_base + HDR <= lo -> lo <= bp ->
  joined m (merge_prev bp a_base m) a_base lo hi bp n [] F' ((bp, n) :: F').
Proof using.
  intros Hs Hsz H0 Hn Ho Hhi Hb Hlo Hbp. pose proof (ordered_le _ _ _ Ho). unfold TOP, HDR in *.
  assert (merge_prev bp a_base m = set_hptr m a_base bp) as ->.
  { unfold merge_prev. rewrite H0, hadd_small by (unfold HDR; lia). by rewrite (proj2 (Z.eqb_neq _ _)) by (unfold HDR; lia). }
  assert (changed_only [a_base] m (set_hptr m a_base bp)) as Hc by (apply changed_hptr; by left).
  split_and!; [| |cbn; split_and!; [lia|done|done]|done| |by left|cbn; lia].
  - cbn. split_and!; [apply hptr_hptr; lia|rewrite hsize_hptr; [done|unfold HDR; lia]|].
    eapply (seg_kept [a_base]); [exact Hs|done|]. intros q Hq a ->%list_elem_of_singleton. right. unfold HDR.
    destruct Hq as [->|Hq]; [lia|]. pose proof (above_apart bp n F' hi q ltac:(unfold HDR; apply (ordered_mono (bp + n * 8) _ _ hi); [done|lia|lia]) Hn Hq).
    unfold HDR in *. lia.
  - rewrite hsize_hptr by (by left). done.
  - intros x. split; [by right|]. intros [(a & k & Hin & _)|Hx]; [by apply elem_of_nil in Hin|done].
Qed.

(** The list up to the block [c], when only the header of [c] changes. *)
Lemma seg_prefix m m2 K c lo :
  seg m a_base K c -> changed_only [c] m m2 -> ordered (lo - 1) K (c - 1) -> 0 <= a_base -> a_base + HDR <= lo -> lo <= c ->
  seg m2 a_base K c /\ hsize m2 a_base = hsize m a_base.
Proof using.
  intros Hs Hc Ho Hb Hlo Hcl. split.
  - eapply (seg_kept [c]); [exact Hs|done|]. intros q Hq a ->%list_elem_of_singleton. left.
    destruct Hq as [->|Hq]; [lia|by eapply below_apart].
  - eapply hdr_kept; [done|]. intros a ->%list_elem_of_singleton. left. lia.
Qed.

(** The list from [bp] on, when only a header below it changes. *)
Lemma seg_suffix m m2 c bp n F' hi :
  seg m bp F' a_base -> ordered (bp + n * HDR) F' hi -> 0 < n -> c + HDR <= bp -> changed_only [c] m m2 -> seg m2 bp F' a_base.
Proof using.
  intros Hs Ho Hn Hcb Hc. eapply (seg_kept [c]); [exact Hs|done|]. intros q Hq a ->%list_elem_of_singleton. right.
  destruct Hq as [->|Hq]; [done|]. assert (ordered (bp + n * HDR - 1) F' hi) as Ho' by (apply (ordered_mono (bp + n * HDR) _ _ hi); [done|lia|lia]).
  pose proof (above_apart bp n F' hi q Ho' Hn Hq). unfold HDR in *. lia.
Qed.

Lemma next_of_small bp n F' hi : ordered (bp + n * HDR) F' hi -> 0 < n -> 0 <= a_base < bp -> hi <= TOP -> 0 <= next_of F' < 4294967296.
Proof using.
  intros Ho Hn Hb Ht. pose proof (ordered_le _ _ _ Ho). apply (next_of_range bp n F' hi); [|done|done|done].
  apply (ordered_mono (bp + n * HDR) _ _ hi); [done|lia|lia].
Qed.

(** The previous block ends at [bp] and takes it in. *)
Lemma join_adjacent m bp n c j K F' lo hi :
  seg m a_base K c -> hsize m c = j -> seg m bp F' a_base -> hsize m bp = n -> hsize m a_base = 0 -> 0 < n ->
  ordered (lo - 1) K (c - 1) -> 0 < j -> c + j * HDR = bp -> ordered (bp + n * HDR) F' hi -> hi <= TOP ->
  0 <= a_base -> a_base + HDR <= lo ->
  joined m (merge_prev bp c m) c lo hi bp n (K ++ [(c, j)]) F' (K ++ (c, j + n) :: F').
Proof using.
  intros HK Hj Hs Hsz H0 Hn HoK Hj0 Ea Ho Hhi Hb Hlo.
  pose proof (ordered_le _ _ _ Ho) as Hle. pose proof (ordered_le _ _ _ HoK) as Hle'.
  assert (hptr m bp = next_of F') as En by (destruct F' as [|[b k] F']; apply Hs).
  set (m' := set_hsize m c (j + n)). set (m2 := set_hptr m' c (next_of F')).
  assert (merge_prev bp c m = m2) as ->.
  { unfold merge_prev, TOP, HDR in *. rewrite Hj, Hsz, hadd_small by (unfold HDR; lia).
    rewrite (proj2 (Z.eqb_eq _ _)) by (unfold HDR; lia). rewrite (u32_small (j + n)) by lia. fold m'. cbv zeta.
    assert (hptr m' bp = next_of F') as -> by (unfold m'; rewrite hptr_hsize; [done|unfold HDR; lia]). done. }
  assert (changed_only [c] m m2) as Hc.
  { eapply changed_trans; [apply changed_hsize; by left|apply changed_hptr; by left]. }
  destruct (seg_prefix m m2 K c lo HK Hc HoK Hb Hlo ltac:(lia)) as [HK2 H02].
  split_and!; [|congruence| |done| | |].
  - apply seg_app. split_and!; [done| |].
    + unfold m2. rewrite hsize_hptr by (by left). unfold m', TOP, HDR in *. apply hsize_hsize. lia.
    + pose proof (seg_suffix m m2 c bp n F' hi Hs Ho Hn ltac:(unfold HDR in *; lia) Hc) as Hs2.
      assert (hptr m2 c = next_of F') as Ec by (apply hptr_hptr; apply (next_of_small bp n F' hi); [done|done|unfold HDR in *; lia|done]).
      destruct F' as [|[b k] F']; cbn in Hs2, Ec |- *; [done|]. destruct Hs2 as (_ & ? & ?). done.
  - apply ordered_app. split_and!; [done|lia|]. by replace (c + (j + n) * HDR) with (bp + n * HDR) by (unfold HDR in *; lia).
  - intros x. rewrite !covers_app, !covers_cons. assert (~ covers [] x) by (intros (? & ? & Hin & _); by apply elem_of_nil in Hin).
    assert (c <= x < c + (j + n) * HDR <-> c <= x < c + j * HDR \/ bp <= x < bp + n * HDR) as -> by (unfold HDR in *; lia). tauto.
  - right. rewrite fmap_app. apply elem_of_app. right. by left.
  - rewrite !length_app. cbn. lia.
Qed.

(** There is a gap between the previous block and [bp]. *)
Lemma join_apart m bp n c j K F' lo hi :
  seg m a_base K c -> hsize m c = j -> seg m bp F' a_base -> hsize m bp = n -> hsize m a_base = 0 -> 0 < n ->
  ordered (lo - 1) K (c - 1) -> 0 < j -> c + j * HDR < bp -> ordered (bp + n * HDR) F' hi -> hi <= TOP ->
  0 <= a_base -> a_base + HDR <= lo ->
  joined m (merge_prev bp c m) c lo hi bp n (K ++ [(c, j)]) F' (K ++ (c, j) :: (bp, n) :: F').
Proof using.
  intros HK Hj Hs Hsz H0 Hn HoK Hj0 Ea Ho Hhi Hb Hlo.
  pose proof (ordered_le _ _ _ Ho) as Hle. pose proof (ordered_le _ _ _ HoK) as Hle'.
  assert (merge_prev bp c m = set_hptr m c bp) as ->.
  { unfold merge_prev. rewrite Hj, hadd_small by (unfold TOP, HDR in *; lia). by rewrite (proj2 (Z.eqb_neq _ _)) by lia. }
  assert (changed_only [c] m (set_hptr m c bp)) as Hc by (apply changed_hptr; by left).
  destruct (seg_prefix m _ K c lo HK Hc HoK Hb Hlo ltac:(lia)) as [HK2 H02].
  split_and!; [|congruence| |done| | |].
  - apply seg_app. split_and!; [done|rewrite hsize_hptr; [done|by left]|]. cbn.
    split_and!; [apply hptr_hptr; unfold TOP, HDR in *; lia|rewrite hsize_hptr; [done|unfold HDR in *; lia]|].
    eapply seg_suffix; [exact Hs|exact Ho|done| |exact Hc]. unfold HDR in *; lia.
  - apply ordered_app. split_and!; [done|lia|]. cbn. split_and!; [lia|done|done].
  - intros x. rewrite !covers_app, !covers_cons.
    assert (~ covers [] x) by (intros (? & ? & Hin & _); by apply elem_of_nil in Hin). tauto.
  - right. rewrite fmap_app. apply elem_of_app. right. by left.
  - rewrite !length_app. cbn. lia.
Qed.

Lemma join_block m bp n c j K F' lo hi :
  seg m a_base K c -> hsize m c = j -> seg m bp F' a_base -> hsize m bp = n -> hsize m a_base = 0 -> 0 < n ->
  ordered (lo - 1) (K ++ [(c, j)]) bp -> ordered (bp + n * HDR) F' hi -> hi <= TOP ->
  0 <= a_base -> a_base + HDR <= lo ->
  exists G, joined m (merge_prev bp c m) c lo hi bp n (K ++ [(c, j)]) F' G.
Proof using.
  intros HK Hj Hs Hsz H0 Hn (HoK & Hj0 & Hcb)%ordered_app Ho Hhi Hb Hlo. cbn in Hcb.
  destruct (decide (c + j * HDR = bp)) as [Ea|Ena].
  - eexists. by apply join_adjacent.
  - eexists. apply join_apart; try done. lia.
Qed.

(** The header before [bp]. *)
Lemma pred_below lo F bp : ordered (lo - 1) F bp -> a_base + HDR <= lo -> lo <= bp -> pred_of F + HDR <= bp.
Proof using.
  intros Ho Hb Hlo. destruct F as [|[c j] K _] using rev_ind; [cbn; lia|]. rewrite pred_of_app. cbn.
  apply ordered_app in Ho as (_ & Hj & Hc). cbn in Hc. unfold HDR in *. lia.
Qed.

(** ** The invariant

    The heap starts at [lo]; [F] are the free blocks in order, and [A] maps
    the headers of the blocks that are in use to their sizes. *)

Record heap_ok (lo : Z) (F : blocks) (A : gmap Z Z) (m : mem) (h : heapst) : Prop := {
  hk_base : 0 < a_base /\ a_base + HDR <= lo;
  hk_zero : hsize m a_base = 0;
  hk_seg : seg m a_base F a_base;
  hk_ord : ordered (lo - 1) F (brk h);
  hk_top : lo <= brk h <= TOP;
  hk_freep : freep h = a_base \/ freep h ∈ F.*1;
  hk_used : forall a n, A !! a = Some n ->
    lo <= a /\ 0 < n /\ a + n * HDR <= brk h /\ hsize m a = n /\ forall x, a <= x < a + n * HDR -> ~ covers F x;
  hk_apart : forall a n b k, A !! a = Some n -> A !! b = Some k -> a <> b -> a + n * HDR <= b \/ b + k * HDR <= a;
}.

(** The contents of the blocks in use. *)
Definition kept (A : gmap Z Z) (m m' : mem) : Prop :=
  forall a n x, A !! a = Some n -> a <= x < a + n * HDR -> mget m' x = mget m x.

Lemma contents_trans A m1 m2 m3 : kept A m1 m2 -> kept A m2 m3 -> kept A m1 m3.
Proof using. intros H1 H2 a n x Ha Hx. rewrite (H2 a n x Ha Hx). by apply (H1 a n x). Qed.

Lemma kept_hsize A m m' a n : kept A m m' -> A !! a = Some n -> 0 < n -> hsize m' a = hsize m a.
Proof using. intros Hk Ha Hn. apply load32_ext. intros x Hx. apply (Hk a n); [done|]. unfold HDR. lia. Qed.

(** A range that meets no free block lies between two of them. *)
Lemma split_at bp n hi : 0 < n -> forall F lo,
  ordered lo F hi -> lo < bp -> bp + n * HDR <= hi -> (forall x, bp <= x < bp + n * HDR -> ~ covers F x) ->
  exists F1 F2, F = F1 ++ F2 /\ ordered lo F1 bp /\ ordered (bp + n * HDR - 1) F2 hi.
Proof using.
  intros Hn. induction F as [|[a k] F IH]; intros lo Ho Hlo Hhi Hx.
  { exists [], []. split_and!; [done|cbn; lia|cbn; lia]. }
  destruct Ho as (H1 & H2 & Ho).
  assert (a + k * HDR <= bp \/ bp + n * HDR <= a) as [Hb|Ha].
  { destruct (decide (a + k * HDR <= bp)); [by left|]. destruct (decide (bp + n * HDR <= a)); [by right|]. exfalso.
    apply (Hx (Z.max a bp)); [unfold HDR in *; lia|]. apply covers_cons. left. unfold HDR in *. lia. }
  - destruct (decide (a + k * HDR < bp)) as [Hb'|Hb'].
    + destruct (IH (a + k * HDR) Ho) as (F1 & F2 & -> & HF1 & HF2); [lia|done| |].
      { intros x Hxx Hc. apply (Hx x Hxx). apply covers_cons. by right. }
      exists ((a, k) :: F1), F2. split_and!; [done|cbn; split_and!; [done|done|done]|done].
    + exists [(a, k)], F. split_and!; [done|cbn; split_and!; [done|done|lia]|].
      destruct F as [|[b j] F]; cbn in Ho |- *; [lia|]. destruct Ho as (Hb1 & Hb2 & Ho). split_and!; [|done|done].
      destruct (decide (bp + n * HDR - 1 < b)); [done|]. exfalso. apply (Hx b); [unfold HDR in *; lia|].
      apply covers_cons. right. apply covers_cons. left. unfold HDR in *. lia.
  - exists [], ((a, k) :: F). split_and!; [done|cbn; lia|cbn; split_and!; [lia|done|done]].
Qed.

(** Putting a block back: the free list, and nothing else. *)
Lemma free_joins lo F m h bp n fuel :
  seg m a_base F a_base -> ordered (lo - 1) F (brk h) -> hsize m a_base = 0 -> 0 < a_base /\ a_base + HDR <= lo ->
  lo <= brk h <= TOP -> freep h = a_base \/ freep h ∈ F.*1 ->
  lo <= bp -> 0 < n -> bp + n * HDR <= brk h -> hsize m bp = n -> (forall x, bp <= x < bp + n * HDR -> ~ covers F x) ->
  (length F + 1 < fuel)%nat ->
  exists m' p G, free fuel (bp + HDR) (m, h) = Some (m', mkheap p (brk h)) /\
    seg m' a_base G a_base /\ hsize m' a_base = 0 /\ ordered (lo - 1) G (brk h) /\ (p = a_base \/ p ∈ G.*1) /\
    changed_only [bp; p] m m' /\ (forall x, covers G x <-> covers F x \/ bp <= x < bp + n * HDR) /\
    (length G <= S (length F))%nat /\ (p = a_base \/ p ∈ F.*1).
Proof using.
  intros Hs Ho H0 [Hb Hlo] Htop Hfp Hlb Hn Hhi Hsz Hx Hf.
  destruct (split_at bp n (brk h) Hn F (lo - 1) Ho ltac:(lia) Hhi Hx) as (F1 & F2 & -> & Ho1 & Ho2).
  assert (u32 (bp + HDR - HDR) = bp) as Eb by (rewrite u32_small; unfold TOP, HDR in *; lia).
  assert (free_find fuel m bp (freep h) = Some (pred_of F1)) as Ef.
  { rewrite length_app in Hf. apply (find_pred m bp F1 F2 (freep h) fuel (brk h)); [done| | |unfold HDR in *; lia|done|lia].
    - apply (ordered_mono (lo - 1) _ _ bp); [done|unfold HDR in *; lia|lia].
    - apply (ordered_mono (bp + n * HDR - 1) _ _ (brk h)); [done|unfold HDR in *; lia|lia]. }
  pose proof (free_unfold fuel (bp + HDR) m h (pred_of F1)) as EF. rewrite Eb in EF. specialize (EF Ef). rewrite EF.
  destruct (proj1 (seg_split _ _ _ _) Hs) as [Hs1 Hs2]. change (default a_base (fst <$> last F1)) with (pred_of F1) in Hs2.
  pose proof (pred_below lo F1 bp Ho1 Hlo Hlb) as Hpb.
  destruct (merge_next_spec m bp (pred_of F1) n F2 (brk h)) as (n' & F' & H1 & H2 & H3 & H4 & H5 & H6 & H7); try done; [lia|unfold HDR in *; lia|].
  set (m1 := merge_next bp (pred_of F1) m) in *.
  assert (hsize m1 a_base = 0) as H01.
  { rewrite <- H0. eapply hdr_kept; [exact H5|]. intros a ->%list_elem_of_singleton. left. lia. }
  assert (exists G, joined m1 (merge_prev bp (pred_of F1) m1) (pred_of F1) lo (brk h) bp n' F1 F' G) as (G & J1 & J2 & J3 & J4 & J5 & J6 & J7).
  { destruct F1 as [|[c j] K _] using rev_ind.
    - eexists. apply join_base; try done; lia.
    - rewrite pred_of_app in *. cbn [last fmap option_fmap option_map default] in *. apply seg_app in Hs1 as (HK & Hj & _).
      pose proof Ho1 as (HoK & Hj0 & Hcb)%ordered_app. cbn in Hcb. apply ordered_le in HoK as Hlec.
      assert (c + HDR <= bp) as Hcc by done.
      apply join_block; try done; try lia.
      + eapply (seg_kept [bp]); [exact HK|done|]. intros q Hq a ->%list_elem_of_singleton. left.
        destruct Hq as [->|Hq]; [lia|]. pose proof (below_apart _ _ _ _ HoK Hq). unfold HDR in *. lia.
      + rewrite <- Hj. eapply hdr_kept; [exact H5|]. intros a ->%list_elem_of_singleton. by left. }
  eexists _, (pred_of F1), G. split; [done|]. split_and!; try done.
  - eapply changed_trans; [|]; intros x Hxx; [apply H5|apply J4]; intros a ->%list_elem_of_singleton; apply Hxx; [by left|right; by left].
  - intros x. rewrite J5, H6, covers_cons, covers_app. tauto.
  - rewrite length_app. lia.
  - destruct F1 as [|[c j] K _] using rev_ind; [by left|right]. rewrite pred_of_app, !fmap_app. apply elem_of_app. left.
    apply elem_of_app. right. by left.
Qed.

(** Headers of the list, and [base], are outside of the blocks in use. *)
Lemma used_kept lo F A m m' h l :
  heap_ok lo F A m h -> changed_only l m m' ->
  (forall q, q ∈ l -> q + HDR <= lo \/ (forall a n, A !! a = Some n -> q + HDR <= a \/ a + n * HDR <= q)) -> kept A m m'.
Proof using.
  intros HK Hc Hl a n x Ha Hx. apply Hc. intros q Hq. destruct (hk_used _ _ _ _ _ HK a n Ha) as (H1 & _).
  destruct (Hl q Hq) as [?|Hd]; [unfold HDR in *; lia|]. specialize (Hd a n Ha). lia.
Qed.

(** A header inside a free block. *)
Lemma inside_apart lo F A m h b j q a n :
  heap_ok lo F A m h -> (b, j) ∈ F -> b <= q -> q + HDR <= b + j * HDR -> A !! a = Some n -> q + HDR <= a \/ a + n * HDR <= q.
Proof using.
  intros HK Hin Hb Hq Ha. destruct (hk_used _ _ _ _ _ HK a n Ha) as (_ & Hn & _ & _ & Hx).
  destruct (decide (q + HDR <= a)); [by left|]. destruct (decide (a + n * HDR <= q)); [by right|]. exfalso.
  apply (Hx (Z.max a q)); [unfold HDR in *; lia|]. exists b, j. split; [done|]. unfold HDR in *. lia.
Qed.
Lemma list_apart lo F A m h q a n :
  heap_ok lo F A m h -> q ∈ F.*1 -> A !! a = Some n -> q + HDR <= a \/ a + n * HDR <= q.
Proof using.
  intros HK ([b k] & -> & Hin)%list_elem_of_fmap Ha. destruct (ordered_in _ _ _ _ _ (hk_ord _ _ _ _ _ HK) Hin) as (_ & Hk & _).
  eapply inside_apart; [done|done|done| |done]. unfold HDR in *. cbn. lia.
Qed.

Lemma heap_ok_free lo F A m h bp n fuel :
  heap_ok lo F A m h -> lo <= bp -> 0 < n -> bp + n * HDR <= brk h -> hsize m bp = n ->
  (forall x, bp <= x < bp + n * HDR -> ~ covers F x) ->
  (forall a k, A !! a = Some k -> a + k * HDR <= bp \/ bp + n * HDR <= a) -> (length F + 1 < fuel)%nat ->
  exists m' h' G, free fuel (bp + HDR) (m, h) = Some (m', h') /\ heap_ok lo G A m' h' /\ brk h' = brk h /\
    (forall x, covers G x <-> covers F x \/ bp <= x < bp + n * HDR) /\ kept A m m' /\ (length G <= S (length F))%nat.
Proof using.
  intros HK Hlo Hn Hhi Hsz Hx HA Hf. pose proof HK as [K1 K2 K3 K4 K5 K6 K7 K8].
  destruct (free_joins lo F m h bp n fuel) as (m' & p & G & E & G1 & G2 & G3 & G4 & G5 & G6 & G7 & G8); try done.
  assert (kept A m m') as Hk.
  { eapply used_kept; [done|exact G5|]. intros q [->|[->|Hq]%elem_of_cons]%elem_of_cons; [right| |by apply elem_of_nil in Hq].
    - intros a k Ha. specialize (HA a k Ha). destruct (K7 a k Ha) as (_ & ? & _). unfold HDR in *. lia.
    - destruct G8 as [->|G8]; [left; lia|right]. intros a k Ha. by eapply list_apart. }
  exists m', (mkheap p (brk h)), G. split; [done|]. split; [|done]. constructor; try done.
  intros a k Ha. destruct (K7 a k Ha) as (A1 & A2 & A3 & A4 & A5). split_and!; try done.
  - rewrite (kept_hsize A m m' a k Hk Ha A2). done.
  - intros x Hxx [Hc|Hc]%G6; [by apply (A5 x)|]. specialize (HA a k Ha). lia.
Qed.

(** [free] of a block that [malloc] gave. *)
Lemma free_spec lo F A m h bp n fuel :
  heap_ok lo F A m h -> A !! bp = Some n -> (length F + 1 < fuel)%nat ->
  exists m' h' G, free fuel (bp + HDR) (m, h) = Some (m', h') /\ heap_ok lo G (delete bp A) m' h' /\ brk h' = brk h /\
    (forall x, covers G x <-> covers F x \/ bp <= x < bp + n * HDR) /\ kept (delete bp A) m m' /\ (length G <= S (length F))%nat.
Proof using.
  intros HK Ha Hf. destruct (hk_used _ _ _ _ _ HK bp n Ha) as (U1 & U2 & U3 & U4 & U5).
  apply heap_ok_free; try done.
  - destruct HK as [K1 K2 K3 K4 K5 K6 K7 K8]. constructor; try done.
    + intros a k [_ Hk]%lookup_delete_Some. by apply K7.
    + intros a k b j [_ H1]%lookup_delete_Some [_ H2]%lookup_delete_Some. by apply K8.
  - intros a k [Hne Hk]%lookup_delete_Some. apply (hk_apart _ _ _ _ _ HK a k bp n); [done|done|congruence].
Qed.

(** ** Taking a block *)

Lemma seg_at m K a n R : seg m a_base (K ++ (a, n) :: R) a_base ->
  hptr m (pred_of K) = a /\ hsize m a = n /\ hptr m a = next_of R.
Proof using.
  intros Hs. destruct (proj1 (seg_split _ _ _ _) Hs) as [_ Hs2]. change (default a_base (fst <$> last K)) with (pred_of K) in Hs2.
  destruct Hs2 as (H1 & H2 & H3). split_and!; [done|done|]. destruct R as [|[b k] R]; apply H3.
Qed.

Lemma pred_in lo K a n R A m h :
  heap_ok lo (K ++ (a, n) :: R) A m h ->
  (pred_of K = a_base \/ pred_of K ∈ K.*1) /\ 0 <= pred_of K /\ pred_of K + HDR <= a /\
  forall b k, A !! b = Some k -> pred_of K + HDR <= b \/ b + k * HDR <= pred_of K.
Proof using.
  intros HK. pose proof HK as [K1 K2 K3 K4 K5 K6 K7 K8]. apply ordered_app in K4 as (K41 & K42 & K43).
  destruct K as [|[c j] K _] using rev_ind.
  - cbn. apply ordered_le in K41. split_and!; [by left|lia|lia|]. intros b k Hb. destruct (K7 b k Hb) as (? & _). left. lia.
  - rewrite pred_of_app. cbn. assert (c ∈ (K ++ [(c, j)]).*1) as Hin by (rewrite fmap_app; apply elem_of_app; right; by left).
    apply ordered_app in K41 as (K411 & K412 & K413). cbn in K413. apply ordered_le in K411.
    split_and!; [by right|unfold HDR in *; lia|unfold HDR in *; lia|]. intros b k Hb. eapply list_apart; [done| |done].
    rewrite fmap_app. apply elem_of_app. by left.
Qed.

(** The block at [a] leaves the list. *)
Lemma seg_unlink m K a n R lo hi :
  seg m a_base (K ++ (a, n) :: R) a_base -> ordered (lo - 1) (K ++ (a, n) :: R) hi -> 0 < a_base /\ a_base + HDR <= lo -> hi <= TOP ->
  let m' := set_hptr m (pred_of K) (next_of R) in
  seg m' a_base (K ++ R) a_base /\ hsize m' a_base = hsize m a_base /\ ordered (lo - 1) (K ++ R) hi.
Proof using.
  intros Hs Ho [Hb Hlo] Hhi m'. pose proof Ho as (Ho1 & Hn & Ho2)%ordered_app.
  pose proof (ordered_le _ _ _ Ho1) as Hle1. pose proof (ordered_le _ _ _ Ho2) as Hle2.
  destruct (proj1 (seg_split _ _ _ _) Hs) as [Hs1 Hs2]. change (default a_base (fst <$> last K)) with (pred_of K) in Hs2.
  destruct Hs2 as (H1 & H2 & H3).
  assert (changed_only [pred_of K] m m') as Hc by (apply changed_hptr; by left).
  assert (pred_of K + HDR <= a) as Hpa.
  { apply (pred_below lo); [apply (ordered_mono (lo - 1) _ _ (a - 1)); [done|lia|lia]|done|lia]. }
  assert (0 <= next_of R < 4294967296) as Hr by (apply (next_of_small a n R hi); [done|done|unfold HDR in *; lia|done]).
  assert (forall q, q ∈ R.*1 -> a + HDR <= q) as HR.
  { intros q Hq. apply (above_apart a n R hi); [|done|done]. apply (ordered_mono (a + n * HDR) _ _ hi); [done|lia|lia]. }
  assert (hptr m' (pred_of K) = next_of R) as Ep by (by apply hptr_hptr).
  assert (seg m' (pred_of K) R a_base) as HsR.
  { destruct R as [|[b k] R]; [done|]. destruct H3 as (H31 & H32 & H33). cbn in Ep |- *. split_and!; [done| |].
    - rewrite <- H32. eapply hdr_kept; [exact Hc|]. intros c ->%list_elem_of_singleton. right.
      specialize (HR b ltac:(by left)). unfold HDR in *. lia.
    - eapply seg_kept; [exact H33|exact Hc|]. intros q Hq c ->%list_elem_of_singleton. right.
      assert (q ∈ ((b, k) :: R).*1) as Hq' by (cbn; apply elem_of_cons; tauto). specialize (HR q Hq'). unfold HDR in *. lia. }
  split_and!.
  - apply seg_split. split; [|exact HsR]. destruct K as [|[c j] K _] using rev_ind; [exact Ep|].
    rewrite pred_of_app in *. cbn [last fmap option_fmap option_map default] in *.
    apply seg_app in Hs1 as (HsK & Hj & _). apply ordered_app in Ho1 as (HoK & Hj0 & Hcj). cbn in Hcj.
    apply ordered_le in HoK as HleK. apply seg_app. split_and!; [| |exact Ep].
    + eapply seg_kept; [exact HsK|exact Hc|]. intros q Hq x ->%list_elem_of_singleton. left.
      destruct Hq as [->|Hq]; [lia|by eapply below_apart].
    + unfold m'. rewrite hsize_hptr; [done|]. left. by rewrite pred_of_app.
  - unfold m'. rewrite hsize_hptr; [done|]. destruct K as [|[c j] K _] using rev_ind; [by left|].
    rewrite pred_of_app in *. cbn. apply ordered_app in Ho1 as (HoK & _). apply ordered_le in HoK. right. left. lia.
  - destruct R as [|[b k] R].
    + rewrite app_nil_r. apply (ordered_mono (lo - 1) _ _ (a - 1)); [done|lia|]. unfold HDR in *. lia.
    + destruct Ho2 as (O1 & O2 & O3). apply ordered_app. split_and!; [|done|done].
      apply (ordered_mono (lo - 1) _ _ (a - 1)); [done|lia|]. unfold HDR in *. lia.
Qed.

(** The result [r] of [malloc]: a block of [n] units that was free. *)
Definition gave (lo n : Z) (F : blocks) (A : gmap Z Z) (m : mem) (h : heapst) (r : Z) (m' : mem) (h' : heapst) : Prop :=
  exists F', heap_ok lo F' (<[r - HDR := n]> A) m' h' /\ A !! (r - HDR) = None /\ brk h' = brk h /\ kept A m m' /\
    (length F' <= length F)%nat /\ forall x, covers F x <-> covers F' x \/ r - HDR <= x < r - HDR + n * HDR.

(** From a block of the free list being handed out. *)
Lemma used_with lo F F' A m m' h p r n :
  heap_ok lo F A m h -> seg m' a_base F' a_base -> hsize m' a_base = 0 -> ordered (lo - 1) F' (brk h) ->
  p = a_base \/ p ∈ F'.*1 -> kept A m m' -> hsize m' (r - HDR) = n -> 0 < n -> lo <= r - HDR -> r - HDR + n * HDR <= brk h ->
  (length F' <= length F)%nat -> (forall x, covers F x <-> covers F' x \/ r - HDR <= x < r - HDR + n * HDR) ->
  (forall x, r - HDR <= x < r - HDR + n * HDR -> ~ covers F' x) ->
  gave lo n F A m h r m' (mkheap p (brk h)).
Proof using.
  intros HK Hs H0 Ho Hp Hk Hsz Hn Hlo Hhi Hlen HF' Hx. pose proof HK as [K1 K2 K3 K4 K5 K6 K7 K8].
  assert (forall a k, A !! a = Some k -> a + k * HDR <= r - HDR \/ r - HDR + n * HDR <= a) as Hd.
  { intros a k Ha. destruct (K7 a k Ha) as (_ & A2 & _ & _ & A5).
    destruct (decide (a + k * HDR <= r - HDR)); [by left|]. destruct (decide (r - HDR + n * HDR <= a)); [by right|]. exfalso.
    apply (A5 (Z.max a (r - HDR))); [unfold HDR in *; lia|]. apply HF'. right. unfold HDR in *. lia. }
  exists F'. split_and!; try done.
  - constructor; try done.
    + intros a k [[<- <-]|[Hne Ha]]%lookup_insert_Some.
      * split_and!; done.
      * destruct (K7 a k Ha) as (A1 & A2 & A3 & A4 & A5). split_and!; try done.
        { by rewrite (kept_hsize A m m' a k Hk Ha A2). }
        intros x Hxx Hc. apply (A5 x Hxx), HF'. by left.
    + intros a k b j [[<- <-]|[Hne Ha]]%lookup_insert_Some [[<- <-]|[Hne' Hb]]%lookup_insert_Some Hab; [done| | |by apply (K8 a k b j)].
      * specialize (Hd b j Hb). lia.
      * specialize (Hd a k Ha). lia.
  - destruct (A !! (r - HDR)) as [k|] eqn:Ek; [|done]. destruct (K7 _ _ Ek) as (_ & A2 & _). specialize (Hd _ _ Ek). unfold HDR in *. lia.
Qed.

Lemma covers_range lo F hi x : ordered lo F hi -> covers F x -> lo < x < hi.
Proof using. intros Ho (a & n & Hin & Hx). destruct (ordered_in _ _ _ _ _ Ho Hin) as (? & ? & ?). lia. Qed.

Lemma take_whole lo K a n R A m h :
  heap_ok lo (K ++ (a, n) :: R) A m h ->
  exists m', take_block n (pred_of K) a (m, h) = (a + HDR, (m', mkheap (pred_of K) (brk h))) /\
    gave lo n (K ++ (a, n) :: R) A m h (a + HDR) m' (mkheap (pred_of K) (brk h)).
Proof using.
  intros HK. pose proof HK as [K1 K2 K3 K4 K5 K6 K7 K8]. destruct (seg_at _ _ _ _ _ K3) as (S1 & S2 & S3).
  destruct (pred_in _ _ _ _ _ _ _ _ HK) as (P1 & P2 & P3 & P4). pose proof K4 as (O1 & O2 & O3)%ordered_app.
  pose proof (ordered_le _ _ _ O1). pose proof (ordered_le _ _ _ O3).
  destruct (seg_unlink m K a n R lo (brk h) K3 K4 K1 ltac:(lia)) as (U1 & U2 & U3).
  unfold take_block. rewrite S2, Z.eqb_refl, S3, hadd_small by (unfold TOP, HDR in *; lia). rewrite Z.mul_1_l.
  eexists. split; [done|]. replace a with (a + HDR - HDR) in O2 by lia. apply (used_with lo (K ++ (a, n) :: R) (K ++ R)); try done.
  - congruence.
  - destruct P1 as [->|P1]; [by left|right]. rewrite fmap_app. apply elem_of_app. by left.
  - eapply used_kept; [done|apply (changed_hptr [pred_of K]); by left|]. intros q ->%list_elem_of_singleton. by right.
  - replace (a + HDR - HDR) with a by lia. rewrite hsize_hptr; [done|unfold HDR in *; lia].
  - unfold HDR in *. lia.
  - unfold HDR in *. lia.
  - rewrite !length_app. cbn. lia.
  - replace (a + HDR - HDR) with a by lia. intros x. rewrite !covers_app, covers_cons. tauto.
  - replace (a + HDR - HDR) with a by lia. intros x Hx. rewrite !covers_app. intros [Hc|Hc].
    + apply (covers_range _ _ _ _ O1) in Hc. lia.
    + apply (covers_range _ _ _ _ O3) in Hc. lia.
Qed.

(** The tail of the block at [a] becomes a block of [k] units. *)
Definition cut_tail (m : mem) (a n k : Z) : mem := set_hsize (set_hsize m a (n - k)) (a + (n - k) * HDR) k.

Lemma take_tail_run m h pp a n k :
  hsize m a = n -> 0 < k < n -> 0 <= a -> a + n * HDR <= TOP ->
  take_block k pp a (m, h) = (a + (n - k) * HDR + HDR, (cut_tail m a n k, mkheap pp (brk h))).
Proof using.
  intros S2 Hk Ha Ht. unfold take_block, cut_tail. rewrite S2, (proj2 (Z.eqb_neq _ _)), u32_small by (unfold TOP, HDR in *; lia). cbv zeta.
  rewrite hsize_hsize by (unfold TOP, HDR in *; lia). rewrite (hadd_small a) by (unfold TOP, HDR in *; lia).
  rewrite hadd_small by (unfold TOP, HDR in *; lia). by rewrite Z.mul_1_l.
Qed.

Lemma cut_tail_changed m a n k : changed_only [a; a + (n - k) * HDR] m (cut_tail m a n k).
Proof using. eapply changed_trans; [apply changed_hsize; by left|apply changed_hsize; right; by left]. Qed.

Lemma cut_tail_list m K a n R lo hi k :
  seg m a_base (K ++ (a, n) :: R) a_base -> ordered (lo - 1) (K ++ (a, n) :: R) hi -> 0 < a_base /\ a_base + HDR <= lo ->
  hi <= TOP -> 0 < k < n ->
  seg (cut_tail m a n k) a_base (K ++ (a, n - k) :: R) a_base /\ hsize (cut_tail m a n k) a_base = hsize m a_base.
Proof using.
  intros (SK & SA & SR)%seg_app (O1 & O2 & O3)%ordered_app Hb Ht Hk.
  pose proof (ordered_le _ _ _ O1). pose proof (ordered_le _ _ _ O3). pose proof (cut_tail_changed m a n k) as Hc.
  set (p := a + (n - k) * HDR) in *. set (m2 := cut_tail m a n k) in *.
  assert (forall q, q = a_base \/ q ∈ K.*1 \/ q ∈ R.*1 -> forall c, c ∈ [a; p] -> q + HDR <= c \/ c + HDR <= q) as Hq.
  { intros q Hq c Hcc. assert (q + HDR <= a \/ a + n * HDR <= q) as Hqa.
    { destruct Hq as [->|[Hq|([b j] & -> & Hin)%list_elem_of_fmap]]; [lia|left; by eapply below_apart|right].
      destruct (ordered_in _ _ _ _ _ O3 Hin) as (? & _). cbn. lia. }
    apply elem_of_cons in Hcc as [->|[->|Hcc]%elem_of_cons]; [| |by apply elem_of_nil in Hcc]; unfold p, HDR in *; lia. }
  assert (hptr m2 a = hptr m a) as Ha by (unfold m2, cut_tail; rewrite !hptr_hsize; [done|by left|unfold HDR in *; lia]).
  split; [|eapply hdr_kept; [exact Hc|]; apply Hq; tauto]. apply seg_app. split_and!.
  - eapply seg_kept; [exact SK|exact Hc|]. intros q Hqq. apply Hq. tauto.
  - etransitivity; [|apply (hsize_hsize m a (n - k)); unfold TOP, HDR in *; lia].
    apply load32_store32_ne. unfold HDR in *. lia.
  - destruct R as [|[b j] R]; [cbn; by rewrite Ha|]. destruct SR as (R1 & R2 & R3). cbn. split_and!; [congruence| |].
    + rewrite <- R2. eapply hdr_kept; [exact Hc|]. apply Hq. right; right. by left.
    + eapply seg_kept; [exact R3|exact Hc|]. intros q Hqq. apply Hq. right; right. cbn. apply elem_of_cons. tauto.
Qed.

Lemma take_tail lo K a n R A m h k :
  heap_ok lo (K ++ (a, n) :: R) A m h -> 0 < k < n ->
  exists m', let r := a + (n - k) * HDR + HDR in
    take_block k (pred_of K) a (m, h) = (r, (m', mkheap (pred_of K) (brk h))) /\
    gave lo k (K ++ (a, n) :: R) A m h r m' (mkheap (pred_of K) (brk h)).
Proof using.
  intros HK Hk. pose proof HK as [K1 K2 K3 K4 K5 K6 K7 K8]. destruct (seg_at _ _ _ _ _ K3) as (S1 & S2 & S3).
  destruct (pred_in _ _ _ _ _ _ _ _ HK) as (P1 & P2 & P3 & P4). pose proof K4 as (O1 & O2 & O3)%ordered_app.
  pose proof (ordered_le _ _ _ O1). pose proof (ordered_le _ _ _ O3).
  destruct (cut_tail_list m K a n R lo (brk h) k K3 K4 K1 ltac:(lia) Hk) as [C1 C2].
  exists (cut_tail m a n k). cbv zeta. split; [apply take_tail_run; try done; unfold HDR in *; lia|].
  apply (used_with lo (K ++ (a, n) :: R) (K ++ (a, n - k) :: R)); rewrite ?Z.add_simpl_r; try done.
  - congruence.
  - apply ordered_app. split_and!; [done|lia|]. apply (ordered_mono (a + n * HDR) _ _ (brk h)); [done|unfold HDR in *; lia|lia].
  - destruct P1 as [->|P1]; [by left|right]. rewrite fmap_app. apply elem_of_app. by left.
  - eapply used_kept; [done|apply cut_tail_changed|]. intros q Hq. right. intros b j.
    assert (a <= q /\ q + HDR <= a + n * HDR) as [Hq1 Hq2].
    { apply elem_of_cons in Hq as [->|[->|Hq]%elem_of_cons]; [| |by apply elem_of_nil in Hq]; unfold HDR in *; lia. }
    apply (inside_apart _ _ _ _ _ a n q b j HK); [apply elem_of_app; right; by left|done|done].
  - apply hsize_hsize. unfold TOP, HDR in *. lia.
  - lia.
  - unfold HDR in *. lia.
  - unfold HDR in *. lia.
  - rewrite !length_app. cbn. lia.
  - intros x. rewrite !covers_app, !covers_cons.
    assert (a <= x < a + n * HDR <-> a <= x < a + (n - k) * HDR \/ a + (n - k) * HDR <= x < a + (n - k) * HDR + k * HDR) as ->
      by (unfold HDR in *; lia). tauto.
  - intros x Hx. rewrite !covers_app, !covers_cons. intros [Hcv|[Hcv|Hcv]].
    + apply (covers_range _ _ _ _ O1) in Hcv. unfold HDR in *. lia.
    + lia.
    + apply (covers_range _ _ _ _ O3) in Hcv. unfold HDR in *. lia.
Qed.

(** ** The search *)

(** A stretch of the list that does not contain [freep]. *)
Lemma scan k m h rest : forall F' K fuel,
  seg m a_base (K ++ F' ++ rest) a_base -> (forall a n, (a, n) ∈ F' -> a <> freep h) -> (length F' < fuel)%nat ->
  (exists K1 a n R, K ++ F' ++ rest = K1 ++ (a, n) :: R /\ k <= n /\
     malloc_loop fuel k (pred_of K) (next_of (F' ++ rest)) (m, h) = Some (take_block k (pred_of K1) a (m, h))) \/
  (forall a n, (a, n) ∈ F' -> n < k) /\
  malloc_loop fuel k (pred_of K) (next_of (F' ++ rest)) (m, h) =
    malloc_loop (fuel - length F') k (pred_of (K ++ F')) (next_of rest) (m, h).
Proof using.
  induction F' as [|[a n] F' IH]; intros K fuel Hs Hfp Hf.
  { right. split; [intros a n Hin; by apply elem_of_nil in Hin|]. rewrite app_nil_r. cbn [app length]. by rewrite Nat.sub_0_r. }
  destruct fuel as [|f]; [lia|]. destruct (seg_at m K a n (F' ++ rest) Hs) as (S1 & S2 & S3).
  cbn [app]. change (next_of ((a, n) :: F' ++ rest)) with a. cbn [malloc_loop]. rewrite S2. destruct (Z.leb_spec k n) as [Hk|Hk].
  { left. by exists K, a, n, (F' ++ rest). }
  rewrite (proj2 (Z.eqb_neq a (freep h))) by (apply (Hfp a n); by left). rewrite S3. clear S1.
  assert (K ++ (a, n) :: F' ++ rest = (K ++ [(a, n)]) ++ F' ++ rest) as EK by (by rewrite <- app_assoc).
  specialize (IH (K ++ [(a, n)]) f). assert (pred_of (K ++ [(a, n)]) = a) as Ea by (by rewrite pred_of_app). rewrite Ea in IH.
  destruct IH as [Hfound|[Hsm Hrest]].
  - by rewrite <- EK.
  - intros b j Hin. apply (Hfp b j). by right.
  - cbn in Hf. lia.
  - left. by rewrite EK.
  - right. split; [intros b j [[= -> ->]|Hin]%elem_of_cons; [done|by apply (Hsm b j)]|]. rewrite Hrest. by rewrite <- app_assoc.
Qed.

(** Once around the list from [freep]: the first block that is large enough
    is taken, or there is none and the program asks the kernel. *)
Definition go_round (k : Z) (F : blocks) (m : mem) (h : heapst) (o : option (Z * (mem * heapst))) (least : nat) : Prop :=
  (exists K a n R, F = K ++ (a, n) :: R /\ k <= n /\ o = Some (take_block k (pred_of K) a (m, h))) \/
  (forall a n, (a, n) ∈ F -> n < k) /\
  exists f, (least <= f)%nat /\
    o = match morecore f k (m, h) with
        | None => None
        | Some (r, s) => if r =? 0 then Some (0, s) else malloc_loop f k r (hptr (fst s) r) s
        end.

Lemma round_base lo F A m h k fuel :
  heap_ok lo F A m h -> freep h = a_base -> 0 < k -> (length F + 1 < fuel)%nat ->
  go_round k F m h (malloc_loop fuel k a_base (next_of F) (m, h)) (fuel - length F - 1).
Proof using.
  intros HK Hfp Hk Hf. pose proof HK as [K1 K2 K3 K4 K5 K6 K7 K8].
  destruct (scan k m h [] F [] fuel) as [(K & a & n & R & E & Hn & Er)|[Hsm Er]]; rewrite ?app_nil_r in *; cbn [app] in *.
  - done.
  - intros a n Hin. destruct (ordered_in _ _ _ _ _ K4 Hin) as (? & _). unfold HDR in *. lia.
  - lia.
  - left. by exists K, a, n, R.
  - right. split; [done|]. exists (fuel - length F - 1)%nat. split; [done|]. cbn in Er. rewrite Er.
    replace (fuel - length F)%nat with (S (fuel - length F - 1)) at 1 by lia. cbn [malloc_loop].
    change (default a_base (fst <$> head [])) with a_base. rewrite K2, (proj2 (Z.leb_gt k 0)) by lia. by rewrite Hfp, Z.eqb_refl.
Qed.

Lemma ordered_once lo G a n G' hi b j : ordered lo (G ++ (a, n) :: G') hi -> (b, j) ∈ G \/ (b, j) ∈ G' -> b <> a.
Proof using.
  intros (O1 & O2 & O3)%ordered_app [Hin|Hin].
  - destruct (ordered_in _ _ _ _ _ O1 Hin) as (? & ? & ?). unfold HDR in *. lia.
  - destruct (ordered_in _ _ _ _ _ O3 Hin) as (? & ? & ?). unfold HDR in *. lia.
Qed.

Lemma round_block lo G j G' A m h k fuel :
  heap_ok lo (G ++ (freep h, j) :: G') A m h -> 0 < k -> (length (G ++ (freep h, j) :: G') + 1 < fuel)%nat ->
  go_round k (G ++ (freep h, j) :: G') m h (malloc_loop fuel k (freep h) (next_of G') (m, h)) (fuel - length (G ++ (freep h, j) :: G') - 1).
Proof using.
  intros HK Hk Hf. pose proof HK as [K1 K2 K3 K4 K5 K6 K7 K8]. rewrite length_app in *. cbn in Hf |- *.
  destruct (seg_at _ _ _ _ _ K3) as (S1 & S2 & S3).
  assert (a_base <> freep h) as Hne.
  { destruct (ordered_in _ _ _ (freep h) j K4) as (? & _); [apply elem_of_app; right; by left|]. unfold HDR in *. lia. }
  pose proof (scan k m h [] G' (G ++ [(freep h, j)]) fuel) as S. rewrite app_nil_r, <- app_assoc, pred_of_app in S. cbn [app] in S.
  destruct S as [(K & a & n & R & E & Hn & Er)|[Hsm Er]]; [done|intros a n Hin; eapply ordered_once; eauto|lia| |].
  { left. by exists K, a, n, R. }
  cbn in Er. rewrite Er. replace (fuel - length G')%nat with (S (fuel - length G' - 1)) by lia. cbn [malloc_loop].
  change (default a_base (fst <$> head [])) with a_base. rewrite K2, (proj2 (Z.leb_gt k 0)) by lia. rewrite (proj2 (Z.eqb_neq _ _) Hne).
  assert (hptr m a_base = next_of (G ++ (freep h, j) :: G')) as -> by (destruct G as [|[b i] G]; apply K3).
  destruct (scan k m h ((freep h, j) :: G') G [] (fuel - length G' - 1)) as [(K & a & n & R & E & Hn & Er2)|[Hsm2 Er2]];
    [done|intros a n Hin; eapply ordered_once; eauto|lia| |].
  { left. by exists K, a, n, R. }
  cbn [app pred_of] in Er2. change (pred_of []) with a_base in Er2. rewrite Er2.
  replace (fuel - length G' - 1 - length G)%nat with (S (fuel - length G' - 2 - length G)) by lia. cbn [malloc_loop].
  change (next_of ((freep h, j) :: G')) with (freep h). rewrite S2. destruct (Z.leb_spec k j) as [Hj|Hj].
  { left. by exists G, (freep h), j, G'. }
  right. split; [intros a n [Hin|[[= -> ->]|Hin]%elem_of_cons]%elem_of_app; eauto|].
  exists (fuel - length G' - 2 - length G)%nat. split; [lia|]. by rewrite Z.eqb_refl.
Qed.

Lemma round lo F A m h k fuel :
  heap_ok lo F A m h -> 0 < k -> (length F + 1 < fuel)%nat ->
  go_round k F m h (malloc_loop fuel k (freep h) (hptr m (freep h)) (m, h)) (fuel - length F - 1).
Proof using.
  intros HK Hk Hf. pose proof (hk_seg _ _ _ _ _ HK) as Hs. destruct (hk_freep _ _ _ _ _ HK) as [E|([a n] & E & Hin)%list_elem_of_fmap].
  - rewrite E at 1 2. assert (hptr m a_base = next_of F) as -> by (destruct F as [|[b i] F]; apply Hs). by apply round_base with lo A.
  - apply list_elem_of_split in Hin as (G & G' & ->). cbn in E. subst a. destruct (seg_at _ _ _ _ _ Hs) as (_ & _ & ->).
    by apply round_block with lo A.
Qed.

(** ** More memory *)

(** Free blocks are never adjacent, so a free range lies in one block. *)
Lemma range_in_block lo G hi bp n :
  ordered lo G hi -> 0 < n -> (forall x, bp <= x < bp + n * HDR -> covers G x) -> exists a k, (a, k) ∈ G /\ n <= k.
Proof using.
  intros Ho Hn Hx. destruct (Hx bp) as (a & k & Hin & Hr); [unfold HDR; lia|]. exists a, k. split; [done|].
  destruct (decide (n <= k)) as [|Hk]; [done|]. exfalso.
  destruct (Hx (a + k * HDR)) as (b & j & Hin2 & Hr2); [unfold HDR in *; lia|].
  apply list_elem_of_split in Hin as (G1 & G2 & ->). apply ordered_app in Ho as (O1 & O2 & O3).
  apply elem_of_app in Hin2 as [Hin2|[[= -> ->]|Hin2]%elem_of_cons].
  - destruct (ordered_in _ _ _ _ _ O1 Hin2) as (? & ? & ?). unfold HDR in *. lia.
  - lia.
  - destruct (ordered_in _ _ _ _ _ O3 Hin2) as (? & ? & ?). lia.
Qed.

(** The break moves up; the new memory is in no block yet. *)
Lemma heap_ok_grown lo F A m h n k :
  heap_ok lo F A m h -> 0 < n -> brk h + n * HDR <= TOP ->
  heap_ok lo F A (set_hsize m (brk h) k) (mkheap (freep h) (brk h + n * HDR)).
Proof using.
  intros HK Hn Ht. pose proof HK as [K1 K2 K3 K4 K5 K6 K7 K8].
  assert (changed_only [brk h] m (set_hsize m (brk h) k)) as Hc by (apply changed_hsize; by left).
  assert (kept A m (set_hsize m (brk h) k)) as Hk.
  { eapply used_kept; [done|exact Hc|]. intros q ->%list_elem_of_singleton. right. intros a j Ha. destruct (K7 a j Ha) as (_ & _ & ? & _). lia. }
  constructor; cbn [freep brk]; try done.
  - rewrite <- K2. eapply hdr_kept; [exact Hc|]. intros c ->%list_elem_of_singleton. left. lia.
  - eapply seg_kept; [exact K3|exact Hc|]. intros q Hq c ->%list_elem_of_singleton. left. destruct Hq as [->|Hq]; [lia|].
    apply list_elem_of_fmap in Hq as ([b j] & -> & Hin). destruct (ordered_in _ _ _ _ _ K4 Hin) as (? & ? & ?). cbn. unfold HDR in *. lia.
  - apply (ordered_mono (lo - 1) _ _ (brk h)); [done|lia|unfold HDR in *; lia].
  - unfold HDR in *. lia.
  - intros a j Ha. destruct (K7 a j Ha) as (A1 & A2 & A3 & A4 & A5). split_and!; try done.
    + unfold HDR in *. lia.
    + by rewrite (kept_hsize A m _ a j Hk Ha A2).
Qed.

Lemma morecore_spec lo F A m h k fuel :
  heap_ok lo F A m h -> 0 < k < 268435456 -> (length F + 1 < fuel)%nat ->
  morecore fuel k (m, h) = Some (0, (m, h)) \/
  exists m' h' G a n, morecore fuel k (m, h) = Some (freep h', (m', h')) /\ heap_ok lo G A m' h' /\ kept A m m' /\
    (length G <= S (length F))%nat /\ (a, n) ∈ G /\ k <= n /\ brk h <= brk h' /\
    forall x, covers G x <-> covers F x \/ brk h <= x < brk h'.
Proof using.
  intros HK Hk Hf. pose proof HK as [K1 K2 K3 K4 K5 K6 K7 K8]. unfold morecore. cbv zeta.
  set (nu := if k <? 4096 then 4096 else k). assert (k <= nu < 268435456) as Hnu by (unfold nu; destruct (Z.ltb_spec k 4096); lia).
  rewrite u32_small by (unfold HDR; lia). rewrite s32_small by (unfold HDR; lia). unfold sbrk.
  destruct (grants (brk h) (nu * HDR)) eqn:Eg; [|by left].
  apply grants_top in Eg; [|unfold HDR; lia]. cbv iota. rewrite (proj2 (Z.eqb_neq _ _)) by (unfold MAXPTR, TOP, HDR in *; lia).
  rewrite u32_small by (unfold TOP, HDR in *; lia). rewrite hadd_small by (unfold TOP, HDR in *; lia). rewrite Z.mul_1_l.
  pose proof (heap_ok_grown lo F A m h nu nu HK ltac:(lia) Eg) as HG. cbn [freep brk] in HG.
  destruct (heap_ok_free lo F A _ _ (brk h) nu fuel HG) as (m' & h' & G & E & H1 & H2 & H3 & H4 & H5); cbn [brk freep] in *; try done.
  - lia.
  - lia.
  - apply hsize_hsize. lia.
  - intros x Hx Hc. apply (covers_range _ _ _ _ K4) in Hc. lia.
  - intros a j Ha. destruct (K7 a j Ha) as (_ & _ & ? & _). by left.
  - right. rewrite E. destruct (range_in_block (lo - 1) G (brk h') (brk h) nu) as (a & n & Hin & Hn); [apply H1|lia|intros x Hx; apply H3; by right|].
    exists m', h', G, a, n. split_and!; try done; [|lia|unfold HDR in *; lia|].
    + eapply contents_trans; [|exact H4]. eapply used_kept; [exact HK|apply (changed_hsize [brk h]); by left|].
      intros q ->%list_elem_of_singleton. right. intros b j Hb. destruct (K7 b j Hb) as (_ & _ & ? & _). by right.
    + intros x. rewrite H3. by rewrite H2.
Qed.

(** ** malloc *)

Lemma take_spec lo K a n R A m h k :
  heap_ok lo (K ++ (a, n) :: R) A m h -> 0 < k <= n ->
  exists r m' h', take_block k (pred_of K) a (m, h) = (r, (m', h')) /\ gave lo k (K ++ (a, n) :: R) A m h r m' h'.
Proof using.
  intros HK Hk. destruct (decide (k = n)) as [->|Hne].
  - destruct (take_whole lo K a n R A m h HK) as (m' & E & HG). eauto.
  - destruct (take_tail lo K a n R A m h k HK) as (m' & E & HG); [lia|]. eauto.
Qed.

(** A search that must find a block. *)
Lemma search_finds lo F A m h k fuel a n :
  heap_ok lo F A m h -> (a, n) ∈ F -> 0 < k <= n -> (length F + 1 < fuel)%nat ->
  exists r m' h', malloc_loop fuel k (freep h) (hptr m (freep h)) (m, h) = Some (r, (m', h')) /\ gave lo k F A m h r m' h'.
Proof using.
  intros HK Hin Hk Hf. destruct (round lo F A m h k fuel HK ltac:(lia) Hf) as [(K & b & j & R & -> & Hj & ->)|[Hsm _]].
  - destruct (take_spec lo K b j R A m h k HK) as (r & m' & h' & -> & HG); [lia|]. eauto.
  - specialize (Hsm a n Hin). lia.
Qed.

(** No byte of the heap is lost: it is in a free block or in one in use. *)
Definition full (lo : Z) (F : blocks) (A : gmap Z Z) (h : heapst) : Prop :=
  forall x, lo <= x < brk h -> covers F x \/ exists a n, A !! a = Some n /\ a <= x < a + n * HDR.

(** What [malloc] leaves: the kernel refused and the heap is as it was, or
    there is one more block in use. *)
Definition malloc_done (lo k : Z) (F : blocks) (A : gmap Z Z) (m : mem) (h : heapst) (r : Z) (m' : mem) (h' : heapst) : Prop :=
  brk h <= brk h' /\ kept A m m' /\
  exists F' A', heap_ok lo F' A' m' h' /\ (full lo F A h -> full lo F' A' h') /\
    ((r = 0 /\ A' = A) \/ (HDR < r /\ A !! (r - HDR) = None /\ A' = <[r - HDR := k]> A)).

Lemma gave_done lo k F A m h G m1 h1 r m' h' :
  gave lo k G A m1 h1 r m' h' -> kept A m m1 -> brk h <= brk h1 -> (full lo F A h -> full lo G A h1) ->
  malloc_done lo k F A m h r m' h'.
Proof using.
  intros (F' & H1 & H2 & H3 & H4 & _ & HF) Hk1 Hb Hfull. split; [lia|]. split; [by eapply contents_trans|].
  exists F', (<[r - HDR := k]> A). split_and!; [done| |].
  - intros Hf x Hx. rewrite H3 in Hx. destruct (Hfull Hf x Hx) as [[Hc|Hc]%HF|(a & n & Ha & Hax)].
    + by left.
    + right. exists (r - HDR), k. split; [apply lookup_insert_eq|done].
    + right. exists a, n. split; [|done]. rewrite lookup_insert_ne; [done|congruence].
  - right. split_and!; try done. destruct (hk_used _ _ _ _ _ H1 (r - HDR) k) as (Hl & _); [apply lookup_insert_eq|].
    pose proof (hk_base _ _ _ _ _ H1). unfold HDR in *. lia.
Qed.

Lemma malloc_loop_spec lo F A m h k fuel :
  heap_ok lo F A m h -> 0 < k < 268435456 -> (2 * length F + 4 < fuel)%nat ->
  exists r m' h', malloc_loop fuel k (freep h) (hptr m (freep h)) (m, h) = Some (r, (m', h')) /\ malloc_done lo k F A m h r m' h'.
Proof using.
  intros HK Hk Hf.
  destruct (round lo F A m h k fuel HK ltac:(lia) ltac:(lia)) as [(K & b & j & R & -> & Hj & ->)|[Hsm (f & Hlf & ->)]].
  - destruct (take_spec lo K b j R A m h k HK) as (r & m' & h' & -> & HG); [lia|]. exists r, m', h'. split; [done|]. by eapply gave_done.
  - destruct (morecore_spec lo F A m h k f HK Hk ltac:(lia)) as [->|(m1 & h1 & G & a & n & -> & HG & Hk1 & Hlen & Hin & Hn & Hb & Hc)].
    + exists 0, m, h. split; [done|]. split; [done|]. split; [by intros ?|]. exists F, A. split_and!; [done|done|by left].
    + assert (0 < freep h1).
      { pose proof (hk_base _ _ _ _ _ HG). destruct (hk_freep _ _ _ _ _ HG) as [->|([c j] & -> & Hc')%list_elem_of_fmap]; [lia|].
        destruct (ordered_in _ _ _ _ _ (hk_ord _ _ _ _ _ HG) Hc') as (? & _). cbn. unfold HDR in *. lia. }
      rewrite (proj2 (Z.eqb_neq _ _)) by lia. cbn [fst].
      destruct (search_finds lo G A m1 h1 k f a n HG Hin ltac:(lia) ltac:(lia)) as (r & m' & h' & -> & HGa).
      exists r, m', h'. split; [done|]. eapply gave_done; [exact HGa|done|done|]. intros Hfull x Hx. rewrite Hc.
      destruct (decide (x < brk h)); [destruct (Hfull x ltac:(lia)); tauto|left; right; lia].
Qed.

(** ** Any fuel that is enough gives the same result *)

Lemma free_find_mono m bp : forall f p q f', free_find f m bp p = Some q -> (f <= f')%nat -> free_find f' m bp p = Some q.
Proof using.
  induction f as [|f IH]; intros p q f' E Hf; [done|]. destruct f' as [|f']; [lia|]. cbn [free_find] in E |- *.
  repeat case_match; try done. apply (IH _ _ f'); [done|lia].
Qed.
Lemma free_mono f f' ap s r : free f ap s = Some r -> (f <= f')%nat -> free f' ap s = Some r.
Proof using.
  intros E Hf. destruct s as [m h]. unfold free in E |- *. destruct (free_find f _ _ _) as [p|] eqn:Ef; [|done].
  by rewrite (free_find_mono _ _ _ _ _ f' Ef Hf).
Qed.
Lemma morecore_mono f f' k s r : morecore f k s = Some r -> (f <= f')%nat -> morecore f' k s = Some r.
Proof using.
  intros E Hf. destruct s as [m h]. unfold morecore in E |- *. destruct (sbrk _ _) as [p h'].
  destruct (_ =? MAXPTR); [done|]. cbv zeta in *. destruct (free f _ _) as [[m2 h2]|] eqn:Ef; [|done].
  by rewrite (free_mono _ f' _ _ _ Ef Hf).
Qed.
Lemma malloc_loop_mono k : forall f prevp p s r f',
  malloc_loop f k prevp p s = Some r -> (f <= f')%nat -> malloc_loop f' k prevp p s = Some r.
Proof using.
  induction f as [|f IH]; intros prevp p s r f' E Hf; [done|]. destruct f' as [|f']; [lia|]. cbn [malloc_loop] in E |- *.
  destruct s as [m h]. destruct (_ <=? _); [done|]. destruct (p =? freep h); [|apply (IH _ _ _ _ f'); [done|lia]].
  destruct (morecore f k (m, h)) as [[q s']|] eqn:Em; [|done]. rewrite (morecore_mono _ f' _ _ _ Em) by lia.
  destruct (q =? 0); [done|]. apply (IH _ _ _ _ f'); [done|lia].
Qed.
Lemma malloc_mono f f' n s r : malloc f n s = Some r -> (f <= f')%nat -> malloc f' n s = Some r.
Proof using. destruct s as [m h]. unfold malloc. cbv zeta. destruct (freep h =? 0); apply malloc_loop_mono. Qed.

(** ** The state between calls *)

(** Before the first call [freep] is null and the heap is empty. *)
Definition heap_inv (lo : Z) (F : blocks) (A : gmap Z Z) (m : mem) (h : heapst) : Prop :=
  (freep h = 0 /\ F = [] /\ A = ∅ /\ (0 < a_base /\ a_base + HDR <= lo) /\ lo <= brk h <= TOP) \/ heap_ok lo F A m h.

Lemma units_bound n : 0 <= n < 2147483632 -> 0 < units n < 268435456 /\ n <= (units n - 1) * HDR.
Proof using.
  intros Hn. unfold units. rewrite u32_small by (unfold HDR; lia). unfold HDR.
  pose proof (Z.div_mod (n + 8 - 1) 8 ltac:(lia)). pose proof (Z.mod_pos_bound (n + 8 - 1) 8 ltac:(lia)). lia.
Qed.

Lemma malloc_spec lo F A m h n fuel :
  heap_inv lo F A m h -> 0 <= n < 2147483632 -> (2 * length F + 4 < fuel)%nat ->
  exists r m' h', malloc fuel n (m, h) = Some (r, (m', h')) /\ malloc_done lo (units n) F A m h r m' h'.
Proof using.
  intros [(H0 & -> & -> & Hb & Ht)|HK] Hn Hf; destruct (units_bound n Hn) as [Hu _]; unfold malloc; cbv zeta.
  - rewrite (proj2 (Z.eqb_eq _ _) H0). set (m1 := set_hsize (set_hptr m a_base a_base) a_base 0).
    destruct (malloc_loop_spec lo [] ∅ m1 (mkheap a_base (brk h)) (units n) fuel) as (r & m' & h' & E & D1 & D2 & D3); [|done|done|].
    + assert (hptr m1 a_base = a_base) as E1.
      { unfold m1. rewrite hptr_hsize by (by left). apply hptr_hptr. unfold TOP, HDR in *. lia. }
      constructor; cbn; try done; [by apply hsize_hsize|lia|by left|..]; intros *; by rewrite lookup_empty.
    + exists r, m', h'. split; [exact E|]. split; [done|]. split; [intros ? ?; by rewrite lookup_empty|exact D3].
  - assert (freep h <> 0) as Hne.
    { pose proof (hk_base _ _ _ _ _ HK). destruct (hk_freep _ _ _ _ _ HK) as [->|([c j] & -> & Hc)%list_elem_of_fmap]; [lia|].
      destruct (ordered_in _ _ _ _ _ (hk_ord _ _ _ _ _ HK) Hc) as (? & _). cbn. unfold HDR in *. lia. }
    rewrite (proj2 (Z.eqb_neq _ _) Hne). by apply malloc_loop_spec.
Qed.

(** Only the headers and the free blocks matter. *)
Lemma heap_ok_ext lo F A m m' h :
  heap_ok lo F A m h ->
  (forall x, a_base <= x < a_base + HDR \/ covers F x \/ (exists a n, A !! a = Some n /\ a <= x < a + HDR) -> mget m' x = mget m x) ->
  heap_ok lo F A m' h.
Proof using.
  intros HK He. pose proof HK as [K1 K2 K3 K4 K5 K6 K7 K8].
  assert (forall q, (forall x, q <= x < q + HDR -> mget m' x = mget m x) -> hptr m' q = hptr m q /\ hsize m' q = hsize m q) as Hq.
  { intros q Hq. split; apply load32_ext; intros x Hx; apply Hq; unfold HDR; lia. }
  assert (hptr m' a_base = hptr m a_base /\ hsize m' a_base = hsize m a_base) as Hb.
  { apply Hq. intros x Hx. apply He. by left. }
  constructor; try done.
  - by rewrite (proj2 Hb).
  - eapply seg_ext; [exact K3|]. intros q [->|([a n] & -> & Hin)%list_elem_of_fmap]; [done|]. apply Hq. intros x Hx. apply He.
    right; left. exists a, n. split; [done|]. destruct (ordered_in _ _ _ _ _ K4 Hin) as (_ & ? & _). cbn in Hx. unfold HDR in *. lia.
  - intros a n Ha. destruct (K7 a n Ha) as (A1 & A2 & A3 & A4 & A5). split_and!; try done.
    rewrite <- A4. apply Hq. intros x Hx. apply He. right; right. by exists a, n.
Qed.

(** A store into a block in use, behind its header. *)
Lemma heap_ok_store lo F A m h a n x v :
  heap_ok lo F A m h -> A !! a = Some n -> a + HDR <= x < a + n * HDR -> heap_ok lo F A (<[x := v]> m) h.
Proof using.
  intros HK Ha Hx. destruct (hk_used _ _ _ _ _ HK a n Ha) as (U1 & U2 & U3 & U4 & U5). pose proof (hk_base _ _ _ _ _ HK) as Hb.
  eapply heap_ok_ext; [done|]. intros y Hy. unfold mget. rewrite lookup_insert_ne; [done|]. intros <-.
  destruct Hy as [Hy|[Hy|(b & k & Hbk & Hy)]].
  - unfold HDR in *. lia.
  - apply (U5 x); [unfold HDR in *; lia|done].
  - destruct (decide (a = b)) as [->|Hne]; [unfold HDR in *; lia|].
    destruct (hk_used _ _ _ _ _ HK b k Hbk) as (_ & ? & _). destruct (hk_apart _ _ _ _ _ HK a n b k Ha Hbk Hne); unfold HDR in *; lia.
Qed.

(** ** Programs that use the allocator

    The heap starts at [lo].  [B] maps the pointers the program holds to the
    sizes it asked for.  It may ask for less than 2 GB, free what it holds,
    and write where it may. *)
Inductive client (lo : Z) : gmap Z Z -> mem -> heapst -> Prop :=
| c_start m h : freep h = 0 -> brk h = lo -> client lo ∅ m h
| c_malloc B m h fuel n r m' h' : client lo B m h -> 0 <= n < 2147483632 ->
    malloc fuel n (m, h) = Some (r, (m', h')) -> client lo (if r =? 0 then B else <[r := n]> B) m' h'
| c_free B m h fuel ap n m' h' : client lo B m h -> B !! ap = Some n ->
    free fuel ap (m, h) = Some (m', h') -> client lo (delete ap B) m' h'
| c_store B m h ap n x v : client lo B m h -> B !! ap = Some n -> ap <= x < ap + n -> client lo B (<[x := v]> m) h.

(** The bytes the program may use. *)
Definition bytes_kept (B : gmap Z Z) (m m' : mem) : Prop :=
  forall ap n x, B !! ap = Some n -> ap <= x < ap + n -> mget m' x = mget m x.

Definition holds (B A : gmap Z Z) : Prop :=
  (forall a, A !! a = units <$> B !! (a + HDR)) /\ forall ap n, B !! ap = Some n -> 0 <= n < 2147483632.

Lemma holds_at B A ap n : holds B A -> B !! ap = Some n ->
  A !! (ap - HDR) = Some (units n) /\ n <= (units n - 1) * HDR.
Proof using.
  intros [HA HB] Ha. split; [rewrite HA, Z.sub_add, Ha; done|]. by apply units_bound, (HB ap).
Qed.
Lemma holds_insert B A r n : holds B A -> 0 <= n < 2147483632 -> holds (<[r := n]> B) (<[r - HDR := units n]> A).
Proof using.
  intros [HA HB] Hn. split.
  - intros a. destruct (decide (a = r - HDR)) as [->|Hne].
    + by rewrite lookup_insert_eq, Z.sub_add, lookup_insert_eq.
    + rewrite lookup_insert_ne by done. rewrite lookup_insert_ne by lia. apply HA.
  - intros ap k [[_ <-]|[_ Hk]]%lookup_insert_Some; [done|by apply (HB ap)].
Qed.
Lemma holds_delete B A ap : holds B A -> holds (delete ap B) (delete (ap - HDR) A).
Proof using.
  intros [HA HB]. split.
  - intros a. destruct (decide (a = ap - HDR)) as [->|Hne].
    + by rewrite lookup_delete_eq, Z.sub_add, lookup_delete_eq.
    + rewrite lookup_delete_ne by done. rewrite lookup_delete_ne by lia. apply HA.
  - intros b k [_ Hk]%lookup_delete_Some. by apply (HB b).
Qed.
Lemma holds_kept B A m m' : holds B A -> kept A m m' -> bytes_kept B m m'.
Proof using.
  intros HB Hk ap n x Ha Hx. destruct (holds_at B A ap n HB Ha) as [H1 H2]. apply (Hk (ap - HDR) (units n)); [done|].
  unfold HDR in *. lia.
Qed.

Definition client_inv (lo : Z) (B : gmap Z Z) (m : mem) (h : heapst) : Prop :=
  exists F A, heap_inv lo F A m h /\ full lo F A h /\ holds B A.

Lemma heap_inv_used lo F A m h a n : heap_inv lo F A m h -> A !! a = Some n -> heap_ok lo F A m h.
Proof using. intros [(_ & _ & -> & _)|HK] Ha; [by rewrite lookup_empty in Ha|done]. Qed.

Lemma full_free lo F A h h' bp n G :
  full lo F A h -> A !! bp = Some n -> brk h' = brk h -> (forall x, covers G x <-> covers F x \/ bp <= x < bp + n * HDR) ->
  full lo G (delete bp A) h'.
Proof using.
  intros Hf Ha Hb HG x Hx. rewrite Hb in Hx. destruct (Hf x Hx) as [Hc|(a & k & Hak & Hxa)]; [left; apply HG; by left|].
  destruct (decide (a = bp)) as [->|Hne]; [left; apply HG; right; congruence|].
  right. exists a, k. by rewrite lookup_delete_ne.
Qed.

Lemma client_malloc lo B m h n fuel F A :
  heap_inv lo F A m h -> full lo F A h -> holds B A -> 0 <= n < 2147483632 -> (2 * length F + 4 < fuel)%nat ->
  exists r m' h', malloc fuel n (m, h) = Some (r, (m', h')) /\ client_inv lo (if r =? 0 then B else <[r := n]> B) m' h' /\
    bytes_kept B m m' /\ brk h <= brk h' /\ B !! r = None.
Proof using.
  intros HI Hf HB Hn Hfu. destruct (malloc_spec lo F A m h n fuel HI Hn Hfu) as (r & m' & h' & E & D1 & D2 & F' & A' & D3 & D4 & D5).
  exists r, m', h'. split; [done|]. destruct D5 as [[-> ->]|(Hr & HA & ->)].
  - split; [exists F', A; split_and!; [by right|by apply D4|done]|]. split; [by eapply holds_kept|]. split; [done|].
    destruct (B !! 0) as [k|] eqn:E0; [|done]. destruct (holds_at B A 0 k HB E0) as [H1 H2].
    destruct (hk_used _ _ _ _ _ D3 _ _ H1) as (? & _). pose proof (hk_base _ _ _ _ _ D3). unfold HDR in *. lia.
  - rewrite (proj2 (Z.eqb_neq r 0)) by (unfold HDR in *; lia). split; [|split; [by eapply holds_kept|split; [done|]]].
    + exists F', (<[r - HDR := units n]> A). split_and!; [by right|by apply D4|by apply holds_insert].
    + destruct HB as [HB _]. rewrite HB, Z.sub_add in HA. by destruct (B !! r).
Qed.

Lemma client_free lo B m h ap n fuel F A :
  heap_inv lo F A m h -> full lo F A h -> holds B A -> B !! ap = Some n -> (length F + 1 < fuel)%nat ->
  exists m' h', free fuel ap (m, h) = Some (m', h') /\ client_inv lo (delete ap B) m' h' /\ bytes_kept (delete ap B) m m'.
Proof using.
  intros HI Hf HB Hap Hfu. destruct (holds_at B A ap n HB Hap) as [H1 H2]. pose proof (heap_inv_used _ _ _ _ _ _ _ HI H1) as HK.
  destruct (free_spec lo F A m h (ap - HDR) (units n) fuel HK H1 Hfu) as (m' & h' & G & E & D1 & D2 & D3 & D4 & D5).
  rewrite Z.sub_add in E. exists m', h'. split; [done|]. split.
  - exists G, (delete (ap - HDR) A). split_and!; [by right|by eapply full_free|by apply holds_delete].
  - eapply holds_kept; [by apply holds_delete|done].
Qed.

Context (lo : Z) (base_low : 0 < a_base /\ a_base + HDR <= lo) (lo_top : lo <= TOP).

Lemma client_ok B m h : client lo B m h -> client_inv lo B m h.
Proof using base_low lo_top.
  induction 1 as [m h H0 Hb|B m h fuel n r m' h' _ (F & A & HI & Hf & HB) Hn E
    |B m h fuel ap n m' h' _ (F & A & HI & Hf & HB) Hap E|B m h ap n x v _ (F & A & HI & Hf & HB) Hap Hx].
  - exists [], ∅. split; [left; split_and!; try done; lia|]. split; [intros x Hx; lia|]. split.
    + intros a. by rewrite !lookup_empty.
    + intros ap n Ha. by rewrite lookup_empty in Ha.
  - destruct (client_malloc lo B m h n (fuel + 2 * length F + 5) F A) as (r2 & m2 & h2 & E2 & H2 & _); try done; [lia|].
    rewrite (malloc_mono fuel (fuel + 2 * length F + 5) _ _ _ E) in E2 by lia. by injection E2 as <- <- <-.
  - destruct (client_free lo B m h ap n (fuel + length F + 2) F A) as (m2 & h2 & E2 & H2 & _); try done; [lia|].
    rewrite (free_mono fuel (fuel + length F + 2) _ _ _ E) in E2 by lia. by injection E2 as <- <-.
  - destruct (holds_at B A ap n HB Hap) as [H1 H2]. pose proof (heap_inv_used _ _ _ _ _ _ _ HI H1) as HK.
    exists F, A. split; [right|done]. eapply heap_ok_store; [done|done|]. unfold HDR in *. lia.
Qed.

Lemma client_apart B m h ap n bp k :
  client_inv lo B m h -> B !! ap = Some n -> B !! bp = Some k -> ap <> bp ->
  lo <= ap - HDR /\ ap + n <= brk h /\ (ap + n <= bp - HDR \/ bp + k <= ap - HDR).
Proof using.
  intros (F & A & HI & _ & HB) Ha Hb Hne. destruct (holds_at B A ap n HB Ha) as [A1 A2]. destruct (holds_at B A bp k HB Hb) as [B1 B2].
  pose proof (heap_inv_used _ _ _ _ _ _ _ HI A1) as HK. destruct (hk_used _ _ _ _ _ HK _ _ A1) as (? & ? & ? & _).
  destruct (hk_apart _ _ _ _ _ HK _ _ _ _ A1 B1) as [?|?]; [lia|unfold HDR in *; lia|unfold HDR in *; lia].
Qed.

(** C19: Every call of [malloc] and [free] returns.  A block [malloc] gives is
    inside the heap and apart from all blocks the program holds, and neither
    call changes a byte of the blocks it goes on holding. *)
Theorem malloc_free_correct B m h :
  client lo B m h ->
  (forall n, 0 <= n < 2147483632 -> exists fuel r m' h', malloc fuel n (m, h) = Some (r, (m', h')) /\ bytes_kept B m m' /\
     (r = 0 \/ B !! r = None /\ lo <= r /\ r + n <= brk h' /\ forall ap k, B !! ap = Some k -> r + n <= ap \/ ap + k <= r)) /\
  (forall ap k, B !! ap = Some k -> exists fuel m' h', free fuel ap (m, h) = Some (m', h') /\ bytes_kept (delete ap B) m m').
Proof using base_low lo_top.
  intros (F & A & HI & Hf & HB)%client_ok. split.
  - intros n Hn. destruct (client_malloc lo B m h n (2 * length F + 5) F A) as (r & m' & h' & E & HC & Hk & Hb & Hr); try done; [lia|].
    exists (2 * length F + 5)%nat, r, m', h'. split; [done|]. split; [done|].
    destruct (Z.eqb_spec r 0) as [->|Hne]; [by left|right].
    pose proof HC as (F' & A' & HI' & _ & HB').
    destruct (holds_at _ _ r n HB' (lookup_insert_eq _ _ _)) as [A1 A2]. pose proof (heap_inv_used _ _ _ _ _ _ _ HI' A1) as HK.
    destruct (hk_used _ _ _ _ _ HK _ _ A1) as (? & ? & ? & _).
    split_and!; [done|unfold HDR in *; lia|unfold HDR in *; lia|]. intros ap k Hap.
    assert (r <> ap) as Hrap by congruence.
    destruct (client_apart _ m' h' r n ap k HC) as (_ & _ & [?|?]); [apply lookup_insert_eq|by rewrite lookup_insert_ne|done|..]; unfold HDR in *; lia.
  - intros ap k Hap. destruct (client_free lo B m h ap k (length F + 2) F A) as (m' & h' & E & _ & Hk); try done; [lia|]. eauto.
Qed.

(** C20: When the program has freed everything, the free blocks have been joined
    again: the list is one block, the whole heap. *)
Theorem freed_coalesced m h :
  client lo ∅ m h -> brk h <> lo ->
  hptr m a_base = lo /\ hptr m lo = a_base /\ lo + hsize m lo * HDR = brk h.
Proof using base_low lo_top.
  intros (F & A & HI & Hf & [HA _])%client_ok Hne.
  assert (lo <= brk h) as Hle by (destruct HI as [(_ & _ & _ & _ & ?)|HK]; [lia|apply HK]).
  assert (forall x, lo <= x < brk h -> covers F x) as Hc.
  { intros x Hx. destruct (Hf x Hx) as [?|(a & n & Ha & _)]; [done|]. by rewrite HA, lookup_empty in Ha. }
  destruct F as [|[a n] R]; [destruct (Hc lo ltac:(lia)) as (? & ? & Hin & _); by apply elem_of_nil in Hin|].
  destruct HI as [(_ & E & _)|HK]; [done|]. destruct HK as [_ _ (S1 & S2 & S3) (O1 & O2 & O3) _ _ _ _].
  pose proof (ordered_le _ _ _ O3) as Hle2.
  assert (forall x, x <= a + n * HDR -> ~ covers R x) as HR by (intros x Hx Hcx; apply (covers_range _ _ _ _ O3) in Hcx; lia).
  assert (a = lo) as ->.
  { specialize (Hc lo ltac:(lia)). apply covers_cons in Hc as [?|Hcx]; [lia|]. exfalso. apply (HR lo); [unfold HDR in *; lia|done]. }
  assert (lo + n * HDR = brk h) as Hn.
  { destruct (decide (lo + n * HDR = brk h)); [done|]. exfalso.
    specialize (Hc (lo + n * HDR) ltac:(unfold HDR in *; lia)). apply covers_cons in Hc as [?|Hcx]; [lia|]. by apply (HR (lo + n * HDR)). }
  rewrite S2. split_and!; [done| |done]. destruct R as [|[b j] R]; [done|]. exfalso.
  destruct O3 as (? & ? & O3). apply ordered_le in O3. unfold HDR in *. lia.
Qed.

(** A request of almost 4 GB is rounded up to one unit: [nbytes + 7] wraps. *)
Lemma malloc_huge fuel n s : 4294967289 <= n < 4294967296 -> malloc fuel n s = malloc fuel 0 s.
Proof using.
  intros Hn. assert (units n = units 0) as E; [|by unfold malloc; rewrite E].
  unfold units. replace (u32 (n + HDR - 1)) with (n - 4294967289).
  - rewrite Z.div_small by (unfold HDR; lia). done.
  - unfold u32, HDR. apply (Z.mod_unique_pos _ _ 1); lia.
Qed.
End Umalloc.

(** ** An example *)

(** [base] is at 4096, and the kernel grants every request below 1 MB. *)
Definition heap_example : Heap.
Proof.
  refine {| a_base := 4096; grants b n := b + n <=? 1048576 |}.
  intros b n _ H%Z.leb_le. lia.
Defined.

Section Example.
#[local] Existing Instance heap_example.

Lemma base_example : 0 < a_base /\ a_base + HDR <= 8192.
Proof. unfold HDR. cbn. lia. Qed.
Lemma top_example : 8192 <= TOP.
Proof. unfold TOP. lia. Qed.

(** Two blocks are allocated, and the first is freed again. *)
Definition no_heap : mem * heapst := (∅, mkheap 0 0).
Definition state_one : mem * heapst := from_option snd no_heap (malloc 9 100 (∅, mkheap 0 8192)).
Definition state_two : mem * heapst := from_option snd no_heap (malloc 9 50 state_one).
Definition state_example : mem * heapst := default no_heap (free 9 40856 state_two).

Lemma run_one : malloc 9 100 (∅, mkheap 0 8192) = Some (40856, state_one).
Proof. vm_compute. reflexivity. Qed.
Lemma run_two : malloc 9 50 state_one = Some (40792, state_two).
Proof. vm_compute. reflexivity. Qed.
Lemma run_example : free 9 40856 state_two = Some state_example.
Proof. vm_compute. reflexivity. Qed.

Lemma client_example : client 8192 {[ 40792 := 50 ]} (fst state_example) (snd state_example).
Proof.
  change ({[ 40792 := 50 ]} : gmap Z Z) with (delete 40856 (<[40792 := 50]> (<[40856 := 100]> ∅)) : gmap Z Z).
  pose proof run_one as E1. pose proof run_two as E2. pose proof run_example as E3.
  destruct state_one as [m1 h1], state_two as [m2 h2], state_example as [m3 h3].
  apply (c_free 8192 _ m2 h2 9 40856 100); [|reflexivity|exact E3].
  apply (c_malloc 8192 _ m1 h1 9 50 40792 m2 h2); [|lia|exact E2].
  apply (c_malloc 8192 ∅ ∅ (mkheap 0 8192) 9 100 40856 m1 h1); [by apply c_start|lia|exact E1].
Qed.

Lemma malloc_free_correct_witness :
  exists fuel m' h', free fuel 40792 (fst state_example, snd state_example) = Some (m', h') /\ bytes_kept (delete 40792 {[ 40792 := 50 ]}) (fst state_example) m'.
Proof.
  destruct (malloc_free_correct 8192 base_example top_example
    {[ 40792 := 50 ]} (fst state_example) (snd state_example) client_example) as [_ H].
  exact (H 40792 50 eq_refl).
Defined.

Definition freed_example : mem * heapst := default no_heap (free 9 40792 state_example).
Lemma run_freed : free 9 40792 state_example = Some freed_example.
Proof. vm_compute. reflexivity. Qed.
Lemma client_freed : client 8192 ∅ (fst freed_example) (snd freed_example).
Proof.
  change (∅ : gmap Z Z) with (delete 40792 {[ 40792 := 50 ]} : gmap Z Z).
  pose proof run_freed as E. pose proof client_example as C. destruct state_example as [m3 h3], freed_example as [m4 h4].
  by apply (c_free 8192 _ _ _ 9 40792 50 _ _ C).
Qed.
Lemma brk_freed : brk (snd freed_example) = 40960.
Proof. vm_compute. reflexivity. Qed.

Lemma freed_coalesced_witness : hptr (fst freed_example) 8192 = 4096 /\ 8192 + hsize (fst freed_example) 8192 * HDR = 40960.
Proof.
  destruct (freed_coalesced 8192 base_example top_example
    (fst freed_example) (snd freed_example) client_freed ltac:(rewrite brk_freed; lia)) as (_ & H2 & H3).
  split; [exact H2|]. rewrite H3. exact brk_freed.
Defined.
End Example.
