(* ===== verification/Uthread.v ===== *)
(** * uthread.c: user-level threads and binary semaphores

    The library runs in one process.  Its state is the record [ust]: the
    globals of uthread.c, the process's memory and heap, and the part of
    the kernel's state the library drives with [signal], [sigsend] and
    [alarm] (the alarm signal).  A switch happens in [uthread_schedule],
    which the kernel runs as the handler of the alarm signal: it finds the
    interrupted thread's trap frame on the stack ([sigframe]) and leaves
    there the frame of the thread to go on with, which [sigreturn] loads. *)

From stdpp Require Import base numbers list gmap strings.
From S2P Require Import Prelude Kernel Sched Kalloc.

(** ** Data *)

Definition MAX_UTHREADS : nat := 64.
Definition SIGALRM : Z := 14.
Definition UTHREAD_QUANTA : Z := 5.
Definition STACKSZ : Z := 4096.
Definition MAX_BSEM : nat := 128.

Inductive thread_state := RUNNING | READY | SLEEPING | BLOCKED | TERMINATED.
#[export] Instance thread_state_eq_dec : EqDecision thread_state.
Proof. solve_decision. Defined.

(** uthread.h: struct threadtrapframe has the fields of struct trapframe. *)
Definition threadtrapframe : Type := trapframe.

(** uthread.h: struct thread.  [joinOnTid] is unsigned. *)
Record thread := mkthread {
  tid : Z;
  stack : Z;
  t_state : thread_state;
  t_tf : threadtrapframe;
  indexInThreadtable : Z;
  wakeUpTime : Z;
  blockedOnSemaphore : Z;
  joinOnTid : Z;
}.
Definition eta_thread (t : thread) : thread :=
  mkthread (tid t) (stack t) (t_state t) (t_tf t) (indexInThreadtable t)
    (wakeUpTime t) (blockedOnSemaphore t) (joinOnTid t).
Definition set_tid : Z -> thread -> thread := ltac:(mk_setter eta_thread tid).
Definition set_stack : Z -> thread -> thread := ltac:(mk_setter eta_thread stack).
Definition set_t_state : thread_state -> thread -> thread := ltac:(mk_setter eta_thread t_state).
Definition set_t_tf : threadtrapframe -> thread -> thread := ltac:(mk_setter eta_thread t_tf).
Definition set_indexInThreadtable : Z -> thread -> thread :=
  ltac:(mk_setter eta_thread indexInThreadtable).
Definition set_wakeUpTime : Z -> thread -> thread := ltac:(mk_setter eta_thread wakeUpTime).
Definition set_blockedOnSemaphore : Z -> thread -> thread :=
  ltac:(mk_setter eta_thread blockedOnSemaphore).
Definition set_joinOnTid : Z -> thread -> thread := ltac:(mk_setter eta_thread joinOnTid).

(** An entry of the zero-initialised table. *)
Definition thread_zero : thread := mkthread 0 0 RUNNING tf_zero 0 0 0 0.

(** What the library needs of malloc and free (umalloc.c): they work on
    the process's memory and on state of their own. *)
Class Malloc := {
  heap : Type;
  malloc : Z -> gmap Z Z * heap -> Z * (gmap Z Z * heap);
  free : Z -> gmap Z Z * heap -> gmap Z Z * heap;
}.

(** Addresses of the library's functions. *)
Class ULink := {
  a_uthread_exit : Z;
  a_alarmHandler : Z;
}.

Section Uthread.
Context {ML : Malloc} {UL : ULink}.

(** [clock] are the values the next calls of [uptime] return ([now] when
    it is used up); [alarm_on] says that the alarm signal is pending and
    [alarm_end] from which tick on it is delivered; [out] is what was
    printed to file descriptor 2. *)
Record ust := mkust {
  threadTable : list thread;
  nexttid : Z;
  ct : option nat;
  threadSystemOn : bool;
  semaphores : list Z;
  sigframe : threadtrapframe;
  umem : gmap Z Z * heap;
  clock : list Z;
  now : Z;
  alarm_on : bool;
  alarm_end : Z;
  alarm_handler : Z;
  out : list string;
}.
Definition eta_ust (s : ust) : ust :=
  mkust (threadTable s) (nexttid s) (ct s) (threadSystemOn s) (semaphores s) (sigframe s) (umem s)
    (clock s) (now s) (alarm_on s) (alarm_end s) (alarm_handler s) (out s).
Definition set_threadTable : list thread -> ust -> ust := ltac:(mk_setter eta_ust threadTable).
Definition set_nexttid : Z -> ust -> ust := ltac:(mk_setter eta_ust nexttid).
Definition set_ct : option nat -> ust -> ust := ltac:(mk_setter eta_ust ct).
Definition set_threadSystemOn : bool -> ust -> ust := ltac:(mk_setter eta_ust threadSystemOn).
Definition set_semaphores : list Z -> ust -> ust := ltac:(mk_setter eta_ust semaphores).
Definition set_sigframe : threadtrapframe -> ust -> ust := ltac:(mk_setter eta_ust sigframe).
Definition set_umem : gmap Z Z * heap -> ust -> ust := ltac:(mk_setter eta_ust umem).
Definition set_clock : list Z -> ust -> ust := ltac:(mk_setter eta_ust clock).
Definition set_now : Z -> ust -> ust := ltac:(mk_setter eta_ust now).
Definition set_alarm_on : bool -> ust -> ust := ltac:(mk_setter eta_ust alarm_on).
Definition set_alarm_end : Z -> ust -> ust := ltac:(mk_setter eta_ust alarm_end).
Definition set_alarm_handler : Z -> ust -> ust := ltac:(mk_setter eta_ust alarm_handler).
Definition set_out : list string -> ust -> ust := ltac:(mk_setter eta_ust out).

(** ** A monad for library code

    A call returns, or ends the process ([exit]), or spins for ever, or
    dereferences a null [ct] or an index outside an array. *)
Inductive ures (A : Type) :=
| URet (a : A) (s : ust)
| UExit (s : ust)
| USpin
| UBad.
#[global] Arguments URet {A} a s.
#[global] Arguments UExit {A} s.
#[global] Arguments USpin {A}.
#[global] Arguments UBad {A}.

Definition U (A : Type) : Type := ust -> ures A.
Definition uret {A} (a : A) : U A := fun s => URet a s.
Definition ubind {A B} (m : U A) (f : A -> U B) : U B := fun s =>
  match m s with
  | URet a s' => f a s'
  | UExit s' => UExit s'
  | USpin => USpin
  | UBad => UBad
  end.
Definition ugets {A} (f : ust -> A) : U A := fun s => URet (f s) s.
Definition umod (f : ust -> ust) : U unit := fun s => URet tt (f s).
Definition uwhen (b : bool) (m : U unit) : U unit := if b then m else uret tt.
End Uthread.

Declare Scope uthread_scope.
Delimit Scope uthread_scope with uthread.
Notation "'let*' x := m 'in' k" := (ubind m (fun x => k))
  (at level 200, x name, right associativity) : uthread_scope.
Notation "m ;* k" := (ubind m (fun _ => k))
  (at level 100, right associativity) : uthread_scope.
#[global] Open Scope uthread_scope.

(** ** Operations *)

Section Operations.
Context {ML : Malloc} {UL : ULink}.

(** System calls, as the library sees them (sysproc.c, proc.c). *)
Definition alarm (n : Z) : U unit := fun s =>
  URet tt (if n =? 0 then set_alarm_on false s
           else set_alarm_end (u32 (now s + n)) (set_alarm_on true s)).
Definition sigsend_alrm : U unit := umod (fun s => set_alarm_end 0 (set_alarm_on true s)).
Definition signal_alrm (h : Z) : U unit := umod (set_alarm_handler h).
Definition uptime : U Z := fun s =>
  match clock s with
  | [] => URet (now s) s
  | t :: c => URet t (set_now t (set_clock c s))
  end.
Definition exit {A} : U A := fun s => UExit s.

Definition thread_at (i : nat) : U thread := fun s =>
  match threadTable s !! i with Some t => URet t s | None => UBad end.
Definition mod_thread (i : nat) (f : thread -> thread) : U unit :=
  umod (fun s => set_threadTable (upd i f (threadTable s)) s).
Definition the_ct : U nat := fun s =>
  match ct s with Some i => URet i s | None => UBad end.

Definition printError : U unit :=
  umod (fun s => set_out (out s ++ ["Thread System Uninitialized"]%string) s).

Definition joinNone : Z := u32 (-1).

Definition initThreadTable : U unit :=
  umod (fun s => set_threadTable
    ((fun t => set_joinOnTid joinNone (set_blockedOnSemaphore (-1) (set_t_state TERMINATED t)))
       <$> threadTable s) s).

(** The loop of [chooseNextThread], over the offsets [i]. *)
Fixpoint choose_loop (startLoc : Z) (offs : list Z) : U Z :=
  match offs with
  | [] =>
      let* c := the_ct in
      let* t := thread_at c in
      uret (if bool_decide (t_state t = RUNNING) then startLoc else -1)
  | i :: offs' =>
      let currLoc := Z.rem (startLoc + i) (Z.of_nat MAX_UTHREADS) in
      let* t := thread_at (Z.to_nat currLoc) in
      (if bool_decide (t_state t = SLEEPING) then
         let* u := uptime in
         uwhen (wakeUpTime t <=? u) (mod_thread (Z.to_nat currLoc) (set_t_state READY))
       else uret tt) ;*
      let* t := thread_at (Z.to_nat currLoc) in
      if bool_decide (t_state t = READY) then uret currLoc
      else choose_loop startLoc offs'
  end.

Definition chooseNextThread : U Z :=
  let* c := the_ct in
  let* t := thread_at c in
  choose_loop (indexInThreadtable t) (seqZ 1 (Z.of_nat MAX_UTHREADS)).

Definition getThreadCount : U Z := ugets (fun s =>
  Z.of_nat (length (filter (fun t => t_state t <> TERMINATED) (threadTable s)))).

Definition uthread_sleep (ticks : Z) : U Z :=
  let* on := ugets threadSystemOn in
  if negb on then printError ;* uret (-1) else
  let* c := the_ct in
  let* u := uptime in
  mod_thread c (set_wakeUpTime (s32 (ticks + u))) ;*
  mod_thread c (set_t_state SLEEPING) ;*
  sigsend_alrm ;*
  uret 0.

(** The part of [uthread_join] after the thread was found to be alive. *)
Definition join_block (t : thread) : U unit :=
  let* c := the_ct in
  mod_thread c (set_joinOnTid (u32 (tid t))) ;*
  mod_thread c (set_t_state BLOCKED) ;*
  sigsend_alrm.

Definition uthread_join (tid' : Z) : U unit :=
  let* on := ugets threadSystemOn in
  if negb on then printError else
  let* i := ugets (fun s => find_idx (fun t => tid' =? tid t) (threadTable s)) in
  match i with
  | None => uret tt
  | Some i =>
      let* t := thread_at i in
      if bool_decide (t_state t = TERMINATED) then uret tt else join_block t
  end.

(** Entries that wait for thread [tid'] become ready. *)
Definition release_joiners (tid' : Z) (t : thread) : thread :=
  if joinOnTid t =? u32 tid' then set_t_state READY (set_joinOnTid joinNone t) else t.

Definition ufree (p : Z) : U unit := umod (fun s => set_umem (free p (umem s)) s).

Definition uthread_exit : U unit :=
  let* on := ugets threadSystemOn in
  if negb on then printError else
  let* n := getThreadCount in
  let* c := the_ct in
  let* t := thread_at c in
  (if n =? 1 then
     uwhen (negb (tid t =? 0)) (ufree (stack t)) ;* exit
   else uret tt) ;*
  umod (fun s => set_threadTable (release_joiners (tid t) <$> threadTable s) s) ;*
  uwhen (negb (tid t =? 0)) (ufree (stack t)) ;*
  mod_thread c (set_t_state TERMINATED) ;*
  sigsend_alrm.

(** [while (nextThread == -1)]: every round that reads the clock uses up
    a value of it, and a round that does not changes nothing, so
    [S (length clock)] rounds decide whether the loop ends. *)
Fixpoint choose_spin (n : nat) : U Z :=
  match n with
  | O => fun _ => USpin
  | S n' =>
      let* nextThread := chooseNextThread in
      if nextThread =? -1 then choose_spin n' else uret nextThread
  end.

Definition uthread_schedule : U unit :=
  let* c := the_ct in
  let* fr := ugets sigframe in
  mod_thread c (set_t_tf fr) ;*
  let* t := thread_at c in
  uwhen (bool_decide (t_state t = RUNNING)) (mod_thread c (set_t_state READY)) ;*
  let* nextThread := (fun s => choose_spin (S (length (clock s))) s) in
  umod (set_ct (Some (Z.to_nat nextThread))) ;*
  let* t := thread_at (Z.to_nat nextThread) in
  umod (set_sigframe (t_tf t)) ;*
  mod_thread (Z.to_nat nextThread) (set_t_state RUNNING) ;*
  alarm UTHREAD_QUANTA.

Definition alarmHandler (sigNum : Z) : U unit := uthread_schedule.

Definition getNextSpot : U Z := ugets (fun s =>
  match find_idx (fun t => bool_decide (t_state t = TERMINATED)) (threadTable s) with
  | Some i => Z.of_nat i
  | None => -1
  end).

Definition ustore32 (a v : Z) : U unit :=
  umod (fun s => let (m, h) := umem s in set_umem (store32 m a (u32 v), h) s).

Definition umalloc (n : Z) : U Z := fun s =>
  let (p, mh) := malloc n (umem s) in URet p (set_umem mh s).

(** The part of [uthread_create] after a free entry was found. *)
Definition create_at (ttableLoc threadEntry arg : Z) : U Z :=
  let i := Z.to_nat ttableLoc in
  let* n := ugets nexttid in
  mod_thread i (set_tid n) ;*
  umod (set_nexttid (s32 (n + 1))) ;*
  mod_thread i (set_joinOnTid joinNone) ;*
  let* stk := umalloc STACKSZ in
  mod_thread i (set_stack stk) ;*
  let* c := the_ct in
  let* cur := thread_at c in
  mod_thread i (set_t_tf (t_tf cur)) ;*
  mod_thread i (fun t => set_t_tf (set_esp (u32 (stack t + STACKSZ)) (t_tf t)) t) ;*
  mod_thread i (fun t => set_t_tf (set_ebp (tf_esp (t_tf t)) (t_tf t)) t) ;*
  mod_thread i (fun t => set_t_tf (set_eip threadEntry (t_tf t)) t) ;*
  mod_thread i (set_indexInThreadtable ttableLoc) ;*
  mod_thread i (fun t => set_t_tf (set_esp (u32 (tf_esp (t_tf t) - 4)) (t_tf t)) t) ;*
  let* t := thread_at i in
  ustore32 (tf_esp (t_tf t)) arg ;*
  mod_thread i (fun t => set_t_tf (set_esp (u32 (tf_esp (t_tf t) - 4)) (t_tf t)) t) ;*
  let* t := thread_at i in
  ustore32 (tf_esp (t_tf t)) a_uthread_exit ;*
  mod_thread i (set_t_state READY) ;*
  uret 0.

Definition uthread_create (threadEntry arg : Z) : U Z :=
  let* on := ugets threadSystemOn in
  if negb on then printError ;* uret (-1) else
  let* ttableLoc := getNextSpot in
  if ttableLoc =? -1 then uret (-1) else
  create_at ttableLoc threadEntry arg.

Definition uthread_init : U Z :=
  let* on := ugets threadSystemOn in
  if (on : bool) then uret (-1) else
  umod (set_threadSystemOn true) ;*
  initThreadTable ;*
  let* n := ugets nexttid in
  mod_thread 0 (set_tid n) ;*
  umod (set_nexttid (s32 (n + 1))) ;*
  mod_thread 0 (set_indexInThreadtable 0) ;*
  mod_thread 0 (set_t_state RUNNING) ;*
  mod_thread 0 (set_joinOnTid joinNone) ;*
  umod (set_ct (Some 0%nat)) ;*
  signal_alrm a_alarmHandler ;*
  sigsend_alrm ;*
  uret 0.

Definition uthread_self : U Z :=
  let* c := the_ct in let* t := thread_at c in uret (tid t).

(** ** Binary semaphores *)

Definition sem_at (n : Z) : U Z := fun s =>
  if n <? 0 then UBad else
  match semaphores s !! Z.to_nat n with Some v => URet v s | None => UBad end.
Definition set_sem (n v : Z) : U unit := fun s =>
  if n <? 0 then UBad else
  match semaphores s !! Z.to_nat n with
  | Some _ => URet tt (set_semaphores (<[Z.to_nat n := v]> (semaphores s)) s)
  | None => UBad
  end.

Definition bsem_alloc : U Z :=
  let* i := ugets (fun s => find_idx (fun v => v =? -1) (semaphores s)) in
  match i with
  | Some i => set_sem (Z.of_nat i) 1 ;* uret (Z.of_nat i)
  | None => uret (-1)
  end.

Definition release_waiter (semNum : Z) (t : thread) : thread :=
  if blockedOnSemaphore t =? semNum then set_t_state READY (set_blockedOnSemaphore (-1) t) else t.

Definition bsem_free (semNum : Z) : U unit :=
  umod (fun s => set_threadTable (release_waiter semNum <$> threadTable s) s) ;*
  set_sem semNum (-1).

Definition bsem_down (semNum : Z) : U unit :=
  let* v := sem_at semNum in
  if v =? -1 then uret tt else
  alarm 0 ;*
  let* v := sem_at semNum in
  if v =? 0 then
    let* c := the_ct in
    mod_thread c (set_blockedOnSemaphore semNum) ;*
    mod_thread c (set_t_state BLOCKED) ;*
    sigsend_alrm
  else
    set_sem semNum 0 ;*
    alarm UTHREAD_QUANTA.

Definition bsem_up (semNum : Z) : U unit :=
  let* v := sem_at semNum in
  if v =? -1 then uret tt else
  alarm 0 ;*
  let* i := ugets (fun s => find_idx (fun t => blockedOnSemaphore t =? semNum) (threadTable s)) in
  match i with
  | Some i =>
      mod_thread i (set_blockedOnSemaphore (-1)) ;*
      mod_thread i (set_t_state READY)
  | None => set_sem semNum 1
  end ;*
  alarm UTHREAD_QUANTA.
End Operations.

(** ** Running library code *)

Lemma ubind_ok `{Malloc} {A B} (m : U A) (f : A -> U B) s a s' :
  m s = URet a s' -> ubind m f s = f a s'.
Proof. unfold ubind. by intros ->. Qed.
Lemma ubind_gets `{Malloc} {A B} (g : ust -> A) (f : A -> U B) s : ubind (ugets g) f s = f (g s) s.
Proof. done. Qed.
Lemma ubind_mod `{Malloc} {B} g (f : unit -> U B) s : ubind (umod g) f s = f tt (g s).
Proof. done. Qed.
Lemma ubind_ret `{Malloc} {A B} (a : A) (f : A -> U B) s : ubind (uret a) f s = f a s.
Proof. done. Qed.
Lemma ubind_assoc `{Malloc} {A B C} (m : U A) (f : A -> U B) (g : B -> U C) s :
  ubind (ubind m f) g s = ubind m (fun a => ubind (f a) g) s.
Proof. unfold ubind. by destruct (m s). Qed.

Create HintDb uthread.
#[export] Hint Rewrite @ubind_gets @ubind_mod @ubind_ret @ubind_assoc : uthread.
Ltac ustep := autorewrite with uthread.

Section Facts.
Context {ML : Malloc} {UL : ULink}.

Lemma the_ct_run s c : ct s = Some c -> the_ct s = URet c s.
Proof. unfold the_ct. by intros ->. Qed.
Lemma thread_at_run s i t : threadTable s !! i = Some t -> thread_at i s = URet t s.
Proof. unfold thread_at. by intros ->. Qed.

(** ** The invariant of the library *)

Definition live (t : thread) : Prop := t_state t <> TERMINATED.

Record uinv (s : ust) : Prop := {
  ui_len : length (threadTable s) = MAX_UTHREADS;
  ui_sems : length (semaphores s) = MAX_BSEM;
  ui_ct : exists c t, ct s = Some c /\ threadTable s !! c = Some t /\
    indexInThreadtable t = Z.of_nat c;
  ui_next : 0 <= nexttid s <= 2147483647;
  ui_idx : forall i t, threadTable s !! i = Some t -> live t ->
    indexInThreadtable t = Z.of_nat i /\ 0 <= tid t < nexttid s;
  ui_tid : forall i j t u, threadTable s !! i = Some t -> threadTable s !! j = Some u ->
    live t -> live u -> tid t = tid u -> i = j;
  ui_run : forall i t, threadTable s !! i = Some t -> t_state t = RUNNING -> ct s = Some i;
  ui_blk : forall i t, threadTable s !! i = Some t -> blockedOnSemaphore t <> -1 ->
    t_state t = BLOCKED /\ joinOnTid t = joinNone /\ 0 <= blockedOnSemaphore t /\
    semaphores s !! Z.to_nat (blockedOnSemaphore t) = Some 0;
  ui_join : forall i t, threadTable s !! i = Some t -> joinOnTid t <> joinNone ->
    t_state t = BLOCKED /\ exists j u, threadTable s !! j = Some u /\ live u /\ joinOnTid t = u32 (tid u);
  ui_on : threadSystemOn s = true;
}.

(** The current thread is running, so that it can make a library call. *)
Definition running (s : ust) (c : nat) (t : thread) : Prop :=
  ct s = Some c /\ threadTable s !! c = Some t /\ t_state t = RUNNING.

(** ** Choosing the next thread *)

Definition ticked (cl : list Z) (n : Z) (s : ust) : ust := set_now n (set_clock cl s).

(** The table position visited at offset [i] from [start]. *)
Definition loc (start i : Z) : nat := Z.to_nat (Z.rem (start + i) (Z.of_nat MAX_UTHREADS)).

Definition state_at (s : ust) (k : nat) (st : thread_state) : Prop :=
  exists t, threadTable s !! k = Some t /\ t_state t = st.

(** Thread [u] at [k] is chosen, being ready or just woken. *)
Definition picked (s : ust) (k : nat) (cl : list Z) (n : Z) (r : ures Z) : Prop :=
  exists u, threadTable s !! k = Some u /\
    (t_state u = READY \/ (t_state u = SLEEPING /\ wakeUpTime u <= n)) /\
    r = URet (Z.of_nat k)
          (ticked cl n (set_threadTable (<[k := set_t_state READY u]> (threadTable s)) s)).

Lemma ticked_ticked cl n cl' n' s : ticked cl' n' (ticked cl n s) = ticked cl' n' s.
Proof. done. Qed.
Lemma ticked_id s : ticked (clock s) (now s) s = s.
Proof. by destruct s. Qed.

Lemma uptime_run s :
  exists t cl, uptime s = URet t (ticked cl t s) /\
    (clock s = t :: cl \/ (clock s = [] /\ cl = [] /\ t = now s)).
Proof.
  unfold uptime. destruct (clock s) as [|t cl] eqn:E.
  - exists (now s), []. split; [|by right]. by rewrite <- E, ticked_id.
  - exists t, cl. split; [done|by left].
Qed.

Lemma loc_lt start i : 0 <= start -> 0 <= i -> (loc start i < MAX_UTHREADS)%nat.
Proof.
  intros. unfold loc, MAX_UTHREADS. rewrite Z.rem_mod_nonneg by lia.
  pose proof (Z.mod_pos_bound (start + i) (Z.of_nat 64)). lia.
Qed.

Lemma loc_Z start i : 0 <= start -> 0 <= i ->
  Z.of_nat (loc start i) = Z.rem (start + i) (Z.of_nat MAX_UTHREADS).
Proof.
  intros. unfold loc, MAX_UTHREADS. rewrite Z.rem_mod_nonneg by lia.
  pose proof (Z.mod_pos_bound (start + i) (Z.of_nat 64)). lia.
Qed.

Lemma last_cons_default {A} (a : A) l d : List.last (a :: l) d = List.last l a.
Proof.
  revert a d. induction l as [|b l IH]; intros a d; [done|].
  change (List.last (a :: b :: l) d) with (List.last (b :: l) d). by rewrite !IH.
Qed.

(** One pass over the offsets: the first position at which a thread is
    ready, or asleep with its time over, is chosen and made ready; the
    positions before it stay as they are.  A pass that chooses nothing
    has read the clock for every sleeping thread it met. *)
Definition pass (start : Z) (offs : list Z) (s : ust) (t : thread)
    (used cl : list Z) (n : Z) (r : ures Z) : Prop :=
  (exists pre i post, offs = pre ++ i :: post /\
     (forall j, j ∈ pre -> ~ state_at s (loc start j) READY) /\
     picked s (loc start i) cl n r) \/
  ((forall j, j ∈ offs -> ~ state_at s (loc start j) READY) /\
   (forall j u, j ∈ offs -> threadTable s !! loc start j = Some u -> t_state u = SLEEPING ->
      used <> [] \/ (clock s = [] /\ now s < wakeUpTime u)) /\
   r = URet (if bool_decide (t_state t = RUNNING) then start else -1) (ticked cl n s)).

Lemma pass_skip start i offs s t used cl n r :
  ~ state_at s (loc start i) READY ->
  (forall u, threadTable s !! loc start i = Some u -> t_state u = SLEEPING ->
     used <> [] \/ (clock s = [] /\ now s < wakeUpTime u)) ->
  pass start offs s t used cl n r -> pass start (i :: offs) s t used cl n r.
Proof.
  intros Hi Hs [(pre & x & post & -> & Hpre & Hp)|(Hr & Hsl & Hres)].
  - left. exists (i :: pre), x, post. split_and!; [done| |done].
    intros j [->|Hj]%elem_of_cons; auto.
  - right. split_and!; [| |done].
    + intros j [->|Hj]%elem_of_cons; auto.
    + intros j u [->|Hj]%elem_of_cons; eauto.
Qed.

(** The entry that the turn looks at cannot run: its clock reading, if it
    took one, and the rest of the pass. *)
Lemma pass_after_sleeper start i offs s t u t1 cl1 used cl n r :
  threadTable s !! loc start i = Some u -> t_state u = SLEEPING -> t1 < wakeUpTime u ->
  (clock s = t1 :: cl1 \/ (clock s = [] /\ cl1 = [] /\ t1 = now s)) ->
  cl1 = used ++ cl -> n = List.last used t1 -> pass start offs (ticked cl1 t1 s) t used cl n r ->
  exists used' cl' n', clock s = used' ++ cl' /\ n' = List.last used' (now s) /\
    pass start (i :: offs) s t used' cl' n' r.
Proof.
  intros Hu Hsl Hw Hck E1 E2 HP.
  assert (HN : ~ state_at s (loc start i) READY) by (intros (u' & Hu' & Hr); congruence).
  destruct Hck as [Hck|(Hck & -> & ->)].
  - exists (t1 :: used), cl, n. rewrite Hck, last_cons_default.
    split_and!; [by rewrite E1|done|]. apply pass_skip; [done|by left|].
    destruct HP as [HP|(HP1 & _ & HP3)]; [left; exact HP|right].
    split_and!; [exact HP1|by left|exact HP3].
  - exists used, cl, n. rewrite Hck. split_and!; [done|done|].
    apply pass_skip; [done| |].
    + intros u' Hu' _. right. split; [done|]. congruence.
    + destruct HP as [HP|(HP1 & HP2 & HP3)]; [left; exact HP|right].
      split_and!; [exact HP1| |exact HP3].
      intros j u' Hj Hu' Hs'. destruct (HP2 j u' Hj Hu' Hs') as [?|[_ ?]]; [by left|by right].
Qed.

Lemma choose_loop_run start offs : forall s c t,
  length (threadTable s) = MAX_UTHREADS -> ct s = Some c -> threadTable s !! c = Some t ->
  0 <= start -> Forall (fun i => 0 <= i) offs ->
  exists used cl n, clock s = used ++ cl /\ n = List.last used (now s) /\
    pass start offs s t used cl n (choose_loop start offs s).
Proof.
  induction offs as [|i offs IH]; intros s c t Hl Hc Ht H0 HF.
  { exists [], (clock s), (now s). split_and!; [done|done|]. right.
    split_and!; [by intros j ?%elem_of_nil|by intros j u ?%elem_of_nil|].
    cbn [choose_loop]. rewrite (ubind_ok _ _ _ _ _ (the_ct_run s c Hc)).
    rewrite (ubind_ok _ _ _ _ _ (thread_at_run s c t Ht)). by rewrite ticked_id. }
  apply Forall_cons in HF as [Hi HF].
  destruct (lookup_lt_is_Some_2 (threadTable s) (loc start i)) as [u Hu];
    [rewrite Hl; by apply loc_lt|].
  pose proof (loc_Z start i H0 Hi) as HZ.
  cbn [choose_loop]. fold (loc start i).
  rewrite (ubind_ok _ _ _ _ _ (thread_at_run s _ u Hu)).
  destruct (decide (t_state u = SLEEPING)) as [Hsl|Hsl].
  - rewrite bool_decide_eq_true_2 by done. destruct (uptime_run s) as (t1 & cl1 & E & Hck).
    rewrite ubind_assoc, (ubind_ok _ _ _ _ _ E). unfold uwhen.
    destruct (Z.leb_spec (wakeUpTime u) t1) as [Hw|Hw].
    + unfold mod_thread. ustep.
      erewrite ubind_ok by (apply (thread_at_run _ _ (set_t_state READY u)); cbn [threadTable set_threadTable];
        rewrite lookup_upd_eq; cbn [threadTable ticked set_now set_clock]; by rewrite Hu).
      rewrite bool_decide_eq_true_2 by done.
      exists (if decide (clock s = []) then [] else [t1]), cl1, t1.
      destruct Hck as [Hck|(Hck & -> & ->)]; rewrite Hck; simpl; (split_and!; [done..|]);
        left; exists [], i, offs; (split_and!; [done|by intros j ?%elem_of_nil|]);
        exists u; (split_and!; [done|by right|]); unfold uret; rewrite HZ; f_equal;
        unfold ticked, set_threadTable, set_now, set_clock; simpl; by rewrite (upd_insert _ _ _ u Hu).
    + rewrite ubind_ret, (ubind_ok _ _ _ _ _ (thread_at_run (ticked cl1 t1 s) _ u Hu)).
      rewrite bool_decide_eq_false_2 by congruence.
      destruct (IH (ticked cl1 t1 s) c t) as (used & cl & n & E1 & E2 & HP); auto.
      by eapply pass_after_sleeper.
  - rewrite bool_decide_eq_false_2, ubind_ret by done.
    rewrite (ubind_ok _ _ _ _ _ (thread_at_run s _ u Hu)).
    destruct (decide (t_state u = READY)) as [Hr|Hr].
    + rewrite bool_decide_eq_true_2 by done. exists [], (clock s), (now s).
      split_and!; [done|done|]. left. exists [], i, offs.
      split_and!; [done|by intros j ?%elem_of_nil|]. exists u. split_and!; [done|by left|].
      unfold uret. rewrite HZ. f_equal. rewrite list_insert_id; [by destruct s|].
      rewrite Hu. f_equal. destruct u; simpl in *. by rewrite <- Hr.
    + rewrite bool_decide_eq_false_2 by done.
      destruct (IH s c t) as (used & cl & n & E1 & E2 & HP); auto.
      exists used, cl, n. split_and!; [done|done|]. apply pass_skip; [| |done].
      * intros (u' & Hu' & Hr'). congruence.
      * intros u' Hu' Hs'. congruence.
Qed.

Lemma loc_surj c k :
  0 <= c < 64 -> (k < MAX_UTHREADS)%nat ->
  exists i, 1 <= i <= 64 /\ loc c i = k.
Proof.
  intros Hc Hk. unfold MAX_UTHREADS in *. exists ((Z.of_nat k - c - 1) mod 64 + 1).
  pose proof (Z.mod_pos_bound (Z.of_nat k - c - 1) 64). split; [lia|].
  unfold loc, MAX_UTHREADS. rewrite Z.rem_mod_nonneg by lia. change (Z.of_nat 64) with 64.
  Z.div_mod_to_equations. lia.
Qed.

Lemma chooseNextThread_run s c t :
  length (threadTable s) = MAX_UTHREADS -> ct s = Some c -> threadTable s !! c = Some t ->
  indexInThreadtable t = Z.of_nat c ->
  exists used cl n, clock s = used ++ cl /\ n = List.last used (now s) /\
    pass (Z.of_nat c) (seqZ 1 64) s t used cl n (chooseNextThread s).
Proof.
  intros Hl Hc Ht Hi. unfold chooseNextThread.
  rewrite (ubind_ok _ _ _ _ _ (the_ct_run s c Hc)).
  rewrite (ubind_ok _ _ _ _ _ (thread_at_run s c t Ht)). rewrite Hi.
  apply (choose_loop_run (Z.of_nat c) (seqZ 1 64) s c t); auto; [lia|].
  apply Forall_forall. intros j Hj%elem_of_seqZ. lia.
Qed.

(** The offsets [seqZ 1 64] split at [i]: those before it are 1..i-1. *)
Lemma seqZ_split pre i post :
  seqZ 1 64 = pre ++ i :: post -> 1 <= i <= 64 /\ forall j, 1 <= j < i -> j ∈ pre.
Proof.
  intros E. assert (seqZ 1 64 !! length pre = Some i) as Hi
    by (rewrite E; by apply list_lookup_middle).
  apply lookup_seqZ in Hi as [-> Hp]. split; [lia|]. intros j Hj.
  assert (seqZ 1 64 !! Z.to_nat (j - 1) = Some j) as HJ by (apply lookup_seqZ; lia).
  rewrite E, lookup_app_l in HJ by lia. by eapply list_elem_of_lookup_2.
Qed.

(** The position at which the scan from [c] stops. *)
Definition stops_at (s : ust) (c : nat) (i : Z) (used cl : list Z) (n : Z) (r : ures Z) : Prop :=
  1 <= i <= 64 /\ clock s = used ++ cl /\ n = List.last used (now s) /\
  (forall j, 1 <= j < i -> ~ state_at s (loc (Z.of_nat c) j) READY) /\
  picked s (loc (Z.of_nat c) i) cl n r.

Lemma last_app {A} (l1 l2 : list A) d : List.last (l1 ++ l2) d = List.last l2 (List.last l1 d).
Proof.
  revert d. induction l1 as [|a l1 IH]; intros d; [done|].
  cbn [app]. by rewrite !last_cons_default, IH.
Qed.

Lemma choose_spin_run m : forall s c t,
  length (threadTable s) = MAX_UTHREADS -> ct s = Some c -> threadTable s !! c = Some t ->
  indexInThreadtable t = Z.of_nat c -> t_state t <> RUNNING ->
  (exists i used cl n, stops_at s c i used cl n (choose_spin m s)) \/
  (choose_spin m s = USpin /\
   forall k u, threadTable s !! k = Some u -> (length (clock s) < m)%nat ->
     t_state u <> READY /\ (t_state u = SLEEPING -> List.last (clock s) (now s) < wakeUpTime u)).
Proof.
  induction m as [|m IH]; intros s c t Hl Hc Ht Hi Hr.
  { right. split; [done|]. intros. lia. }
  pose proof (lookup_lt_Some _ _ _ Ht) as Hlt. rewrite Hl in Hlt. unfold MAX_UTHREADS in Hlt.
  destruct (chooseNextThread_run s c t Hl Hc Ht Hi) as (used & cl & n & E1 & E2 & HP).
  cbn [choose_spin].
  destruct HP as [(pre & i & post & Eq & Hpre & u & Hu & Hst & Hres)|(Hno & Hsl & Hres)].
  - left. apply seqZ_split in Eq as [Hi64 Hin]. exists i, used, cl, n.
    rewrite (ubind_ok _ _ _ _ _ Hres).
    destruct (Z.eqb_spec (Z.of_nat (loc (Z.of_nat c) i)) (-1)); [lia|].
    unfold stops_at. split_and!; [lia|lia|done|done|by intros j Hj; apply Hpre, Hin|by exists u].
  - rewrite bool_decide_eq_false_2 in Hres by done. rewrite (ubind_ok _ _ _ _ _ Hres).
    cbn [Z.eqb]. destruct (IH (ticked cl n s) c t Hl Hc Ht Hi Hr)
      as [(i & used' & cl' & n' & H1 & H2 & H3 & H4 & H5)|[HS HF]].
    + left. exists i, (used ++ used'), cl', n'. cbn in H2, H3.
      unfold stops_at. split_and!; [lia|lia|by rewrite E1, H2, app_assoc|by rewrite last_app, H3, E2|done|done].
    + right. split; [exact HS|]. intros k u Hk Hm.
      pose proof (lookup_lt_Some _ _ _ Hk) as Hkl. rewrite Hl in Hkl.
      destruct (loc_surj (Z.of_nat c) k ltac:(lia) Hkl) as (j & Hj & <-).
      assert (j ∈ seqZ 1 64) as Hjin by (apply elem_of_seqZ; lia).
      split; [intros Hrd; apply (Hno j Hjin); by exists u|]. intros Hsleep.
      destruct (Hsl j u Hjin Hk Hsleep) as [Hused|[Hck Hw]].
      * assert (length cl < m)%nat as Hlen.
        { rewrite E1, length_app in Hm. destruct used; [done|simpl in Hm; lia]. }
        rewrite E1, last_app, <- E2. by apply (HF _ u Hk Hlen).
      * by rewrite Hck.
Qed.

(** ** uthread_schedule *)

(** The interrupted thread's entry, with its registers saved. *)
Definition parked (fr : threadtrapframe) (t : thread) : thread :=
  set_t_state (if bool_decide (t_state t = RUNNING) then READY else t_state t) (set_t_tf fr t).
Definition with_parked (s : ust) (c : nat) (t : thread) : ust :=
  set_threadTable (<[c := parked (sigframe s) t]> (threadTable s)) s.

(** Thread [u] at [k] goes on with its own registers, for a quantum. *)
Definition resumed (k : nat) (u : thread) (cl : list Z) (n : Z) (s : ust) : ust :=
  set_alarm_end (u32 (n + UTHREAD_QUANTA)) (set_alarm_on true (set_sigframe (t_tf u)
    (set_ct (Some k)
      (ticked cl n (set_threadTable (<[k := set_t_state RUNNING u]> (threadTable s)) s))))).

Definition runnable (u : thread) (n : Z) : Prop :=
  t_state u = READY \/ (t_state u = SLEEPING /\ wakeUpTime u <= n).

Lemma parked_not_running fr t : t_state (parked fr t) <> RUNNING.
Proof. unfold parked. simpl. by case_bool_decide. Qed.

Lemma with_parked_run s c t (k : unit -> U unit) :
  ct s = Some c -> threadTable s !! c = Some t ->
  (mod_thread c (set_t_tf (sigframe s)) ;*
   let* t := thread_at c in
   ubind (uwhen (bool_decide (t_state t = RUNNING)) (mod_thread c (set_t_state READY))) k) s =
  k tt (with_parked s c t).
Proof.
  intros Hc Ht. unfold mod_thread. rewrite ubind_mod.
  assert (threadTable (set_threadTable (upd c (set_t_tf (sigframe s)) (threadTable s)) s) !! c
    = Some (set_t_tf (sigframe s) t)) as E by (cbn; by rewrite lookup_upd_eq, Ht).
  rewrite (ubind_ok _ _ _ _ _ (thread_at_run _ _ _ E)). cbn [t_state set_t_tf].
  unfold uwhen, with_parked, parked. rewrite (upd_insert _ _ _ t Ht).
  case_bool_decide as Hr.
  - rewrite ubind_mod. f_equal. unfold set_threadTable. cbn. f_equal.
    rewrite (upd_insert _ _ _ (set_t_tf (sigframe s) t)) by
      (apply list_lookup_insert_eq; by eapply lookup_lt_Some).
    apply list_insert_insert_eq.
  - by rewrite ubind_ret.
Qed.

Lemma schedule_run s c t :
  length (threadTable s) = MAX_UTHREADS -> ct s = Some c -> threadTable s !! c = Some t ->
  indexInThreadtable t = Z.of_nat c ->
  let s1 := with_parked s c t in
  (exists i used cl n u, 1 <= i <= 64 /\ clock s = used ++ cl /\ n = List.last used (now s) /\
     (forall j, 1 <= j < i -> ~ state_at s1 (loc (Z.of_nat c) j) READY) /\
     threadTable s1 !! loc (Z.of_nat c) i = Some u /\ runnable u n /\
     uthread_schedule s = URet tt (resumed (loc (Z.of_nat c) i) u cl n s1)) \/
  (uthread_schedule s = USpin /\
   forall k u, threadTable s1 !! k = Some u ->
     t_state u <> READY /\ (t_state u = SLEEPING -> List.last (clock s) (now s) < wakeUpTime u)).
Proof.
  intros Hl Hc Ht Hi s1. unfold uthread_schedule.
  rewrite (ubind_ok _ _ _ _ _ (the_ct_run s c Hc)), ubind_gets.
  rewrite (with_parked_run s c t _ Hc Ht). fold s1.
  assert (length (threadTable s1) = MAX_UTHREADS) as Hl1 by (cbn; by rewrite length_insert).
  assert (threadTable s1 !! c = Some (parked (sigframe s) t)) as Ht1
    by (cbn; apply list_lookup_insert_eq; by eapply lookup_lt_Some).
  destruct (choose_spin_run (S (length (clock s1))) s1 c _ Hl1 Hc Ht1 Hi (parked_not_running _ _))
    as [(i & used & cl & n & H1 & H2 & H3 & H4 & u & Hu & Hr & Hres)|[HS HF]].
  - left. exists i, used, cl, n, u. split_and!; auto; [lia|lia|].
    rewrite (ubind_ok (fun s => choose_spin (S (length (clock s))) s) _ _ _ _ Hres).
    set (k := loc (Z.of_nat c) i) in *. rewrite Nat2Z.id, ubind_mod.
    assert (k < length (threadTable s1))%nat as Hk by (by eapply lookup_lt_Some).
    erewrite ubind_ok by (apply thread_at_run; cbn; by apply list_lookup_insert_eq).
    rewrite ubind_mod. unfold mod_thread. rewrite ubind_mod. unfold alarm. cbn [Z.eqb UTHREAD_QUANTA].
    unfold resumed. do 2 f_equal. unfold set_threadTable, ticked, set_now, set_clock. cbn. f_equal.
    rewrite (upd_insert _ _ _ (set_t_state READY u)) by (by apply list_lookup_insert_eq).
    by rewrite list_insert_insert_eq.
  - right. split.
    + unfold ubind. by rewrite HS.
    + intros k u Hk. apply (HF k u Hk). lia.
Qed.

(** ** Operations preserve the invariant *)

(** Changing one entry.  The conditions are those of the invariant for
    that entry; a live entry may only die if nobody waits for it. *)
Lemma uinv_change s i t t' :
  uinv s -> threadTable s !! i = Some t ->
  indexInThreadtable t' = indexInThreadtable t -> tid t' = tid t -> (live t' -> live t) ->
  (t_state t' = RUNNING -> ct s = Some i) ->
  (blockedOnSemaphore t' <> -1 ->
     t_state t' = BLOCKED /\ joinOnTid t' = joinNone /\ 0 <= blockedOnSemaphore t' /\
     semaphores s !! Z.to_nat (blockedOnSemaphore t') = Some 0) ->
  (joinOnTid t' <> joinNone ->
     t_state t' = BLOCKED /\ exists j u, threadTable s !! j = Some u /\ live u /\ joinOnTid t' = u32 (tid u)) ->
  (live t -> live t' \/ forall j u, threadTable s !! j = Some u -> joinOnTid u <> u32 (tid t)) ->
  uinv (set_threadTable (<[i := t']> (threadTable s)) s).
Proof.
  intros Hinv Ht Hidx Htid Hlive Hrun Hblk Hjoin Hdie.
  pose proof Hinv as [Hlen Hsems (c & tc & Hc & Htc & Hci) Hnext HI HT HR HB HJ HO].
  assert (i < length (threadTable s))%nat as Hil by (by eapply lookup_lt_Some).
  assert (HL : forall j u, <[i := t']> (threadTable s) !! j = Some u ->
    (j = i /\ u = t') \/ (j <> i /\ threadTable s !! j = Some u)).
  { intros j u Hju. destruct (decide (j = i)) as [->|Hji].
    - rewrite list_lookup_insert_eq in Hju by done. left. by injection Hju.
    - rewrite list_lookup_insert_ne in Hju by done. by right. }
  assert (HK : forall j u, threadTable s !! j = Some u -> live u -> (j = i -> live t') ->
    exists k v, <[i := t']> (threadTable s) !! k = Some v /\ live v /\ tid v = tid u).
  { intros j u Hj Hu Hlv. destruct (decide (j = i)) as [->|Hji].
    - exists i, t'. rewrite list_lookup_insert_eq by done. split_and!; [done|by apply Hlv|congruence].
    - exists j, u. by rewrite list_lookup_insert_ne. }
  constructor; cbn [threadTable set_threadTable semaphores ct nexttid]; auto.
  - by rewrite length_insert.
  - exists c. destruct (decide (c = i)) as [->|Hci'].
    + exists t'. rewrite list_lookup_insert_eq by done. split_and!; [done|done|].
      rewrite Hidx. by simplify_eq.
    + exists tc. by rewrite list_lookup_insert_ne.
  - intros j u [[-> ->]|[Hj Hu]]%HL Hl; [|by apply HI].
    rewrite Hidx, Htid. by apply HI; [|apply Hlive].
  - intros j k u v [[-> ->]|[Hj Hu]]%HL [[-> ->]|[Hk Hv]]%HL Hlu Hlv E; [done| | |].
    + rewrite Htid in E. exact (HT i k t v Ht Hv (Hlive Hlu) Hlv E).
    + rewrite Htid in E. exact (HT j i u t Hu Ht Hlu (Hlive Hlv) E).
    + exact (HT j k u v Hu Hv Hlu Hlv E).
  - intros j u [[-> ->]|[Hj Hu]]%HL; [done|by apply HR].
  - intros j u [[-> ->]|[Hj Hu]]%HL; [done|]. intros Hb. by apply (HB j).
  - intros j u [[-> ->]|[Hj Hu]]%HL Hn.
    + destruct (Hjoin Hn) as (Hb & k & v & Hk & Hv & E). split; [done|].
      destruct (HK k v Hk Hv) as (k' & v' & ? & ? & Ev); [by unfold live; rewrite Hb|].
      exists k', v'. by rewrite Ev.
    + destruct (HJ j u Hu Hn) as (Hb & k & v & Hk & Hv & E). split; [done|].
      destruct (HK k v Hk Hv) as (k' & v' & ? & ? & Ev); [|exists k', v'; by rewrite Ev].
      intros ->. assert (v = t) as -> by congruence.
      destruct (Hdie Hv) as [Hd|Hd]; [done|]. by destruct (Hd j u Hu).
Qed.

(** The fields outside the table and the semaphores do not matter. *)
Lemma uinv_same s s' :
  threadTable s' = threadTable s -> semaphores s' = semaphores s -> ct s' = ct s ->
  nexttid s' = nexttid s -> threadSystemOn s' = threadSystemOn s -> uinv s -> uinv s'.
Proof.
  intros E1 E2 E3 E4 E5 [H1 H2 H3 H4 H5 H6 H7 H8 H9 H10].
  constructor; rewrite ?E1, ?E2, ?E3, ?E4, ?E5; done.
Qed.

(** Another current thread, when none is running. *)
Lemma uinv_set_ct s k :
  uinv s -> (forall j v, threadTable s !! j = Some v -> t_state v <> RUNNING) ->
  (exists u, threadTable s !! k = Some u /\ indexInThreadtable u = Z.of_nat k) ->
  uinv (set_ct (Some k) s).
Proof.
  intros [H1 H2 H3 H4 H5 H6 H7 H8 H9 H10] Hno (u & Hu & Hi). constructor; auto.
  - by exists k, u.
  - intros j v Hv Hr. by destruct (Hno j v Hv).
Qed.

Lemma schedule_inv s c t :
  uinv s -> ct s = Some c -> threadTable s !! c = Some t ->
  forall s', uthread_schedule s = URet tt s' -> uinv s' /\ exists k u, running s' k u.
Proof.
  intros Hinv Hc Ht s' E.
  assert (indexInThreadtable t = Z.of_nat c) as Hi
    by (destruct (ui_ct s Hinv) as (c' & t' & ? & ? & ?); by simplify_eq).
  pose proof (ui_len s Hinv) as Hl.
  assert (uinv (with_parked s c t)) as Hinv1.
  { apply (uinv_change s c t); auto; unfold parked, live; cbn.
    - case_bool_decide; congruence.
    - intros Hb. destruct (ui_blk s Hinv c t Ht Hb) as (Hs & ?). by rewrite Hs.
    - intros Hj. destruct (ui_join s Hinv c t Ht Hj) as (Hs & ?). by rewrite Hs.
    - intros Hlt. left. by case_bool_decide. }
  destruct (schedule_run s c t Hl Hc Ht Hi)
    as [(i & used & cl & n & u & Hi64 & _ & _ & Hno & Hu & Hr & E')|[E' _]]; [|congruence].
  rewrite E in E'. injection E' as ->.
  set (s1 := with_parked s c t) in *. set (k := loc (Z.of_nat c) i) in *.
  assert (live u) as Hlu by (unfold live; destruct Hr as [->|[-> _]]; done).
  split.
  - assert (uinv (set_ct (Some k) s1)) as Hinv2.
    { apply uinv_set_ct; [done| |exists u; split; [done|by apply (ui_idx s1 Hinv1)]].
      intros j v Hv Hrun. pose proof (ui_run s1 Hinv1 j v Hv Hrun) as Hcj.
      assert (c = j) as <- by (cbn in Hcj; congruence).
      cbn in Hv. rewrite list_lookup_insert_eq in Hv by (by eapply lookup_lt_Some).
      injection Hv as <-. by apply (parked_not_running (sigframe s) t). }
    apply (uinv_same (set_threadTable (<[k := set_t_state RUNNING u]> (threadTable s1)) (set_ct (Some k) s1)));
      [done..|].
    apply (uinv_change (set_ct (Some k) s1) k u); auto; unfold live; cbn.
    + intros Hb. destruct (ui_blk s1 Hinv1 k u Hu Hb) as (Hs & _). destruct Hr as [?|[? _]]; congruence.
    + intros Hj. destruct (ui_join s1 Hinv1 k u Hu Hj) as (Hs & _). destruct Hr as [?|[? _]]; congruence.
    + by left.
  - exists k, (set_t_state RUNNING u). split_and!; [done| |done]. cbn.
    apply list_lookup_insert_eq. by eapply lookup_lt_Some.
Qed.

(** ** What each call does *)

(** The switch to another thread has been asked for: the alarm signal is
    due at once. *)
Definition requested (s : ust) : ust := set_alarm_end 0 (set_alarm_on true s).

Definition with_thread (i : nat) (t : thread) (s : ust) : ust :=
  set_threadTable (<[i := t]> (threadTable s)) s.

Lemma with_thread_lookup i t t0 s :
  threadTable s !! i = Some t0 -> threadTable (with_thread i t s) !! i = Some t.
Proof. intros. cbn. apply list_lookup_insert_eq. by eapply lookup_lt_Some. Qed.

Lemma mod_thread_run i f t s :
  threadTable s !! i = Some t -> mod_thread i f s = URet tt (with_thread i (f t) s).
Proof. intros Ht. unfold mod_thread, umod, with_thread. by rewrite (upd_insert _ _ _ t Ht). Qed.

Lemma with_thread_twice i t t' s : with_thread i t' (with_thread i t s) = with_thread i t' s.
Proof. unfold with_thread, set_threadTable. cbn. by rewrite list_insert_insert_eq. Qed.

(** Two or more changes of the same entry in a row. *)
Lemma mod_thread_step {B} i f t s (k : unit -> U B) :
  threadTable s !! i = Some t ->
  ubind (mod_thread i f) k s = k tt (with_thread i (f t) s).
Proof. intros Ht. by rewrite (ubind_ok _ _ _ _ _ (mod_thread_run i f t s Ht)). Qed.

Lemma mod_thread_again {B} i f t0 t s (k : unit -> U B) :
  threadTable s !! i = Some t0 ->
  ubind (mod_thread i f) k (with_thread i t s) = k tt (with_thread i (f t) s).
Proof.
  intros Ht. rewrite (mod_thread_step i f t) by (by eapply with_thread_lookup).
  by rewrite with_thread_twice.
Qed.

Lemma uthread_sleep_run n s c t :
  threadSystemOn s = true -> ct s = Some c -> threadTable s !! c = Some t ->
  exists u cl,
    (clock s = u :: cl \/ (clock s = [] /\ cl = [] /\ u = now s)) /\
    uthread_sleep n s =
      URet 0 (requested (with_thread c (set_t_state SLEEPING (set_wakeUpTime (s32 (n + u)) t))
        (ticked cl u s))).
Proof.
  intros Hon Hc Ht. destruct (uptime_run s) as (u & cl & E & Hck). exists u, cl. split; [done|].
  unfold uthread_sleep. rewrite ubind_gets, Hon. cbn [negb].
  rewrite (ubind_ok _ _ _ _ _ (the_ct_run s c Hc)), (ubind_ok _ _ _ _ _ E).
  rewrite (mod_thread_step c _ t) by done. by rewrite (mod_thread_again c _ t) by done.
Qed.

Lemma uthread_join_run tid' s c t :
  threadSystemOn s = true -> ct s = Some c -> threadTable s !! c = Some t ->
  uthread_join tid' s =
    match find_idx (fun t => tid' =? tid t) (threadTable s) with
    | None => URet tt s
    | Some i =>
        match threadTable s !! i with
        | None => UBad
        | Some u =>
            if bool_decide (t_state u = TERMINATED) then URet tt s
            else URet tt (requested
              (with_thread c (set_t_state BLOCKED (set_joinOnTid (u32 (tid u)) t)) s))
        end
    end.
Proof.
  intros Hon Hc Ht. unfold uthread_join. rewrite ubind_gets, Hon. cbn [negb]. rewrite ubind_gets.
  destruct (find_idx _ _) as [i|]; [|done].
  unfold thread_at at 1, ubind at 1. destruct (threadTable s !! i) as [u|]; [|done].
  case_bool_decide; [done|]. unfold join_block.
  rewrite (ubind_ok _ _ _ _ _ (the_ct_run s c Hc)).
  rewrite (mod_thread_step c _ t) by done. by rewrite (mod_thread_again c _ t) by done.
Qed.

Definition freed_stack (t : thread) (s : ust) : ust :=
  if negb (tid t =? 0) then set_umem (free (stack t) (umem s)) s else s.

Lemma uthread_exit_run s c t :
  threadSystemOn s = true -> ct s = Some c -> threadTable s !! c = Some t ->
  uthread_exit s =
    if Z.of_nat (length (filter (fun t => t_state t <> TERMINATED) (threadTable s))) =? 1
    then UExit (freed_stack t s)
    else URet tt (requested (with_thread c (set_t_state TERMINATED (release_joiners (tid t) t))
      (freed_stack t (set_threadTable (release_joiners (tid t) <$> threadTable s) s)))).
Proof.
  intros Hon Hc Ht. unfold uthread_exit, getThreadCount. rewrite ubind_gets, Hon. cbn [negb].
  rewrite ubind_gets, (ubind_ok _ _ _ _ _ (the_ct_run s c Hc)).
  rewrite (ubind_ok _ _ _ _ _ (thread_at_run s c t Ht)).
  unfold ufree, uwhen, freed_stack.
  match goal with |- context [?n =? 1] => destruct (n =? 1) end.
  - destruct (tid t =? 0); done.
  - rewrite ubind_ret, ubind_mod.
    destruct (tid t =? 0); cbn [negb]; ustep;
      rewrite (mod_thread_step c _ (release_joiners (tid t) t)) by
        (cbn; by rewrite list_lookup_fmap, Ht); done.
Qed.

(** The entry of a new thread: it starts at its entry point with a stack
    of its own, on which its argument and the address of [uthread_exit]
    lie as if it had been called from there. *)
Definition new_tf (stk entry : Z) (fr : threadtrapframe) : threadtrapframe :=
  set_esp (u32 (u32 (u32 (stk + STACKSZ) - 4) - 4))
    (set_eip entry (set_ebp (u32 (stk + STACKSZ)) (set_esp (u32 (stk + STACKSZ)) fr))).
Definition new_thread (n stk entry : Z) (i : nat) (fr : threadtrapframe) (t0 : thread) : thread :=
  mkthread n stk READY (new_tf stk entry fr) (Z.of_nat i) (wakeUpTime t0) (blockedOnSemaphore t0) joinNone.
Definition new_stack (stk arg : Z) (m : gmap Z Z) : gmap Z Z :=
  store32 (store32 m (u32 (u32 (stk + STACKSZ) - 4)) (u32 arg))
    (u32 (u32 (u32 (stk + STACKSZ) - 4) - 4)) (u32 a_uthread_exit).

Lemma uthread_create_full entry arg s :
  threadSystemOn s = true ->
  (forall t, t ∈ threadTable s -> live t) -> uthread_create entry arg s = URet (-1) s.
Proof.
  intros Hon Hn. unfold uthread_create, getNextSpot. rewrite ubind_gets, Hon. cbn [negb].
  rewrite ubind_gets.
  assert (find_idx (fun t => bool_decide (t_state t = TERMINATED)) (threadTable s) = None) as ->; [|done].
  apply find_idx_None. intros j u Hu. apply bool_decide_eq_false_2.
  apply Hn. by eapply list_elem_of_lookup_2.
Qed.

Lemma uthread_create_run entry arg s c t i t0 stk m h :
  threadSystemOn s = true -> running s c t ->
  find_idx (fun t => bool_decide (t_state t = TERMINATED)) (threadTable s) = Some i ->
  threadTable s !! i = Some t0 ->
  malloc STACKSZ (umem s) = (stk, (m, h)) ->
  uthread_create entry arg s =
    URet 0 (with_thread i (new_thread (nexttid s) stk entry i (t_tf t) t0)
      (set_umem (new_stack stk arg m, h) (set_nexttid (s32 (nexttid s + 1)) s))).
Proof.
  intros Hon (Hc & Ht & Hrun) Hf Hi Hm.
  assert (i <> c) as Hic.
  { intros ->. apply find_idx_Some in Hf as [(x & Hx & Hb) _].
    apply bool_decide_eq_true_1 in Hb. congruence. }
  unfold uthread_create, getNextSpot. rewrite ubind_gets, Hon. cbn [negb].
  rewrite ubind_gets, Hf. destruct (Z.eqb_spec (Z.of_nat i) (-1)); [lia|].
  unfold create_at. cbv zeta. rewrite ubind_gets, Nat2Z.id.
  rewrite (mod_thread_step i _ t0) by done. rewrite ubind_mod.
  change (set_nexttid ?n (with_thread i ?t s)) with (with_thread i t (set_nexttid n s)).
  rewrite (mod_thread_again i _ t0) by done.
  unfold umalloc at 1, ubind at 1. change (umem (with_thread i _ _)) with (umem s). rewrite Hm.
  change (set_umem ?x (with_thread i ?t ?s)) with (with_thread i t (set_umem x s)).
  rewrite (mod_thread_again i _ t0) by done.
  erewrite ubind_ok by (apply the_ct_run; exact Hc).
  erewrite ubind_ok by (apply (thread_at_run _ c t); cbn; by rewrite list_lookup_insert_ne).
  do 6 rewrite (mod_thread_again i _ t0) by done.
  erewrite ubind_ok by (apply thread_at_run, (with_thread_lookup i _ t0); exact Hi).
  unfold ustore32 at 1. rewrite ubind_mod.
  change (umem (with_thread i _ _)) with (m, h). cbv iota beta.
  change (set_umem ?x (with_thread i ?t ?s)) with (with_thread i t (set_umem x s)).
  rewrite (mod_thread_again i _ t0) by done.
  erewrite ubind_ok by (apply thread_at_run, (with_thread_lookup i _ t0); exact Hi).
  unfold ustore32 at 1. rewrite ubind_mod.
  change (umem (with_thread i _ (set_umem ?x _))) with x. cbv iota beta.
  change (set_umem ?x (with_thread i ?t ?s)) with (with_thread i t (set_umem x s)).
  rewrite (mod_thread_again i _ t0) by done. done.
Qed.

(** ** Binary semaphores *)

Definition sem_val (s : ust) (n v : Z) : Prop := 0 <= n /\ semaphores s !! Z.to_nat n = Some v.
Definition with_sem (n v : Z) (s : ust) : ust :=
  set_semaphores (<[Z.to_nat n := v]> (semaphores s)) s.

(** The alarm is due in one quantum. *)
Definition armed (s : ust) : ust :=
  set_alarm_end (u32 (now s + UTHREAD_QUANTA)) (set_alarm_on true s).

Lemma sem_at_run n v s : sem_val s n v -> sem_at n s = URet v s.
Proof. intros [Hn Hv]. unfold sem_at. destruct (Z.ltb_spec n 0); [lia|]. by rewrite Hv. Qed.

Lemma set_sem_run n v v' s : sem_val s n v -> set_sem n v' s = URet tt (with_sem n v' s).
Proof. intros [Hn Hv]. unfold set_sem. destruct (Z.ltb_spec n 0); [lia|]. by rewrite Hv. Qed.

Lemma bsem_down_run n v s c t :
  sem_val s n v -> ct s = Some c -> threadTable s !! c = Some t ->
  bsem_down n s =
    URet tt (if v =? -1 then s
             else if v =? 0 then
               requested (with_thread c (set_t_state BLOCKED (set_blockedOnSemaphore n t)) s)
             else armed (with_sem n 0 s)).
Proof.
  intros Hv Hc Ht. unfold bsem_down. rewrite (ubind_ok _ _ _ _ _ (sem_at_run n v s Hv)).
  destruct (v =? -1); [done|].
  unfold alarm at 1. cbn [Z.eqb]. unfold ubind at 1.
  rewrite (ubind_ok _ _ _ _ _ (sem_at_run n v (set_alarm_on false s) Hv)).
  destruct (v =? 0).
  - rewrite (ubind_ok _ _ _ _ _ (the_ct_run (set_alarm_on false s) c Hc)).
    rewrite (mod_thread_step c _ t) by done. by rewrite (mod_thread_again c _ t) by done.
  - by rewrite (ubind_ok _ _ _ _ _ (set_sem_run n v 0 (set_alarm_on false s) Hv)).
Qed.

(** The thread [bsem_up] hands the semaphore to, if one waits for it. *)
Definition waiter (s : ust) (n : Z) : option nat :=
  find_idx (fun t => blockedOnSemaphore t =? n) (threadTable s).
Definition woken (t : thread) : thread := set_t_state READY (set_blockedOnSemaphore (-1) t).

Lemma waiter_Some s n i : waiter s n = Some i ->
  exists t, threadTable s !! i = Some t /\ blockedOnSemaphore t = n.
Proof. intros [(t & Ht & E%Z.eqb_eq) _]%find_idx_Some. eauto. Qed.
Lemma waiter_None s n i t : waiter s n = None -> threadTable s !! i = Some t -> blockedOnSemaphore t <> n.
Proof. intros Hw Ht. apply Z.eqb_neq. by eapply (proj1 (find_idx_None _ _) Hw). Qed.

Lemma bsem_up_run n v s :
  sem_val s n v ->
  bsem_up n s =
    if v =? -1 then URet tt s else
    match waiter s n with
    | Some i =>
        match threadTable s !! i with
        | Some t => URet tt (armed (with_thread i (woken t) s))
        | None => UBad
        end
    | None => URet tt (armed (with_sem n 1 s))
    end.
Proof.
  intros Hv. unfold bsem_up, waiter. rewrite (ubind_ok _ _ _ _ _ (sem_at_run n v s Hv)).
  destruct (v =? -1); [done|].
  unfold alarm at 1. cbn [Z.eqb]. unfold ubind at 1. rewrite ubind_gets.
  change (threadTable (set_alarm_on false s)) with (threadTable s).
  destruct (find_idx _ _) as [i|] eqn:E.
  - destruct (waiter_Some s n i E) as (t & Ht & _). rewrite Ht, ubind_assoc.
    rewrite (mod_thread_step i _ t) by done. by rewrite (mod_thread_again i _ t) by done.
  - by rewrite (ubind_ok _ _ _ _ _ (set_sem_run n v 1 (set_alarm_on false s) Hv)).
Qed.

Lemma bsem_free_run n v s :
  sem_val s n v ->
  bsem_free n s =
    URet tt (with_sem n (-1) (set_threadTable (release_waiter n <$> threadTable s) s)).
Proof.
  intros Hv. unfold bsem_free. rewrite ubind_mod.
  exact (set_sem_run n v (-1) (set_threadTable (release_waiter n <$> threadTable s) s) Hv).
Qed.

Lemma bsem_alloc_run s :
  bsem_alloc s =
    match find_idx (fun v => v =? -1) (semaphores s) with
    | Some i => URet (Z.of_nat i) (with_sem (Z.of_nat i) 1 s)
    | None => URet (-1) s
    end.
Proof.
  unfold bsem_alloc. rewrite ubind_gets. destruct (find_idx _ _) as [i|] eqn:E; [|done].
  apply find_idx_Some in E as [(v & Hv & _) _].
  assert (sem_val s (Z.of_nat i) v) as Hs by (split; [lia|by rewrite Nat2Z.id]).
  by rewrite (ubind_ok _ _ _ _ _ (set_sem_run _ v 1 s Hs)).
Qed.

(** ** The invariant under every call *)

Lemma uinv_sem s n v v' :
  uinv s -> sem_val s n v ->
  (v' = 0 \/ forall i t, threadTable s !! i = Some t -> blockedOnSemaphore t <> n) ->
  uinv (with_sem n v' s).
Proof.
  intros [H1 H2 H3 H4 H5 H6 H7 H8 H9 H10] [Hn Hv] Hw.
  constructor; cbn [threadTable semaphores ct nexttid with_sem set_semaphores]; auto.
  - by rewrite length_insert.
  - intros i t Ht Hb. destruct (H8 i t Ht Hb) as (? & ? & ? & Hs). split_and!; auto.
    destruct (decide (Z.to_nat n = Z.to_nat (blockedOnSemaphore t))) as [E|E].
    + destruct Hw as [->|Hw]; [|by destruct (Hw i t Ht); lia].
      rewrite <- E. apply list_lookup_insert_eq. by eapply lookup_lt_Some.
    + by rewrite list_lookup_insert_ne.
Qed.

Lemma uinv_fmap s f :
  uinv s ->
  (forall i t, threadTable s !! i = Some t ->
     indexInThreadtable (f t) = indexInThreadtable t /\ tid (f t) = tid t /\
     (live (f t) <-> live t) /\ (t_state (f t) = RUNNING -> t_state t = RUNNING) /\
     (f t = t \/ (blockedOnSemaphore (f t) = -1 /\ joinOnTid (f t) = joinNone))) ->
  uinv (set_threadTable (f <$> threadTable s) s).
Proof.
  intros [H1 H2 (c & tc & Hc & Htc & Hci) H4 H5 H6 H7 H8 H9 H10] Hf.
  constructor; cbn [threadTable semaphores ct nexttid set_threadTable]; auto.
  - by rewrite length_fmap.
  - exists c, (f tc). rewrite list_lookup_fmap, Htc. split_and!; [done|done|].
    by rewrite (proj1 (Hf c tc Htc)).
  - intros i t. rewrite list_lookup_fmap. intros (t0 & Ht & ->)%fmap_Some Hl.
    destruct (Hf i t0 Ht) as (-> & -> & Hlv & _). by apply H5; [|apply Hlv].
  - intros i j t u. rewrite !list_lookup_fmap.
    intros (t0 & Ht & ->)%fmap_Some (u0 & Hu & ->)%fmap_Some Hlt Hlu E.
    destruct (Hf i t0 Ht) as (_ & E1 & Hl1 & _), (Hf j u0 Hu) as (_ & E2 & Hl2 & _).
    apply (H6 i j t0 u0); auto; [by apply Hl1|by apply Hl2|congruence].
  - intros i t. rewrite list_lookup_fmap. intros (t0 & Ht & ->)%fmap_Some Hr.
    destruct (Hf i t0 Ht) as (_ & _ & _ & Hr' & _). by apply (H7 i t0 Ht), Hr'.
  - intros i t. rewrite list_lookup_fmap. intros (t0 & Ht & ->)%fmap_Some Hb.
    destruct (Hf i t0 Ht) as (_ & _ & _ & _ & [E|[? _]]); [|done]. rewrite E in *. by apply (H8 i).
  - intros i t. rewrite list_lookup_fmap. intros (t0 & Ht & ->)%fmap_Some Hj.
    destruct (Hf i t0 Ht) as (_ & _ & _ & _ & [E|[_ ?]]); [|done]. rewrite E in *.
    destruct (H9 i t0 Ht Hj) as (Hs & j & u & Hu & Hlu & Eq). split; [done|].
    exists j, (f u). rewrite list_lookup_fmap, Hu. destruct (Hf j u Hu) as (_ & -> & Hl & _).
    split_and!; [done|by apply Hl|done].
Qed.

Lemma running_facts s c t :
  uinv s -> running s c t ->
  live t /\ blockedOnSemaphore t = -1 /\ joinOnTid t = joinNone /\
  indexInThreadtable t = Z.of_nat c /\ 0 <= tid t < nexttid s.
Proof.
  intros Hi (Hc & Ht & Hr). assert (live t) as Hl by (unfold live; by rewrite Hr).
  destruct (ui_idx s Hi c t Ht Hl) as [? ?]. split_and!; try done; try lia.
  - destruct (decide (blockedOnSemaphore t = -1)) as [|Hb]; [done|].
    destruct (ui_blk s Hi c t Ht Hb) as [? _]. congruence.
  - destruct (decide (joinOnTid t = joinNone)) as [|Hb]; [done|].
    destruct (ui_join s Hi c t Ht Hb) as [? _]. congruence.
Qed.

Lemma sleep_inv n s c t r s' :
  uinv s -> running s c t -> uthread_sleep n s = URet r s' -> uinv s'.
Proof.
  intros Hi Hr E. pose proof (ui_on s Hi) as Hon. destruct (running_facts s c t Hi Hr) as (Hl & Hb & Hj & _).
  destruct Hr as (Hc & Ht & _). destruct (uthread_sleep_run n s c t Hon Hc Ht) as (u & cl & _ & E').
  rewrite E in E'. injection E' as _ ->.
  set (t' := set_t_state SLEEPING (set_wakeUpTime (s32 (n + u)) t)).
  apply (uinv_same (with_thread c t' s)); [done..|].
  apply (uinv_change s c t); auto; cbn; try congruence. by left.
Qed.

Lemma join_inv tid' s c t r s' :
  uinv s -> running s c t -> uthread_join tid' s = URet r s' -> uinv s'.
Proof.
  intros Hi Hr E. pose proof (ui_on s Hi) as Hon. destruct (running_facts s c t Hi Hr) as (Hl & Hb & Hj & _).
  destruct Hr as (Hc & Ht & _). rewrite (uthread_join_run tid' s c t Hon Hc Ht) in E.
  destruct (find_idx _ _) as [i|]; [|by injection E as _ <-].
  destruct (threadTable s !! i) as [u|] eqn:Hu; [|done].
  case_bool_decide as Hterm; injection E as _ <-; [done|].
  set (t' := set_t_state BLOCKED (set_joinOnTid (u32 (tid u)) t)).
  apply (uinv_same (with_thread c t' s)); [done..|].
  apply (uinv_change s c t); auto; cbn; try congruence.
  - intros _. split; [done|]. by exists i, u.
  - by left.
Qed.

Lemma exit_inv s c t r s' :
  uinv s -> running s c t -> uthread_exit s = URet r s' -> uinv s'.
Proof.
  intros Hi Hr E. pose proof (ui_on s Hi) as Hon. destruct (running_facts s c t Hi Hr) as (Hl & Hb & Hj & _ & Htid).
  destruct Hr as (Hc & Ht & Hrun). rewrite (uthread_exit_run s c t Hon Hc Ht) in E.
  destruct (_ =? 1); [done|]. injection E as _ <-.
  pose proof (ui_next s Hi) as Hnx.
  set (s1 := set_threadTable (release_joiners (tid t) <$> threadTable s) s).
  assert (HN : joinNone <> u32 (tid t))
    by (change joinNone with 4294967295; rewrite u32_small; lia).
  assert (release_joiners (tid t) t = t) as Et.
  { unfold release_joiners. rewrite Hj. by destruct (Z.eqb_spec joinNone (u32 (tid t))). }
  assert (uinv s1) as Hi1.
  { apply uinv_fmap; [done|]. intros i u Hu. unfold release_joiners.
    destruct (Z.eqb_spec (joinOnTid u) (u32 (tid t))) as [E|]; [|by split_and!; auto].
    destruct (ui_join s Hi i u Hu) as [Hs _]; [congruence|].
    unfold live. cbn. rewrite Hs. split_and!; auto; try done. right. split; [|done].
    destruct (decide (blockedOnSemaphore u = -1)) as [|Hbu]; [done|].
    destruct (ui_blk s Hi i u Hu Hbu) as (_ & ? & _). congruence. }
  set (t' := set_t_state TERMINATED (release_joiners (tid t) t)).
  apply (uinv_same (with_thread c t' s1)).
  1-5: unfold freed_stack; by destruct (negb _).
  assert (threadTable s1 !! c = Some t) as Ht1 by (cbn; rewrite list_lookup_fmap, Ht; cbn; by rewrite Et).
  apply (uinv_change s1 c t); auto; unfold t'; rewrite Et; cbn; try congruence.
  intros _. right. intros j u. rewrite list_lookup_fmap. intros (u0 & _ & ->)%fmap_Some.
  unfold release_joiners. by destruct (Z.eqb_spec (joinOnTid u0) (u32 (tid t))).
Qed.

Lemma down_inv n v s c t r s' :
  uinv s -> running s c t -> sem_val s n v -> bsem_down n s = URet r s' -> uinv s'.
Proof.
  intros Hi Hr Hv E. destruct (running_facts s c t Hi Hr) as (Hl & Hb & Hj & _).
  destruct Hr as (Hc & Ht & _). rewrite (bsem_down_run n v s c t Hv Hc Ht) in E.
  injection E as _ <-. destruct (v =? -1); [done|]. destruct (Z.eqb_spec v 0) as [->|Hv0].
  - set (t' := set_t_state BLOCKED (set_blockedOnSemaphore n t)).
    apply (uinv_same (with_thread c t' s)); [done..|]. destruct Hv as [Hn Hv].
    apply (uinv_change s c t); auto; cbn; try congruence. by left.
  - apply (uinv_same (with_sem n 0 s)); [done..|]. by apply (uinv_sem s n v); [| |left].
Qed.

Lemma up_inv n v s r s' :
  uinv s -> sem_val s n v -> bsem_up n s = URet r s' -> uinv s'.
Proof.
  intros Hi Hv E. rewrite (bsem_up_run n v s Hv) in E.
  destruct (v =? -1); [by injection E as _ <-|].
  destruct (waiter s n) as [i|] eqn:Hw.
  - destruct (waiter_Some s n i Hw) as (u & Hu & Hbu). rewrite Hu in E. injection E as _ <-.
    apply (uinv_same (with_thread i (woken u) s)); [done..|].
    destruct Hv as [Hn Hv]. destruct (ui_blk s Hi i u Hu) as (Hs & Hju & _); [lia|].
    apply (uinv_change s i u); auto; unfold live; cbn; try congruence. by left.
  - injection E as _ <-. apply (uinv_same (with_sem n 1 s)); [done..|].
    apply (uinv_sem s n v); [done|done|]. right. intros i t Ht. by eapply waiter_None.
Qed.

Lemma free_inv n v s r s' :
  uinv s -> sem_val s n v -> bsem_free n s = URet r s' -> uinv s'.
Proof.
  intros Hi Hv E. rewrite (bsem_free_run n v s Hv) in E. injection E as _ <-.
  pose proof (proj1 Hv) as Hn.
  apply (uinv_sem _ n v); [|done|].
  - apply uinv_fmap; [done|]. intros i u Hu. unfold release_waiter.
    destruct (Z.eqb_spec (blockedOnSemaphore u) n) as [E|]; [|by split_and!; auto].
    destruct (ui_blk s Hi i u Hu) as (Hs & Hju & _); [lia|].
    unfold live. cbn. rewrite Hs. by split_and!; auto.
  - right. intros i t. cbn. rewrite list_lookup_fmap. intros (u & _ & ->)%fmap_Some.
    unfold release_waiter. destruct (Z.eqb_spec (blockedOnSemaphore u) n); cbn; lia.
Qed.

Lemma alloc_inv s r s' : uinv s -> bsem_alloc s = URet r s' -> uinv s'.
Proof.
  intros Hi E. rewrite bsem_alloc_run in E.
  destruct (find_idx _ _) as [i|] eqn:Hf; injection E as _ <-; [|done].
  apply find_idx_Some in Hf as [(v & Hv & ->%Z.eqb_eq) _].
  apply (uinv_sem s _ (-1)); [done|split; [lia|by rewrite Nat2Z.id]|].
  right. intros j t Ht E. destruct (ui_blk s Hi j t Ht) as (_ & _ & _ & Hs); [lia|].
  rewrite E, Nat2Z.id in Hs. congruence.
Qed.

Lemma create_inv entry arg s c t r s' :
  uinv s -> running s c t -> nexttid s < 2147483647 ->
  uthread_create entry arg s = URet r s' -> uinv s'.
Proof.
  intros Hi Hr Hnx E. pose proof (ui_on s Hi) as Hon.
  destruct (find_idx (fun t => bool_decide (t_state t = TERMINATED)) (threadTable s)) as [i|] eqn:Hf.
  2: { rewrite uthread_create_full in E; [by injection E as _ <-|done|].
       intros u [j Hj]%list_elem_of_lookup. apply (proj1 (find_idx_None _ _) Hf j) in Hj.
       by apply bool_decide_eq_false_1 in Hj. }
  pose proof Hf as [(t0 & Ht0 & Hterm%bool_decide_eq_true_1) _]%find_idx_Some.
  destruct (malloc STACKSZ (umem s)) as [stk [m h]] eqn:Em.
  rewrite (uthread_create_run entry arg s c t i t0 stk m h Hon Hr Hf Ht0 Em) in E.
  injection E as _ <-.
  assert (i < length (threadTable s))%nat as Hil by (by eapply lookup_lt_Some).
  pose proof Hr as (Hc & Ht & Hrun).
  assert (i <> c) as Hic by (intros ->; congruence).
  destruct Hi as [H1 H2 (c' & tc & Hc' & Htc & Hci) H4 H5 H6 H7 H8 H9 H10].
  assert (blockedOnSemaphore t0 = -1) as Hb0.
  { destruct (decide (blockedOnSemaphore t0 = -1)) as [|Hb]; [done|].
    destruct (H8 i t0 Ht0 Hb) as [? _]. congruence. }
  set (t' := new_thread _ _ _ _ _ _).
  assert (HL : forall j u, <[i := t']> (threadTable s) !! j = Some u ->
    (j = i /\ u = t') \/ (j <> i /\ threadTable s !! j = Some u)).
  { intros j u Hju. destruct (decide (j = i)) as [->|Hji].
    - rewrite list_lookup_insert_eq in Hju by done. left. by injection Hju.
    - rewrite list_lookup_insert_ne in Hju by done. by right. }
  constructor; cbn [threadTable semaphores ct nexttid with_thread set_threadTable set_umem set_nexttid]; auto;
    rewrite ?s32_small by lia.
  - by rewrite length_insert.
  - exists c', tc. rewrite list_lookup_insert_ne by congruence. done.
  - lia.
  - intros j u [[-> ->]|[Hj Hu]]%HL Hl; [cbn; lia|]. destruct (H5 j u Hu Hl). lia.
  - intros j k u v [[-> ->]|[Hj Hu]]%HL [[-> ->]|[Hk Hv]]%HL Hlu Hlv; cbn; intros Eq; [done| | |].
    + destruct (H5 k v Hv Hlv). lia.
    + destruct (H5 j u Hu Hlu). lia.
    + by apply (H6 j k u v).
  - intros j u [[-> ->]|[Hj Hu]]%HL; [done|by apply H7].
  - intros j u [[-> ->]|[Hj Hu]]%HL Hb; [by cbn in Hb|by apply (H8 j)].
  - intros j u [[-> ->]|[Hj Hu]]%HL Hn; [done|].
    destruct (H9 j u Hu Hn) as (? & k & v & Hk & Hlv & Eq). split; [done|].
    exists k, v. rewrite list_lookup_insert_ne; [done|]. intros ->.
    assert (v = t0) as -> by congruence. done.
Qed.

(** The state [uthread_init] leaves behind. *)
Definition blank (t : thread) : thread :=
  set_joinOnTid joinNone (set_blockedOnSemaphore (-1) (set_t_state TERMINATED t)).

Lemma uthread_init_run s t0 :
  threadSystemOn s = false -> threadTable s !! 0%nat = Some t0 ->
  uthread_init s =
    URet 0 (requested (set_alarm_handler a_alarmHandler (set_ct (Some 0%nat)
      (with_thread 0 (set_joinOnTid joinNone (set_t_state RUNNING (set_indexInThreadtable 0
         (set_tid (nexttid s) (blank t0)))))
        (set_nexttid (s32 (nexttid s + 1)) (set_threadTable (blank <$> threadTable s)
          (set_threadSystemOn true s))))))).
Proof.
  intros Hon H0. unfold uthread_init, initThreadTable. rewrite ubind_gets, Hon, !ubind_mod, ubind_gets.
  set (s1 := set_threadTable _ _).
  assert (threadTable s1 !! 0%nat = Some (blank t0)) as H1 by (cbn; by rewrite list_lookup_fmap, H0).
  rewrite (mod_thread_step 0 _ (blank t0)), ubind_mod by done.
  change (set_nexttid ?n (with_thread 0 ?t ?s)) with (with_thread 0 t (set_nexttid n s)).
  do 3 rewrite (mod_thread_again 0 _ (blank t0)) by done. done.
Qed.

Lemma init_inv s s' :
  threadSystemOn s = false -> length (threadTable s) = MAX_UTHREADS ->
  length (semaphores s) = MAX_BSEM -> 0 <= nexttid s < 2147483647 ->
  uthread_init s = URet 0 s' ->
  uinv s' /\ exists t, running s' 0 t.
Proof.
  intros Hon Hl Hs Hn E.
  destruct (lookup_lt_is_Some_2 (threadTable s) 0) as [t0 H0]; [rewrite Hl; unfold MAX_UTHREADS; lia|].
  rewrite (uthread_init_run s t0 Hon H0) in E. injection E as <-.
  set (t' := set_joinOnTid joinNone _). set (tb := <[0%nat := t']> (blank <$> threadTable s)).
  assert (HL : forall j u, tb !! j = Some u ->
    (j = 0%nat /\ u = t') \/ exists u0, u = blank u0).
  { intros j u Hju. unfold tb in Hju. destruct (decide (j = 0%nat)) as [->|Hji].
    - rewrite list_lookup_insert_eq in Hju by (rewrite length_fmap, Hl; unfold MAX_UTHREADS; lia).
      left. by injection Hju.
    - rewrite list_lookup_insert_ne, list_lookup_fmap in Hju by done.
      apply fmap_Some in Hju as (u0 & _ & ->). right. by exists u0. }
  assert (tb !! 0%nat = Some t') as Ht0
    by (apply list_lookup_insert_eq; rewrite length_fmap, Hl; unfold MAX_UTHREADS; lia).
  split; [|exists t'; split_and!; done].
  constructor; cbn [threadTable semaphores ct nexttid with_thread set_threadTable requested set_alarm_end
    set_alarm_on set_alarm_handler set_ct set_nexttid set_threadSystemOn]; fold tb; auto;
    rewrite ?s32_small by lia.
  - unfold tb. by rewrite length_insert, length_fmap.
  - by exists 0%nat, t'.
  - lia.
  - intros j u [[-> ->]|(u0 & ->)]%HL; [cbn; lia|]. by intros [].
  - intros j k u v [[-> ->]|(u0 & ->)]%HL [[-> ->]|(v0 & ->)]%HL Hu Hv; try done; by destruct Hu || destruct Hv.
  - intros j u [[-> ->]|(u0 & ->)]%HL; done.
  - intros j u [[-> ->]|(u0 & ->)]%HL; done.
  - intros j u [[-> ->]|(u0 & ->)]%HL; done.
Qed.

(** ** Runs of a threaded program

    A step is a library call of the current thread, a switch when the
    alarm signal is due, or user code, which may change registers, memory
    and let time pass.  The calls run without a switch in the middle. *)
Inductive label :=
| LSleep | LJoin | LExit | LCreate | LAlloc | LFree (n : Z) | LDown (n : Z) | LUp (n : Z)
| LSwitch | LUser.

Inductive lib_step : label -> ust -> ust -> Prop :=
| st_sleep n r s s' c t : running s c t -> uthread_sleep n s = URet r s' -> lib_step LSleep s s'
| st_join i s s' c t : running s c t -> uthread_join i s = URet tt s' -> lib_step LJoin s s'
| st_exit s s' c t : running s c t -> uthread_exit s = URet tt s' -> lib_step LExit s s'
| st_create e a r s s' c t : running s c t -> nexttid s < 2147483647 ->
    uthread_create e a s = URet r s' -> lib_step LCreate s s'
| st_alloc r s s' c t : running s c t -> bsem_alloc s = URet r s' -> lib_step LAlloc s s'
| st_free n v s s' c t : running s c t -> sem_val s n v -> bsem_free n s = URet tt s' ->
    lib_step (LFree n) s s'
| st_down n v s s' c t : running s c t -> sem_val s n v -> bsem_down n s = URet tt s' ->
    lib_step (LDown n) s s'
| st_up n v s s' c t : running s c t -> sem_val s n v -> bsem_up n s = URet tt s' ->
    lib_step (LUp n) s s'
| st_switch s s' : alarm_on s = true -> alarm_end s <= now s ->
    uthread_schedule s = URet tt s' -> lib_step LSwitch s s'
| st_user fr m cl n s c t : running s c t ->
    lib_step LUser s (set_sigframe fr (set_umem m (set_clock cl (set_now n s)))).

Inductive reachable : ust -> Prop :=
| r_init s0 s : threadSystemOn s0 = false -> length (threadTable s0) = MAX_UTHREADS ->
    length (semaphores s0) = MAX_BSEM -> 0 <= nexttid s0 < 2147483647 ->
    uthread_init s0 = URet 0 s -> reachable s
| r_step l s s' : reachable s -> lib_step l s s' -> reachable s'.

Lemma lib_step_inv l s s' : uinv s -> lib_step l s s' -> uinv s'.
Proof.
  intros Hi Hst.
  destruct Hst as [n r s s' c t Hr E|i s s' c t Hr E|s s' c t Hr E|e a r s s' c t Hr Hn E
    |r s s' c t _ E|n v s s' c t _ Hv E|n v s s' c t Hr Hv E|n v s s' c t _ Hv E
    |s s' _ _ E|fr m cl n s c t _].
  - by eapply sleep_inv.
  - by eapply join_inv.
  - by eapply exit_inv.
  - by eapply create_inv.
  - by eapply alloc_inv.
  - by eapply free_inv.
  - by eapply down_inv.
  - by eapply up_inv.
  - destruct (ui_ct s Hi) as (c & t & Hc & Ht & _). by apply (schedule_inv s c t Hi Hc Ht).
  - by apply (uinv_same s).
Qed.

Lemma reachable_inv s : reachable s -> uinv s.
Proof. induction 1 as [s0 s ? ? ? ? E|l s s' _ IH Hst]; [by eapply init_inv|by eapply lib_step_inv]. Qed.


(** ** Round robin *)

(** How far [k] is behind [c] in the scan. *)
Definition dist (c k : nat) : Z := (Z.of_nat k - Z.of_nat c - 1) mod 64 + 1.

Lemma dist_range c k : 1 <= dist c k <= 64.
Proof. unfold dist. pose proof (Z.mod_pos_bound (Z.of_nat k - Z.of_nat c - 1) 64). lia. Qed.

Lemma loc_dist c k : (c < 64)%nat -> (k < 64)%nat -> loc (Z.of_nat c) (dist c k) = k.
Proof.
  intros Hc Hk. pose proof (dist_range c k) as Hd. unfold loc, dist, MAX_UTHREADS in *.
  rewrite Z.rem_mod_nonneg by lia. change (Z.of_nat 64) with 64. Z.div_mod_to_equations. lia.
Qed.

Lemma dist_loc c k i : (c < 64)%nat -> (k < 64)%nat -> 1 <= i < dist c k ->
  dist (loc (Z.of_nat c) i) k = dist c k - i.
Proof.
  intros Hc Hk Hi. pose proof (dist_range c k) as Hd. unfold loc, dist, MAX_UTHREADS in *.
  rewrite Z.rem_mod_nonneg by lia. change (Z.of_nat 64) with 64.
  rewrite Z2Nat.id by (pose proof (Z.mod_pos_bound (Z.of_nat c + i) 64); lia).
  Z.div_mod_to_equations. lia.
Qed.

(** uthread.c [uthread_schedule] and [chooseNextThread].  The switch
    saves the interrupted thread's registers in its entry and goes on, for
    one quantum, with the first thread after it in table order that is
    ready or whose sleep is over; that thread gets its own saved registers
    and no other entry changes.  It busy-waits for ever only if no thread
    is ready and every sleeping thread's time lies after the last value
    the clock ever takes. *)
Theorem uthread_schedule_round_robin s c t :
  uinv s -> ct s = Some c -> threadTable s !! c = Some t ->
  let s1 := with_parked s c t in
  (exists k u n cl,
     uthread_schedule s = URet tt (resumed k u cl n s1) /\
     threadTable s1 !! k = Some u /\ runnable u n /\
     forall j v, threadTable s1 !! j = Some v -> dist c j < dist c k -> t_state v <> READY) \/
  (uthread_schedule s = USpin /\
   forall k u, threadTable s1 !! k = Some u ->
     t_state u <> READY /\ (t_state u = SLEEPING -> List.last (clock s) (now s) < wakeUpTime u)).
Proof.
  intros Hi Hc Ht s1. destruct (ui_ct s Hi) as (c' & t' & Hc' & Ht' & Hx). simplify_eq.
  pose proof (ui_len s Hi) as Hl. pose proof (lookup_lt_Some _ _ _ Ht) as Hlt. rewrite Hl in Hlt.
  destruct (schedule_run s c t Hl Hc Ht Hx)
    as [(i & used & cl & n & u & Hi64 & _ & _ & Hno & Hu & Hr & E)|HS]; [left|by right].
  exists (loc (Z.of_nat c) i), u, n, cl. split_and!; [done|done|done|].
  intros j v Hv Hd Hready.
  pose proof (lookup_lt_Some _ _ _ Hv) as Hjl. cbn in Hjl. rewrite length_insert, Hl in Hjl.
  unfold MAX_UTHREADS in *. pose proof (dist_range c j).
  assert (dist c (loc (Z.of_nat c) i) = i) as Ei.
  { pose proof (loc_lt (Z.of_nat c) i ltac:(lia) ltac:(lia)) as Hlk.
    unfold dist, loc, MAX_UTHREADS in *. rewrite Z.rem_mod_nonneg in * by lia.
    change (Z.of_nat 64) with 64 in *.
    rewrite Z2Nat.id by (pose proof (Z.mod_pos_bound (Z.of_nat c + i) 64); lia).
    Z.div_mod_to_equations. lia. }
  apply (Hno (dist c j)); [lia|]. exists v. by rewrite loc_dist.
Qed.

(** While thread [k] is ready, every switch returns, and either goes to
    [k] or brings [k] strictly closer in the scan, leaving it ready. *)
Lemma schedule_closer s c k u :
  uinv s -> ct s = Some c -> k <> c -> threadTable s !! k = Some u -> t_state u = READY ->
  exists s', uthread_schedule s = URet tt s' /\
    (ct s' = Some k \/
     exists c', ct s' = Some c' /\ c' <> k /\ threadTable s' !! k = Some u /\
       dist c' k < dist c k).
Proof.
  intros Hi Hc Hkc Hu Hrd. destruct (ui_ct s Hi) as (c' & t & Hc' & Ht & Hx).
  assert (c' = c) as -> by congruence. clear Hc'.
  pose proof (ui_len s Hi) as Hl. pose proof (lookup_lt_Some _ _ _ Ht) as Hlc.
  pose proof (lookup_lt_Some _ _ _ Hu) as Hlk. rewrite Hl in Hlc, Hlk. unfold MAX_UTHREADS in *.
  assert (threadTable (with_parked s c t) !! k = Some u) as Hu1
    by (cbn; by rewrite list_lookup_insert_ne).
  destruct (schedule_run s c t Hl Hc Ht Hx)
    as [(i & used & cl & n & v & Hi64 & _ & _ & Hno & Hv & Hr & E)|[_ HS]].
  2: { by destruct (HS k u Hu1) as [? _]. }
  eexists. split; [exact E|].
  assert (i <= dist c k) as Hik.
  { destruct (Z_le_gt_dec i (dist c k)) as [|Hgt]; [done|]. pose proof (dist_range c k).
    destruct (Hno (dist c k)); [lia|]. exists u. by rewrite loc_dist. }
  destruct (decide (i = dist c k)) as [->|Hne].
  { left. cbn. by rewrite loc_dist. }
  right. exists (loc (Z.of_nat c) i). pose proof (dist_range c k).
  assert (dist (loc (Z.of_nat c) i) k = dist c k - i) as Hd by (apply dist_loc; lia).
  pose proof (dist_range (loc (Z.of_nat c) i) k).
  assert (loc (Z.of_nat c) i <> k) as Hnk.
  { intros Heq. rewrite Heq in Hd. unfold dist in Hd at 1. replace (Z.of_nat k - Z.of_nat k - 1) with (-1) in Hd by lia.
    change (-1 mod 64 + 1) with 64 in Hd. lia. }
  split_and!; [done|done| |lia]. cbn. rewrite list_lookup_insert_ne by done. exact Hu1.
Qed.

(** Thread [k] is running after at most [n] switches, whatever the current
    thread does before each of them that keeps the invariant and does not
    touch [k]'s entry. *)
Inductive runs_within (k : nat) : nat -> ust -> Prop :=
| runs_now n s : ct s = Some k -> runs_within k n s
| runs_later n s :
    (forall s1, uinv s1 -> ct s1 = ct s -> threadTable s1 !! k = threadTable s !! k ->
       exists s', uthread_schedule s1 = URet tt s' /\ uinv s' /\ runs_within k n s') ->
    runs_within k (S n) s.


(** ** A thread finds its registers again *)

(** Entry [i] has the same registers saved, and is still in use. *)
Definition keeps (i : nat) (t : thread) (s : ust) : Prop :=
  exists t', threadTable s !! i = Some t' /\ live t' /\ t_tf t' = t_tf t.

Lemma keeps_insert i j t u s0 s :
  keeps i t s0 -> j <> i -> threadTable s = <[j := u]> (threadTable s0) -> keeps i t s.
Proof.
  intros (t' & Ht & Hl & E) Hj Hs. exists t'. rewrite Hs, list_lookup_insert_ne by done. done.
Qed.

Lemma keeps_fmap i t f s0 s :
  keeps i t s0 -> (forall u, live u -> live (f u) /\ t_tf (f u) = t_tf u) ->
  threadTable s = f <$> threadTable s0 -> keeps i t s.
Proof.
  intros (t' & Ht & Hl & E) Hf Hs. destruct (Hf t' Hl) as [? E'].
  exists (f t'). rewrite Hs, list_lookup_fmap, Ht. split_and!; [done|done|congruence].
Qed.

(** [keeps i t], and the frame is the signal frame if thread [i] runs. *)
Definition frame_kept (i : nat) (t : thread) (s' : ust) : Prop :=
  keeps i t s' /\ (ct s' = Some i -> sigframe s' = t_tf t).

Lemma exit_keeps s s' c tc i t :
  uinv s -> running s c tc -> ct s <> Some i -> keeps i t s -> uthread_exit s = URet tt s' -> frame_kept i t s'.
Proof.
  intros Hi (Hc & Ht & _) Hni Hk E. rewrite (uthread_exit_run s c tc (ui_on s Hi) Hc Ht) in E.
  destruct (_ =? 1); [done|]. injection E as <-.
  set (s1 := set_threadTable (release_joiners (tid tc) <$> threadTable s) s).
  assert (keeps i t s1) as Hk1.
  { eapply keeps_fmap; [exact Hk| |done]. intros u Hu. unfold release_joiners, live. by destruct (_ =? _). }
  split; [|unfold freed_stack; by destruct (negb _)].
  eapply (keeps_insert i c _ _ s1); [exact Hk1|congruence|]. unfold freed_stack. by destruct (negb _).
Qed.

Lemma create_keeps e a r s s' c tc i t :
  uinv s -> running s c tc -> ct s <> Some i -> keeps i t s -> uthread_create e a s = URet r s' -> frame_kept i t s'.
Proof.
  intros Hi Hr Hni Hk E. pose proof (ui_on s Hi) as Hon.
  destruct (find_idx (fun t => bool_decide (t_state t = TERMINATED)) (threadTable s)) as [k|] eqn:Hf.
  2: { rewrite uthread_create_full in E; [by injection E as _ <-|done|].
       intros u [j Hj]%list_elem_of_lookup. apply (proj1 (find_idx_None _ _) Hf j) in Hj.
       by apply bool_decide_eq_false_1 in Hj. }
  pose proof Hf as [(t0 & Ht0 & Hterm%bool_decide_eq_true_1) _]%find_idx_Some.
  destruct (malloc STACKSZ (umem s)) as [stk [m h]] eqn:Em.
  rewrite (uthread_create_run e a s c tc k t0 stk m h Hon Hr Hf Ht0 Em) in E. injection E as _ <-.
  split; [|done]. eapply (keeps_insert i k); [exact Hk| |done].
  intros ->. destruct Hk as (t' & Ht' & Hl & _). congruence.
Qed.

Lemma up_keeps n v s s' i t :
  sem_val s n v -> ct s <> Some i -> keeps i t s -> bsem_up n s = URet tt s' -> frame_kept i t s'.
Proof.
  intros Hv Hni Hk E. rewrite (bsem_up_run n v s Hv) in E. destruct (v =? -1); [by injection E as <-|].
  destruct (waiter s n) as [k|] eqn:Hw; [|by injection E as <-].
  destruct (waiter_Some s n k Hw) as (u & Hu & _). rewrite Hu in E. injection E as <-.
  split; [|done]. destruct (decide (k = i)) as [->|Hki].
  - destruct Hk as (t' & Ht' & Hl & Et). exists (woken t'). assert (u = t') as -> by congruence.
    split_and!; [|done|done]. cbn. apply list_lookup_insert_eq. by eapply lookup_lt_Some.
  - eapply (keeps_insert i k); [exact Hk|done|done].
Qed.

Lemma schedule_keeps s s' i t :
  uinv s -> ct s <> Some i -> keeps i t s -> uthread_schedule s = URet tt s' -> frame_kept i t s'.
Proof.
  intros Hi Hni Hk E. destruct (ui_ct s Hi) as (c & tc & Hc & Ht & Hx).
  destruct (schedule_run s c tc (ui_len s Hi) Hc Ht Hx)
    as [(j & ? & cl & n & u & _ & _ & _ & _ & Hu & Hr & E')|[E' _]]; [|congruence].
  rewrite E in E'. injection E' as ->. set (k := loc (Z.of_nat c) j) in *.
  assert (keeps i t (with_parked s c tc)) as Hk1
    by (eapply (keeps_insert i c); [exact Hk|congruence|done]).
  destruct (decide (k = i)) as [->|Hki].
  - destruct Hk1 as (t' & Ht' & Hl & Et). assert (u = t') as -> by congruence.
    split; [|by cbn]. exists (set_t_state RUNNING t'). split_and!; [|done|done].
    cbn. apply list_lookup_insert_eq. by eapply lookup_lt_Some.
  - split; [|cbn; congruence]. eapply (keeps_insert i k); [exact Hk1|done|done].
Qed.

Lemma lib_step_keeps l s s' i t :
  uinv s -> lib_step l s s' -> ct s <> Some i -> keeps i t s -> frame_kept i t s'.
Proof.
  intros Hi Hst Hni Hk. pose proof (ui_on s Hi) as Hon.
  destruct Hst as [n r s s' c tc Hr E|i' s s' c tc Hr E|s s' c tc Hr E|e a r s s' c tc Hr Hn E
    |r s s' c tc Hr E|n v s s' c tc Hr Hv E|n v s s' c tc Hr Hv E|n v s s' c tc Hr Hv E
    |s s' _ _ E|fr m cl n s c tc Hr].
  - destruct Hr as (Hc & Ht & _). destruct (uthread_sleep_run n s c tc Hon Hc Ht) as (u & cl & _ & E').
    rewrite E in E'. injection E' as _ ->.
    split; [|done]. eapply (keeps_insert i c); [exact Hk|congruence|done].
  - destruct Hr as (Hc & Ht & _). rewrite (uthread_join_run i' s c tc Hon Hc Ht) in E.
    destruct (find_idx _ _) as [k|]; [|by injection E as <-].
    destruct (threadTable s !! k) as [u|]; [|done].
    case_bool_decide; injection E as <-; [done|].
    split; [|done]. eapply (keeps_insert i c); [exact Hk|congruence|done].
  - by eapply exit_keeps.
  - by eapply create_keeps.
  - rewrite bsem_alloc_run in E. by destruct (find_idx _ _); injection E as _ <-.
  - rewrite (bsem_free_run n v s Hv) in E. injection E as <-. split; [|done].
    eapply keeps_fmap; [exact Hk| |done]. intros u Hu. unfold release_waiter, live. by destruct (_ =? _).
  - destruct Hr as (Hc & Ht & _). rewrite (bsem_down_run n v s c tc Hv Hc Ht) in E. injection E as <-.
    destruct (v =? -1); [done|]. destruct (v =? 0); [|done].
    split; [|done]. eapply (keeps_insert i c); [exact Hk|congruence|done].
  - by eapply up_keeps.
  - by eapply schedule_keeps.
  - split; [done|]. cbn. intros. congruence.
Qed.

(** Any activity during which thread [i] is not the current one. *)
Inductive away (i : nat) : ust -> ust -> Prop :=
| away_refl s : ct s <> Some i -> away i s s
| away_step l s s' s'' : away i s s' -> lib_step l s' s'' -> ct s'' <> Some i -> away i s s''.

Lemma away_start i s s' : away i s s' -> ct s <> Some i.
Proof. by induction 1. Qed.

Lemma away_keeps i t s s' :
  away i s s' -> uinv s -> keeps i t s -> uinv s' /\ keeps i t s' /\ ct s' <> Some i.
Proof.
  induction 1 as [s Hn|l s s' s'' _ IH Hst Hn]; intros Hi Hk; [done|].
  destruct (IH Hi Hk) as (Hi' & Hk' & Hn'). split_and!; [|by eapply lib_step_keeps|done].
  by eapply lib_step_inv.
Qed.

End Facts.

(** ** A concrete program, for examples *)

(** An allocator that never reuses memory. *)
Definition malloc_example : Malloc := {|
  heap := Z;
  malloc n mh := (snd mh, (fst mh, snd mh + n));
  free _ mh := mh;
|}.
Definition ulink_example : ULink := {| a_uthread_exit := 512; a_alarmHandler := 1024 |}.

Definition after `{Malloc} {A} (m : U A) (s : ust) : ust :=
  match m s with URet _ s' => s' | UExit s' => s' | _ => s end.

Section Example.
#[local] Existing Instance malloc_example.
#[local] Existing Instance ulink_example.

Definition ust_fresh (cl : list Z) : ust :=
  mkust (replicate MAX_UTHREADS thread_zero) 0 None false (replicate MAX_BSEM (-1)) tf_zero
    (∅, 65536) cl 0 false 0 0 [].

(** The main thread, and threads 1 and 2 created by it. *)
Definition ust_one : ust := after uthread_init (ust_fresh []).
Definition ust_three : ust := after (uthread_create 4096 7) (after (uthread_create 4096 8) ust_one).

Lemma reach_one : reachable ust_one.
Proof. apply (r_init (ust_fresh [])); [done..|cbn; lia|by vm_compute]. Qed.

Lemma reach_three : reachable ust_three.
Proof.
  eapply r_step; [eapply r_step; [apply reach_one|]|].
  - eapply (st_create 4096 8 0 _ (after (uthread_create 4096 8) ust_one) 0%nat); [|by vm_compute..].
    split_and!; by vm_compute.
  - eapply (st_create 4096 7 0 _ _ 0%nat); [|by vm_compute..]. split_and!; by vm_compute.
Qed.


Lemma uthread_schedule_round_robin_witness :
  exists s', uthread_schedule ust_three = URet tt s' /\ ct s' = Some 1%nat.
Proof.
  destruct (uthread_schedule_round_robin ust_three 0
    (default thread_zero (threadTable ust_three !! 0%nat)) (reachable_inv _ reach_three)
    ltac:(by vm_compute) ltac:(by vm_compute))
    as [(k & u & n & cl & E & _)|[E _]]; [|by vm_compute in E].
  eexists. split; [exact E|].
  assert ((match uthread_schedule ust_three with URet _ s => ct s | _ => None end)
    = Some 1%nat) as HC by (by vm_compute).
  rewrite E in HC. exact HC.
Defined.


(** Thread 0 is interrupted with [tf_zero]; threads 1 and 2 run; then
    thread 0 goes on. *)
Definition later (t : Z) (s : ust) : ust := set_sigframe (set_eip t tf_zero) (set_umem (umem s) (set_clock [] (set_now t s))).
Definition ust_a : ust := after uthread_schedule ust_three.
Definition ust_b : ust := later 200 (after uthread_schedule (later 100 ust_a)).

End Example.
