(* ===== verification/Ustacks.v ===== *)
(** * The stacks of the threads

    uthread.c on top of umalloc.c: the thread library takes the stacks of
    its threads from [malloc] and gives them back with [free].  Here its
    interface [Malloc] is implemented by the allocator of umalloc.c, and the
    invariants of both are joined: while the program keeps to the blocks it
    holds, no two threads share a byte of stack. *)

From stdpp Require Import base numbers list gmap strings.
From S2P Require Import Prelude Kernel Sched Kalloc Umalloc Uthread.

(** ** The allocator as the library's [malloc] and [free]

    Every free block takes at least a header, so the break bounds their
    number and with it the steps of the loops. *)
Definition enough (h : heapst) : nat := Z.to_nat (brk h) + 5.

#[export] Instance umalloc_ops {HP : Heap} : Malloc := {
  heap := heapst;
  malloc n s := default (0, s) (Umalloc.malloc (enough (snd s)) n s);
  free p s := default s (Umalloc.free (enough (snd s)) p s);
}.

(** The stack a thread of the library holds; the first thread runs on the
    stack of the process. *)
Definition own (t : thread) : option Z :=
  if bool_decide (t_state t = TERMINATED) then None else if tid t =? 0 then None else Some (stack t).

Lemma own_same t t' : (live t <-> live t') -> tid t' = tid t -> stack t' = stack t -> own t' = own t.
Proof.
  unfold own, live. intros Hl -> ->. assert (bool_decide (t_state t' = TERMINATED) = bool_decide (t_state t = TERMINATED)) as ->; [|done].
  apply bool_decide_ext. destruct (decide (t_state t = TERMINATED)), (decide (t_state t' = TERMINATED)); tauto.
Qed.

Section Stacks.
Context {HP : Heap} {UL : ULink}.
Context (lo : Z) (base_low : 0 < a_base /\ a_base + HDR <= lo) (lo_top : lo <= TOP).

Definition owns (s : ust) : list (option Z) := own <$> threadTable s.

(** ** Programs

    A program that runs threads, holding the blocks [B], the stacks among
    them.  Its threads call the library, compute, and use the allocator
    themselves.  They write only to blocks the program holds and below the
    heap, outside of the allocator's [base]. *)
Definition may_write (B : gmap Z Z) (x : Z) : Prop :=
  (x < lo /\ ~ (a_base <= x < a_base + HDR)) \/ exists ap n, B !! ap = Some n /\ ap <= x < ap + n.

Definition uses_heap (l : label) : bool :=
  match l with LExit | LCreate | LUser => true | _ => false end.

Inductive prog : gmap Z Z -> ust -> Prop :=
| p_init s0 s : threadSystemOn s0 = false -> length (threadTable s0) = MAX_UTHREADS ->
    length (semaphores s0) = MAX_BSEM -> nexttid s0 = 0 -> freep (snd (umem s0)) = 0 -> brk (snd (umem s0)) = lo ->
    uthread_init s0 = URet 0 s -> prog ∅ s
| p_call B l s s' : prog B s -> lib_step l s s' -> uses_heap l = false -> prog B s'
| p_exit B s s' c t : prog B s -> running s c t -> uthread_exit s = URet tt s' ->
    prog (if tid t =? 0 then B else delete (stack t) B) s'
| p_create B e a r s s' c t stk mh : prog B s -> running s c t -> nexttid s < 2147483647 ->
    malloc STACKSZ (umem s) = (stk, mh) -> stk <> 0 -> uthread_create e a s = URet r s' ->
    prog (if r =? -1 then B else <[stk := STACKSZ]> B) s'
| p_compute B fr cl n s c t : prog B s -> running s c t -> prog B (set_sigframe fr (set_clock cl (set_now n s)))
| p_store B x v s c t : prog B s -> running s c t -> may_write B x ->
    prog B (set_umem (<[x := v]> (fst (umem s)), snd (umem s)) s)
| p_malloc B n r mh s c t : prog B s -> running s c t -> 0 <= n < 2147483632 -> malloc n (umem s) = (r, mh) ->
    prog (if r =? 0 then B else <[r := n]> B) (set_umem mh s)
| p_free B ap n s c t : prog B s -> running s c t -> B !! ap = Some n -> Some ap ∉ owns s ->
    prog (delete ap B) (set_umem (free ap (umem s)) s).

(** ** The allocator's side *)

Definition heap_of (B : gmap Z Z) (mh : gmap Z Z * heapst) : Prop :=
  exists F A, heap_inv lo F A (fst mh) (snd mh) /\ holds B A.

Lemma ordered_length l F hi : ordered l F hi -> 8 * Z.of_nat (length F) <= hi - l.
Proof using.
  revert l. induction F as [|[a n] F IH]; intros l; cbn; [lia|]. intros (H1 & H2 & H3%IH). unfold HDR in *. lia.
Qed.

Lemma enough_fuel F A m h : heap_inv lo F A m h -> 0 <= lo -> (2 * length F + 4 < enough h)%nat.
Proof using.
  intros [(_ & -> & _ & _ & ?)|HK] Hlo; [cbn; unfold enough; lia|].
  pose proof (ordered_length _ _ _ (hk_ord _ _ _ _ _ HK)). unfold enough. lia.
Qed.

Lemma heap_malloc B n mh r mh' :
  heap_of B mh -> 0 <= n < 2147483632 -> malloc n mh = (r, mh') ->
  heap_of (if r =? 0 then B else <[r := n]> B) mh' /\ B !! r = None.
Proof using base_low.
  intros (F & A & HI & HB) Hn E. destruct mh as [m h]. cbn [fst snd] in HI.
  pose proof (enough_fuel F A m h HI ltac:(unfold HDR in *; lia)) as Hf.
  destruct (malloc_spec lo F A m h n (enough h) HI Hn Hf) as (r' & m' & h' & E' & D1 & D2 & F' & A' & D3 & _ & D5).
  unfold malloc in E. cbn [snd umalloc_ops] in E. rewrite E' in E. cbn in E. injection E as <- <-.
  destruct D5 as [[-> ->]|(Hr & HA & ->)].
  - split; [by exists F', A; split; [right|]|]. destruct (B !! 0) as [k|] eqn:E0; [|done].
    destruct (holds_at B A 0 k HB E0) as [H1 _]. destruct (hk_used _ _ _ _ _ D3 _ _ H1) as (? & _). unfold HDR in *. lia.
  - rewrite (proj2 (Z.eqb_neq r' 0)) by (unfold HDR in *; lia). split.
    + exists F', (<[r' - HDR := units n]> A). split; [by right|by apply holds_insert].
    + destruct HB as [HB _]. rewrite HB, Z.sub_add in HA. by destruct (B !! r').
Qed.

Lemma heap_free B ap n mh : heap_of B mh -> B !! ap = Some n -> heap_of (delete ap B) (free ap mh).
Proof using base_low.
  intros (F & A & HI & HB) Hap. destruct mh as [m h]. cbn [fst snd] in HI.
  pose proof (enough_fuel F A m h HI ltac:(unfold HDR in *; lia)) as Hf. destruct (holds_at B A ap n HB Hap) as [H1 _].
  pose proof (heap_inv_used _ _ _ _ _ _ _ HI H1) as HK.
  destruct (free_spec lo F A m h (ap - HDR) (units n) (enough h) HK H1 ltac:(lia)) as (m' & h' & G & E & D1 & _).
  rewrite Z.sub_add in E. unfold free. cbn [snd umalloc_ops]. rewrite E. cbn.
  exists G, (delete (ap - HDR) A). split; [by right|by apply holds_delete].
Qed.

Lemma heap_store B x v m h : heap_of B (m, h) -> may_write B x -> heap_of B (<[x := v]> m, h).
Proof using base_low.
  intros (F & A & HI & HB) Hx. exists F, A. split; [|done]. cbn [fst snd] in *.
  destruct HI as [HI|HK]; [by left|right]. destruct Hx as [[Hx Hb]|(ap & n & Hap & Hx)].
  - eapply heap_ok_ext; [done|]. intros y Hy. unfold mget. rewrite lookup_insert_ne; [done|]. intros <-.
    destruct Hy as [Hy|[Hy|(a & n & Ha & Hy)]]; [done| |].
    + apply (covers_range _ _ _ _ (hk_ord _ _ _ _ _ HK)) in Hy. lia.
    + destruct (hk_used _ _ _ _ _ HK a n Ha) as (? & _). lia.
  - destruct (holds_at B A ap n HB Hap) as [H1 H2]. eapply heap_ok_store; [done|done|]. unfold HDR in *. lia.
Qed.

Lemma heap_store32 B a v m h ap n :
  heap_of B (m, h) -> B !! ap = Some n -> ap <= a -> a + 4 <= ap + n -> heap_of B (store32 m a v, h).
Proof using base_low.
  intros HH Hap Ha Hn. rewrite store32_mput. unfold bytes32, mput. cbn.
  repeat (apply heap_store; [|right; exists ap, n; split; [done|lia]]). done.
Qed.

Lemma heap_apart B mh ap n bp k :
  heap_of B mh -> B !! ap = Some n -> B !! bp = Some k -> ap <> bp -> ap + n <= bp \/ bp + k <= ap.
Proof using.
  intros (F & A & HI & HB) Ha Hb Hne. destruct (holds_at B A ap n HB Ha) as [A1 A2]. destruct (holds_at B A bp k HB Hb) as [B1 B2].
  pose proof (heap_inv_used _ _ _ _ _ _ _ HI A1) as HK.
  destruct (hk_apart _ _ _ _ _ HK _ _ _ _ A1 B1) as [?|?]; [lia|unfold HDR in *; lia|unfold HDR in *; lia].
Qed.

Lemma heap_range B mh ap n : heap_of B mh -> B !! ap = Some n -> lo < ap /\ ap + n <= brk (snd mh).
Proof using.
  intros (F & A & HI & HB) Ha. destruct (holds_at B A ap n HB Ha) as [A1 A2].
  pose proof (heap_inv_used _ _ _ _ _ _ _ HI A1) as HK. destruct (hk_used _ _ _ _ _ HK _ _ A1) as (? & ? & ? & _).
  unfold HDR in *. lia.
Qed.

(** ** The library's side *)

Lemma owns_insert i t t' s s' :
  threadTable s' = <[i := t']> (threadTable s) -> threadTable s !! i = Some t -> own t' = own t -> owns s' = owns s.
Proof using.
  intros E Ht Ho. unfold owns. rewrite E, list_fmap_insert, Ho. apply list_insert_id. by rewrite list_lookup_fmap, Ht.
Qed.

Lemma owns_fmap f s s' :
  threadTable s' = f <$> threadTable s -> (forall i t, threadTable s !! i = Some t -> own (f t) = own t) -> owns s' = owns s.
Proof using.
  intros E Ho. unfold owns. rewrite E. apply list_eq. intros i. rewrite !list_lookup_fmap.
  destruct (threadTable s !! i) as [t|] eqn:Ht; cbn; [|done]. by rewrite (Ho i t Ht).
Qed.

Lemma schedule_owns s s' : uinv s -> uthread_schedule s = URet tt s' -> owns s' = owns s /\ umem s' = umem s.
Proof using.
  intros Hi E. destruct (ui_ct s Hi) as (c & t & Hc & Ht & Hx).
  destruct (schedule_run s c t (ui_len s Hi) Hc Ht Hx)
    as [(j & ? & cl & n & u & _ & _ & _ & _ & Hu & Hr & E')|[E' _]]; [|congruence].
  rewrite E in E'. injection E' as ->. split; [|done]. transitivity (owns (with_parked s c t)).
  - eapply owns_insert; [done|exact Hu|]. apply own_same; [|done|done]. unfold live. cbn.
    split; [done|]. intros _. destruct Hr as [->|[-> _]]; done.
  - eapply owns_insert; [done|exact Ht|]. apply own_same; [|done|done]. unfold live, parked. cbn. by case_bool_decide as Hs; [rewrite Hs|].
Qed.

Lemma call_owns l s s' : uinv s -> lib_step l s s' -> uses_heap l = false -> owns s' = owns s /\ umem s' = umem s.
Proof using.
  intros Hi Hst Hl. pose proof (ui_on s Hi) as Hon.
  destruct Hst as [n r s s' c tc Hr E|i' s s' c tc Hr E|s s' c tc Hr E|e a r s s' c tc Hr Hn E
    |r s s' c tc Hr E|n v s s' c tc Hr Hv E|n v s s' c tc Hr Hv E|n v s s' c tc Hr Hv E
    |s s' _ _ E|fr m cl n s c tc Hr]; try done.
  - destruct (running_facts s c tc Hi Hr) as (Hlv & _). destruct Hr as (Hc & Ht & _).
    destruct (uthread_sleep_run n s c tc Hon Hc Ht) as (u & cl & _ & E'). rewrite E in E'. injection E' as _ ->.
    split; [|done]. eapply owns_insert; [done|exact Ht|by apply own_same].
  - destruct (running_facts s c tc Hi Hr) as (Hlv & _). destruct Hr as (Hc & Ht & _).
    rewrite (uthread_join_run i' s c tc Hon Hc Ht) in E. destruct (find_idx _ _) as [k|]; [|by injection E as <-].
    destruct (threadTable s !! k) as [u|]; [|done]. case_bool_decide; injection E as <-; [done|].
    split; [|done]. eapply owns_insert; [done|exact Ht|by apply own_same].
  - rewrite bsem_alloc_run in E. by destruct (find_idx _ _); injection E as _ <-.
  - rewrite (bsem_free_run n v s Hv) in E. injection E as <-. split; [|done]. destruct Hv as [Hn _].
    eapply owns_fmap; [done|]. intros i u Hu. unfold release_waiter. destruct (Z.eqb_spec (blockedOnSemaphore u) n); [|done].
    destruct (ui_blk s Hi i u Hu) as (Hs & _); [lia|]. apply own_same; [|done|done]. unfold live. cbn. by rewrite Hs.
  - destruct (running_facts s c tc Hi Hr) as (Hlv & _). destruct Hr as (Hc & Ht & _).
    rewrite (bsem_down_run n v s c tc Hv Hc Ht) in E. injection E as <-. destruct (v =? -1); [done|].
    destruct (v =? 0); [|done]. split; [|done]. eapply owns_insert; [done|exact Ht|by apply own_same].
  - rewrite (bsem_up_run n v s Hv) in E. destruct (v =? -1); [by injection E as <-|].
    destruct (waiter s n) as [k|] eqn:Hw; [|by injection E as <-].
    destruct (waiter_Some s n k Hw) as (u & Hu & Hb). rewrite Hu in E. injection E as <-. split; [|done].
    destruct Hv as [Hn _]. destruct (ui_blk s Hi k u Hu) as (Hs & _); [lia|].
    eapply owns_insert; [done|exact Hu|]. apply own_same; [|done|done]. unfold live. cbn. by rewrite Hs.
  - by apply schedule_owns.
Qed.

(** ** Both together *)

Record stacks_ok (B : gmap Z Z) (s : ust) : Prop := {
  so_inv : uinv s;
  so_heap : heap_of B (umem s);
  so_held : forall i p, owns s !! i = Some (Some p) -> B !! p = Some STACKSZ;
  so_inj : forall i j p, owns s !! i = Some (Some p) -> owns s !! j = Some (Some p) -> i = j;
}.

Lemma stacks_same B s s' : stacks_ok B s -> uinv s' -> owns s' = owns s -> heap_of B (umem s') -> stacks_ok B s'.
Proof using. intros [H1 H2 H3 H4] Hi Ho Hh. constructor; rewrite ?Ho; done. Qed.

(** Blocks that are no stacks come and go. *)
Lemma stacks_heap B B' s mh :
  stacks_ok B s -> heap_of B' mh -> (forall i p, owns s !! i = Some (Some p) -> B' !! p = B !! p) -> stacks_ok B' (set_umem mh s).
Proof using.
  intros [H1 H2 H3 H4] Hh HB. constructor; [by apply (uinv_same s)|done| |done].
  intros i p Hp. rewrite (HB i p Hp). by apply (H3 i).
Qed.

Lemma init_stacks s0 s :
  threadSystemOn s0 = false -> length (threadTable s0) = MAX_UTHREADS -> length (semaphores s0) = MAX_BSEM ->
  nexttid s0 = 0 -> freep (snd (umem s0)) = 0 -> brk (snd (umem s0)) = lo -> uthread_init s0 = URet 0 s -> stacks_ok ∅ s.
Proof using base_low lo_top.
  intros Hon Hl Hs Hn Hf Hb E. destruct (init_inv s0 s Hon Hl Hs ltac:(lia) E) as [Hi _].
  destruct (lookup_lt_is_Some_2 (threadTable s0) 0) as [t0 H0]; [rewrite Hl; unfold MAX_UTHREADS; lia|].
  rewrite (uthread_init_run s0 t0 Hon H0) in E. injection E as <-.
  assert (forall i p, owns (requested (set_alarm_handler a_alarmHandler (set_ct (Some 0%nat)
      (with_thread 0 (set_joinOnTid joinNone (set_t_state RUNNING (set_indexInThreadtable 0
         (set_tid (nexttid s0) (blank t0)))))
        (set_nexttid (s32 (nexttid s0 + 1)) (set_threadTable (blank <$> threadTable s0)
          (set_threadSystemOn true s0))))))) !! i <> Some (Some p)) as Hno.
  { intros i p. unfold owns. cbn. rewrite list_lookup_fmap. destruct (decide (i = 0%nat)) as [->|Hne].
    - rewrite list_lookup_insert_eq by (rewrite length_fmap, Hl; unfold MAX_UTHREADS; lia). cbn. by rewrite Hn.
    - rewrite list_lookup_insert_ne, list_lookup_fmap by done. by destruct (threadTable s0 !! i). }
  constructor; [done| |intros i p Hp; by apply Hno in Hp|intros i j p Hp; by apply Hno in Hp].
  exists [], ∅. cbn in Hb, Hf |- *. split; [left; split_and!; try done; lia|]. split; [intros a; by rewrite !lookup_empty|].
  intros ap n Ha. by rewrite lookup_empty in Ha.
Qed.

Lemma exit_stacks B s s' c t :
  stacks_ok B s -> running s c t -> uthread_exit s = URet tt s' -> stacks_ok (if tid t =? 0 then B else delete (stack t) B) s'.
Proof using base_low.
  intros HS Hr E. pose proof HS as [Hi Hh Hd Hj]. pose proof (exit_inv s c t tt s' Hi Hr E) as Hi'.
  destruct (running_facts s c t Hi Hr) as (Hl & _ & Hjt & _ & Htid). destruct Hr as (Hc & Ht & Hrun).
  rewrite (uthread_exit_run s c t (ui_on s Hi) Hc Ht) in E. destruct (_ =? 1); [done|]. injection E as <-.
  set (s1 := set_threadTable (release_joiners (tid t) <$> threadTable s) s) in *. set (t' := set_t_state TERMINATED _) in *.
  assert (owns s1 = owns s) as Eo.
  { eapply owns_fmap; [done|]. intros i u Hu. unfold release_joiners. destruct (Z.eqb_spec (joinOnTid u) (u32 (tid t))) as [Ej|]; [|done].
    destruct (ui_join s Hi i u Hu) as [Hs _].
    - rewrite Ej. change joinNone with 4294967295. pose proof (ui_next s Hi). rewrite u32_small; lia.
    - apply own_same; [|done|done]. unfold live. cbn. by rewrite Hs. }
  set (s2 := requested _) in *. assert (owns s2 = <[c := None]> (owns s)) as Eo2.
  { rewrite <- Eo. transitivity (own <$> <[c := t']> (threadTable s1)); [unfold s2, owns, freed_stack; by destruct (negb _)|].
    rewrite list_fmap_insert. done. }
  assert (owns s !! c = Some (own t)) as Hown by (unfold owns; by rewrite list_lookup_fmap, Ht).
  assert (forall i p, owns s2 !! i = Some (Some p) -> i <> c /\ owns s !! i = Some (Some p)) as Hi2.
  { intros i p. rewrite Eo2. destruct (decide (i = c)) as [->|Hne]; [|by rewrite list_lookup_insert_ne].
    rewrite list_lookup_insert_eq; [done|]. by eapply lookup_lt_Some. }
  constructor; [done| | |].
  - unfold s2, freed_stack, own in *. rewrite bool_decide_eq_false_2 in Hown by done. destruct (tid t =? 0); [done|].
    cbn [negb]. apply (heap_free B (stack t) STACKSZ); [done|]. by apply (Hd c).
  - intros i p [Hne Hp]%Hi2. unfold own in Hown. rewrite bool_decide_eq_false_2 in Hown by done.
    destruct (tid t =? 0); [by apply (Hd i)|]. rewrite lookup_delete_ne; [by apply (Hd i)|].
    intros <-. apply Hne. by eapply Hj.
  - intros i j p [_ Hp]%Hi2 [_ Hq]%Hi2. by eapply Hj.
Qed.

Lemma new_stack_heap B stk arg m h :
  heap_of B (m, h) -> B !! stk = Some STACKSZ -> heap_of B (new_stack stk arg m, h).
Proof using base_low lo_top.
  intros Hh Hb. destruct (heap_range B (m, h) stk STACKSZ Hh Hb) as [H1 H2]. cbn in H2.
  assert (brk h <= TOP) as Ht by (destruct Hh as (F & A & [(_ & _ & _ & _ & Hx)|HK] & _); [apply Hx|apply HK]).
  unfold new_stack. rewrite !(u32_small (stk + STACKSZ)) by (unfold TOP, STACKSZ, HDR in *; lia).
  rewrite !(u32_small (stk + STACKSZ - 4)) by (unfold TOP, STACKSZ, HDR in *; lia).
  rewrite !(u32_small (stk + STACKSZ - 4 - 4)) by (unfold TOP, STACKSZ, HDR in *; lia).
  eapply heap_store32; [eapply heap_store32; [done|done|..]|done|..]; unfold STACKSZ; lia.
Qed.

Lemma create_stacks B e a r s s' c t stk mh :
  stacks_ok B s -> running s c t -> nexttid s < 2147483647 -> malloc STACKSZ (umem s) = (stk, mh) -> stk <> 0 ->
  uthread_create e a s = URet r s' -> stacks_ok (if r =? -1 then B else <[stk := STACKSZ]> B) s'.
Proof using base_low lo_top.
  intros HS Hr Hnx Em Hstk E. pose proof HS as [Hi Hh Hd Hj]. pose proof (create_inv e a s c t r s' Hi Hr Hnx E) as Hi'.
  pose proof (ui_on s Hi) as Hon. destruct (running_facts s c t Hi Hr) as (_ & _ & _ & _ & Htid).
  destruct (find_idx (fun t => bool_decide (t_state t = TERMINATED)) (threadTable s)) as [k|] eqn:Hf.
  2: { rewrite uthread_create_full in E; [by injection E as <- <-|done|].
       intros u [j Hju]%list_elem_of_lookup. apply (proj1 (find_idx_None _ _) Hf j) in Hju. by apply bool_decide_eq_false_1 in Hju. }
  pose proof Hf as [(t0 & Ht0 & _) _]%find_idx_Some. destruct mh as [m h].
  rewrite (uthread_create_run e a s c t k t0 stk m h Hon Hr Hf Ht0 Em) in E. injection E as <- <-. cbn [Z.eqb].
  destruct (heap_malloc B STACKSZ (umem s) stk (m, h) Hh ltac:(unfold STACKSZ; lia) Em) as [Hh' Hnew].
  rewrite (proj2 (Z.eqb_neq stk 0)) in Hh' by done.
  set (s2 := with_thread _ _ _) in *.
  assert (forall i p, owns s2 !! i = Some (Some p) -> (i = k /\ p = stk) \/ (i <> k /\ owns s !! i = Some (Some p))) as Hi2.
  { intros i p. unfold s2, owns. cbn. rewrite !list_lookup_fmap. destruct (decide (i = k)) as [->|Hne].
    - rewrite list_lookup_insert_eq by (by eapply lookup_lt_Some). cbn. unfold own. cbn.
      rewrite (proj2 (Z.eqb_neq (nexttid s) 0)) by lia. intros [= <-]. by left.
    - rewrite list_lookup_insert_ne by done. by right. }
  assert (forall i, owns s !! i <> Some (Some stk)) as Hfresh by (intros i Hp%Hd; congruence).
  constructor; [done| | |].
  - apply new_stack_heap; [done|apply lookup_insert_eq].
  - intros i p [[-> ->]|[Hne Hp]]%Hi2; [apply lookup_insert_eq|]. rewrite lookup_insert_ne; [by apply (Hd i)|].
    intros <-. by apply (Hfresh i).
  - intros i j p [[-> ->]|[Hne Hp]]%Hi2 [[-> Eq]|[Hne' Hq]]%Hi2; [done| | |by eapply Hj].
    + by apply Hfresh in Hq.
    + subst p. by apply Hfresh in Hp.
Qed.

Lemma prog_stacks B s : prog B s -> stacks_ok B s.
Proof using base_low lo_top.
  induction 1 as [s0 s ? ? ? ? ? ? E|B l s s' _ IH Hst Hl|B s s' c t _ IH Hr E|B e a r s s' c t stk mh _ IH Hr Hn Em Hs E
    |B fr cl n s c t _ IH _|B x v s c t _ IH _ Hx|B n r mh s c t _ IH _ Hn E|B ap n s c t _ IH _ Hap Hno].
  - by eapply init_stacks.
  - pose proof (so_inv _ _ IH) as Hi. destruct (call_owns l s s' Hi Hst Hl) as [Eo Em].
    apply (stacks_same B s); [done|by eapply lib_step_inv|done|]. rewrite Em. apply IH.
  - by apply (exit_stacks B s s' c t).
  - by eapply create_stacks.
  - apply (stacks_same B s); [done|apply (uinv_same s); try done; apply IH|done|apply IH].
  - apply (stacks_heap B); [done| |done]. apply heap_store; [|done]. pose proof (so_heap _ _ IH) as Hh. by destruct (umem s).
  - destruct (heap_malloc B n (umem s) r mh (so_heap _ _ IH) Hn E) as [Hh Hnew]. apply (stacks_heap B); [done|done|].
    intros i p Hp. destruct (r =? 0); [done|]. rewrite lookup_insert_ne; [done|]. intros <-. apply (so_held _ _ IH) in Hp. congruence.
  - apply (stacks_heap B); [done|by eapply heap_free, Hap; apply IH|]. intros i p Hp. rewrite lookup_delete_ne; [done|].
    intros <-. apply Hno. by eapply list_elem_of_lookup_2.
Qed.

Lemma owns_at s i t : threadTable s !! i = Some t -> live t -> tid t <> 0 -> owns s !! i = Some (Some (stack t)).
Proof using.
  intros Ht Hl Hn. unfold owns. rewrite list_lookup_fmap, Ht. cbn. unfold own.
  rewrite bool_decide_eq_false_2 by done. by rewrite (proj2 (Z.eqb_neq _ _) Hn).
Qed.

End Stacks.

(** ** An example *)

Section Example.
#[local] Existing Instance heap_example.
#[local] Existing Instance ulink_example.

Definition st_fresh : ust :=
  mkust (replicate MAX_UTHREADS thread_zero) 0 None false (replicate MAX_BSEM (-1)) tf_zero
    (∅, mkheap 0 8192) [] 0 false 0 0 [].
Definition st_one : ust := after uthread_init st_fresh.
Definition st_two : ust := after (uthread_create 512 8) st_one.
Definition st_three : ust := after (uthread_create 512 7) st_two.

(** The two stacks lie at the end of the 32 KB the first [malloc] asks for. *)
Definition held_two : gmap Z Z := {[ 36864 := STACKSZ ]}.
Definition held_three : gmap Z Z := <[32760 := STACKSZ]> held_two.

Definition returns {A} (m : U A) (s : ust) : option A := match m s with URet a _ => Some a | _ => None end.
Lemma returns_after {A} (m : U A) s a : returns m s = Some a -> m s = URet a (after m s).
Proof. unfold returns, after. destruct (m s); [intros [= ->]; reflexivity|discriminate..]. Qed.

Lemma fresh_inits_returns : returns uthread_init st_fresh = Some 0.
Proof. vm_compute. reflexivity. Qed.
Lemma fresh_inits : uthread_init st_fresh = URet 0 st_one.
Proof. unfold st_one. exact (returns_after uthread_init st_fresh 0 fresh_inits_returns). Qed.
Lemma one_creates_returns : returns (uthread_create 512 8) st_one = Some 0.
Proof. vm_compute. reflexivity. Qed.
Lemma one_creates : uthread_create 512 8 st_one = URet 0 st_two.
Proof. unfold st_two. exact (returns_after (uthread_create 512 8) st_one 0 one_creates_returns). Qed.
Lemma two_creates_returns : returns (uthread_create 512 7) st_two = Some 0.
Proof. vm_compute. reflexivity. Qed.
Lemma two_creates : uthread_create 512 7 st_two = URet 0 st_three.
Proof. unfold st_three. exact (returns_after (uthread_create 512 7) st_two 0 two_creates_returns). Qed.
Lemma one_runs : running st_one 0 (default thread_zero (threadTable st_one !! 0%nat)).
Proof. split; [|split]; vm_compute; reflexivity. Qed.
Lemma two_runs : running st_two 0 (default thread_zero (threadTable st_two !! 0%nat)).
Proof. split; [|split]; vm_compute; reflexivity. Qed.
Lemma one_malloc : fst (malloc STACKSZ (umem st_one)) = 36864.
Proof. vm_compute. reflexivity. Qed.
Lemma two_malloc : fst (malloc STACKSZ (umem st_two)) = 32760.
Proof. vm_compute. reflexivity. Qed.

Lemma pair_eq {A B} (x : A * B) a : fst x = a -> x = (a, snd x).
Proof. destruct x. intros <-. reflexivity. Qed.
Lemma one_tids : nexttid st_one < 2147483647.
Proof. vm_compute. reflexivity. Qed.
Lemma two_tids : nexttid st_two < 2147483647.
Proof. vm_compute. reflexivity. Qed.

Lemma prog_one : prog 8192 ∅ st_one.
Proof. exact (p_init 8192 st_fresh st_one eq_refl eq_refl eq_refl eq_refl eq_refl eq_refl fresh_inits). Qed.
Lemma prog_two : prog 8192 held_two st_two.
Proof.
  exact (p_create 8192 ∅ 512 8 0 st_one st_two 0%nat _ 36864 _ prog_one one_runs one_tids
    (pair_eq _ _ one_malloc) ltac:(discriminate) one_creates).
Qed.
Lemma prog_three : prog 8192 held_three st_three.
Proof.
  exact (p_create 8192 held_two 512 7 0 st_two st_three 0%nat _ 32760 _ prog_two two_runs two_tids
    (pair_eq _ _ two_malloc) ltac:(discriminate) two_creates).
Qed.

Lemma three_threads : exists t u, threadTable st_three !! 1%nat = Some t /\ threadTable st_three !! 2%nat = Some u /\
  tid t = 1 /\ tid u = 2 /\ t_state t = READY /\ t_state u = READY.
Proof. do 2 eexists. split; [vm_compute; reflexivity|]. split; [vm_compute; reflexivity|]. split; [|split; [|split]]; reflexivity. Qed.

End Example.
