(* ===== verification/Ubsem.v ===== *)
(** * uthread.c: what its semaphores, join and exit guarantee

    Theorems about [bsem_down], [bsem_up], [uthread_join],
    [uthread_exit] and [uthread_create] on top of the invariant of
    Uthread.v, and two places where a switch at the wrong moment breaks
    the library. *)

From stdpp Require Import base numbers list gmap strings.
From S2P Require Import Prelude Kernel Sched Kalloc Uthread.

Section Bsem.
Context {ML : Malloc} {UL : ULink}.

(** ** Mutual exclusion *)

Lemma sem_val_with_sem_ne s n m v w :
  sem_val s n v -> 0 <= m -> m <> n -> sem_val (with_sem m w s) n v.
Proof.
  intros [Hn Hv] Hm Hne. split; [done|]. cbn. rewrite list_lookup_insert_ne by lia. done.
Qed.

Lemma sem_val_with_sem_eq s n v w : sem_val s n v -> sem_val (with_sem n w s) n w.
Proof.
  intros [Hn Hv]. split; [done|]. cbn. apply list_lookup_insert_eq. by eapply lookup_lt_Some.
Qed.

Lemma sem_val_fun s n v w : sem_val s n v -> sem_val s n w -> v = w.
Proof. intros [_ H1] [_ H2]. congruence. Qed.

(** Steps that are not about semaphore [n] leave it alone. *)
Lemma lib_step_sem l s s' n v :
  uinv s -> lib_step l s s' -> l <> LDown n -> l <> LUp n -> l <> LFree n ->
  sem_val s n v -> v <> -1 -> sem_val s' n v.
Proof.
  intros Hi Hst Hd Hu Hf Hv Hn1.
  destruct Hst as [k r s s' c tc Hr E|i' s s' c tc Hr E|s s' c tc Hr E|e a r s s' c tc Hr Hn E
    |r s s' c tc Hr E|m w s s' c tc Hr Hw E|m w s s' c tc Hr Hw E|m w s s' c tc Hr Hw E
    |s s' _ _ E|fr m cl k s c tc Hr].
  all: pose proof (ui_on s Hi) as Hon; try destruct Hr as (Hc & Ht & Hrun).
  - destruct (uthread_sleep_run k s c tc Hon Hc Ht) as (u & cl & _ & E').
    rewrite E in E'. by injection E' as _ ->.
  - rewrite (uthread_join_run i' s c tc Hon Hc Ht) in E.
    destruct (find_idx _ _) as [k|]; [|by injection E as <-].
    destruct (threadTable s !! k) as [u|]; [|done]. by case_bool_decide; injection E as <-.
  - rewrite (uthread_exit_run s c tc Hon Hc Ht) in E. destruct (_ =? 1); [done|].
    injection E as <-. unfold freed_stack. by destruct (negb _).
  - destruct (find_idx (fun t => bool_decide (t_state t = TERMINATED)) (threadTable s)) as [k|] eqn:Hk.
    2: { rewrite uthread_create_full in E; [by injection E as _ <-|done|].
         intros u [j Hj]%list_elem_of_lookup. apply (proj1 (find_idx_None _ _) Hk j) in Hj.
         by apply bool_decide_eq_false_1 in Hj. }
    pose proof Hk as [(t0 & Ht0 & _) _]%find_idx_Some.
    destruct (malloc STACKSZ (umem s)) as [stk [m h]] eqn:Em.
    rewrite (uthread_create_run e a s c tc k t0 stk m h Hon (conj Hc (conj Ht Hrun)) Hk Ht0 Em) in E.
    by injection E as _ <-.
  - rewrite bsem_alloc_run in E. destruct (find_idx _ _) as [k|] eqn:Hk; injection E as _ <-; [|done].
    apply sem_val_with_sem_ne; [done|lia|]. intros <-.
    apply find_idx_Some in Hk as [(x & Hx & ->%Z.eqb_eq) _]. destruct Hv as [_ Hv].
    rewrite Nat2Z.id in Hv. congruence.
  - rewrite (bsem_free_run m w s Hw) in E. injection E as <-.
    apply (sem_val_with_sem_ne (set_threadTable (release_waiter m <$> threadTable s) s));
      [done|apply Hw|congruence].
  - rewrite (bsem_down_run m w s c tc Hw Hc Ht) in E. injection E as <-.
    destruct (w =? -1); [done|]. destruct (w =? 0); [done|].
    apply (sem_val_with_sem_ne s); [done|apply Hw|congruence].
  - rewrite (bsem_up_run m w s Hw) in E. destruct (w =? -1); [by injection E as <-|].
    destruct (waiter s m) as [k|] eqn:Hk.
    + destruct (threadTable s !! k); [|done]. by injection E as <-.
    + injection E as <-. apply (sem_val_with_sem_ne s); [done|apply Hw|congruence].
  - destruct (ui_ct s Hi) as (c & tc & Hc & Ht & Hx).
    destruct (schedule_run s c tc (ui_len s Hi) Hc Ht Hx)
      as [(j & ? & cl & k & u & _ & _ & _ & _ & Hu' & Hr & E')|[E' _]]; [|congruence].
    rewrite E in E'. by injection E' as ->.
  - done.
Qed.

(** Using semaphore [n] as a lock.  The list holds the threads that have
    passed [bsem_down] and not yet called [bsem_up]: those that found the
    value 1, and those that were blocked and got the semaphore from a
    [bsem_up]. *)
Inductive locking (n : Z) : ust -> list nat -> Prop :=
| lk_init s : uinv s -> sem_val s n 1 -> locking n s []
| lk_down s s' hs c t v : locking n s hs -> running s c t -> sem_val s n v ->
    bsem_down n s = URet tt s' -> locking n s' (if v =? 0 then hs else c :: hs)
| lk_up s s' hs c t : locking n s hs -> running s c t -> c ∈ hs ->
    bsem_up n s = URet tt s' ->
    locking n s' (match waiter s n with
                  | Some i => i :: filter (fun h => h <> c) hs
                  | None => filter (fun h => h <> c) hs
                  end)
| lk_other l s s' hs : locking n s hs -> lib_step l s s' ->
    l <> LDown n -> l <> LUp n -> l <> LFree n -> locking n s' hs.

Lemma locking_inv n s hs :
  locking n s hs ->
  uinv s /\ ((sem_val s n 1 /\ hs = []) \/ (sem_val s n 0 /\ exists h, hs = [h])).
Proof.
  induction 1 as [s Hi Hv|s s' hs c t v _ [Hi IH] Hr Hv E|s s' hs c t _ [Hi IH] Hr Hin E
    |l s s' hs _ [Hi IH] Hst Hd Hu Hf].
  - split; [done|by left].
  - split; [by eapply down_inv|]. destruct Hr as (Hc & Ht & _).
    rewrite (bsem_down_run n v s c t Hv Hc Ht) in E. injection E as <-.
    destruct IH as [[H1 ->]|[H0 [h ->]]].
    + rewrite (sem_val_fun s n v 1 Hv H1) in *. right. cbn. split; [|by exists c].
      by apply (sem_val_with_sem_eq s n 1).
    + rewrite (sem_val_fun s n v 0 Hv H0) in *. right. cbn. split; [exact H0|by exists h].
  - destruct IH as [[H1 ->]|[H0 [h ->]]]; [by apply elem_of_nil in Hin|].
    apply list_elem_of_singleton in Hin as ->.
    split; [by eapply up_inv|].
    rewrite (bsem_up_run n 0 s H0) in E. cbn [Z.eqb] in E.
    rewrite filter_cons_False by (by intros []). rewrite filter_nil.
    destruct (waiter s n) as [i|] eqn:Hw.
    + destruct (waiter_Some s n i Hw) as (u & Hu & _). rewrite Hu in E. injection E as <-.
      right. split; [exact H0|by exists i].
    + injection E as <-. left. split; [|done]. by apply (sem_val_with_sem_eq s n 0).
  - split; [by eapply lib_step_inv|].
    destruct IH as [[H1 ->]|[H0 [h ->]]]; [left|right].
    + split; [|done]. by eapply lib_step_sem.
    + split; [|by exists h]. by eapply lib_step_sem.
Qed.


(** ** Join and exit *)

Lemma freed_stack_table t s : threadTable (freed_stack t s) = threadTable s.
Proof. unfold freed_stack. by destruct (negb _). Qed.

Lemma live_count_1 s c t :
  threadTable s !! c = Some t -> live t ->
  (forall i u, i <> c -> threadTable s !! i = Some u -> t_state u = TERMINATED) ->
  Z.of_nat (length (filter (fun t => t_state t <> TERMINATED) (threadTable s))) = 1.
Proof.
  intros Ht Hl Hall. rewrite <- (take_drop_middle _ _ _ Ht), filter_app, filter_cons_True by done.
  assert (forall l, (forall x, x ∈ l -> t_state x = TERMINATED) ->
    filter (fun t => t_state t <> TERMINATED) l = []) as HF.
  { induction l as [|x l IH]; intros Hx; [done|].
    rewrite filter_cons_False by (intros Hn; apply Hn, Hx; by left). apply IH. intros y Hy. apply Hx. by right. }
  rewrite !HF; [done| |].
  - intros x [i Hx]%list_elem_of_lookup. rewrite lookup_drop in Hx.
    apply (Hall (S c + i)%nat); [lia|done].
  - intros x [i Hx]%list_elem_of_lookup. apply lookup_take_Some in Hx as [Hx ?].
    apply (Hall i); [lia|done].
Qed.

Lemma live_count_2 s c i t u :
  threadTable s !! c = Some t -> live t -> i <> c -> threadTable s !! i = Some u -> live u ->
  Z.of_nat (length (filter (fun t => t_state t <> TERMINATED) (threadTable s))) <> 1.
Proof.
  assert (forall c i t u, (i < c)%nat -> threadTable s !! c = Some t -> live t ->
    threadTable s !! i = Some u -> live u ->
    Z.of_nat (length (filter (fun t => t_state t <> TERMINATED) (threadTable s))) <> 1) as HG.
  { clear. intros c i t u Hlt Ht Hlt' Hu Hlu.
    rewrite <- (take_drop_middle _ _ _ Ht), filter_app, filter_cons_True by done.
    assert (take c (threadTable s) !! i = Some u) as Hu' by (by rewrite lookup_take_lt).
    rewrite <- (take_drop_middle _ _ _ Hu'), filter_app, filter_cons_True by done.
    rewrite !length_app. cbn. lia. }
  intros Ht Hlt Hic Hu Hlu. destruct (Nat.lt_total i c) as [?|[?|?]]; [|done|]; eauto.
Qed.

(** uthread.c [uthread_join] and [uthread_exit].  Joining a thread that
    is alive blocks the caller on that thread's id and asks for a switch;
    joining an id that no live thread has returns at once.  When a thread
    that is not the last one exits, exactly the threads blocked on its id
    become ready, its own entry becomes free, and no other entry changes;
    when the last one exits, the process exits. *)
Theorem join_until_exit s c t :
  uinv s -> running s c t ->
  (forall tid' i u, find_idx (fun t => tid' =? tid t) (threadTable s) = Some i ->
     threadTable s !! i = Some u -> live u ->
     uthread_join tid' s = URet tt (requested
       (with_thread c (set_t_state BLOCKED (set_joinOnTid (u32 tid') t)) s))) /\
  (forall tid', (forall i u, threadTable s !! i = Some u -> live u -> tid u <> tid') ->
     uthread_join tid' s = URet tt s) /\
  ((exists i u, i <> c /\ threadTable s !! i = Some u /\ live u) ->
     exists s', uthread_exit s = URet tt s' /\
       (exists t', threadTable s' !! c = Some t' /\ t_state t' = TERMINATED) /\
       forall i u, i <> c -> threadTable s !! i = Some u ->
         threadTable s' !! i = Some (if joinOnTid u =? u32 (tid t)
           then set_t_state READY (set_joinOnTid joinNone u) else u)) /\
  ((forall i u, i <> c -> threadTable s !! i = Some u -> t_state u = TERMINATED) ->
     exists s', uthread_exit s = UExit s').
Proof.
  intros Hi Hr. pose proof (ui_on s Hi) as Hon. pose proof Hr as (Hc & Ht & Hrun).
  split_and!.
  - intros tid' i u Hf Hu Hl. rewrite (uthread_join_run tid' s c t Hon Hc Ht), Hf, Hu.
    rewrite bool_decide_eq_false_2 by done.
    apply find_idx_Some in Hf as [(x & Hx & ->%Z.eqb_eq) _]. by simplify_eq.
  - intros tid' Hno. rewrite (uthread_join_run tid' s c t Hon Hc Ht).
    destruct (find_idx _ _) as [i|] eqn:Hf; [|done].
    apply find_idx_Some in Hf as [(x & Hx & ->%Z.eqb_eq) _]. rewrite Hx.
    case_bool_decide as Hterm; [done|]. by destruct (Hno i x Hx Hterm).
  - intros (i & u & Hic & Hu & Hl). rewrite (uthread_exit_run s c t Hon Hc Ht).
    rewrite (proj2 (Z.eqb_neq _ 1)); [|by eapply (live_count_2 s c i t u); [|unfold live; rewrite Hrun| | |]]. eexists. split; [done|].
    split; [eexists; split; [cbn; apply list_lookup_insert_eq|done]|].
    + rewrite freed_stack_table. cbn. rewrite length_fmap. by eapply lookup_lt_Some.
    + intros j v Hj Hv. cbn. rewrite list_lookup_insert_ne by done.
      rewrite freed_stack_table. cbn. by rewrite list_lookup_fmap, Hv.
  - intros Hall. rewrite (uthread_exit_run s c t Hon Hc Ht).
    rewrite (proj2 (Z.eqb_eq _ 1)); [by eexists|by eapply live_count_1; [|unfold live; rewrite Hrun|]].
Qed.

(** ** Creating a thread *)

Lemma create_result entry arg s c t i t0 stk m h :
  uinv s -> running s c t -> nexttid s < 2147483647 ->
  find_idx (fun t => bool_decide (t_state t = TERMINATED)) (threadTable s) = Some i ->
  threadTable s !! i = Some t0 -> malloc STACKSZ (umem s) = (stk, (m, h)) ->
  0 <= stk -> stk + STACKSZ < 4294967296 -> 0 <= arg < 4294967296 -> 0 <= a_uthread_exit < 4294967296 ->
  let u := new_thread (nexttid s) stk entry i (t_tf t) t0 in
  exists m',
    uthread_create entry arg s =
      URet 0 (with_thread i u (set_umem (m', h) (set_nexttid (nexttid s + 1) s))) /\
    tf_eip (t_tf u) = entry /\ tf_esp (t_tf u) = stk + 4088 /\
    load32 m' (stk + 4088) = a_uthread_exit /\ load32 m' (stk + 4092) = arg.
Proof.
  intros Hi Hr Hn Hf Ht0 Hm H0 H1 Ha He u. pose proof (ui_next s Hi) as Hnx.
  pose proof (uthread_create_run entry arg s c t i t0 stk m h (ui_on s Hi) Hr Hf Ht0 Hm) as E.
  rewrite s32_small in E by lia. exists (new_stack stk arg m). split; [exact E|].
  unfold STACKSZ in *.
  assert (u32 (stk + 4096) = stk + 4096) as E1 by (apply u32_small; lia).
  assert (u32 (stk + 4096 - 4) = stk + 4092) as E2 by (rewrite u32_small; lia).
  assert (u32 (stk + 4092 - 4) = stk + 4088) as E3 by (rewrite u32_small; lia).
  unfold u, new_thread, new_tf, new_stack, STACKSZ. cbn. rewrite E1, E2, E3, !u32_small by lia.
  split_and!; [done|done|by apply load32_store32|].
  rewrite (store32_mput _ (stk + 4088)), load32_mput_out by (cbn; lia). by apply load32_store32.
Qed.

(** uthread.c [uthread_create].  With a free entry and a stack from
    malloc, the first free entry becomes a ready thread with a new id,
    which starts at the given function with, on top of its stack, the
    address of [uthread_exit] and its argument, as if it had been called;
    no other entry changes.  With no free entry the call returns -1 and
    changes nothing. *)
Theorem uthread_create_starts entry arg s c t stk m h :
  uinv s -> running s c t -> nexttid s < 2147483647 ->
  malloc STACKSZ (umem s) = (stk, (m, h)) -> 0 < stk -> stk + STACKSZ < 4294967296 ->
  0 <= arg < 4294967296 -> 0 <= a_uthread_exit < 4294967296 ->
  ((forall i u, threadTable s !! i = Some u -> live u) ->
     uthread_create entry arg s = URet (-1) s) /\
  (forall i t0, threadTable s !! i = Some t0 -> t_state t0 = TERMINATED ->
     (forall j u, (j < i)%nat -> threadTable s !! j = Some u -> live u) ->
     exists s' u,
       uthread_create entry arg s = URet 0 s' /\
       threadTable s' = <[i := u]> (threadTable s) /\
       t_state u = READY /\ tid u = nexttid s /\ nexttid s' = nexttid s + 1 /\
       tf_eip (t_tf u) = entry /\ stk < tf_esp (t_tf u) < stk + STACKSZ /\
       load32 (fst (umem s')) (tf_esp (t_tf u)) = a_uthread_exit /\
       load32 (fst (umem s')) (tf_esp (t_tf u) + 4) = arg).
Proof.
  intros Hi Hr Hn Hm H0 H1 Ha He. split.
  - intros Hall. apply uthread_create_full; [apply (ui_on s Hi)|].
    intros u [j Hj]%list_elem_of_lookup. by eapply Hall.
  - intros i t0 Ht0 Hterm Hlt.
    assert (find_idx (fun t => bool_decide (t_state t = TERMINATED)) (threadTable s) = Some i) as Hf.
    { apply find_idx_Some. split; [exists t0; split; [done|by apply bool_decide_eq_true_2]|].
      intros j u Hj Hu. apply bool_decide_eq_false_2. by eapply Hlt. }
    destruct (create_result entry arg s c t i t0 stk m h Hi Hr Hn Hf Ht0 Hm) as (m' & E & E1 & E2 & E3 & E4);
      [lia..|].
    eexists _, _. split; [exact E|]. unfold STACKSZ in *. rewrite E2. cbn.
    replace (stk + 4088 + 4) with (stk + 4092) by lia.
    split_and!; try done; lia.
Qed.

(** uthread.c [uthread_create] does not test the result of malloc.
    When malloc fails, the call still returns 0 and leaves a ready thread
    whose stack pointer is 4088: its first words overwrite the program
    loaded at the bottom of the address space. *)
Theorem uthread_create_ignores_failure entry arg s c t i t0 m h :
  uinv s -> running s c t -> nexttid s < 2147483647 ->
  find_idx (fun t => bool_decide (t_state t = TERMINATED)) (threadTable s) = Some i ->
  threadTable s !! i = Some t0 -> malloc STACKSZ (umem s) = (0, (m, h)) ->
  0 <= arg < 4294967296 -> 0 <= a_uthread_exit < 4294967296 ->
  exists s' u,
    uthread_create entry arg s = URet 0 s' /\ threadTable s' !! i = Some u /\
    t_state u = READY /\ tf_esp (t_tf u) = 4088 /\
    load32 (fst (umem s')) 4088 = a_uthread_exit /\ load32 (fst (umem s')) 4092 = arg.
Proof.
  intros Hi Hr Hn Hf Ht0 Hm Ha He.
  destruct (create_result entry arg s c t i t0 0 m h Hi Hr Hn Hf Ht0 Hm) as (m' & E & _ & E2 & E3 & E4);
    [unfold STACKSZ; lia..|].
  eexists _, _. split; [exact E|]. split; [cbn; apply list_lookup_insert_eq; by eapply lookup_lt_Some|done].
Qed.
End Bsem.

Section OutOfMemory.
(** An allocator that has no memory left. *)
Definition malloc_fails : Malloc := {|
  heap := unit; malloc _ mh := (0, mh); free _ mh := mh;
|}.
#[local] Existing Instance malloc_fails.
#[local] Existing Instance ulink_example.

Definition ust_oom_fresh : ust :=
  @mkust malloc_fails (replicate MAX_UTHREADS thread_zero) 0 None false (replicate MAX_BSEM (-1))
    tf_zero (∅, tt) [] 0 false 0 0 [].
Definition ust_oom : ust := after uthread_init ust_oom_fresh.

Lemma uthread_create_ignores_failure_witness :
  exists s' u, uthread_create 4096 7 ust_oom = URet 0 s' /\ threadTable s' !! 1%nat = Some u /\
    tf_esp (t_tf u) = 4088.
Proof.
  destruct (uthread_create_ignores_failure 4096 7 ust_oom 0
    (default thread_zero (threadTable ust_oom !! 0%nat)) 1
    (default thread_zero (threadTable ust_oom !! 1%nat)) ∅ tt)
    as (s' & u & E & Hu & _ & Hesp & _).
  - apply reachable_inv. eapply (r_init ust_oom_fresh); [done..|cbn; lia|by vm_compute].
  - split_and!; by vm_compute.
  - by vm_compute.
  - by vm_compute.
  - by vm_compute.
  - by vm_compute.
  - lia.
  - by vm_compute.
  - by exists s', u.
Defined.
End OutOfMemory.

(** ** Two races

    [uthread_join] and [uthread_create] do not switch the alarm off, so
    the alarm handler may run in the middle of them.  Both programs below
    are executed from start to end. *)
Section Races.
#[local] Existing Instance malloc_example.
#[local] Existing Instance ulink_example.

(** The main thread creates thread 1 and calls [uthread_join(1)], which
    finds it alive ([found]); the alarm goes off; thread 1 exits; the main
    thread goes on and blocks. *)
Definition join_start : ust := after (uthread_create 4096 7) ust_one.
Definition join_other_exits : ust :=
  after uthread_schedule (after uthread_exit (after uthread_schedule join_start)).
Definition join_race (t1 : thread) : ust := after (join_block t1) join_other_exits.


(** Thread 1 and the main thread both call [uthread_create]; the alarm
    goes off in thread 1 after [getNextSpot] found entry 2 free. *)
Definition create_start : ust := after uthread_schedule join_start.
Definition create_other : ust := after (uthread_create 8192 5) (after uthread_schedule create_start).
Definition create_race : ust := after (create_at 2 4096 9) (after uthread_schedule create_other).

(** uthread.c [uthread_create], two creations in one entry.  If the
    alarm goes off after the free entry was found, and another thread
    creates a thread meanwhile, that thread gets the same entry and is
    overwritten: both calls return 0, but only one of the two new threads
    is in the table. *)
Theorem uthread_create_race :
  (exists s', getNextSpot create_start = URet 2 s') /\
  (exists s', uthread_create 8192 5 (after uthread_schedule create_start) = URet 0 s') /\
  (exists s', create_at 2 4096 9 (after uthread_schedule create_other) = URet 0 s') /\
  (exists t, threadTable create_other !! 2%nat = Some t /\ tid t = 2 /\ tf_eip (t_tf t) = 8192) /\
  forall i t, threadTable create_race !! i = Some t -> live t -> tf_eip (t_tf t) <> 8192.
Proof.
  split_and!.
  - eexists. by vm_compute.
  - exists create_other. by vm_compute.
  - exists create_race. by vm_compute.
  - exists (default thread_zero (threadTable create_other !! 2%nat)). split_and!; by vm_compute.
  - assert (forallb (fun t => bool_decide (t_state t = TERMINATED) || negb (tf_eip (t_tf t) =? 8192))
      (threadTable create_race) = true) as HF by (by vm_compute).
    intros i t Ht Hl. rewrite forallb_forall in HF.
    specialize (HF t (proj1 (list_elem_of_In _ _) (list_elem_of_lookup_2 _ _ _ Ht))).
    clear Ht. destruct (orb_prop _ _ HF) as [HF'|HF'].
    + apply bool_decide_eq_true_1 in HF'. destruct (Hl HF').
    + apply negb_true_iff, Z.eqb_neq in HF'. exact HF'.
Qed.
End Races.

(** ** Examples *)
Section Examples.
#[local] Existing Instance malloc_example.
#[local] Existing Instance ulink_example.

(** The main thread holds a semaphore, thread 1 blocks on it, and the
    main thread hands it over. *)
Definition lock_0 : ust := after bsem_alloc join_start.
Definition lock_1 : ust := after (bsem_down 0) lock_0.
Definition lock_2 : ust := later 100 lock_1.
Definition lock_3 : ust := after uthread_schedule lock_2.
Definition lock_4 : ust := after (bsem_down 0) lock_3.
Definition lock_5 : ust := after uthread_schedule lock_4.
Definition lock_6 : ust := after (bsem_up 0) lock_5.

Lemma reach_join_start : reachable join_start.
Proof.
  eapply r_step; [apply reach_one|].
  eapply (st_create 4096 7 0 _ _ 0%nat); [|by vm_compute..]. split_and!; by vm_compute.
Qed.

Lemma inv_lock_0 : uinv lock_0.
Proof. apply (alloc_inv join_start 0); [apply reachable_inv, reach_join_start|by vm_compute]. Qed.

Definition th (i : nat) (s : ust) : thread := default thread_zero (threadTable s !! i).

Lemma locking_example : locking 0 lock_6 [1%nat].
Proof.
  assert (locking 0 lock_1 [0%nat]) as H1.
  { exact (lk_down 0 lock_0 lock_1 [] 0 (th 0 lock_0) 1
      (lk_init 0 lock_0 inv_lock_0 ltac:(split; [lia|by vm_compute]))
      ltac:(split_and!; by vm_compute) ltac:(split; [lia|by vm_compute]) ltac:(by vm_compute)). }
  assert (lib_step LUser lock_1 lock_2) as S2.
  { refine (st_user (set_eip 100 tf_zero) (umem lock_1) [] 100 lock_1 0%nat (th 0 lock_1) _).
    split_and!; by vm_compute. }
  pose proof (lk_other 0 LUser lock_1 lock_2 _ H1 S2 ltac:(done) ltac:(done) ltac:(done)) as H2.
  assert (lib_step LSwitch lock_2 lock_3) as S3 by (apply st_switch; by vm_compute).
  pose proof (lk_other 0 LSwitch lock_2 lock_3 _ H2 S3 ltac:(done) ltac:(done) ltac:(done)) as H3.
  pose proof (lk_down 0 lock_3 lock_4 [0%nat] 1 (th 1 lock_3) 0 H3
    ltac:(split_and!; by vm_compute) ltac:(split; [lia|by vm_compute]) ltac:(by vm_compute)) as H4.
  assert (lib_step LSwitch lock_4 lock_5) as S5 by (apply st_switch; by vm_compute).
  pose proof (lk_other 0 LSwitch lock_4 lock_5 _ H4 S5 ltac:(done) ltac:(done) ltac:(done)) as H5.
  pose proof (lk_up 0 lock_5 lock_6 [0%nat] 0 (th 0 lock_5) H5
    ltac:(split_and!; by vm_compute) ltac:(by left) ltac:(by vm_compute)) as H6.
  assert (waiter lock_5 0 = Some 1%nat) as W by (by vm_compute).
  rewrite W in H6. exact H6.
Qed.


Lemma join_until_exit_witness :
  exists s', uthread_exit join_start = URet tt s' /\ exists t', threadTable s' !! 0%nat = Some t' /\
    t_state t' = TERMINATED.
Proof.
  destruct (join_until_exit join_start 0 (th 0 join_start)) as (_ & _ & HE & _).
  - apply reachable_inv, reach_join_start.
  - split_and!; by vm_compute.
  - destruct HE as (s' & E & Ht & _).
    + exists 1%nat, (th 1 join_start). split_and!; by vm_compute.
    + by exists s'.
Defined.

Lemma uthread_create_starts_witness :
  exists s', uthread_create 4096 7 join_start = URet 0 s' /\ nexttid s' = 3.
Proof.
  destruct (proj2 (uthread_create_starts 4096 7 join_start 0 (th 0 join_start) 69632
    (fst (umem join_start)) (69632 + 4096)
    (reachable_inv _ reach_join_start) ltac:(split_and!; by vm_compute) ltac:(by vm_compute)
    ltac:(by vm_compute) ltac:(lia) ltac:(by vm_compute) ltac:(lia) ltac:(by vm_compute))
    2%nat (th 2 join_start)) as (s' & u & E & _ & _ & _ & Hn & _).
  - by vm_compute.
  - by vm_compute.
  - intros j u Hj Hu. destruct j as [|[|j]]; [| |lia].
    + assert (u = th 0 join_start) as -> by (unfold th; by rewrite Hu). by vm_compute.
    + assert (u = th 1 join_start) as -> by (unfold th; by rewrite Hu). by vm_compute.
  - exists s'. split; [exact E|]. rewrite Hn. by vm_compute.
Defined.
End Examples.
