(* ===== verification/Usemaphore.v ===== *)
(** * usemaphore.c: counting semaphores from two binary ones

    [down] and [up] of a counting semaphore run in several threads at
    once; a switch may come between any two statements.  The state is the
    values of the two binary semaphores ([bin1] protects [value], [bin2]
    is open when [value] is positive), [value] and the statement every
    thread has reached.  A thread that finds a binary semaphore at 0 waits
    and gets it handed over by a later [bsem_up] (Ubsem.v shows that
    uthread.c's semaphores behave so). *)

From stdpp Require Import base numbers list gmap strings.
From S2P Require Import Prelude Kernel Kalloc Uthread.

(** ** allocSem and freeSem *)

Section Code.
Context {ML : Malloc} {UL : ULink}.

(** struct counting_semaphore in memory: three ints. *)
Definition OFF_BIN1 : Z := 0.
Definition OFF_BIN2 : Z := 4.
Definition OFF_VALUE : Z := 8.
Definition SIZEOF_CSEM : Z := 12.

Definition uload32 (a : Z) : U Z := ugets (fun s => s32 (load32 (fst (umem s)) a)).

Definition allocSem (enterVal : Z) : U Z :=
  let* semPtr := umalloc SIZEOF_CSEM in
  let* binSemNum1 := bsem_alloc in
  let* binSemNum2 := bsem_alloc in
  if (binSemNum1 =? -1) || (binSemNum2 =? -1) then uret 0 else
  ustore32 (semPtr + OFF_BIN1) binSemNum1 ;*
  ustore32 (semPtr + OFF_BIN2) binSemNum2 ;*
  uwhen (enterVal =? 0) (let* b := uload32 (semPtr + OFF_BIN2) in bsem_down b) ;*
  ustore32 (semPtr + OFF_VALUE) enterVal ;*
  uret semPtr.

Definition freeSem (sem : Z) : U unit :=
  let* b1 := uload32 (sem + OFF_BIN1) in
  bsem_free b1 ;*
  let* b2 := uload32 (sem + OFF_BIN2) in
  bsem_free b2 ;*
  ufree sem.
End Code.

(** ** down and up, statement by statement *)

Inductive pc :=
| Idle
| D_s2      (* down: before bsem_down(binSemNum2) *)
| D_w2      (* down: blocked on binSemNum2 *)
| D_s1      (* down: before bsem_down(binSemNum1) *)
| D_w1      (* down: blocked on binSemNum1 *)
| D_dec     (* down: before value-- *)
| D_test    (* down: before the test value > 0 *)
| D_up2     (* down: before bsem_up(binSemNum2) *)
| D_up1     (* down: before bsem_up(binSemNum1) *)
| U_s1      (* up: before bsem_down(binSemNum1) *)
| U_w1      (* up: blocked on binSemNum1 *)
| U_inc     (* up: before value++ *)
| U_test    (* up: before the test value == 1 *)
| U_up2     (* up: before bsem_up(binSemNum2) *)
| U_up1.    (* up: before bsem_up(binSemNum1) *)
#[export] Instance pc_eq_dec : EqDecision pc.
Proof. solve_decision. Defined.

(** [downs] and [ups] count the decrements and increments so far. *)
Record st := mkst {
  bin1 : Z;
  bin2 : Z;
  value : Z;
  pcs : list pc;
  downs : Z;
  ups : Z;
}.

Definition at_pc (s : st) (i : nat) (p : pc) : Prop := pcs s !! i = Some p.
Definition goto (i : nat) (p : pc) (s : st) : st :=
  mkst (bin1 s) (bin2 s) (value s) (<[i := p]> (pcs s)) (downs s) (ups s).
Definition with_bin1 (v : Z) (s : st) : st := mkst v (bin2 s) (value s) (pcs s) (downs s) (ups s).
Definition with_bin2 (v : Z) (s : st) : st := mkst (bin1 s) v (value s) (pcs s) (downs s) (ups s).

(** Where a thread goes on that waited for binSemNum1. *)
Definition granted1 (p q : pc) : Prop := (p = D_w1 /\ q = D_dec) \/ (p = U_w1 /\ q = U_inc).

Definition no_waiter1 (s : st) : Prop := forall j, ~ at_pc s j D_w1 /\ ~ at_pc s j U_w1.
Definition no_waiter2 (s : st) : Prop := forall j, ~ at_pc s j D_w2.

(** bsem_up(binSemNum1): hand it to a waiting thread, or set it to 1. *)
Inductive release1 : st -> st -> Prop :=
| rel1_hand s j p q : at_pc s j p -> granted1 p q -> release1 s (goto j q s)
| rel1_free s : no_waiter1 s -> release1 s (with_bin1 1 s).

Inductive release2 : st -> st -> Prop :=
| rel2_hand s j : at_pc s j D_w2 -> release2 s (goto j D_s1 s)
| rel2_free s : no_waiter2 s -> release2 s (with_bin2 1 s).

Inductive step : st -> st -> Prop :=
| call_down s i : at_pc s i Idle -> step s (goto i D_s2 s)
| call_up s i : at_pc s i Idle -> step s (goto i U_s1 s)
| d_s2_pass s i : at_pc s i D_s2 -> bin2 s <> 0 -> step s (goto i D_s1 (with_bin2 0 s))
| d_s2_wait s i : at_pc s i D_s2 -> bin2 s = 0 -> step s (goto i D_w2 s)
| d_s1_pass s i : at_pc s i D_s1 -> bin1 s <> 0 -> step s (goto i D_dec (with_bin1 0 s))
| d_s1_wait s i : at_pc s i D_s1 -> bin1 s = 0 -> step s (goto i D_w1 s)
| d_dec s i : at_pc s i D_dec ->
    step s (mkst (bin1 s) (bin2 s) (s32 (value s - 1)) (<[i := D_test]> (pcs s)) (downs s + 1) (ups s))
| d_test_pos s i : at_pc s i D_test -> 0 < value s -> step s (goto i D_up2 s)
| d_test_zero s i : at_pc s i D_test -> value s <= 0 -> step s (goto i D_up1 s)
| d_up2 s s' i : at_pc s i D_up2 -> release2 s s' -> step s (goto i D_up1 s')
| d_up1 s s' i : at_pc s i D_up1 -> release1 s s' -> step s (goto i Idle s')
| u_s1_pass s i : at_pc s i U_s1 -> bin1 s <> 0 -> step s (goto i U_inc (with_bin1 0 s))
| u_s1_wait s i : at_pc s i U_s1 -> bin1 s = 0 -> step s (goto i U_w1 s)
| u_inc s i : at_pc s i U_inc ->
    step s (mkst (bin1 s) (bin2 s) (s32 (value s + 1)) (<[i := U_test]> (pcs s)) (downs s) (ups s + 1))
| u_test_one s i : at_pc s i U_test -> value s = 1 -> step s (goto i U_up2 s)
| u_test_more s i : at_pc s i U_test -> value s <> 1 -> step s (goto i U_up1 s)
| u_up2 s s' i : at_pc s i U_up2 -> release2 s s' -> step s (goto i U_up1 s')
| u_up1 s s' i : at_pc s i U_up1 -> release1 s s' -> step s (goto i Idle s').

(** After [allocSem(v)]: binSemNum2 starts at min(1, v). *)
Definition init (v : Z) (n : nat) : st :=
  mkst 1 (if v =? 0 then 0 else 1) v (replicate n Idle) 0 0.

Inductive reachable (v : Z) (n : nat) : st -> Prop :=
| r_init : reachable v n (init v n)
| r_step s s' : reachable v n s -> step s s' -> reachable v n s'.

(** ** Counting threads *)

Fixpoint cnt (f : pc -> bool) (l : list pc) : Z :=
  match l with [] => 0 | p :: l' => Z.b2z (f p) + cnt f l' end.

Lemma cnt_nonneg f l : 0 <= cnt f l.
Proof. induction l as [|p l IH]; cbn; [done|]. destruct (f p); cbn; lia. Qed.

Lemma cnt_insert f l i p q :
  l !! i = Some p -> cnt f (<[i := q]> l) = cnt f l - Z.b2z (f p) + Z.b2z (f q).
Proof.
  revert i. induction l as [|x l IH]; intros i Hi; [done|].
  destruct i as [|i]; cbn in *; [injection Hi as ->; lia|]. rewrite IH by done. lia.
Qed.

Lemma cnt_pos f l i p : l !! i = Some p -> f p = true -> 1 <= cnt f l.
Proof.
  intros Hi Hf. rewrite <- (take_drop_middle _ _ _ Hi).
  assert (forall a b, cnt f (a ++ b) = cnt f a + cnt f b) as HA
    by (induction a as [|x a IH]; intros b; cbn; [done|rewrite IH; lia]).
  rewrite HA. cbn. rewrite Hf. pose proof (cnt_nonneg f (take i l)).
  pose proof (cnt_nonneg f (drop (S i) l)). cbn. lia.
Qed.

Lemma cnt_replicate f n p : f p = false -> cnt f (replicate n p) = 0.
Proof. intros Hf. induction n as [|n IH]; cbn; [done|]. by rewrite Hf. Qed.

(** ** The invariant *)

(** Between the two accesses to binSemNum1. *)
Definition in1 (p : pc) : bool :=
  match p with D_dec | D_test | D_up2 | D_up1 | U_inc | U_test | U_up2 | U_up1 => true | _ => false end.
(** Threads that took binSemNum2 and have not decided its fate, and those
    that are about to open it. *)
Definition tok (p : pc) : bool :=
  match p with D_s1 | D_w1 | D_dec | D_test | D_up2 | U_up2 => true | _ => false end.
Definition code (p : pc) : nat :=
  match p with
  | Idle => 0 | D_s2 => 1 | D_w2 => 2 | D_s1 => 3 | D_w1 => 4 | D_dec => 5 | D_test => 6
  | D_up2 => 7 | D_up1 => 8 | U_s1 => 9 | U_w1 => 10 | U_inc => 11 | U_test => 12
  | U_up2 => 13 | U_up1 => 14
  end.
Definition isp (q p : pc) : bool := Nat.eqb (code p) (code q).
Definition wait1 (p : pc) : bool := match p with D_w1 | U_w1 => true | _ => false end.

Record inv (v : Z) (s : st) : Prop := {
  i_bin1 : 0 <= bin1 s;
  i_bin2 : 0 <= bin2 s;
  i_mutex : bin1 s + cnt in1 (pcs s) = 1;
  i_value : value s = v + ups s - downs s;
  i_nonneg : 0 <= value s;
  i_downs : 0 <= downs s;
  i_token : bin2 s + cnt tok (pcs s) =
    if 0 <? cnt (isp D_test) (pcs s) then 1
    else if 0 <? cnt (isp U_test) (pcs s) then (if 1 <? value s then 1 else 0)
    else (if 0 <? value s then 1 else 0);
  i_up2 : 0 < cnt (isp D_up2) (pcs s) -> 0 < value s;
  i_uup2 : 0 < cnt (isp U_up2) (pcs s) -> value s = 1;
  i_utest : 0 < cnt (isp U_test) (pcs s) -> 0 < value s;
  i_wait1 : 0 < cnt wait1 (pcs s) -> bin1 s = 0;
  i_wait2 : 0 < cnt (isp D_w2) (pcs s) -> bin2 s = 0;
}.

(** The classes of positions, as sums over single positions. *)
Lemma cnt_classes l :
  cnt in1 l = cnt (isp D_dec) l + cnt (isp D_test) l + cnt (isp D_up2) l + cnt (isp D_up1) l
    + cnt (isp U_inc) l + cnt (isp U_test) l + cnt (isp U_up2) l + cnt (isp U_up1) l /\
  cnt tok l = cnt (isp D_s1) l + cnt (isp D_w1) l + cnt (isp D_dec) l + cnt (isp D_test) l
    + cnt (isp D_up2) l + cnt (isp U_up2) l /\
  cnt wait1 l = cnt (isp D_w1) l + cnt (isp U_w1) l.
Proof.
  induction l as [|p l IH]; [done|]. cbn. destruct IH as (-> & -> & ->). destruct p; cbn; lia.
Qed.

(** All counts are nonnegative. *)
Ltac nonneg l :=
  pose proof (cnt_nonneg (isp D_s1) l); pose proof (cnt_nonneg (isp D_w1) l);
  pose proof (cnt_nonneg (isp D_w2) l); pose proof (cnt_nonneg (isp D_dec) l);
  pose proof (cnt_nonneg (isp D_test) l); pose proof (cnt_nonneg (isp D_up2) l);
  pose proof (cnt_nonneg (isp D_up1) l); pose proof (cnt_nonneg (isp U_w1) l);
  pose proof (cnt_nonneg (isp U_inc) l); pose proof (cnt_nonneg (isp U_test) l);
  pose proof (cnt_nonneg (isp U_up2) l); pose proof (cnt_nonneg (isp U_up1) l).

(** Case analysis on the comparisons in hypotheses. *)
Ltac hcase :=
  repeat match goal with
  | H : context [?a <? ?b] |- _ => destruct (Z.ltb_spec a b)
  end.

(** The invariant as linear facts about the counts, for the list [l]. *)
Ltac open_inv H l :=
  destruct H as [Hb1 Hb2 Hmx Hval Hnn Hdn Htok Hu2 Huu2 Hut Hw1 Hw2];
  destruct (cnt_classes l) as (Ein1 & Etok & Ew1); rewrite Ein1 in Hmx; rewrite Etok in Htok;
  rewrite Ew1 in Hw1; nonneg l.

Ltac close_inv :=
  constructor; cbn [bin1 bin2 value pcs downs ups goto with_bin1 with_bin2];
  rewrite ?(proj1 (cnt_classes _)), ?(proj1 (proj2 (cnt_classes _))), ?(proj2 (proj2 (cnt_classes _))).

Lemma code_inj p q : isp q p = true -> p = q.
Proof. unfold isp. intros H%Nat.eqb_eq. by destruct p, q. Qed.

Lemma cnt_none q l : (forall j, l !! j <> Some q) -> cnt (isp q) l = 0.
Proof.
  induction l as [|p l IH]; intros H; [done|]. cbn.
  destruct (isp q p) eqn:E.
  - apply code_inj in E as ->. by destruct (H 0%nat).
  - rewrite IH; [done|]. intros j. apply (H (S j)).
Qed.

(** The thread at [p] is counted there. *)
Ltac counted Hi :=
  match type of Hi with at_pc ?s ?i ?p => pose proof (cnt_pos (isp p) (pcs s) i p Hi eq_refl) end.

(** A step that moves one thread. *)
Ltac move_one Hinv Hi :=
  match type of Hi with at_pc ?s ?i ?p =>
    open_inv Hinv (pcs s); counted Hi;
    close_inv; rewrite ?(cnt_insert _ _ _ _ _ Hi); cbn; zcase; hcase; lia
  end.

Lemma release2_inv v s s' i p :
  inv v s -> at_pc s i p -> p = D_up2 \/ p = U_up2 -> release2 s s' ->
  inv v (goto i (if isp D_up2 p then D_up1 else U_up1) s').
Proof.
  intros Hinv Hi Hp Hr. destruct Hr as [s j Hj|s Hno].
  - assert (<[j := D_s1]> (pcs s) !! i = Some p) as Hi'.
    { rewrite list_lookup_insert_ne; [done|]. intros <-. unfold at_pc in *. destruct Hp as [->| ->]; congruence. }
    open_inv Hinv (pcs s). pose proof (cnt_pos (isp D_w2) _ _ _ Hj eq_refl).
    destruct Hp as [-> | ->]; counted Hi;
      close_inv; cbn [isp code Nat.eqb]; rewrite ?(cnt_insert _ _ _ _ _ Hi'), ?(cnt_insert _ _ _ _ _ Hj);
      cbn; zcase; hcase; lia.
  - pose proof (cnt_none D_w2 (pcs s) Hno) as Hz. open_inv Hinv (pcs s).
    destruct Hp as [-> | ->]; counted Hi;
      close_inv; cbn [isp code Nat.eqb]; rewrite ?(cnt_insert _ _ _ _ _ Hi); cbn; zcase; hcase; lia.
Qed.

Lemma release1_inv v s s' i p :
  inv v s -> at_pc s i p -> p = D_up1 \/ p = U_up1 -> release1 s s' -> inv v (goto i Idle s').
Proof.
  intros Hinv Hi Hp Hr. destruct Hr as [s j q r Hj Hg|s Hno].
  - assert (<[j := r]> (pcs s) !! i = Some p) as Hi'.
    { rewrite list_lookup_insert_ne; [done|]. intros <-. unfold at_pc in *.
      destruct Hp as [->| ->], Hg as [[-> _]|[-> _]]; congruence. }
    open_inv Hinv (pcs s).
    destruct Hp as [-> | ->], Hg as [[-> ->]|[-> ->]];
      counted Hi; counted Hj;
      close_inv; rewrite ?(cnt_insert _ _ _ _ _ Hi'), ?(cnt_insert _ _ _ _ _ Hj); cbn; zcase; hcase; lia.
  - pose proof (cnt_none D_w1 (pcs s) (fun j => proj1 (Hno j))) as Hz1.
    pose proof (cnt_none U_w1 (pcs s) (fun j => proj2 (Hno j))) as Hz2. open_inv Hinv (pcs s).
    destruct Hp as [-> | ->]; counted Hi;
      close_inv; rewrite ?(cnt_insert _ _ _ _ _ Hi); cbn; zcase; hcase; lia.
Qed.

Lemma csem_step_inv v s s' :
  inv v s -> step s s' -> v + ups s' < 2147483648 -> inv v s'.
Proof.
  intros Hinv Hst Hbound.
  destruct Hst as [s i Hi|s i Hi|s i Hi Hc|s i Hi Hc|s i Hi Hc|s i Hi Hc|s i Hi|s i Hi Hc|s i Hi Hc
    |s s' i Hi Hr|s s' i Hi Hr|s i Hi Hc|s i Hi Hc|s i Hi|s i Hi Hc|s i Hi Hc|s s' i Hi Hr|s s' i Hi Hr].
  all: cbn in Hbound.
  - move_one Hinv Hi.
  - move_one Hinv Hi.
  - move_one Hinv Hi.
  - move_one Hinv Hi.
  - move_one Hinv Hi.
  - move_one Hinv Hi.
  - assert (0 < value s) as Hpos.
    { open_inv Hinv (pcs s). pose proof (cnt_pos (isp D_dec) _ _ _ Hi eq_refl). zcase; hcase; lia. }
    rewrite s32_small by (destruct Hinv; lia). move_one Hinv Hi.
  - move_one Hinv Hi.
  - move_one Hinv Hi.
  - by apply (release2_inv v s s' i D_up2 Hinv Hi); [left|].
  - by apply (release1_inv v s s' i D_up1 Hinv Hi); [left|].
  - move_one Hinv Hi.
  - move_one Hinv Hi.
  - rewrite s32_small by (destruct Hinv; lia). move_one Hinv Hi.
  - move_one Hinv Hi.
  - move_one Hinv Hi.
  - by apply (release2_inv v s s' i U_up2 Hinv Hi); [right|].
  - by apply (release1_inv v s s' i U_up1 Hinv Hi); [right|].
Qed.

Lemma csem_init_inv v n : 0 <= v < 2147483648 -> inv v (init v n).
Proof.
  intros Hv. unfold init. close_inv; rewrite ?cnt_replicate by done; cbn;
    destruct (Z.eqb_spec v 0); zcase; lia.
Qed.

Lemma step_ups s s' : step s s' -> ups s <= ups s'.
Proof.
  intros [ | | | | | | | | |? s1 ? ? Hr|? s1 ? ? Hr| | | | | |? s1 ? ? Hr|? s1 ? ? Hr];
    cbn; try lia; destruct Hr; cbn; lia.
Qed.

Lemma csem_reachable_inv v n s :
  0 <= v -> reachable v n s -> v + ups s < 2147483648 -> inv v s.
Proof.
  intros Hv. induction 1 as [|s s' _ IH Hst]; intros Hb; [apply csem_init_inv; cbn in Hb; lia|].
  pose proof (step_ups s s' Hst). apply (csem_step_inv v s s'); [apply IH; lia|done|done].
Qed.

(** C16: usemaphore.c [down] and [up], any number of threads and any
    interleaving, from [allocSem(v)]: the value never becomes negative, so
    never more than [v] plus the number of [up]s have got past [down]; the
    value is exact (no update is lost); and at most one thread at a time
    is between taking and releasing binSemNum1.  This holds as long as
    [v] plus the number of [up]s fits an int. *)
Theorem counting_semaphore_safe v n s :
  0 <= v -> reachable v n s -> v + ups s < 2147483648 ->
  downs s <= v + ups s /\ value s = v + ups s - downs s /\ cnt in1 (pcs s) <= 1.
Proof.
  intros Hv Hr Hb. destruct (csem_reachable_inv v n s Hv Hr Hb). lia.
Qed.

Lemma counting_semaphore_safe_witness :
  downs (goto 0 D_s2 (init 2 3)) <= 2 + ups (goto 0 D_s2 (init 2 3)).
Proof.
  apply (counting_semaphore_safe 2 3 (goto 0 D_s2 (init 2 3))); [lia| |by vm_compute].
  eapply r_step; [apply r_init|]. by apply call_down.
Defined.

(** Threads that wait, or have nothing to do. *)
Definition resting (p : pc) : bool := match p with Idle | D_w2 | D_w1 | U_w1 => true | _ => false end.

Lemma not_resting_steps s i p :
  at_pc s i p -> resting p = false -> exists s', step s s' /\ pcs s' !! i <> Some p.
Proof.
  intros Hi Hp.
  assert (forall l q, (i < length l)%nat -> q <> p -> <[i := q]> l !! i <> Some p) as HL
    by (intros l q Hl Hq; rewrite list_lookup_insert_eq by done; congruence).
  assert (i < length (pcs s))%nat as Hlt by (by eapply lookup_lt_Some).
  assert (exists s1, release1 s s1 /\ length (pcs s1) = length (pcs s)) as (s1 & R1 & L1).
  { destruct (decide (Exists (fun q => q = D_w1) (pcs s))) as [(q & [j Hj]%list_elem_of_lookup & ->)%Exists_exists|H1];
      [exists (goto j D_dec s); split; [by eapply rel1_hand; [|left]|apply length_insert]|].
    destruct (decide (Exists (fun q => q = U_w1) (pcs s))) as [(q & [j Hj]%list_elem_of_lookup & ->)%Exists_exists|H2];
      [exists (goto j U_inc s); split; [by eapply rel1_hand; [|right]|apply length_insert]|].
    exists (with_bin1 1 s). split; [|done]. apply rel1_free. intros j.
    split; intros Hj; [apply H1|apply H2]; apply Exists_exists; eexists; split; try done;
      by eapply list_elem_of_lookup_2. }
  assert (exists s2, release2 s s2 /\ length (pcs s2) = length (pcs s)) as (s2 & R2 & L2).
  { destruct (decide (Exists (fun q => q = D_w2) (pcs s))) as [(q & [j Hj]%list_elem_of_lookup & ->)%Exists_exists|H1];
      [exists (goto j D_s1 s); split; [by apply rel2_hand|apply length_insert]|].
    exists (with_bin2 1 s). split; [|done]. apply rel2_free. intros j Hj.
    apply H1. apply Exists_exists. eexists; split; try done. by eapply list_elem_of_lookup_2. }
  destruct p; try done.
  - destruct (decide (bin2 s = 0)); (eexists; split; [by constructor|by apply HL]).
  - destruct (decide (bin1 s = 0)); (eexists; split; [by constructor|by apply HL]).
  - eexists; split; [by constructor|by apply HL].
  - destruct (Z_lt_le_dec 0 (value s)); (eexists; split; [by constructor|by apply HL]).
  - eexists; split; [by apply (d_up2 s s2)|apply HL; [lia|done]].
  - eexists; split; [by apply (d_up1 s s1)|apply HL; [lia|done]].
  - destruct (decide (bin1 s = 0)); (eexists; split; [by constructor|by apply HL]).
  - eexists; split; [by constructor|by apply HL].
  - destruct (decide (value s = 1)); (eexists; split; [by constructor|by apply HL]).
  - eexists; split; [by apply (u_up2 s s2)|apply HL; [lia|done]].
  - eexists; split; [by apply (u_up1 s s1)|apply HL; [lia|done]].
Qed.

(** C17: usemaphore.c, no lost wakeup and no deadlock.  In every reachable
    state, either some thread inside [down] or [up] can make its next
    step, or the only threads inside an operation are blocked at the
    start of [down] with the value 0: nobody is left waiting while the
    semaphore is open, and nobody waits for binSemNum1 for ever. *)
Theorem counting_semaphore_progress v n s :
  0 <= v -> reachable v n s -> v + ups s < 2147483648 ->
  (exists i p s', at_pc s i p /\ resting p = false /\ step s s' /\ pcs s' !! i <> Some p) \/
  ((forall i p, at_pc s i p -> p = Idle \/ p = D_w2) /\
   ((exists i, at_pc s i D_w2) -> value s = 0) /\
   (0 < value s -> bin2 s = 1) /\ bin1 s = 1).
Proof.
  intros Hv Hr Hb. pose proof (csem_reachable_inv v n s Hv Hr Hb) as Hinv.
  destruct (decide (Exists (fun p => resting p = false) (pcs s)))
    as [(p & [i Hi]%list_elem_of_lookup & Hp)%Exists_exists|Hall].
  { left. destruct (not_resting_steps s i p Hi Hp) as (s' & Hs & Hne). by exists i, p, s'. }
  right.
  assert (Hrest : forall i p, at_pc s i p -> resting p = true).
  { intros i p Hi. destruct (resting p) eqn:E; [done|]. destruct Hall.
    apply Exists_exists. exists p. split; [by eapply list_elem_of_lookup_2|done]. }
  assert (Hz : forall q, resting q = false -> cnt (isp q) (pcs s) = 0).
  { intros q Hq. apply cnt_none. intros j Hj. pose proof (Hrest j q Hj). congruence. }
  open_inv Hinv (pcs s).
  rewrite !(Hz D_dec), !(Hz D_test), !(Hz D_up2), !(Hz D_up1), !(Hz U_inc), !(Hz U_test),
    !(Hz U_up2), !(Hz U_up1) in * by done. rewrite (Hz D_s1) in Htok by done.
  assert (bin1 s = 1) as E1 by lia.
  assert (cnt (isp D_w1) (pcs s) = 0 /\ cnt (isp U_w1) (pcs s) = 0) as [Ez1 Ez2] by lia.
  assert (forall i p, at_pc s i p -> p = Idle \/ p = D_w2) as HA.
  { intros i p Hi. pose proof (Hrest i p Hi) as Hp. destruct p; try done; auto; exfalso; counted Hi; lia. }
  split_and!; [done| | |done].
  - intros [i Hi]. counted Hi. cbn in Htok. hcase; lia.
  - intros Hpos. cbn in Htok. hcase; lia.
Qed.

Lemma counting_semaphore_progress_witness :
  value (mkst 1 0 0 [D_w2; Idle] 0 0) = 0 /\ reachable 0 2 (mkst 1 0 0 [D_w2; Idle] 0 0).
Proof.
  assert (reachable 0 2 (mkst 1 0 0 [D_w2; Idle] 0 0)) as Hr.
  { eapply r_step; [eapply r_step; [apply r_init|apply (call_down (init 0 2) 0%nat eq_refl)]|].
    apply (d_s2_wait (goto 0 D_s2 (init 0 2)) 0%nat eq_refl eq_refl). }
  split; [|exact Hr].
  destruct (counting_semaphore_progress 0 2 _ ltac:(lia) Hr ltac:(by vm_compute))
    as [(i & p & s' & Hi & Hp & _)|(_ & Hv & _)].
  - destruct i as [|[|i]]; cbn in Hi; [injection Hi as <-|injection Hi as <-|]; done.
  - apply Hv. by exists 0%nat.
Defined.

(** ** allocSem *)

Section Alloc.
Context {ML : Malloc} {UL : ULink}.

(** The first two free binary semaphores. *)
Definition free_pair (l : list Z) (i j : nat) : Prop :=
  find_idx (fun v => v =? -1) l = Some i /\
  find_idx (fun v => v =? -1) (<[i := 1]> l) = Some j.

Lemma free_pair_ne l i j : free_pair l i j -> i <> j.
Proof.
  intros [Hi Hj] <-. apply find_idx_lt in Hi. apply find_idx_Some in Hj as [(x & Hx & E) _].
  rewrite list_lookup_insert_eq in Hx by done. by injection Hx as <-.
Qed.

Lemma find_free l i : find_idx (fun v => v =? -1) l = Some i -> l !! i = Some (-1).
Proof. intros [(x & Hx & ->%Z.eqb_eq) _]%find_idx_Some. done. Qed.

Lemma bsem_alloc_ok s i :
  find_idx (fun v => v =? -1) (semaphores s) = Some i ->
  bsem_alloc s = URet (Z.of_nat i) (with_sem (Z.of_nat i) 1 s).
Proof. intros Hf. by rewrite bsem_alloc_run, Hf. Qed.

(** usemaphore.c [allocSem], success.  With two binary semaphores free
    and memory for the struct, [allocSem(v)] returns a struct that holds
    two different semaphore numbers and the value [v]; the first semaphore
    is 1 and the second is min(1, v), as the algorithm needs. *)
Theorem allocSem_initial v s c t p m h i j :
  Uthread.uinv s -> running s c t -> 0 <= v < 2147483648 ->
  malloc SIZEOF_CSEM (umem s) = (p, (m, h)) -> 0 < p -> p + SIZEOF_CSEM < 4294967296 ->
  free_pair (semaphores s) i j ->
  exists s', allocSem v s = URet p s' /\ i <> j /\
    sem_val s' (Z.of_nat i) 1 /\ sem_val s' (Z.of_nat j) (if v =? 0 then 0 else 1) /\
    load32 (fst (umem s')) p = Z.of_nat i /\ load32 (fst (umem s')) (p + 4) = Z.of_nat j /\
    load32 (fst (umem s')) (p + 8) = v.
Proof.
  intros Hi Hr Hv Hm H0 H1 Hf. pose proof (free_pair_ne _ _ _ Hf) as Hij.
  destruct Hf as [Hfi Hfj]. pose proof (find_free _ _ Hfi) as Hsi. pose proof (find_free _ _ Hfj) as Hsj.
  pose proof (find_idx_lt _ _ _ Hfi) as Hli. pose proof (find_idx_lt _ _ _ Hfj) as Hlj.
  rewrite length_insert in Hlj. pose proof (ui_sems s Hi) as Hl. unfold MAX_BSEM in Hl.
  unfold SIZEOF_CSEM in *.
  set (m3 := store32 (store32 m p (Z.of_nat i)) (p + 4) (Z.of_nat j)).
  assert (load32 m3 (p + 4) = Z.of_nat j) as Lj by (apply load32_store32; lia).
  assert (load32 m3 p = Z.of_nat i) as Li.
  { unfold m3. rewrite (store32_mput _ (p + 4)), load32_mput_out by (cbn; lia). apply load32_store32. lia. }
  set (s2 := with_sem (Z.of_nat j) 1 (with_sem (Z.of_nat i) 1 (set_umem (m, h) s))).
  set (s3 := set_umem (m3, h) s2).
  assert (sem_val s3 (Z.of_nat j) 1) as Vj.
  { split; [lia|]. cbn. rewrite !Nat2Z.id. apply list_lookup_insert_eq. rewrite length_insert. lia. }
  assert (sem_val s3 (Z.of_nat i) 1) as Vi.
  { split; [lia|]. cbn. rewrite !Nat2Z.id, list_lookup_insert_ne by done. by apply list_lookup_insert_eq. }
  assert (HE : allocSem v s = (uwhen (v =? 0) (let* b := uload32 (p + OFF_BIN2) in bsem_down b) ;*
    ustore32 (p + OFF_VALUE) v ;* uret p) s3).
  { unfold allocSem, umalloc, SIZEOF_CSEM. unfold ubind at 1. rewrite Hm.
    rewrite (ubind_ok _ _ _ _ _ (bsem_alloc_ok (set_umem (m, h) s) i Hfi)).
    assert (find_idx (fun v => v =? -1) (semaphores (with_sem (Z.of_nat i) 1 (set_umem (m, h) s))) = Some j)
      as Hfj' by (cbn; by rewrite Nat2Z.id).
    rewrite (ubind_ok _ _ _ _ _ (bsem_alloc_ok _ j Hfj')).
    destruct (Z.eqb_spec (Z.of_nat i) (-1)), (Z.eqb_spec (Z.of_nat j) (-1)); try lia. cbn [orb].
    unfold ustore32 at 1 2. rewrite !ubind_mod. unfold OFF_BIN1, OFF_BIN2. rewrite Z.add_0_r.
    cbn [umem with_sem set_semaphores set_umem]. rewrite !u32_small by lia. done. }
  assert (HD : exists s4, uwhen (v =? 0) (let* b := uload32 (p + OFF_BIN2) in bsem_down b) s3 = URet tt s4 /\
    umem s4 = umem s3 /\ sem_val s4 (Z.of_nat i) 1 /\ sem_val s4 (Z.of_nat j) (if v =? 0 then 0 else 1)).
  { unfold uwhen. destruct (v =? 0); [|by exists s3].
    unfold uload32, OFF_BIN2. rewrite ubind_gets. change (fst (umem s3)) with m3.
    rewrite Lj, s32_small by lia. destruct Hr as (Hc & Ht & _).
    rewrite (bsem_down_run (Z.of_nat j) 1 s3 c t Vj Hc Ht). cbn [Z.eqb].
    eexists. split; [done|]. split; [done|]. destruct Vi as [? Vi], Vj as [? Vj]. split.
    - split; [lia|]. cbn [semaphores armed with_sem set_semaphores set_alarm_end set_alarm_on].
      rewrite list_lookup_insert_ne by lia. exact Vi.
    - split; [lia|]. cbn [semaphores armed with_sem set_semaphores set_alarm_end set_alarm_on].
      apply list_lookup_insert_eq. by eapply lookup_lt_Some. }
  destruct HD as (s4 & ED & Em & V1 & V2). rewrite HE, (ubind_ok _ _ _ _ _ ED).
  unfold ustore32 at 1. rewrite ubind_mod, Em. cbn [umem s3 set_umem]. eexists. split; [done|].
  split_and!; [done|exact V1|exact V2| | |]; cbn [umem set_umem fst]; unfold OFF_VALUE; rewrite u32_small by lia.
  - by rewrite store32_mput, load32_mput_out by (cbn; lia).
  - by rewrite store32_mput, load32_mput_out by (cbn; lia).
  - apply load32_store32. lia.
Qed.

(** usemaphore.c [allocSem], failure.  When only one binary semaphore
    is free, [allocSem] returns 0 but keeps it: it stays allocated although
    no caller knows its number, and the struct is not freed either. *)
Theorem allocSem_leaks v s i p mh :
  Uthread.uinv s -> malloc SIZEOF_CSEM (umem s) = (p, mh) ->
  find_idx (fun v => v =? -1) (semaphores s) = Some i ->
  (forall j, j <> i -> semaphores s !! j <> Some (-1)) ->
  exists s', allocSem v s = URet 0 s' /\ sem_val s' (Z.of_nat i) 1 /\ umem s' = mh /\
    bsem_alloc s' = URet (-1) s'.
Proof.
  intros Hi Hm Hf Hno. pose proof (find_idx_lt _ _ _ Hf) as Hlt.
  assert (find_idx (fun v => v =? -1) (<[i := 1]> (semaphores s)) = None) as Hn.
  { apply find_idx_None. intros j y Hy. apply Z.eqb_neq. intros ->.
    destruct (decide (j = i)) as [->|Hji].
    - rewrite list_lookup_insert_eq in Hy by done. congruence.
    - rewrite list_lookup_insert_ne in Hy by done. by apply (Hno j). }
  assert (bsem_alloc (with_sem (Z.of_nat i) 1 (set_umem mh s)) =
    URet (-1) (with_sem (Z.of_nat i) 1 (set_umem mh s))) as E2.
  { rewrite bsem_alloc_run. cbn [semaphores with_sem set_semaphores set_umem]. by rewrite Nat2Z.id, Hn. }
  unfold allocSem, umalloc. unfold ubind at 1. rewrite Hm.
  rewrite (ubind_ok _ _ _ _ _ (bsem_alloc_ok (set_umem mh s) i Hf)), (ubind_ok _ _ _ _ _ E2).
  destruct (Z.eqb_spec (Z.of_nat i) (-1)); [lia|]. cbn [orb Z.eqb Pos.eqb].
  eexists. split_and!; [done| |done|exact E2].
  split; [lia|]. cbn. rewrite Nat2Z.id. by apply list_lookup_insert_eq.
Qed.
End Alloc.

Section Example.
#[local] Existing Instance malloc_example.
#[local] Existing Instance ulink_example.

Lemma allocSem_initial_witness :
  exists s', allocSem 3 ust_one = URet 65536 s' /\ load32 (fst (umem s')) 65544 = 3.
Proof.
  destruct (allocSem_initial 3 ust_one 0 (default thread_zero (threadTable ust_one !! 0%nat))
    65536 ∅ (65536 + 12) 0 1) as (s' & E & _ & _ & _ & _ & _ & Hv).
  - apply (reachable_inv _ reach_one).
  - split_and!; by vm_compute.
  - lia.
  - by vm_compute.
  - lia.
  - by vm_compute.
  - split; by vm_compute.
  - by exists s'.
Defined.

(** All binary semaphores but the last one are taken. *)
Definition ust_crowded : ust :=
  set_semaphores (replicate 127 1 ++ [-1]) ust_one.

Lemma inv_crowded : Uthread.uinv ust_crowded.
Proof.
  assert (forallb (fun t => blockedOnSemaphore t =? -1) (threadTable ust_one) = true) as HF
    by (by vm_compute).
  assert (length (semaphores ust_crowded) = MAX_BSEM) as HL by (by vm_compute).
  destruct (reachable_inv _ reach_one) as [H1 H2 H3 H4 H5 H6 H7 _ H9 H10].
  constructor; [exact H1|exact HL|exact H3|exact H4|exact H5|exact H6|exact H7| |exact H9|exact H10].
  intros i t Ht Hb. destruct Hb. rewrite forallb_forall in HF. apply Z.eqb_eq, HF.
  apply list_elem_of_In. by eapply list_elem_of_lookup_2.
Qed.

Lemma allocSem_leaks_witness :
  exists s', allocSem 3 ust_crowded = URet 0 s' /\ sem_val s' 127 1 /\ bsem_alloc s' = URet (-1) s'.
Proof.
  destruct (allocSem_leaks 3 ust_crowded 127 65536 (∅, 65536 + 12)) as (s' & E & Hv & _ & Hn).
  - apply inv_crowded.
  - by vm_compute.
  - by vm_compute.
  - intros j Hj Hl. apply lookup_app_Some in Hl as [[E _]%lookup_replicate|[Hge Hl]]; [done|].
    rewrite length_replicate in *. apply list_lookup_singleton_Some in Hl as [E _]. lia.
  - by exists s'.
Defined.
End Example.
