(* ===== verification/Sleeplock.v ===== *)
(** * sleeplock.c: locks a process may sleep on

    [slocks] maps every sleep lock that is held to the pid recorded as
    its holder. *)

From stdpp Require Import base numbers list gmap strings.
From S2P Require Import Prelude Kernel Spinlock Sched.

Definition initsleeplock (l : slid) : M unit :=
  initlock (LSleep l) ;;
  modify (fun s => set_slocks (delete l (slocks s)) s).

Definition slocked (l : slid) : M bool := gets (fun s => bool_decide (is_Some (slocks s !! l))).

Definition acquiresleep (l : slid) : M unit :=
  acquire (LSleep l) ;;
  wait_loop (fun _ : unit =>
    let! b := slocked l in
    if (b : bool) then sleep (CSleep l) (LSleep l) ;; ret (inl tt) else ret (inr tt)) tt ;;
  let! (_, p) := myproc_get in
  modify (fun s => set_slocks (<[l := pid p]> (slocks s)) s) ;;
  release (LSleep l).

Definition releasesleep (l : slid) : M unit :=
  acquire (LSleep l) ;;
  modify (fun s => set_slocks (delete l (slocks s)) s) ;;
  wakeup (CSleep l) ;;
  release (LSleep l).

Definition holdingsleep (l : slid) : M bool :=
  acquire (LSleep l) ;;
  let! r := slocked l in
  release (LSleep l) ;;
  ret r.

(** ** Runs without contention *)

Definition taken_by (l : slid) (p : Z) (s : kst) : kst :=
  set_kcpu (crit (kcpu s)) (set_slocks (<[l := p]> (slocks s)) s).

Lemma acquiresleep_free l env s i p :
  cur s i p -> locks s !! LSleep l = None -> wf_cpu (kcpu s) -> slocks s !! l = None ->
  acquiresleep l env s = Ok tt (taken_by l (pid p) s) env.
Proof.
  intros [Hc Hp] Hl Hw Hs. unfold acquiresleep.
  rewrite (bind_ok _ _ _ _ _ _ _ (acquire_free _ env s Hl)).
  assert (wait_loop (fun _ : unit => let! b := slocked l in
    if (b : bool) then sleep (CSleep l) (LSleep l) ;; ret (inl tt) else ret (inr tt)) tt
    env (acquired (LSleep l) s) = Ok tt (acquired (LSleep l) s) env) as E.
  { unfold wait_loop. cbn [loop_n]. unfold slocked. rewrite bind_assoc, bind_gets. simpl.
    rewrite bool_decide_eq_false_2 by (rewrite Hs; by intros [? ?]). done. }
  rewrite (bind_ok _ _ _ _ _ _ _ E).
  rewrite (bind_ok _ _ _ _ _ _ _ (myproc_get_run env (acquired (LSleep l) s) i p (conj Hc Hp))).
  rewrite bind_modify. rewrite release_held; simpl; [|by rewrite lookup_insert_eq|done|destruct Hw; lia].
  f_equal. change (set_slocks (<[l := pid p]> (slocks s)) (released (LSleep l) (acquired (LSleep l) s))
    = taken_by l (pid p) s). by rewrite released_acquired.
Qed.

Lemma holdingsleep_run l env s :
  locks s !! LSleep l = None -> wf_cpu (kcpu s) ->
  holdingsleep l env s = Ok (bool_decide (is_Some (slocks s !! l))) (set_kcpu (crit (kcpu s)) s) env.
Proof.
  intros Hl Hw. unfold holdingsleep.
  by apply (critical (LSleep l) (slocked l) ret env env s s).
Qed.

Lemma releasesleep_run l env s :
  locks s !! LSleep l = None -> locks s !! LPtable = None -> wf_cpu (kcpu s) ->
  releasesleep l env s =
    Ok tt (set_procs (wake (Some (CSleep l)) <$> procs s) (set_slocks (delete l (slocks s))
      (set_kcpu (crit (kcpu s)) s))) env.
Proof.
  intros Hl Hp Hw. unfold releasesleep.
  rewrite (bind_ok _ _ _ _ _ _ _ (acquire_free _ env s Hl)), bind_modify.
  set (s1 := set_slocks _ _).
  assert (locks s1 !! LPtable = None) as Hp1 by (simpl; by rewrite lookup_insert_ne).
  rewrite (bind_ok _ _ _ _ _ _ _ (wakeup_run (CSleep l) env s1 Hp1 (wf_pushed _ Hw))).
  rewrite release_held; simpl; [|by rewrite lookup_insert_eq|done|destruct Hw; lia].
  f_equal. rewrite crit_pushed by done.
  change (set_procs (wake (Some (CSleep l)) <$> procs s) (set_slocks (delete l (slocks s))
    (released (LSleep l) (acquired (LSleep l) s))) = set_procs (wake (Some (CSleep l)) <$> procs s)
    (set_slocks (delete l (slocks s)) (set_kcpu (crit (kcpu s)) s))).
  by rewrite released_acquired.
Qed.
