(* ===== verification/Pipe.v ===== *)
(** * pipe.c: reading, writing and closing pipes

    [pipes] holds the pipes by their address, the page [pipealloc] got
    from the page allocator (pipealloc itself is in File.v, next to the
    file table it uses).  [nread] and [nwrite] are unsigned counters that
    wrap; the bytes in the pipe are those between them. *)

From stdpp Require Import base numbers list gmap strings.
From S2P Require Import Prelude Kernel Spinlock Sched Kalloc Umem.

(** A pipe that was freed is not there any more. *)
Definition get_pipe (a : Z) : M pipe := fun env s =>
  match pipes s !! a with Some p => Ok p s env | None => Panic "trap" end.
Definition mod_pipe (a : Z) (f : pipe -> pipe) : M unit :=
  modify (fun s => set_pipes (alter f a (pipes s)) s).

Definition am_killed : M bool := let! (_, p) := myproc_get in ret (killed p).

Definition pipeclose `{Link} (a : Z) (writable : bool) : M unit :=
  acquire (LPipe a) ;;
  (if writable then mod_pipe a (set_writeopen false) ;; wakeup (CPipeR a)
   else mod_pipe a (set_readopen false) ;; wakeup (CPipeW a)) ;;
  let! p := get_pipe a in
  if negb (readopen p) && negb (writeopen p) then
    release (LPipe a) ;;
    modify (fun s => set_pipes (delete a (pipes s)) s) ;;
    kfree a
  else release (LPipe a).

(** [p->data[p->nwrite++ % PIPESIZE] = c]. *)
Definition put_byte (c : Z) (p : pipe) : pipe :=
  set_nwrite (u32 (nwrite p + 1))
    (set_p_data (<[Z.to_nat (nwrite p mod PIPESIZE) := c]> (p_data p)) p).
(** [p->data[p->nread++ % PIPESIZE]]. *)
Definition byte_at (p : pipe) (k : Z) : Z := nth (Z.to_nat (k mod PIPESIZE)) (p_data p) 0.

(** [while(p->nwrite == p->nread + PIPESIZE)]: true when there is room,
    false when the write has to fail. *)
Definition wait_room (a : Z) : M bool :=
  wait_loop (fun _ : unit =>
    let! p := get_pipe a in
    if negb (nwrite p =? u32 (nread p + PIPESIZE)) then ret (inr true) else
    let! k := am_killed in
    if negb (readopen p) || k then ret (inr false) else
    wakeup (CPipeR a) ;;
    sleep (CPipeW a) (LPipe a) ;;
    ret (inl tt)) tt.

Fixpoint pipewrite_loop (a addr : Z) (js : list Z) (n : Z) : M Z :=
  match js with
  | [] =>
      wakeup (CPipeR a) ;;
      release (LPipe a) ;;
      ret n
  | i :: js' =>
      let! room := wait_room a in
      if negb room then release (LPipe a) ;; ret (-1) else
      let! c := uload (u32 (addr + i)) 1 in
      mod_pipe a (put_byte (nth 0 c 0)) ;;
      pipewrite_loop a addr js' n
  end.

Definition pipewrite (a addr n : Z) : M Z :=
  acquire (LPipe a) ;;
  pipewrite_loop a addr (seqZ 0 n) n.

(** [while(p->nread == p->nwrite && p->writeopen)]: false when the reader
    was killed. *)
Definition wait_data (a : Z) : M bool :=
  wait_loop (fun _ : unit =>
    let! p := get_pipe a in
    if negb ((nread p =? nwrite p) && writeopen p) then ret (inr true) else
    let! k := am_killed in
    if (k : bool) then ret (inr false) else
    sleep (CPipeR a) (LPipe a) ;;
    ret (inl tt)) tt.

(** The copy loop; returns [i]. *)
Fixpoint piperead_loop (a addr : Z) (js : list Z) (n : Z) : M Z :=
  match js with
  | [] => ret (Z.max 0 n)
  | i :: js' =>
      let! p := get_pipe a in
      if nread p =? nwrite p then ret i else
      mod_pipe a (set_nread (u32 (nread p + 1))) ;;
      ustore (u32 (addr + i)) [byte_at p (nread p)] ;;
      piperead_loop a addr js' n
  end.

Definition piperead (a addr n : Z) : M Z :=
  acquire (LPipe a) ;;
  let! data := wait_data a in
  if negb data then release (LPipe a) ;; ret (-1) else
  let! i := piperead_loop a addr (seqZ 0 n) n in
  wakeup (CPipeW a) ;;
  release (LPipe a) ;;
  ret i.

(** ** The bytes in a pipe *)

Record wf_pipe (p : pipe) : Prop := {
  wp_len : length (p_data p) = Z.to_nat PIPESIZE;
  wp_nread : 0 <= nread p < 4294967296;
  wp_nwrite : 0 <= nwrite p < 4294967296;
  wp_fill : u32 (nwrite p - nread p) <= PIPESIZE;
}.

Definition fill (p : pipe) : Z := u32 (nwrite p - nread p).
Definition queue (p : pipe) : list Z := (fun k => byte_at p (nread p + k)) <$> seqZ 0 (fill p).

Lemma length_queue p : Z.of_nat (length (queue p)) = fill p.
Proof.
  unfold queue. rewrite length_fmap, length_seqZ. pose proof (u32_range (nwrite p - nread p)).
  unfold fill. lia.
Qed.

(** A counter that has wrapped still addresses the same slot. *)
Lemma u32_mod_pipe x : u32 x mod PIPESIZE = x mod PIPESIZE.
Proof. unfold u32, PIPESIZE. Z.div_mod_to_equations. lia. Qed.

Lemma byte_at_u32 p k : byte_at p (u32 k) = byte_at p k.
Proof. unfold byte_at. by rewrite u32_mod_pipe. Qed.

Lemma pipe_full p : wf_pipe p -> (nwrite p =? u32 (nread p + PIPESIZE)) = (fill p =? PIPESIZE).
Proof.
  intros [_ Hr Hw Hf]. unfold fill in *. apply eq_true_iff_eq. rewrite !Z.eqb_eq.
  unfold u32, PIPESIZE in *. Z.div_mod_to_equations. lia.
Qed.

Lemma pipe_empty p : wf_pipe p -> (nread p =? nwrite p) = (fill p =? 0).
Proof.
  intros [_ Hr Hw Hf]. unfold fill in *. apply eq_true_iff_eq. rewrite !Z.eqb_eq.
  unfold u32, PIPESIZE in *. Z.div_mod_to_equations. lia.
Qed.

Lemma put_byte_queue p c :
  wf_pipe p -> fill p < PIPESIZE -> wf_pipe (put_byte c p) /\ queue (put_byte c p) = queue p ++ [c].
Proof.
  intros [Hl Hr Hw Hf] Hlt.
  assert (fill (put_byte c p) = fill p + 1) as EF.
  { unfold fill in *. cbn. unfold u32, PIPESIZE in *. Z.div_mod_to_equations. lia. }
  pose proof (u32_range (nwrite p - nread p)) as HR. fold (fill p) in HR.
  split.
  - constructor; cbn; [by rewrite length_insert|done|apply u32_range|].
    change (fill (put_byte c p) <= PIPESIZE). lia.
  - unfold queue. rewrite EF, seqZ_app by lia. rewrite fmap_app. f_equal.
    + apply list_fmap_ext. intros j k Hk. apply lookup_seqZ in Hk as [-> Hk].
      unfold byte_at. cbn. rewrite !nth_lookup. rewrite list_lookup_insert_ne; [done|].
      unfold fill, u32, PIPESIZE in *. Z.div_mod_to_equations. lia.
    + rewrite Z.add_0_l. change (seqZ (fill p) 1) with [fill p]. cbn. f_equal.
      unfold byte_at. cbn.
      assert ((nread p + fill p) mod PIPESIZE = nwrite p mod PIPESIZE) as ->.
      { unfold fill, u32, PIPESIZE. Z.div_mod_to_equations. lia. }
      rewrite nth_lookup, list_lookup_insert_eq; [done|]. rewrite Hl.
      pose proof (Z.mod_pos_bound (nwrite p) PIPESIZE). unfold PIPESIZE in *. lia.
Qed.

Lemma get_byte_queue p b q :
  wf_pipe p -> queue p = b :: q ->
  let p' := set_nread (u32 (nread p + 1)) p in
  byte_at p (nread p) = b /\ wf_pipe p' /\ queue p' = q.
Proof.
  intros [Hl Hr Hw Hf] Hq p'.
  assert (0 < fill p) as Hpos by (rewrite <- length_queue, Hq; cbn; lia).
  assert (fill p' = fill p - 1) as EF.
  { unfold fill in *. cbn. unfold u32, PIPESIZE in *. Z.div_mod_to_equations. lia. }
  unfold queue in Hq. replace (fill p) with (1 + (fill p - 1)) in Hq by lia.
  rewrite seqZ_app, fmap_app in Hq by lia. change (seqZ 0 1) with [0] in Hq. cbn in Hq.
  rewrite Z.add_0_r in Hq. injection Hq as Hb Hq.
  split_and!; [done| |].
  - constructor; cbn; [done|apply u32_range|done|]. change (fill p' <= PIPESIZE). unfold fill in *. lia.
  - rewrite <- Hq. unfold queue. rewrite EF, <- (fmap_add_seqZ 1 0), <- list_fmap_compose.
    apply list_fmap_ext. intros j k _. unfold byte_at, compose. cbn.
    f_equal. f_equal. rewrite <- (Zplus_mod_idemp_l (u32 _)), u32_mod_pipe, Zplus_mod_idemp_l.
    f_equal. lia.
Qed.

(** ** Writing and reading with other processes about *)

(** Process [i] is at work on pipe [a]: it holds the pipe's lock, and no
    other. *)
Record busy (i : nat) (a : Z) (s : kst) : Prop := {
  by_cur : curproc (kcpu s) = Some i;
  by_proc : is_Some (procs s !! i);
  by_hold : holds_only s (LPipe a);
  by_table : locks s !! LPtable = None;
}.

(** The memory the process sees does not change. *)
Definition same_mem (s s' : kst) : Prop :=
  phys s' = phys s /\ cr3 (kcpu s') = cr3 (kcpu s).

Lemma same_mem_trans s1 s2 s3 : same_mem s1 s2 -> same_mem s2 s3 -> same_mem s1 s3.
Proof. unfold same_mem. intros [-> ->] [-> ->]. done. Qed.

(** What the others may do while process [i] sleeps with pipe [a] in a
    state that satisfies [R]: anything that leaves its memory and its table
    entry in place, changes the pipe as [R] says, and hands the CPU back. *)
Definition others (i : nat) (a : Z) (R : pipe -> pipe -> Prop) (e : kst -> kst) : Prop :=
  forall s p, pipes s !! a = Some p -> wf_pipe p ->
    chosen i (LPipe a) (e s) /\ same_mem s (e s) /\ is_Some (procs (e s) !! i) /\
    exists p', pipes (e s) !! a = Some p' /\ wf_pipe p' /\ R p p'.

Lemma busy_wakeup i a c env s :
  busy i a s -> exists s', wakeup c env s = Ok tt s' env /\
    busy i a s' /\ same_mem s s' /\ pipes s' = pipes s.
Proof.
  intros [H1 H2 (H3 & H4 & H5) H6]. eexists. split; [apply wakeup_run; [done|]|].
  { split; [lia|done]. }
  split_and!; try done. constructor; cbn; try done.
  rewrite list_lookup_fmap. by destruct H2 as [? ->].
Qed.

Lemma busy_sleep i a R c e env s p :
  busy i a s -> pipes s !! a = Some p -> wf_pipe p -> others i a R e ->
  exists s' p', sleep c (LPipe a) (e :: env) s = Ok tt s' env /\
    busy i a s' /\ same_mem s s' /\ pipes s' !! a = Some p' /\ wf_pipe p' /\ R p p'.
Proof.
  intros [H1 [q H2] H3 H4] Hp Hw He.
  destruct (He (asleep i c (LPipe a) s) p Hp Hw) as (Hch & [Hm1 Hm2] & [q' Hq'] & p' & Hp' & Hw' & HR).
  eexists _, p'. split; [by apply (sleep_run c (LPipe a) e env s i q)|].
  split_and!; try done; [|destruct H3 as (_ & Hn & _); split; cbn; [done|]].
  - constructor; cbn; [apply Hch|by rewrite lookup_upd_eq, Hq'|by apply awake_holds|].
    by rewrite lookup_insert_ne, lookup_delete_eq.
  - rewrite Hm2. unfold asleep, released, acquired, popped, pushed. cbn. by rewrite Hn.
Qed.

Lemma busy_release i a env s :
  busy i a s -> release (LPipe a) env s = Ok tt (released (LPipe a) s) env.
Proof. intros [_ _ (H1 & H2 & H3) _]. apply release_held; [done..|lia]. Qed.

Lemma am_killed_run i env s q :
  curproc (kcpu s) = Some i -> procs s !! i = Some q -> am_killed env s = Ok (killed q) s env.
Proof. intros H1 H2. unfold am_killed. by mstep (myproc_get_run env s i q (conj H1 H2)). Qed.

Lemma get_pipe_run a env s p : pipes s !! a = Some p -> get_pipe a env s = Ok p s env.
Proof. unfold get_pipe. by intros ->. Qed.

(** The lock is free again and interrupts are as they were. *)
Definition idle (a : Z) (s : kst) : Prop :=
  locks s !! LPipe a = None /\ ncli (kcpu s) = 0.

Lemma busy_idle i a s : busy i a s -> idle a (released (LPipe a) s).
Proof.
  intros [_ _ (H1 & H2 & H3) _]. split; cbn; [by rewrite lookup_delete_eq|].
  unfold popped. rewrite H2. cbn. by destruct (intena (kcpu s)).
Qed.

Definition was_killed (i : nat) (s : kst) : Prop :=
  exists q, procs s !! i = Some q /\ killed q = true.

(** Process [i] at work on pipe [a] with the memory of [s0], and a pipe
    that satisfies [I]. *)
Definition working (i : nat) (a : Z) (s0 : kst) (I : pipe -> Prop) (s : kst) : Prop :=
  busy i a s /\ same_mem s0 s /\ exists p, pipes s !! a = Some p /\ wf_pipe p /\ I p.

(** Process [i] is asleep on [c], the pipe being as [B] says. *)
Definition stuck (i : nat) (a : Z) (c : chan) (B : pipe -> Prop) (s : kst) : Prop :=
  (exists p, pipes s !! a = Some p /\ B p) /\
  exists q, procs s !! i = Some q /\ state q = SLEEPING /\ p_chan q = Some c.

(** One turn of a loop that sleeps on the pipe. *)
Lemma working_sleep i a s0 (I B : pipe -> Prop) R c env s :
  working i a s0 I s -> Forall (others i a R) env -> (forall p p', I p -> R p p' -> I p') ->
  (forall p, pipes s !! a = Some p -> B p) ->
  runs (stuck i a c B) (sleep c (LPipe a) env s) (fun _ s' env' =>
    working i a s0 I s' /\ Forall (others i a R) env' /\ length env = S (length env')).
Proof.
  intros (Hb & Hm & p & Hp & Hw & HI) He HR HB. destruct env as [|e env].
  - destruct Hb as [H1 [q H2] H3 H4].
    rewrite (sleep_swtch c (LPipe a) [] s i q) by done.
    split; [exists p; auto|]. exists (set_state SLEEPING (set_p_chan (Some c) q)).
    split; [|done]. cbn. by rewrite !lookup_upd_eq, H2.
  - apply Forall_cons in He as [He1 He2].
    destruct (busy_sleep i a R c e env s p) as (s' & p' & -> & Hb' & Hm' & Hp' & Hw' & HR'); [done..|].
    cbn. split_and!; [|done|done]. split_and!; [done|by eapply same_mem_trans|].
    exists p'. split_and!; [done..|]. by apply (HR p).
Qed.

Lemma working_wakeup i a s0 I c env s :
  working i a s0 I s -> exists s', wakeup c env s = Ok tt s' env /\
    working i a s0 I s' /\ pipes s' = pipes s.
Proof.
  intros (Hb & Hm & p & Hp & Hw & HI).
  destruct (busy_wakeup i a c env s Hb) as (s' & E & Hb' & Hm' & Hp').
  exists s'. split_and!; [done| |done]. split_and!; [done|by eapply same_mem_trans|].
  exists p. by rewrite Hp'.
Qed.

(** ** Writing *)

(** While a writer sleeps, readers take bytes from the front. *)
Definition drained (p p' : pipe) : Prop := queue p' `suffix_of` queue p.

Definition written (X : list Z) (p : pipe) : Prop := queue p `suffix_of` X.

Lemma written_drained X p p' : written X p -> drained p p' -> written X p'.
Proof. unfold written, drained. intros. by etrans. Qed.

Lemma written_put X c p :
  wf_pipe p -> fill p < PIPESIZE -> written X p -> wf_pipe (put_byte c p) /\ written (X ++ [c]) (put_byte c p).
Proof.
  intros Hw Hf [k ->]. destruct (put_byte_queue p c Hw Hf) as [H1 H2]. split; [done|].
  unfold written. rewrite H2. exists k. by rewrite app_assoc.
Qed.

Definition full (p : pipe) : Prop := fill p = PIPESIZE /\ readopen p = true.

Lemma wait_room_run i a s0 X env s :
  Forall (others i a drained) env -> working i a s0 (written X) s ->
  runs (stuck i a (CPipeW a) full) (wait_room a env s) (fun r s' env' =>
    Forall (others i a drained) env' /\
    working i a s0 (fun p => written X p /\
      if (r : bool) then fill p < PIPESIZE else readopen p = false \/ was_killed i s') s').
Proof.
  intros He HW. unfold wait_room.
  apply (runs_wait_loop _ _ (fun _ s env => working i a s0 (written X) s /\ Forall (others i a drained) env));
    [|done].
  clear. intros _ env s [HW He]. assert (HW' := HW). destruct HW' as (Hb & Hm & p & Hp & Hw & HI).
  rewrite (bind_ok _ _ _ _ _ _ _ (get_pipe_run a env s p Hp)), pipe_full by done.
  destruct (Z.eqb_spec (fill p) PIPESIZE) as [Hf|Hf]; cbn [negb].
  - pose proof Hb as [H1 [q Hq] H3 H4].
    rewrite (bind_ok _ _ _ _ _ _ _ (am_killed_run i env s q H1 Hq)).
    destruct (negb (readopen p) || killed q) eqn:E.
    + cbn. split; [done|]. split_and!; [done|done|]. exists p. split_and!; [done..|].
      apply orb_prop in E as [E|E]; [left; by destruct (readopen p)|right; by exists q].
    + destruct (working_wakeup i a s0 (written X) (CPipeR a) env s HW) as (s1 & E1 & HW1 & Hp1).
      rewrite (bind_ok _ _ _ _ _ _ _ E1).
      eapply runs_bind; [eapply working_sleep; eauto using written_drained|].
      { intros p1. rewrite Hp1, Hp. intros [= <-]. split; [done|]. by destruct (readopen p). }
      intros [] s2 env2 (H5 & H6 & H7). cbn. split; [done|]. lia.
  - cbn. split; [done|]. split_and!; [done|done|]. exists p. split_and!; [done..|].
    pose proof (wp_fill _ Hw). unfold fill in *. lia.
Qed.

(** The bytes [bs] lie at [addr] in the memory of the process. *)
Definition user_bytes (s : kst) (addr : Z) (bs : list Z) : Prop :=
  forall k b, bs !! k = Some b ->
    uget8 (phys s) (cr3 (kcpu s)) (u32 (addr + Z.of_nat k)) = Some b.

Lemma user_byte_run s0 s addr bs k b env :
  same_mem s0 s -> user_bytes s0 addr bs -> bs !! k = Some b ->
  uload (u32 (addr + Z.of_nat k)) 1 env s = Ok [b] s env.
Proof.
  intros [H1 H2] Hb Hk. unfold uload. rewrite H1, H2. cbn. rewrite u32_idem, (Hb k b Hk). done.
Qed.

Definition write_post (i : nat) (a : Z) (s0 : kst) (q bs : list Z) (r : Z) (s' : kst) : Prop :=
  idle a s' /\ same_mem s0 s' /\ exists p', pipes s' !! a = Some p' /\ wf_pipe p' /\
  ((r = Z.of_nat (length bs) /\ queue p' `suffix_of` q ++ bs) \/
   (r = -1 /\ (readopen p' = false \/ was_killed i s') /\
    exists k, (k < length bs)%nat /\ queue p' `suffix_of` q ++ take k bs)).

Lemma same_mem_released l s : holds_only s l -> same_mem s (released l s).
Proof.
  intros (H1 & H2 & H3). split; cbn; [done|]. unfold popped. rewrite H2. cbn. by destruct (intena _).
Qed.

Lemma pipewrite_loop_run i a s0 addr q bs : forall m k env s,
  (k + m = length bs)%nat -> user_bytes s0 addr bs -> Forall (others i a drained) env ->
  working i a s0 (written (q ++ take k bs)) s ->
  runs (stuck i a (CPipeW a) full) (pipewrite_loop a addr (seqZ (Z.of_nat k) (Z.of_nat m)) (Z.of_nat (length bs)) env s)
    (fun r s' _ => write_post i a s0 q bs r s').
Proof.
  induction m as [|m IH]; intros k env s Hk Hu He HW.
  - cbn [pipewrite_loop seqZ]. rewrite seqZ_nil by lia. cbn [pipewrite_loop].
    destruct (working_wakeup i a s0 _ (CPipeR a) env s HW) as (s1 & E1 & (Hb & Hm & p & Hp & Hw & HI) & _).
    rewrite (bind_ok _ _ _ _ _ _ _ E1), (bind_ok _ _ _ _ _ _ _ (busy_release i a env s1 Hb)).
    cbn. split_and!; [by eapply busy_idle|..].
    { eapply same_mem_trans; [done|]. apply same_mem_released, Hb. }
    exists p. split_and!; [done..|]. left. split; [done|]. by rewrite take_ge in HI by lia.
  - rewrite seqZ_cons by lia. cbn [pipewrite_loop].
    eapply runs_bind; [by apply wait_room_run|]. cbn beta.
    intros r s1 env1 (He1 & Hb & Hm & p & Hp & Hw & HI & Hr).
    destruct r; cbn [negb].
    + destruct (lookup_lt_is_Some_2 bs k) as [b Hkb]; [lia|].
      rewrite (bind_ok _ _ _ _ _ _ _ (user_byte_run s0 s1 addr bs k b env1 Hm Hu Hkb)).
      unfold mod_pipe. rewrite bind_modify.
      replace (Z.succ (Z.of_nat k)) with (Z.of_nat (S k)) by lia.
      replace (Z.pred (Z.of_nat (S m))) with (Z.of_nat m) by lia.
      apply IH; [lia|done..|]. split_and!; [by destruct Hb|done|].
      exists (put_byte b p). cbn [pipes set_pipes]. rewrite lookup_alter_eq, Hp. split; [done|].
      rewrite (take_S_r _ _ b) by done. rewrite app_assoc. by apply written_put.
    + rewrite (bind_ok _ _ _ _ _ _ _ (busy_release i a env1 s1 Hb)). cbn.
      split_and!; [by eapply busy_idle|..].
      { eapply same_mem_trans; [done|]. apply same_mem_released, Hb. }
      exists p. split_and!; [done..|]. right. split; [done|]. split; [done|]. exists k. split; [lia|done].
Qed.

(** A process outside any critical section calls into pipe [a]. *)
Record enters (i : nat) (a : Z) (s : kst) (p : pipe) : Prop := {
  en_cur : curproc (kcpu s) = Some i;
  en_proc : is_Some (procs s !! i);
  en_free : locks s !! LPipe a = None;
  en_table : locks s !! LPtable = None;
  en_ncli : ncli (kcpu s) = 0;
  en_pipe : pipes s !! a = Some p;
  en_wf : wf_pipe p;
}.

Lemma enters_working i a s p (I : pipe -> Prop) :
  enters i a s p -> I p -> working i a s I (acquired (LPipe a) s).
Proof.
  intros [] HI. split_and!; [|done|by exists p].
  constructor; cbn; [done..| |by rewrite lookup_insert_ne].
  split_and!; cbn; [by rewrite lookup_insert_eq|lia|done].
Qed.


(** ** Reading *)

(** While a reader sleeps, writers put bytes behind. *)
Definition refilled (p p' : pipe) : Prop := queue p `prefix_of` queue p'.
Definition holds_more (q : list Z) (p : pipe) : Prop := q `prefix_of` queue p.
Definition dry (p : pipe) : Prop := queue p = [] /\ writeopen p = true.

Lemma fill_0 p : fill p = 0 <-> queue p = [].
Proof.
  rewrite <- length_queue. split; [|by intros ->]. intros H. apply length_zero_iff_nil. lia.
Qed.

Lemma wait_data_run i a s0 q env s :
  Forall (others i a refilled) env -> working i a s0 (holds_more q) s ->
  runs (stuck i a (CPipeR a) dry) (wait_data a env s) (fun r s' env' =>
    working i a s0 (fun p => holds_more q p /\
      if (r : bool) then queue p <> [] \/ writeopen p = false else was_killed i s') s').
Proof.
  intros He HW. unfold wait_data.
  apply (runs_wait_loop _ _ (fun _ s env => working i a s0 (holds_more q) s /\ Forall (others i a refilled) env));
    [|done].
  clear. intros _ env s [HW He]. assert (HW' := HW). destruct HW' as (Hb & Hm & p & Hp & Hw & HI).
  rewrite (bind_ok _ _ _ _ _ _ _ (get_pipe_run a env s p Hp)), pipe_empty by done.
  destruct (Z.eqb_spec (fill p) 0) as [Hf%fill_0|Hf]; cbn [negb andb].
  - destruct (writeopen p) eqn:Eo; cbn [negb].
    + pose proof Hb as [H1 [pr Hq] H3 H4].
      rewrite (bind_ok _ _ _ _ _ _ _ (am_killed_run i env s pr H1 Hq)).
      destruct (killed pr) eqn:Ek.
      * cbn. split_and!; [done..|]. exists p. split_and!; [done..|]. by exists pr.
      * eapply runs_bind; [eapply working_sleep; eauto|].
        { unfold holds_more, refilled. intros. by etrans. }
        { intros p1. rewrite Hp. by intros [= <-]. }
        intros [] s2 env2 (H5 & H6 & H7). cbn. split; [done|]. lia.
    + cbn. split_and!; [done..|]. exists p. auto 6.
  - cbn. split_and!; [done..|]. exists p. split_and!; [done..|]. left. by rewrite <- fill_0.
Qed.

(** [k] bytes of [Q] are in the memory at [addr], the rest in the pipe. *)
Record copied (i : nat) (a : Z) (s0 : kst) (addr : Z) (f : Z -> Z) (Q : list Z) (wo : bool)
    (k : nat) (s : kst) : Prop := {
  cp_busy : busy i a s;
  cp_cr3 : cr3 (kcpu s) = cr3 (kcpu s0);
  cp_phys : phys s = fput f (phys s0) addr (take k Q);
  cp_pipe : exists p, pipes s !! a = Some p /\ wf_pipe p /\ queue p = drop k Q /\ writeopen p = wo;
}.

Lemma copied_step i a s0 addr f n Q wo k b env s p :
  mapped (phys s0) (cr3 (kcpu s0)) addr (Z.of_nat n) f -> (k < n)%nat -> Q !! k = Some b ->
  copied i a s0 addr f Q wo k s -> pipes s !! a = Some p -> byte_at p (nread p) = b ->
  let p' := set_nread (u32 (nread p + 1)) p in wf_pipe p' -> queue p' = drop (S k) Q -> writeopen p' = wo ->
  exists s', (mod_pipe a (set_nread (u32 (nread p + 1))) ;;
              ustore (u32 (addr + Z.of_nat k)) [byte_at p (nread p)]) env s = Ok tt s' env /\
    copied i a s0 addr f Q wo (S k) s'.
Proof.
  intros Hm Hk HQ [Hb Hc Hph _] Hp Hbyte p' Hw' Hq' Hwo.
  assert (k < length Q)%nat as Hlen by (by eapply lookup_lt_Some).
  unfold mod_pipe. rewrite bind_modify. pose proof (mapped_lo _ _ _ _ _ Hm) as Hlo.
  pose proof (mapped_hi _ _ _ _ _ Hm) as Hhi. rewrite u32_small by lia.
  set (s1 := set_pipes _ s).
  assert (mapped (phys s1) (cr3 (kcpu s1)) addr (Z.of_nat n) f) as Hm1.
  { cbn. rewrite Hph, Hc. apply uput_mapped; [done|lia|]. rewrite length_take. lia. }
  rewrite (ustore_run _ _ _ _ _ Hm1) by (cbn; lia). eexists. split; [done|].
  constructor; [by destruct Hb|done| |].
  - cbn [phys set_phys s1]. rewrite (take_S_r _ _ b) by done. rewrite fput_app, length_take.
    cbn. rewrite Hph, Hbyte. do 2 f_equal. lia.
  - exists p'. cbn. rewrite lookup_alter_eq, Hp. done.
Qed.

Lemma piperead_loop_run i a s0 addr f n Q wo : forall m k env s,
  (k + m = n)%nat -> (k <= length Q)%nat -> mapped (phys s0) (cr3 (kcpu s0)) addr (Z.of_nat n) f ->
  copied i a s0 addr f Q wo k s ->
  exists s', piperead_loop a addr (seqZ (Z.of_nat k) (Z.of_nat m)) (Z.of_nat n) env s
      = Ok (Z.of_nat (length (take n Q))) s' env /\ copied i a s0 addr f Q wo (length (take n Q)) s'.
Proof.
  induction m as [|m IH]; intros k env s Hn Hk Hm HC.
  - rewrite seqZ_nil by lia. cbn. rewrite length_take. exists s.
    replace (n `min` length Q)%nat with k by lia. split; [|done]. unfold ret. f_equal. lia.
  - rewrite seqZ_cons by lia. cbn [piperead_loop]. pose proof HC as [Hb Hc Hph (p & Hp & Hw & Hq & Hwo)].
    rewrite (bind_ok _ _ _ _ _ _ _ (get_pipe_run a env s p Hp)), pipe_empty by done.
    destruct (Z.eqb_spec (fill p) 0) as [Hf%fill_0|Hf].
    + rewrite Hq in Hf. apply (f_equal length) in Hf. rewrite length_drop in Hf. cbn in Hf.
      rewrite length_take. replace (n `min` length Q)%nat with k by lia. by exists s.
    + destruct (drop k Q) as [|b q'] eqn:Ed; [by rewrite fill_0 in Hf|].
      assert (Q !! k = Some b) as HQ. { by rewrite <- (Nat.add_0_r k), <- lookup_drop, Ed. }
      assert (q' = drop (S k) Q) as ->. { by rewrite (drop_S _ b) in Ed by done; injection Ed. }
      destruct (get_byte_queue p b (drop (S k) Q) Hw Hq) as (H1 & H2 & H3).
      destruct (copied_step i a s0 addr f n Q wo k b env s p) as (s1 & E1 & HC1); [done|lia|done..|].
      rewrite <- bind_assoc, (bind_ok _ _ _ _ _ _ _ E1).
      replace (Z.succ (Z.of_nat k)) with (Z.of_nat (S k)) by lia.
      replace (Z.pred (Z.of_nat (S m))) with (Z.of_nat m) by lia.
      apply IH; [lia| |done|done]. by eapply lookup_lt_Some in HQ.
Qed.

Definition read_post (i : nat) (a : Z) (s0 : kst) (addr : Z) (n : nat) (f : Z -> Z) (q : list Z)
    (r : Z) (s' : kst) : Prop :=
  idle a s' /\ cr3 (kcpu s') = cr3 (kcpu s0) /\
  ((exists more p', let Q := q ++ more in
      r = Z.of_nat (length (take n Q)) /\
      phys s' = fput f (phys s0) addr (take n Q) /\
      pipes s' !! a = Some p' /\ wf_pipe p' /\ queue p' = drop n Q /\
      (Q = [] -> writeopen p' = false)) \/
   (r = -1 /\ phys s' = phys s0 /\ was_killed i s')).

(** C13: A read of [n] bytes from a pipe takes them from the front.  With
    [q] in the pipe on entry and [more] the bytes other processes put
    behind while the reader waits, it stores the first [n] bytes of
    [q ++ more] at [addr] (all of them when there are fewer), leaves the
    rest in the pipe and returns their number; 0 bytes are only found in a
    pipe whose write end is closed.  A reader that was killed gets -1 and
    its memory is untouched.  It can wait for ever only asleep on an empty
    pipe whose write end is open. *)
Theorem piperead_fifo i a s p addr n f env :
  enters i a s p -> mapped (phys s) (cr3 (kcpu s)) addr (Z.of_nat n) f ->
  Forall (others i a refilled) env ->
  runs (stuck i a (CPipeR a) dry) (piperead a addr (Z.of_nat n) env s)
    (fun r s' _ => read_post i a s addr n f (queue p) r s').
Proof.
  intros Hen Hm He. unfold piperead.
  rewrite (bind_ok _ _ _ _ _ _ _ (acquire_free _ env s (en_free _ _ _ _ Hen))).
  eapply runs_bind.
  { apply (wait_data_run i a s (queue p)); [done|].
    apply (enters_working i a s p); [done|]. by unfold holds_more. }
  intros r s1 env1 (Hb & [Hm1 Hm2] & p1 & Hp1 & Hw1 & [more HI] & Hr). destruct r; cbn [negb].
  - destruct (piperead_loop_run i a s addr f n (queue p1) (writeopen p1) n 0 env1 s1)
      as (s2 & E2 & [Hb2 Hc2 Hph2 (p2 & Hp2 & Hw2 & Hq2 & Hwo2)]); [lia|lia|done|by constructor; eauto|].
    change (Z.of_nat 0) with 0 in E2. rewrite (bind_ok _ _ _ _ _ _ _ E2).
    destruct (busy_wakeup i a (CPipeW a) env1 s2 Hb2) as (s3 & E3 & Hb3 & [Hm3 Hm3'] & Hp3).
    rewrite (bind_ok _ _ _ _ _ _ _ E3), (bind_ok _ _ _ _ _ _ _ (busy_release i a env1 s3 Hb3)). cbn.
    destruct (same_mem_released _ s3 (by_hold _ _ _ Hb3)) as [Hm4 Hm4'].
    split_and!; [by eapply busy_idle|congruence|]. left. exists more, p2. rewrite <- HI.
    assert (drop (length (take n (queue p1))) (queue p1) = drop n (queue p1)) as Ed.
    { rewrite length_take. destruct (decide (n <= length (queue p1))%nat); [f_equal; lia|].
      rewrite !drop_ge by lia. done. }
    assert (take (length (take n (queue p1))) (queue p1) = take n (queue p1)) as Et.
    { rewrite length_take. destruct (decide (n <= length (queue p1))%nat); [f_equal; lia|].
      rewrite !take_ge by lia. done. }
    split_and!; [done|cbn; by rewrite Hm3, Hph2, Et|cbn; by rewrite Hp3|done|by rewrite <- Ed|].
    intros HQ. rewrite Hwo2. by destruct Hr.
  - rewrite (bind_ok _ _ _ _ _ _ _ (busy_release i a env1 s1 Hb)). cbn.
    destruct (same_mem_released _ s1 (by_hold _ _ _ Hb)) as [Hm4 Hm4'].
    split_and!; [by eapply busy_idle|congruence|]. right. by rewrite Hm4, Hm1.
Qed.

(** ** Examples *)

(** A process with one page of memory, at 0, and a pipe whose counters are
    about to wrap. *)
Definition kst_pipe (p : pipe) : kst :=
  set_kcpu (set_curproc (Some 0%nat) (set_cr3 4096 cpu_boot))
    (set_phys (mput (store32 (store32 ∅ 4096 (8192 + 7)) 8192 (12288 + 7)) 12288 [72; 105; 33])
      (set_pipes {[ 40960 := p ]} kst_boot)).
Definition pipe_example (r w : Z) : pipe := mkpipe (replicate 512 7) r w true true.

(** The scheduler hands the CPU back after some process did [f] to the pipe. *)
Definition other_did (f : pipe -> pipe) (s : kst) : kst :=
  set_kcpu (set_curproc (Some 0%nat) (set_ncli 1 (set_iflag false (kcpu s))))
    (set_locks {[ LPtable := cpuid (kcpu s) ]}
      (set_procs (replicate NPROC proc_zero) (set_pipes (alter f 40960 (pipes s)) s))).

Lemma other_did_others (R : pipe -> pipe -> Prop) f :
  (forall p, wf_pipe p -> wf_pipe (f p) /\ R p (f p)) -> others 0 40960 R (other_did f).
Proof.
  intros Hf s p Hp Hw. split_and!.
  - constructor; cbn; [done|by rewrite lookup_singleton_eq|done|done|by rewrite lookup_singleton_ne].
  - done.
  - cbn. eauto.
  - exists (f p). cbn. rewrite lookup_alter_eq, Hp. split; [done|]. by apply Hf.
Qed.

Definition take_all (p : pipe) : pipe := set_nread (nwrite p) p.
Lemma take_all_drained p : wf_pipe p -> wf_pipe (take_all p) /\ drained p (take_all p).
Proof.
  intros [H1 H2 H3 H4].
  assert (fill (take_all p) = 0) as EF by (unfold fill; cbn; by rewrite Z.sub_diag).
  split; [constructor; cbn; [done..|]; by rewrite Z.sub_diag|].
  unfold drained. apply fill_0 in EF. rewrite EF. apply suffix_nil.
Qed.

Definition put_if_room (c : Z) (p : pipe) : pipe := if fill p <? PIPESIZE then put_byte c p else p.
Lemma put_if_room_refilled c p : wf_pipe p -> wf_pipe (put_if_room c p) /\ refilled p (put_if_room c p).
Proof.
  intros Hw. unfold put_if_room, refilled. destruct (Z.ltb_spec (fill p) PIPESIZE); [|done].
  destruct (put_byte_queue p c Hw) as [H1 H2]; [done|]. split; [done|]. rewrite H2. by apply prefix_app_r.
Qed.

Lemma enters_example r w :
  wf_pipe (pipe_example r w) ->
  enters 0 40960 (kst_pipe (pipe_example r w)) (pipe_example r w).
Proof. intros Hw. constructor; try done. Qed.


(** An empty pipe gets a byte while the reader sleeps. *)
Lemma piperead_fifo_witness :
  let p := pipe_example 4294967295 4294967295 in let s := kst_pipe p in
  runs (stuck 0 40960 (CPipeR 40960) dry) (piperead 40960 0 3 [other_did (put_if_room 65)] s)
    (fun r s' _ => read_post 0 40960 s 0 3 (fun va => 12288 + va) (queue p) r s').
Proof.
  intros p s. apply (piperead_fifo 0 40960 s p 0 3 (fun va => 12288 + va) [other_did (put_if_room 65)]).
  - apply enters_example. constructor; by vm_compute.
  - apply mappedb_sound. by vm_compute.
  - constructor; [|constructor]. apply other_did_others, put_if_room_refilled.
Defined.
