(* ===== verification/Str.v ===== *)
(** * string.c: copying and comparing bytes

    The functions work on a memory given by byte; an address is an
    integer, and no object wraps around the end of the address space. *)

From stdpp Require Import base numbers list gmap strings.
From S2P Require Import Prelude Kernel Kalloc.

(** ** The functions *)

(** [stosb] and [stosl] of x86.h: [n] copies of a byte, of a word. *)
Fixpoint stosb (m : gmap Z Z) (a c : Z) (n : nat) : gmap Z Z :=
  match n with
  | O => m
  | S n' => stosb (<[a := u8 c]> m) (a + 1) c n'
  end.
Fixpoint stosl (m : gmap Z Z) (a v : Z) (n : nat) : gmap Z Z :=
  match n with
  | O => m
  | S n' => stosl (store32 m a v) (a + 4) v n'
  end.

Definition memset (m : gmap Z Z) (dst c n : Z) : gmap Z Z :=
  if (dst mod 4 =? 0) && (n mod 4 =? 0) then
    let c := Z.land c 255 in
    stosl m dst (Z.lor (Z.lor (Z.lor (Z.shiftl c 24) (Z.shiftl c 16)) (Z.shiftl c 8)) c)
      (Z.to_nat (n / 4))
  else stosb m dst c (Z.to_nat n).

Fixpoint memcmp (m : gmap Z Z) (s1 s2 : Z) (n : nat) : Z :=
  match n with
  | O => 0
  | S n' =>
      if negb (mget m s1 =? mget m s2) then mget m s1 - mget m s2
      else memcmp m (s1 + 1) (s2 + 1) n'
  end.

(** [while(n-- > 0) *d++ = *s++], and from the top with [*--d = *--s]. *)
Fixpoint copy_up (m : gmap Z Z) (d s : Z) (n : nat) : gmap Z Z :=
  match n with
  | O => m
  | S n' => copy_up (<[d := mget m s]> m) (d + 1) (s + 1) n'
  end.
Fixpoint copy_down (m : gmap Z Z) (d s : Z) (n : nat) : gmap Z Z :=
  match n with
  | O => m
  | S n' => copy_down (<[d - 1 := mget m (s - 1)]> m) (d - 1) (s - 1) n'
  end.

Definition memmove (m : gmap Z Z) (dst src n : Z) : gmap Z Z :=
  if (src <? dst) && (dst <? src + n)
  then copy_down m (dst + n) (src + n) (Z.to_nat n)
  else copy_up m dst src (Z.to_nat n).

Definition memcpy (m : gmap Z Z) (dst src n : Z) : gmap Z Z := memmove m dst src n.

Fixpoint strncmp (m : gmap Z Z) (p q : Z) (n : nat) : Z :=
  match n with
  | O => 0
  | S n' =>
      if negb (mget m p =? 0) && (mget m p =? mget m q)
      then strncmp m (p + 1) (q + 1) n'
      else mget m p - mget m q
  end.

(** The second loop of [strncpy] and the two together. *)
Fixpoint zero_fill (m : gmap Z Z) (s : Z) (n : nat) : gmap Z Z :=
  match n with
  | O => m
  | S n' => zero_fill (<[s := 0]> m) (s + 1) n'
  end.
Fixpoint strncpy (m : gmap Z Z) (s t : Z) (n : nat) : gmap Z Z :=
  match n with
  | O => m
  | S n' =>
      let c := mget m t in
      let m' := <[s := c]> m in
      if c =? 0 then zero_fill m' (s + 1) n' else strncpy m' (s + 1) (t + 1) n'
  end.

(** The loop of [safestrcpy], for [n] iterations, and the final store of 0. *)
Fixpoint safestrcpy_loop (m : gmap Z Z) (s t : Z) (n : nat) : gmap Z Z :=
  match n with
  | O => <[s := 0]> m
  | S n' =>
      let c := mget m t in
      let m' := <[s := c]> m in
      if c =? 0 then <[s + 1 := 0]> m' else safestrcpy_loop m' (s + 1) (t + 1) n'
  end.
Definition safestrcpy (m : gmap Z Z) (s t n : Z) : gmap Z Z :=
  if n <=? 0 then m else safestrcpy_loop m s t (Z.to_nat (n - 1)).

(** [for(n = 0; s[n]; n++)].  A memory with [k] bytes that are not zero
    cannot hold [k + 1] of them in a row, so [S (size m)] steps are enough. *)
Fixpoint strlen_loop (m : gmap Z Z) (s : Z) (n : Z) (fuel : nat) : option Z :=
  match fuel with
  | O => None
  | S fuel' => if mget m (s + n) =? 0 then Some n else strlen_loop m s (n + 1) fuel'
  end.
Definition strlen (m : gmap Z Z) (s : Z) : option Z := strlen_loop m s 0 (S (size m)).

(** ** What they do *)

Lemma mget_insert m a b x : mget (<[a := b]> m) x = if x =? a then b else mget m x.
Proof.
  unfold mget. destruct (Z.eqb_spec x a) as [->|Hne].
  - by rewrite lookup_insert_eq.
  - by rewrite lookup_insert_ne by lia.
Qed.

(** Case analysis on which bytes an insertion changes. *)
Ltac bytecase := rewrite ?mget_insert; zcase; cbn [andb]; try lia; try done.

Lemma mget_stosb m c n : forall a x, mget (stosb m a c n) x =
  if (a <=? x) && (x <? a + Z.of_nat n) then u8 c else mget m x.
Proof.
  revert m. induction n as [|n IH]; intros m a x; cbn [stosb]; [bytecase|].
  rewrite IH. bytecase.
Qed.

Lemma mget_store32 m a v x : mget (store32 m a v) x =
  if (a <=? x) && (x <? a + 4) then (v / 256 ^ (x - a)) mod 256 else mget m x.
Proof.
  rewrite store32_mput, mget_mput. cbn [length bytes32]. change (Z.of_nat 4) with 4.
  zcase; cbn [andb]; try done.
  assert (x - a = 0 \/ x - a = 1 \/ x - a = 2 \/ x - a = 3) as Hx by lia.
  destruct Hx as [-> | [-> | [-> | ->]]]; cbn; f_equal; by rewrite ?Z.div_1_r.
Qed.

Definition rep_word (c : Z) : Z :=
  Z.lor (Z.lor (Z.lor (Z.shiftl c 24) (Z.shiftl c 16)) (Z.shiftl c 8)) c.

Lemma lor_high x k y : 0 <= y < 2 ^ k -> 0 <= k -> Z.lor (Z.shiftl x k) y = x * 2 ^ k + y.
Proof.
  intros Hy Hk. rewrite <- Z.add_lor_land, Z.shiftl_mul_pow2 by done.
  assert (Z.land (x * 2 ^ k) y = 0) as ->; [|lia].
  destruct (decide (y = 0)) as [->|Hy0]; [apply Z.land_0_r|].
  apply Z.bits_inj'. intros n Hn. rewrite Z.land_spec, Z.bits_0.
  destruct (Z.lt_ge_cases n k).
  - by rewrite Z.mul_pow2_bits_low.
  - rewrite (Z.bits_above_log2 y n), andb_false_r; [done|lia|].
    apply Z.log2_lt_pow2; [lia|].
    apply (Z.lt_le_trans _ (2 ^ k)); [lia|]. apply Z.pow_le_mono_r; lia.
Qed.

Lemma rep_word_eq c : 0 <= c < 256 -> rep_word c = c * 16843009.
Proof.
  intros Hc. unfold rep_word. rewrite <- !Z.lor_assoc.
  pose proof (lor_high c 8 c) as E1. pose proof (lor_high c 16 (c * 256 + c)) as E2.
  pose proof (lor_high c 24 (c * 65536 + (c * 256 + c))) as E3.
  change (2 ^ 8) with 256 in *. change (2 ^ 16) with 65536 in *. change (2 ^ 24) with 16777216 in *.
  rewrite E1, E2, E3; lia.
Qed.

Lemma rep_word_byte c i : 0 <= c < 256 -> 0 <= i < 4 -> (rep_word c / 256 ^ i) mod 256 = c.
Proof.
  intros Hc Hi. rewrite rep_word_eq by done.
  assert (i = 0 \/ i = 1 \/ i = 2 \/ i = 3) as Hx by lia.
  destruct Hx as [-> | [-> | [-> | ->]]]; cbn; Z.div_mod_to_equations; lia.
Qed.

Lemma mget_stosl c n : 0 <= c < 256 -> forall m a x, mget (stosl m a (rep_word c) n) x =
  if (a <=? x) && (x <? a + 4 * Z.of_nat n) then c else mget m x.
Proof.
  intros Hc. induction n as [|n IH]; intros m a x; cbn [stosl]; [bytecase|].
  rewrite IH, mget_store32. zcase; cbn [andb]; try lia; try done.
  apply rep_word_byte; lia.
Qed.

(** Both branches of [memset] fill the same bytes. *)
Lemma memset_fills m dst c n x :
  0 <= n -> mget (memset m dst c n) x =
    if (dst <=? x) && (x <? dst + n) then u8 c else mget m x.
Proof.
  intros Hn. unfold memset. assert (Z.land c 255 = u8 c) as Ec.
  { change 255 with (Z.ones 8). by rewrite Z.land_ones. }
  destruct ((dst mod 4 =? 0) && (n mod 4 =? 0)) eqn:E.
  - apply andb_prop in E as [_ E%Z.eqb_eq]. rewrite Ec. fold (rep_word (u8 c)).
    rewrite mget_stosl by (unfold u8; apply Z.mod_pos_bound; lia).
    replace (4 * Z.of_nat (Z.to_nat (n / 4))) with n by (Z.div_mod_to_equations; lia). done.
  - rewrite mget_stosb. by replace (Z.of_nat (Z.to_nat n)) with n by lia.
Qed.

Lemma mget_copy_up n : forall m d s x, (d <= s \/ s + Z.of_nat n <= d) ->
  mget (copy_up m d s n) x =
    if (d <=? x) && (x <? d + Z.of_nat n) then mget m (s + (x - d)) else mget m x.
Proof.
  induction n as [|n IH]; intros m d s x H; cbn [copy_up]; [bytecase|].
  rewrite IH by lia. rewrite !mget_insert. zcase; cbn [andb]; try lia; try done; f_equal; lia.
Qed.

Lemma mget_copy_down n : forall m d s x, s <= d ->
  mget (copy_down m d s n) x =
    if (d - Z.of_nat n <=? x) && (x <? d) then mget m (s - (d - x)) else mget m x.
Proof.
  induction n as [|n IH]; intros m d s x H; cbn [copy_down]; [bytecase|].
  rewrite IH by lia. rewrite !mget_insert. zcase; cbn [andb]; try lia; try done; f_equal; lia.
Qed.

Lemma mget_memmove m dst src n x :
  0 <= n -> mget (memmove m dst src n) x =
    if (dst <=? x) && (x <? dst + n) then mget m (src + (x - dst)) else mget m x.
Proof.
  intros Hn. unfold memmove. destruct ((src <? dst) && (dst <? src + n)) eqn:E.
  - apply andb_prop in E as [E1%Z.ltb_lt E2%Z.ltb_lt]. rewrite mget_copy_down by lia.
    replace (dst + n - Z.of_nat (Z.to_nat n)) with dst by lia.
    zcase; cbn [andb]; try done. f_equal. lia.
  - rewrite mget_copy_up; [by replace (Z.of_nat (Z.to_nat n)) with n by lia|].
    apply andb_false_iff in E as [E%Z.ltb_ge|E%Z.ltb_ge]; lia.
Qed.

(** [memmove] copies [n] bytes as they were before the call, even when
    the two ranges overlap, and changes no other byte. *)
Theorem memmove_copies m dst src n x :
  0 <= n -> mget (memmove m dst src n) x =
    if (dst <=? x) && (x <? dst + n) then mget m (src + (x - dst)) else mget m x.
Proof. apply mget_memmove. Qed.

Lemma memmove_copies_witness :
  let m := mput ∅ 100 [1; 2; 3; 4; 5] in
  (mget (memmove m 102 100 5) <$> [100; 101; 102; 103; 104; 105; 106; 107]) = [1; 2; 1; 2; 3; 4; 5; 0].
Proof.
  intros m. cbn [fmap list_fmap].
  rewrite !(memmove_copies m 102 100 5) by lia. by vm_compute.
Defined.

(** ** Strings *)

(** The characters at [p] up to the first NUL, at most [n]. *)
Fixpoint cstr (m : gmap Z Z) (p : Z) (n : nat) : list Z :=
  match n with
  | O => []
  | S n' => if mget m p =? 0 then [] else mget m p :: cstr m (p + 1) n'
  end.

(** [strncmp] is 0 exactly when the strings agree, as far as it looks. *)
Lemma strncmp_zero m n : forall p q, strncmp m p q n = 0 <-> cstr m p n = cstr m q n.
Proof.
  induction n as [|n IH]; intros p q; cbn [strncmp cstr]; [done|].
  destruct (Z.eqb_spec (mget m p) 0) as [Hp|Hp]; cbn [negb andb].
  - destruct (Z.eqb_spec (mget m q) 0) as [Hq|Hq]; [split; [done|lia]|]. split; [lia|done].
  - destruct (Z.eqb_spec (mget m p) (mget m q)) as [E|E].
    + rewrite <- E. destruct (Z.eqb_spec (mget m p) 0); [lia|]. rewrite IH.
      split; [by intros ->|congruence].
    + destruct (Z.eqb_spec (mget m q) 0) as [Hq|Hq]; split; try lia; try done. congruence.
Qed.

Lemma cstr_insert_out m a b n : forall p,
  a < p \/ p + Z.of_nat n <= a -> cstr (<[a := b]> m) p n = cstr m p n.
Proof.
  induction n as [|n IH]; intros p Ha; cbn [cstr]; [done|].
  rewrite mget_insert. destruct (Z.eqb_spec p a); [lia|]. by rewrite IH by lia.
Qed.

Lemma safestrcpy_loop_copies n : forall m s t,
  (s + Z.of_nat n < t \/ t + Z.of_nat n <= s) ->
  let m' := safestrcpy_loop m s t n in
  cstr m' s (S n) = cstr m t n /\
  (forall x, x < s \/ s + Z.of_nat n < x -> mget m' x = mget m x).
Proof.
  induction n as [|n IH]; intros m s t H; cbn [safestrcpy_loop].
  - cbn [cstr]. rewrite mget_insert, Z.eqb_refl. split; [done|]. intros x Hx. bytecase.
  - destruct (Z.eqb_spec (mget m t) 0) as [Ht|Ht].
    + cbn [cstr]. rewrite Ht, !mget_insert. cbn. rewrite Z.eqb_refl.
      destruct (Z.eqb_spec s (s + 1)); [lia|]. split; [done|]. intros x Hx. bytecase.
    + destruct (IH (<[s := mget m t]> m) (s + 1) (t + 1)) as [H1 H2]; [lia|].
      set (m2 := safestrcpy_loop _ _ _ _) in *. cbn zeta in *.
      assert (mget m2 s = mget m t) as Es.
      { rewrite H2 by lia. by rewrite mget_insert, Z.eqb_refl. }
      split.
      * change (cstr m2 s (S (S n))) with (if mget m2 s =? 0 then [] else mget m2 s :: cstr m2 (s + 1) (S n)).
        rewrite Es, H1. cbn [cstr]. destruct (Z.eqb_spec (mget m t) 0); [done|].
        by rewrite cstr_insert_out by lia.
      * intros x Hx. rewrite H2 by lia. bytecase.
Qed.

(** [safestrcpy] always leaves a terminated string: the longest prefix of
    the source that fits, and it stays within the [n] bytes it was given. *)
Lemma safestrcpy_copies m s t n :
  0 < n -> (s + n <= t \/ t + n <= s + 1) ->
  let m' := safestrcpy m s t n in
  cstr m' s (Z.to_nat n) = cstr m t (Z.to_nat (n - 1)) /\
  (forall x, x < s \/ s + n <= x -> mget m' x = mget m x).
Proof.
  intros Hn H. unfold safestrcpy. destruct (Z.leb_spec n 0); [lia|].
  replace (Z.to_nat n) with (S (Z.to_nat (n - 1))) by lia.
  destruct (safestrcpy_loop_copies (Z.to_nat (n - 1)) m s t) as [H1 H2]; [lia|].
  split; [done|]. intros x Hx. apply H2. lia.
Qed.

(** Enough fuel: a byte that is not zero is in the memory, and distinct
    addresses of a memory of [k] bytes are at most [k]. *)
Lemma strlen_loop_total m s n fuel :
  (size m < Z.to_nat n + fuel)%nat -> 0 <= n ->
  (forall k, 0 <= k < n -> mget m (s + k) <> 0) ->
  exists r, strlen_loop m s n fuel = Some r /\ n <= r /\ mget m (s + r) = 0 /\
    (forall k, 0 <= k < r -> mget m (s + k) <> 0).
Proof.
  revert n. induction fuel as [|fuel IH]; intros n Hf Hn Hk; cbn [strlen_loop].
  - exfalso. set (l := Z.add s <$> seqZ 0 n).
    assert (NoDup l) as Hl. { apply NoDup_fmap; [intros x y; lia|apply NoDup_seqZ]. }
    assert (l ⊆ elements (dom m)) as Hs.
    { intros x (k & -> & Hk')%list_elem_of_fmap. apply elem_of_seqZ in Hk'.
      apply elem_of_elements, elem_of_dom. specialize (Hk k ltac:(lia)). unfold mget in Hk.
      by destruct (m !! (s + k)). }
    pose proof (NoDup_submseteq l (elements (dom m)) Hl Hs) as Hsub%submseteq_length.
    unfold l in Hsub. rewrite length_fmap, length_seqZ in Hsub.
    change (length (elements (dom m))) with (size (dom m)) in Hsub. rewrite size_dom in Hsub. lia.
  - destruct (Z.eqb_spec (mget m (s + n)) 0) as [E|E]; [by exists n|].
    destruct (IH (n + 1)) as (r & E1 & E2 & E3); [lia|lia| |].
    + intros k Hk'. destruct (decide (k = n)) as [->|]; [done|]. apply Hk. lia.
    + exists r. split_and!; [done|lia|apply E3..].
Qed.

(** [strlen] is the position of the first NUL. *)
Lemma strlen_first_nul m s :
  exists r, strlen m s = Some r /\ 0 <= r /\ mget m (s + r) = 0 /\
    (forall k, 0 <= k < r -> mget m (s + k) <> 0).
Proof. apply strlen_loop_total; [lia|lia|]. intros k Hk. lia. Qed.
