(* ===== verification/Boot.v ===== *)
(** * bootmain.c: the boot loader

    The boot loader runs before there is a kernel: it talks to the disk
    through its ports, and writes physical memory.  [disk s] is sector [s];
    the kernel is an ELF file that starts at sector 1.  The loop in
    [waitdisk] that polls the status has no effect. *)

From stdpp Require Import base numbers list gmap.
From S2P Require Import Prelude Kernel Kalloc Str.

Definition SECTSIZE : Z := 512.
Definition ELF_MAGIC : Z := 1179403647.

(** The registers of the disk. *)
Record ata := mkata { r_count : Z; r_lba0 : Z; r_lba1 : Z; r_lba2 : Z; r_dev : Z; r_cmd : Z }.
Definition outb (port data : Z) (r : ata) : ata :=
  let d := u8 data in
  if port =? 498 then mkata d (r_lba0 r) (r_lba1 r) (r_lba2 r) (r_dev r) (r_cmd r)
  else if port =? 499 then mkata (r_count r) d (r_lba1 r) (r_lba2 r) (r_dev r) (r_cmd r)
  else if port =? 500 then mkata (r_count r) (r_lba0 r) d (r_lba2 r) (r_dev r) (r_cmd r)
  else if port =? 501 then mkata (r_count r) (r_lba0 r) (r_lba1 r) d (r_dev r) (r_cmd r)
  else if port =? 502 then mkata (r_count r) (r_lba0 r) (r_lba1 r) (r_lba2 r) d (r_cmd r)
  else if port =? 503 then mkata (r_count r) (r_lba0 r) (r_lba1 r) (r_lba2 r) (r_dev r) d
  else r.

Section Boot.
Context (disk : Z -> list Z).

(** What the data port gives: the sector, when one was asked for. *)
Definition ata_data (r : ata) : list Z :=
  if (r_cmd r =? 32) && (r_count r =? 1) then
    disk (r_lba0 r + 256 * r_lba1 r + 65536 * r_lba2 r + 16777216 * Z.land (r_dev r) 15)
  else [].

Record bst := mkbst { bregs : ata; bmem : gmap Z Z }.
Definition bout (port data : Z) (s : bst) : bst := mkbst (outb port data (bregs s)) (bmem s).
Definition binsl (dst : Z) (n : nat) (s : bst) : bst := mkbst (bregs s) (mput (bmem s) dst (take (4 * n) (ata_data (bregs s)))).

Definition readsect (dst offset : Z) (s : bst) : bst :=
  let s := bout 498 1 s in
  let s := bout 499 offset s in
  let s := bout 500 (Z.shiftr offset 8) s in
  let s := bout 501 (Z.shiftr offset 16) s in
  let s := bout 502 (Z.lor (Z.shiftr offset 24) 224) s in
  let s := bout 503 32 s in
  binsl dst (Z.to_nat (SECTSIZE / 4)) s.

(** [for(; pa < epa; pa += SECTSIZE, offset++)] *)
Fixpoint readseg_loop (fuel : nat) (pa epa offset : Z) (s : bst) : option bst :=
  match fuel with
  | O => None
  | S f =>
      if epa <=? pa then Some s
      else readseg_loop f (u32 (pa + SECTSIZE)) epa (u32 (offset + 1)) (readsect pa offset s)
  end.
Definition readseg (pa count offset : Z) (s : bst) : option bst :=
  let epa := u32 (pa + count) in
  let pa := u32 (pa - offset mod SECTSIZE) in
  readseg_loop (Z.to_nat ((epa - pa) / SECTSIZE + 2)) pa epa (u32 (offset / SECTSIZE + 1)) s.

Definition load16 (m : gmap Z Z) (a : Z) : Z := mget m a + 256 * mget m (a + 1).

(** elf.h: the fields of the headers in memory. *)
Definition elf : Z := 65536.
Definition e_magic (m : gmap Z Z) : Z := load32 m elf.
Definition e_entry (m : gmap Z Z) : Z := load32 m (elf + 24).
Definition e_phoff (m : gmap Z Z) : Z := load32 m (elf + 28).
Definition e_phnum (m : gmap Z Z) : Z := load16 m (elf + 44).
Definition p_off (m : gmap Z Z) (ph : Z) : Z := load32 m (ph + 4).
Definition p_paddr (m : gmap Z Z) (ph : Z) : Z := load32 m (ph + 12).
Definition p_filesz (m : gmap Z Z) (ph : Z) : Z := load32 m (ph + 16).
Definition p_memsz (m : gmap Z Z) (ph : Z) : Z := load32 m (ph + 20).

Definition load_segment (ph : Z) (s : bst) : option bst :=
  let m := bmem s in
  let pa := p_paddr m ph in
  s ← readseg pa (p_filesz m ph) (p_off m ph) s;
  let m := bmem s in
  if p_filesz m ph <? p_memsz m ph then
    Some (mkbst (bregs s) (stosb m (u32 (pa + p_filesz m ph)) 0 (Z.to_nat (p_memsz m ph - p_filesz m ph))))
  else Some s.

(** [for(; ph < eph; ph++)] *)
Fixpoint load_segments (fuel : nat) (ph eph : Z) (s : bst) : option bst :=
  match fuel with
  | O => None
  | S f =>
      if eph <=? ph then Some s else
      s ← load_segment ph s;
      load_segments f (u32 (ph + 32)) eph s
  end.

(** The entry point it jumps to, or the return to bootasm.S. *)
Definition bootmain (s : bst) : option (option Z * bst) :=
  s ← readseg elf 4096 0 s;
  let m := bmem s in
  if negb (e_magic m =? ELF_MAGIC) then Some (None, s) else
  let ph := u32 (elf + e_phoff m) in
  let eph := u32 (ph + 32 * e_phnum m) in
  s ← load_segments (S (Z.to_nat (e_phnum m))) ph eph s;
  Some (Some (e_entry (bmem s)), s).
End Boot.

(** ** What is loaded *)

Section Loads.
Context (disk : Z -> list Z).
(** Sectors are 512 bytes. *)
Context (Hdisk : forall s, length (disk s) = 512%nat /\ Forall (fun b => 0 <= b < 256) (disk s)).

(** The bytes of the kernel file, from sector 1 on. *)
Definition file (k : Z) : Z := nth (Z.to_nat (k mod 512)) (disk (k / 512 + 1)) 0.
Definition file16 (k : Z) : Z := file k + 256 * file (k + 1).
Definition file32 (k : Z) : Z := file k + 256 * file (k + 1) + 65536 * file (k + 2) + 16777216 * file (k + 3).

Lemma file_byte_range k : 0 <= file k < 256.
Proof using Hdisk.
  unfold file. destruct (Hdisk (k / 512 + 1)) as [Hl Hf]. pose proof (Z.mod_pos_bound k 512 ltac:(lia)).
  apply Forall_nth; [done|]. lia.
Qed.
Lemma file32_range k : 0 <= file32 k < 4294967296.
Proof using Hdisk.
  unfold file32. pose proof (file_byte_range k). pose proof (file_byte_range (k + 1)). pose proof (file_byte_range (k + 2)).
  pose proof (file_byte_range (k + 3)). lia.
Qed.

(** The 28 bits of the sector number go through the registers. *)
Lemma lba_bits off : 0 <= off < 268435456 ->
  u8 off + 256 * u8 (Z.shiftr off 8) + 65536 * u8 (Z.shiftr off 16) + 16777216 * Z.land (u8 (Z.lor (Z.shiftr off 24) 224)) 15 = off.
Proof using.
  intros Ho. rewrite !Z.shiftr_div_pow2 by lia. change (2 ^ 8) with 256. change (2 ^ 16) with 65536. change (2 ^ 24) with 16777216.
  set (x := off / 16777216). assert (0 <= x < 16) as Hx by (unfold x; Z.div_mod_to_equations; lia).
  assert (Z.land (u8 (Z.lor x 224)) 15 = x) as ->.
  { assert (In x [0;1;2;3;4;5;6;7;8;9;10;11;12;13;14;15]) as Hin by (cbn; lia). clearbody x. cbn in Hin.
    repeat (destruct Hin as [<-|Hin]; [reflexivity|]). done. }
  unfold x, u8. replace (off / 65536) with (off / 256 / 256) by (by rewrite Z.div_div by lia).
  replace (off / 16777216) with (off / 256 / 256 / 256) by (by rewrite !Z.div_div by lia).
  pose proof (Z.div_mod off 256 ltac:(lia)). pose proof (Z.div_mod (off / 256) 256 ltac:(lia)). pose proof (Z.div_mod (off / 256 / 256) 256 ltac:(lia)).
  lia.
Qed.

Lemma readsect_run dst off s : 0 <= off < 268435456 -> bmem (readsect disk dst off s) = mput (bmem s) dst (disk off).
Proof using Hdisk.
  intros Ho. unfold readsect, binsl, bout. cbn [bregs bmem]. set (r := bregs s). clearbody r.
  change (outb 498 1 r) with (mkata 1 (r_lba0 r) (r_lba1 r) (r_lba2 r) (r_dev r) (r_cmd r)).
  assert (forall a0 a1 a2 a3 a4 a5 d0 d1 d2 d3 : Z,
    outb 503 32 (outb 502 d3 (outb 501 d2 (outb 500 d1 (outb 499 d0 (mkata a0 a1 a2 a3 a4 a5))))) = mkata a0 (u8 d0) (u8 d1) (u8 d2) (u8 d3) 32) as ->
    by reflexivity.
  unfold ata_data. cbn [r_count r_lba0 r_lba1 r_lba2 r_dev r_cmd]. change ((32 =? 32) && (1 =? 1)) with true. cbv iota.
  rewrite lba_bits by done. f_equal. apply take_ge. rewrite (proj1 (Hdisk off)). by change (4 * Z.to_nat (SECTSIZE / 4))%nat with 512%nat.
Qed.

Lemma readseg_loop_run : forall fuel pa epa o s,
  0 <= pa -> epa + 512 <= 4294967296 -> 1 <= o -> 512 * o + (epa - pa) <= 17179869184 -> epa - pa <= 512 * (Z.of_nat fuel - 1) -> (0 < fuel)%nat ->
  exists s', readseg_loop disk fuel pa epa o s = Some s' /\
    (forall x, pa <= x < epa -> mget (bmem s') x = file ((o - 1) * 512 + (x - pa))) /\
    (forall x, x < pa -> mget (bmem s') x = mget (bmem s) x).
Proof using Hdisk.
  induction fuel as [|f IH]; intros pa epa o s Hpa Hepa Ho Ho1 Hf Hf0; [lia|].
  cbn [readseg_loop]. destruct (Z.leb_spec epa pa) as [Hd|Hd]; [exists s; split; [done|]; split; [lia|done]|].
  change SECTSIZE with 512. rewrite !u32_small by lia.
  destruct (IH (pa + 512) epa (o + 1) (readsect disk pa o s)) as (s' & E & H1 & H2); try lia.
  exists s'. split; [done|]. rewrite readsect_run in H2 by lia. destruct (Hdisk o) as [Hl _]. split.
  - intros x Hx. destruct (Z.lt_ge_cases x (pa + 512)) as [Hlo|Hhi].
    + rewrite H2 by lia. rewrite mget_mput, Hl. change (Z.of_nat 512) with 512.
      rewrite (proj2 (Z.leb_le pa x)), (proj2 (Z.ltb_lt x (pa + 512))) by lia. cbn [andb]. unfold file.
      replace (((o - 1) * 512 + (x - pa)) mod 512) with (x - pa) by (Z.div_mod_to_equations; lia).
      replace (((o - 1) * 512 + (x - pa)) / 512 + 1) with o by (Z.div_mod_to_equations; lia). done.
    + rewrite H1 by lia. f_equal. lia.
  - intros x Hx. rewrite H2 by lia. apply mget_mput_out. lia.
Qed.

Lemma readseg_run pa count off s :
  0 <= off < 4294967296 -> 0 <= count -> 0 <= pa - off mod 512 -> pa + count + 512 <= 4294967296 ->
  exists s', readseg disk pa count off s = Some s' /\
    (forall k, 0 <= k < count -> mget (bmem s') (pa + k) = file (off + k)) /\
    (forall x, x < pa - off mod 512 -> mget (bmem s') x = mget (bmem s) x).
Proof using Hdisk.
  intros Ho Hc Hpa Hend. unfold readseg. change SECTSIZE with 512. pose proof (Z.mod_pos_bound off 512 ltac:(lia)) as Hm.
  rewrite !u32_small by (Z.div_mod_to_equations; lia).
  destruct (readseg_loop_run (Z.to_nat ((pa + count - (pa - off mod 512)) / 512 + 2)) (pa - off mod 512) (pa + count) (off / 512 + 1) s)
    as (s' & E & H1 & H2); try lia; try (Z.div_mod_to_equations; lia).
  exists s'. split; [done|]. split; [|done]. intros k Hk. rewrite H1 by lia. f_equal. Z.div_mod_to_equations. lia.
Qed.

(** ** Segments *)

(** A program header of the file. *)
Record seg := mkseg { s_off : Z; s_pa : Z; s_fsz : Z; s_msz : Z }.
Definition phoff : Z := file32 28.
Definition phnum : Z := file16 44.
Definition seg_at (i : Z) : seg :=
  let ph := phoff + 32 * i in mkseg (file32 (ph + 4)) (file32 (ph + 12)) (file32 (ph + 16)) (file32 (ph + 20)).

(** The first byte that loading it may write, and the end of its memory. *)
Definition s_lo (g : seg) : Z := s_pa g - s_off g mod 512.
Definition s_end (g : seg) : Z := s_pa g + Z.max (s_fsz g) (s_msz g).

(** It is in memory. *)
Definition loaded (m : gmap Z Z) (g : seg) : Prop := forall k, 0 <= k < Z.max (s_fsz g) (s_msz g) ->
  mget m (s_pa g + k) = if k <? s_fsz g then file (s_off g + k) else 0.

(** The headers, in the first page at [elf]. *)
Definition headers (m : gmap Z Z) : Prop := forall k, 0 <= k < 4096 -> mget m (elf + k) = file k.

(** The program headers are in the first page of the file; the segments are
    above that page of memory, in increasing order, and the sectors of one
    do not begin inside the one before. *)
Record bootable : Prop := {
  bt_magic : file32 0 = ELF_MAGIC;
  bt_headers : phoff + 32 * phnum <= 4096;
  bt_low : forall i, 0 <= i < phnum -> elf + 4096 <= s_lo (seg_at i);
  bt_high : forall i, 0 <= i < phnum -> s_end (seg_at i) + 512 <= 4294967296;
  bt_apart : forall i j, 0 <= i < j -> j < phnum -> s_end (seg_at i) <= s_lo (seg_at j);
}.

#[local] Transparent load32.
Lemma load32_headers m k : headers m -> 0 <= k -> k + 4 <= 4096 -> load32 m (elf + k) = file32 k.
Proof using. intros Hh Hk Hk'. unfold load32, file32. rewrite <- !Z.add_assoc. by rewrite !Hh by lia. Qed.

Lemma phoff_nonneg : 0 <= phoff /\ 0 <= phnum.
Proof using Hdisk.
  pose proof (file32_range 28). unfold phoff, phnum, file16. pose proof (file_byte_range 44). pose proof (file_byte_range (44 + 1)). lia.
Qed.

Lemma load_segment_run i s : bootable -> 0 <= i < phnum -> headers (bmem s) ->
  exists s', load_segment disk (elf + phoff + 32 * i) s = Some s' /\ loaded (bmem s') (seg_at i) /\
    forall x, x < s_lo (seg_at i) -> mget (bmem s') x = mget (bmem s) x.
Proof using Hdisk.
  intros B Hi Hh. pose proof (bt_headers B) as Hb. pose proof (bt_low B i Hi) as Hlo. pose proof (bt_high B i Hi) as Hhi. pose proof phoff_nonneg as [Hp Hn].
  assert (forall m c, headers m -> 0 <= c -> c + 4 <= 32 -> load32 m (elf + phoff + 32 * i + c) = file32 (phoff + 32 * i + c)) as Hf.
  { intros m c Hm Hc Hc'. replace (elf + phoff + 32 * i + c) with (elf + (phoff + 32 * i + c)) by lia. apply load32_headers; [done|lia|lia]. }
  set (g := seg_at i) in *. pose proof (file32_range (phoff + 32 * i + 4)) as R1. pose proof (file32_range (phoff + 32 * i + 12)) as R2.
  pose proof (file32_range (phoff + 32 * i + 16)) as R3. pose proof (file32_range (phoff + 32 * i + 20)) as R4.
  change (file32 (phoff + 32 * i + 4)) with (s_off g) in R1. change (file32 (phoff + 32 * i + 12)) with (s_pa g) in R2.
  change (file32 (phoff + 32 * i + 16)) with (s_fsz g) in R3. change (file32 (phoff + 32 * i + 20)) with (s_msz g) in R4.
  assert (forall m, headers m -> p_off m (elf + phoff + 32 * i) = s_off g /\ p_paddr m (elf + phoff + 32 * i) = s_pa g /\
    p_filesz m (elf + phoff + 32 * i) = s_fsz g /\ p_memsz m (elf + phoff + 32 * i) = s_msz g) as Hfields.
  { intros m Hm. unfold p_off, p_paddr, p_filesz, p_memsz. rewrite !Hf by (done || lia). done. }
  unfold load_segment. destruct (Hfields _ Hh) as (-> & -> & -> & _). unfold s_end, s_lo, elf in *.
  destruct (readseg_run (s_pa g) (s_fsz g) (s_off g) s) as (s1 & E1 & H1 & H2); try lia. rewrite E1. cbn [mbind option_bind].
  assert (headers (bmem s1)) as Hh1. { intros k Hk. rewrite H2 by (unfold elf; lia). by apply Hh. }
  destruct (Hfields _ Hh1) as (_ & _ & -> & ->). unfold loaded. destruct (Z.ltb_spec (s_fsz g) (s_msz g)) as [Hm|Hm].
  - eexists. split; [done|]. cbn [bmem]. rewrite u32_small by lia. split.
    + intros k Hk. rewrite mget_stosb. destruct (Z.ltb_spec k (s_fsz g)) as [Hkf|Hkf].
      * rewrite (proj2 (Z.leb_gt (s_pa g + s_fsz g) (s_pa g + k))) by lia. cbn [andb]. apply H1. lia.
      * rewrite (proj2 (Z.leb_le (s_pa g + s_fsz g) (s_pa g + k))), (proj2 (Z.ltb_lt (s_pa g + k) _)) by lia. done.
    + intros x Hx. rewrite mget_stosb, (proj2 (Z.leb_gt (s_pa g + s_fsz g) x)) by (Z.div_mod_to_equations; lia). cbn [andb]. by apply H2.
  - exists s1. split; [done|]. split; [|done]. intros k Hk. rewrite (proj2 (Z.ltb_lt k (s_fsz g))) by lia. apply H1. lia.
Qed.

Lemma load_segments_run : bootable -> forall fuel i s,
  0 <= i <= phnum -> phnum - i < Z.of_nat fuel -> headers (bmem s) -> (forall j, 0 <= j < i -> loaded (bmem s) (seg_at j)) ->
  exists s', load_segments disk fuel (elf + phoff + 32 * i) (elf + phoff + 32 * phnum) s = Some s' /\
    headers (bmem s') /\ forall j, 0 <= j < phnum -> loaded (bmem s') (seg_at j).
Proof using Hdisk.
  intros B. pose proof (bt_headers B) as Hb. pose proof phoff_nonneg as [Hp Hn].
  induction fuel as [|f IH]; intros i s Hi Hf Hh Hl; [lia|]. cbn [load_segments].
  destruct (Z.leb_spec (elf + phoff + 32 * phnum) (elf + phoff + 32 * i)) as [Hd|Hd].
  { exists s. split; [done|]. split; [done|]. intros j Hj. apply Hl. lia. }
  destruct (load_segment_run i s B ltac:(lia) Hh) as (s1 & E1 & L1 & H1). rewrite E1. cbn [mbind option_bind].
  rewrite u32_small by (unfold elf; lia). replace (elf + phoff + 32 * i + 32) with (elf + phoff + 32 * (i + 1)) by lia.
  apply IH; [lia|lia| |].
  - intros k Hk. rewrite H1; [by apply Hh|]. pose proof (bt_low B i ltac:(lia)). lia.
  - intros j Hj. destruct (decide (j = i)) as [->|Hne]; [done|]. intros k Hk. pose proof (bt_apart B j i ltac:(lia) ltac:(lia)) as Ha.
    unfold s_end in Ha. rewrite H1 by lia. apply Hl; lia.
Qed.

(** C24: bootmain.c: a bootable kernel file is loaded: from any memory, the
    loader ends by jumping to the entry point of the file, with every
    segment at its physical address, the rest of it zeroed, although whole
    sectors are copied; the sector number reaches the disk through its
    registers. *)
Theorem boot_loads s :
  bootable -> exists s', bootmain disk s = Some (Some (file32 24), s') /\ forall i, 0 <= i < phnum -> loaded (bmem s') (seg_at i).
Proof using Hdisk.
  intros B. pose proof (bt_headers B) as Hb. pose proof phoff_nonneg as [Hp Hn]. unfold bootmain.
  destruct (readseg_run elf 4096 0 s) as (s0 & E0 & H0 & _); [lia|lia|by cbn|by cbn|]. rewrite E0. cbn [mbind option_bind].
  assert (headers (bmem s0)) as Hh by (intros k Hk; apply H0; lia).
  assert (e_magic (bmem s0) = ELF_MAGIC) as ->.
  { unfold e_magic. rewrite <- (Z.add_0_r elf). rewrite load32_headers by (done || lia). apply (bt_magic B). }
  rewrite Z.eqb_refl. cbn [negb].
  assert (e_phoff (bmem s0) = phoff) as -> by (unfold e_phoff; apply load32_headers; [done|lia|lia]).
  assert (e_phnum (bmem s0) = phnum) as -> by (unfold e_phnum, load16, phnum, file16; rewrite <- Z.add_assoc; by rewrite !Hh by lia).
  rewrite !u32_small by (unfold elf; lia).
  destruct (load_segments_run B (S (Z.to_nat phnum)) 0 s0) as (s1 & E1 & Hh1 & L1); [lia|lia|done|lia|].
  rewrite Z.mul_0_r, Z.add_0_r in E1. rewrite E1. cbn [mbind option_bind]. exists s1. split; [|done].
  unfold e_entry. by rewrite load32_headers by (done || lia).
Qed.
End Loads.

(** A kernel of one segment: five bytes of the file at 4096 go to 1 MB, and
    three more are zeroed. *)
Definition pad (l : list Z) : list Z := l ++ replicate (512 - length l) 0.
Definition boot_header : list Z :=
  [127; 69; 76; 70] ++ replicate 20 0 ++ bytes32 1048588 ++ bytes32 52 ++ replicate 12 0 ++ [1; 0] ++ replicate 6 0 ++
  bytes32 1 ++ bytes32 4096 ++ bytes32 0 ++ bytes32 1048576 ++ bytes32 5 ++ bytes32 8 ++ replicate 8 0.
Definition boot_disk (s : Z) : list Z :=
  if s =? 1 then pad boot_header else if s =? 9 then pad [1; 2; 3; 4; 5] else pad [].

Lemma boot_disk_ok s : length (boot_disk s) = 512%nat /\ Forall (fun b => 0 <= b < 256) (boot_disk s).
Proof.
  assert (forall l, length l = 512%nat -> forallb (fun b => (0 <=? b) && (b <? 256)) l = true ->
    length l = 512%nat /\ Forall (fun b => 0 <= b < 256) l) as H.
  { intros l H1 H2. split; [done|]. apply Forall_forall. intros x Hx. rewrite forallb_forall in H2. apply list_elem_of_In, H2 in Hx. lia. }
  unfold boot_disk. destruct (s =? 1), (s =? 9); apply H; vm_compute; reflexivity.
Qed.

Lemma boot_bootable : bootable boot_disk.
Proof.
  assert (phnum boot_disk = 1) as Hn by (vm_compute; reflexivity).
  split; rewrite ?Hn.
  - vm_compute. reflexivity.
  - vm_compute. discriminate.
  - intros i Hi. replace i with 0 by lia. vm_compute. discriminate.
  - intros i Hi. replace i with 0 by lia. vm_compute. discriminate.
  - intros i j Hi Hj. lia.
Qed.

Lemma boot_loads_witness :
  exists s', bootmain boot_disk (mkbst (mkata 0 0 0 0 0 0) ∅) = Some (Some 1048588, s') /\
    mget (bmem s') 1048580 = 5 /\ mget (bmem s') 1048582 = 0.
Proof.
  destruct (boot_loads boot_disk boot_disk_ok (mkbst (mkata 0 0 0 0 0 0) ∅) boot_bootable) as (s' & E & H).
  exists s'. split; [exact E|]. specialize (H 0 ltac:(vm_compute; split; [discriminate|reflexivity])). split.
  - exact (H 4 ltac:(vm_compute; split; [discriminate|reflexivity])).
  - exact (H 6 ltac:(vm_compute; split; [discriminate|reflexivity])).
Defined.
