(* ===== verification/Ulib.v ===== *)
(** * ulib.c: the library of user programs

    The string functions work on the memory of the process, as those of
    string.c do on the kernel's; [gets] and [stat] make system calls.  The
    loops of the string functions end at a terminator, so they take a bound
    on the number of characters they may look at. *)

From stdpp Require Import base numbers list gmap strings.
From S2P Require Import Prelude Kernel Console Kalloc Str User.

(** ** The functions *)

(** Copies up to the terminator. *)
Fixpoint ustrcpy (fuel : nat) (m : gmap Z Z) (s t : Z) : option (gmap Z Z) :=
  match fuel with
  | O => None
  | S f =>
      let c := mget m t in
      let m := <[s := c]> m in
      if c =? 0 then Some m else ustrcpy f m (s + 1) (t + 1)
  end.

Fixpoint ustrcmp (fuel : nat) (m : gmap Z Z) (p q : Z) : option Z :=
  match fuel with
  | O => None
  | S f =>
      if negb (mget m p =? 0) && (mget m p =? mget m q) then ustrcmp f m (p + 1) (q + 1)
      else Some (u8 (mget m p) - u8 (mget m q))
  end.

Fixpoint ustrlen (fuel : nat) (m : gmap Z Z) (s n : Z) : option Z :=
  match fuel with
  | O => None
  | S f => if mget m (s + n) =? 0 then Some n else ustrlen f m s (n + 1)
  end.

Definition umemset (m : gmap Z Z) (dst c n : Z) : gmap Z Z := stosb m dst c (Z.to_nat n).

(** A pointer to the character, or null. *)
Fixpoint ustrchr (fuel : nat) (m : gmap Z Z) (s c : Z) : option Z :=
  match fuel with
  | O => None
  | S f =>
      if mget m s =? 0 then Some 0
      else if mget m s =? c then Some s
      else ustrchr f m (s + 1) c
  end.

(** [n = n*10 + *s++ - '0'] *)
Fixpoint atoi_loop (fuel : nat) (m : gmap Z Z) (s n : Z) : option Z :=
  match fuel with
  | O => None
  | S f =>
      if (48 <=? mget m s) && (mget m s <=? 57) then atoi_loop f m (s + 1) (s32 (n * 10 + mget m s - 48))
      else Some n
  end.
Definition atoi (fuel : nat) (m : gmap Z Z) (s : Z) : option Z := atoi_loop fuel m s 0.

(** [while(n-- > 0) *dst++ = *src++] *)
Definition umemmove (m : gmap Z Z) (dst src n : Z) : gmap Z Z := copy_up m dst src (Z.to_nat n).

(** [gets]: at most [max - 1] characters, up to a newline or the end of the
    input; [left] is [max - 1 - i].  The result is the string read. *)
Fixpoint gets_loop (left : nat) (line : str) : P str :=
  match left with
  | O => pret line
  | S k =>
      let+ r := read 0 1 in
      let (cc, d) := (r : Z * list Z) in
      if cc <? 1 then pret line else
      let c := nth 0 d 0 in
      if (c =? 10) || (c =? 13) then pret (line ++ [c]) else gets_loop k (line ++ [c])
  end.
Definition gets (max : Z) : P str := gets_loop (Z.to_nat (max - 1)) [].

Definition O_RDONLY : Z := 0.
Definition stat (n : str) : P (Z * stat_t) :=
  let+ fd := open n O_RDONLY in
  if fd <? 0 then pret (-1, mkstat 0 0 0 0 0) else
  let+ r := fstat fd in
  close fd ;+
  pret r.

(** ** Strings in memory *)

(** The bytes of a string, and its terminator. *)
Fixpoint cstr (m : gmap Z Z) (a : Z) (l : str) : Prop :=
  match l with
  | [] => mget m a = 0
  | c :: l' => mget m a = c /\ 0 < c < 256 /\ cstr m (a + 1) l'
  end.

Lemma cstr_ext m m' l : forall a,
  cstr m a l -> (forall x, a <= x <= a + Z.of_nat (length l) -> mget m' x = mget m x) -> cstr m' a l.
Proof.
  induction l as [|c l IH]; intros a; cbn [cstr length].
  - intros H He. rewrite He; [done|lia].
  - intros (H1 & H2 & H3) He. rewrite He by lia. split_and!; try done; try lia. apply IH; [done|]. intros x Hx. apply He. lia.
Qed.

Lemma ustrlen_cstr m s l : forall n fuel,
  cstr m (s + n) l -> (length l < fuel)%nat -> ustrlen fuel m s n = Some (n + Z.of_nat (length l)).
Proof.
  induction l as [|c l IH]; intros n [|f] Hs Hf; cbn [length] in Hf; try lia; cbn [ustrlen cstr] in *.
  - rewrite Hs. cbn. f_equal. lia.
  - destruct Hs as (H1 & H2 & H3). rewrite H1, (proj2 (Z.eqb_neq c 0)) by lia.
    rewrite (IH (n + 1) f); [f_equal; cbn; lia| |lia]. by replace (s + (n + 1)) with (s + n + 1) by lia.
Qed.

(** The first place of a character in a string. *)
Fixpoint first_at (c : Z) (l : str) : option nat :=
  match l with
  | [] => None
  | d :: l' => if d =? c then Some 0%nat else S <$> first_at c l'
  end.

Lemma ustrchr_cstr m c l : forall s fuel,
  cstr m s l -> (length l < fuel)%nat ->
  ustrchr fuel m s c = Some (match first_at c l with Some i => s + Z.of_nat i | None => 0 end).
Proof.
  induction l as [|d l IH]; intros s [|f] Hs Hf; cbn [length] in Hf; try lia; cbn [ustrchr cstr first_at] in *.
  - by rewrite Hs.
  - destruct Hs as (H1 & H2 & H3). rewrite H1, (proj2 (Z.eqb_neq d 0)) by lia.
    destruct (d =? c); [f_equal; lia|]. rewrite (IH _ f) by (done || lia).
    destruct (first_at c l) as [i|]; cbn; f_equal; lia.
Qed.

(** The order of strings by their characters. *)
Fixpoint str_diff (p q : str) : Z :=
  match p, q with
  | [], [] => 0
  | [], d :: _ => - d
  | c :: _, [] => c
  | c :: p', d :: q' => if c =? d then str_diff p' q' else c - d
  end.

Lemma str_diff_zero p q : Forall (fun c => 0 < c) p -> Forall (fun c => 0 < c) q -> str_diff p q = 0 <-> p = q.
Proof.
  intros Hp. revert q. induction Hp as [|c p Hc Hp IH]; intros [|d q] Hq; cbn; try done.
  - apply Forall_cons in Hq as [Hd _]. split; [lia|done].
  - split; [lia|done].
  - apply Forall_cons in Hq as [Hd Hq]. destruct (Z.eqb_spec c d) as [->|Hne]; [rewrite (IH q Hq)|]; split; try congruence; lia.
Qed.

Lemma ustrcmp_cstr m : forall p q a b fuel,
  cstr m a p -> cstr m b q -> (length p < fuel)%nat -> ustrcmp fuel m a b = Some (str_diff p q).
Proof.
  induction p as [|c p IH]; intros q a b [|f] Ha Hb Hf; cbn [length] in Hf; try lia; cbn [ustrcmp cstr] in *.
  - rewrite Ha. cbn. destruct q as [|d q]; cbn in Hb |- *; [by rewrite Hb|]. destruct Hb as (-> & Hd & _). f_equal. zmod.
  - destruct Ha as (-> & Hc & Ha). rewrite (proj2 (Z.eqb_neq c 0)) by lia. cbn [negb andb].
    destruct q as [|d q]; cbn [cstr str_diff] in *.
    + rewrite Hb, (proj2 (Z.eqb_neq c 0)) by lia. f_equal. zmod.
    + destruct Hb as (-> & Hd & Hb). destruct (Z.eqb_spec c d) as [->|Hne]; [apply IH; [done|done|lia]|]. f_equal. zmod.
Qed.

Lemma ustrcpy_cstr l : forall m s t fuel,
  cstr m t l -> (length l < fuel)%nat -> s + Z.of_nat (length l) < t \/ t + Z.of_nat (length l) < s ->
  exists m', ustrcpy fuel m s t = Some m' /\ cstr m' s l /\
    forall x, ~ (s <= x <= s + Z.of_nat (length l)) -> mget m' x = mget m x.
Proof.
  induction l as [|c l IH]; intros m s t [|f] Ht Hf Hd; cbn [length] in *; try lia; cbn [ustrcpy cstr] in *.
  - rewrite Ht. cbn. eexists. split; [done|]. split; [by rewrite mget_insert, Z.eqb_refl|].
    intros x Hx. rewrite mget_insert, (proj2 (Z.eqb_neq x s)) by lia. done.
  - destruct Ht as (H1 & H2 & H3). rewrite H1, (proj2 (Z.eqb_neq c 0)) by lia.
    destruct (IH (<[s := c]> m) (s + 1) (t + 1) f) as (m' & E & Hc & Hk); [|lia|lia|].
    + eapply cstr_ext; [exact H3|]. intros x Hx. rewrite mget_insert, (proj2 (Z.eqb_neq x s)) by lia. done.
    + exists m'. split; [done|]. split.
      * rewrite Hk, mget_insert, Z.eqb_refl by lia. done.
      * intros x Hx. rewrite Hk, mget_insert, (proj2 (Z.eqb_neq x s)) by lia. done.
Qed.

(** ** atoi reads what printf prints *)

Definition is_digit (c : Z) : Prop := 48 <= c <= 57.
Definition add_digit (n c : Z) : Z := n * 10 + (c - 48).

Lemma add_digits_mono ds : forall n, Forall is_digit ds -> 0 <= n -> n <= foldl add_digit n ds.
Proof.
  induction ds as [|c ds IH]; intros n Hd Hn; cbn [foldl]; [lia|]. apply Forall_cons in Hd as [Hc Hd]. unfold is_digit in Hc.
  unfold add_digit at 2. specialize (IH (n * 10 + (c - 48)) Hd ltac:(lia)). unfold add_digit in *. lia.
Qed.

Lemma atoi_digits m rest ds : forall a n fuel,
  Forall is_digit ds -> 0 <= n -> foldl add_digit n ds < 2147483648 -> cstr m a (ds ++ rest) -> (length ds < fuel)%nat ->
  cstr m (a + Z.of_nat (length ds)) rest /\
  atoi_loop fuel m a n = atoi_loop (fuel - length ds) m (a + Z.of_nat (length ds)) (foldl add_digit n ds).
Proof.
  induction ds as [|c ds IH]; intros a n fuel Hd Hn Hlt Hs Hf.
  { cbn. rewrite Z.add_0_r, Nat.sub_0_r. done. }
  destruct fuel as [|f]; [lia|]. apply Forall_cons in Hd as [Hc Hd]. destruct Hs as (H1 & H2 & H3). cbn [foldl length] in *.
  assert (0 <= add_digit n c) as Hn' by (unfold add_digit, is_digit in *; lia).
  pose proof (add_digits_mono ds (add_digit n c) Hd Hn') as Hle.
  destruct (IH (a + 1) (add_digit n c) f Hd Hn' Hlt H3 ltac:(lia)) as [HS E].
  replace (a + Z.of_nat (S (length ds))) with (a + 1 + Z.of_nat (length ds)) by lia. split; [done|].
  cbn [atoi_loop]. rewrite H1. unfold is_digit in Hc. rewrite (proj2 (Z.leb_le 48 c)), (proj2 (Z.leb_le c 57)) by lia. cbn [andb].
  rewrite s32_small by (unfold add_digit in *; lia). replace (n * 10 + c - 48) with (add_digit n c) by (unfold add_digit; lia).
  exact E.
Qed.

Lemma digit_up_dec d : 0 <= d < 10 -> digit_up d = 48 + d.
Proof.
  intros H. assert (In d [0;1;2;3;4;5;6;7;8;9]) as Hin by (cbn; lia).
  cbn in Hin. repeat (destruct Hin as [<-|Hin]; [reflexivity|]). done.
Qed.

Lemma digits_of_value n : forall x, 0 <= x < 10 ^ Z.of_nat (S n) ->
  Forall is_digit (digits_of (S n) x 10) /\ foldl add_digit 0 (digits_of (S n) x 10) = x.
Proof.
  induction n as [|n IH]; intros x Hx;
    change (digits_of (S ?k) x 10) with ((if x / 10 =? 0 then [] else digits_of k (x / 10) 10) ++ [digit_up (x mod 10)]);
    rewrite (digit_up_dec (x mod 10)) by (Z.div_mod_to_equations; lia).
  - change (10 ^ Z.of_nat 1) with 10 in Hx. rewrite (Z.div_small x) by lia. cbn.
    rewrite Z.mod_small by lia. split; [|unfold add_digit; lia]. constructor; [|done]. unfold is_digit. lia.
  - assert (is_digit (48 + x mod 10)) as Hd by (unfold is_digit; Z.div_mod_to_equations; lia).
    destruct (Z.eqb_spec (x / 10) 0) as [E|E].
    + split; [by constructor|]. cbn. unfold add_digit. Z.div_mod_to_equations. lia.
    + rewrite Nat2Z.inj_succ, Z.pow_succ_r in Hx by lia.
      destruct (IH (x / 10)) as [H1 H2]; [split; [apply Z.div_pos; lia|apply Z.div_lt_upper_bound; lia]|].
      split; [apply Forall_app; split; [done|by constructor]|]. rewrite foldl_app, H2. cbn. unfold add_digit. Z.div_mod_to_equations. lia.
Qed.

(** printf.c and ulib.c: when a string in memory starts with what
    [printf] prints with %d for a number that is not negative, and does not
    go on with another digit, [atoi] returns that number; a minus sign it
    does not understand, and returns 0. *)
Theorem printf_atoi xx rest m a fuel :
  -2147483648 <= xx < 2147483648 -> cstr m a (int_text xx 10 true ++ rest) -> (length (int_text xx 10 true) < fuel)%nat ->
  match rest with [] => True | c :: _ => ~ is_digit c end ->
  atoi fuel m a = Some (if xx <? 0 then 0 else xx).
Proof.
  intros Hx Hs Hf Hr. unfold atoi, int_text in *. rewrite andb_true_l in *. destruct (Z.ltb_spec xx 0) as [Hneg|Hpos].
  - destruct fuel as [|f]; [lia|]. destruct Hs as (H1 & _). cbn [atoi_loop]. by rewrite H1.
  - rewrite u32_small in * by lia. destruct (digits_of_value 32 xx) as [Hd Hv]; [change (10 ^ Z.of_nat 33) with (10 ^ 33); lia|].
    destruct (atoi_digits m rest (digits_of 33 xx 10) a 0 fuel Hd ltac:(lia) ltac:(lia) Hs Hf) as [HS ->]. rewrite Hv.
    destruct (fuel - length (digits_of 33 xx 10))%nat as [|f] eqn:E; [lia|]. cbn [atoi_loop].
    revert HS. generalize (a + Z.of_nat (length (digits_of 33 xx 10))). intros b HS.
    destruct rest as [|c rest]; cbn [cstr] in HS.
    + by rewrite HS.
    + destruct HS as (-> & _). unfold is_digit in Hr.
      destruct (Z.leb_spec 48 c), (Z.leb_spec c 57); cbn [andb]; try done; lia.
Qed.

(** 120, followed by a blank. *)
Lemma printf_atoi_witness : atoi 10 (mput ∅ 100 (bytes_of "120 7")) 100 = Some 120.
Proof.
  apply (printf_atoi 120 (bytes_of " 7") (mput ∅ 100 (bytes_of "120 7")) 100 10); [lia| |apply Nat.ltb_lt; vm_compute; reflexivity|intros [H _]; exact (H eq_refl)].
  vm_compute. intuition congruence.
Defined.
