(* ===== verification/Grep.v ===== *)
(** * grep.c

    The matcher of Kernighan and Pike, and the loop that feeds it the lines
    of a file.  A pattern means a set of texts ([means]); the matcher finds
    exactly the texts with a part in that set. *)

From stdpp Require Import base numbers list strings.
From S2P Require Import Prelude Kernel Console Ulib User.

(** ** The program *)

Definition ch_caret : Z := 94.
Definition ch_dollar : Z := 36.
Definition ch_dot : Z := 46.
Definition ch_star : Z := 42.

(** [matchhere], with the loop of [matchstar] inside: the two call each
    other, on a shorter pattern or a shorter text. *)
Fixpoint matchhere (re text : str) {struct re} : bool :=
  match re with
  | [] => true
  | c :: re1 =>
      match re1 with
      | s :: re2 =>
          if s =? ch_star then
            (fix matchstar (text : str) : bool :=
               if matchhere re2 text then true else
               match text with
               | [] => false
               | t :: text' => if (t =? c) || (c =? ch_dot) then matchstar text' else false
               end) text
          else
            match text with
            | [] => false
            | t :: text' => if (c =? ch_dot) || (c =? t) then matchhere re1 text' else false
            end
      | [] =>
          if c =? ch_dollar then match text with [] => true | _ => false end
          else
            match text with
            | [] => false
            | t :: text' => if (c =? ch_dot) || (c =? t) then matchhere re1 text' else false
            end
      end
  end.

Fixpoint matchstar (c : Z) (re text : str) : bool :=
  if matchhere re text then true else
  match text with
  | [] => false
  | t :: text' => if (t =? c) || (c =? ch_dot) then matchstar c re text' else false
  end.

Fixpoint match_loop (re text : str) : bool :=
  if matchhere re text then true else
  match text with
  | [] => false
  | _ :: text' => match_loop re text'
  end.

Definition match_ (re text : str) : bool :=
  match re with
  | c :: re' => if c =? ch_caret then matchhere re' text else match_loop re text
  | [] => match_loop re text
  end.

(** [strchr(p, '\n')] in the characters from [p] to the end of what was
    read: the line and what follows it.  The search ends at a NUL. *)
Fixpoint next_line (b : str) : option (str * str) :=
  match b with
  | [] => None
  | c :: b' =>
      if c =? 0 then None else
      if c =? 10 then Some ([], b') else
      match next_line b' with Some (l, r) => Some (c :: l, r) | None => None end
  end.

(** The inner loop, over the lines from [p] on; the result is the rest,
    and whether [p] moved.  Every round takes a character. *)
Fixpoint lines_loop (fuel : nat) (pattern : str) (b : str) (moved : bool) : P (str * bool) :=
  match fuel with
  | O => pret (b, moved)
  | S f =>
      match next_line b with
      | None => pret (b, moved)
      | Some (line, b') =>
          (if match_ pattern line then write 1 (line ++ [10]) ;+ pret tt else pret tt) ;+
          lines_loop f pattern b' true
      end
  end.

(** The body of the outer loop; [held] are the [m] characters kept. *)
Definition grep_body (pattern : str) (fd : Z) (held : str) : P (str + unit) :=
  let+ r := read fd (1024 - Z.of_nat (length held) - 1) in
  let (n, d) := (r : Z * list Z) in
  if n <=? 0 then pret (inr tt) else
  let b := held ++ d in
  let+ r := lines_loop (S (length b)) pattern b false in
  let (rest, moved) := (r : str * bool) in
  pret (inl (if (moved : bool) then rest else [])).

Definition grep (pattern : str) (fd : Z) : P unit := while (grep_body pattern fd) [].

Fixpoint grep_files (pattern : str) (files : list str) : P unit :=
  match files with
  | [] => exit
  | f :: files' =>
      let+ fd := open f 0 in
      if fd <? 0 then printf 1 (bytes_of "grep: cannot open %s" ++ [10]) [AStr (Some f)] ;+ exit else
      grep pattern fd ;+
      close fd ;+
      grep_files pattern files'
  end.

Definition grep_main (argv : list str) : P unit :=
  match argv with
  | _ :: pattern :: files =>
      match files with
      | [] => grep pattern 0 ;+ exit
      | _ => grep_files pattern files
      end
  | _ => printf 2 (bytes_of "usage: grep pattern [file ...]" ++ [10]) [] ;+ exit
  end.

(** ** What a pattern means *)

Inductive atom := Lit (c : Z) | Any.
Inductive item := One (a : atom) | Many (a : atom).

Definition in_atom (a : atom) (c : Z) : Prop := match a with Lit d => d = c | Any => True end.

(** The texts a list of items stands for. *)
Fixpoint means (items : list item) (w : str) : Prop :=
  match items with
  | [] => w = []
  | One a :: r => exists c w', w = c :: w' /\ in_atom a c /\ means r w'
  | Many a :: r => exists u w', w = u ++ w' /\ Forall (in_atom a) u /\ means r w'
  end.

Definition atom_of (c : Z) : atom := if c =? ch_dot then Any else Lit c.

(** The items of a pattern, and whether it ends with a dollar sign. *)
Fixpoint items_of (re : str) : list item * bool :=
  match re with
  | [] => ([], false)
  | c :: re1 =>
      match re1 with
      | s :: re2 =>
          if s =? ch_star then let (r, e) := items_of re2 in (Many (atom_of c) :: r, e)
          else let (r, e) := items_of re1 in (One (atom_of c) :: r, e)
      | [] => if c =? ch_dollar then ([], true) else ([One (atom_of c)], false)
      end
  end.

(** A text matches if a part of it is in the set: from its start for a
    pattern with a caret, up to its end for one with a dollar sign. *)
Definition matches (re text : str) : Prop :=
  let anchored := match re with c :: _ => c =? ch_caret | [] => false end in
  let (items, at_end) := items_of (if anchored then tail re else re) in
  exists pre mid post, text = pre ++ mid ++ post /\ means items mid /\
    (anchored = true -> pre = []) /\ (at_end = true -> post = []).

Lemma in_atom_of c d : in_atom (atom_of c) d <-> (c =? ch_dot) || (c =? d) = true.
Proof. unfold atom_of. destruct (Z.eqb_spec c ch_dot); cbn; [done|]. by rewrite Z.eqb_eq. Qed.

(** Matching at the start of the text. *)
Definition starts (re text : str) : Prop :=
  exists mid post, text = mid ++ post /\ means (fst (items_of re)) mid /\ (snd (items_of re) = true -> post = []).

Lemma matchstar_unfold c re text :
  matchhere (c :: ch_star :: re) text = matchstar c re text.
Proof.
  cbn [matchhere]. rewrite Z.eqb_refl. induction text as [|t text IH]; cbn [matchstar]; [done|]. by rewrite IH.
Qed.

Lemma matchstar_starts c re : (forall text, matchhere re text = true <-> starts re text) -> forall text,
  matchstar c re text = true <->
  exists u w, text = u ++ w /\ Forall (in_atom (atom_of c)) u /\ starts re w.
Proof.
  intros IH. induction text as [|t text IHt]; cbn [matchstar].
  - pose proof (IH []) as H0. destruct (matchhere re []).
    + split; [|done]. intros _. exists [], []. split; [done|]. split; [done|]. by apply H0.
    + split; [done|]. intros (u & w & E & _ & Hs). symmetry in E. apply app_nil in E as [-> ->]. by apply H0.
  - pose proof (IH (t :: text)) as H0. destruct (matchhere re (t :: text)).
    { split; [|done]. intros _. exists [], (t :: text). split; [done|]. split; [done|]. by apply H0. }
    rewrite (Z.eqb_sym t c), orb_comm. destruct ((c =? ch_dot) || (c =? t)) eqn:Ec.
    + rewrite IHt. split.
      * intros (u & w & -> & Hu & Hs). exists (t :: u), w. split; [done|]. split; [|done]. constructor; [by apply in_atom_of|done].
      * intros ([|x u] & w & E & Hu & Hs); [cbn in E; subst w; by apply H0 in Hs|]. injection E as <- ->.
        apply Forall_cons in Hu as [_ Hu]. by exists u, w.
    + split; [done|]. intros ([|x u] & w & E & Hu & Hs); [cbn in E; subst w; by apply H0 in Hs|]. injection E as <- ->.
      apply Forall_cons in Hu as [Hx _]. apply in_atom_of in Hx. congruence.
Qed.

Lemma starts_one c re text : (forall text, matchhere re text = true <-> starts re text) ->
  (match text with [] => false | t :: text' => if (c =? ch_dot) || (c =? t) then matchhere re text' else false end) = true <->
  exists t text', text = t :: text' /\ in_atom (atom_of c) t /\ starts re text'.
Proof.
  intros IH. destruct text as [|t text]; [split; [done|by intros (? & ? & ? & _)]|].
  destruct ((c =? ch_dot) || (c =? t)) eqn:Ec.
  - rewrite IH. split.
    + intros Hs. exists t, text. split; [done|]. split; [by apply in_atom_of|done].
    + intros (x & text' & E & _ & Hs). by injection E as <- <-.
  - split; [done|]. intros (x & text' & E & Hx & _). injection E as <- <-. apply in_atom_of in Hx. congruence.
Qed.

(** How [starts] follows the pattern. *)
Lemma starts_many c re text :
  starts (c :: ch_star :: re) text <-> exists u w, text = u ++ w /\ Forall (in_atom (atom_of c)) u /\ starts re w.
Proof.
  unfold starts. cbn [items_of]. rewrite Z.eqb_refl. destruct (items_of re) as [r e]. cbn [fst snd means]. split.
  - intros (mid & post & -> & (u & w & -> & Hu & Hm) & He). exists u, (w ++ post). rewrite <- app_assoc. split; [done|]. split; [done|]. by exists w, post.
  - intros (u & w & -> & Hu & mid & post & -> & Hm & He). exists (u ++ mid), post. rewrite <- app_assoc. split; [done|]. split; [|done]. by exists u, mid.
Qed.

Lemma starts_lit c re text :
  match re with s :: _ => s <> ch_star | [] => c <> ch_dollar end ->
  starts (c :: re) text <-> exists t text', text = t :: text' /\ in_atom (atom_of c) t /\ starts re text'.
Proof.
  intros Hre. assert (items_of (c :: re) = (One (atom_of c) :: fst (items_of re), snd (items_of re))) as E.
  { destruct re as [|s re]; cbn [items_of].
    - by rewrite (proj2 (Z.eqb_neq _ _) Hre).
    - rewrite (proj2 (Z.eqb_neq _ _) Hre). by destruct (match re with [] => _ | _ => _ end). }
  unfold starts. rewrite E. cbn [fst snd means]. split.
  - intros (mid & post & -> & (t & w & -> & Ht & Hm) & He). exists t, (w ++ post). split; [done|]. split; [done|]. by exists w, post.
  - intros (t & w & -> & Ht & mid & post & -> & Hm & He). exists (t :: mid), post. split; [done|]. split; [|done]. by exists t, mid.
Qed.

Lemma starts_end text : starts [ch_dollar] text <-> text = [].
Proof.
  unfold starts. cbn. split.
  - intros (mid & post & -> & -> & ->); done.
  - intros ->. by exists [], [].
Qed.

Lemma matchhere_starts : forall n re text, (length re <= n)%nat -> matchhere re text = true <-> starts re text.
Proof.
  induction n as [|n IH]; intros [|c re] text Hn; cbn [length] in Hn; try lia.
  1,2: split; [|done]; intros _; exists [], text; split; [done|]; split; done.
  destruct re as [|s re].
  - cbn [matchhere]. destruct (Z.eqb_spec c ch_dollar) as [->|Hc].
    + rewrite starts_end. by destruct text.
    + rewrite starts_lit by done. apply (starts_one c []). intros w. apply (IH []). cbn. lia.
  - destruct (Z.eqb_spec s ch_star) as [->|Hs].
    + rewrite matchstar_unfold, starts_many. apply matchstar_starts. intros w. apply IH. cbn in Hn. lia.
    + rewrite starts_lit by done. cbn [matchhere]. rewrite (proj2 (Z.eqb_neq _ _) Hs).
      apply (starts_one c (s :: re)). intros w. apply IH. lia.
Qed.

Lemma match_loop_starts re : forall text, match_loop re text = true <-> exists pre w, text = pre ++ w /\ starts re w.
Proof.
  assert (forall w, matchhere re w = true <-> starts re w) as Hm by (intros w; by apply (matchhere_starts (length re))).
  induction text as [|t text IH]; cbn [match_loop].
  - pose proof (Hm []) as H0. destruct (matchhere re []).
    + split; [|done]. intros _. exists [], []. split; [done|by apply H0].
    + split; [done|]. intros (pre & w & E & Hs). symmetry in E. apply app_nil in E as [-> ->]. by apply H0.
  - pose proof (Hm (t :: text)) as H0. destruct (matchhere re (t :: text)).
    { split; [|done]. intros _. exists [], (t :: text). split; [done|by apply H0]. }
    rewrite IH. split.
    + intros (pre & w & -> & Hs). by exists (t :: pre), w.
    + intros ([|x pre] & w & E & Hs); [cbn in E; subst w; by apply H0 in Hs|]. injection E as <- ->. by exists pre, w.
Qed.

(** C27: grep.c: [match] ends for every pattern and text, and says yes exactly
    if a part of the text is in the set of texts the pattern stands for: at
    the start of the text for a pattern with a caret in front, at its end
    for one with a dollar sign at the end. *)
Theorem match_correct re text : match_ re text = true <-> matches re text.
Proof.
  unfold match_, matches. destruct re as [|c re].
  - rewrite match_loop_starts. unfold starts. cbn. split.
    + intros (pre & w & -> & mid & post & -> & -> & _). by exists pre, [], post.
    + intros (pre & mid & post & -> & -> & _). exists pre, post. split; [done|]. by exists [], post.
  - destruct (Z.eqb_spec c ch_caret) as [->|Hc]; cbn [tail].
    + rewrite (matchhere_starts (length re)) by done. unfold starts. destruct (items_of re) as [r e]. cbn [fst snd]. split.
      * intros (mid & post & -> & Hm & He). by exists [], mid, post.
      * intros (pre & mid & post & -> & Hm & Hpre & He). rewrite (Hpre eq_refl). by exists mid, post.
    + rewrite match_loop_starts. unfold starts. destruct (items_of (c :: re)) as [r e]. cbn [fst snd]. split.
      * intros (pre & w & -> & mid & post & -> & Hm & He). by exists pre, mid, post.
      * intros (pre & mid & post & -> & Hm & _ & He). exists pre, (mid ++ post). split; [done|]. by exists mid, post.
Qed.

Lemma match_correct_witness :
  match_ (bytes_of "^ab*c.$") (bytes_of "abbbcd") = true /\ ~ matches (bytes_of "^ab*c.$") (bytes_of "abbbc").
Proof.
  split; [reflexivity|]. intros H%match_correct. vm_compute in H. discriminate.
Defined.

(** ** Lines *)

(** The complete lines of a text, and what follows the last of them. *)
Fixpoint lines_of (b : str) : list str * str :=
  match b with
  | [] => ([], [])
  | c :: b' =>
      let (ls, r) := lines_of b' in
      if c =? 10 then ([] :: ls, r) else
      match ls with
      | [] => ([], c :: r)
      | l :: ls' => ((c :: l) :: ls', r)
      end
  end.

Definition no_nul_in (b : str) : Prop := Forall (fun c => c <> 0) b.
Definition has_newline (b : str) : Prop := 10 ∈ b.

Lemma lines_of_join b : b = concat ((fun l => l ++ [10]) <$> fst (lines_of b)) ++ snd (lines_of b).
Proof.
  induction b as [|c b IH]; [done|]. cbn [lines_of]. destruct (lines_of b) as [ls r]. cbn [fst snd] in IH.
  destruct (Z.eqb_spec c 10) as [->|Hc]; cbn; [by rewrite <- IH|].
  destruct ls as [|l ls]; cbn in IH |- *; by rewrite IH.
Qed.

Lemma lines_of_app a b :
  lines_of (a ++ b) =
    (fst (lines_of a) ++ fst (lines_of (snd (lines_of a) ++ b)), snd (lines_of (snd (lines_of a) ++ b))).
Proof.
  induction a as [|c a IH]; cbn [app lines_of].
  - cbn. by destruct (lines_of b).
  - rewrite IH. destruct (lines_of a) as [ls r]. cbn [fst snd]. destruct (lines_of (r ++ b)) as [ls2 r2] eqn:E. cbn [fst snd].
    destruct (Z.eqb_spec c 10) as [->|Hc]; cbn [fst snd]; [by rewrite E|].
    destruct ls as [|l ls]; cbn [fst snd app]; [|by rewrite E].
    cbn [lines_of]. rewrite E. rewrite (proj2 (Z.eqb_neq _ _) Hc). by destruct ls2.
Qed.

Lemma next_line_lines b : no_nul_in b ->
  match next_line b with
  | Some (l, b') => (length b' < length b)%nat /\ no_nul_in b' /\ lines_of b = (l :: fst (lines_of b'), snd (lines_of b'))
  | None => lines_of b = ([], b)
  end.
Proof.
  induction b as [|c b IH]; intros Hn; [done|]. apply Forall_cons in Hn as [Hc Hn]. cbn [next_line lines_of].
  rewrite (proj2 (Z.eqb_neq _ _) Hc). specialize (IH Hn). destruct (Z.eqb_spec c 10) as [->|Hc10].
  { destruct (lines_of b) as [ls r]. cbn. split; [lia|done]. }
  destruct (next_line b) as [[l b']|].
  - destruct IH as (H1 & H2 & ->). cbn. split; [lia|done].
  - by rewrite IH.
Qed.

Lemma newline_lines b : has_newline b -> fst (lines_of b) <> [].
Proof.
  induction b as [|c b IH]; intros H; [by apply elem_of_nil in H|]. cbn [lines_of]. destruct (lines_of b) as [ls r].
  destruct (Z.eqb_spec c 10) as [->|Hc]; [done|]. apply elem_of_cons in H as [H|H]; [congruence|].
  specialize (IH H). by destruct ls.
Qed.
Lemma no_newline_lines b : ~ has_newline b -> lines_of b = ([], b).
Proof.
  induction b as [|c b IH]; intros H; [done|]. cbn [lines_of]. rewrite IH by (intros Hb; apply H; by right).
  rewrite (proj2 (Z.eqb_neq c 10)); [done|]. intros ->. apply H. by left.
Qed.

(** The lines that match, as they are printed. *)
Definition chosen (pattern : str) (ls : list str) : list str := filter (fun l => match_ pattern l = true) ls.
Definition print_line (l : str) : call := CWrite 1 (l ++ [10]).

Lemma lines_loop_run pattern l : forall fuel b moved ws,
  no_nul_in b -> (length b < fuel)%nat -> length ws = length (chosen pattern (fst (lines_of b))) ->
  lines_loop fuel pattern b moved (ws ++ l) =
    Goes (snd (lines_of b), moved || negb (bool_decide (fst (lines_of b) = []))) l (print_line <$> chosen pattern (fst (lines_of b))).
Proof.
  induction fuel as [|f IH]; intros b moved ws Hn Hf Hw; [lia|]. cbn [lines_loop]. pose proof (next_line_lines b Hn) as HL.
  destruct (next_line b) as [[line b']|].
  - destruct HL as (H1 & H2 & E). rewrite E in Hw |- *. cbn [fst snd] in Hw |- *.
    rewrite (bool_decide_eq_false_2 (_ :: _ = [])) by done. rewrite orb_true_r. unfold chosen in *. rewrite filter_cons in Hw |- *.
    destruct (decide (match_ pattern line = true)) as [Em|Em].
    + rewrite Em. destruct ws as [|w ws]; [done|]. injection Hw as Hw. cbn [app].
      rewrite pbind_assoc. unfold write, scall. rewrite pbind_assoc.
      rewrite (pbind_goes _ _ _ w (ws ++ l) [CWrite 1 (line ++ [10])]) by done.
      rewrite !pbind_ret. rewrite (IH b' true ws H2 ltac:(lia) Hw). done.
    + rewrite (not_true_is_false _ Em), pbind_ret. rewrite (IH b' true ws H2 ltac:(lia) Hw). done.
  - rewrite HL in Hw |- *. cbn [fst snd] in Hw |- *. change (chosen pattern []) with ([] : list str) in *. destruct ws; [|done]. rewrite (bool_decide_eq_true_2 ([] = [])) by done. by rewrite orb_false_r.
Qed.

(** ** The loop over the file *)

Lemma shrinks_lines pattern : forall fuel b moved, shrinks (lines_loop fuel pattern b moved).
Proof.
  induction fuel as [|f IH]; intros b moved; cbn [lines_loop]; [auto with prog|].
  destruct (next_line b) as [[line b']|]; [|auto with prog]. apply shrinks_bind; [|auto].
  destruct (match_ pattern line); unfold write; auto with prog.
Qed.
Lemma grep_body_consumes pattern fd held : consumes (grep_body pattern fd held).
Proof.
  apply consumes_bind; [auto with prog|]. intros [n d]. destruct (n <=? 0); [auto with prog|].
  apply shrinks_bind; [apply shrinks_lines|]. intros [rest moved]. auto with prog.
Qed.

(** What one read does to the characters held. *)
Lemma grep_body_run pattern fd held r d ws l :
  0 <= r -> d <> [] -> (length held + length d <= 1023)%nat -> no_nul_in (held ++ d) ->
  length ws = length (chosen pattern (fst (lines_of (held ++ d)))) ->
  grep_body pattern fd held (mkans r d :: ws ++ l) =
    Goes (inl (if bool_decide (fst (lines_of (held ++ d)) = []) then [] else snd (lines_of (held ++ d)))) l
      (CRead fd (1024 - Z.of_nat (length held) - 1) :: (print_line <$> chosen pattern (fst (lines_of (held ++ d))))).
Proof.
  intros Hr Hd Hl Hn Hw. unfold grep_body, read. rewrite pbind_assoc.
  rewrite (pbind_goes _ _ _ (mkans r d) (ws ++ l) [CRead fd (1024 - Z.of_nat (length held) - 1)]) by done.
  rewrite pbind_ret. cbn [retval data]. rewrite (proj2 (Z.ltb_ge r 0)) by lia. cbv zeta.
  rewrite take_ge by lia. rewrite (proj2 (Z.leb_gt _ 0)) by (destruct d; [done|cbn; lia]).
  erewrite pbind_goes by (apply lines_loop_run; [done|lia|done]). cbn [orb pret].
  rewrite app_nil_r. by case_bool_decide.
Qed.

(** The answers to the calls of [grep]: to every read a piece of the file,
    and to the writes of the lines chosen from it anything. *)
Definition feed (chunks : list (str * list ans)) : list ans :=
  concat ((fun c => mkans (Z.of_nat (length (fst c))) (fst c) :: snd c) <$> chunks).

(** Every piece has a newline and no NUL, and fits in the buffer behind what
    is left from the piece before. *)
Fixpoint line_wise (pattern held : str) (chunks : list (str * list ans)) : Prop :=
  match chunks with
  | [] => True
  | (d, ws) :: cs =>
      has_newline d /\ no_nul_in d /\ (length held + length d <= 1023)%nat /\
      length ws = length (chosen pattern (fst (lines_of (held ++ d)))) /\
      line_wise pattern (snd (lines_of (held ++ d))) cs
  end.

Definition is_write (c : call) : bool := match c with CWrite _ _ => true | _ => false end.
Definition writes (tr : list call) : list call := filter (fun c => is_write c = true) tr.

Lemma writes_read fd n tr : writes (CRead fd n :: tr) = writes tr.
Proof. done. Qed.
Lemma writes_app tr1 tr2 : writes (tr1 ++ tr2) = writes tr1 ++ writes tr2.
Proof. apply filter_app. Qed.
Lemma writes_lines ls : writes (print_line <$> ls) = print_line <$> ls.
Proof. induction ls as [|l ls IH]; [done|]. unfold writes in *. rewrite fmap_cons, filter_cons_True by done. f_equal. exact IH. Qed.

Lemma no_nul_rest b : no_nul_in b -> no_nul_in (snd (lines_of b)).
Proof. intros H. rewrite (lines_of_join b) in H. apply Forall_app in H as [_ H]. done. Qed.

Lemma feed_cons d ws cs x : feed ((d, ws) :: cs) ++ x = mkans (Z.of_nat (length d)) d :: ws ++ feed cs ++ x.
Proof. unfold feed. cbn. by rewrite <- app_assoc. Qed.

Lemma grep_loop_run pattern fd r l chunks : forall held,
  line_wise pattern held chunks -> no_nul_in held -> fst (lines_of held) = [] ->
  exists tr, while (grep_body pattern fd) held (feed chunks ++ mkans r [] :: l) = Goes tt l tr /\
    writes tr = print_line <$> chosen pattern (fst (lines_of (held ++ concat (fst <$> chunks)))).
Proof.
  induction chunks as [|[d ws] cs IH]; intros held Hc Hn Hh; rewrite while_unfold by apply grep_body_consumes.
  - cbn. unfold grep_body, read. rewrite app_nil_r, Hh. eexists. split.
    + unfold pbind, syscall, pret. cbn. destruct (r <? 0); cbn; [done|]. by rewrite take_nil.
    + done.
  - destruct Hc as (Hd & Hdn & Hl & Hw & Hc). rewrite feed_cons.
    assert (no_nul_in (held ++ d)) as Hn' by (by apply Forall_app).
    assert (d <> []) as Hd0 by (intros ->; by apply elem_of_nil in Hd).
    erewrite pbind_goes by (apply grep_body_run; [lia|done|done|done|done]).
    rewrite bool_decide_eq_false_2 by (apply newline_lines; apply elem_of_app; by right).
    destruct (lines_of (held ++ d)) as [ls rest] eqn:EL. cbn [fst snd] in *.
    assert (lines_of rest = ([], rest)) as Hr0.
    { pose proof (lines_of_app (held ++ d) []) as E. rewrite app_nil_r, EL in E. cbn [fst snd] in E. rewrite app_nil_r in E.
      injection E as E1 E2. destruct (lines_of rest) as [l1 r1]. cbn [fst snd] in *. subst r1.
      rewrite <- (app_nil_r ls) in E1 at 1. apply app_inv_head in E1. by subst. }
    destruct (IH rest) as (tr & E & Ew); [done| |by rewrite Hr0|].
    { pose proof (no_nul_rest _ Hn') as Hr. by rewrite EL in Hr. }
    rewrite E. eexists. split; [done|]. rewrite <- app_comm_cons, writes_read, writes_app, writes_lines, Ew.
    cbn [fmap list_fmap concat fst]. rewrite (app_assoc held d), (lines_of_app (held ++ d)), EL. cbn [fst snd]. unfold chosen. by rewrite filter_app, fmap_app.
Qed.

(** C28: grep.c: when every read brings at least one newline and no NUL, as
    from a terminal or a file with short lines, [grep] returns after the
    read that brings nothing, and has written exactly the complete lines of
    its input that match, in their order, each with one call. *)
Theorem grep_prints pattern fd r l chunks :
  line_wise pattern [] chunks ->
  exists tr, grep pattern fd (feed chunks ++ mkans r [] :: l) = Goes tt l tr /\
    writes tr = print_line <$> chosen pattern (fst (lines_of (concat (fst <$> chunks)))).
Proof. intros H. exact (grep_loop_run pattern fd r l chunks [] H (Forall_nil_2 _) eq_refl). Qed.

Lemma grep_prints_witness :
  exists tr, grep (bytes_of "b.") 3
    (feed [(bytes_of "abc" ++ [10] ++ bytes_of "a", [mkans 4 []]); (bytes_of "bb" ++ [10], [mkans 4 []])] ++ [mkans 0 []]) = Goes tt [] tr /\
    writes tr = [CWrite 1 (bytes_of "abc" ++ [10]); CWrite 1 (bytes_of "abb" ++ [10])].
Proof.
  destruct (grep_prints (bytes_of "b.") 3 0 []
    [(bytes_of "abc" ++ [10] ++ bytes_of "a", [mkans 4 []]); (bytes_of "bb" ++ [10], [mkans 4 []])]) as (tr & E & Ew).
  - split; [apply list_elem_of_In; cbn; tauto|]. split; [by repeat constructor|]. split; [cbn; lia|]. split; [vm_compute; reflexivity|].
    split; [apply list_elem_of_In; cbn; tauto|]. split; [by repeat constructor|]. split; [apply Nat.leb_le; vm_compute; reflexivity|].
    split; [vm_compute; reflexivity|exact I].
  - exists tr. split; [exact E|]. rewrite Ew. vm_compute. reflexivity.
Defined.

(** grep.c: characters that arrive without a newline are forgotten: after
    such a read [grep] goes on as if it had just started.  A line that comes
    in two pieces, as from a pipe, loses its first piece. *)
Theorem grep_forgets pattern fd r d l :
  0 <= r -> d <> [] -> (length d <= 1023)%nat -> no_nul_in d -> ~ has_newline d ->
  grep pattern fd (mkans r d :: l) = pbind (syscall (CRead fd 1023)) (fun _ => grep pattern fd) (mkans r d :: l).
Proof.
  intros Hr Hd Hl Hn Hnl. unfold grep at 1. rewrite while_unfold by apply grep_body_consumes.
  pose proof (grep_body_run pattern fd [] r d [] l Hr Hd Hl Hn) as E. cbn [app length] in E.
  rewrite (no_newline_lines d Hnl) in E. specialize (E eq_refl).
  rewrite (pbind_goes _ _ _ _ _ _ E). cbn [fst snd]. rewrite bool_decide_eq_true_2 by done.
  by rewrite (pbind_goes _ _ _ (mkans r d) l [CRead fd 1023]).
Qed.

(** The line "ab" arrives as "a" and "b" with the newline. *)
Lemma grep_forgets_witness :
  grep (bytes_of "^a") 0 [mkans 1 (bytes_of "a"); mkans 2 (bytes_of "b" ++ [10]); mkans 0 []] =
    Goes tt [] [CRead 0 1023; CRead 0 1023; CRead 0 1023].
Proof.
  rewrite (grep_forgets (bytes_of "^a") 0 1 (bytes_of "a")); [reflexivity|lia|done|cbn; lia|by repeat constructor|].
  intros H. apply list_elem_of_In in H. cbn in H. intuition discriminate.
Defined.
