(* ===== verification/Sh.v ===== *)
(** * sh.c: the shell

    The parser works on the line in [buf]; a position in it is a number, and
    the end [es] is the length of the line.  A parsed command has the first
    position and the end of each of its words, as in the C code;
    [nulterminate] then stores the terminators into the line.  [malloc] is
    taken to succeed. *)

From stdpp Require Import base numbers list strings.
From S2P Require Import Prelude Kernel Console Ulib User.

(** ** Commands *)

Definition MAXARGS : nat := 10.

(** The words are pairs of [argv] and [eargv], of [file] and [efile]. *)
Inductive cmd :=
| EXEC (argv : list (nat * nat))
| REDIR (c : cmd) (file : nat * nat) (mode fd : Z)
| PIPE (left right : cmd)
| LIST (left right : cmd)
| BACK (c : cmd).

(** The constructors; [malloc] is taken to succeed. *)
Definition execcmd : cmd := EXEC [].
Definition redircmd (subcmd : cmd) (file efile : nat) (mode fd : Z) : cmd := REDIR subcmd (file, efile) mode fd.
Definition pipecmd (left right : cmd) : cmd := PIPE left right.
Definition listcmd (left right : cmd) : cmd := LIST left right.
Definition backcmd (subcmd : cmd) : cmd := BACK subcmd.

Definition O_WRONLY : Z := 1.
Definition O_RDWR : Z := 2.
Definition O_CREATE : Z := 512.

(** ** Tokens *)

Definition whitespace : str := [32; 9; 13; 10; 11].
Definition symbols : str := bytes_of "<|>&;()".

(** [strchr(set, c)] is not null. *)
Definition in_set (set : str) (c : Z) : bool := existsb (Z.eqb c) set.
Definition is_ws (c : Z) : bool := in_set whitespace c.
Definition is_word (c : Z) : bool := negb (is_ws c) && negb (in_set symbols c).

(** The character at a position; at the end it is the terminator. *)
Definition ch (b : str) (s : nat) : Z := nth s b 0.

(** [while(s < es && f( *s)) s++] *)
Fixpoint count_while (f : Z -> bool) (l : str) : nat :=
  match l with
  | [] => 0
  | c :: l' => if f c then S (count_while f l') else 0
  end.
Definition skip (f : Z -> bool) (b : str) (s : nat) : nat := (s + count_while f (drop s b))%nat.

Definition tok_word : Z := 97.
Definition tok_append : Z := 43.
Definition ch_gt : Z := 62.
Definition ch_lt : Z := 60.

(** The token, where its text starts and ends, and the new position. *)
Definition gettoken (b : str) (s : nat) : Z * nat * nat * nat :=
  let s := skip is_ws b s in
  let c := ch b s in
  let '(ret, e) :=
    if c =? 0 then (c, s)
    else if in_set (bytes_of "|();&<") c then (c, S s)
    else if c =? ch_gt then if ch b (S s) =? ch_gt then (tok_append, S (S s)) else (c, S s)
    else (tok_word, skip is_word b s) in
  (ret, s, e, skip is_ws b e).

Definition peek (b : str) (s : nat) (toks : str) : bool * nat :=
  let s := skip is_ws b s in
  (negb (ch b s =? 0) && in_set toks (ch b s), s).

(** ** The parser *)

(** A command and the position behind it, the message of a [panic], too
    little fuel, or a store outside of [argv]. *)
Inductive parsed :=
| Parsed (c : cmd) (s : nat)
| Panics (msg : str)
| NoFuel
| BadStore.

Definition andthen (r : parsed) (k : cmd -> nat -> parsed) : parsed :=
  match r with Parsed c s => k c s | _ => r end.

Fixpoint parseredirs (fuel : nat) (c : cmd) (b : str) (s : nat) : parsed :=
  match fuel with
  | O => NoFuel
  | S f =>
      let '(p, s) := peek b s (bytes_of "<>") in
      if (p : bool) then
        let '(tok, _, _, s) := gettoken b s in
        let '(tok2, q, eq, s) := gettoken b s in
        if negb (tok2 =? tok_word) then Panics (bytes_of "missing file for redirection") else
        let c :=
          if tok =? ch_lt then redircmd c q eq O_RDONLY 0
          else if tok =? ch_gt then redircmd c q eq (Z.lor O_WRONLY O_CREATE) 1
          else if tok =? tok_append then redircmd c q eq (Z.lor O_WRONLY O_CREATE) 1
          else c in
        parseredirs f c b s
      else Parsed c s
  end.

(** [cmd->argv[argc] = q; cmd->eargv[argc] = eq], where [ret] is the command
    [cmd] with redirections around it. *)
Fixpoint add_arg (ret : cmd) (w : nat * nat) : cmd :=
  match ret with
  | EXEC argv => EXEC (argv ++ [w])
  | REDIR c f m d => REDIR (add_arg c w) f m d
  | _ => ret
  end.

(** The loop of [parseexec] over the arguments. *)
Fixpoint parseargs (fuel : nat) (ret : cmd) (argc : nat) (b : str) (s : nat) : parsed :=
  match fuel with
  | O => NoFuel
  | S f =>
      let '(p, s) := peek b s (bytes_of "|)&;") in
      if (p : bool) then if (MAXARGS <=? argc)%nat then BadStore else Parsed ret s else
      let '(tok, q, eq, s) := gettoken b s in
      if tok =? 0 then if (MAXARGS <=? argc)%nat then BadStore else Parsed ret s else
      if negb (tok =? tok_word) then Panics (bytes_of "syntax") else
      if (MAXARGS <=? argc)%nat then BadStore else
      let ret := add_arg ret (q, eq) in
      let argc := S argc in
      if (MAXARGS <=? argc)%nat then Panics (bytes_of "too many args") else
      andthen (parseredirs f ret b s) (fun ret s => parseargs f ret argc b s)
  end.

(** [while(peek(ps, es, "&"))] *)
Fixpoint parseback (fuel : nat) (c : cmd) (b : str) (s : nat) : parsed :=
  match fuel with
  | O => NoFuel
  | S f =>
      let '(p, s) := peek b s (bytes_of "&") in
      if (p : bool) then
        let '(_, _, _, s) := gettoken b s in
        parseback f (backcmd c) b s
      else Parsed c s
  end.

Fixpoint parseline (fuel : nat) (b : str) (s : nat) {struct fuel} : parsed :=
  match fuel with
  | O => NoFuel
  | S f =>
      andthen (parsepipe f b s) (fun c s =>
      andthen (parseback f c b s) (fun c s =>
      let '(p, s) := peek b s (bytes_of ";") in
      if (p : bool) then
        let '(_, _, _, s) := gettoken b s in
        andthen (parseline f b s) (fun r s => Parsed (listcmd c r) s)
      else Parsed c s))
  end
with parsepipe (fuel : nat) (b : str) (s : nat) {struct fuel} : parsed :=
  match fuel with
  | O => NoFuel
  | S f =>
      andthen (parseexec f b s) (fun c s =>
      let '(p, s) := peek b s (bytes_of "|") in
      if (p : bool) then
        let '(_, _, _, s) := gettoken b s in
        andthen (parsepipe f b s) (fun r s => Parsed (pipecmd c r) s)
      else Parsed c s)
  end
with parseexec (fuel : nat) (b : str) (s : nat) {struct fuel} : parsed :=
  match fuel with
  | O => NoFuel
  | S f =>
      let '(p, s) := peek b s (bytes_of "(") in
      if (p : bool) then parseblock f b s else
      andthen (parseredirs f execcmd b s) (fun ret s => parseargs f ret 0 b s)
  end
with parseblock (fuel : nat) (b : str) (s : nat) {struct fuel} : parsed :=
  match fuel with
  | O => NoFuel
  | S f =>
      let '(p, s) := peek b s (bytes_of "(") in
      if negb p then Panics (bytes_of "parseblock") else
      let '(_, _, _, s) := gettoken b s in
      andthen (parseline f b s) (fun c s =>
      let '(p, s) := peek b s (bytes_of ")") in
      if negb p then Panics (bytes_of "syntax - missing )") else
      let '(_, _, _, s) := gettoken b s in
      parseredirs f c b s)
  end.

(** [*e = 0], in the line or at its end. *)
Definition put_nul (b : str) (e : nat) : str := <[e := 0]> b.

Fixpoint nulterminate (c : cmd) (b : str) : str :=
  match c with
  | EXEC argv => foldl put_nul b (snd <$> argv)
  | REDIR c f _ _ => put_nul (nulterminate c b) (snd f)
  | PIPE l r => nulterminate r (nulterminate l b)
  | LIST l r => nulterminate r (nulterminate l b)
  | BACK c => nulterminate c b
  end.

Definition panic {A} (s : str) : P A := printf 2 (bytes_of "%s" ++ [10]) [AStr (Some s)] ;+ exit.

(** The fuel is enough for a line of any length (Shparse.v). *)
Definition parse_fuel (b : str) : nat := 4 * length b + 5.

(** The command, and the line with the terminators. *)
Definition parsecmd (b : str) : P (cmd * str) :=
  match parseline (parse_fuel b) b 0 with
  | Parsed c s =>
      let '(_, s) := peek b s [] in
      if negb (s =? length b)%nat then
        printf 2 (bytes_of "leftovers: %s" ++ [10]) [AStr (Some (drop s b))] ;+ panic (bytes_of "syntax")
      else pret (c, nulterminate c b)
  | Panics msg => panic msg
  | NoFuel | BadStore => pfault
  end.

(** ** Running commands *)

(** The string at a position. *)
Fixpoint upto_nul (l : str) : str :=
  match l with
  | [] => []
  | c :: l' => if c =? 0 then [] else c :: upto_nul l'
  end.
Definition string_at (b : str) (s : nat) : str := upto_nul (drop s b).

Definition fork1 : P Z :=
  let+ pid := fork in
  if pid =? -1 then panic (bytes_of "fork") else pret pid.

(** [runcmd] never returns. *)
Fixpoint runcmd (b : str) (c : cmd) : P unit :=
  match c with
  | EXEC argv =>
      match argv with
      | [] => exit
      | (q, _) :: _ =>
          exec (string_at b q) ((fun w => string_at b (fst w)) <$> argv) ;+
          printf 2 (bytes_of "exec %s failed" ++ [10]) [AStr (Some (string_at b q))] ;+
          exit
      end
  | REDIR c f mode fd =>
      close fd ;+
      let+ r := open (string_at b (fst f)) mode in
      if r <? 0 then
        printf 2 (bytes_of "open %s failed" ++ [10]) [AStr (Some (string_at b (fst f)))] ;+ exit
      else runcmd b c ;+ exit
  | LIST l r =>
      let+ pid := fork1 in
      (if pid =? 0 then runcmd b l else pret tt) ;+
      wait ;+
      runcmd b r ;+
      exit
  | PIPE l r =>
      let+ p := pipe in
      let '(res, (p0, p1)) := (p : Z * (Z * Z)) in
      if res <? 0 then panic (bytes_of "pipe") else
      let+ pid := fork1 in
      (if pid =? 0 then close 1 ;+ dup p1 ;+ close p0 ;+ close p1 ;+ runcmd b l else pret tt) ;+
      let+ pid := fork1 in
      (if pid =? 0 then close 0 ;+ dup p0 ;+ close p0 ;+ close p1 ;+ runcmd b r else pret tt) ;+
      close p0 ;+
      close p1 ;+
      wait ;+
      wait ;+
      exit
  | BACK c =>
      let+ pid := fork1 in
      (if pid =? 0 then runcmd b c else pret tt) ;+
      exit
  end.

(** ** The main program *)

(** What the child does with a line. *)
Definition run_line (b : str) : P unit :=
  let+ p := parsecmd b in
  let '(c, b) := (p : cmd * str) in runcmd b c.

(** The line read, or nothing at the end of the input. *)
Definition getcmd : P (option str) :=
  printf 2 (bytes_of "$ ") [] ;+
  let+ b := gets 100 in
  let b := upto_nul b in
  pret (if bool_decide (b = []) then None else Some b).

(** [while((fd = open("console", O_RDWR)) >= 0)] *)
Definition open_console (_ : unit) : P (unit + unit) :=
  let+ fd := open (bytes_of "console") O_RDWR in
  if fd <? 0 then pret (inr tt)
  else if 3 <=? fd then close fd ;+ pret (inr tt)
  else pret (inl tt).

(** One round of the loop that reads and runs commands. *)
Definition command (_ : unit) : P (unit + unit) :=
  let+ line := getcmd in
  match line with
  | None => pret (inr tt)
  | Some b =>
      if (ch b 0 =? 99) && (ch b 1 =? 100) && (ch b 2 =? 32) then
        let b := take (length b - 1) b in
        let+ r := chdir (drop 3 b) in
        (if r <? 0 then printf 2 (bytes_of "cannot cd %s" ++ [10]) [AStr (Some (drop 3 b))] else pret tt) ;+
        pret (inl tt)
      else
        let+ pid := fork1 in
        (if pid =? 0 then run_line b else pret tt) ;+
        wait ;+
        pret (inl tt)
  end.

Definition sh_main : P unit :=
  while open_console tt ;+
  while command tt ;+
  exit.
