(* ===== verification/Shparse.v ===== *)
(** * The shell's parser ends, and reads what it should

    For every line the parser ends without storing outside of [argv]
    ([parse_ends]); after [nulterminate] the words of the command are the
    strings that [exec] and [open] get; and a line written down from the
    grammar of the shell is parsed into that command ([parse_reads]). *)

From stdpp Require Import base numbers list strings.
From S2P Require Import Prelude Kernel Console Ulib User Sh.

(** ** Positions *)

Lemma count_while_le f l : (count_while f l <= length l)%nat.
Proof. induction l as [|c l IH]; cbn; [done|]. destruct (f c); lia. Qed.

Lemma skip_range f b s : (s <= length b -> s <= skip f b s <= length b)%nat.
Proof. intros Hs. unfold skip. pose proof (count_while_le f (drop s b)). rewrite length_drop in *. lia. Qed.

Lemma ch_in b s : ch b s <> 0 -> (s < length b)%nat.
Proof. intros H. destruct (decide (s < length b)%nat); [done|]. destruct H. apply nth_overflow. lia. Qed.

Lemma drop_ch b s : (s < length b)%nat -> drop s b = ch b s :: drop (S s) b.
Proof.
  intros Hs. unfold ch. destruct (lookup_lt_is_Some_2 b s Hs) as [c Hc].
  rewrite (drop_S b c s Hc). by rewrite (nth_lookup_Some b s 0 c Hc).
Qed.

(** The character where [skip] stops, and the ones before it. *)
Lemma skip_stop f b s : (skip f b s < length b)%nat -> f (ch b (skip f b s)) = false.
Proof.
  unfold skip. remember (drop s b) as l eqn:El. revert s El. induction l as [|c l IH]; intros s El; cbn [count_while].
  - rewrite Nat.add_0_r. intros Hs. rewrite (drop_ch b s Hs) in El. done.
  - assert (s < length b)%nat as Hs. { apply (f_equal length) in El. cbn in El. rewrite length_drop in El. lia. }
    rewrite (drop_ch b s Hs) in El. injection El as -> ->. destruct (f (ch b s)) eqn:Ef; [|by rewrite Nat.add_0_r].
    rewrite <- Nat.add_succ_comm. apply IH. done.
Qed.
Lemma skip_before f b s i : (s <= i < skip f b s)%nat -> f (ch b i) = true.
Proof.
  unfold skip. remember (drop s b) as l eqn:El. revert s El. induction l as [|c l IH]; intros s El; cbn [count_while]; [lia|].
  assert (s < length b)%nat as Hs. { apply (f_equal length) in El. cbn in El. rewrite length_drop in El. lia. }
  rewrite (drop_ch b s Hs) in El. injection El as -> ->. destruct (f (ch b s)) eqn:Ef; [|lia].
  intros Hi. destruct (decide (i = s)) as [->|Hne]; [done|]. apply (IH (S s)); [done|lia].
Qed.

(** A maximal run of characters of a word. *)
Definition wordlike (b : str) (w : nat * nat) : Prop :=
  (fst w < snd w <= length b)%nat /\ (forall i, (fst w <= i < snd w)%nat -> is_word (ch b i) = true) /\
  ((snd w < length b)%nat -> is_word (ch b (snd w)) = false).

Lemma in_set_In set c : in_set set c = true <-> In c set.
Proof. unfold in_set. rewrite existsb_exists. split; [intros (x & Hx & ->%Z.eqb_eq); done|]. intros H. exists c. by rewrite Z.eqb_refl. Qed.

Lemma gettoken_facts b s tok q e s' :
  (s <= length b)%nat -> gettoken b s = (tok, q, e, s') ->
  (s <= q <= e)%nat /\ (e <= s' <= length b)%nat /\ (tok <> 0 -> (q < e)%nat) /\ (tok = tok_word -> wordlike b (q, e)).
Proof.
  intros Hs. unfold gettoken. cbv zeta. set (q0 := skip is_ws b s). pose proof (skip_range is_ws b s Hs) as Hq. fold q0 in Hq.
  destruct (Z.eqb_spec (ch b q0) 0) as [E0|E0].
  { intros [= <- <- <- <-]. pose proof (skip_range is_ws b q0 ltac:(lia)). split_and!; try lia. rewrite E0. done. }
  pose proof (ch_in b q0 E0) as Hlt. destruct (in_set (bytes_of "|();&<") (ch b q0)) eqn:Es.
  { intros [= <- <- <- <-]. pose proof (skip_range is_ws b (S q0) ltac:(lia)). split_and!; try lia.
    intros E. rewrite E in Es. done. }
  destruct (Z.eqb_spec (ch b q0) ch_gt) as [Eg|Eg].
  { destruct (Z.eqb_spec (ch b (S q0)) ch_gt) as [E2|E2]; intros [= <- <- <- <-].
    - assert (S q0 < length b)%nat by (apply ch_in; rewrite E2; done).
      pose proof (skip_range is_ws b (S (S q0)) ltac:(lia)). split_and!; try lia. done.
    - pose proof (skip_range is_ws b (S q0) ltac:(lia)). split_and!; try lia. by rewrite Eg. }
  intros [= <- <- <- <-]. pose proof (skip_range is_word b q0 ltac:(lia)) as He.
  assert (is_word (ch b q0) = true) as Hw.
  { unfold is_word. unfold is_ws at 1. pose proof (skip_stop is_ws b s Hlt) as Hws. fold q0 in Hws. unfold is_ws in Hws.
    rewrite Hws. cbn [negb andb]. destruct (in_set symbols (ch b q0)) eqn:Esym; [|done]. exfalso.
    apply in_set_In in Esym. assert (In (ch b q0) (bytes_of "|();&<") \/ ch b q0 = ch_gt) as [Hi|Hi].
    { unfold ch_gt. cbn in Esym |- *. intuition auto. }
    - apply in_set_In in Hi. congruence.
    - congruence. }
  assert (q0 < skip is_word b q0)%nat as Hlt2.
  { unfold skip in He |- *. rewrite (drop_ch b q0 Hlt). cbn [count_while]. rewrite Hw. lia. }
  pose proof (skip_range is_ws b (skip is_word b q0) ltac:(lia)). split_and!; try lia. intros _.
  split; [cbn; lia|]. cbn [fst snd]. split; [intros i Hi; apply (skip_before is_word b q0 i Hi)|]. apply skip_stop.
Qed.

Lemma peek_facts b s toks p s' :
  (s <= length b)%nat -> peek b s toks = (p, s') ->
  (s <= s' <= length b)%nat /\ (p = true -> (s' < length b)%nat /\ in_set toks (ch b s') = true /\ ch b s' <> 0 /\ skip is_ws b s' = s').
Proof.
  intros Hs [= <- <-]. pose proof (skip_range is_ws b s Hs). split; [lia|].
  intros [H1 H2]%andb_prop. apply negb_true_iff, Z.eqb_neq in H1. pose proof (ch_in _ _ H1) as Hlt. split_and!; try done.
  unfold skip at 1. rewrite (drop_ch b (skip is_ws b s) Hlt). cbn [count_while]. rewrite (skip_stop is_ws b s Hlt). lia.
Qed.

(** ** The parser ends *)

(** The words of a command. *)
Fixpoint words (c : cmd) : list (nat * nat) :=
  match c with
  | EXEC argv => argv
  | REDIR c f _ _ => f :: words c
  | PIPE l r | LIST l r => words l ++ words r
  | BACK c => words c
  end.

Definition good (b : str) (c : cmd) : Prop := Forall (wordlike b) (words c).

(** A result is a command of words, at or behind [s], or a message. *)
Definition fine (b : str) (s : nat) (r : parsed) : Prop :=
  match r with
  | Parsed c s' => (s <= s' <= length b)%nat /\ good b c
  | Panics _ => True
  | _ => False
  end.

Lemma fine_then b s r k :
  fine b s r -> (forall c s', (s <= s' <= length b)%nat -> good b c -> fine b s' (k c s')) -> fine b s (andthen r k).
Proof.
  destruct r as [c s'| | |]; cbn; try done. intros [Hs Hc] Hk. specialize (Hk c s' Hs Hc).
  destruct (k c s') as [c2 s2| | |]; cbn in Hk |- *; try done. destruct Hk. split; [lia|done].
Qed.
Lemma fine_le b s s' r : (s <= s')%nat -> fine b s' r -> fine b s r.
Proof. intros Hs. destruct r as [c s2| | |]; cbn; try done. intros [H1 H2]. split; [lia|done]. Qed.

(** After [peek] the next token is there. *)
Lemma token_after_peek b s toks s1 tok q e s2 :
  (s <= length b)%nat -> peek b s toks = (true, s1) -> gettoken b s1 = (tok, q, e, s2) ->
  (s < s2 <= length b)%nat /\ (s1 < s2)%nat.
Proof.
  intros Hs Hp Hg. destruct (peek_facts b s toks true s1 Hs Hp) as (H1 & H2). destruct (H2 eq_refl) as (H3 & H4 & H5 & H6).
  destruct (gettoken_facts b s1 tok q e s2 ltac:(lia) Hg) as (G1 & G2 & G3 & _).
  assert (tok <> 0) as Ht.
  { unfold gettoken in Hg. rewrite H6 in Hg. rewrite (proj2 (Z.eqb_neq _ _) H5) in Hg.
    destruct (in_set (bytes_of "|();&<") (ch b s1)); [injection Hg; congruence|].
    destruct (ch b s1 =? ch_gt); [|by injection Hg as <- _ _ _].
    destruct (ch b (S s1) =? ch_gt); injection Hg; [intros; subst; done|congruence]. }
  specialize (G3 Ht). lia.
Qed.

Lemma redirs_fine b : forall fuel c s, (length b - s < fuel)%nat -> (s <= length b)%nat -> good b c -> fine b s (parseredirs fuel c b s).
Proof.
  induction fuel as [|f IH]; intros c s Hf Hs Hc; [lia|]. cbn [parseredirs].
  destruct (peek b s (bytes_of "<>")) as [p s1] eqn:Ep. pose proof (peek_facts _ _ _ _ _ Hs Ep) as [H1 _].
  destruct p; [|split; [lia|done]].
  destruct (gettoken b s1) as [[[tok q1] e1] s2] eqn:E1. destruct (token_after_peek _ _ _ _ _ _ _ _ Hs Ep E1) as [H2 H3].
  destruct (gettoken b s2) as [[[tok2 q] e] s3] eqn:E2. destruct (gettoken_facts b s2 _ _ _ _ ltac:(lia) E2) as (G1 & G2 & G3 & G4).
  destruct (Z.eqb_spec tok2 tok_word) as [->|]; [|done]. cbn [negb]. specialize (G4 eq_refl).
  apply (fine_le b s s3); [lia|]. apply IH; [lia|lia|].
  destruct (tok =? ch_lt), (tok =? ch_gt), (tok =? tok_append); try done; by constructor.
Qed.

Lemma good_add_arg b ret w : good b ret -> wordlike b w -> good b (add_arg ret w).
Proof.
  unfold good. intros H Hw. induction ret; cbn in *; try done.
  - apply Forall_app. split; [done|by constructor].
  - apply Forall_cons in H as [? ?]. constructor; [done|auto].
Qed.

Lemma args_fine b : forall fuel ret argc s,
  (length b - s < fuel)%nat -> (s <= length b)%nat -> (argc < MAXARGS)%nat -> good b ret -> fine b s (parseargs fuel ret argc b s).
Proof.
  induction fuel as [|f IH]; intros ret argc s Hf Hs Ha Hr; [lia|]. cbn [parseargs]. rewrite (proj2 (Nat.leb_gt _ _) Ha).
  destruct (peek b s (bytes_of "|)&;")) as [p s1] eqn:Ep. pose proof (peek_facts _ _ _ _ _ Hs Ep) as [H1 _].
  destruct p; [split; [lia|done]|].
  destruct (gettoken b s1) as [[[tok q] e] s2] eqn:E1. destruct (gettoken_facts b s1 _ _ _ _ ltac:(lia) E1) as (G1 & G2 & G3 & G4).
  destruct (Z.eqb_spec tok 0) as [->|Ht]; [split; [lia|done]|]. specialize (G3 Ht).
  destruct (Z.eqb_spec tok tok_word) as [->|]; [|done]. cbn [negb]. specialize (G4 eq_refl).
  destruct (Nat.leb_spec MAXARGS (S argc)) as [|Ha2]; [done|].
  apply (fine_le b s s2); [lia|]. apply fine_then.
  - apply redirs_fine; [lia|lia|by apply good_add_arg].
  - intros c s' Hs' Hc. apply IH; try done; lia.
Qed.

Lemma back_fine b : forall fuel c s, (length b - s < fuel)%nat -> (s <= length b)%nat -> good b c -> fine b s (parseback fuel c b s).
Proof.
  induction fuel as [|f IH]; intros c s Hf Hs Hc; [lia|]. cbn [parseback].
  destruct (peek b s (bytes_of "&")) as [p s1] eqn:Ep. pose proof (peek_facts _ _ _ _ _ Hs Ep) as [H1 _].
  destruct p; [|split; [lia|done]].
  destruct (gettoken b s1) as [[[tok q1] e1] s2] eqn:E1. destruct (token_after_peek _ _ _ _ _ _ _ _ Hs Ep E1) as [H2 H3].
  apply (fine_le b s s2); [lia|]. apply IH; [lia|lia|done].
Qed.

(** The four functions that call each other: what is left of the line goes
    down in every round. *)
Lemma parser_fine b : forall fuel s, (s <= length b)%nat ->
  ((4 * (length b - s) + 4 <= fuel)%nat -> fine b s (parseline fuel b s)) /\
  ((4 * (length b - s) + 3 <= fuel)%nat -> fine b s (parsepipe fuel b s)) /\
  ((4 * (length b - s) + 2 <= fuel)%nat -> fine b s (parseexec fuel b s)) /\
  ((4 * (length b - s) + 1 <= fuel)%nat -> fine b s (parseblock fuel b s)).
Proof.
  induction fuel as [|f IH]; intros s Hs; [split_and!; lia|].
  assert (forall s s', (s <= s')%nat -> fine b s' (parseline f b s') -> fine b s (parseline f b s')) as Hle by (intros; by apply (fine_le b s0 s')).
  split_and!; intros Hf; cbn [parseline parsepipe parseexec parseblock].
  - apply fine_then; [apply IH; lia|]. intros c s1 Hs1 Hc. apply fine_then; [apply back_fine; [lia|lia|done]|]. intros c2 s2 Hs2 Hc2.
    destruct (peek b s2 (bytes_of ";")) as [p s3] eqn:Ep. pose proof (peek_facts b s2 _ _ _ ltac:(lia) Ep) as [H1 _].
    destruct p; [|split; [lia|done]].
    destruct (gettoken b s3) as [[[tok q] e] s4] eqn:E1. destruct (token_after_peek b s2 _ _ _ _ _ _ ltac:(lia) Ep E1) as [H2 H3].
    apply (fine_le b s2 s4); [lia|]. apply fine_then; [apply IH; lia|]. intros r s5 Hs5 Hr. split; [lia|]. by apply Forall_app.
  - apply fine_then; [apply IH; lia|]. intros c s1 Hs1 Hc.
    destruct (peek b s1 (bytes_of "|")) as [p s3] eqn:Ep. pose proof (peek_facts b s1 _ _ _ ltac:(lia) Ep) as [H1 _].
    destruct p; [|split; [lia|done]].
    destruct (gettoken b s3) as [[[tok q] e] s4] eqn:E1. destruct (token_after_peek b s1 _ _ _ _ _ _ ltac:(lia) Ep E1) as [H2 H3].
    apply (fine_le b s1 s4); [lia|]. apply fine_then; [apply IH; lia|]. intros r s5 Hs5 Hr. split; [lia|]. by apply Forall_app.
  - destruct (peek b s (bytes_of "(")) as [p s1] eqn:Ep. pose proof (peek_facts _ _ _ _ _ Hs Ep) as [H1 _]. destruct p.
    + apply (fine_le b s s1); [lia|]. apply IH; lia.
    + apply (fine_le b s s1); [lia|]. apply fine_then; [apply redirs_fine; [lia|lia|constructor]|]. intros ret s2 Hs2 Hr.
      apply args_fine; [lia|lia|unfold MAXARGS; lia|done].
  - destruct (peek b s (bytes_of "(")) as [p s1] eqn:Ep. pose proof (peek_facts _ _ _ _ _ Hs Ep) as [H1 _]. destruct p; [|done]. cbn [negb].
    destruct (gettoken b s1) as [[[tok q] e] s2] eqn:E1. destruct (token_after_peek _ _ _ _ _ _ _ _ Hs Ep E1) as [H2 H3].
    apply (fine_le b s s2); [lia|]. apply fine_then; [apply IH; lia|]. intros c s3 Hs3 Hc.
    destruct (peek b s3 (bytes_of ")")) as [p s4] eqn:Ep2. pose proof (peek_facts b s3 _ _ _ ltac:(lia) Ep2) as [H4 _]. destruct p; [|done]. cbn [negb].
    destruct (gettoken b s4) as [[[tok2 q2] e2] s5] eqn:E2. destruct (token_after_peek b s3 _ _ _ _ _ _ ltac:(lia) Ep2 E2) as [H5 H6].
    apply (fine_le b s3 s5); [lia|]. apply redirs_fine; [lia|lia|done].
Qed.

(** C25: sh.c: the parser ends on every line, and never stores outside of the
    ten entries of [argv]: it yields a command, whose words are maximal runs
    of word characters inside of the line, or the message of a [panic].  The
    fuel, four steps per character, is never used up. *)
Theorem parse_ends b :
  match parseline (parse_fuel b) b 0 with
  | Parsed c s => (s <= length b)%nat /\ Forall (wordlike b) (words c)
  | Panics _ => True
  | NoFuel | BadStore => False
  end.
Proof.
  destruct (parser_fine b (parse_fuel b) 0) as [H _]; [lia|]. specialize (H ltac:(unfold parse_fuel; lia)).
  destruct (parseline (parse_fuel b) b 0); cbn in H; try done. destruct H. split; [lia|done].
Qed.

(** ** Terminators *)

Lemma put_nuls_lookup es : forall b i, (i < length b)%nat ->
  foldl put_nul b es !! i = if decide (i ∈ es) then Some 0 else b !! i.
Proof.
  induction es as [|e es IH]; intros b i Hi; cbn [foldl].
  - rewrite decide_False; [done|]. by intros ?%elem_of_nil.
  - rewrite IH by (unfold put_nul; by rewrite length_insert). unfold put_nul. destruct (decide (i ∈ es)) as [Hin|Hin].
    + rewrite decide_True; [done|]. by right.
    + destruct (decide (i = e)) as [->|Hne].
      * rewrite list_lookup_insert_eq by done. rewrite decide_True; [done|]. by left.
      * rewrite list_lookup_insert_ne by done. rewrite decide_False; [done|]. intros [?|?]%elem_of_cons; done.
Qed.

Lemma length_put_nuls es : forall b, length (foldl put_nul b es) = length b.
Proof. induction es as [|e es IH]; intros b; [done|]. cbn. rewrite IH. apply length_insert. Qed.

(** [nulterminate] stores a terminator behind every word, and nothing else. *)
Lemma nulterminate_puts c : forall b, exists es, nulterminate c b = foldl put_nul b es /\ forall e, e ∈ es <-> e ∈ snd <$> words c.
Proof.
  induction c as [argv|c IH f mode fd|l IHl r IHr|l IHl r IHr|c IH]; intros b; cbn [nulterminate words].
  - by exists (snd <$> argv).
  - destruct (IH b) as (es & E & He). exists (es ++ [snd f]). rewrite E, foldl_app. split; [done|].
    intros e. rewrite elem_of_app, list_elem_of_singleton, fmap_cons, elem_of_cons, He. tauto.
  - destruct (IHl b) as (es & E & He). destruct (IHr (nulterminate l b)) as (es' & E' & He'). exists (es ++ es').
    rewrite E', E, foldl_app. split; [done|]. intros e. by rewrite fmap_app, !elem_of_app, He, He'.
  - destruct (IHl b) as (es & E & He). destruct (IHr (nulterminate l b)) as (es' & E' & He'). exists (es ++ es').
    rewrite E', E, foldl_app. split; [done|]. intros e. by rewrite fmap_app, !elem_of_app, He, He'.
  - apply IH.
Qed.

(** The text of a word. *)
Definition text (b : str) (w : nat * nat) : str := take (snd w - fst w) (drop (fst w) b).

Lemma upto_nul_text : forall n b q, (q + n <= length b)%nat -> (forall i, (q <= i < q + n)%nat -> ch b i <> 0) ->
  ch b (q + n) = 0 -> upto_nul (drop q b) = take n (drop q b).
Proof.
  induction n as [|n IH]; intros b q Hl Hi H0.
  - rewrite Nat.add_0_r in *. destruct (drop q b) as [|c l] eqn:E; [done|].
    assert (q < length b)%nat as Hq. { apply (f_equal length) in E. rewrite length_drop in E. cbn in E. lia. }
    rewrite (drop_ch b q Hq) in E. injection E as <- _. cbn [upto_nul take]. by rewrite H0.
  - rewrite (drop_ch b q) by lia. cbn [upto_nul take]. rewrite (proj2 (Z.eqb_neq _ _)) by (apply Hi; lia). f_equal.
    apply IH; [lia| |by rewrite Nat.add_succ_comm]. intros i Hii. apply Hi. lia.
Qed.

Lemma ch_lookup b i : (i < length b)%nat -> b !! i = Some (ch b i).
Proof. intros Hi. destruct (lookup_lt_is_Some_2 b i Hi) as [c Hc]. rewrite Hc. f_equal. symmetry. by apply nth_lookup_Some. Qed.

(** Terminators are never inside of a word: behind the word they belong to
    there is no word character. *)
Lemma nul_outside b w w' i :
  wordlike b w -> wordlike b w' -> (fst w <= i < snd w)%nat -> i <> snd w'.
Proof.
  intros (H1 & H2 & H3) (G1 & G2 & G3) Hi ->. rewrite (H2 _ Hi) in G3. specialize (G3 ltac:(lia)). done.
Qed.

Lemma string_of_word c b w :
  good b c -> Forall (fun x => x <> 0) b -> w ∈ words c -> string_at (nulterminate c b) (fst w) = text b w.
Proof.
  intros Hg Hb Hw. destruct (nulterminate_puts c b) as (es & -> & He). unfold string_at, text.
  pose proof (proj1 (Forall_forall _ _) Hg w Hw) as HW. pose proof HW as (H1 & H2 & H3).
  assert (forall i, (i < length b)%nat -> i ∉ es -> ch (foldl put_nul b es) i = ch b i) as Hsame.
  { intros i Hi Hes. pose proof (put_nuls_lookup es b i Hi) as E. rewrite decide_False in E by done.
    rewrite !ch_lookup in E by (rewrite ?length_put_nuls; done). by injection E. }
  assert (forall i, (i < length b)%nat -> ch b i <> 0) as Hnz.
  { intros i Hi. apply (proj1 (Forall_lookup _ _) Hb i). by apply ch_lookup. }
  assert (forall i, (fst w <= i < snd w)%nat -> i ∉ es) as Hout.
  { intros i Hi (w' & E & Hw')%He%list_elem_of_fmap. apply (nul_outside b w w' i HW); [|done|done].
    by apply (proj1 (Forall_forall _ _) Hg). }
  rewrite (upto_nul_text (snd w - fst w)).
  - apply list_eq. intros j. destruct (decide (j < snd w - fst w)%nat) as [Hj|Hj].
    + rewrite !lookup_take_lt, !lookup_drop by done. rewrite !ch_lookup by (rewrite ?length_put_nuls; lia). f_equal. apply Hsame; [lia|apply Hout; lia].
    + rewrite !lookup_take_ge by lia. done.
  - rewrite length_put_nuls. lia.
  - intros i Hi. rewrite Hsame by (lia || (apply Hout; lia)). apply Hnz. lia.
  - replace (fst w + (snd w - fst w))%nat with (snd w) by lia. destruct (decide (snd w < length b)%nat) as [Hlt|Hge].
    + pose proof (put_nuls_lookup es b (snd w) Hlt) as E. rewrite decide_True in E by (apply He, list_elem_of_fmap; eauto).
      rewrite ch_lookup in E by (by rewrite length_put_nuls). by injection E.
    + apply nth_overflow. rewrite length_put_nuls. lia.
Qed.

(** ** The grammar *)

(** Commands with their words as strings. *)
Inductive acmd :=
| AExec (argv : list str)
| ARedir (c : acmd) (file : str) (mode fd : Z)
| APipe (l r : acmd)
| AList (l r : acmd)
| ABack (c : acmd).

(** The command for a word function. *)
Fixpoint view (g : nat * nat -> str) (c : cmd) : acmd :=
  match c with
  | EXEC argv => AExec (g <$> argv)
  | REDIR c f m d => ARedir (view g c) (g f) m d
  | PIPE l r => APipe (view g l) (view g r)
  | LIST l r => AList (view g l) (view g r)
  | BACK c => ABack (view g c)
  end.

Inductive rkind := RIn | ROut | RApp.
Inductive elem := Arg (w : str) | Red (k : rkind) (w : str).

(** A line is pipelines, with ampersands behind them and semicolons between
    them; a pipeline is commands with bars between them; a command is words
    and redirections, or a line in parentheses with redirections. *)
Inductive line :=
| LEnd (p : pipeline) (backs : nat)
| LSeq (p : pipeline) (backs : nat) (l : line)
with pipeline :=
| POne (e : simple)
| PBar (e : simple) (p : pipeline)
with simple :=
| Words (es : list elem)
| Block (l : line) (rs : list (rkind * str)).

(** What it means. *)
Definition a_redir (c : acmd) (k : rkind) (w : str) : acmd :=
  match k with
  | RIn => ARedir c w O_RDONLY 0
  | ROut | RApp => ARedir c w (Z.lor O_WRONLY O_CREATE) 1
  end.
Fixpoint a_arg (c : acmd) (w : str) : acmd :=
  match c with
  | AExec argv => AExec (argv ++ [w])
  | ARedir c f m d => ARedir (a_arg c w) f m d
  | _ => c
  end.
Definition a_elem (c : acmd) (e : elem) : acmd := match e with Arg w => a_arg c w | Red k w => a_redir c k w end.
Fixpoint a_back (n : nat) (c : acmd) : acmd := match n with O => c | S n' => a_back n' (ABack c) end.

Fixpoint m_line (l : line) : acmd :=
  match l with
  | LEnd p n => a_back n (m_pipe p)
  | LSeq p n l => AList (a_back n (m_pipe p)) (m_line l)
  end
with m_pipe (p : pipeline) : acmd :=
  match p with
  | POne e => m_simple e
  | PBar e p => APipe (m_simple e) (m_pipe p)
  end
with m_simple (e : simple) : acmd :=
  match e with
  | Words es => foldl a_elem (AExec []) es
  | Block l rs => foldl (fun c r => a_redir c (fst r) (snd r)) (m_line l) rs
  end.

(** How it is written, as tokens with a blank behind each of them. *)
Definition show_kind (k : rkind) : str := match k with RIn => bytes_of "<" | ROut => bytes_of ">" | RApp => bytes_of ">>" end.
Definition show_redir (r : rkind * str) : list str := [show_kind (fst r); snd r].
Definition show_elem (e : elem) : list str := match e with Arg w => [w] | Red k w => show_redir (k, w) end.

Fixpoint show_line (l : line) : list str :=
  match l with
  | LEnd p n => show_pipe p ++ replicate n (bytes_of "&")
  | LSeq p n l => show_pipe p ++ replicate n (bytes_of "&") ++ bytes_of ";" :: show_line l
  end
with show_pipe (p : pipeline) : list str :=
  match p with
  | POne e => show_simple e
  | PBar e p => show_simple e ++ bytes_of "|" :: show_pipe p
  end
with show_simple (e : simple) : list str :=
  match e with
  | Words es => concat (show_elem <$> es)
  | Block l rs => bytes_of "(" :: show_line l ++ bytes_of ")" :: concat (show_redir <$> rs)
  end.

Definition render (ts : list str) : str := concat ((fun t => t ++ [32]) <$> ts).

(** Words have word characters only, and at least one; a command has at most
    nine words. *)
Definition a_word (w : str) : Prop := w <> [] /\ Forall (fun c => c <> 0 /\ is_word c = true) w.
Definition is_arg (e : elem) : bool := match e with Arg _ => true | _ => false end.
Definition word_of (e : elem) : str := match e with Arg w | Red _ w => w end.

Fixpoint wf_line (l : line) : Prop :=
  match l with
  | LEnd p _ => wf_pipe p
  | LSeq p _ l => wf_pipe p /\ wf_line l
  end
with wf_pipe (p : pipeline) : Prop :=
  match p with
  | POne e => wf_simple e
  | PBar e p => wf_simple e /\ wf_pipe p
  end
with wf_simple (e : simple) : Prop :=
  match e with
  | Words es => Forall (fun x => a_word (word_of x)) es /\ (length (filter (fun x => is_arg x = true) es) < MAXARGS)%nat
  | Block l rs => wf_line l /\ Forall (fun r => a_word (snd r)) rs
  end.

(** ** Reading tokens *)

Definition symbol_of (t : str) : option Z :=
  if bool_decide (t = bytes_of ">>") then Some tok_append
  else match t with [c] => if in_set symbols c then Some c else None | _ => None end.
Definition code (t : str) : Z := default tok_word (symbol_of t).
Definition is_token (t : str) : Prop := a_word t \/ is_Some (symbol_of t).

(** The tokens from position [s] on. *)
Definition at_ (b : str) (s : nat) (ts : list str) : Prop := (s <= length b)%nat /\ drop s b = render ts /\ Forall is_token ts.

Lemma symbol_cases t : is_Some (symbol_of t) -> t = bytes_of ">>" \/ exists c, t = [c] /\ in_set symbols c = true.
Proof.
  unfold symbol_of. case_bool_decide; [by left|]. destruct t as [|c [|d t]]; intros [x Hx]; try done.
  right. exists c. split; [done|]. by destruct (in_set symbols c).
Qed.

Lemma token_head t : is_token t -> exists c t', t = c :: t' /\ c <> 0 /\ is_ws c = false.
Proof.
  intros [[Hne Hw]|Hs].
  - destruct t as [|c t]; [done|]. apply Forall_cons in Hw as [[H0 Hw] _]. exists c, t. split; [done|]. split; [done|].
    unfold is_word in Hw. apply andb_prop in Hw as [Hw _]. by apply negb_true_iff in Hw.
  - apply symbol_cases in Hs as [->|(c & -> & Hc)]; [by exists 62, [62]|]. exists c, []. split; [done|].
    apply in_set_In in Hc. cbn in Hc. intuition (subst; done).
Qed.

Lemma at_ch b s t ts : at_ b s (t :: ts) -> exists c t', t = c :: t' /\ ch b s = c /\ c <> 0 /\ is_ws c = false.
Proof.
  intros (Hs & Hd & Ht). apply Forall_cons in Ht as [Ht _]. destruct (token_head t Ht) as (c & t' & -> & H0 & Hw).
  exists c, t'. split_and!; try done. unfold ch. rewrite <- (Nat.add_0_r s), <- nth_skipn. change (skipn s b) with (drop s b). by rewrite Hd.
Qed.

Lemma at_skip_ws b s ts : at_ b s ts -> skip is_ws b s = s.
Proof.
  intros Ha. pose proof Ha as (Hs & Hd & _). unfold skip. destruct ts as [|t ts].
  - rewrite Hd. cbn. lia.
  - destruct (at_ch b s t ts Ha) as (c & t' & -> & _ & _ & Hw). rewrite Hd.
    change (render ((c :: t') :: ts)) with (c :: (t' ++ [32]) ++ render ts). cbn [count_while]. rewrite Hw. lia.
Qed.

Lemma at_nil b s : at_ b s [] -> ch b s = 0 /\ s = length b.
Proof.
  intros (Hs & Hd & _). cbn in Hd. apply (f_equal length) in Hd. rewrite length_drop in Hd. cbn in Hd.
  split; [apply nth_overflow; lia|lia].
Qed.

Lemma at_next b s t ts : at_ b s (t :: ts) ->
  at_ b (s + length t + 1) ts /\ take (length t) (drop s b) = t /\ skip is_ws b (s + length t) = (s + length t + 1)%nat.
Proof.
  intros (Hs & Hd & Ht). apply Forall_cons in Ht as [Ht Hts].
  assert (drop (s + length t) b = 32 :: render ts) as Hd1.
  { rewrite <- drop_drop, Hd. change (render (t :: ts)) with ((t ++ [32]) ++ render ts). rewrite <- app_assoc. by rewrite drop_app_length. }
  assert (at_ b (s + length t + 1) ts) as Ha.
  { split; [|split; [|done]].
    - apply (f_equal length) in Hd1. rewrite length_drop in Hd1. cbn in Hd1. lia.
    - by rewrite <- drop_drop, Hd1. }
  split; [done|]. split.
  - rewrite Hd. change (render (t :: ts)) with ((t ++ [32]) ++ render ts). rewrite <- app_assoc. apply take_app_length.
  - pose proof (at_skip_ws _ _ _ Ha) as Hk. unfold skip in Hk |- *. rewrite Hd1. cbn [count_while]. change (is_ws 32) with true. cbv iota.
    rewrite <- drop_drop, Hd1 in Hk. change (drop 1 (32 :: render ts)) with (render ts) in Hk. lia.
Qed.

Lemma word_not_symbol c : is_word c = true -> in_set (bytes_of "|();&<") c = false /\ (c =? ch_gt) = false /\ in_set symbols c = false.
Proof.
  intros Hw. unfold is_word in Hw. apply andb_prop in Hw as [_ Hw]. apply negb_true_iff in Hw. split_and!; [| |done].
  - apply not_true_is_false. intros Hc. apply not_true_iff_false in Hw. apply Hw. apply in_set_In. apply in_set_In in Hc. cbn in Hc |- *. intuition auto.
  - apply Z.eqb_neq. intros ->. done.
Qed.

Lemma count_word t ts : Forall (fun c => c <> 0 /\ is_word c = true) t -> count_while is_word (t ++ 32 :: ts) = length t.
Proof. induction 1 as [|c t [_ Hc] _ IH]; [done|]. cbn [app count_while length]. by rewrite Hc, IH. Qed.

Lemma render_cons t ts : render (t :: ts) = t ++ 32 :: render ts.
Proof. unfold render. cbn. by rewrite <- app_assoc. Qed.

Lemma code_word t : a_word t -> code t = tok_word.
Proof.
  intros [Hne Hw]. unfold code, symbol_of. destruct t as [|c t]; [done|]. apply Forall_cons in Hw as [[_ Hc] _].
  destruct (word_not_symbol c Hc) as (_ & Hg & Hs). case_bool_decide as E; [injection E as -> _; done|].
  destruct t; [|done]. by rewrite Hs.
Qed.

Lemma gettoken_at b s t ts : at_ b s (t :: ts) -> gettoken b s = (code t, s, (s + length t)%nat, (s + length t + 1)%nat).
Proof.
  intros Ha. destruct (at_next b s t ts Ha) as (_ & _ & Hk). unfold gettoken. rewrite (at_skip_ws _ _ _ Ha).
  destruct (at_ch b s t ts Ha) as (c & t' & -> & Hc & H0 & Hw). rewrite Hc, (proj2 (Z.eqb_neq _ _) H0).
  pose proof Ha as (Hs & Hd & Ht). apply Forall_cons in Ht as [[Hword|Hsym] Hts].
  - rewrite (code_word _ Hword). destruct Hword as [_ Hword]. pose proof Hword as [[_ Hcw] _]%Forall_cons.
    destruct (word_not_symbol c Hcw) as (-> & -> & _). unfold skip at 1. rewrite Hd, render_cons, count_word by done.
    unfold skip. rewrite Hd, render_cons, count_word by done. fold (skip is_ws b (s + length (c :: t'))). by rewrite Hk.
  - assert (t' <> [] -> ch b (S s) = 62) as Hsec.
    { intros Hne. apply symbol_cases in Hsym as [[= -> ->]|(x & [= -> ->] & _)]; [|done].
      unfold ch. rewrite <- Nat.add_1_r, <- nth_skipn. change (skipn s b) with (drop s b). by rewrite Hd. }
    apply symbol_cases in Hsym as [[= -> ->]|(x & [= -> ->] & Hx)].
    + rewrite (Hsec ltac:(done)). assert (s + length (bytes_of ">>") = S (S s))%nat as EL by (cbn; lia).
      change (length [_; _]) with (length (bytes_of ">>")) in Hk |- *. rewrite EL in Hk |- *.
      change (in_set (bytes_of "|();&<") _) with false. cbv iota. change (_ =? ch_gt) with true. cbv iota. by rewrite Hk.
    + assert (ch b (S s) = 32) as H32.
      { unfold ch. rewrite <- Nat.add_1_r, <- nth_skipn. change (skipn s b) with (drop s b). by rewrite Hd. }
      rewrite H32. change (32 =? ch_gt) with false. cbv iota. cbn [length] in Hk |- *. rewrite Nat.add_1_r in Hk |- *.
      assert (code [x] = x) as -> by (unfold code, symbol_of; rewrite bool_decide_eq_false_2 by done; by rewrite Hx).
      destruct (in_set (bytes_of "|();&<") x) eqn:E1; [by rewrite Hk|].
      assert (x = ch_gt) as ->.
      { apply in_set_In in Hx. apply not_true_iff_false in E1. unfold ch_gt. cbn in Hx.
        destruct Hx as [Hx|[Hx|[Hx|[Hx|[Hx|[Hx|[Hx|[]]]]]]]]; rewrite <- Hx in E1 |- *; first [reflexivity | exfalso; apply E1; reflexivity]. }
      rewrite Z.eqb_refl. by rewrite Hk.
Qed.

Lemma peek_at b s t ts set : at_ b s (t :: ts) -> peek b s set = (in_set set (nth 0 t 0), s).
Proof.
  intros Ha. unfold peek. rewrite (at_skip_ws _ _ _ Ha). destruct (at_ch b s t ts Ha) as (c & t' & -> & -> & H0 & _).
  by rewrite (proj2 (Z.eqb_neq _ _) H0).
Qed.
Lemma peek_nil b s set : at_ b s [] -> peek b s set = (false, s).
Proof. intros Ha. unfold peek. rewrite (at_skip_ws _ _ _ Ha). by rewrite (proj1 (at_nil _ _ Ha)). Qed.
Lemma gettoken_nil b s : at_ b s [] -> gettoken b s = (0, s, s, s).
Proof. intros Ha. unfold gettoken. rewrite (at_skip_ws _ _ _ Ha), (proj1 (at_nil _ _ Ha)). cbn. by rewrite (at_skip_ws _ _ _ Ha). Qed.

(** No word starts like a symbol. *)
Lemma head_word t set : a_word t -> (forall c, In c set -> In c symbols) -> in_set set (nth 0 t 0) = false.
Proof.
  intros [Hne Hw] Hset. destruct t as [|c t]; [done|]. apply Forall_cons in Hw as [[_ Hc] _]. cbn.
  destruct (word_not_symbol c Hc) as (_ & _ & Hs). apply not_true_is_false. intros Hi%in_set_In%Hset%in_set_In. congruence.
Qed.

(** ** Parsing tokens *)

(** Unless the fuel ends, the parser reads the command [a] and stands at [rest]. *)
Definition reads (b : str) (r : parsed) (a : acmd) (rest : list str) : Prop :=
  r <> NoFuel -> exists c s, r = Parsed c s /\ view (text b) c = a /\ at_ b s rest.

Definition begins (rest : list str) (set : list str) : Prop := match rest with [] => True | t :: _ => In t set end.

Lemma reads_then b r a rest k a' rest' :
  reads b r a rest -> (forall c s, view (text b) c = a -> at_ b s rest -> reads b (k c s) a' rest') -> reads b (andthen r k) a' rest'.
Proof.
  intros Hr Hk Hn. destruct r as [c s| | |]; cbn in Hn |- *; try done.
  - destruct (Hr ltac:(done)) as (c' & s' & [= -> ->] & Hv & Ha). by apply (Hk c' s').
  - destruct (Hr ltac:(done)) as (c' & s' & ? & _). done.
  - destruct (Hr ltac:(done)) as (c' & s' & ? & _). done.
Qed.

Lemma text_at b s t ts : at_ b s (t :: ts) -> text b (s, (s + length t)%nat) = t.
Proof. intros Ha. unfold text. cbn. replace (s + length t - s)%nat with (length t) by lia. by destruct (at_next b s t ts Ha) as (_ & -> & _). Qed.

Lemma code_kind k : code (show_kind k) = match k with RIn => ch_lt | ROut => ch_gt | RApp => tok_append end.
Proof. by destruct k. Qed.
Lemma head_kind k : in_set (bytes_of "<>") (nth 0 (show_kind k) 0) = true.
Proof. by destruct k. Qed.

Definition show_redirs (rs : list (rkind * str)) : list str := concat (show_redir <$> rs).
Definition a_redirs (c : acmd) (rs : list (rkind * str)) : acmd := foldl (fun c r => a_redir c (fst r) (snd r)) c rs.

(** A token after which there is no redirection. *)
Definition no_redir (rest : list str) : Prop := match rest with [] => True | t :: _ => in_set (bytes_of "<>") (nth 0 t 0) = false end.

Lemma redirs_read b rest : no_redir rest -> forall rs fuel c s,
  Forall (fun r => a_word (snd r)) rs -> at_ b s (show_redirs rs ++ rest) ->
  reads b (parseredirs fuel c b s) (a_redirs (view (text b) c) rs) rest.
Proof.
  intros Hend. induction rs as [|[k w] rs IH]; intros fuel c s Hw Ha; (destruct fuel as [|f]; [by intros []|]); cbn [parseredirs].
  - cbn in Ha. destruct rest as [|t rest].
    + rewrite (peek_nil b s _ Ha). intros _. by exists c, s.
    + rewrite (peek_at b s t rest _ Ha). unfold no_redir in Hend. rewrite Hend. intros _. by exists c, s.
  - apply Forall_cons in Hw as [Hw Hws]. unfold show_redirs in Ha. cbn [fmap list_fmap concat show_redir fst snd app] in Ha.
    rewrite (peek_at _ _ _ _ _ Ha), head_kind, (gettoken_at _ _ _ _ Ha). destruct (at_next _ _ _ _ Ha) as (Ha1 & _ & _).
    rewrite (gettoken_at _ _ _ _ Ha1). destruct (at_next _ _ _ _ Ha1) as (Ha2 & _ & _). cbn [fst snd] in Hw.
    rewrite (code_word w Hw), Z.eqb_refl, code_kind. cbn [negb].
    set (s1 := (s + length (show_kind k) + 1)%nat) in *. pose proof (text_at _ _ _ _ Ha1) as Ht.
    cbn [a_redirs foldl fst snd]. fold (show_redirs rs) in Ha2. fold (a_redirs (a_redir (view (text b) c) k w) rs).
    destruct k; cbn [Z.eqb ch_lt ch_gt tok_append Pos.eqb a_redir];
      match goal with |- reads b (parseredirs f ?c' b _) _ _ => pose proof (IH f c' _ Hws Ha2) as HI end;
      unfold redircmd in HI |- *; cbn [view] in HI; rewrite Ht in HI; exact HI.
Qed.

Lemma view_add_arg b ret w : view (text b) (add_arg ret w) = a_arg (view (text b) ret) (text b w).
Proof. induction ret; cbn; try done; [by rewrite fmap_app|congruence]. Qed.

(** The redirections in front. *)
Fixpoint lead (es : list elem) : list (rkind * str) * list elem :=
  match es with
  | Red k w :: es' => let (rs, r) := lead es' in ((k, w) :: rs, r)
  | _ => ([], es)
  end.
Definition show_elems (es : list elem) : list str := concat (show_elem <$> es).
Definition nargs (es : list elem) : nat := length (filter (fun x => is_arg x = true) es).
Definition starts_arg (es : list elem) : Prop := match es with Red _ _ :: _ => False | _ => True end.

Lemma lead_facts es rs es' : lead es = (rs, es') ->
  show_elems es = show_redirs rs ++ show_elems es' /\ (forall c, foldl a_elem c es = foldl a_elem (a_redirs c rs) es') /\
  nargs es' = nargs es /\ starts_arg es' /\ (length es' <= length es)%nat /\
  (Forall (fun x => a_word (word_of x)) es -> Forall (fun r => a_word (snd r)) rs /\ Forall (fun x => a_word (word_of x)) es').
Proof.
  revert rs. induction es as [|[w|k w] es IH]; intros rs E; cbn [lead] in E.
  - injection E as <- <-. split_and!; done.
  - injection E as <- <-. split_and!; done.
  - destruct (lead es) as [rs1 r] eqn:E1. injection E as <- <-. destruct (IH rs1 eq_refl) as (H1 & H2 & H3 & H4 & H5 & H6).
    split_and!; try done.
    + unfold show_elems, show_redirs in *. cbn [fmap list_fmap concat show_elem]. by rewrite H1, <- app_assoc.
    + intros c. cbn [foldl a_elem]. by rewrite H2.
    + cbn. lia.
    + intros [Hw Hes]%Forall_cons. destruct (H6 Hes). split; [by constructor|done].
Qed.

Definition stops : list str := [bytes_of "|"; bytes_of ")"; bytes_of "&"; bytes_of ";"].

Lemma stop_peek t : In t stops -> in_set (bytes_of "|)&;") (nth 0 t 0) = true /\ in_set (bytes_of "<>") (nth 0 t 0) = false /\ in_set (bytes_of "(") (nth 0 t 0) = false.
Proof. cbn. intros [<-|[<-|[<-|[<-|[]]]]]; done. Qed.

Lemma elems_no_redir es rest : starts_arg es -> Forall (fun x => a_word (word_of x)) es -> begins rest stops -> no_redir (show_elems es ++ rest).
Proof.
  destruct es as [|[w|k w] es]; intros Hs Hw Hr; [|apply Forall_cons in Hw as [Hw _]|done].
  - destruct rest as [|t rest]; [done|]. by apply stop_peek.
  - unfold no_redir, show_elems. cbn [fmap list_fmap concat show_elem app]. apply head_word; [done|]. intros c Hc. cbn in Hc |- *. intuition auto.
Qed.

Lemma args_read b rest : begins rest stops -> forall n es fuel ret argc s,
  (length es <= n)%nat -> starts_arg es -> Forall (fun x => a_word (word_of x)) es -> (argc + nargs es < MAXARGS)%nat ->
  at_ b s (show_elems es ++ rest) ->
  reads b (parseargs fuel ret argc b s) (foldl a_elem (view (text b) ret) es) rest.
Proof.
  intros Hrest. induction n as [|n IH]; intros es fuel ret argc s Hn Hst Hw Hargs Ha;
    (destruct fuel as [|f]; [by intros []|]); cbn [parseargs]; rewrite (proj2 (Nat.leb_gt MAXARGS argc)) by lia.
  all: destruct es as [|[w|k w] es]; [| |done]; cbn [length] in Hn; try lia.
  1,2: cbn [show_elems fmap list_fmap concat app foldl] in *; destruct rest as [|t rest];
    [rewrite (peek_nil b s _ Ha), (gettoken_nil b s Ha); intros _; by exists ret, s
    |rewrite (peek_at b s t rest _ Ha), (proj1 (stop_peek t Hrest)); intros _; by exists ret, s].
  apply Forall_cons in Hw as [Hw Hes]. cbn [word_of] in Hw. unfold show_elems in Ha. cbn [fmap list_fmap concat show_elem app] in Ha.
  rewrite (peek_at _ _ _ _ _ Ha), (head_word w _ Hw) by (intros c Hc; cbn in Hc |- *; intuition auto).
  rewrite (gettoken_at _ _ _ _ Ha), (code_word w Hw). cbn [Z.eqb tok_word Pos.eqb negb].
  destruct (at_next _ _ _ _ Ha) as (Ha1 & _ & _). pose proof (text_at _ _ _ _ Ha) as Ht.
  unfold nargs in Hargs. rewrite filter_cons_True in Hargs by done. cbn [length] in Hargs. fold (nargs es) in Hargs.
  rewrite (proj2 (Nat.leb_gt MAXARGS (S argc))) by lia.
  destruct (lead es) as [rs es'] eqn:El. destruct (lead_facts es rs es' El) as (L1 & L2 & L3 & L4 & L5 & L6). destruct (L6 Hes) as [Hrs Hes'].
  fold (show_elems es) in Ha1. rewrite L1, <- app_assoc in Ha1. cbn [foldl a_elem]. rewrite L2.
  eapply reads_then; [eapply (redirs_read b (show_elems es' ++ rest)); [by apply elems_no_redir|exact Hrs|exact Ha1]|].
  rewrite view_add_arg, Ht. intros c s' <- Ha2. apply IH; try done; lia.
Qed.

Lemma begins_sub rest set set' : begins rest set -> (forall t, In t set -> In t set') -> begins rest set'.
Proof. destruct rest; cbn; auto. Qed.

(** [peek] for a single symbol in front of one of some tokens. *)
Lemma peek_begins b s rest set toks :
  at_ b s rest -> begins rest set -> (forall t, In t set -> in_set toks (nth 0 t 0) = false) -> peek b s toks = (false, s).
Proof.
  intros Ha Hb Hs. destruct rest as [|t rest]; [by apply peek_nil|]. rewrite (peek_at _ _ _ _ _ Ha). by rewrite Hs.
Qed.

Lemma back_read b rest set : begins rest set -> (forall t, In t set -> in_set (bytes_of "&") (nth 0 t 0) = false) -> forall n fuel c s,
  at_ b s (replicate n (bytes_of "&") ++ rest) -> reads b (parseback fuel c b s) (a_back n (view (text b) c)) rest.
Proof.
  intros Hr Hset. induction n as [|n IH]; intros fuel c s Ha; (destruct fuel as [|f]; [by intros []|]); cbn [parseback].
  - cbn in Ha. rewrite (peek_begins b s rest set _ Ha Hr Hset). intros _. by exists c, s.
  - cbn [replicate app] in Ha. rewrite (peek_at _ _ _ _ _ Ha). change (in_set (bytes_of "&") _) with true. cbv iota.
    rewrite (gettoken_at _ _ _ _ Ha). destruct (at_next _ _ _ _ Ha) as (Ha1 & _ & _). cbn [a_back]. exact (IH f (BACK c) _ Ha1).
Qed.

Definition line_ends : list str := [bytes_of ")"].
Definition pipe_ends : list str := [bytes_of ")"; bytes_of "&"; bytes_of ";"].

Definition reads_lines (b : str) (fuel : nat) : Prop := forall l s rest,
  wf_line l -> begins rest line_ends -> at_ b s (show_line l ++ rest) -> reads b (parseline fuel b s) (m_line l) rest.
Definition reads_pipes (b : str) (fuel : nat) : Prop := forall p s rest,
  wf_pipe p -> begins rest pipe_ends -> at_ b s (show_pipe p ++ rest) -> reads b (parsepipe fuel b s) (m_pipe p) rest.
Definition reads_simples (b : str) (fuel : nat) : Prop := forall e s rest,
  wf_simple e -> begins rest stops -> at_ b s (show_simple e ++ rest) -> reads b (parseexec fuel b s) (m_simple e) rest.
Definition reads_blocks (b : str) (fuel : nat) : Prop := forall l rs s rest,
  wf_simple (Block l rs) -> begins rest stops -> at_ b s (show_simple (Block l rs) ++ rest) ->
  reads b (parseblock fuel b s) (m_simple (Block l rs)) rest.

(** The pipeline of a line with its ampersands. *)
Lemma pipe_backs_read b f p n s rest set :
  reads_pipes b f -> wf_pipe p -> begins rest set -> (forall t, In t set -> In t pipe_ends) ->
  (forall t, In t set -> in_set (bytes_of "&") (nth 0 t 0) = false) ->
  at_ b s (show_pipe p ++ replicate n (bytes_of "&") ++ rest) ->
  reads b (andthen (parsepipe f b s) (fun c s => parseback f c b s)) (a_back n (m_pipe p)) rest.
Proof.
  intros HP Hp Hr Hsub Hset Ha. eapply reads_then; [eapply HP; [done| |exact Ha]|].
  - destruct n; cbn; [by eapply begins_sub|]. cbn. tauto.
  - intros c s1 <- Ha1. by eapply back_read.
Qed.

Lemma andthen_assoc r k k' : andthen (andthen r k) k' = andthen r (fun c s => andthen (k c s) k').
Proof. by destruct r. Qed.

Lemma line_step b f : reads_pipes b f -> reads_lines b f -> reads_lines b (S f).
Proof.
  intros HP HL l s rest Hl Hr Ha. cbn [parseline]. rewrite <- (andthen_assoc _ (fun c s => parseback f c b s)). destruct l as [p n|p n l].
  - cbn [show_line m_line wf_line] in *. rewrite <- app_assoc in Ha. eapply reads_then; [eapply pipe_backs_read; [done|done|exact Hr| | |exact Ha]|].
    + intros t Ht. cbn in Ht |- *. tauto.
    + intros t [<-|[]]. done.
    + intros c s1 <- Ha1. rewrite (peek_begins b s1 rest _ _ Ha1 Hr) by (intros t [<-|[]]; done). intros _. by exists c, s1.
  - cbn [show_line m_line wf_line] in *. destruct Hl as [Hp Hl]. rewrite <- !app_assoc in Ha. cbn [app] in Ha.
    eapply reads_then; [eapply (pipe_backs_read b f p n s _ [bytes_of ";"]); [done|done| | | |exact Ha]|].
    + by left.
    + intros t [<-|[]]. cbn. tauto.
    + intros t [<-|[]]. done.
    + intros c s1 <- Ha1. rewrite (peek_at _ _ _ _ _ Ha1). change (in_set (bytes_of ";") _) with true. cbv iota.
      rewrite (gettoken_at _ _ _ _ Ha1). destruct (at_next _ _ _ _ Ha1) as (Ha2 & _ & _).
      eapply reads_then; [by eapply HL|]. intros r s3 <- Ha3 _. by exists (LIST c r), s3.
Qed.

Lemma pipe_step b f : reads_simples b f -> reads_pipes b f -> reads_pipes b (S f).
Proof.
  intros HS HP p s rest Hp Hr Ha. cbn [parsepipe]. destruct p as [e|e p]; cbn [show_pipe m_pipe wf_pipe] in *.
  - eapply reads_then; [eapply HS; [done| |exact Ha]|].
    + eapply begins_sub; [exact Hr|]. intros t Ht. cbn in Ht |- *. tauto.
    + intros c s1 <- Ha1. rewrite (peek_begins b s1 rest _ _ Ha1 Hr) by (intros t [<-|[<-|[<-|[]]]]; done). intros _. by exists c, s1.
  - destruct Hp as [He Hp]. rewrite <- app_assoc in Ha. cbn [app] in Ha.
    eapply reads_then; [eapply HS; [done| |exact Ha]; by left|]. intros c s1 <- Ha1.
    rewrite (peek_at _ _ _ _ _ Ha1). change (in_set (bytes_of "|") _) with true. cbv iota.
    rewrite (gettoken_at _ _ _ _ Ha1). destruct (at_next _ _ _ _ Ha1) as (Ha2 & _ & _).
    eapply reads_then; [by eapply HP|]. intros r s3 <- Ha3 _. by exists (PIPE c r), s3.
Qed.

Lemma simple_step b f : reads_blocks b f -> reads_simples b (S f).
Proof.
  intros HB e s rest He Hr Ha. cbn [parseexec]. destruct e as [es|l rs].
  - cbn [wf_simple m_simple] in *. change (show_simple (Words es)) with (show_elems es) in Ha. destruct He as [Hw Hn].
    assert (peek b s (bytes_of "(") = (false, s)) as ->.
    { destruct es as [|[w|k w] es].
      - eapply peek_begins; [exact Ha|exact Hr|]. intros t Ht. by apply stop_peek.
      - apply Forall_cons in Hw as [Hw _]. unfold show_elems in Ha. cbn [fmap list_fmap concat show_elem app] in Ha.
        rewrite (peek_at _ _ _ _ _ Ha), (head_word w) by (done || (intros c Hc; cbn in Hc |- *; intuition auto)). done.
      - unfold show_elems in Ha. cbn [fmap list_fmap concat show_elem show_redir fst snd app] in Ha. rewrite (peek_at _ _ _ _ _ Ha). by destruct k. }
    destruct (lead es) as [rs es'] eqn:El. destruct (lead_facts es rs es' El) as (L1 & L2 & L3 & L4 & L5 & L6). destruct (L6 Hw) as [Hrs Hes'].
    rewrite L1, <- app_assoc in Ha. rewrite L2.
    eapply reads_then; [eapply (redirs_read b (show_elems es' ++ rest)); [by apply elems_no_redir|exact Hrs|exact Ha]|].
    intros c s1 Hv Ha1. change (view (text b) execcmd) with (AExec []) in Hv. rewrite <- Hv.
    apply (args_read b rest Hr (length es')); try done. unfold nargs in L3. cbn. unfold nargs. rewrite L3. done.
  - pose proof Ha as Ha'. cbn [show_simple app] in Ha'. rewrite (peek_at _ _ _ _ _ Ha'). change (in_set (bytes_of "(") _) with true. cbv iota.
    by apply HB.
Qed.

Lemma block_step b f : reads_lines b f -> reads_blocks b (S f).
Proof.
  intros HL l rs s rest [Hl Hrs] Hr Ha. cbn [parseblock]. cbn [show_simple app m_simple] in *.
  rewrite (peek_at _ _ _ _ _ Ha). change (in_set (bytes_of "(") _) with true. cbn [negb].
  rewrite (gettoken_at _ _ _ _ Ha). destruct (at_next _ _ _ _ Ha) as (Ha1 & _ & _). rewrite <- app_assoc in Ha1. cbn [app] in Ha1.
  eapply reads_then; [eapply HL; [done| |exact Ha1]; by left|]. intros c s1 <- Ha2.
  rewrite (peek_at _ _ _ _ _ Ha2). change (in_set (bytes_of ")") _) with true. cbn [negb].
  rewrite (gettoken_at _ _ _ _ Ha2). destruct (at_next _ _ _ _ Ha2) as (Ha3 & _ & _).
  apply redirs_read; [|done|exact Ha3]. destruct rest as [|t rest]; [done|]. by apply stop_peek.
Qed.

Lemma parser_reads b : forall fuel, reads_lines b fuel /\ reads_pipes b fuel /\ reads_simples b fuel /\ reads_blocks b fuel.
Proof.
  induction fuel as [|f (H1 & H2 & H3 & H4)]; [split_and!; intros ? *; by intros ? ? ? []|].
  split_and!; [by apply line_step|by apply pipe_step|by apply simple_step|by apply block_step].
Qed.

Scheme line_mut := Induction for line Sort Prop
  with pipeline_mut := Induction for pipeline Sort Prop
  with simple_mut := Induction for simple Sort Prop.
Combined Scheme grammar_mut from line_mut, pipeline_mut, simple_mut.

Lemma symbol_token c : in_set symbols c = true -> is_token [c].
Proof. intros H. right. unfold symbol_of. case_bool_decide; [by eexists|]. rewrite H. by eexists. Qed.
Lemma kind_token k : is_token (show_kind k).
Proof. destruct k; [by apply symbol_token|by apply symbol_token|]. right. by eexists. Qed.
Lemma redirs_tokens rs : Forall (fun r => a_word (snd r)) rs -> Forall is_token (show_redirs rs).
Proof. induction 1 as [|[k w] rs Hw _ IH]; [constructor|]. constructor; [apply kind_token|]. constructor; [by left|exact IH]. Qed.

Lemma show_tokens :
  (forall l, wf_line l -> Forall is_token (show_line l)) /\
  (forall p, wf_pipe p -> Forall is_token (show_pipe p)) /\
  (forall e, wf_simple e -> Forall is_token (show_simple e)).
Proof.
  assert (forall n, Forall is_token (replicate n (bytes_of "&"))) as Hrep by (intros n; apply Forall_replicate; by apply symbol_token).
  apply grammar_mut; cbn [show_line show_pipe show_simple wf_line wf_pipe wf_simple].
  - intros p IH n Hp. apply Forall_app; auto.
  - intros p IHp n l IHl [Hp Hl]. apply Forall_app; split; [auto|]. apply Forall_app; split; [done|]. constructor; [by apply symbol_token|auto].
  - auto.
  - intros e IHe p IHp [He Hp]. apply Forall_app; split; [auto|]. constructor; [by apply symbol_token|auto].
  - intros es [Hw _]. induction Hw as [|x es Hx _ IH]; [constructor|]. cbn [fmap list_fmap concat]. apply Forall_app. split; [|exact IH].
    destruct x as [w|k w]; cbn in Hx |- *; [by apply Forall_singleton; left|]. constructor; [apply kind_token|]. by apply Forall_singleton; left.
  - intros l IH rs [Hl Hrs]. constructor; [by apply symbol_token|]. apply Forall_app. split; [auto|].
    constructor; [by apply symbol_token|by apply redirs_tokens].
Qed.

Lemma render_no_nul ts : Forall is_token ts -> Forall (fun x => x <> 0) (render ts).
Proof.
  induction 1 as [|t ts Ht _ IH]; [constructor|]. rewrite render_cons. apply Forall_app. split; [|by constructor].
  destruct Ht as [[_ Hw]|Hs]; [eapply Forall_impl; [exact Hw|]; by intros ? []|].
  apply symbol_cases in Hs as [->|(c & -> & Hc)]; [by repeat constructor|]. constructor; [|done]. intros ->. done.
Qed.

Lemma view_ext g g' c : (forall w, w ∈ words c -> g w = g' w) -> view g c = view g' c.
Proof.
  induction c as [argv|c IH f m d|l IHl r IHr|l IHl r IHr|c IH]; intros H; cbn [view words] in *.
  - f_equal. apply list_fmap_ext. intros i w Hw. apply H. by eapply list_elem_of_lookup_2.
  - rewrite H by (by left). rewrite IH; [done|]. intros w Hw. apply H. by right.
  - rewrite IHl, IHr; [done| |]; intros w Hw; apply H, elem_of_app; auto.
  - rewrite IHl, IHr; [done| |]; intros w Hw; apply H, elem_of_app; auto.
  - by rewrite IH.
Qed.

Lemma parse_line l :
  wf_line l ->
  let b := render (show_line l) in
  exists c, (forall answers, parsecmd b answers = Goes (c, nulterminate c b) answers []) /\
    view (fun w => string_at (nulterminate c b) (fst w)) c = m_line l.
Proof.
  intros Hl b. pose proof (proj1 show_tokens l Hl) as Ht.
  assert (at_ b 0 (show_line l ++ [])) as Ha by (rewrite app_nil_r; split_and!; [lia|done|done]).
  destruct (parser_fine b (parse_fuel b) 0) as [HF _]; [lia|]. specialize (HF ltac:(unfold parse_fuel; lia)).
  destruct (proj1 (parser_reads b (parse_fuel b)) l 0%nat [] Hl I Ha) as (c & s & E & Hv & Hs).
  { intros E. by rewrite E in HF. }
  rewrite E in HF. destruct HF as [_ Hg]. exists c. split.
  - intros answers. unfold parsecmd. rewrite E, (peek_nil b s [] Hs). rewrite (proj2 (at_nil _ _ Hs)), Nat.eqb_refl. done.
  - rewrite <- Hv. apply view_ext. intros w Hw. apply string_of_word; [done|by apply render_no_nul|done].
Qed.


(** [( cat < a | wc ) > b & ; echo] *)
Definition line_example : line :=
  LSeq (POne (Block (LEnd (PBar (Words [Arg (bytes_of "cat"); Red RIn (bytes_of "a")]) (POne (Words [Arg (bytes_of "wc")]))) 0)
    [(ROut, bytes_of "b")])) 1 (LEnd (POne (Words [Arg (bytes_of "echo")])) 0).

