(* ===== verification/Shrun.v ===== *)
(** * What the shell does with a command

    [runcmd] (sh.c) moves descriptors around, forks and waits, until it
    execs a program.  Here the processes it makes are run against the
    descriptor tables the kernel keeps for them: [behave] answers the system
    calls of a process, and of the children it forks, the way user.h promises
    (the lowest free descriptor is taken, a child has a copy of the table),
    and yields the tree of what the processes do.  [launch] says what the
    tree of a command should be, without descriptors being moved: in a
    pipeline the left command has the pipe as its standard output, the right
    one as its standard input, and nobody else has it.

    [runcmd_launches] is the refinement, and [shell_runs] composes it with
    the parser: from the characters of a line to the programs that are
    started, with their arguments and descriptors. *)

From stdpp Require Import base numbers list strings gmap.
From S2P Require Import Prelude Kernel Console User Ulib Sh Shparse.

(** What a descriptor is open on; pipes have numbers. *)
Inductive desc :=
| Tty
| FileOf (path : str) (mode : Z)
| PipeRead (n : nat)
| PipeWrite (n : nat).

Notation table := (gmap Z desc).

(** param.h *)
Definition NOFILE : nat := 16.

(** The lowest descriptor that is not open. *)
Definition lowest (t : table) : option Z := head (filter (fun i => t !! i = None) (seqZ 0 (Z.of_nat NOFILE))).

(** What a process does until it is over: it execs a program with its table,
    exits, forks a child, waits, or writes. *)
Inductive deeds :=
| Execs (path : str) (argv : list str) (t : table)
| Exits
| Forks (child parent : deeds)
| Awaits (then_ : deeds)
| Writes (d : option desc) (bs : str) (then_ : deeds)
| Lost.

Section run.
(** Which programs can be executed, which files can be opened, and which of
    the calls of fork and pipe, counted through the tree, succeed. *)
Context (works : str -> bool) (opens : str -> Z -> bool) (grants : nat -> bool).

(** A program after an answer to its first call. *)
Definition after (m : P unit) (a : ans) : P unit := fun l =>
  match m (a :: l) with
  | Goes x l' tr => Goes x l' (tail tr)
  | Over tr => Over (tail tr)
  | Waits tr => Waits (tail tr)
  | Faults tr => Faults (tail tr)
  end.

Definition answer (r : Z) : ans := mkans r [].

Fixpoint behave (fuel : nat) (m : P unit) (t : table) (k : nat) : deeds * nat :=
  match fuel with
  | O => (Lost, k)
  | S n =>
      match m [] with
      | Over _ => (Exits, k)
      | Waits (c :: _) =>
          let next a t k := behave n (after m a) t k in
          match c with
          | CExec path argv => if works path then (Execs path argv t, k) else next (answer (-1)) t k
          | CFork =>
              if grants k then
                let '(child, k) := next (answer 0) t (S k) in
                let '(parent, k') := next (answer (Z.of_nat (S k))) t k in
                (Forks child parent, k')
              else next (answer (-1)) t (S k)
          | CWait => let '(d, k) := next (answer 1) t k in (Awaits d, k)
          | CPipe =>
              match (if grants k then lowest t else None) with
              | None => next (answer (-1)) t (S k)
              | Some p0 =>
                  let t' := <[p0 := PipeRead k]> t in
                  match lowest t' with
                  | None => next (answer (-1)) t (S k)
                  | Some p1 => next (mkans 0 [p0; p1]) (<[p1 := PipeWrite k]> t') (S k)
                  end
              end
          | CClose fd =>
              match t !! fd with
              | None => next (answer (-1)) t k
              | Some _ => next (answer 0) (delete fd t) k
              end
          | CDup fd =>
              match t !! fd, lowest t with
              | Some d, Some fd' => next (answer fd') (<[fd' := d]> t) k
              | _, _ => next (answer (-1)) t k
              end
          | COpen path mode =>
              match (if opens path mode then lowest t else None) with
              | None => next (answer (-1)) t k
              | Some fd => next (answer fd) (<[fd := FileOf path mode]> t) k
              end
          | CWrite fd bs => let '(d, k) := next (answer (Z.of_nat (length bs))) t k in (Writes (t !! fd) bs d, k)
          | _ => (Lost, k)
          end
      | _ => (Lost, k)
      end
  end.

(** ** What a command means *)

(** A message on descriptor 2, a character at a time, and then the end. *)
Definition complains (t : table) (msg : str) : deeds := foldr (fun c d => Writes (t !! 2) [u8 c] d) Exits msg.
Definition line_of (s : str) : str := s ++ [10].
Definition failed (what name : str) : str := what ++ name ++ bytes_of " failed" ++ [10].

Fixpoint launch (c : acmd) (t : table) (k : nat) : deeds * nat :=
  match c with
  | AExec [] => (Exits, k)
  | AExec (name :: args) =>
      (if works name then Execs name (name :: args) t else complains t (failed (bytes_of "exec ") name), k)
  | ARedir c file mode fd =>
      if opens file mode then launch c (<[fd := FileOf file mode]> t) k
      else (complains t (failed (bytes_of "open ") file), k)
  | APipe l r =>
      if negb (grants k) then (complains t (line_of (bytes_of "pipe")), S k) else
      if negb (grants (S k)) then (complains t (line_of (bytes_of "fork")), S (S k)) else
      let '(lhs, k1) := launch l (<[1 := PipeWrite k]> t) (S (S k)) in
      if negb (grants k1) then (Forks lhs (complains t (line_of (bytes_of "fork"))), S k1) else
      let '(rhs, k2) := launch r (<[0 := PipeRead k]> t) (S k1) in
      (Forks lhs (Forks rhs (Awaits (Awaits Exits))), k2)
  | AList l r =>
      if negb (grants k) then (complains t (line_of (bytes_of "fork")), S k) else
      let '(lhs, k1) := launch l t (S k) in
      let '(rhs, k2) := launch r t k1 in
      (Forks lhs (Awaits rhs), k2)
  | ABack c =>
      if negb (grants k) then (complains t (line_of (bytes_of "fork")), S k) else
      let '(child, k1) := launch c t (S k) in
      (Forks child Exits, k1)
  end.

(** The three standard descriptors are open, and two more can be. *)
Definition ready (t : table) : Prop :=
  is_Some (t !! 0) /\ is_Some (t !! 1) /\ is_Some (t !! 2) /\
  exists a b, 0 <= a < Z.of_nat NOFILE /\ 0 <= b < Z.of_nat NOFILE /\ a <> b /\ t !! a = None /\ t !! b = None.

(** Redirections are of descriptors 0 and 1. *)
Fixpoint standard (c : acmd) : Prop :=
  match c with
  | AExec _ => True
  | ARedir c _ _ fd => (fd = 0 \/ fd = 1) /\ standard c
  | APipe l r | AList l r => standard l /\ standard r
  | ABack c => standard c
  end.

(** With enough fuel, the process does this. *)
Definition does (m : P unit) (t : table) (k : nat) (r : deeds * nat) : Prop :=
  exists n, forall fuel, (n <= fuel)%nat -> behave fuel m t k = r.

(** ** One call at a time *)

Lemma behave_ext m m' : (forall l, m l = m' l) -> forall fuel t k, behave fuel m t k = behave fuel m' t k.
Proof.
  intros H fuel. revert m m' H. induction fuel as [|n IH]; intros m m' H t k; [done|]. cbn [behave]. rewrite (H []).
  assert (forall a t k, behave n (after m a) t k = behave n (after m' a) t k) as IH'.
  { intros a t' k'. apply IH. intros l. unfold after. by rewrite H. }
  destruct (m' []) as [| |[|c tr]|]; try done. destruct c; repeat (rewrite ?IH'; case_match); simplify_eq; try done.
Qed.
Lemma does_ext m m' t k r : (forall l, m l = m' l) -> does m t k r -> does m' t k r.
Proof. intros H [n Hn]. exists n. intros fuel Hf. rewrite <- (Hn fuel Hf). symmetry. by apply behave_ext. Qed.

Lemma after_scall c (f : Z -> P unit) a l : after (pbind (scall c) f) a l = f (retval a) l.
Proof. unfold after, pbind, scall, pbind, syscall. cbn. by destruct (f (retval a) l). Qed.
Lemma next_scall n c (f : Z -> P unit) a t k : behave n (after (pbind (scall c) f) a) t k = behave n (f (retval a)) t k.
Proof. apply behave_ext, after_scall. Qed.
Lemma next_pipe n (f : Z * (Z * Z) -> P unit) a t k :
  behave n (after (pbind pipe f) a) t k = behave n (f (retval a, (nth 0 (data a) 0, nth 1 (data a) 0))) t k.
Proof. apply behave_ext. intros l. unfold after, pbind, pipe, pbind, syscall. cbn. by destruct (f _ l). Qed.

(** A process that makes a call first. *)
Local Ltac first_call n :=
  exists (S n); intros [|fuel] Hf; [lia|]; cbn;
  unfold close, dup, open, wait, write, fork.

Lemma does_exit t k : does exit t k (Exits, k).
Proof. exists 1%nat. by intros [|fuel] Hf; [lia|]. Qed.
Lemma does_close fd f t k r : is_Some (t !! fd) -> does (f 0) (delete fd t) k r -> does (pbind (close fd) f) t k r.
Proof. intros [d Hd] [n H]. first_call n. rewrite Hd, next_scall. apply H. lia. Qed.
Lemma does_dup fd f t k r d fd' :
  t !! fd = Some d -> lowest t = Some fd' -> does (f fd') (<[fd' := d]> t) k r -> does (pbind (dup fd) f) t k r.
Proof. intros Hd Hl [n H]. first_call n. rewrite Hd, Hl, next_scall. apply H. lia. Qed.
Lemma does_open path mode f t k r fd :
  lowest t = Some fd ->
  (if opens path mode then does (f fd) (<[fd := FileOf path mode]> t) k r else does (f (-1)) t k r) ->
  does (pbind (open path mode) f) t k r.
Proof. intros Hl H. destruct (opens path mode) eqn:E; destruct H as [n H]; first_call n; rewrite E, ?Hl, next_scall; apply H; lia. Qed.
Lemma does_wait f t k d k' : does (f 1) t k (d, k') -> does (pbind wait f) t k (Awaits d, k').
Proof. intros [n H]. first_call n. rewrite next_scall, H by lia. done. Qed.
Lemma does_write fd bs f t k d k' :
  does (f (Z.of_nat (length bs))) t k (d, k') -> does (pbind (write fd bs) f) t k (Writes (t !! fd) bs d, k').
Proof. intros [n H]. first_call n. rewrite next_scall, H by lia. done. Qed.
Lemma does_exec path argv f t k r :
  (if works path then r = (Execs path argv t, k) else does (f (-1)) t k r) -> does (pbind (exec path argv) f) t k r.
Proof.
  intros H. destruct (works path) eqn:E.
  - exists 1%nat. intros [|fuel] Hf; [lia|]. cbn. by rewrite E.
  - destruct H as [n H]. first_call n. rewrite E, <- (H fuel) by lia. apply behave_ext. intros l.
    unfold after, pbind, exec. cbn. by destruct (f (-1) l).
Qed.
Lemma does_fork f t k c k1 p k2 :
  grants k = true -> does (f 0) t (S k) (c, k1) -> does (f (Z.of_nat (S k1))) t k1 (p, k2) ->
  does (pbind fork f) t k (Forks c p, k2).
Proof. intros Hg [n H] [n' H']. first_call (max n n'). rewrite Hg, !next_scall, H, next_scall by lia. cbn [retval answer]. by rewrite H' by lia. Qed.
Lemma does_fork_fails f t k r : grants k = false -> does (f (-1)) t (S k) r -> does (pbind fork f) t k r.
Proof. intros Hg [n H]. first_call n. rewrite Hg, next_scall. apply H. lia. Qed.
Lemma does_pipe f t k r p0 p1 :
  lowest t = Some p0 -> lowest (<[p0 := PipeRead k]> t) = Some p1 ->
  (if grants k then does (f (0, (p0, p1))) (<[p1 := PipeWrite k]> (<[p0 := PipeRead k]> t)) (S k) r
   else does (f (-1, (0, 0))) t (S k) r) -> does (pbind pipe f) t k r.
Proof. intros H0 H1 H. destruct (grants k) eqn:E; destruct H as [n H]; first_call n; rewrite E, ?H0, ?H1, next_pipe; apply H; lia. Qed.

(** ** Messages *)

Lemma does_puts msg f t k : does (f tt) t k (Exits, k) ->
  does (pbind (pfor msg (putc 2)) f) t k (complains t msg, k).
Proof.
  intros H. induction msg as [|c msg IH]; cbn [pfor complains foldr].
  - eapply does_ext; [intros l; symmetry; apply pbind_ret|done].
  - eapply does_ext; [|apply (does_write 2 [u8 c] (fun _ => pbind (pfor msg (putc 2)) f)), IH]. intros l. unfold putc. rewrite pbind_assoc, pbind_assoc. apply pbind_ext.
    intros z l'. by rewrite pbind_ret.
Qed.
Lemma does_printf fmt ap t k : Forall (fun c => 0 <= c < 256) fmt ->
  does (printf 2 fmt ap ;+ exit) t k (complains t (text_of fmt ap), k).
Proof.
  intros Hf. eapply does_ext; [|apply does_puts with (f := fun _ => exit), does_exit].
  intros l. apply pbind_ext_l. symmetry. by apply printf_text.
Qed.

(** ** Tables *)

Lemma lowest_Some t i : lowest t = Some i -> t !! i = None /\ 0 <= i < Z.of_nat NOFILE.
Proof.
  unfold lowest. destruct (filter _ _) as [|j l] eqn:E; [done|]. intros [= ->].
  assert (i ∈ filter (fun i => t !! i = None) (seqZ 0 (Z.of_nat NOFILE))) as Hi by (rewrite E; by left).
  apply list_elem_of_filter in Hi as [Hi Hr]. apply elem_of_seqZ in Hr. split; [done|lia].
Qed.
Lemma lowest_exists t i : t !! i = None -> 0 <= i < Z.of_nat NOFILE -> exists j, lowest t = Some j.
Proof.
  intros Hi Hr. unfold lowest. destruct (filter _ _) as [|j l] eqn:E; [|by exists j].
  assert (i ∈ filter (fun i => t !! i = None) (seqZ 0 (Z.of_nat NOFILE))) as Hin.
  { apply list_elem_of_filter. split; [done|]. apply elem_of_seqZ. lia. }
  rewrite E in Hin. by apply elem_of_nil in Hin.
Qed.
Lemma lowest_0 t : lowest (delete 0 t) = Some 0.
Proof. unfold lowest. change (seqZ 0 (Z.of_nat NOFILE)) with (0 :: seqZ 1 15). rewrite filter_cons_True by apply lookup_delete_eq. done. Qed.
Lemma lowest_1 t : is_Some (t !! 0) -> lowest (delete 1 t) = Some 1.
Proof.
  intros [d Hd]. unfold lowest. change (seqZ 0 (Z.of_nat NOFILE)) with (0 :: 1 :: seqZ 2 14).
  rewrite filter_cons_False by (by rewrite lookup_delete_ne, Hd). by rewrite filter_cons_True by apply lookup_delete_eq.
Qed.
Lemma ready_above t i : ready t -> t !! i = None -> i <> 0 /\ i <> 1 /\ i <> 2.
Proof. intros ([? E0] & [? E1] & [? E2] & _) Hi. split_and!; intros ->; congruence. Qed.

(** A pipe finds two descriptors. *)
Lemma ready_pipe t d : ready t -> exists p0 p1,
  lowest t = Some p0 /\ lowest (<[p0 := d]> t) = Some p1 /\ p0 <> p1 /\ t !! p0 = None /\ t !! p1 = None.
Proof.
  intros Hr. pose proof Hr as (_ & _ & _ & a & b & Ha & Hb & Hab & Ea & Eb).
  destruct (lowest_exists t a Ea Ha) as [p0 E0]. destruct (lowest_Some t p0 E0) as [F0 _].
  assert (exists c, c <> p0 /\ 0 <= c < Z.of_nat NOFILE /\ t !! c = None) as (c & Hc & Hcr & Ec).
  { destruct (decide (a = p0)) as [<-|Hn]; [by exists b|by exists a]. }
  destruct (lowest_exists (<[p0 := d]> t) c) as [p1 E1]; [by rewrite lookup_insert_ne|done|].
  destruct (lowest_Some _ p1 E1) as [F1 _]. exists p0, p1. apply lookup_insert_None in F1 as [F1 Hne]. done.
Qed.
Lemma ready_insert t i d : ready t -> i = 0 \/ i = 1 -> ready (<[i := d]> t).
Proof.
  intros Hr Hi. pose proof Hr as (H0 & H1 & H2 & a & b & Ha & Hb & Hab & Ea & Eb).
  pose proof (ready_above t a Hr Ea). pose proof (ready_above t b Hr Eb).
  split; [by apply lookup_insert_is_Some'; right|]. split; [by apply lookup_insert_is_Some'; right|].
  split; [by apply lookup_insert_is_Some'; right|]. exists a, b. rewrite !lookup_insert_ne by lia. done.
Qed.

(** ** The refinement *)

(** [runcmd] does not return. *)
Definition ends {A} (m : P A) : Prop := forall l a l' tr, m l <> Goes a l' tr.
Lemma ends_exit {A} : ends (exit (A := A)).
Proof. by intros l a l' tr. Qed.
Lemma ends_bind {A B} (m : P A) (f : A -> P B) : (forall a, ends (f a)) -> ends (pbind m f).
Proof. intros Hf l b l'' tr (a & l' & tr1 & tr2 & E1 & E2 & _)%pbind_inv. by apply Hf in E2. Qed.
Lemma ends_then (m f : P unit) l : ends m -> pbind m (fun _ => f) l = m l.
Proof. intros Hm. unfold pbind. destruct (m l) as [a l' tr| | |] eqn:E; [|done..]. by apply Hm in E. Qed.
Lemma runcmd_ends b c : ends (runcmd b c).
Proof.
  destruct c as [[|[q e] argv]|c f mode fd|l r|l r|c]; cbn [runcmd]; try apply ends_exit;
    repeat first [apply ends_exit | apply ends_bind; intros ? | case_match].
Qed.

Lemma does_panic {A} what (f : A -> P unit) t k : does (pbind (panic what) f) t k (complains t (line_of what), k).
Proof.
  unfold panic. eapply does_ext; [intros l; symmetry; apply pbind_assoc|].
  assert (line_of what = text_of (bytes_of "%s" ++ [10]) [AStr (Some what)]) as -> by done.
  apply (does_printf (bytes_of "%s" ++ [10])). cbn. repeat constructor; lia.
Qed.

(** A fork of the shell: in the child [fork1] returns 0, in the parent a pid. *)
Lemma does_fork1 (f : Z -> P unit) t k c k1 p k2 :
  grants k = true -> does (f 0) t (S k) (c, k1) -> does (f (Z.of_nat (S k1))) t k1 (p, k2) ->
  does (pbind fork1 f) t k (Forks c p, k2).
Proof.
  intros Hg Hc Hp. unfold fork1. eapply does_ext; [intros l; symmetry; apply pbind_assoc|]. eapply does_fork; [done| |].
  - eapply does_ext; [intros l; symmetry; apply pbind_ret|done].
  - rewrite (proj2 (Z.eqb_neq _ _)) by lia. eapply does_ext; [intros l; symmetry; apply pbind_ret|done].
Qed.
Lemma does_fork1_fails (f : Z -> P unit) t k :
  grants k = false -> does (pbind fork1 f) t k (complains t (line_of (bytes_of "fork")), S k).
Proof.
  intros Hg. unfold fork1. eapply does_ext; [intros l; symmetry; apply pbind_assoc|].
  apply does_fork_fails; [done|]. apply does_panic.
Qed.

(** The child of a fork runs a command and does not come back. *)
Lemma does_child b c (f : P unit) t k r : does (runcmd b c) t k r -> does (runcmd b c ;+ f) t k r.
Proof. apply does_ext. intros l. symmetry. apply ends_then, runcmd_ends. Qed.
Lemma does_skip (f : P unit) t k r : does f t k r -> does (pret tt ;+ f) t k r.
Proof. apply does_ext. intros l. symmetry. apply pbind_ret. Qed.
Lemma does_assoc {A B} (m : P A) (f : A -> P B) (g : B -> P unit) t k r :
  does (pbind m (fun a => pbind (f a) g)) t k r -> does (pbind (pbind m f) g) t k r.
Proof. apply does_ext. intros l. symmetry. apply pbind_assoc. Qed.

(** The four calls that make an end of a pipe descriptor 0 or 1. *)
Lemma does_plug fd from p0 p1 d0 d1 d b c f t k r :
  ready t -> fd = 0 \/ fd = 1 -> p0 <> p1 -> t !! p0 = None -> t !! p1 = None ->
  from = p0 /\ d = d0 \/ from = p1 /\ d = d1 ->
  does (runcmd b c) (<[fd := d]> t) k r ->
  does ((close fd ;+ dup from ;+ close p0 ;+ close p1 ;+ runcmd b c) ;+ f) (<[p1 := d1]> (<[p0 := d0]> t)) k r.
Proof.
  intros Hr Hfd Hne E0 E1 Hfrom H. pose proof (ready_above t p0 Hr E0). pose proof (ready_above t p1 Hr E1).
  pose proof Hr as (S0 & S1 & _).
  assert (forall i, i = 0 \/ i = 1 -> <[p1 := d1]> (<[p0 := d0]> t) !! i = t !! i) as Hlow.
  { intros i Hi. by rewrite !lookup_insert_ne by lia. }
  apply does_assoc, does_close. { rewrite Hlow by done. by destruct Hfd as [-> | ->]. }
  apply does_assoc, (does_dup from _ _ _ _ d fd).
  { rewrite lookup_delete_ne by (destruct Hfrom as [[-> _]|[-> _]]; lia).
    destruct Hfrom as [[-> ->]|[-> ->]]; [by rewrite lookup_insert_ne, lookup_insert_eq by done|by rewrite lookup_insert_eq]. }
  { destruct Hfd as [-> | ->]; [apply lowest_0|apply lowest_1]. by rewrite Hlow by auto. }
  apply does_assoc, does_close. { rewrite lookup_insert_ne, lookup_delete_ne, lookup_insert_ne, lookup_insert_eq by lia. done. }
  apply does_assoc, does_close. { rewrite lookup_delete_ne, lookup_insert_ne, lookup_delete_ne, lookup_insert_eq by lia. done. }
  apply does_child.
  assert (delete p1 (delete p0 (<[fd := d]> (delete fd (<[p1 := d1]> (<[p0 := d0]> t))))) = <[fd := d]> t) as ->; [|done].
  apply map_eq. intros i. destruct (decide (i = fd)) as [->|Hi].
  - by rewrite !lookup_delete_ne, !lookup_insert_eq by lia.
  - rewrite (lookup_insert_ne t) by done. destruct (decide (i = p1)) as [->|]; [by rewrite lookup_delete_eq|].
    rewrite lookup_delete_ne by done. destruct (decide (i = p0)) as [->|]; [by rewrite lookup_delete_eq|].
    by rewrite lookup_delete_ne, lookup_insert_ne, lookup_delete_ne, !lookup_insert_ne by done.
Qed.

Definition word_at (b : str) (w : nat * nat) : str := string_at b (fst w).

Lemma does_execcmd b argv t k : does (runcmd b (EXEC argv)) t k (launch (AExec (word_at b <$> argv)) t k).
Proof.
  destruct argv as [|[q e] argv]; cbn [runcmd launch fmap list_fmap]; [apply does_exit|]. apply does_exec.
  change (word_at b (q, e)) with (string_at b q). destruct (works (string_at b q)); [done|].
  set (w := string_at b q).
  assert (failed (bytes_of "exec ") w = text_of (bytes_of "exec %s failed" ++ [10]) [AStr (Some w)]) as -> by done.
  apply does_printf. cbn. repeat constructor; lia.
Qed.

Definition runs (b : str) (c : cmd) : Prop := forall t k,
  ready t -> does (runcmd b c) t k (launch (view (word_at b) c) t k).

Lemma redir_runs b c f mode fd : runs b c -> fd = 0 \/ fd = 1 -> runs b (REDIR c f mode fd).
Proof.
  intros IH Hfd t k Hr. pose proof Hr as (S0 & S1 & S2 & _). cbn [runcmd launch view].
  change (word_at b f) with (string_at b (fst f)). set (w := string_at b (fst f)).
  apply does_close; [by destruct Hfd as [-> | ->]|]. apply (does_open _ _ _ _ _ _ fd).
  { destruct Hfd as [-> | ->]; [apply lowest_0|by apply lowest_1]. }
  destruct (opens w mode).
  - rewrite (proj2 (Z.ltb_ge fd 0)) by lia. apply does_child. rewrite insert_delete_eq. apply IH. by apply ready_insert.
  - assert (failed (bytes_of "open ") w = text_of (bytes_of "open %s failed" ++ [10]) [AStr (Some w)]) as -> by done.
    assert (forall m, complains t m = complains (delete fd t) m) as ->.
    { intros m. unfold complains. by rewrite lookup_delete_ne by lia. }
    apply does_printf. cbn. repeat constructor; lia.
Qed.

Lemma list_runs b l r : runs b l -> runs b r -> runs b (LIST l r).
Proof.
  intros IHl IHr t k Hr. cbn [runcmd launch view]. destruct (grants k) eqn:G; cbn [negb]; [|by apply does_fork1_fails].
  pose proof (IHl t (S k) Hr) as Hl. destruct (launch _ t (S k)) as [lhs k1].
  pose proof (IHr t k1 Hr) as Hrt. destruct (launch _ t k1) as [rhs k2].
  eapply does_fork1; [done|by apply does_child|]. apply does_skip, does_wait. by apply does_child.
Qed.

Lemma back_runs b c : runs b c -> runs b (BACK c).
Proof.
  intros IH t k Hr. cbn [runcmd launch view]. destruct (grants k) eqn:G; cbn [negb]; [|by apply does_fork1_fails].
  pose proof (IH t (S k) Hr) as Hc. destruct (launch _ t (S k)) as [child k1].
  eapply does_fork1; [done|by apply does_child|]. apply does_skip, does_exit.
Qed.

Lemma pipe_runs b l r : runs b l -> runs b r -> runs b (PIPE l r).
Proof.
  intros IHl IHr t k Hr. cbn [runcmd launch view]. destruct (ready_pipe t (PipeRead k) Hr) as (p0 & p1 & L0 & L1 & Hne & E0 & E1).
  pose proof (ready_above t p0 Hr E0). pose proof (ready_above t p1 Hr E1).
  apply (does_pipe _ _ _ _ p0 p1 L0 L1). destruct (grants k) eqn:G; cbn [negb].
  2:{ change (-1 <? 0) with true. cbv iota. eapply does_ext; [|apply (does_panic (bytes_of "pipe") (fun _ : unit => exit))].
      intros l'. apply ends_then. unfold panic. apply ends_bind. intros _. apply ends_exit. }
  change (0 <? 0) with false. cbv iota.
  set (t' := <[p1 := PipeWrite k]> (<[p0 := PipeRead k]> t)).
  assert (forall m, complains t m = complains t' m) as Hcm.
  { intros m. unfold complains, t'. by rewrite !lookup_insert_ne by lia. }
  rewrite !Hcm. destruct (grants (S k)) eqn:G1; cbn [negb]; [|by apply does_fork1_fails].
  pose proof (IHl (<[1 := PipeWrite k]> t) (S (S k)) (ready_insert _ _ _ Hr ltac:(auto))) as Hl.
  destruct (launch _ _ (S (S k))) as [lhs k1].
  match goal with |- does (let+ pid := fork1 in _ ;+ ?rest) _ _ _ =>
    assert (forall r, does rest t' k1 r -> does (let+ pid := fork1 in
      (if pid =? 0 then close 1 ;+ dup p1 ;+ close p0 ;+ close p1 ;+ runcmd b l else pret tt) ;+ rest) t' (S k) (Forks lhs (fst r), snd r))
      as Hleft
  end.
  { intros [d k'] H'. eapply does_fork1; [done| |by apply does_skip]. eapply (does_plug 1 p1 p0 p1); eauto. }
  destruct (grants k1) eqn:G2; cbn [negb]; [|exact (Hleft _ (does_fork1_fails _ _ _ G2))].
  pose proof (IHr (<[0 := PipeRead k]> t) (S k1) (ready_insert t 0 _ Hr ltac:(auto))) as Hrt.
  destruct (launch _ _ (S k1)) as [rhs k2]. apply (Hleft (_, _)). eapply does_fork1; [done|eapply (does_plug 0 p0 p0 p1); eauto|].
  apply does_skip, does_close; [unfold t'; rewrite lookup_insert_ne, lookup_insert_eq by done; done|].
  apply does_close; [unfold t'; rewrite lookup_delete_ne, lookup_insert_eq by done; done|].
  apply does_wait, does_wait, does_exit.
Qed.

Lemma cmd_runs b c : standard (view (word_at b) c) -> runs b c.
Proof.
  induction c as [argv|c IH f mode fd|l IHl r IHr|l IHl r IHr|c IH]; cbn [view standard]; intros Hs.
  - intros t k _. apply does_execcmd.
  - apply redir_runs; tauto.
  - apply pipe_runs; tauto.
  - apply list_runs; tauto.
  - apply back_runs; tauto.
Qed.
End run.

(** The tables of the programs that are executed. *)
Fixpoint tables (d : deeds) : list table :=
  match d with
  | Execs _ _ t => [t]
  | Exits | Lost => []
  | Forks c p => tables c ++ tables p
  | Awaits d | Writes _ _ d => tables d
  end.

Lemma tables_complains t msg : tables (complains t msg) = [].
Proof. by induction msg. Qed.

(** Nothing but 0 and 1 is opened for a program. *)
Lemma launch_tables works opens grants c : forall t k,
  standard c -> is_Some (t !! 0) -> is_Some (t !! 1) ->
  Forall (fun t' => dom t' = dom t) (tables (fst (launch works opens grants c t k))).
Proof.
  assert (forall (t : table) i d, is_Some (t !! i) -> dom (<[i := d]> t) = dom t) as Hdom.
  { intros t i d Hi. apply dom_insert_lookup_L. done. }
  induction c as [[|w argv]|c IH f mode fd|l IHl r IHr|l IHl r IHr|c IH]; intros t k Hs S0 S1; cbn [launch standard] in *.
  - constructor.
  - cbn [fst]. destruct (works w); [by constructor|rewrite tables_complains; constructor].
  - destruct (opens f mode); [|cbn [fst tables]; rewrite tables_complains; constructor]. destruct Hs as [Hfd Hs].
    rewrite <- (Hdom t fd (FileOf f mode)) by (by destruct Hfd as [-> | ->]).
    apply IH; [done| |]; apply lookup_insert_is_Some'; by right.
  - destruct (grants k); cbn [negb]; [|cbn [fst tables]; rewrite tables_complains; constructor].
    destruct (grants (S k)); cbn [negb]; [|cbn [fst tables]; rewrite tables_complains; constructor]. destruct Hs as [Hl Hr].
    assert (is_Some (<[1 := PipeWrite k]> t !! 0) /\ is_Some (<[1 := PipeWrite k]> t !! 1) /\
      is_Some (<[0 := PipeRead k]> t !! 0) /\ is_Some (<[0 := PipeRead k]> t !! 1)) as (A & B & C & D).
    { rewrite !lookup_insert_is_Some'. auto. }
    pose proof (IHl _ (S (S k)) Hl A B) as Fl. rewrite (Hdom t 1 _ S1) in Fl. destruct (launch _ _ _ l _ _) as [lhs k1].
    destruct (grants k1); cbn [negb]; [|cbn [fst tables]; rewrite tables_complains, app_nil_r; done].
    pose proof (IHr _ (S k1) Hr C D) as Fr. rewrite (Hdom t 0 _ S0) in Fr. destruct (launch _ _ _ r _ _) as [rhs k2].
    cbn in *. rewrite app_nil_r. by apply Forall_app.
  - destruct (grants k); cbn [negb]; [|cbn [fst tables]; rewrite tables_complains; constructor]. destruct Hs as [Hl Hr].
    pose proof (IHl t (S k) Hl S0 S1) as Fl. destruct (launch _ _ _ l _ _) as [lhs k1].
    pose proof (IHr t k1 Hr S0 S1) as Fr. destruct (launch _ _ _ r _ _) as [rhs k2]. cbn in *. by apply Forall_app.
  - destruct (grants k); cbn [negb]; [|cbn [fst tables]; rewrite tables_complains; constructor].
    pose proof (IH t (S k) Hs S0 S1) as F. destruct (launch _ _ _ c _ _) as [child k1]. cbn in *. by rewrite app_nil_r.
Qed.

(** The commands of the grammar redirect 0 and 1 only. *)
Lemma standard_redir c k w : standard c -> standard (a_redir c k w).
Proof. destruct k; cbn; auto. Qed.
Lemma standard_arg c w : standard c -> standard (a_arg c w).
Proof. induction c; cbn; tauto. Qed.
Lemma standard_back n : forall c, standard c -> standard (a_back n c).
Proof. induction n as [|n IH]; intros c Hc; cbn [a_back]; [done|]. by apply IH. Qed.
Lemma standard_grammar :
  (forall l, standard (m_line l)) /\ (forall p, standard (m_pipe p)) /\ (forall e, standard (m_simple e)).
Proof.
  apply grammar_mut; cbn [m_line m_pipe m_simple standard]; intros.
  - by apply standard_back.
  - split; [by apply standard_back|done].
  - done.
  - done.
  - cut (forall c, standard c -> standard (foldl a_elem c es)); [intros H; by apply H|].
    induction es as [|[w|k w] es IH]; intros c Hc; cbn [foldl a_elem]; [done|by apply IH, standard_arg|by apply IH, standard_redir].
  - revert H. generalize (m_line l). induction rs as [|[k w] rs IH]; intros c Hc; cbn [foldl fst snd]; [done|by apply IH, standard_redir].
Qed.

(** sh.c: [runcmd], for every command whose redirections are of 0 and 1,
    with any outcome of exec, open, fork and pipe, does what the command
    means: the processes it makes end in the programs of the command, with
    their arguments and the descriptors [launch] gives them, with the waits
    and the messages in their places. *)
Theorem runcmd_launches works opens grants b c t k :
  ready t -> standard (view (word_at b) c) ->
  does works opens grants (runcmd b c) t k (launch works opens grants (view (word_at b) c) t k).
Proof. intros Hr Hs. by apply cmd_runs. Qed.


(** [cat a | wc > b] *)
Definition pipe_example : line :=
  LEnd (PBar (Words [Arg (bytes_of "cat"); Arg (bytes_of "a")]) (POne (Words [Arg (bytes_of "wc"); Red ROut (bytes_of "b")]))) 0.
Definition tty_table : table := <[0 := Tty]> (<[1 := Tty]> (<[2 := Tty]> ∅)).
Lemma tty_ready : ready tty_table.
Proof. split; [done|]. split; [done|]. split; [done|]. exists 3, 4. split; [by cbn|]. split; [by cbn|]. done. Qed.
Lemma pipe_example_wf : wf_line pipe_example.
Proof.
  cbn. repeat match goal with
    | |- _ /\ _ => split
    | |- Forall _ _ => constructor
    | |- a_word _ => split; [done|]
    end; cbn; try done; vm_compute; lia.
Qed.

Lemma runcmd_launches_witness :
  does (fun _ => true) (fun _ _ => false) (fun _ => true) (runcmd (bytes_of "b") (REDIR (EXEC []) (0, 1)%nat 513 1)) tty_table 0
    (complains tty_table (bytes_of "open b failed" ++ [10]), 0%nat).
Proof.
  apply (runcmd_launches (fun _ => true) (fun _ _ => false) (fun _ => true) (bytes_of "b") (REDIR (EXEC []) (0, 1)%nat 513 1)).
  - apply tty_ready.
  - cbn. auto.
Defined.

