(* ===== verification/Progs.v ===== *)
(** * The small user programs

    cat.c, wc.c, echo.c, kill.c, ln.c, mkdir.c, rm.c, ls.c, init.c, zombie.c,
    forktest.c and stressfs.c, as programs over the system calls of User.v.
    [argv] has the name of the program in front, as exec passes it. *)

From stdpp Require Import base numbers list strings gmap.
From S2P Require Import Prelude Kernel Console Kalloc Str User Ulib Sh.

Definition say (fd : Z) (s : str) : P unit := printf fd (s ++ [10]) [].

(** ** cat.c *)

Definition cat_body (fd : Z) (_ : unit) : P (unit + Z) :=
  let+ r := read fd 512 in
  let (n, d) := (r : Z * list Z) in
  if 0 <? n then
    let+ w := write 1 d in
    if negb (w =? n) then say 1 (bytes_of "cat: write error") ;+ exit else pret (inl tt)
  else pret (inr n).

Definition cat (fd : Z) : P unit :=
  let+ n := while (cat_body fd) tt in
  if n <? 0 then say 1 (bytes_of "cat: read error") ;+ exit else pret tt.

Definition cat_main (argv : list str) : P unit :=
  match tail argv with
  | [] => cat 0 ;+ exit
  | files =>
      pfor files (fun f =>
        let+ fd := open f 0 in
        if fd <? 0 then printf 1 (bytes_of "cat: cannot open %s" ++ [10]) [AStr (Some f)] ;+ exit else
        cat fd ;+ close fd ;+ pret tt) ;+
      exit
  end.

(** ** wc.c *)

Record counts := mkcounts { wl : Z; ww : Z; wc_c : Z; inword : bool }.

(** [strchr(" \r\t\n\v", c)] *)
Definition blank (c : Z) : bool := bool_decide (c ∈ [32; 13; 9; 10; 11]).

Definition wc_step (s : counts) (ch : Z) : counts :=
  let c := s32 (wc_c s + 1) in
  let l := if ch =? 10 then s32 (wl s + 1) else wl s in
  if blank ch then mkcounts l (ww s) c false
  else if negb (inword s) then mkcounts l (s32 (ww s + 1)) c true
  else mkcounts l (ww s) c (inword s).

Definition wc_body (fd : Z) (s : counts) : P (counts + (counts * Z)) :=
  let+ r := read fd 512 in
  let (n, d) := (r : Z * list Z) in
  pret (if 0 <? n then inl (foldl wc_step s d) else inr (s, n)).

Definition wc (fd : Z) (name : str) : P unit :=
  let+ r := while (wc_body fd) (mkcounts 0 0 0 false) in
  let (s, n) := (r : counts * Z) in
  if n <? 0 then say 1 (bytes_of "wc: read error") ;+ exit else
  printf 1 (bytes_of "%d %d %d %s" ++ [10]) [AInt (wl s); AInt (ww s); AInt (wc_c s); AStr (Some name)].

Definition wc_main (argv : list str) : P unit :=
  match tail argv with
  | [] => wc 0 [] ;+ exit
  | files =>
      pfor files (fun f =>
        let+ fd := open f 0 in
        if fd <? 0 then printf 1 (bytes_of "wc: cannot open %s" ++ [10]) [AStr (Some f)] ;+ exit else
        wc fd f ;+ close fd ;+ pret tt) ;+
      exit
  end.

(** ** echo.c, kill.c, ln.c, mkdir.c, rm.c *)

Fixpoint echo_args (args : list str) : P unit :=
  match args with
  | [] => pret tt
  | a :: args' =>
      printf 1 (bytes_of "%s%s") [AStr (Some a); AStr (Some (match args' with [] => [10] | _ => [32] end))] ;+
      echo_args args'
  end.
Definition echo_main (argv : list str) : P unit := echo_args (tail argv) ;+ exit.

(** [atoi] of an argument, which is a string in the memory of the program. *)
Definition atoi_arg (s : str) : Z := default 0 (atoi (S (length s)) (mput ∅ 0 (s ++ [0])) 0).
Definition kill_main (argv : list str) : P unit :=
  if (length argv <? 2)%nat then say 2 (bytes_of "usage: kill pid...") ;+ exit else
  pfor (tail argv) (fun a => kill (atoi_arg a) ;+ pret tt) ;+
  exit.

Definition ln_main (argv : list str) : P unit :=
  match argv with
  | [_; old; new] =>
      let+ r := link old new in
      (if r <? 0 then printf 2 (bytes_of "link %s %s: failed" ++ [10]) [AStr (Some old); AStr (Some new)] else pret tt) ;+
      exit
  | _ => say 2 (bytes_of "Usage: ln old new") ;+ exit
  end.

(** The loops with a [break]. *)
Fixpoint mkdir_args (args : list str) : P unit :=
  match args with
  | [] => pret tt
  | a :: args' =>
      let+ r := mkdir a in
      if r <? 0 then printf 2 (bytes_of "mkdir: %s failed to create" ++ [10]) [AStr (Some a)] else mkdir_args args'
  end.
Definition mkdir_main (argv : list str) : P unit :=
  if (length argv <? 2)%nat then say 2 (bytes_of "Usage: mkdir files...") ;+ exit else
  mkdir_args (tail argv) ;+ exit.

Fixpoint rm_args (args : list str) : P unit :=
  match args with
  | [] => pret tt
  | a :: args' =>
      let+ r := unlink a in
      if r <? 0 then printf 2 (bytes_of "rm: %s failed to delete" ++ [10]) [AStr (Some a)] else rm_args args'
  end.
Definition rm_main (argv : list str) : P unit :=
  if (length argv <? 2)%nat then say 2 (bytes_of "Usage: rm files...") ;+ exit else
  rm_args (tail argv) ;+ exit.

(** ** ls.c *)

Definition T_DIR : Z := 1.
Definition T_FILE : Z := 2.
Definition DIRSIZ : nat := 14.

(** The characters after the last slash. *)
Fixpoint last_part (path : str) : str :=
  match path with
  | [] => []
  | c :: path' => if bool_decide (47 ∈ path') then last_part path' else if c =? 47 then path' else path
  end.
Definition fmtname (path : str) : str :=
  let p := last_part path in
  if (DIRSIZ <=? length p)%nat then p else p ++ replicate (DIRSIZ - length p) 32.

Definition ls_line (name : str) (st : stat_t) : P unit :=
  printf 1 (bytes_of "%s %d %d %d" ++ [10]) [AStr (Some name); AInt (st_type st); AInt (st_ino st); AInt (st_size st)].

(** An entry is an inode number of two bytes and a name of [DIRSIZ]. *)
Definition ls_entry (path : str) (fd : Z) (_ : unit) : P (unit + unit) :=
  let+ r := read fd 16 in
  let (n, de) := (r : Z * list Z) in
  if negb (n =? 16) then pret (inr tt) else
  if nth 0 de 0 + 256 * nth 1 de 0 =? 0 then pret (inl tt) else
  let buf := path ++ [47] ++ upto_nul (drop 2 de) in
  let+ r := stat buf in
  let (res, st) := (r : Z * stat_t) in
  (if res <? 0 then printf 1 (bytes_of "ls: cannot stat %s" ++ [10]) [AStr (Some buf)]
   else ls_line (fmtname buf) st) ;+
  pret (inl tt).

Definition ls (path : str) : P unit :=
  let+ fd := open path 0 in
  if fd <? 0 then printf 2 (bytes_of "ls: cannot open %s" ++ [10]) [AStr (Some path)] else
  let+ r := fstat fd in
  let (res, st) := (r : Z * stat_t) in
  if res <? 0 then printf 2 (bytes_of "ls: cannot stat %s" ++ [10]) [AStr (Some path)] ;+ close fd ;+ pret tt else
  (if st_type st =? T_FILE then ls_line (fmtname path) st
   else if st_type st =? T_DIR then
     if (512 <? length path + 1 + DIRSIZ + 1)%nat then say 1 (bytes_of "ls: path too long")
     else while (ls_entry path fd) tt
   else pret tt) ;+
  close fd ;+
  pret tt.

Definition ls_main (argv : list str) : P unit :=
  if (length argv <? 2)%nat then ls (bytes_of ".") ;+ exit else
  pfor (tail argv) ls ;+ exit.

(** ** init.c and zombie.c *)

(** [while((wpid=wait()) >= 0 && wpid != pid)] *)
Definition reap (pid : Z) (_ : unit) : P (unit + unit) :=
  let+ wpid := wait in
  if (0 <=? wpid) && negb (wpid =? pid) then say 1 (bytes_of "zombie!") ;+ pret (inl tt) else pret (inr tt).

Definition init_round (_ : unit) : P (unit + unit) :=
  say 1 (bytes_of "init: starting sh") ;+
  let+ pid := fork in
  if pid <? 0 then say 1 (bytes_of "init: fork failed") ;+ exit else
  (if pid =? 0 then
     exec (bytes_of "sh") [bytes_of "sh"] ;+ say 1 (bytes_of "init: exec sh failed") ;+ exit
   else pret tt) ;+
  while (reap pid) tt ;+
  pret (inl tt).

Definition init_main : P unit :=
  let+ r := open (bytes_of "console") O_RDWR in
  (if r <? 0 then mknod (bytes_of "console") 1 1 ;+ open (bytes_of "console") O_RDWR ;+ pret tt else pret tt) ;+
  dup 0 ;+
  dup 0 ;+
  while init_round tt.

Definition zombie_main : P unit :=
  let+ pid := fork in
  (if 0 <? pid then sleep 5 ;+ pret tt else pret tt) ;+
  exit.

(** ** forktest.c and stressfs.c *)

Definition forktest_N : nat := 1000.
Definition forktest_printf (fd : Z) (s : str) : P unit := write fd s ;+ pret tt.

(** The first loop, from [n] on with [left] rounds to go; the result is the
    [n] after it. *)
Fixpoint fork_loop (left n : nat) : P nat :=
  match left with
  | O => pret n
  | S left' =>
      let+ pid := fork in
      if pid <? 0 then pret n
      else if pid =? 0 then exit
      else fork_loop left' (S n)
  end.
Fixpoint wait_loop (n : nat) : P unit :=
  match n with
  | O => pret tt
  | S n' =>
      let+ r := wait in
      if r <? 0 then forktest_printf 1 (bytes_of "wait stopped early" ++ [10]) ;+ exit else wait_loop n'
  end.
Definition forktest : P unit :=
  forktest_printf 1 (bytes_of "fork test" ++ [10]) ;+
  let+ n := fork_loop forktest_N 0 in
  if (n =? forktest_N)%nat then forktest_printf 1 (bytes_of "fork claimed to work N times!" ++ [10]) ;+ exit else
  wait_loop n ;+
  let+ r := wait in
  if negb (r =? -1) then forktest_printf 1 (bytes_of "wait got too many" ++ [10]) ;+ exit else
  forktest_printf 1 (bytes_of "fork test OK" ++ [10]).
Definition forktest_main : P unit := forktest ;+ exit.

(** The parent leaves the loop, the child goes on. *)
Fixpoint stress_forks (left : nat) (i : Z) : P Z :=
  match left with
  | O => pret i
  | S left' => let+ pid := fork in if 0 <? pid then pret i else stress_forks left' (i + 1)
  end.
Definition stressfs_main : P unit :=
  say 1 (bytes_of "stressfs starting") ;+
  let data := replicate 512 97 in
  let+ i := stress_forks 4 0 in
  printf 1 (bytes_of "write %d" ++ [10]) [AInt i] ;+
  let path := bytes_of "stressfs" ++ [48 + i] in
  let+ fd := open path (Z.lor O_CREATE O_RDWR) in
  pfor (replicate 20 tt) (fun _ => write fd data ;+ pret tt) ;+
  close fd ;+
  say 1 (bytes_of "read") ;+
  let+ fd := open path O_RDONLY in
  pfor (replicate 20 tt) (fun _ => read fd 512 ;+ pret tt) ;+
  close fd ;+
  wait ;+
  exit.

(** ** Reading a file in pieces *)

(** What [read] returns for a file that comes in these pieces. *)
Definition piece (d : str) : ans := mkans (Z.of_nat (length d)) d.
Definition pieces_ok (cs : list str) : Prop := Forall (fun d => d <> [] /\ (length d <= 512)%nat) cs.

Lemma read_piece {A} fd d (k : Z * list Z -> P A) l : (length d <= 512)%nat ->
  pbind (read fd 512) k (piece d :: l) =
    match k (Z.of_nat (length d), d) l with
    | Goes a l' tr => Goes a l' (CRead fd 512 :: tr)
    | Over tr => Over (CRead fd 512 :: tr)
    | Waits tr => Waits (CRead fd 512 :: tr)
    | Faults tr => Faults (CRead fd 512 :: tr)
    end.
Proof.
  intros Hd. rewrite (pbind_goes _ _ _ (Z.of_nat (length d), d) l [CRead fd 512]); [done|].
  unfold read, pbind, syscall, pret, piece. cbn [retval data]. rewrite (proj2 (Z.ltb_ge _ 0)) by lia.
  rewrite take_ge by (change (Z.to_nat 512) with 512%nat; lia). done.
Qed.

Lemma cat_body_consumes fd s : consumes (cat_body fd s).
Proof.
  apply consumes_bind; [auto with prog|]. intros [n d]. destruct (0 <? n); [|auto with prog].
  apply shrinks_bind; [unfold write; auto with prog|]. intros w. destruct (negb _); [|auto with prog].
  apply shrinks_bind; [apply shrinks_printf|auto with prog].
Qed.

(** What happens on a copy of the pieces. *)
Definition cat_feed (cs : list str) : list ans := concat ((fun d => [piece d; mkans (Z.of_nat (length d)) []]) <$> cs).
Definition cat_trace (fd : Z) (cs : list str) : list call := concat ((fun d => [CRead fd 512; CWrite 1 d]) <$> cs).

Lemma cat_loop fd l : forall cs, pieces_ok cs ->
  while (cat_body fd) tt (cat_feed cs ++ piece [] :: l) = Goes 0 l (cat_trace fd cs ++ [CRead fd 512]).
Proof.
  induction cs as [|d cs IH]; intros Hc; rewrite while_unfold by apply cat_body_consumes; unfold cat_body at 1.
  - cbn [cat_feed fmap list_fmap concat app]. rewrite pbind_assoc. rewrite read_piece by (cbn; lia).
    change (0 <? Z.of_nat (length [])) with false. cbv iota. by rewrite pbind_ret.
  - apply Forall_cons in Hc as [[Hd Hl] Hc]. change (cat_feed (d :: cs) ++ piece [] :: l) with
      (piece d :: mkans (Z.of_nat (length d)) [] :: (cat_feed cs ++ piece [] :: l)).
    rewrite pbind_assoc, read_piece by done. rewrite (proj2 (Z.ltb_lt 0 _)) by (destruct d; [done|cbn; lia]).
    rewrite pbind_assoc. unfold write, scall. rewrite pbind_assoc.
    rewrite (pbind_goes _ _ _ (mkans (Z.of_nat (length d)) []) (cat_feed cs ++ piece [] :: l) [CWrite 1 d]) by done.
    rewrite pbind_ret. cbn [retval]. rewrite Z.eqb_refl. cbn [negb]. rewrite pbind_ret, (IH Hc). reflexivity.
Qed.

(** The bytes written to a descriptor. *)
Definition output (fd : Z) (tr : list call) : str :=
  concat ((fun c => match c with CWrite fd' bs => if fd' =? fd then bs else [] | _ => [] end) <$> tr).

(** cat.c: a file that comes in pieces of at most 512 bytes, whatever the
    pieces are, is written to descriptor 1 in order and completely, when the
    writes take all they are given; then [cat] returns. *)
Theorem cat_copies fd cs l :
  pieces_ok cs ->
  exists tr, cat fd (cat_feed cs ++ piece [] :: l) = Goes tt l tr /\ output 1 tr = concat cs.
Proof.
  intros Hc. exists (cat_trace fd cs ++ [CRead fd 512]). split.
  - unfold cat. rewrite (pbind_goes _ _ _ _ _ _ (cat_loop fd l cs Hc)). cbn. by rewrite app_nil_r.
  - clear Hc. unfold output, cat_trace. rewrite fmap_app, concat_app. cbn. rewrite app_nil_r.
    induction cs as [|d cs IH]; [done|]. cbn in *. by rewrite IH.
Qed.

Lemma cat_copies_witness :
  exists tr, cat 3 (cat_feed [bytes_of "ab"; bytes_of "c"] ++ piece [] :: []) = Goes tt [] tr /\ output 1 tr = bytes_of "abc".
Proof. apply (cat_copies 3 [bytes_of "ab"; bytes_of "c"] []). repeat constructor; cbn; try done; lia. Defined.

(** ** wc *)

(** The position is the first of a word. *)
Definition word_start (b : str) (i : nat) : bool :=
  negb (blank (nth i b 32)) && (match i with O => true | S j => blank (nth j b 32) end).
Definition words_in (b : str) : nat := length (List.filter (word_start b) (seq 0 (length b))).
Definition lines_in (b : str) : nat := length (List.filter (Z.eqb 10) b).

Lemma word_start_app b c i : (i < length b)%nat -> word_start (b ++ [c]) i = word_start b i.
Proof. intros Hi. unfold word_start. rewrite app_nth1 by done. destruct i as [|j]; [done|]. by rewrite app_nth1 by lia. Qed.

Definition after_blank (b : str) : bool := blank (List.last b 32).
Lemma words_in_snoc b c : words_in (b ++ [c]) = (words_in b + (if negb (blank c) && after_blank b then 1 else 0))%nat.
Proof.
  unfold words_in. rewrite length_app. cbn [length]. rewrite Nat.add_1_r, seq_S, List.filter_app, length_app. f_equal.
  - f_equal. apply filter_ext_in. intros i Hi%in_seq. apply word_start_app. lia.
  - cbn [List.filter Nat.add]. assert (word_start (b ++ [c]) (length b) = negb (blank c) && after_blank b) as ->; [|by destruct (_ && _)].
    unfold word_start, after_blank. rewrite app_nth2, Nat.sub_diag by lia. cbn [nth]. f_equal.
    destruct b as [|x b _] using rev_ind; [done|]. rewrite last_last, length_app, Nat.add_1_r, app_nth1 by (rewrite length_app; cbn; lia).
    by rewrite app_nth2, Nat.sub_diag by lia.
Qed.
Lemma lines_in_snoc b c : lines_in (b ++ [c]) = (lines_in b + (if (c =? 10)%Z then 1 else 0))%nat.
Proof. unfold lines_in. rewrite List.filter_app, length_app. cbn [List.filter]. rewrite (Z.eqb_sym 10 c). by destruct (c =? 10). Qed.

(** What the counters are after some input. *)
Definition counted (b : str) : counts :=
  mkcounts (Z.of_nat (lines_in b)) (Z.of_nat (words_in b)) (Z.of_nat (length b)) (negb (after_blank b)).

Lemma words_in_le b : (words_in b <= length b)%nat.
Proof. unfold words_in. etrans; [apply filter_length_le|]. by rewrite length_seq. Qed.
Lemma lines_in_le b : (lines_in b <= length b)%nat.
Proof. apply filter_length_le. Qed.

Lemma wc_steps d : forall b, Z.of_nat (length (b ++ d)) < 2147483648 -> foldl wc_step (counted b) d = counted (b ++ d).
Proof.
  induction d as [|c d IH]; intros b Hl; [by rewrite app_nil_r|]. cbn [foldl].
  replace (b ++ c :: d) with ((b ++ [c]) ++ d) in Hl |- * by (by rewrite <- app_assoc). rewrite <- (IH _ Hl). f_equal.
  rewrite !length_app in Hl. cbn in Hl. pose proof (words_in_le b). pose proof (lines_in_le b).
  unfold wc_step, counted. cbn [wc_c wl ww inword]. rewrite negb_involutive, words_in_snoc, lines_in_snoc, length_app. cbn [length].
  assert (after_blank (b ++ [c]) = blank c) as -> by (unfold after_blank; by rewrite last_last).
  destruct (c =? 10), (blank c), (after_blank b); cbn [negb andb]; rewrite ?s32_small by lia; f_equal; lia.
Qed.

Lemma wc_body_consumes fd s : consumes (wc_body fd s).
Proof. apply consumes_bind; [auto with prog|]. intros [n d]. auto with prog. Qed.

Lemma wc_loop fd l : forall cs b, pieces_ok cs -> Z.of_nat (length (b ++ concat cs)) < 2147483648 ->
  while (wc_body fd) (counted b) ((piece <$> cs) ++ piece [] :: l) =
    Goes (counted (b ++ concat cs), 0) l (replicate (S (length cs)) (CRead fd 512)).
Proof.
  induction cs as [|d cs IH]; intros b Hc Hl; rewrite while_unfold by apply wc_body_consumes; unfold wc_body at 1;
    rewrite pbind_assoc; cbn [fmap list_fmap app].
  - rewrite read_piece by (cbn; lia). change (0 <? Z.of_nat (length [])) with false. cbv iota. rewrite pbind_ret. cbn [concat].
    by rewrite app_nil_r.
  - apply Forall_cons in Hc as [[Hd Hle] Hc]. cbn [concat] in Hl |- *. rewrite app_assoc in Hl |- *.
    rewrite read_piece by done. rewrite (proj2 (Z.ltb_lt 0 _)) by (destruct d; [done|cbn; lia]). rewrite pbind_ret.
    rewrite wc_steps by (rewrite length_app in Hl; lia). rewrite (IH _ Hc Hl). done.
Qed.

Definition count_text (b name : str) : str :=
  text_of (bytes_of "%d %d %d %s" ++ [10])
    [AInt (Z.of_nat (lines_in b)); AInt (Z.of_nat (words_in b)); AInt (Z.of_nat (length b)); AStr (Some name)].

(** C29: wc.c: for a file of less than 2^31 bytes that comes in pieces of at
    most 512, [wc] prints the number of newlines, of words and of bytes of
    the whole file: a word that is cut by the end of a piece is counted once,
    as the positions where a word starts show. *)
Theorem wc_counts fd name cs l :
  pieces_ok cs -> Z.of_nat (length (concat cs)) < 2147483648 -> (length (count_text (concat cs) name) <= length l)%nat ->
  wc fd name ((piece <$> cs) ++ piece [] :: l) =
    Goes tt (drop (length (count_text (concat cs) name)) l)
      (replicate (S (length cs)) (CRead fd 512) ++ ((fun c => CWrite 1 [u8 c]) <$> count_text (concat cs) name)).
Proof.
  intros Hc Hl Hn. unfold wc. change (mkcounts 0 0 0 false) with (counted []).
  rewrite (pbind_goes _ _ _ _ _ _ (wc_loop fd l cs [] Hc Hl)). change (0 <? 0) with false. cbv iota. cbn [app counted wl ww wc_c].
  rewrite printf_text by (cbn; repeat constructor; lia). fold (count_text (concat cs) name). by rewrite puts_goes.
Qed.

(** The word bc comes in two pieces. *)
Lemma wc_counts_witness :
  wc 3 (bytes_of "f") ([piece (bytes_of "a b"); piece (bytes_of "c" ++ [10]); piece []] ++ replicate 8 (mkans 1 [])) =
    Goes tt [] (replicate 3 (CRead 3 512) ++ ((fun c => CWrite 1 [c]) <$> bytes_of "1 2 5 f" ++ [10])).
Proof.
  refine (eq_trans (wc_counts 3 (bytes_of "f") [bytes_of "a b"; bytes_of "c" ++ [10]] (replicate 8 (mkans 1 [])) _ _ _) _).
  - repeat constructor; cbn; try done; lia.
  - reflexivity.
  - apply Nat.leb_le. vm_compute. reflexivity.
  - vm_compute. reflexivity.
Defined.
