(* ===== verification/Vm.v ===== *)
(** * vm.c: page tables

    Page directories and page tables are pages of physical memory, read
    and written through their kernel addresses as in the source.  An
    address the kernel holds in a pointer is a kernel virtual address;
    [V2P] of it is where the byte is in [phys].  [loaduvm] is in Exec.v,
    with the inode layer it reads from. *)

From stdpp Require Import base numbers list gmap strings.
From S2P Require Import Prelude Kernel Spinlock Sched Kalloc Console Umem Str.

Definition kread32 (a : Z) : M Z := gets (fun s => load32 (phys s) (V2P a)).
Definition kwrite32 (a v : Z) : M unit := modify (fun s => set_phys (store32 (phys s) (V2P a) v) s).
Definition kmemset (a c n : Z) : M unit := modify (fun s => set_phys (mset (phys s) (V2P a) c n) s).
Definition kmemmove (d a n : Z) : M unit :=
  modify (fun s => set_phys (memmove (phys s) (V2P d) (V2P a) n) s).
(** [memmove] from a kernel object that is not in [phys]. *)
Definition kput (a : Z) (bs : list Z) : M unit := modify (fun s => set_phys (mput (phys s) (V2P a) bs) s).

Definition NPDENTRIES : nat := 1024.
Definition PGADDR (d t o : Z) : Z := u32 (Z.lor (Z.lor (Z.shiftl d 22) (Z.shiftl t 12)) o).
Definition EXTMEM : Z := 1048576.
Definition KERNLINK : Z := u32 (KERNBASE + EXTMEM).
Definition DEVSPACE : Z := 4261412864.

(** [&cpus[cpunum()]], the local storage and the segments of this CPU. *)
Definition seginit `{Link} : M unit :=
  let! c := gets kcpu in
  mod_segs (fun g => set_gdt (<[Z.to_nat SEG_KCODE := SEG (Z.lor STA_X STA_R) 0 4294967295 0]> (gdt g)) g) ;;
  mod_segs (fun g => set_gdt (<[Z.to_nat SEG_KDATA := SEG STA_W 0 4294967295 0]> (gdt g)) g) ;;
  mod_segs (fun g => set_gdt (<[Z.to_nat SEG_UCODE := SEG (Z.lor STA_X STA_R) 0 4294967295 DPL_USER]> (gdt g)) g) ;;
  mod_segs (fun g => set_gdt (<[Z.to_nat SEG_UDATA := SEG STA_W 0 4294967295 DPL_USER]> (gdt g)) g) ;;
  mod_segs (fun g => set_gdt (<[Z.to_nat SEG_KCPU := SEG STA_W (cpu_local c) 8 0]> (gdt g)) g) ;;
  mod_segs (set_gdtr (cpu_gdt c, 56)) ;;
  mod_segs (set_gs (Z.shiftl SEG_KCPU 3)) ;;
  mod_cpu (set_curproc None).

(** The kernel address of the entry, 0 if there is none. *)
Definition walkpgdir (pgdir va : Z) (alloc : bool) : M Z :=
  let pde := u32 (pgdir + 4 * PDX va) in
  let! e := kread32 pde in
  if negb (Z.land e PTE_P =? 0) then ret (u32 (P2V (PTE_ADDR e) + 4 * PTX va)) else
  if negb alloc then ret 0 else
  let! pgtab := kalloc in
  if pgtab =? 0 then ret 0 else
  kmemset pgtab 0 PGSIZE ;;
  kwrite32 pde (Z.lor (Z.lor (Z.lor (V2P pgtab) PTE_P) PTE_W) PTE_U) ;;
  ret (u32 (pgtab + 4 * PTX va)).

(** From [a] to [last] inclusive, a page at a time: the bound is the exact
    number of pages, counted with wrap-around as the loop does. *)
Definition map_page (pgdir last perm : Z) (x : Z * Z) : M (Z * Z + Z) :=
  let (a, pa) := x in
  let! pte := walkpgdir pgdir a true in
  if pte =? 0 then ret (inr (-1)) else
  let! e := kread32 pte in
  if negb (Z.land e PTE_P =? 0) then panic "remap" else
  kwrite32 pte (Z.lor (Z.lor pa perm) PTE_P) ;;
  if a =? last then ret (inr 0)
  else ret (inl (u32 (a + PGSIZE), u32 (pa + PGSIZE))).

Definition mappages (pgdir va size pa perm : Z) : M Z :=
  let first := PGROUNDDOWN va in
  let last := PGROUNDDOWN (u32 (va + size - 1)) in
  loop_n (S (Z.to_nat (u32 (last - first) / PGSIZE))) (map_page pgdir last perm) (first, pa).

(** [kmap]: virtual address, physical start and end, permissions. *)
Record kmapent := mkkmap { k_virt : Z; k_start : Z; k_end : Z; k_perm : Z }.
Definition kmap `{Link} : list kmapent :=
  [ mkkmap KERNBASE 0 EXTMEM PTE_W;
    mkkmap KERNLINK (V2P KERNLINK) (V2P a_data) 0;
    mkkmap a_data (V2P a_data) PHYSTOP PTE_W;
    mkkmap DEVSPACE DEVSPACE 0 PTE_W ].

Fixpoint setupkvm_loop (pgdir : Z) (ks : list kmapent) : M Z :=
  match ks with
  | [] => ret pgdir
  | k :: ks' =>
      let! r := mappages pgdir (k_virt k) (u32 (k_end k - k_start k)) (k_start k) (k_perm k) in
      if r <? 0 then ret 0 else setupkvm_loop pgdir ks'
  end.

Definition setupkvm `{Link} : M Z :=
  let! pgdir := kalloc in
  if pgdir =? 0 then ret 0 else
  kmemset pgdir 0 PGSIZE ;;
  if DEVSPACE <? P2V PHYSTOP then panic "PHYSTOP too high" else
  setupkvm_loop pgdir kmap.

Definition kvmalloc `{Link} : M unit :=
  let! k := setupkvm in
  modify (set_kpgdir k) ;;
  switchkvm.

(** [init] is the program, its length [sz].  [userinit] calls this with
    the kernel's page table, which has no page 0, so that storing through
    a null [mem] faults. *)
Definition inituvm (pgdir : Z) (init : list Z) : M unit :=
  if PGSIZE <=? Z.of_nat (length init) then panic "inituvm: more than a page" else
  let! mem := kalloc in
  if mem =? 0 then panic "trap" else
  kmemset mem 0 PGSIZE ;;
  let! _ := mappages pgdir 0 PGSIZE (V2P mem) (Z.lor PTE_W PTE_U) in
  kput mem init.

(** The bound is the number of pages below [oldsz]. *)
Definition unmap_page `{Link} (pgdir oldsz newsz a : Z) : M (Z + Z) :=
  if negb (a <? oldsz) then ret (inr newsz) else
  let! pte := walkpgdir pgdir a false in
  if pte =? 0 then ret (inl (u32 (u32 (PGADDR (PDX a + 1) 0 0 - PGSIZE) + PGSIZE))) else
  let! e := kread32 pte in
  if Z.land e PTE_P =? 0 then ret (inl (u32 (a + PGSIZE))) else
  let pa := PTE_ADDR e in
  if pa =? 0 then panic "kfree" else
  kfree (P2V pa) ;;
  kwrite32 pte 0 ;;
  ret (inl (u32 (a + PGSIZE))).

Definition deallocuvm `{Link} (pgdir oldsz newsz : Z) : M Z :=
  if oldsz <=? newsz then ret oldsz else
  loop_n (S (S (Z.to_nat (oldsz / PGSIZE)))) (unmap_page pgdir oldsz newsz) (PGROUNDUP newsz).

Definition allocuvm `{Link} (pgdir oldsz newsz : Z) : M Z :=
  if KERNBASE <=? newsz then ret 0 else
  if newsz <? oldsz then ret oldsz else
  loop_n (S (S (Z.to_nat (newsz / PGSIZE))))
    (fun a =>
      if negb (a <? newsz) then ret (inr newsz) else
      let! mem := kalloc in
      if mem =? 0 then
        cprintf (bytes_of "allocuvm out of memory" ++ [ch_newline]) [] ;;
        let! _ := deallocuvm pgdir newsz oldsz in
        ret (inr 0)
      else
      kmemset mem 0 PGSIZE ;;
      let! r := mappages pgdir a PGSIZE (V2P mem) (Z.lor PTE_W PTE_U) in
      if r <? 0 then
        cprintf (bytes_of "allocuvm out of memory (2)" ++ [ch_newline]) [] ;;
        let! _ := deallocuvm pgdir newsz oldsz in
        kfree mem ;;
        ret (inr 0)
      else ret (inl (u32 (a + PGSIZE))))
    (PGROUNDUP oldsz).

Definition free_tab `{Link} (pgdir i : Z) : M unit :=
  let! e := kread32 (u32 (pgdir + 4 * i)) in
  when (negb (Z.land e PTE_P =? 0)) (kfree (P2V (PTE_ADDR e))).

Definition freevm `{Link} (pgdir : Z) : M unit :=
  if pgdir =? 0 then panic "freevm: no pgdir" else
  let! _ := deallocuvm pgdir KERNBASE 0 in
  for_each (seqZ 0 (Z.of_nat NPDENTRIES)) (free_tab pgdir) ;;
  kfree pgdir.

Definition clearpteu (pgdir uva : Z) : M unit :=
  let! pte := walkpgdir pgdir uva false in
  if pte =? 0 then panic "clearpteu" else
  let! e := kread32 pte in
  kwrite32 pte (Z.land e (u32 (Z.lnot PTE_U))).

Definition copy_page `{Link} (pgdir sz d i : Z) : M (Z + Z) :=
  if negb (i <? sz) then ret (inr d) else
  let! pte := walkpgdir pgdir i false in
  if pte =? 0 then panic "copyuvm: pte should exist" else
  let! e := kread32 pte in
  if Z.land e PTE_P =? 0 then panic "copyuvm: page not present" else
  let pa := PTE_ADDR e in
  let flags := PTE_FLAGS e in
  let! mem := kalloc in
  if mem =? 0 then freevm d ;; ret (inr 0) else
  kmemmove mem (P2V pa) PGSIZE ;;
  let! r := mappages d i PGSIZE (V2P mem) flags in
  if r <? 0 then freevm d ;; ret (inr 0) else
  ret (inl (u32 (i + PGSIZE))).

Definition copyuvm `{Link} (pgdir sz : Z) : M Z :=
  let! d := setupkvm in
  if d =? 0 then ret 0 else
  loop_n (S (S (Z.to_nat (sz / PGSIZE)))) (copy_page pgdir sz d) 0.

(** A null [pte] is dereferenced: the kernel then reads the word at
    address 0 of the current address space. *)
Definition uva2ka (pgdir uva : Z) : M Z :=
  let! pte := walkpgdir pgdir uva false in
  let! e := (if pte =? 0 then uload32 0 else kread32 pte) in
  if Z.land e PTE_P =? 0 then ret 0 else
  if Z.land e PTE_U =? 0 then ret 0 else
  ret (P2V (PTE_ADDR e)).

(** The [len] bytes at [p] are the list; every iteration copies at least
    one byte. *)
Definition copyout (pgdir va : Z) (bs : list Z) : M Z :=
  loop_n (S (length bs))
    (fun '(va, bs) =>
      let len := Z.of_nat (length bs) in
      if len =? 0 then ret (inr 0) else
      let va0 := PGROUNDDOWN va in
      let! pa0 := uva2ka pgdir va0 in
      if pa0 =? 0 then ret (inr (-1)) else
      let n := Z.min (PGSIZE - (va - va0)) len in
      kput (u32 (pa0 + (va - va0))) (take (Z.to_nat n) bs) ;;
      ret (inl (u32 (va0 + PGSIZE), drop (Z.to_nat n) bs)))
    (va, bs).
