(* ===== verification/Vmspace.v ===== *)
(** * Address spaces: what the functions of vm.c do

    A page directory with its page tables stands for a finite map from
    virtual pages to entries ([space]); next to the free list it makes a
    [world].  The functions of Vm.v are shown to operate on these maps,
    keeping page tables, frames and free pages apart. *)

From stdpp Require Import base numbers list gmap strings.
From S2P Require Import Prelude Kernel Spinlock Sched Kalloc Console Umem Str Vm.

(** ** Page tables as finite maps

    [E] maps the numbers of the virtual pages that are present to their
    entries, [tabs] the indices of the page directory that are in use to
    the kernel addresses of their page tables. *)

Section Spaces.
Context {LK : Link}.

Definition NVPN : Z := 1048576.
Definition USERVPN : Z := 524288.

Definition pte_word (m : gmap Z Z) (tabs : gmap Z Z) (n : Z) : Z :=
  match tabs !! (n / 1024) with
  | Some t => load32 m (V2P t + 4 * (n mod 1024))
  | None => 0
  end.

(** The page an entry refers to, by its kernel address. *)
Definition frame_of (e : Z) : Z := P2V (PTE_ADDR e).

(** The pages an address space is made of. *)
Inductive label := LDir | LTab (d : Z) | LFrame (n : Z).
#[export] Instance label_eq_dec : EqDecision label.
Proof. solve_decision. Defined.
Definition pg (pgd : Z) (tabs E : gmap Z Z) (x : label) : option Z :=
  match x with
  | LDir => Some pgd
  | LTab d => tabs !! d
  | LFrame n => if n <? USERVPN then frame_of <$> E !! n else None
  end.

Record space (m : gmap Z Z) (pgd : Z) (tabs E : gmap Z Z) : Prop := {
  sp_dir : good_page pgd;
  sp_tab : forall d t, tabs !! d = Some t -> 0 <= d < 1024 /\ good_page t;
  sp_pde : forall d, 0 <= d < 1024 -> load32 m (V2P pgd + 4 * d) =
    match tabs !! d with Some t => V2P t + 7 | None => 0 end;
  sp_pte : forall n, 0 <= n < NVPN -> pte_word m tabs n = default 0 (E !! n);
  sp_ent : forall n e, E !! n = Some e ->
    0 <= n < NVPN /\ 0 <= e < 4294967296 /\ Z.land e PTE_P <> 0 /\
    (n < USERVPN -> good_page (frame_of e));
  sp_inj : forall x y v, pg pgd tabs E x = Some v -> pg pgd tabs E y = Some v -> x = y;
}.

(** Together with the free list [l], which none of its pages is on. *)
Record world (s : kst) (l : list Z) (pgd : Z) (tabs E : gmap Z Z) : Prop := {
  w_ready : kmem_ready s;
  w_free : fl_rep s l;
  w_space : space (phys s) pgd tabs E;
  w_apart : forall x v, pg pgd tabs E x = Some v -> v ∉ l;
}.

(** What changes is the memory, the free list and the interrupt flags
    that every use of the allocator's lock leaves behind. *)
Definition mem_rel (s s' : kst) : Prop :=
  exists m fl c, s' = set_freelist fl (set_phys m (set_kcpu c s)) /\ (c = kcpu s \/ c = kmem_cpu s).

Definition same_page (m m' : gmap Z Z) (v : Z) : Prop :=
  forall x, V2P v <= x < V2P v + PGSIZE -> mget m' x = mget m x.

(** Pages other than page tables and pages that were free are kept. *)
Definition kept (l : list Z) (pgd : Z) (tabs : gmap Z Z) (m m' : gmap Z Z) : Prop :=
  forall v, good_page v -> v ∉ l -> v <> pgd -> (forall d, tabs !! d <> Some v) -> same_page m m' v.

Lemma mem_rel_refl s : mem_rel s s.
Proof. exists (phys s), (freelist s), (kcpu s). split; [by destruct s|by left]. Qed.

Lemma kmem_cpu_idem s m fl c :
  c = kcpu s \/ c = kmem_cpu s -> kmem_cpu (set_freelist fl (set_phys m (set_kcpu c s))) = kmem_cpu s.
Proof.
  unfold kmem_cpu. cbn. destruct (use_lock s); [|by intros [->| ->]].
  intros [->| ->]; [done|apply crit_idem].
Qed.

Lemma mem_rel_trans s1 s2 s3 : mem_rel s1 s2 -> mem_rel s2 s3 -> mem_rel s1 s3.
Proof.
  intros (m & fl & c & -> & Hc) (m' & fl' & c' & -> & Hc').
  rewrite (kmem_cpu_idem _ _ _ _ Hc) in Hc'. exists m', fl', c'. split; [done|].
  cbn in Hc'. destruct Hc' as [-> | ->]; [done|by right].
Qed.

Lemma mem_rel_phys s m : mem_rel s (set_phys m s).
Proof. exists m, (freelist s), (kcpu s). split; [by destruct s|by left]. Qed.

Lemma mem_rel_ready s s' : mem_rel s s' -> kmem_ready s -> kmem_ready s'.
Proof.
  intros (m & fl & c & -> & [-> | ->]) [H1 H2]; [done|]. split; [done|]. cbn.
  unfold kmem_cpu. destruct (use_lock s); [by apply wf_crit|done].
Qed.

(** Indices. *)
Lemma PDX_vpn va : 0 <= va < 4294967296 -> PDX va = va / 4096 / 1024.
Proof.
  intros H. unfold PDX. change 1023 with (Z.ones 10).
  rewrite Z.land_ones, Z.shiftr_div_pow2 by lia. change (2 ^ 10) with 1024. change (2 ^ 22) with 4194304.
  Z.div_mod_to_equations. lia.
Qed.
Lemma PTX_vpn va : 0 <= va < 4294967296 -> PTX va = (va / 4096) mod 1024.
Proof.
  intros H. unfold PTX. change 1023 with (Z.ones 10).
  rewrite Z.land_ones, Z.shiftr_div_pow2 by lia. done.
Qed.
Lemma PDX_range va : 0 <= PDX va < 1024.
Proof.
  unfold PDX. change 1023 with (Z.ones 10). rewrite Z.land_ones by lia. apply Z.mod_pos_bound. done.
Qed.
Lemma PTX_range va : 0 <= PTX va < 1024.
Proof.
  unfold PTX. change 1023 with (Z.ones 10). rewrite Z.land_ones by lia. apply Z.mod_pos_bound. done.
Qed.

Lemma V2P_word v k : good_page v -> 0 <= k < 1024 ->
  V2P (u32 (v + 4 * k)) = V2P v + 4 * k /\ u32 (v + 4 * k) <> 0.
Proof.
  intros Hg Hk. rewrite (V2P_good v Hg). destruct Hg as (Ha & _ & Hv).
  unfold V2P, KERNBASE, PHYSTOP, PGSIZE in *. rewrite (u32_small (v + 4 * k)) by lia.
  rewrite u32_small by lia. lia.
Qed.

Lemma u32_pg v k : good_page v -> 0 <= k < 4096 -> u32 (v + k) = v + k.
Proof. intros (_ & _ & Hv) Hk. apply u32_small. unfold KERNBASE, PHYSTOP in *. lia. Qed.

(** The words and bytes of different pages are different. *)
Lemma V2P_apart v w : good_page v -> good_page w -> v <> w ->
  V2P v + PGSIZE <= V2P w \/ V2P w + PGSIZE <= V2P v.
Proof.
  intros Hv Hw Hne. rewrite !V2P_good by done. pose proof (pages_apart v w Hv Hw Hne). lia.
Qed.

(** An entry is the address of a page plus its flags. *)
Lemma pte_parts x f :
  x mod 4096 = 0 -> 0 <= x < 4294967296 -> 0 <= f < 4096 ->
  Z.lor x f = x + f /\ PTE_ADDR (x + f) = x /\ PTE_FLAGS (x + f) = f /\
  Z.land (x + f) PTE_P = Z.land f PTE_P.
Proof.
  intros Hx Hr Hf. split_and!.
  - replace x with (Z.shiftl (x / 4096) 12) at 1.
    + rewrite lor_high by (change (2 ^ 12) with 4096; lia). change (2 ^ 12) with 4096. Z.div_mod_to_equations. lia.
    + rewrite Z.shiftl_mul_pow2 by lia. change (2 ^ 12) with 4096. Z.div_mod_to_equations. lia.
  - unfold PTE_ADDR. change (u32 (Z.lnot 4095)) with 4294963200.
    rewrite land_page_mask; Z.div_mod_to_equations; lia.
  - unfold PTE_FLAGS. change 4095 with (Z.ones 12). rewrite Z.land_ones by lia. change (2 ^ 12) with 4096.
    Z.div_mod_to_equations. lia.
  - unfold PTE_P. change 1 with (Z.ones 1). rewrite !Z.land_ones by lia. change (2 ^ 1) with 2.
    Z.div_mod_to_equations. lia.
Qed.

Lemma V2P_aligned v : good_page v -> V2P v mod 4096 = 0 /\ 0 <= V2P v < PHYSTOP.
Proof.
  intros Hg. rewrite (V2P_good v Hg). destruct Hg as (Ha & _ & Hv). unfold KERNBASE, PGSIZE in *.
  split; [|lia]. Z.div_mod_to_equations. lia.
Qed.

Lemma P2V_V2P v : good_page v -> P2V (V2P v) = v.
Proof.
  intros Hg. rewrite (V2P_good v Hg). destruct Hg as (_ & _ & Hv). unfold P2V, KERNBASE, PHYSTOP in *.
  rewrite u32_small; lia.
Qed.

Lemma good_entry t f : good_page t -> 0 <= f < 4096 ->
  Z.lor (V2P t) f = V2P t + f /\ frame_of (V2P t + f) = t /\ PTE_FLAGS (V2P t + f) = f /\
  Z.land (V2P t + f) PTE_P = Z.land f PTE_P /\ 0 <= V2P t + f < 4294967296.
Proof.
  intros Hg Hf. destruct (V2P_aligned t Hg) as [Ha Hr]. unfold PHYSTOP in *.
  destruct (pte_parts (V2P t) f) as (H1 & H2 & H3 & H4); [done|lia|done|].
  unfold frame_of. rewrite H2, P2V_V2P by done. split_and!; try done; lia.
Qed.

Lemma good_pde t : good_page t ->
  (Z.land (V2P t + 7) PTE_P =? 0) = false /\ frame_of (V2P t + 7) = t /\
  Z.lor (Z.lor (Z.lor (V2P t) PTE_P) PTE_W) PTE_U = V2P t + 7.
Proof.
  intros Hg. destruct (good_entry t 7 Hg) as (H1 & H2 & H3 & H4 & _); [lia|].
  split_and!; [by rewrite H4|done|]. rewrite <- !Z.lor_assoc. done.
Qed.

(** ** Walking *)

Lemma walkpgdir_found s pgd tabs E va t al env :
  space (phys s) pgd tabs E -> tabs !! PDX va = Some t ->
  walkpgdir pgd va al env s = Ok (t + 4 * PTX va) s env.
Proof.
  intros Hsp Ht. destruct (sp_tab _ _ _ _ Hsp _ _ Ht) as [Hd Hg]. pose proof (PTX_range va) as Hx.
  pose proof (PDX_range va) as Hp. unfold walkpgdir, kread32. rewrite bind_gets.
  rewrite (proj1 (V2P_word pgd (PDX va) (sp_dir _ _ _ _ Hsp) Hp)).
  rewrite (sp_pde _ _ _ _ Hsp _ Hp), Ht. destruct (good_pde t Hg) as (-> & H2 & _). cbn [negb].
  unfold frame_of in H2. rewrite H2, u32_pg by (done || lia). done.
Qed.

Lemma walkpgdir_none s pgd tabs E va env :
  space (phys s) pgd tabs E -> tabs !! PDX va = None ->
  walkpgdir pgd va false env s = Ok 0 s env.
Proof.
  intros Hsp Ht. pose proof (PDX_range va) as Hp. unfold walkpgdir, kread32. rewrite bind_gets.
  rewrite (proj1 (V2P_word pgd (PDX va) (sp_dir _ _ _ _ Hsp) Hp)).
  by rewrite (sp_pde _ _ _ _ Hsp _ Hp), Ht.
Qed.

(** ** Which bytes a store changes *)

Lemma same_page_refl m v : same_page m m v.
Proof. by intros x _. Qed.
Lemma same_page_trans m1 m2 m3 v : same_page m1 m2 v -> same_page m2 m3 v -> same_page m1 m3 v.
Proof. intros H1 H2 x Hx. by rewrite H2, H1. Qed.

Lemma same_page_mput m a bs v w : good_page v -> good_page w -> v <> w ->
  V2P w <= a -> a + Z.of_nat (length bs) <= V2P w + PGSIZE -> same_page m (mput m a bs) v.
Proof.
  intros Hv Hw Hne H1 H2 x Hx. destruct (V2P_apart v w Hv Hw Hne); rewrite mget_mput_out; lia.
Qed.
Lemma same_page_store32 m w k e v : good_page v -> good_page w -> v <> w -> 0 <= k < 1024 ->
  same_page m (store32 m (V2P w + 4 * k) e) v.
Proof.
  intros Hv Hw Hne Hk. rewrite store32_mput. apply (same_page_mput _ _ _ v w); [done..|lia|].
  cbn. unfold PGSIZE. lia.
Qed.
Lemma same_page_mset m w c v : good_page v -> good_page w -> v <> w ->
  same_page m (mset m (V2P w) c PGSIZE) v.
Proof.
  intros Hv Hw Hne. rewrite mset_mput. apply (same_page_mput _ _ _ v w); [done..|lia|].
  rewrite length_replicate. unfold PGSIZE. lia.
Qed.
Lemma load32_page m m' v k : same_page m m' v -> 0 <= k < 1024 ->
  load32 m' (V2P v + 4 * k) = load32 m (V2P v + 4 * k).
Proof. intros H Hk. apply load32_ext. intros x Hx. apply H. unfold PGSIZE. lia. Qed.
Lemma load32_mset0 m v k : 0 <= k < 1024 -> load32 (mset m (V2P v) 0 PGSIZE) (V2P v + 4 * k) = 0.
Proof.
  intros Hk. apply load32_zero. intros x Hx. rewrite mset_mput, mget_mput, length_replicate.
  zcase; cbn [andb]; unfold PGSIZE in *; try lia.
  rewrite nth_lookup, lookup_replicate_2 by lia. done.
Qed.

Lemma pte_word_same m m' tabs n :
  (forall t, tabs !! (n / 1024) = Some t -> same_page m m' t) ->
  pte_word m' tabs n = pte_word m tabs n.
Proof.
  intros H. unfold pte_word. destruct (tabs !! (n / 1024)) as [t|]; [|done].
  apply load32_page; [by apply H|]. apply Z.mod_pos_bound. lia.
Qed.

(** An entry that is in use has a page table. *)
Lemma space_tab m pgd tabs E n e :
  space m pgd tabs E -> E !! n = Some e -> is_Some (tabs !! (n / 1024)).
Proof.
  intros Hsp He. destruct (sp_ent _ _ _ _ Hsp n e He) as (Hn & _ & Hp & _).
  pose proof (sp_pte _ _ _ _ Hsp n Hn) as Hw. rewrite He in Hw. cbn in Hw. unfold pte_word in Hw.
  destruct (tabs !! (n / 1024)); [done|]. by subst e.
Qed.

(** Giving directory entry [d] a fresh, zeroed page table. *)
Lemma space_new_tab m pgd tabs E d t :
  space m pgd tabs E -> tabs !! d = None -> 0 <= d < 1024 -> good_page t ->
  (forall x, pg pgd tabs E x <> Some t) ->
  space (store32 (mset m (V2P t) 0 PGSIZE) (V2P pgd + 4 * d) (V2P t + 7)) pgd (<[d := t]> tabs) E.
Proof.
  intros Hsp Hd Hr Hg Hfresh. pose proof (sp_dir _ _ _ _ Hsp) as Hgd.
  assert (pgd <> t) as Hne by (specialize (Hfresh LDir); cbn in Hfresh; congruence).
  set (m1 := mset m (V2P t) 0 PGSIZE). set (m2 := store32 m1 _ _).
  assert (same_page m m1 pgd) as Hs1 by (by apply same_page_mset).
  constructor; [done| | | |exact (sp_ent _ _ _ _ Hsp)|].
  - intros d' t' Ht'. destruct (decide (d' = d)) as [->|Hd'].
    + rewrite lookup_insert_eq in Ht'. by simplify_eq.
    + rewrite lookup_insert_ne in Ht' by done. by apply (sp_tab _ _ _ _ Hsp).
  - intros d' Hd'. destruct (decide (d' = d)) as [->|Hne'].
    + rewrite lookup_insert_eq. unfold m2. apply load32_store32. by apply good_entry.
    + rewrite lookup_insert_ne by done. unfold m2. rewrite load32_store32_ne by lia.
      rewrite (load32_page m m1 pgd) by done. by apply (sp_pde _ _ _ _ Hsp).
  - intros n Hn. rewrite <- (sp_pte _ _ _ _ Hsp n Hn). unfold pte_word.
    assert (0 <= n mod 1024 < 1024) as Hm by (apply Z.mod_pos_bound; lia).
    destruct (decide (n / 1024 = d)) as [->|Hnd].
    + rewrite Hd, lookup_insert_eq.
      rewrite (load32_page m1 m2 t) by (try done; by apply same_page_store32). by apply load32_mset0.
    + rewrite lookup_insert_ne by done. destruct (tabs !! (n / 1024)) as [t'|] eqn:Et; [|done].
      destruct (sp_tab _ _ _ _ Hsp _ _ Et) as [_ Hg'].
      assert (t' <> t) by (intros ->; by apply (Hfresh (LTab (n / 1024)))).
      assert (t' <> pgd). { intros ->. by discriminate (sp_inj _ _ _ _ Hsp LDir (LTab (n / 1024)) pgd eq_refl Et). }
      apply load32_page; [|done].
      apply (same_page_trans _ m1); [by apply same_page_mset|by apply same_page_store32].
  - assert (forall x v, pg pgd (<[d := t]> tabs) E x = Some v ->
      (x = LTab d /\ v = t) \/ (x <> LTab d /\ pg pgd tabs E x = Some v)) as Hpg.
    { intros [|d'|n] v; cbn; [by right|..]; [|by right].
      destruct (decide (d' = d)) as [->|Hd']; [rewrite lookup_insert_eq|rewrite lookup_insert_ne by done].
      - intros [= <-]. by left.
      - intros ?. right. split; [congruence|done]. }
    intros x y v [[-> ->]|[Hx Hx']]%Hpg [[-> Ey]|[Hy Hy']]%Hpg; try done.
    + by destruct (Hfresh y).
    + subst v. by destruct (Hfresh x).
    + by apply (sp_inj _ _ _ _ Hsp x y v).
Qed.

(** Storing to the entry of page [n]: [o] is its new value, if any. *)
Lemma space_set_entry m pgd tabs E n t o :
  space m pgd tabs E -> tabs !! (n / 1024) = Some t -> 0 <= n < NVPN ->
  (forall e, o = Some e -> 0 <= e < 4294967296 /\ Z.land e PTE_P <> 0 /\
     (n < USERVPN -> good_page (frame_of e) /\ forall x, x <> LFrame n -> pg pgd tabs E x <> Some (frame_of e))) ->
  space (store32 m (V2P t + 4 * (n mod 1024)) (default 0 o)) pgd tabs (partial_alter (fun _ => o) n E).
Proof.
  intros Hsp Ht Hn Ho. destruct (sp_tab _ _ _ _ Hsp _ _ Ht) as [_ Hg].
  pose proof (sp_dir _ _ _ _ Hsp) as Hgd.
  assert (0 <= n mod 1024 < 1024) as Hm by (apply Z.mod_pos_bound; lia).
  assert (pgd <> t) as Hne. { intros ->. by discriminate (sp_inj _ _ _ _ Hsp LDir (LTab (n / 1024)) t eq_refl Ht). }
  constructor; [done|exact (sp_tab _ _ _ _ Hsp)| | | |].
  - intros d Hd. rewrite <- (sp_pde _ _ _ _ Hsp d Hd). apply load32_page; [|done]. by apply same_page_store32.
  - intros n' Hn'. destruct (decide (n' = n)) as [->|Hnn].
    + rewrite lookup_partial_alter_eq. unfold pte_word. rewrite Ht. apply load32_store32.
      destruct o as [e|]; cbn; [|lia]. by apply Ho.
    + rewrite lookup_partial_alter_ne by done. rewrite <- (sp_pte _ _ _ _ Hsp n' Hn'). unfold pte_word.
      destruct (tabs !! (n' / 1024)) as [t'|] eqn:Et; [|done].
      assert (0 <= n' mod 1024 < 1024) as Hm' by (apply Z.mod_pos_bound; lia).
      destruct (decide (t' = t)) as [->|Htt].
      * assert (n' / 1024 = n / 1024) as Hq.
        { assert (LTab (n' / 1024) = LTab (n / 1024)) as [=] by (by apply (sp_inj _ _ _ _ Hsp _ _ t)). done. }
        apply load32_store32_ne. Z.div_mod_to_equations. lia.
      * apply load32_page; [|done]. apply same_page_store32; try done. by apply (sp_tab _ _ _ _ Hsp _ _ Et).
  - intros n' e He. destruct (decide (n' = n)) as [->|Hnn].
    + rewrite lookup_partial_alter_eq in He. destruct (Ho e He) as (H1 & H2 & H3). split_and!; try done; try lia.
      intros Hu. by apply H3.
    + rewrite lookup_partial_alter_ne in He by done. by apply (sp_ent _ _ _ _ Hsp).
  - assert (forall x v, pg pgd tabs (partial_alter (fun _ => o) n E) x = Some v ->
      (exists e, x = LFrame n /\ o = Some e /\ n < USERVPN /\ v = frame_of e) \/
      (x <> LFrame n /\ pg pgd tabs E x = Some v)) as Hpg.
    { intros [|d|n'] v; cbn; [by right..|]. destruct (decide (n' = n)) as [->|Hnn].
      - rewrite lookup_partial_alter_eq. destruct (Z.ltb_spec n USERVPN); [|done].
        destruct o as [e|]; [|done]. intros [= <-]. left. by exists e.
      - rewrite lookup_partial_alter_ne by done. intros ?. right. split; [congruence|done]. }
    intros x y v [(e & -> & -> & Hu & ->)|[Hx Hx']]%Hpg [(e' & -> & Eo & Hu' & Ev)|[Hy Hy']]%Hpg; try done.
    + destruct (Ho e eq_refl) as (_ & _ & H3). by destruct (proj2 (H3 Hu) y Hy).
    + subst v. destruct (Ho e' Eo) as (_ & _ & H3). by destruct (proj2 (H3 Hu') x Hx).
    + by apply (sp_inj _ _ _ _ Hsp x y v).
Qed.

(** ** The allocator next to an address space *)

Lemma links_same m m' : forall l h,
  links m h l -> (forall v, v ∈ l -> load32 m' (V2P v) = load32 m (V2P v)) -> links m' h l.
Proof.
  induction l as [|v l IH]; intros h; cbn; [done|]. intros [-> Hl] Hs. split; [done|].
  rewrite Hs by set_solver. apply IH; [done|]. intros w Hw. apply Hs. set_solver.
Qed.

Lemma fl_rep_same s l m' :
  fl_rep s l -> (forall v, v ∈ l -> same_page (phys s) m' v) -> fl_rep (set_phys m' s) l.
Proof.
  intros (H1 & H2 & H3) Hs. split_and!; [|done..]. cbn. eapply links_same; [done|].
  intros v Hv. specialize (Hs v Hv). pose proof (load32_page (phys s) m' v 0 Hs ltac:(lia)) as E.
  by rewrite Z.mul_0_r, Z.add_0_r in E.
Qed.

Lemma fl_rep_good s l v : fl_rep s l -> v ∈ l -> good_page v.
Proof. intros (_ & _ & H) Hv. by eapply Forall_forall in H. Qed.

(** [kalloc] takes a page that belongs to nothing else. *)
Lemma world_kalloc s t l pgd tabs E env :
  world s (t :: l) pgd tabs E ->
  exists s', kalloc env s = Ok t s' env /\ world s' l pgd tabs E /\ mem_rel s s' /\ phys s' = phys s /\
    good_page t /\ t <> 0 /\ t ∉ l /\ (forall x, pg pgd tabs E x <> Some t).
Proof.
  intros [Hr Hf Hsp Ha]. destruct (fl_rep_pop t s l Hf) as (Hh & Hnz & Hg & Hni & Hf').
  rewrite kalloc_run, Hh by done. destruct (Z.eqb_spec t 0); [done|].
  eexists. split; [done|].
  assert (mem_rel s (set_freelist (load32 (phys s) (V2P t)) (set_kcpu (kmem_cpu s) s))) as Hrel.
  { eexists (phys s), _, (kmem_cpu s). split; [|by right]. by destruct s. }
  split_and!; try done.
  - constructor; [by eapply mem_rel_ready|apply Hf'|done|]. intros x v Hx.
    specialize (Ha x v Hx). set_solver.
  - intros x Hx. specialize (Ha x t Hx). set_solver.
Qed.

Lemma world_kalloc_none s pgd tabs E env :
  world s [] pgd tabs E ->
  kalloc env s = Ok 0 (set_kcpu (kmem_cpu s) s) env /\ world (set_kcpu (kmem_cpu s) s) [] pgd tabs E /\
  mem_rel s (set_kcpu (kmem_cpu s) s).
Proof.
  intros [Hr Hf Hsp Ha]. assert (freelist s = 0) as Hh by apply Hf.
  rewrite kalloc_run, Hh by done. cbn.
  assert (set_freelist 0 (set_kcpu (kmem_cpu s) s) = set_kcpu (kmem_cpu s) s) as Es.
  { rewrite <- Hh. by destruct s. }
  assert (mem_rel s (set_kcpu (kmem_cpu s) s)) as Hrel.
  { exists (phys s), (freelist s), (kmem_cpu s). split; [|by right]. by destruct s. }
  split_and!; [by rewrite Es| |done]. constructor; [by eapply mem_rel_ready|done..].
Qed.

(** ** Mapping pages *)

(** Page tables are added, from the free list, and never moved. *)
Definition grown (l : list Z) (tabs : gmap Z Z) (l' : list Z) (tabs' : gmap Z Z) : Prop :=
  l' `suffix_of` l /\ tabs ⊆ tabs' /\
  forall d v, tabs' !! d = Some v -> tabs !! d = Some v \/ (v ∈ l /\ v ∉ l').

Lemma suffix_in (l l' : list Z) v : l' `suffix_of` l -> v ∈ l' -> v ∈ l.
Proof. intros [k ->]. set_solver. Qed.

Lemma grown_refl l tabs : grown l tabs l tabs.
Proof. split_and!; [done|done|]. auto. Qed.
Lemma grown_trans l1 t1 l2 t2 l3 t3 : grown l1 t1 l2 t2 -> grown l2 t2 l3 t3 -> grown l1 t1 l3 t3.
Proof.
  intros (H1 & H2 & H3) (H4 & H5 & H6). split_and!; [by etrans..|].
  intros d v [Hd|[Hd Hn]]%H6.
  - destruct (H3 d v Hd) as [|[Hv Hv']]; [by left|right]. split; [done|]. intros ?. by apply Hv', (suffix_in l2 l3).
  - right. split; [|done]. by apply (suffix_in l1 l2).
Qed.

Lemma kept_refl l pgd tabs m : kept l pgd tabs m m.
Proof. intros v _ _ _ _. apply same_page_refl. Qed.
Lemma kept_trans l pgd tabs l' tabs' m1 m2 m3 :
  kept l pgd tabs m1 m2 -> grown l tabs l' tabs' -> kept l' pgd tabs' m2 m3 -> kept l pgd tabs m1 m3.
Proof.
  intros H1 (G1 & _ & G3) H2 v Hg Hl Hp Ht. apply (same_page_trans _ m2); [by apply H1|].
  apply H2; try done.
  - intros Hv. by apply Hl, (suffix_in l l').
  - intros d Hd. destruct (G3 d v Hd) as [Hd'|[Hv _]]; [by apply (Ht d)|done].
Qed.

Lemma world_not_free s l pgd tabs E x v w : world s l pgd tabs E -> pg pgd tabs E x = Some v -> w ∈ l -> w <> v.
Proof. intros Hw Hx Hl ->. by apply (w_apart _ _ _ _ _ Hw x v Hx). Qed.

(** A new page table that is not free leaves the pages apart from [l]. *)
Lemma apart_new_tab (l : list Z) pgd tabs E k t x v :
  (forall x v, pg pgd tabs E x = Some v -> v ∉ l) -> t ∉ l -> pg pgd (<[k := t]> tabs) E x = Some v -> v ∉ l.
Proof.
  intros Ha Ht Hx. destruct x as [|d|n]; [by apply (Ha LDir)| |by apply (Ha (LFrame n))]. cbn in Hx.
  destruct (decide (d = k)) as [->|]; [rewrite lookup_insert_eq in Hx; by simplify_eq|].
  rewrite lookup_insert_ne in Hx by done. by apply (Ha (LTab d)).
Qed.

Lemma walkpgdir_alloc s l pgd tabs E va env :
  world s l pgd tabs E ->
  (exists s', walkpgdir pgd va true env s = Ok 0 s' env /\ world s' [] pgd tabs E /\ l = [] /\
     mem_rel s s' /\ phys s' = phys s) \/
  (exists s' t l' tabs', walkpgdir pgd va true env s = Ok (t + 4 * PTX va) s' env /\
     tabs' !! PDX va = Some t /\ world s' l' pgd tabs' E /\ mem_rel s s' /\
     kept l pgd tabs (phys s) (phys s') /\ grown l tabs l' tabs').
Proof.
  intros Hw. pose proof (w_space _ _ _ _ _ Hw) as Hsp. pose proof (PDX_range va) as Hp.
  destruct (tabs !! PDX va) as [t|] eqn:Et.
  { right. exists s, t, l, tabs. rewrite (walkpgdir_found s pgd tabs E va t) by done.
    split_and!; [done..|apply mem_rel_refl|apply kept_refl|apply grown_refl]. }
  unfold walkpgdir, kread32. rewrite bind_gets.
  rewrite (proj1 (V2P_word pgd (PDX va) (sp_dir _ _ _ _ Hsp) Hp)).
  rewrite (sp_pde _ _ _ _ Hsp _ Hp), Et. change (Z.land 0 PTE_P =? 0) with true. cbn [negb].
  destruct l as [|t l].
  { left. destruct (world_kalloc_none s pgd tabs E env Hw) as (E1 & Hw1 & Hr1).
    rewrite (bind_ok _ _ _ _ _ _ _ E1). by eexists. }
  destruct (world_kalloc s t l pgd tabs E env Hw) as (s1 & E1 & Hw1 & Hr1 & Hp1 & Hg & Hnz & Hni & Hfr).
  right. rewrite (bind_ok _ _ _ _ _ _ _ E1). destruct (Z.eqb_spec t 0) as [|_]; [done|].
  unfold kmemset, kwrite32. rewrite !bind_modify. cbn [phys set_phys].
  destruct (good_pde t Hg) as (_ & _ & ->). pose proof (sp_dir _ _ _ _ Hsp) as Hgd.
  rewrite (proj1 (V2P_word pgd (PDX va) Hgd Hp)), Hp1.
  rewrite u32_pg by (try done; pose proof (PTX_range va); lia).
  set (m2 := store32 _ _ _). eexists _, t, l, (<[PDX va := t]> tabs). split; [done|].
  assert (forall v, good_page v -> v <> t -> v <> pgd -> same_page (phys s) m2 v) as Hsame.
  { intros v Hv H1 H2. apply (same_page_trans _ (mset (phys s) (V2P t) 0 PGSIZE));
      [by apply same_page_mset|by apply same_page_store32]. }
  split_and!.
  - by rewrite lookup_insert_eq.
  - constructor; cbn [phys set_phys].
    + exact (w_ready _ _ _ _ _ Hw1).
    + change (fl_rep (set_phys m2 s1) l).
      apply fl_rep_same; [exact (w_free _ _ _ _ _ Hw1)|]. intros v Hv. rewrite Hp1. apply Hsame.
      * by eapply fl_rep_good; [exact (w_free _ _ _ _ _ Hw1)|].
      * by intros ->.
      * by apply (world_not_free _ _ _ _ _ LDir pgd v Hw1).
    + by apply space_new_tab.
    + intros x v Hx. exact (apart_new_tab l pgd tabs E _ t x v (w_apart _ _ _ _ _ Hw1) Hni Hx).
  - eapply mem_rel_trans; [done|]. apply (mem_rel_phys s1 m2).
  - intros v Hv Hl Hpd Ht. apply Hsame; [done| |done]. intros ->. apply Hl. constructor.
  - split_and!; [by apply suffix_cons_r|by apply insert_subseteq|].
    intros d v. destruct (decide (d = PDX va)) as [->|].
    + rewrite lookup_insert_eq. intros [= <-]. right. split; [constructor|done].
    + rewrite lookup_insert_ne by done. by left.
Qed.

(** Storing an entry in a world. *)
Lemma world_set_entry s l pgd tabs E n t o :
  world s l pgd tabs E -> tabs !! (n / 1024) = Some t -> 0 <= n < NVPN ->
  (forall e, o = Some e -> 0 <= e < 4294967296 /\ Z.land e PTE_P <> 0 /\
     (n < USERVPN -> good_page (frame_of e) /\ frame_of e ∉ l /\
        forall x, x <> LFrame n -> pg pgd tabs E x <> Some (frame_of e))) ->
  let m' := store32 (phys s) (V2P t + 4 * (n mod 1024)) (default 0 o) in
  world (set_phys m' s) l pgd tabs (partial_alter (fun _ => o) n E) /\
  kept l pgd tabs (phys s) m'.
Proof.
  intros Hw Ht Hn Ho m'. pose proof (w_space _ _ _ _ _ Hw) as Hsp.
  destruct (sp_tab _ _ _ _ Hsp _ _ Ht) as [_ Hg].
  assert (0 <= n mod 1024 < 1024) as Hm by (apply Z.mod_pos_bound; lia).
  split.
  - constructor; cbn [phys set_phys].
    + exact (w_ready _ _ _ _ _ Hw).
    + apply fl_rep_same; [exact (w_free _ _ _ _ _ Hw)|]. intros v Hv.
      apply same_page_store32; [by eapply fl_rep_good; [exact (w_free _ _ _ _ _ Hw)|]|done| |done].
      by apply (world_not_free _ _ _ _ _ (LTab (n / 1024)) t v Hw).
    + apply space_set_entry; [done..|]. intros e He. destruct (Ho e He) as (H1 & H2 & H3).
      split_and!; try done; try lia. intros Hu. by destruct (H3 Hu) as (? & _ & ?).
    + intros x v Hx. destruct (decide (x = LFrame n)) as [->|Hxn].
      * cbn in Hx. rewrite lookup_partial_alter_eq in Hx. destruct (Z.ltb_spec n USERVPN) as [Hu|]; [|done].
        destruct o as [e|]; [|done]. cbn in Hx. injection Hx as <-.
        by destruct (Ho e eq_refl) as (_ & _ & H3); destruct (H3 Hu) as (_ & ? & _).
      * apply (w_apart _ _ _ _ _ Hw x v). destruct x as [|d|n']; cbn in Hx |- *; [done..|].
        rewrite lookup_partial_alter_ne in Hx; [done|congruence].
  - intros v Hv Hl Hp Htt. apply same_page_store32; try done. intros ->. by apply (Htt (n / 1024)).
Qed.

(** The frame for a new entry of page [n] is nobody's, if [n] is in the
    user half. *)
Definition new_entry (l : list Z) (pgd : Z) (tabs E : gmap Z Z) (n e : Z) : Prop :=
  0 <= e < 4294967296 /\ Z.land e PTE_P <> 0 /\
  (n < USERVPN -> good_page (frame_of e) /\ frame_of e ∉ l /\ forall x, pg pgd tabs E x <> Some (frame_of e)).

Lemma new_entry_grown l pgd tabs E n e l' tabs' :
  new_entry l pgd tabs E n e -> grown l tabs l' tabs' -> new_entry l' pgd tabs' E n e.
Proof.
  intros (H1 & H2 & H3) (G1 & G2 & G3). split_and!; try done; try lia. intros Hu.
  destruct (H3 Hu) as (Hg & Hl & Hx). split_and!; [done| |].
  - intros ?. by apply Hl, (suffix_in l l').
  - intros [|d|n'] E1; cbn in E1.
    + by apply (Hx LDir).
    + destruct (G3 _ _ E1) as [E2|[E2 _]]; [by apply (Hx (LTab d))|done].
    + by apply (Hx (LFrame n')).
Qed.

Lemma map_page_run s l pgd tabs E last perm a pa env :
  world s l pgd tabs E -> 0 <= a < 4294967296 -> E !! (a / 4096) = None ->
  let e := Z.lor (Z.lor pa perm) PTE_P in new_entry l pgd tabs E (a / 4096) e ->
  (exists s', map_page pgd last perm (a, pa) env s = Ok (inr (-1)) s' env /\ l = [] /\
     world s' [] pgd tabs E /\ mem_rel s s' /\ phys s' = phys s) \/
  (exists s' l' tabs',
     map_page pgd last perm (a, pa) env s =
       Ok (if a =? last then inr 0 else inl (u32 (a + PGSIZE), u32 (pa + PGSIZE))) s' env /\
     world s' l' pgd tabs' (<[a / 4096 := e]> E) /\ mem_rel s s' /\
     kept l pgd tabs (phys s) (phys s') /\ grown l tabs l' tabs').
Proof.
  intros Hw Ha HE e He. unfold map_page.
  destruct (walkpgdir_alloc s l pgd tabs E a env Hw)
    as [(s1 & E1 & Hw1 & -> & Hr1 & Hp1)|(s1 & t & l1 & tabs1 & E1 & Ht & Hw1 & Hr1 & Hk1 & Hgr)].
  { left. exists s1. by rewrite (bind_ok _ _ _ _ _ _ _ E1). }
  right. rewrite (bind_ok _ _ _ _ _ _ _ E1).
  pose proof (w_space _ _ _ _ _ Hw1) as Hsp. destruct (sp_tab _ _ _ _ Hsp _ _ Ht) as [_ Hg].
  pose proof (PTX_range a) as Hx. destruct (V2P_word t (PTX a) Hg Hx) as [EV Hnz].
  rewrite u32_pg in EV, Hnz by (done || lia).
  destruct (Z.eqb_spec (t + 4 * PTX a) 0) as [|_]; [done|].
  unfold kread32, kwrite32. rewrite bind_gets, EV.
  rewrite PDX_vpn in Ht by done. rewrite PTX_vpn in * by done.
  assert (0 <= a / 4096 < NVPN) as Hn by (unfold NVPN; Z.div_mod_to_equations; lia).
  assert (load32 (phys s1) (V2P t + 4 * ((a / 4096) mod 1024)) = 0) as ->.
  { pose proof (sp_pte _ _ _ _ Hsp (a / 4096) Hn) as Hpw. unfold pte_word in Hpw.
    by rewrite Ht, HE in Hpw. }
  change (Z.land 0 PTE_P =? 0) with true. cbn [negb]. rewrite bind_modify.
  destruct (new_entry_grown _ _ _ _ _ _ _ _ He Hgr) as (H1 & H2 & H3).
  destruct (world_set_entry s1 l1 pgd tabs1 E (a / 4096) t (Some e)) as [Hw2 Hk2]; [done..| |].
  { intros e' [= <-]. split_and!; try done; try lia. intros Hu. destruct (H3 Hu) as (? & ? & Hpg).
    split_and!; auto. }
  eexists _, l1, tabs1. split; [by destruct (a =? last)|]. split_and!; [exact Hw2| | |done].
  - eapply mem_rel_trans; [done|apply mem_rel_phys].
  - by eapply kept_trans.
Qed.

Lemma entry_eq pa perm :
  pa mod 4096 = 0 -> 0 <= pa < 4294967296 -> 0 <= perm < 4096 ->
  Z.lor (Z.lor pa perm) PTE_P = pa + Z.lor perm 1 /\ 0 <= Z.lor perm 1 < 4096 /\
  Z.land (pa + Z.lor perm 1) PTE_P <> 0 /\ 0 <= pa + Z.lor perm 1 < 4294967296 /\
  PTE_ADDR (pa + Z.lor perm 1) = pa.
Proof.
  intros Ha Hr Hp.
  assert (0 <= Z.lor perm 1 < 4096) as Hl.
  { split; [apply Z.lor_nonneg; lia|]. change 4096 with (2 ^ 12).
    destruct (decide (Z.lor perm 1 = 0)) as [->|]; [done|].
    apply Z.log2_lt_pow2; [pose proof (proj2 (Z.lor_nonneg perm 1)); lia|]. rewrite Z.log2_lor by lia.
    assert (Z.log2 perm < 12) by (destruct (decide (perm = 0)) as [->|]; [done|]; apply Z.log2_lt_pow2; [lia|];
      change (2 ^ 12) with 4096; lia).
    change (Z.log2 1) with 0. lia. }
  destruct (pte_parts pa (Z.lor perm 1)) as (H1 & H2 & H3 & H4); [done..|].
  rewrite <- Z.lor_assoc. split_and!; try done; try lia.
  - rewrite H4. unfold PTE_P. rewrite Z.land_lor_distr_l, Z.land_diag. intros [_ ?]%Z.lor_eq_0_iff. done.
  - Z.div_mod_to_equations. lia.
Qed.

(** [k + 1] pages from [a] on to those from [pa] on. *)
Definition plus_range (E : gmap Z Z) (n0 : Z) (k : nat) (pa perm : Z) (E' : gmap Z Z) : Prop :=
  forall n, E' !! n = if (n0 <=? n) && (n <=? n0 + Z.of_nat k)
    then Some (pa + 4096 * (n - n0) + Z.lor perm 1) else E !! n.

(** In the kernel half, where frames are not owned. *)
Lemma mappages_loop pgd last perm env : forall k a pa s l tabs E,
  world s l pgd tabs E -> 0 <= perm < 4096 -> KERNBASE <= a -> a mod 4096 = 0 -> pa mod 4096 = 0 ->
  last = a + 4096 * Z.of_nat k -> last < 4294967296 -> 0 <= pa -> pa + 4096 * Z.of_nat k < 4294967296 ->
  (forall n, a / 4096 <= n <= a / 4096 + Z.of_nat k -> E !! n = None) ->
  exists r s' l' tabs' E', loop_n (S k) (map_page pgd last perm) (a, pa) env s = Ok r s' env /\
    world s' l' pgd tabs' E' /\ mem_rel s s' /\ kept l pgd tabs (phys s) (phys s') /\ grown l tabs l' tabs' /\
    ((r = -1 /\ l' = []) \/ (r = 0 /\ plus_range E (a / 4096) k pa perm E')).
Proof.
  induction k as [|k IH]; intros a pa s l tabs E Hw Hpm Ha Hal Hpal Hlast Hlt Hp0 Hpa HE.
  all: destruct (entry_eq pa perm) as (He & Hf & HP & Hr & _); [done|lia|done|].
  all: assert (new_entry l pgd tabs E (a / 4096) (Z.lor (Z.lor pa perm) PTE_P)) as Hne
    by (rewrite He; split_and!; [lia|lia|done|]; intros Hu; exfalso; unfold USERVPN, KERNBASE in *; Z.div_mod_to_equations; lia).
  all: change (loop_n (S ?j) ?b ?x) with (bind (b x) (fun r => match r with inl l' => loop_n j b l' | inr v => ret v end)).
  all: destruct (map_page_run s l pgd tabs E last perm a pa env Hw) as
    [(s1 & E1 & -> & Hw1 & Hr1 & Hp1)|(s1 & l1 & tabs1 & E1 & Hw1 & Hr1 & Hk1 & Hg1)];
    [unfold KERNBASE in *; lia|apply HE; lia|exact Hne|..];
    rewrite (bind_ok _ _ _ _ _ _ _ E1).
  1, 3: exists (-1), s1, [], tabs, E; rewrite Hp1;
    split_and!; [done|done|done|apply kept_refl|apply grown_refl|by left].
  - destruct (Z.eqb_spec a last); [|lia]. exists 0, s1, l1, tabs1. eexists. split_and!; [done..|].
    right. split; [done|]. intros n. rewrite He. zcase; cbn [andb].
    + replace n with (a / 4096) by lia. rewrite lookup_insert_eq. f_equal. lia.
    + by rewrite lookup_insert_ne by lia.
    + by rewrite lookup_insert_ne by lia.
    + by rewrite lookup_insert_ne by lia.
  - destruct (Z.eqb_spec a last) as [|_]; [lia|]. unfold PGSIZE, KERNBASE in *. rewrite !u32_small by lia.
    assert ((a + 4096) / 4096 = a / 4096 + 1) as Hq by (Z.div_mod_to_equations; lia).
    destruct (IH (a + 4096) (pa + 4096) s1 l1 tabs1 _ Hw1) as (r & s2 & l2 & tabs2 & E2 & EL & Hw2 & Hr2 & Hk2 & Hg2 & Hres);
      [done|lia|Z.div_mod_to_equations; lia|Z.div_mod_to_equations; lia|lia|lia|lia|lia| |].
    { intros n Hn. rewrite Hq in Hn. rewrite lookup_insert_ne by lia. apply HE. lia. }
    exists r, s2, l2, tabs2, E2. split_and!; [done|done|by eapply mem_rel_trans|by eapply kept_trans|by eapply grown_trans|].
    destruct Hres as [?|[-> Hpl]]; [by left|right]. split; [done|]. intros n. rewrite (Hpl n), Hq, He.
    zcase; cbn [andb]; try lia; try done; try (rewrite lookup_insert_ne by lia; done).
    + f_equal. lia.
    + replace n with (a / 4096) by lia. rewrite lookup_insert_eq. f_equal. lia.
Qed.

Lemma PGROUNDDOWN_eq a : 0 <= a < 4294967296 -> PGROUNDDOWN a = a - a mod 4096.
Proof.
  intros H. unfold PGROUNDDOWN. change (u32 (Z.lnot (PGSIZE - 1))) with 4294963200. by apply land_page_mask.
Qed.

(** [mappages] on whole pages is the loop from the first to the last. *)
Lemma mappages_pages pgd va k pa perm :
  va mod 4096 = 0 -> 0 <= va -> va + 4096 * (Z.of_nat k + 1) <= 4294967296 ->
  mappages pgd va (4096 * (Z.of_nat k + 1)) pa perm =
    loop_n (S k) (map_page pgd (va + 4096 * Z.of_nat k) perm) (va, pa).
Proof.
  intros Ha H0 Hk. unfold mappages. rewrite (u32_small (va + _ - 1)), !PGROUNDDOWN_eq by lia.
  replace (va - va mod 4096) with va by lia.
  replace (va + 4096 * (Z.of_nat k + 1) - 1 - (va + 4096 * (Z.of_nat k + 1) - 1) mod 4096)
    with (va + 4096 * Z.of_nat k) by (Z.div_mod_to_equations; lia).
  rewrite u32_small by lia. unfold PGSIZE.
  by replace (Z.to_nat ((va + 4096 * Z.of_nat k - va) / 4096)) with k by (Z.div_mod_to_equations; lia).
Qed.

Lemma mappages_kernel s l pgd tabs E va size pa perm env :
  world s l pgd tabs E -> 0 <= perm < 4096 -> KERNBASE <= va -> va mod 4096 = 0 -> pa mod 4096 = 0 ->
  0 < size -> size mod 4096 = 0 -> va + size <= 4294967296 -> 0 <= pa -> pa + size <= 4294967296 ->
  (forall n, va / 4096 <= n < (va + size) / 4096 -> E !! n = None) ->
  exists r s' l' tabs' E', mappages pgd va size pa perm env s = Ok r s' env /\
    world s' l' pgd tabs' E' /\ mem_rel s s' /\ kept l pgd tabs (phys s) (phys s') /\ grown l tabs l' tabs' /\
    ((r = -1 /\ l' = []) \/ (r = 0 /\ forall n, E' !! n =
       if (va / 4096 <=? n) && (n <? (va + size) / 4096) then Some (pa + 4096 * (n - va / 4096) + Z.lor perm 1)
       else E !! n)).
Proof.
  intros Hw Hpm Ha Hal Hpal Hs Hsal Hva Hp0 Hpa HE.
  assert (exists k : nat, size = 4096 * (Z.of_nat k + 1)) as [k Hk].
  { exists (Z.to_nat (size / 4096 - 1)). Z.div_mod_to_equations. lia. }
  assert ((va + size) / 4096 = va / 4096 + Z.of_nat k + 1) as Hq by (Z.div_mod_to_equations; lia).
  rewrite Hk in *. clear Hk. assert (0 <= va) by (unfold KERNBASE in *; lia). rewrite mappages_pages by done.
  destruct (mappages_loop pgd (va + 4096 * Z.of_nat k) perm env k va pa s l tabs E) as
    (r & s' & l' & tabs' & E' & EL & Hw' & Hr & Hk & Hg & Hres); try done; try lia.
  { intros n Hn. apply HE. lia. }
  exists r, s', l', tabs', E'. split_and!; try done. destruct Hres as [?|[-> Hpl]]; [by left|right].
  split; [done|]. intros n. rewrite (Hpl n), Hq. zcase; cbn [andb]; try lia; done.
Qed.

(** ** The kernel's mappings *)

(** kernel.ld puts [data] on a page of its own after the text, and [end]
    after the data. *)
Definition link_ok : Prop :=
  a_data mod 4096 = 0 /\ KERNLINK < a_data /\ a_data < KERNBASE + PHYSTOP /\ a_data <= a_end.

(** The entry of page [n] in every address space, from KERNBASE on. *)
Definition kernel_entry (n : Z) : option Z :=
  let va := 4096 * n in
  if va <? KERNBASE then None else
  if va <? KERNLINK then Some (va - KERNBASE + 3) else
  if va <? a_data then Some (va - KERNBASE + 1) else
  if va <? KERNBASE + PHYSTOP then Some (va - KERNBASE + 3) else
  if va <? DEVSPACE then None else
  if va <? 4294967296 then Some (va + 3) else None.

(** Pages that were not free keep their contents. *)
Definition kept_all (l : list Z) (m m' : gmap Z Z) : Prop :=
  forall v, good_page v -> v ∉ l -> same_page m m' v.

Lemma kept_all_kept l pgd tabs l0 m1 m2 m3 :
  kept_all l0 m1 m2 -> kept l pgd tabs m2 m3 -> pgd ∈ l0 -> (forall d v, tabs !! d = Some v -> v ∈ l0) ->
  l `suffix_of` l0 -> kept_all l0 m1 m3.
Proof.
  intros H1 H2 Hp Ht Hl v Hg Hv. apply (same_page_trans _ m2); [by apply H1|]. apply H2; try done.
  - intros ?. by apply Hv, (suffix_in l0 l).
  - by intros ->.
  - intros d Hd. by apply Hv, (Ht d).
Qed.

(** A directory under construction, from the pages of [l0], with the
    kernel's mappings below [hi]. *)
Definition built (l0 : list Z) (m0 : gmap Z Z) (pgd hi : Z) (s : kst) : Prop :=
  exists l tabs E, world s l pgd tabs E /\ kept_all l0 m0 (phys s) /\ pgd ∈ l0 /\
    (forall d v, tabs !! d = Some v -> v ∈ l0) /\ l `suffix_of` l0 /\
    forall n, E !! n = if 4096 * n <? hi then kernel_entry n else None.

(** No page is left. *)
Definition exhausted (l0 : list Z) (m0 : gmap Z Z) (s : kst) : Prop :=
  kmem_ready s /\ fl_rep s [] /\ kept_all l0 m0 (phys s).

Definition k_size (k : kmapent) : Z := u32 (k_end k - k_start k).

(** Entry [k] of [kmap] maps whole pages, the next ones after [lo]. *)
Record range_ok (lo : Z) (k : kmapent) : Prop := {
  ro_virt : KERNBASE <= k_virt k /\ lo <= k_virt k;
  ro_align : k_virt k mod 4096 = 0 /\ k_start k mod 4096 = 0 /\ k_size k mod 4096 = 0;
  ro_perm : 0 <= k_perm k < 4096;
  ro_size : 0 < k_size k;
  ro_start : 0 <= k_start k;
  ro_hi : k_virt k + k_size k <= 4294967296 /\ k_start k + k_size k <= 4294967296;
  ro_in : forall n, k_virt k <= 4096 * n < k_virt k + k_size k ->
    kernel_entry n = Some (k_start k + (4096 * n - k_virt k) + Z.lor (k_perm k) 1);
  ro_gap : forall n, lo <= 4096 * n < k_virt k -> kernel_entry n = None;
}.

Lemma built_step l0 m0 pgd lo s k env :
  built l0 m0 pgd lo s -> range_ok lo k ->
  exists r s', mappages pgd (k_virt k) (k_size k) (k_start k) (k_perm k) env s = Ok r s' env /\ mem_rel s s' /\
    ((r = -1 /\ exhausted l0 m0 s') \/ (r = 0 /\ built l0 m0 pgd (k_virt k + k_size k) s')).
Proof.
  intros (l & tabs & E & Hw & Hk0 & Hp & Ht & Hl & HE) [[Hv Hlo] (Ha1 & Ha2 & Ha3) Hpm Hsz Hst [Hhi Hhi'] Hin Hgap].
  destruct (mappages_kernel s l pgd tabs E (k_virt k) (k_size k) (k_start k) (k_perm k) env)
    as (r & s' & l' & tabs' & E' & EM & Hw' & Hr & Hk & (G1 & G2 & G3) & Hres); try done; try lia.
  { intros n Hn. rewrite HE. destruct (Z.ltb_spec (4096 * n) lo); [|done].
    exfalso. Z.div_mod_to_equations. lia. }
  assert (kept_all l0 m0 (phys s')) as Hk' by (by eapply kept_all_kept).
  exists r, s'. split_and!; [done..|]. destruct Hres as [[-> ->]|[-> HE']]; [left|right].
  { split; [done|]. split_and!; [exact (w_ready _ _ _ _ _ Hw')|exact (w_free _ _ _ _ _ Hw')|done]. }
  split; [done|]. exists l', tabs', E'. split_and!; [done..| |by etrans|].
  - intros d v Hd. destruct (G3 d v Hd) as [Hd'|[Hv' _]]; [by apply (Ht d)|by apply (suffix_in l0 l)].
  - intros n. rewrite HE', HE.
    assert ((k_virt k / 4096 <=? n) && (n <? (k_virt k + k_size k) / 4096)
      = (k_virt k <=? 4096 * n) && (4096 * n <? k_virt k + k_size k)) as ->.
    { zcase; cbn [andb]; try done; exfalso; Z.div_mod_to_equations; lia. }
    zcase; cbn [andb]; try lia; try done.
    + rewrite Hin by lia. f_equal. Z.div_mod_to_equations. lia.
    + symmetry. apply Hgap. lia.
Qed.

Fixpoint ranges_ok (lo : Z) (ks : list kmapent) (hi : Z) : Prop :=
  match ks with
  | [] => lo = hi
  | k :: ks' => range_ok lo k /\ ranges_ok (k_virt k + k_size k) ks' hi
  end.

Lemma setupkvm_loop_run l0 m0 pgd hi env : forall ks lo s,
  ranges_ok lo ks hi -> built l0 m0 pgd lo s ->
  exists r s', setupkvm_loop pgd ks env s = Ok r s' env /\ mem_rel s s' /\
    ((r = 0 /\ exhausted l0 m0 s') \/ (r = pgd /\ built l0 m0 pgd hi s')).
Proof.
  induction ks as [|k ks IH]; intros lo s; cbn [ranges_ok setupkvm_loop].
  { intros -> Hb. exists pgd, s. split_and!; [done|apply mem_rel_refl|by right]. }
  intros [Hk Hks] Hb. destruct (built_step l0 m0 pgd lo s k env Hb Hk) as (r & s1 & E1 & Hr1 & Hres).
  fold (k_size k). rewrite (bind_ok _ _ _ _ _ _ _ E1). destruct Hres as [[-> Hx]|[-> Hb1]]; cbn.
  - exists 0, s1. split_and!; [done..|by left].
  - destruct (IH _ s1 Hks Hb1) as (r & s2 & E2 & Hr2 & Hres). exists r, s2.
    split_and!; [done|by eapply mem_rel_trans|done].
Qed.

(** The table [kmap] covers the kernel half in order. *)
Lemma kmap_ranges : link_ok -> ranges_ok 0 kmap 4294967296.
Proof.
  intros (L1 & L2 & L3 & _).
  assert (KERNLINK = 2148532224) as EL by done. rewrite EL in *.
  unfold KERNBASE, PHYSTOP in L3. cbn in L3.
  assert (V2P a_data = a_data - 2147483648) as EV by (unfold V2P; rewrite u32_small; unfold KERNBASE; lia).
  assert (u32 (a_data - 2147483648 - 1048576) = a_data - 2148532224) as ES1 by (rewrite u32_small; lia).
  assert (u32 (234881024 - (a_data - 2147483648)) = 2382364672 - a_data) as ES2 by (rewrite u32_small; lia).
  unfold kmap, ranges_ok. split_and!; [constructor..|].
  all: unfold k_size; cbn [k_virt k_start k_end k_perm]; rewrite ?EL, ?EV;
    change (V2P 2148532224) with 1048576; change (u32 (EXTMEM - 0)) with 1048576;
    change (u32 (0 - DEVSPACE)) with 33554432;
    unfold kernel_entry; rewrite ?EL; unfold KERNBASE, DEVSPACE, EXTMEM, PHYSTOP, PTE_W in *; rewrite ?ES1, ?ES2.
  all: change (Z.lor 2 1) with 3; change (Z.lor 0 1) with 1.
  all: try (intros; zcase; solve [lia | done | f_equal; lia]).
  all: try (split_and!; solve [lia | Z.div_mod_to_equations; lia]).
Qed.

(** ** setupkvm *)

Lemma fl_kalloc s l env :
  kmem_ready s -> fl_rep s l ->
  exists s', kalloc env s = Ok (default 0 (head l)) s' env /\ kmem_ready s' /\ fl_rep s' (tail l) /\
    mem_rel s s' /\ phys s' = phys s /\
    match l with [] => True | t :: l' => good_page t /\ t <> 0 /\ t ∉ l' end.
Proof.
  intros Hr Hf. rewrite kalloc_run by done.
  assert (forall fl, mem_rel s (set_freelist fl (set_kcpu (kmem_cpu s) s))) as Hrel.
  { intros fl. exists (phys s), fl, (kmem_cpu s). split; [|by right]. by destruct s. }
  destruct l as [|t l]; eexists.
  - assert (freelist s = 0) as Hh by apply Hf. rewrite Hh.
    split_and!; [done|by eapply mem_rel_ready| |apply Hrel|done|done].
    by repeat split; try constructor.
  - destruct (fl_rep_pop t s l Hf) as (Hh & Hnz & Hg & Hni & Hf'). rewrite Hh.
    destruct (Z.eqb_spec t 0); [done|]. split_and!; [done|by eapply mem_rel_ready|apply Hf'|apply Hrel|done..].
Qed.

(** A zeroed page is an empty address space. *)
Lemma space_empty m pgd : good_page pgd -> space (mset m (V2P pgd) 0 PGSIZE) pgd ∅ ∅.
Proof.
  intros Hg. constructor; [done| | | | |].
  - intros d t. by rewrite lookup_empty.
  - intros d Hd. rewrite lookup_empty. by apply load32_mset0.
  - intros n Hn. unfold pte_word. by rewrite !lookup_empty.
  - intros n e. by rewrite lookup_empty.
  - intros [|d|n] [|d'|n'] v; cbn; rewrite ?lookup_empty; try done; by destruct (_ <? _).
Qed.

Lemma setupkvm_run s l env :
  link_ok -> kmem_ready s -> fl_rep s l ->
  exists r s', setupkvm env s = Ok r s' env /\ mem_rel s s' /\
    ((r = 0 /\ exhausted l (phys s) s') \/ (r <> 0 /\ built l (phys s) r 4294967296 s')).
Proof.
  intros HL Hr Hf. unfold setupkvm.
  destruct (fl_kalloc s l env Hr Hf) as (s1 & E1 & Hr1 & Hf1 & Hrel1 & Hp1 & Hl).
  rewrite (bind_ok _ _ _ _ _ _ _ E1). destruct l as [|t l].
  { exists 0, s1. split_and!; [done..|left]. split; [done|]. split_and!; [done..|].
    rewrite Hp1. intros v _ _. apply same_page_refl. }
  destruct Hl as (Hg & Hnz & Hni). change (default 0 (head (t :: l))) with t in *.
  destruct (Z.eqb_spec t 0) as [|_]; [done|].
  unfold kmemset. rewrite bind_modify. change (DEVSPACE <? P2V PHYSTOP) with false. cbn iota.
  set (s2 := set_phys _ s1).
  destruct (setupkvm_loop_run (t :: l) (phys s) t 4294967296 env kmap 0 s2) as (r & s3 & E3 & Hrel3 & Hres);
    [by apply kmap_ranges| |].
  { exists l, ∅, ∅. split_and!.
    - constructor; [done| |by apply space_empty|].
      + unfold s2. apply fl_rep_same; [done|]. intros v Hv. apply same_page_mset; [by eapply fl_rep_good|done|].
        by intros ->.
      + intros [|d|n'] v; cbn; rewrite ?lookup_empty; try done; [by intros [= <-]|by destruct (_ <? _)].
    - intros v Hv Hvl. unfold s2. cbn [phys set_phys]. rewrite Hp1. apply same_page_mset; try done.
      intros ->. apply Hvl. constructor.
    - constructor.
    - intros d v. by rewrite lookup_empty.
    - by apply suffix_cons_r.
    - intros n'. rewrite lookup_empty. destruct (Z.ltb_spec (4096 * n') 0); [|done].
      unfold kernel_entry. destruct (Z.ltb_spec (4096 * n') KERNBASE); [done|]. unfold KERNBASE in *. lia. }
  exists r, s3. split_and!; [done| |].
  - eapply mem_rel_trans; [done|]. eapply mem_rel_trans; [apply mem_rel_phys|done].
  - destruct Hres as [[-> Hx]|[-> Hx]]; [left|right]; (split; [assumption || reflexivity|exact Hx]).
Qed.

(** ** Unmapping pages *)

Lemma space_same m m' pgd tabs E :
  space m pgd tabs E -> same_page m m' pgd -> (forall d t, tabs !! d = Some t -> same_page m m' t) ->
  space m' pgd tabs E.
Proof.
  intros [H1 H2 H3 H4 H5 H6] Hp Ht. constructor; try done.
  - intros d Hd. by rewrite (load32_page m m' pgd), H3.
  - intros n Hn. rewrite <- H4 by done. apply pte_word_same. intros t. apply Ht.
Qed.

Lemma same_page_freed s v w : good_page v -> good_page w -> w <> v -> same_page (phys s) (phys (freed v s)) w.
Proof.
  intros Hv Hw Hne. cbn [freed phys set_freelist set_phys].
  set (m1 := mset (phys s) (V2P v) 1 PGSIZE).
  apply (same_page_trans _ m1); [by apply same_page_mset|].
  pose proof (same_page_store32 m1 v 0 (freelist s) w Hw Hv Hne ltac:(lia)) as H.
  by rewrite Z.mul_0_r, Z.add_0_r in H.
Qed.

Lemma mem_rel_freed s v : mem_rel s (freed v s).
Proof.
  unfold freed. eexists _, _, (kmem_cpu s). split; [|by right]. reflexivity.
Qed.

(** Freeing the frame of page [n] and clearing its entry. *)
Lemma world_unmap s l pgd tabs E n t e :
  world s l pgd tabs E -> tabs !! (n / 1024) = Some t -> E !! n = Some e -> n < USERVPN ->
  let v := frame_of e in
  let s' := set_phys (store32 (phys (freed v s)) (V2P t + 4 * (n mod 1024)) 0) (freed v s) in
  world s' (v :: l) pgd tabs (delete n E) /\ kept (v :: l) pgd tabs (phys s) (phys s').
Proof.
  intros Hw Ht He Hu v s'. pose proof (w_space _ _ _ _ _ Hw) as Hsp.
  destruct (sp_ent _ _ _ _ Hsp n e He) as (Hn & Hr & HP & Hg). specialize (Hg Hu). fold v in Hg.
  assert (pg pgd tabs E (LFrame n) = Some v) as Hpg.
  { cbn. rewrite (proj2 (Z.ltb_lt _ _) Hu), He. done. }
  assert (forall x w, pg pgd tabs E x = Some w -> x <> LFrame n -> w <> v) as Hother.
  { intros x w Hx Hxn ->. by apply Hxn, (sp_inj _ _ _ _ Hsp _ _ v). }
  destruct (sp_tab _ _ _ _ Hsp _ _ Ht) as [_ Hgt].
  assert (0 <= n mod 1024 < 1024) as Hm by (apply Z.mod_pos_bound; lia).
  assert (fl_rep (freed v s) (v :: l)) as Hfl.
  { apply fl_rep_freed; [done| |exact (w_free _ _ _ _ _ Hw)]. by apply (w_apart _ _ _ _ _ Hw (LFrame n)). }
  assert (t ∉ v :: l) as Htl.
  { intros [->|Hin]%elem_of_cons; [by apply (Hother (LTab (n / 1024)) v)|by apply (w_apart _ _ _ _ _ Hw (LTab (n / 1024)) t)]. }
  split.
  - constructor.
    + apply kmem_ready_phys, kmem_ready_freed, (w_ready _ _ _ _ _ Hw).
    + apply fl_rep_same; [done|]. intros w Hwl. apply same_page_store32; try done.
      * by eapply fl_rep_good.
      * by intros ->.
    + change (delete n E) with (partial_alter (fun _ => None) n E).
      apply (space_set_entry _ pgd tabs E n t None); [|done|done|done].
      apply (space_same (phys s)); [done|..].
      * apply same_page_freed; [done|apply Hsp|]. by apply (Hother LDir).
      * intros d t' Ht'. apply same_page_freed; [done|by apply (sp_tab _ _ _ _ Hsp _ _ Ht')|]. by apply (Hother (LTab d)).
    + intros x w Hx [->|Hin]%elem_of_cons.
      * destruct x as [|d|n']; cbn in Hx; [by apply (Hother LDir v)|by apply (Hother (LTab d) v)|].
        destruct (decide (n' = n)) as [->|Hnn]; [by rewrite lookup_delete_eq in Hx; destruct (_ <? _)|].
        rewrite lookup_delete_ne in Hx by done. by apply (Hother (LFrame n') v); [|congruence|].
      * apply (w_apart _ _ _ _ _ Hw x w); [|done]. destruct x as [|d|n']; cbn in Hx |- *; [done..|].
        destruct (decide (n' = n)) as [->|Hnn]; [by rewrite lookup_delete_eq in Hx; destruct (_ <? _)|].
        by rewrite lookup_delete_ne in Hx by done.
  - intros w Hw' Hwl Hp Htt. apply (same_page_trans _ (phys (freed v s))).
    + apply same_page_freed; [done..|]. intros ->. apply Hwl. constructor.
    + apply same_page_store32; try done. by intros ->; apply (Htt (n / 1024)).
Qed.

(** The frames of the pages from [lo] on, below [hi], were freed. *)
Definition freed_range (E : gmap Z Z) (lo hi : Z) (l l' : list Z) : Prop :=
  l `suffix_of` l' /\
  (forall n e, lo <= n < hi -> E !! n = Some e -> frame_of e ∈ l') /\
  forall v, v ∈ l' -> v ∈ l \/ exists n e, lo <= n < hi /\ E !! n = Some e /\ v = frame_of e.

Lemma freed_range_refl E lo hi l :
  (forall n, lo <= n < hi -> E !! n = None) -> freed_range E lo hi l l.
Proof. intros H. split_and!; [done| |by auto]. intros n e Hn He. by rewrite H in He. Qed.

Definition minus_range (E : gmap Z Z) (lo hi : Z) (E' : gmap Z Z) : Prop :=
  forall n, E' !! n = if (lo <=? n) && (n <? hi) then None else E !! n.

Lemma minus_range_trans E lo mid hi E1 E2 :
  lo <= mid <= hi -> minus_range E lo mid E1 -> minus_range E1 mid hi E2 -> minus_range E lo hi E2.
Proof. intros Hm H1 H2 n. rewrite H2, H1. zcase; cbn [andb]; try lia; done. Qed.

Lemma freed_range_trans E lo mid hi E1 l l1 l2 :
  lo <= mid <= hi -> freed_range E lo mid l l1 -> minus_range E lo mid E1 -> freed_range E1 mid hi l1 l2 ->
  freed_range E lo hi l l2.
Proof.
  intros Hm (S1 & F1 & H1) HE (S2 & F2 & H2). split_and!; [by etrans| |].
  { intros n e Hn He. destruct (decide (n < mid)).
    - apply (suffix_in l2 l1); [done|]. apply (F1 n e); [lia|done].
    - apply (F2 n e); [lia|]. rewrite HE. zcase; cbn [andb]; try lia; done. }
  intros v [Hv|(n & e & Hn & He & ->)]%H2.
  - apply H1 in Hv as [?|(n & e & Hn & He & ->)]; [by left|right]. exists n, e. split_and!; try done; lia.
  - right. exists n, e. rewrite HE in He. destruct ((lo <=? n) && (n <? mid)); [done|].
    split_and!; try done; lia.
Qed.

(** Keeping all pages but those of the longer free list composes. *)
Lemma kept_suffix_trans l1 l2 pgd tabs m1 m2 m3 :
  kept l1 pgd tabs m1 m2 -> kept l2 pgd tabs m2 m3 -> l1 `suffix_of` l2 -> kept l2 pgd tabs m1 m3.
Proof.
  intros H1 H2 Hs v Hg Hl Hp Ht. apply (same_page_trans _ m2); [|by apply H2]. apply H1; try done.
  intros ?. by apply Hl, (suffix_in l2 l1).
Qed.

Lemma PGADDR_next d : 0 <= d < 512 -> u32 (u32 (PGADDR (d + 1) 0 0 - PGSIZE) + PGSIZE) = (d + 1) * 4194304.
Proof.
  intros Hd. unfold PGADDR, PGSIZE. rewrite !Z.lor_0_r, Z.shiftl_mul_pow2 by lia. change (2 ^ 22) with 4194304.
  rewrite (u32_small ((d + 1) * 4194304)) by lia. rewrite u32_add_l, u32_small; lia.
Qed.

(** The first page that starts at [sz] or above. *)
Definition up_vpn (sz : Z) : Z := (sz + 4095) / 4096.

(** What one turn of [deallocuvm] does, from [a] on to [a']. *)
Definition unmapped_to (oldsz a a' : Z) s s' l l' pgd tabs E E' : Prop :=
  a + 4096 <= a' <= KERNBASE /\ a' mod 4096 = 0 /\
  let hi := Z.min (a' / 4096) (up_vpn oldsz) in
  world s' l' pgd tabs E' /\ minus_range E (a / 4096) hi E' /\ mem_rel s s' /\
  freed_range E (a / 4096) hi l l' /\ kept l' pgd tabs (phys s) (phys s').

Lemma next_page a oldsz :
  0 <= a < oldsz -> oldsz <= KERNBASE -> a mod 4096 = 0 ->
  0 <= a / 4096 < USERVPN /\ (a + 4096) / 4096 = a / 4096 + 1 /\ (a + 4096) mod 4096 = 0 /\
  u32 (a + PGSIZE) = a + 4096 /\ a + 4096 <= KERNBASE /\
  Z.min ((a + 4096) / 4096) (up_vpn oldsz) = a / 4096 + 1.
Proof using.
  intros Ha Ho Hal. unfold KERNBASE in *. split_and!; try (unfold USERVPN, up_vpn; Z.div_mod_to_equations; lia).
  apply u32_small. unfold PGSIZE. lia.
Qed.

(** A page without an entry. *)
Lemma unmapped_absent s l pgd tabs E oldsz a :
  world s l pgd tabs E -> 0 <= a < oldsz -> oldsz <= KERNBASE -> a mod 4096 = 0 -> E !! (a / 4096) = None ->
  unmapped_to oldsz a (a + 4096) s s l l pgd tabs E E.
Proof using.
  intros Hw Ha Ho Hal He. destruct (next_page a oldsz Ha Ho Hal) as (Hn & Hq & Hm & Eu & Hub & Hmin).
  unfold unmapped_to. rewrite Hmin. split_and!; try lia; try done.
  - intros n. zcase; cbn [andb]; try done. by replace n with (a / 4096) by lia.
  - apply mem_rel_refl.
  - apply freed_range_refl. intros n Hn'. by replace n with (a / 4096) by lia.
Qed.

(** A page with an entry: its frame is freed. *)
Lemma unmapped_present s l pgd tabs E oldsz a t e :
  world s l pgd tabs E -> 0 <= a < oldsz -> oldsz <= KERNBASE -> a mod 4096 = 0 ->
  tabs !! (a / 4096 / 1024) = Some t -> E !! (a / 4096) = Some e ->
  let s1 := freed (frame_of e) s in
  let s' := set_phys (store32 (phys s1) (V2P t + 4 * (a / 4096 mod 1024)) 0) s1 in
  unmapped_to oldsz a (a + 4096) s s' l (frame_of e :: l) pgd tabs E (delete (a / 4096) E).
Proof using.
  intros Hw Ha Ho Hal Et He s1 s'. destruct (next_page a oldsz Ha Ho Hal) as (Hn & Hq & Hm & Eu & Hub & Hmin).
  destruct (world_unmap s l pgd tabs E (a / 4096) t e Hw Et He (proj2 Hn)) as [Hw' Hk'].
  unfold unmapped_to. rewrite Hmin. split_and!; try lia; try done.
  - intros n. destruct (decide (n = a / 4096)) as [->|Hne].
    + rewrite lookup_delete_eq. zcase; cbn [andb]; try lia; done.
    + rewrite lookup_delete_ne by done. zcase; cbn [andb]; try lia; done.
  - eapply mem_rel_trans; [apply mem_rel_freed|apply mem_rel_phys].
  - split_and!; [by apply suffix_cons_r| |].
    + intros n e' Hn' He'. replace n with (a / 4096) in He' by lia. rewrite He in He'. injection He' as <-. constructor.
    + intros v [->|Hv]%elem_of_cons; [right|by left]. exists (a / 4096), e. split_and!; [lia|lia|done|done].
Qed.

(** No page table: the turn goes on to the next directory entry. *)
Lemma unmapped_no_table s l pgd tabs E oldsz a :
  world s l pgd tabs E -> 0 <= a < oldsz -> oldsz <= KERNBASE -> a mod 4096 = 0 ->
  tabs !! (a / 4096 / 1024) = None ->
  unmapped_to oldsz a ((a / 4096 / 1024 + 1) * 4194304) s s l l pgd tabs E E.
Proof using.
  intros Hw Ha Ho Hal Et. pose proof (w_space _ _ _ _ _ Hw) as Hsp. unfold KERNBASE in Ho.
  set (a' := (a / 4096 / 1024 + 1) * 4194304).
  assert (forall n, a / 4096 <= n < a' / 4096 -> E !! n = None) as HNone.
  { intros n Hn'. destruct (E !! n) as [e|] eqn:He; [|done]. exfalso.
    destruct (space_tab _ _ _ _ _ _ Hsp He) as [t Ht].
    assert (n / 1024 = a / 4096 / 1024) as Eq by (unfold a' in *; Z.div_mod_to_equations; lia). congruence. }
  unfold unmapped_to. cbv zeta. split_and!; try done; try (unfold a', KERNBASE; Z.div_mod_to_equations; lia).
  - intros n. zcase; cbn [andb]; try done. apply HNone. lia.
  - apply mem_rel_refl.
  - apply freed_range_refl. intros n Hn'. apply HNone. lia.
Qed.

Lemma frame_not_first e : link_ok -> good_page (frame_of e) -> PTE_ADDR e <> 0.
Proof using.
  intros HL Hgf E0. unfold frame_of in Hgf. rewrite E0 in Hgf. destruct HL as (_ & H1 & _ & H2).
  destruct Hgf as (_ & H3 & _). change (P2V 0) with KERNBASE in H3.
  change KERNLINK with 2148532224 in *. unfold KERNBASE in *. lia.
Qed.

Lemma unmap_page_run s l pgd tabs E oldsz newsz a env :
  link_ok -> world s l pgd tabs E -> 0 <= a < oldsz -> oldsz <= KERNBASE -> a mod 4096 = 0 ->
  exists a' s' l' E', unmap_page pgd oldsz newsz a env s = Ok (inl a') s' env /\
    unmapped_to oldsz a a' s s' l l' pgd tabs E E'.
Proof.
  intros HL Hw Ha Ho Hal. pose proof (w_space _ _ _ _ _ Hw) as Hsp.
  destruct (next_page a oldsz Ha Ho Hal) as (Hn & _ & _ & Eu & _ & _). unfold KERNBASE in Ho.
  unfold unmap_page. destruct (Z.ltb_spec a oldsz); [|lia]. cbn [negb].
  destruct (tabs !! PDX a) as [t|] eqn:Et.
  - rewrite (bind_ok _ _ _ _ _ _ _ (walkpgdir_found s pgd tabs E a t false env Hsp Et)).
    destruct (sp_tab _ _ _ _ Hsp _ _ Et) as [_ Hg]. pose proof (PTX_range a) as Hx.
    destruct (V2P_word t (PTX a) Hg Hx) as [EV Hnz]. rewrite u32_pg in EV, Hnz by (done || lia).
    destruct (Z.eqb_spec (t + 4 * PTX a) 0) as [|_]; [done|].
    unfold kread32. rewrite bind_gets, EV. rewrite PDX_vpn in Et by lia. rewrite PTX_vpn in * by lia.
    pose proof (sp_pte _ _ _ _ Hsp (a / 4096) ltac:(unfold NVPN, USERVPN in *; lia)) as Hpw.
    unfold pte_word in Hpw. rewrite Et in Hpw. rewrite Hpw.
    destruct (E !! (a / 4096)) as [e|] eqn:He; cbn [default from_option].
    + destruct (sp_ent _ _ _ _ Hsp _ _ He) as (_ & Hr & HP & Hgf). specialize (Hgf (proj2 Hn)).
      cbn [id]. destruct (Z.eqb_spec (Z.land e PTE_P) 0) as [|_]; [done|].
      destruct (Z.eqb_spec (PTE_ADDR e) 0) as [E0|_]; [by destruct (frame_not_first e HL Hgf)|]. fold (frame_of e).
      rewrite (bind_ok _ _ _ _ _ _ _ (kfree_good _ env s Hgf (w_ready _ _ _ _ _ Hw))).
      unfold kwrite32. rewrite bind_modify, EV, Eu. eexists (a + 4096), _, _, _. split; [done|].
      exact (unmapped_present s l pgd tabs E oldsz a t e Hw Ha Ho Hal Et He).
    + change (Z.land (id 0) PTE_P =? 0) with true. cbn iota. rewrite Eu. eexists _, _, _, _. split; [done|].
      by apply unmapped_absent.
  - rewrite (bind_ok _ _ _ _ _ _ _ (walkpgdir_none s pgd tabs E a env Hsp Et)). cbn [Z.eqb].
    rewrite PDX_vpn in * by lia.
    assert (0 <= a / 4096 / 1024 < 512) as Hd by (Z.div_mod_to_equations; lia).
    rewrite PGADDR_next by lia. eexists _, _, _, _. split; [done|]. by apply unmapped_no_table.
Qed.
End Spaces.
