(* ===== verification/Vmops.v ===== *)
(** * Growing, shrinking, freeing and copying address spaces

    [deallocuvm], [freevm], [allocuvm] and [copyuvm] on the address spaces
    of Vmspace.v. *)

From stdpp Require Import base numbers list gmap strings.
From S2P Require Import Prelude Kernel Spinlock Sched Kalloc Console Umem Str Vm Vmspace.

Section Ops.
Context {LK : Link}.

Lemma PGROUNDUP_vpn sz : 0 <= sz <= KERNBASE -> PGROUNDUP sz = 4096 * up_vpn sz.
Proof.
  intros H. unfold KERNBASE in H. rewrite PGROUNDUP_eq by lia. unfold up_vpn. Z.div_mod_to_equations. lia.
Qed.

(** ** deallocuvm *)

(** A range that starts above its end is empty. *)
Lemma range_cap E lo hi E' : minus_range E lo hi E' -> minus_range E (Z.min lo hi) hi E'.
Proof. intros H n. rewrite (H n). zcase; cbn [andb]; try lia; done. Qed.
Lemma freed_range_cap E lo hi l l' : freed_range E lo hi l l' -> freed_range E (Z.min lo hi) hi l l'.
Proof.
  intros (H1 & H2 & H3). split_and!; [done| |].
  - intros n e Hn He. apply (H2 n e); [lia|done].
  - intros v [?|(n & e & Hn & He & ->)]%H3; [by left|right].
    exists n, e. split_and!; try done; lia.
Qed.

Lemma unmap_loop pgd tabs oldsz newsz env : link_ok -> oldsz <= KERNBASE ->
  forall fuel a s l E, world s l pgd tabs E -> 0 <= a <= KERNBASE -> a mod 4096 = 0 ->
  (Z.to_nat ((oldsz - a + 4095) / 4096) < fuel)%nat ->
  exists s' l' E', loop_n fuel (unmap_page pgd oldsz newsz) a env s = Ok newsz s' env /\
    world s' l' pgd tabs E' /\ minus_range E (a / 4096) (up_vpn oldsz) E' /\ mem_rel s s' /\
    freed_range E (a / 4096) (up_vpn oldsz) l l' /\ kept l' pgd tabs (phys s) (phys s').
Proof.
  intros HL Ho. induction fuel as [|fuel IH]; intros a s l E Hw Ha Hal Hf; [lia|]. cbn [loop_n].
  destruct (decide (a < oldsz)) as [Hlt|Hge].
  - destruct (unmap_page_run s l pgd tabs E oldsz newsz a env)
      as (a' & s1 & l1 & E1 & E0 & Ha' & Hal' & Hw1 & HE1 & Hr1 & Hf1 & Hk1); try done; try lia.
    rewrite (bind_ok _ _ _ _ _ _ _ E0). cbn iota.
    destruct (IH a' s1 l1 E1 Hw1) as (s2 & l2 & E2 & EL & Hw2 & HE2 & Hr2 & Hf2 & Hk2); try done; try lia.
    { Z.div_mod_to_equations. lia. }
    assert (minus_range E (a / 4096) (up_vpn oldsz) E2 /\ freed_range E (a / 4096) (up_vpn oldsz) l l2) as [H1 H2].
    { assert (a / 4096 <= a' / 4096) by (apply Z.div_le_mono; lia).
      assert (a / 4096 <= up_vpn oldsz) by (unfold up_vpn; Z.div_mod_to_equations; lia).
      apply range_cap in HE2. pose proof (freed_range_cap _ _ _ _ _ Hf2) as Hf2'.
      split; [eapply minus_range_trans; [|done..]|eapply freed_range_trans; [|done..]]; lia. }
    exists s2, l2, E2. split_and!; try done; [by eapply mem_rel_trans|].
    eapply kept_suffix_trans; [done..|]. apply Hf2.
  - unfold unmap_page. destruct (Z.ltb_spec a oldsz); [lia|]. cbn [negb]. rewrite bind_ret.
    exists s, l, E. split_and!; try done.
    + intros n. zcase; cbn [andb]; try done. exfalso. unfold up_vpn in *. Z.div_mod_to_equations. lia.
    + apply mem_rel_refl.
    + apply freed_range_refl. intros n Hn. exfalso. unfold up_vpn in *. Z.div_mod_to_equations. lia.
Qed.

Lemma deallocuvm_run s l pgd tabs E oldsz newsz env :
  link_ok -> world s l pgd tabs E -> 0 <= newsz -> newsz < oldsz -> oldsz <= KERNBASE ->
  exists s' l' E', deallocuvm pgd oldsz newsz env s = Ok newsz s' env /\
    world s' l' pgd tabs E' /\ minus_range E (up_vpn newsz) (up_vpn oldsz) E' /\ mem_rel s s' /\
    freed_range E (up_vpn newsz) (up_vpn oldsz) l l' /\ kept l' pgd tabs (phys s) (phys s').
Proof.
  intros HL Hw H0 Hn Ho. unfold deallocuvm. destruct (Z.leb_spec oldsz newsz); [lia|].
  rewrite PGROUNDUP_vpn by lia. unfold KERNBASE, PGSIZE in *.
  destruct (unmap_loop pgd tabs oldsz newsz env HL ltac:(unfold KERNBASE; lia)
    (S (S (Z.to_nat (oldsz / 4096)))) (4096 * up_vpn newsz) s l E Hw) as (s' & l' & E' & EL & HR).
  - unfold KERNBASE, up_vpn. Z.div_mod_to_equations. lia.
  - rewrite Z.mul_comm. apply Z_mod_mult.
  - assert (0 <= up_vpn newsz) by (unfold up_vpn; Z.div_mod_to_equations; lia).
    assert ((oldsz - 4096 * up_vpn newsz + 4095) / 4096 <= oldsz / 4096 + 1); [|lia].
    Z.div_mod_to_equations. lia.
  - rewrite Z.mul_comm, Z.div_mul in HR by lia. by exists s', l', E'.
Qed.

(** ** freevm *)

(** Pages that are not free at the end keep their contents. *)
Definition kept_out (l' : list Z) (m m' : gmap Z Z) : Prop :=
  forall v, good_page v -> v ∉ l' -> same_page m m' v.

Lemma kept_out_trans l1 l2 m1 m2 m3 :
  l1 `suffix_of` l2 -> kept_out l1 m1 m2 -> kept_out l2 m2 m3 -> kept_out l2 m1 m3.
Proof.
  intros Hs H1 H2 v Hg Hv. apply (same_page_trans _ m2); [|by apply H2]. apply H1; [done|].
  intros ?. by apply Hv, (suffix_in l2 l1).
Qed.

(** [kfree] of a page that is not free. *)
Lemma fl_kfree v s l env :
  good_page v -> v ∉ l -> kmem_ready s -> fl_rep s l ->
  kfree v env s = Ok tt (freed v s) env /\ kmem_ready (freed v s) /\ fl_rep (freed v s) (v :: l) /\
  mem_rel s (freed v s) /\ kept_out (v :: l) (phys s) (phys (freed v s)).
Proof.
  intros Hg Hv Hr Hf. split_and!; [by apply kfree_good|by apply kmem_ready_freed|by apply fl_rep_freed|apply mem_rel_freed|].
  intros w Hw Hwl. apply same_page_freed; [done..|]. intros ->. apply Hwl. constructor.
Qed.

Lemma free_tabs pgd (tabs : gmap Z Z) env : good_page pgd -> forall ds s l,
  NoDup ds -> kmem_ready s -> fl_rep s l -> pgd ∉ l ->
  (forall d, d ∈ ds -> 0 <= d < 1024 /\
     load32 (phys s) (V2P pgd + 4 * d) = match tabs !! d with Some t => V2P t + 7 | None => 0 end /\
     forall t, tabs !! d = Some t -> good_page t /\ t ∉ l /\ t <> pgd) ->
  (forall d d' (t : Z), tabs !! d = Some t -> tabs !! d' = Some t -> d = d') ->
  exists s' l', for_each ds (free_tab pgd) env s = Ok tt s' env /\
    kmem_ready s' /\ fl_rep s' l' /\ mem_rel s s' /\ l `suffix_of` l' /\ pgd ∉ l' /\
    (forall d t, d ∈ ds -> tabs !! d = Some t -> t ∈ l') /\
    (forall v, v ∈ l' -> v ∈ l \/ exists d, d ∈ ds /\ tabs !! d = Some v) /\
    kept_out l' (phys s) (phys s').
Proof.
  intros Hg. induction ds as [|d ds IH]; intros s l Hnd Hr Hf Hp Hd Hinj; cbn [for_each].
  { exists s, l. split_and!; try done; [apply mem_rel_refl|intros d t Hd0; by apply not_elem_of_nil in Hd0|by auto]. }
  apply NoDup_cons in Hnd as [Hnd1 Hnd2].
  destruct (Hd d ltac:(constructor)) as (Hr0 & Hw & Ht). unfold free_tab at 1, kread32. rewrite bind_assoc, bind_gets.
  rewrite (proj1 (V2P_word pgd d Hg Hr0)), Hw. destruct (tabs !! d) as [t|] eqn:Et.
  - destruct (Ht t eq_refl) as (Hgt & Htl & Htp). destruct (good_pde t Hgt) as (-> & Hfr & _). cbn [negb when].
    unfold frame_of in Hfr. rewrite Hfr. destruct (fl_kfree t s l env) as (E1 & Hr1 & Hf1 & Hm1 & Hk1); try done.
    rewrite (bind_ok _ _ _ _ _ _ _ E1).
    destruct (IH (freed t s) (t :: l)) as (s' & l' & EL & Hr2 & Hf2 & Hm2 & Hs2 & Hp2 & Hin2 & Hout2 & Hk2); try done.
    + intros [->|?]%elem_of_cons; done.
    + intros d' Hd'. destruct (Hd d' ltac:(by right)) as (Hr' & Hw' & Ht'). split_and!; [lia|lia| |].
      * rewrite <- Hw'. apply load32_page; [|done]. by apply same_page_freed.
      * intros t' Et'. destruct (Ht' t' Et') as (? & ? & ?). split_and!; try done.
        intros [->|?]%elem_of_cons; [|done]. by rewrite (Hinj d d' t) in Hnd1.
    + exists s', l'. split_and!; try done.
      * by eapply mem_rel_trans.
      * etrans; [|done]. by apply suffix_cons_r.
      * intros d' t' [->|Hd']%elem_of_cons Et'; [|by apply (Hin2 d')]. rewrite Et in Et'. injection Et' as <-.
        apply (suffix_in l' (t :: l)); [done|constructor].
      * intros v Hv. destruct (Hout2 v Hv) as [[->|?]%elem_of_cons|(d' & ? & ?)]; [|by left|].
        -- right. exists d. split; [constructor|done].
        -- right. exists d'. split; [by right|done].
      * by eapply (kept_out_trans (t :: l)).
  - change (Z.land 0 PTE_P =? 0) with true. cbn [negb when]. rewrite bind_ret.
    destruct (IH s l) as (s' & l' & EL & Hr2 & Hf2 & Hm2 & Hs2 & Hp2 & Hin2 & Hout2 & Hk2); try done.
    { intros d' Hd'. apply Hd. by right. }
    exists s', l'. split_and!; try done.
    + intros d' t' [->|Hd']%elem_of_cons Et'; [congruence|by apply (Hin2 d')].
    + intros v Hv. destruct (Hout2 v Hv) as [?|(d' & ? & ?)]; [by left|]. right. exists d'. split; [by right|done].
Qed.

Lemma good_nonzero v : good_page v -> v <> 0.
Proof. intros (_ & _ & Hv). unfold KERNBASE in Hv. lia. Qed.

Lemma freevm_run s l pgd tabs E env :
  link_ok -> world s l pgd tabs E ->
  exists s' l', freevm pgd env s = Ok tt s' env /\ kmem_ready s' /\ fl_rep s' l' /\ mem_rel s s' /\
    l `suffix_of` l' /\ (forall x v, pg pgd tabs E x = Some v -> v ∈ l') /\
    (forall v, v ∈ l' -> v ∈ l \/ exists x, pg pgd tabs E x = Some v) /\
    kept_out l' (phys s) (phys s').
Proof.
  intros HL Hw. pose proof (w_space _ _ _ _ _ Hw) as Hsp. pose proof (sp_dir _ _ _ _ Hsp) as Hg.
  unfold freevm. destruct (Z.eqb_spec pgd 0) as [E0|_]; [by apply good_nonzero in Hg|].
  destruct (deallocuvm_run s l pgd tabs E KERNBASE 0 env HL Hw)
    as (s1 & l1 & E1 & ED & Hw1 & HE1 & Hm1 & (Fs & Fi & Fo) & Hk1); [unfold KERNBASE; lia..|].
  rewrite (bind_ok _ _ _ _ _ _ _ ED). change (up_vpn 0) with 0 in *. change (up_vpn KERNBASE) with USERVPN in *.
  pose proof (w_space _ _ _ _ _ Hw1) as Hsp1.
  destruct (free_tabs pgd tabs env Hg (seqZ 0 (Z.of_nat NPDENTRIES)) s1 l1)
    as (s2 & l2 & EL & Hr2 & Hf2 & Hm2 & Hs2 & Hp2 & Hin2 & Hout2 & Hk2).
  - apply NoDup_seqZ.
  - apply Hw1.
  - apply Hw1.
  - by apply (w_apart _ _ _ _ _ Hw1 LDir).
  - intros d Hd%elem_of_seqZ. change (0 + Z.of_nat NPDENTRIES) with 1024 in Hd. split_and!; [lia|lia|by apply Hsp1|].
    intros t Ht. split_and!; [by apply (sp_tab _ _ _ _ Hsp1 d t)|by apply (w_apart _ _ _ _ _ Hw1 (LTab d))|].
    intros ->. by discriminate (sp_inj _ _ _ _ Hsp1 LDir (LTab d) pgd eq_refl Ht).
  - intros d d' t Ht Ht'. by assert (LTab d = LTab d') as [=] by (by apply (sp_inj _ _ _ _ Hsp1 _ _ t)).
  - assert (forall d t, tabs !! d = Some t -> t ∈ l2) as Htin.
    { intros d t Ht. apply (Hin2 d t); [|done]. apply elem_of_seqZ.
      change (0 + Z.of_nat NPDENTRIES) with 1024. by apply (sp_tab _ _ _ _ Hsp1 d t). }
    rewrite (bind_ok _ _ _ _ _ _ _ EL).
    destruct (fl_kfree pgd s2 l2 env) as (EK & Hr3 & Hf3 & Hm3 & Hk3); try done.
    exists (freed pgd s2), (pgd :: l2). split_and!; try done.
    + eapply mem_rel_trans; [done|]. by eapply mem_rel_trans.
    + etrans; [done|]. etrans; [done|]. by apply suffix_cons_r.
    + intros [|d|n] v; cbn.
      * intros [= <-]. constructor.
      * intros Ht. right. by apply (Htin d).
      * destruct (Z.ltb_spec n USERVPN); [|done]. intros (e & He & ->)%fmap_Some.
        right. apply (suffix_in l2 l1); [done|]. apply (Fi n e); [|done].
        destruct (sp_ent _ _ _ _ Hsp n e He). lia.
    + intros v [->|[Hv|(d & _ & Hd)]%Hout2]%elem_of_cons; [right; by exists LDir| |right; by exists (LTab d)].
      apply Fo in Hv as [?|(n & e & Hn & He & ->)]; [by left|right]. exists (LFrame n). cbn.
      rewrite (proj2 (Z.ltb_lt n USERVPN)), He by lia. done.
    + intros v Hgv Hv. assert (v ∉ l2) as Hv2 by (intros ?; apply Hv; by right).
      apply (same_page_trans _ (phys s1)); [apply Hk1; try done|apply (same_page_trans _ (phys s2)); [by apply Hk2|by apply Hk3]].
      * intros ?. by apply Hv2, (suffix_in l2 l1).
      * intros ->. apply Hv. constructor.
      * intros d Ht. by apply Hv2, (Htin d).
Qed.

(** ** copyuvm *)

(** One page in the user half. *)
Lemma mappages_user s l pgd tabs E a v perm env :
  world s l pgd tabs E -> 0 <= a < KERNBASE -> a mod 4096 = 0 -> E !! (a / 4096) = None ->
  good_page v -> v ∉ l -> (forall x, pg pgd tabs E x <> Some v) -> 0 <= perm < 4096 ->
  exists r s' l' tabs', mappages pgd a PGSIZE (V2P v) perm env s = Ok r s' env /\ mem_rel s s' /\
    kept l pgd tabs (phys s) (phys s') /\ grown l tabs l' tabs' /\
    ((r = -1 /\ l = [] /\ world s' l' pgd tabs' E) \/
     (r = 0 /\ world s' l' pgd tabs' (<[a / 4096 := V2P v + Z.lor perm 1]> E))).
Proof.
  intros Hw Ha Hal HE Hg Hl Hx Hp. unfold KERNBASE in Ha. change PGSIZE with (4096 * (Z.of_nat 0 + 1)).
  rewrite mappages_pages by (done || lia). change (4096 * Z.of_nat 0) with 0. rewrite Z.add_0_r. cbn [loop_n].
  destruct (V2P_aligned v Hg) as [Hva Hvr]. unfold PHYSTOP in Hvr.
  destruct (entry_eq (V2P v) perm) as (He & Hf & HP & Hr & _); [done|lia|done|].
  destruct (map_page_run s l pgd tabs E a perm a (V2P v) env Hw) as
    [(s1 & E1 & -> & Hw1 & Hr1 & Hp1)|(s1 & l1 & tabs1 & E1 & Hw1 & Hr1 & Hk1 & Hg1)]; [lia|done| |..].
  { rewrite He. split_and!; [lia|lia|done|]. intros _.
    destruct (good_entry v (Z.lor perm 1) Hg Hf) as (_ & -> & _). done. }
  - exists (-1), s1, [], tabs. rewrite (bind_ok _ _ _ _ _ _ _ E1), Hp1.
    split_and!; [done|done|apply kept_refl|apply grown_refl|by left].
  - exists 0, s1, l1, tabs1. rewrite (bind_ok _ _ _ _ _ _ _ E1), Z.eqb_refl.
    split_and!; [done..|]. right. by rewrite He in Hw1.
Qed.

(** Storing to a page that belongs to nobody. *)
Lemma world_other_page s l pgd tabs E v m' :
  world s l pgd tabs E -> v ∉ l -> (forall x, pg pgd tabs E x <> Some v) ->
  (forall w, good_page w -> w <> v -> same_page (phys s) m' w) -> world (set_phys m' s) l pgd tabs E.
Proof.
  intros [Hr Hf Hsp Ha] Hl Hx Hs. constructor; [done| | |done].
  - apply fl_rep_same; [done|]. intros w Hw. apply Hs; [by eapply fl_rep_good|]. by intros ->.
  - apply (space_same (phys s)); [done|..].
    + apply Hs; [apply Hsp|]. intros ->. by apply (Hx LDir).
    + intros d t Ht. apply Hs; [by apply (sp_tab _ _ _ _ Hsp d)|]. intros ->. by apply (Hx (LTab d)).
Qed.

Lemma same_page_memmove m v w n u : good_page v -> good_page u -> u <> v -> 0 <= n <= PGSIZE ->
  same_page m (memmove m (V2P v) w n) u.
Proof.
  intros Hv Hu Hne Hn x Hx. rewrite mget_memmove by lia.
  destruct (V2P_apart u v Hu Hv Hne); zcase; cbn [andb]; try lia; done.
Qed.

(** What the hardware finds in an address space. *)
Lemma walk_space m pgd tabs E wr va :
  space m pgd tabs E -> 0 <= va < 4294967296 ->
  walk m (V2P pgd) wr va =
    match E !! (va / 4096) with
    | Some e => if pte_allows wr e then Some (PTE_ADDR e + va mod 4096) else None
    | None => None
    end.
Proof.
  intros Hsp Hva. pose proof (sp_dir _ _ _ _ Hsp) as Hg. destruct (good_entry pgd 0 Hg) as (_ & Hfr & _); [lia|].
  destruct (V2P_aligned pgd Hg) as [Hal Hr]. unfold PHYSTOP in Hr.
  assert (PTE_ADDR (V2P pgd) = V2P pgd) as EA.
  { destruct (pte_parts (V2P pgd) 0) as (_ & H2 & _); [done|lia|lia|]. by rewrite Z.add_0_r in H2. }
  unfold walk, pte_at, pde_at. rewrite EA, (sp_pde _ _ _ _ Hsp) by apply PDX_range.
  rewrite PDX_vpn, PTX_vpn by done.
  assert (0 <= va / 4096 < NVPN) as Hn by (unfold NVPN; Z.div_mod_to_equations; lia).
  pose proof (sp_pte _ _ _ _ Hsp _ Hn) as Hpw. unfold pte_word in Hpw.
  destruct (tabs !! (va / 4096 / 1024)) as [t|] eqn:Et.
  - destruct (sp_tab _ _ _ _ Hsp _ _ Et) as [_ Hgt]. destruct (V2P_aligned t Hgt) as [Halt Hrt]. unfold PHYSTOP in Hrt.
    destruct (pte_parts (V2P t) 7) as (_ & H2 & _ & H4); [done|lia|lia|]. rewrite H2, Hpw.
    assert (pte_allows wr (V2P t + 7) = true) as ->.
    { unfold pte_allows. rewrite H4. cbn. destruct wr; [|done]. cbn. unfold PTE_W.
      destruct (Z.eqb_spec (Z.land (V2P t + 7) 2) 0) as [E0|]; [|done]. exfalso.
      apply (f_equal (fun z => Z.testbit z 1)) in E0. rewrite Z.land_spec, Z.bits_0 in E0.
      rewrite Z.testbit_eqb in E0 by lia. change (2 ^ 1) with 2 in E0. change (Z.testbit 2 1) with true in E0.
      rewrite andb_true_r in E0. apply Z.eqb_neq in E0. apply E0. Z.div_mod_to_equations. lia. }
    cbn [negb]. destruct (E !! (va / 4096)) as [e|] eqn:He; cbn [default from_option id].
    + by destruct (pte_allows wr e).
    + by destruct wr.
  - destruct (E !! (va / 4096)) as [e|] eqn:He; [|by destruct wr].
    destruct (space_tab _ _ _ _ _ _ Hsp He) as [t Ht]. congruence.
Qed.

(** The parent: an address space none of whose pages is free. *)
Record parent_ok (l0 : list Z) (m : gmap Z Z) (pgd : Z) (tabs E : gmap Z Z) (sz : Z) : Prop := {
  pa_space : space m pgd tabs E;
  pa_apart : forall x v, pg pgd tabs E x = Some v -> v ∉ l0;
  pa_full : forall n, 0 <= n < up_vpn sz -> is_Some (E !! n);
}.

(** The child's entry for page [n] is a copy of the parent's. *)
Definition copied_page (EP : gmap Z Z) (m0 : gmap Z Z) (E : gmap Z Z) (m : gmap Z Z) (n : Z) : Prop :=
  exists e f, EP !! n = Some e /\ good_page f /\ E !! n = Some (V2P f + PTE_FLAGS e) /\
    forall k, 0 <= k < 4096 -> mget m (V2P f + k) = mget m0 (PTE_ADDR e + k).

(** The child [d] after [j] pages, made of pages of [l0]. *)
Record copying (l0 : list Z) (s0 : kst) (EP : gmap Z Z) (d j : Z) (s : kst)
    (l : list Z) (tabs E : gmap Z Z) : Prop := {
  co_world : world s l d tabs E;
  co_suffix : l `suffix_of` l0;
  co_own : forall x v, pg d tabs E x = Some v -> v ∈ l0;
  co_kept : kept_all l0 (phys s0) (phys s);
  co_rel : mem_rel s0 s;
  co_kernel : forall n, USERVPN <= n -> E !! n = kernel_entry n;
  co_user : forall n, 0 <= n < USERVPN ->
    if n <? j then copied_page EP (phys s0) E (phys s) n else E !! n = None;
}.

(** What is left after a failed copy: some pages of [l0]. *)
Definition gave_up (l0 : list Z) (s0 s : kst) : Prop :=
  kmem_ready s /\ mem_rel s0 s /\ kept_all l0 (phys s0) (phys s) /\
  exists l', fl_rep s l' /\ forall v, v ∈ l' -> v ∈ l0.

Lemma parent_kept l0 m m' pgd tabs E sz :
  parent_ok l0 m pgd tabs E sz -> kept_all l0 m m' -> parent_ok l0 m' pgd tabs E sz.
Proof.
  intros [H1 H2 H3] Hk. constructor; try done. apply (space_same m); [done|..].
  - apply Hk; [apply H1|by apply (H2 LDir)].
  - intros d t Ht. apply Hk; [by apply (sp_tab _ _ _ _ H1 d)|by apply (H2 (LTab d))].
Qed.

(** Giving up frees the child; its pages and the free ones are from [l0]. *)
Lemma copy_fails l0 s0 d s l tabs E env :
  link_ok -> world s l d tabs E -> (forall v, v ∈ l -> v ∈ l0) ->
  (forall x v, pg d tabs E x = Some v -> v ∈ l0) -> kept_all l0 (phys s0) (phys s) -> mem_rel s0 s ->
  exists s', freevm d env s = Ok tt s' env /\ gave_up l0 s0 s'.
Proof.
  intros HL Hw Hl Ho Hk Hm.
  destruct (freevm_run s l d tabs E env HL Hw) as (s' & l' & EF & Hr & Hf & Hm' & Hs & _ & Hout & Hko).
  exists s'. split; [done|].
  assert (forall v, v ∈ l' -> v ∈ l0) as Hl'.
  { intros v [?|[x Hx]]%Hout; [by apply Hl|by apply (Ho x)]. }
  split_and!; [done|by eapply mem_rel_trans| |by exists l'].
  intros v Hg Hv. apply (same_page_trans _ (phys s)); [by apply Hk|]. apply Hko; [done|].
  intros ?. by apply Hv, Hl'.
Qed.

Lemma entry_flags e : 0 <= e < 4294967296 -> Z.land e PTE_P <> 0 ->
  PTE_ADDR e mod 4096 = 0 /\ 0 <= PTE_ADDR e < 4294967296 /\ 0 <= PTE_FLAGS e < 4096 /\
  Z.lor (PTE_FLAGS e) 1 = PTE_FLAGS e /\ e = PTE_ADDR e + PTE_FLAGS e.
Proof.
  intros He HP. assert (PTE_ADDR e = e - e mod 4096) as EA.
  { unfold PTE_ADDR. change (u32 (Z.lnot 4095)) with 4294963200. by apply land_page_mask. }
  assert (PTE_FLAGS e = e mod 4096) as EF.
  { unfold PTE_FLAGS. change 4095 with (Z.ones 12). by rewrite Z.land_ones by lia. }
  rewrite EA. rewrite EF at 1 2 5. split_and!; try (Z.div_mod_to_equations; lia).
  unfold PTE_FLAGS. unfold PTE_P in HP. apply Z.bits_inj'. intros i Hi. rewrite Z.lor_spec, Z.land_spec.
  destruct (decide (i = 0)) as [->|Hi0].
  - assert (Z.testbit e 0 = true) as ->.
    { destruct (Z.testbit e 0) eqn:E0; [done|]. exfalso. apply HP.
      change 1 with (Z.ones 1). rewrite Z.land_ones by lia. change (2 ^ 1) with 2.
      rewrite Z.bit0_odd in E0. rewrite Zmod_odd, E0. done. }
    done.
  - change (Z.testbit 1 i) with (Z.testbit (2 ^ 0) i). rewrite Z.pow2_bits_eqb by lia.
    destruct (Z.eqb_spec 0 i); [lia|]. by rewrite orb_false_r.
Qed.

(** A step that changes only page tables and pages that were free keeps the
    pages copied so far. *)
Lemma copied_page_kept EP m0 E E' m m' n :
  copied_page EP m0 E m n -> (forall f, E !! n = Some f -> E' !! n = Some f) ->
  (forall e, E !! n = Some e -> same_page m m' (frame_of e)) ->
  copied_page EP m0 E' m' n.
Proof.
  intros (e & f & H1 & H2 & H3 & H4) HE Hs. exists e, f. split_and!; [done..|by apply HE|].
  intros k Hk. rewrite <- H4 by done. specialize (Hs _ H3).
  assert (frame_of (V2P f + PTE_FLAGS e) = f) as Ef.
  { apply good_entry; [done|]. unfold PTE_FLAGS. change 4095 with (Z.ones 12). rewrite Z.land_ones by lia.
    apply Z.mod_pos_bound. done. }
  rewrite Ef in Hs. apply Hs. unfold PGSIZE. lia.
Qed.

Lemma copying_alloc l0 s0 EP d j s t l tabs E env :
  copying l0 s0 EP d j s (t :: l) tabs E ->
  exists s', kalloc env s = Ok t s' env /\ copying l0 s0 EP d j s' l tabs E /\ phys s' = phys s /\
    good_page t /\ t <> 0 /\ t ∉ l /\ t ∈ l0 /\ (forall x, pg d tabs E x <> Some t).
Proof.
  intros [Hw Hs Ho Hk Hr Hkn Hu].
  destruct (world_kalloc s t l d tabs E env Hw) as (s1 & E1 & Hw1 & Hr1 & Hp1 & Hg & Hnz & Hni & Hfr).
  exists s1. split; [done|]. split; [|split_and!; try done; apply (suffix_in l0 (t :: l)); [done|constructor]].
  constructor; try done; rewrite ?Hp1; try done.
  - etrans; [|done]. by apply suffix_cons_r.
  - by eapply mem_rel_trans.
Qed.

Lemma V2P_P2V x : 0 <= x < 4294967296 -> V2P (P2V x) = x.
Proof. intros Hx. unfold V2P, P2V. rewrite u32_sub_l. replace (x + KERNBASE - KERNBASE) with x by lia. by apply u32_small. Qed.

(** The page that was copied last, and the ones that were copied before. *)
Lemma copied_last EP E j e t m0 m m3 :
  EP !! j = Some e -> good_page t -> 0 <= PTE_ADDR e < 4294967296 ->
  same_page (memmove m (V2P t) (PTE_ADDR e) PGSIZE) m3 t -> same_page m0 m (frame_of e) ->
  copied_page EP m0 (<[j := V2P t + PTE_FLAGS e]> E) m3 j.
Proof.
  intros He Hg Ha Hst Hsf. exists e, t. rewrite lookup_insert_eq. split_and!; [done..|]. intros k Hk.
  rewrite Hst by (unfold PGSIZE; lia). rewrite mget_memmove by (unfold PGSIZE; lia).
  zcase; cbn [andb]; unfold PGSIZE in *; try lia. replace (V2P t + k - V2P t) with k by lia.
  assert (V2P (frame_of e) = PTE_ADDR e) as Ev by (by apply V2P_P2V).
  rewrite <- Ev. apply Hsf. unfold PGSIZE. lia.
Qed.

Lemma copied_before EP E j n f m0 s l d tabs m2 m3 t :
  world s l d tabs E -> 0 <= n < USERVPN -> n <> j -> copied_page EP m0 E (phys s) n ->
  (forall w, good_page w -> w <> t -> same_page (phys s) m2 w) -> kept l d tabs m2 m3 ->
  (forall x, pg d tabs E x <> Some t) -> copied_page EP m0 (<[j := f]> E) m3 n.
Proof.
  intros Hw Hn Hnj Hc Hs2 Hk3 Hfr. eapply copied_page_kept; [done|intros g Hf; by rewrite lookup_insert_ne|].
  intros e' He'. assert (pg d tabs E (LFrame n) = Some (frame_of e')) as Hx.
  { cbn. by rewrite (proj2 (Z.ltb_lt _ _) (proj2 Hn)), He'. }
  pose proof (w_space _ _ _ _ _ Hw) as Hsp.
  destruct (sp_ent _ _ _ _ Hsp n e' He') as (_ & _ & _ & Hg'). specialize (Hg' (proj2 Hn)).
  apply (same_page_trans _ m2); [apply Hs2; [done|]; intros Et; rewrite Et in Hx; by apply (Hfr (LFrame n))|].
  apply Hk3; [done|by apply (w_apart _ _ _ _ _ Hw (LFrame n))| |].
  - intros Ed. rewrite Ed in Hx. by discriminate (sp_inj _ _ _ _ Hsp (LFrame n) LDir d Hx eq_refl).
  - intros d' Ht'. by discriminate (sp_inj _ _ _ _ Hsp (LFrame n) (LTab d') _ Hx Ht').
Qed.

(** The pages of the child, with the new one. *)
Lemma pages_with_new d tabs E j t fl (l0 : list Z) :
  good_page t -> 0 <= fl < 4096 -> t ∈ l0 -> d ∈ l0 -> (forall d' v, tabs !! d' = Some v -> v ∈ l0) ->
  (forall n v, pg d tabs E (LFrame n) = Some v -> v ∈ l0) ->
  forall x v, pg d tabs (<[j := V2P t + fl]> E) x = Some v -> v ∈ l0.
Proof.
  intros Hg Hfl Ht Hd Htabs HE [|d'|n] v Hx; [by injection Hx as <-|by apply (Htabs d')|]. cbn in Hx.
  destruct (decide (n = j)) as [->|Hnj].
  - rewrite lookup_insert_eq in Hx. destruct (j <? USERVPN); [|done]. cbn in Hx. injection Hx as <-.
    by destruct (good_entry t fl Hg Hfl) as (_ & -> & _).
  - rewrite lookup_insert_ne in Hx by done. by apply (HE n).
Qed.

(** Copying a page into [t] and entering it as page [j] of the child. *)
(** The pages outside of [l0] through a change of page [t] and a mapping. *)
Lemma kept_all_page (l l0 : list Z) d tabs t m0 m1 m2 m3 :
  kept_all l0 m0 m1 -> (forall w, good_page w -> w <> t -> same_page m1 m2 w) -> kept l d tabs m2 m3 -> t ∈ l0 ->
  (forall v, v ∈ l -> v ∈ l0) -> d ∈ l0 -> (forall d' v, tabs !! d' = Some v -> v ∈ l0) -> kept_all l0 m0 m3.
Proof.
  intros Hk Hs Hk3 Ht Hl Hd Htab v Hgv Hv. apply (same_page_trans _ m1); [by apply Hk|].
  apply (same_page_trans _ m2); [apply Hs; [done|by intros ->]|]. apply Hk3; [done|..].
  - intros ?. by apply Hv, Hl.
  - by intros ->.
  - intros d' Ht'. by apply Hv, (Htab d').
Qed.

Lemma copying_put l0 s0 pgdP tabsP EP sz d j s t l tabs E e env :
  copying l0 s0 EP d j s l tabs E -> parent_ok l0 (phys s0) pgdP tabsP EP sz ->
  0 <= j < USERVPN -> EP !! j = Some e ->
  good_page t -> t ∉ l -> t ∈ l0 -> (forall x, pg d tabs E x <> Some t) ->
  let s2 := set_phys (memmove (phys s) (V2P t) (V2P (P2V (PTE_ADDR e))) PGSIZE) s in
  exists r s' l' tabs' E', mappages d (4096 * j) PGSIZE (V2P t) (PTE_FLAGS e) env s2 = Ok r s' env /\
    world s' l' d tabs' E' /\ (forall v, v ∈ l' -> v ∈ l0) /\ kept_all l0 (phys s0) (phys s') /\
    mem_rel s0 s' /\ (forall x v, pg d tabs' E' x = Some v -> v ∈ l0) /\
    (r = -1 \/ (r = 0 /\ copying l0 s0 EP d (j + 1) s' l' tabs' E')).
Proof.
  intros HC HP Hj He Hg Htl Ht0 Hfr s2. pose proof HC as [Hw Hs Ho Hk Hr Hkn Hu].
  pose proof (pa_space _ _ _ _ _ _ HP) as HspP.
  destruct (sp_ent _ _ _ _ HspP j e He) as (_ & Her & Hep & Hgf). specialize (Hgf (proj2 Hj)).
  destruct (entry_flags e Her Hep) as (Ha1 & Ha2 & Hfl & Hlor & Hee).
  unfold s2. rewrite V2P_P2V in * by done. clear s2. set (m2 := memmove _ _ _ _).
  assert (forall w, good_page w -> w <> t -> same_page (phys s) m2 w) as Hs2.
  { intros w Hgw Hne. apply same_page_memmove; [done..|]. unfold PGSIZE. lia. }
  assert (world (set_phys m2 s) l d tabs E) as Hw2 by (by eapply world_other_page).
  assert (E !! j = None) as HEj.
  { specialize (Hu j Hj). destruct (Z.ltb_spec j j); [lia|done]. }
  assert (forall v, v ∈ l -> v ∈ l0) as Hll0 by (intros v; by apply suffix_in).
  destruct (mappages_user (set_phys m2 s) l d tabs E (4096 * j) t (PTE_FLAGS e) env Hw2)
    as (r & s3 & l3 & tabs3 & EM & Hm3 & Hk3 & (G1 & G2 & G3) & Hres); try done.
  { unfold USERVPN, KERNBASE in *. lia. }
  { rewrite Z.mul_comm. apply Z_mod_mult. }
  { by rewrite Z.mul_comm, Z.div_mul by lia. }
  assert (4096 * j / 4096 = j) as Ej by (rewrite Z.mul_comm; apply Z.div_mul; lia). rewrite Ej, Hlor in Hres. cbn [phys set_phys] in Hk3.
  assert (kept_all l0 (phys s0) (phys s3)) as HkA.
  { apply (kept_all_page l l0 d tabs t _ (phys s) m2); try done; [by apply (Ho LDir)|intros d' v; by apply (Ho (LTab d'))]. }
  assert (forall v, v ∈ l3 -> v ∈ l0) as Hl3.
  { intros v Hv. by apply Hll0, (suffix_in l l3). }
  assert (mem_rel s0 s3) as HmA.
  { eapply mem_rel_trans; [done|]. eapply mem_rel_trans; [apply mem_rel_phys|done]. }
  assert (forall d' v, tabs3 !! d' = Some v -> v ∈ l0) as HtA.
  { intros d' v Hv. destruct (G3 d' v Hv) as [?|[? _]]; [by apply (Ho (LTab d'))|by apply Hll0]. }
  destruct Hres as [(-> & -> & Hw3)|(-> & Hw3)].
  { exists (-1), s3, l3, tabs3, E. split_and!; try done; [|by left].
    intros [|d'|n] v Hx; [by apply (Ho LDir)|by apply (HtA d')|by apply (Ho (LFrame n))]. }
  exists 0, s3, l3, tabs3, (<[j := V2P t + PTE_FLAGS e]> E).
  assert (forall x v, pg d tabs3 (<[j := V2P t + PTE_FLAGS e]> E) x = Some v -> v ∈ l0) as HoA.
  { apply pages_with_new; [done|done|done|by apply (Ho LDir)|done|]. intros n v Hx. by apply (Ho (LFrame n)). }
  split_and!; try done. right. split; [done|].
  constructor; try done; [by etrans|intros n Hn; rewrite lookup_insert_ne by lia; by apply Hkn|].
  intros n Hn. specialize (Hu n Hn). destruct (Z.ltb_spec n (j + 1)); [|rewrite lookup_insert_ne by lia;
    by destruct (Z.ltb_spec n j); [lia|]].
  destruct (decide (n = j)) as [->|Hnj].
  - eapply copied_last; [done..|apply Hk3|apply Hk]; [done|done| | |done|].
    + intros ->. by apply (Hfr LDir).
    + intros d' Ht'. by apply (Hfr (LTab d')).
    + apply (pa_apart _ _ _ _ _ _ HP (LFrame j)). cbn. by rewrite (proj2 (Z.ltb_lt _ _) (proj2 Hj)), He.
  - destruct (Z.ltb_spec n j); [|lia]. exact (copied_before EP E j n _ (phys s0) s l d tabs m2 (phys s3) t Hw Hn Hnj Hu Hs2 Hk3 Hfr).
Qed.

Lemma copy_page_run l0 s0 pgdP tabsP EP sz d j s l tabs E env :
  link_ok -> copying l0 s0 EP d j s l tabs E -> parent_ok l0 (phys s0) pgdP tabsP EP sz ->
  0 <= j -> 4096 * j < sz -> sz <= KERNBASE ->
  (exists s', copy_page pgdP sz d (4096 * j) env s = Ok (inr 0) s' env /\ gave_up l0 s0 s') \/
  (exists s' l' tabs' E', copy_page pgdP sz d (4096 * j) env s = Ok (inl (4096 * (j + 1))) s' env /\
     copying l0 s0 EP d (j + 1) s' l' tabs' E').
Proof.
  intros HL HC HP Hj Hlt Hsz. unfold KERNBASE in Hsz.
  pose proof (pa_space _ _ _ _ _ _ (parent_kept _ _ _ _ _ _ _ HP (co_kept _ _ _ _ _ _ _ _ _ HC))) as Hsp.
  assert (0 <= j < up_vpn sz) as Hju by (unfold up_vpn; Z.div_mod_to_equations; lia).
  assert (0 <= j < USERVPN) as Hjn by (unfold USERVPN; lia).
  destruct (pa_full _ _ _ _ _ _ HP j Hju) as [e He].
  assert (4096 * j / 4096 = j) as Ej by (rewrite Z.mul_comm; apply Z.div_mul; lia).
  destruct (sp_ent _ _ _ _ Hsp j e He) as (Hn & Her & Hep & _).
  destruct (space_tab _ _ _ _ _ _ Hsp He) as [t Ht].
  unfold copy_page. destruct (Z.ltb_spec (4096 * j) sz); [|lia]. cbn [negb].
  assert (tabsP !! PDX (4096 * j) = Some t) as Ht' by (rewrite PDX_vpn, Ej; [done|lia]).
  rewrite (bind_ok _ _ _ _ _ _ _ (walkpgdir_found s pgdP tabsP EP _ t false env Hsp Ht')).
  destruct (sp_tab _ _ _ _ Hsp _ _ Ht) as [_ Hg]. pose proof (PTX_range (4096 * j)) as Hx.
  destruct (V2P_word t (PTX (4096 * j)) Hg Hx) as [EV Hnz]. rewrite u32_pg in EV, Hnz by (done || lia).
  destruct (Z.eqb_spec (t + 4 * PTX (4096 * j)) 0) as [|_]; [done|].
  unfold kread32. rewrite bind_gets, EV, PTX_vpn, Ej by lia.
  pose proof (sp_pte _ _ _ _ Hsp j Hn) as Hpw. unfold pte_word in Hpw. rewrite Ht, He in Hpw. rewrite Hpw.
  cbn [default from_option id]. destruct (Z.eqb_spec (Z.land e PTE_P) 0) as [|_]; [done|].
  assert (forall v, v ∈ l -> v ∈ l0) as Hll0 by (intros v; apply suffix_in, HC).
  destruct l as [|f l].
  - left. destruct (world_kalloc_none s d tabs E env (co_world _ _ _ _ _ _ _ _ _ HC)) as (EK & Hw1 & Hr1).
    rewrite (bind_ok _ _ _ _ _ _ _ EK). cbn [Z.eqb].
    destruct (copy_fails l0 s0 d _ [] tabs E env HL Hw1) as (s' & EF & Hgu); try apply HC; try done.
    + eapply mem_rel_trans; [apply HC|done].
    + exists s'. by rewrite (bind_ok _ _ _ _ _ _ _ EF).
  - destruct (copying_alloc _ _ _ _ _ _ _ _ _ _ env HC) as (s1 & EK & HC1 & Hp1 & Hgf & Hfz & Hfl & Hf0 & Hff).
    rewrite (bind_ok _ _ _ _ _ _ _ EK). destruct (Z.eqb_spec f 0) as [|_]; [done|].
    unfold kmemmove. rewrite bind_modify.
    destruct (copying_put l0 s0 pgdP tabsP EP sz d j s1 f l tabs E e env HC1 HP)
      as (r & s3 & l3 & tabs3 & E3 & EM & Hw3 & Hl3 & Hk3 & Hm3 & Ho3 & Hres); try done.
    rewrite (bind_ok _ _ _ _ _ _ _ EM). destruct Hres as [->|[-> HC3]]; cbn [Z.ltb Z.compare].
    + left. destruct (copy_fails l0 s0 d s3 l3 tabs3 E3 env HL Hw3) as (s' & EF & Hgu); try done.
      exists s'. by rewrite (bind_ok _ _ _ _ _ _ _ EF).
    + right. exists s3, l3, tabs3, E3. split; [|done]. unfold ret, PGSIZE. rewrite u32_small by lia.
      do 2 f_equal. lia.
Qed.

Lemma copy_loop l0 s0 pgdP tabsP EP sz d env : link_ok ->
  parent_ok l0 (phys s0) pgdP tabsP EP sz -> 0 <= sz <= KERNBASE ->
  forall fuel j s l tabs E, copying l0 s0 EP d j s l tabs E -> 0 <= j <= up_vpn sz ->
  (Z.to_nat (up_vpn sz - j) < fuel)%nat ->
  exists r s', loop_n fuel (copy_page pgdP sz d) (4096 * j) env s = Ok r s' env /\
    ((r = 0 /\ gave_up l0 s0 s') \/
     (r = d /\ exists l' tabs' E', copying l0 s0 EP d (up_vpn sz) s' l' tabs' E')).
Proof.
  intros HL HP Hsz. induction fuel as [|fuel IH]; intros j s l tabs E HC Hj Hf; [lia|]. cbn [loop_n].
  destruct (decide (4096 * j < sz)) as [Hlt|Hge].
  - destruct (copy_page_run l0 s0 pgdP tabsP EP sz d j s l tabs E env)
      as [(s' & E1 & Hg)|(s' & l' & tabs' & E' & E1 & HC')]; try done; try lia;
      rewrite (bind_ok _ _ _ _ _ _ _ E1).
    + exists 0, s'. split; [done|by left].
    + assert (j < up_vpn sz) by (unfold up_vpn; Z.div_mod_to_equations; lia).
      apply (IH (j + 1) s' l' tabs' E'); [done|lia..].
  - unfold copy_page. destruct (Z.ltb_spec (4096 * j) sz); [lia|]. cbn [negb]. rewrite bind_ret.
    exists d, s. split; [done|right]. split; [done|]. exists l, tabs, E.
    assert (j = up_vpn sz) as <-; [|done]. unfold up_vpn in *. Z.div_mod_to_equations. lia.
Qed.

(** The child as [setupkvm] leaves it: no user page yet. *)
Lemma built_copying l0 s0 EP d s :
  link_ok -> built l0 (phys s0) d 4294967296 s -> mem_rel s0 s ->
  exists l tabs E, copying l0 s0 EP d 0 s l tabs E.
Proof.
  intros (_ & _ & HL & _) (l & tabs & E & Hw & Hk & Hd & Ht & Hl & HE) Hm. exists l, tabs, E.
  assert (forall n, n < USERVPN -> E !! n = None) as HEu.
  { intros n Hn. rewrite HE. unfold kernel_entry. unfold USERVPN, KERNBASE in *.
    zcase; try lia; done. }
  constructor; try done.
  - intros [|d'|n] v Hx; cbn in Hx; [by injection Hx as <-|by apply (Ht d')|].
    destruct (Z.ltb_spec n USERVPN); [|done]. by rewrite HEu in Hx.
  - intros n Hn. rewrite HE. destruct (Z.ltb_spec (4096 * n) 4294967296); [done|].
    unfold kernel_entry, DEVSPACE, KERNLINK, KERNBASE, EXTMEM, PHYSTOP, USERVPN in *.
    change (u32 (2147483648 + 1048576)) with 2148532224. zcase; try lia; done.
  - intros n Hn. destruct (Z.ltb_spec n 0); [lia|]. apply HEu. lia.
Qed.

(** A byte of the child is the byte of the parent, with the same rights. *)
Lemma copied_byte EP m0 E m pgdP tabsP d tabs va :
  space m0 pgdP tabsP EP -> space m d tabs E -> 0 <= va < 4294967296 ->
  copied_page EP m0 E m (va / 4096) ->
  uget8 m (V2P d) va = uget8 m0 (V2P pgdP) va /\
  forall wr, is_Some (walk m (V2P d) wr va) <-> is_Some (walk m0 (V2P pgdP) wr va).
Proof.
  intros HspP Hsp Hva (e & f & He & Hg & HE & Hb).
  destruct (sp_ent _ _ _ _ HspP _ _ He) as (_ & Her & Hep & _).
  destruct (entry_flags e Her Hep) as (Ha1 & Ha2 & Hfl & _ & Hee).
  assert (forall wr, pte_allows wr (V2P f + PTE_FLAGS e) = pte_allows wr e) as Hal.
  { intros wr. unfold pte_allows. rewrite Hee at 3 4. destruct (V2P_aligned f Hg) as [Hf1 Hf2]. unfold PHYSTOP in Hf2.
    assert (forall x i, x mod 4096 = 0 -> 0 <= i < 12 -> Z.testbit (x + PTE_FLAGS e) i = Z.testbit (PTE_FLAGS e) i) as Hbit.
    { intros x i Hx Hi. rewrite <- (Z.mod_pow2_bits_low (x + PTE_FLAGS e) 12 i), <- (Z.mod_pow2_bits_low (PTE_FLAGS e) 12 i) by lia.
      f_equal. change (2 ^ 12) with 4096. Z.div_mod_to_equations. lia. }
    assert (forall x b i, x mod 4096 = 0 -> b = 2 ^ i -> 0 <= i < 12 ->
      (Z.land (x + PTE_FLAGS e) b =? 0) = negb (Z.testbit (PTE_FLAGS e) i)) as Hland.
    { intros x b i Hx -> Hi. rewrite <- (shiftl_bit_small i), land_bit, Hbit by lia. done. }
    rewrite !(Hland _ PTE_P 0), !(Hland _ PTE_W 1) by (done || lia). done. }
  assert (forall wr, walk m (V2P d) wr va = if pte_allows wr e then Some (V2P f + va mod 4096) else None) as Hw1.
  { intros wr. rewrite (walk_space m d tabs E) by done. rewrite HE, Hal.
    destruct (V2P_aligned f Hg) as [Hf1 Hf2]. unfold PHYSTOP in Hf2.
    destruct (pte_parts (V2P f) (PTE_FLAGS e)) as (_ & -> & _); [done|lia|done|done]. }
  assert (forall wr, walk m0 (V2P pgdP) wr va = if pte_allows wr e then Some (PTE_ADDR e + va mod 4096) else None) as Hw2.
  { intros wr. by rewrite (walk_space m0 pgdP tabsP EP), He by done. }
  split.
  - unfold uget8. rewrite Hw1, Hw2. destruct (pte_allows false e); [|done]. cbn. f_equal. apply Hb.
    apply Z.mod_pos_bound. lia.
  - intros wr. rewrite Hw1, Hw2. by destruct (pte_allows wr e).
Qed.

(** What comes of a copy of the address space [pgd] of size [sz], with [l]
    the free pages: 0, or a new address space. *)
Definition copy_outcome (s : kst) (l : list Z) (pgd : Z) (tabs E : gmap Z Z) (sz r : Z) (s' : kst) : Prop :=
  mem_rel s s' /\ kmem_ready s' /\ kept_all l (phys s) (phys s') /\
  ((r = 0 /\ exists l', fl_rep s' l' /\ forall v, v ∈ l' -> v ∈ l) \/
   (r <> 0 /\ exists l' tabs' E', world s' l' r tabs' E' /\
      (forall x v, pg r tabs' E' x = Some v -> v ∈ l /\ forall y, pg pgd tabs E y <> Some v) /\
      (forall n, USERVPN <= n -> E' !! n = kernel_entry n) /\
      (forall n, up_vpn sz <= n < USERVPN -> E' !! n = None) /\
      (forall va, 0 <= va < 4096 * up_vpn sz ->
         uget8 (phys s') (V2P r) va = uget8 (phys s) (V2P pgd) va /\
         forall wr, is_Some (walk (phys s') (V2P r) wr va) <-> is_Some (walk (phys s) (V2P pgd) wr va)))).

Lemma copyuvm_run s l pgd tabs E sz env :
  link_ok -> kmem_ready s -> fl_rep s l -> parent_ok l (phys s) pgd tabs E sz -> 0 <= sz <= KERNBASE ->
  exists r s', copyuvm pgd sz env s = Ok r s' env /\ copy_outcome s l pgd tabs E sz r s'.
Proof.
  intros HL Hr Hf HP Hsz. unfold copyuvm, copy_outcome.
  destruct (setupkvm_run s l env HL Hr Hf) as (d & s1 & E1 & Hm1 & Hres). rewrite (bind_ok _ _ _ _ _ _ _ E1).
  destruct Hres as [[-> (Hr1 & Hf1 & Hk1)]|[Hd Hb]].
  { exists 0, s1. split_and!; [done..|]. left. split; [done|]. exists []. split; [done|].
    intros v Hv. by apply not_elem_of_nil in Hv. }
  destruct (Z.eqb_spec d 0) as [|_]; [done|].
  destruct (built_copying l s E d s1 HL Hb Hm1) as (l1 & tabs1 & E1' & HC).
  assert (0 <= up_vpn sz <= sz / 4096 + 1) as Hup by (unfold up_vpn; Z.div_mod_to_equations; lia).
  destruct (copy_loop l s pgd tabs E sz d env HL HP Hsz (S (S (Z.to_nat (sz / PGSIZE)))) 0 s1 l1 tabs1 E1' HC)
    as (r & s2 & EL & Hres); [lia|unfold PGSIZE; lia|].
  rewrite Z.mul_0_r in EL. exists r, s2. destruct Hres as [[-> (Hr2 & Hm2 & Hk2 & Hl2)]|(-> & l2 & tabs2 & E2 & HC2)].
  { split_and!; [done..|]. left. by split. }
  pose proof HC2 as [Hw2 Hs2 Ho2 Hk2 Hm2 Hkn2 Hu2].
  split_and!; [done|done|apply Hw2|done|]. right. split; [done|]. exists l2, tabs2, E2. split_and!; [done| |done|..].
  - intros x v Hx. split; [by apply (Ho2 x)|]. intros y Hy. by apply (pa_apart _ _ _ _ _ _ HP y v Hy), (Ho2 x).
  - intros n Hn. specialize (Hu2 n ltac:(lia)). by destruct (Z.ltb_spec n (up_vpn sz)); [lia|].
  - intros va Hva.
    assert (up_vpn sz <= USERVPN) by (unfold up_vpn, USERVPN, KERNBASE in *; Z.div_mod_to_equations; lia).
    assert (0 <= va / 4096 < up_vpn sz) as Hn by (Z.div_mod_to_equations; lia).
    apply (copied_byte E (phys s) E2 (phys s2) pgd tabs d tabs2); [apply HP|apply Hw2|unfold USERVPN in *; lia|].
    specialize (Hu2 (va / 4096) ltac:(lia)). by destruct (Z.ltb_spec (va / 4096) (up_vpn sz)); [|lia].
Qed.


(** C34: [freevm] gives back exactly the pages of the address space: all
    that the directory, its page tables and the user entries refer to are
    free afterwards, no other page is, and pages that are not free keep
    their contents. *)
Theorem freevm_no_leak s l pgd tabs E env :
  link_ok -> world s l pgd tabs E ->
  exists s' l', freevm pgd env s = Ok tt s' env /\ fl_rep s' l' /\ mem_rel s s' /\
    (forall v, v ∈ l' <-> v ∈ l \/ exists x, pg pgd tabs E x = Some v) /\ kept_out l' (phys s) (phys s').
Proof.
  intros HL Hw.
  destruct (freevm_run s l pgd tabs E env HL Hw) as (s' & l' & EF & _ & Hf & Hm & Hs & Hin & Hout & Hk).
  exists s', l'. split_and!; try done. intros v. split; [apply Hout|].
  intros [Hv|[x Hx]]; [by apply (suffix_in l' l)|by apply (Hin x)].
Qed.
End Ops.

(** ** Examples *)

Section Examples.
#[local] Existing Instance link_example.

(** A process with one page, at kernel addresses 0x80120000 on, and two
    pages that are free. *)
Definition pg_dir : Z := 2148663296.
Definition pg_tab : Z := 2148667392.
Definition pg_frame : Z := 2148671488.
Definition free_example : list Z := [2148675584; 2148679680].

Definition mem_free : gmap Z Z := store32 ∅ (V2P 2148675584) 2148679680.
Definition mem_tab : gmap Z Z :=
  store32 (mset (mset mem_free (V2P pg_dir) 0 PGSIZE) (V2P pg_tab) 0 PGSIZE) (V2P pg_dir + 4 * 0) (V2P pg_tab + 7).
Definition mem_example : gmap Z Z :=
  store32 mem_tab (V2P pg_tab + 4 * (0 mod 1024)) (V2P pg_frame + 7).
Definition kst_space : kst := set_freelist 2148675584 (set_phys mem_example kst_boot).

Lemma good_examples : Forall good_page (pg_dir :: pg_tab :: pg_frame :: free_example).
Proof. repeat constructor; by vm_compute. Qed.

Lemma space_example :
  space mem_example pg_dir {[ 0 := pg_tab ]} {[ 0 := V2P pg_frame + 7 ]}.
Proof.
  assert (good_page pg_dir /\ good_page pg_tab /\ good_page pg_frame) as (H1 & H2 & H3).
  { pose proof good_examples as H. by rewrite !Forall_cons in H. }
  assert (space mem_tab pg_dir {[ 0 := pg_tab ]} ∅) as Hsp.
  { apply (space_new_tab _ _ ∅ ∅ 0 pg_tab); [by apply space_empty|by rewrite lookup_empty|lia|done|].
    intros [|d|n]; cbn; rewrite ?lookup_empty; [done..|]. by destruct (n <? USERVPN). }
  apply (space_set_entry _ _ _ ∅ 0 pg_tab (Some (V2P pg_frame + 7)) Hsp).
  - change (0 / 1024) with 0. by rewrite lookup_singleton_eq.
  - unfold NVPN. lia.
  - intros e [= <-]. destruct (good_entry pg_frame 7 H3) as (_ & Hf & _ & Hp & Hr); [lia|].
    split_and!; [lia|lia|by rewrite Hp|]. intros _. rewrite Hf. split; [done|].
    intros [|d|n] _; cbn; rewrite ?lookup_empty; [done| |by destruct (n <? USERVPN)].
    intros [_ ?]%lookup_singleton_Some. done.
Qed.

Lemma pg_example x v :
  pg pg_dir {[ 0 := pg_tab ]} {[ 0 := V2P pg_frame + 7 ]} x = Some v -> v = pg_dir \/ v = pg_tab \/ v = pg_frame.
Proof.
  destruct x as [|d|n]; cbn.
  - intros [= <-]. by left.
  - intros [_ <-]%lookup_singleton_Some. auto.
  - destruct (n <? USERVPN); [|done]. intros (e & [_ <-]%lookup_singleton_Some & ->)%fmap_Some.
    right; right. by vm_compute.
Qed.

Lemma fl_example : fl_rep kst_space free_example.
Proof.
  split_and!; [by vm_compute| |].
  { unfold free_example. rewrite !NoDup_cons. split_and!; [by rewrite list_elem_of_singleton|set_solver|constructor]. }
  pose proof good_examples as H. rewrite !Forall_cons in H. apply H.
Qed.

Lemma world_example :
  world kst_space free_example pg_dir {[ 0 := pg_tab ]} {[ 0 := V2P pg_frame + 7 ]}.
Proof.
  constructor; [by vm_compute|apply fl_example|apply space_example|].
  intros x v [->|[->| ->]]%pg_example; unfold free_example; rewrite !elem_of_cons, elem_of_nil;
    by intros [?|[?|?]].
Qed.

Lemma link_ok_example : link_ok.
Proof. by vm_compute. Qed.

Lemma parent_example :
  parent_ok free_example mem_example pg_dir {[ 0 := pg_tab ]} {[ 0 := V2P pg_frame + 7 ]} 4096.
Proof.
  constructor; [apply space_example|apply world_example|].
  intros n Hn. replace n with 0 by (change (up_vpn 4096) with 1 in Hn; lia). rewrite lookup_singleton_eq. eauto.
Qed.


Lemma freevm_no_leak_witness :
  exists s' l', freevm pg_dir [] kst_space = Ok tt s' [] /\ fl_rep s' l' /\ pg_frame ∈ l' /\ pg_dir ∈ l'.
Proof.
  destruct (freevm_no_leak kst_space free_example pg_dir {[ 0 := pg_tab ]} {[ 0 := V2P pg_frame + 7 ]} [])
    as (s' & l' & E & Hf & _ & Hl & _).
  - apply link_ok_example.
  - apply world_example.
  - exists s', l'. split; [exact E|]. split; [exact Hf|]. clear E.
    split; apply Hl; right; [exists (LFrame 0)|exists LDir]; reflexivity.
Defined.
End Examples.
