(* ===== verification/Intr.v ===== *)
(** * picirq.c, ioapic.c, lapic.c, timer.c and mp.c: interrupt hardware

    Writes to device registers are appended to [dev_out].  What a read of
    a register returns is up to the hardware, which knows all that was
    written before: it is the parameter [dev_in]. *)

From stdpp Require Import base numbers list gmap strings.
From S2P Require Import Prelude Kernel Spinlock Sched Kalloc Console Umem Str Vm.

Class Hw := { dev_in : list (devreg * Z) -> devreg -> Z }.

Definition out (r : devreg) (v : Z) : M unit :=
  modify (fun s => set_dev_out (dev_out s ++ [(r, v)]) s).
Definition outb (p v : Z) : M unit := out (Port p) (u8 v).
Definition inb `{Hw} (p : Z) : M Z := gets (fun s => u8 (dev_in (dev_out s) (Port p))).

Definition T_IRQ0 : Z := 32.
Definition IRQ_TIMER : Z := 0.
Definition IRQ_KBD : Z := 1.
Definition IRQ_COM1 : Z := 4.
Definition IRQ_IDE : Z := 14.
Definition IRQ_ERROR : Z := 19.
Definition IRQ_SPURIOUS : Z := 31.

(** ** picirq.c *)

Definition IO_PIC1 : Z := 32.
Definition IO_PIC2 : Z := 160.
Definition IRQ_SLAVE : Z := 2.

Definition picsetmask (mask : Z) : M unit :=
  modify (set_irqmask (u16 mask)) ;;
  outb (IO_PIC1 + 1) (u16 mask) ;;
  outb (IO_PIC2 + 1) (Z.shiftr (u16 mask) 8).

Definition picenable (irq : Z) : M unit :=
  let! m := gets irqmask in
  picsetmask (Z.land m (Z.lnot (Z.shiftl 1 irq))).

Definition picinit : M unit :=
  outb (IO_PIC1 + 1) 255 ;;
  outb (IO_PIC2 + 1) 255 ;;
  outb IO_PIC1 17 ;;
  outb (IO_PIC1 + 1) T_IRQ0 ;;
  outb (IO_PIC1 + 1) (Z.shiftl 1 IRQ_SLAVE) ;;
  outb (IO_PIC1 + 1) 3 ;;
  outb IO_PIC2 17 ;;
  outb (IO_PIC2 + 1) (T_IRQ0 + 8) ;;
  outb (IO_PIC2 + 1) IRQ_SLAVE ;;
  outb (IO_PIC2 + 1) 3 ;;
  outb IO_PIC1 104 ;;
  outb IO_PIC1 10 ;;
  outb IO_PIC2 104 ;;
  outb IO_PIC2 10 ;;
  let! m := gets irqmask in
  when (negb (m =? 65535)) (picsetmask m).

(** ** timer.c *)

Definition TIMER_DIV (x : Z) : Z := (1193182 + x / 2) / x.
Definition IO_TIMER1 : Z := 64.

Definition timerinit : M unit :=
  outb (IO_TIMER1 + 3) (Z.lor (Z.lor 0 4) 48) ;;
  outb IO_TIMER1 (TIMER_DIV 100 mod 256) ;;
  outb IO_TIMER1 (TIMER_DIV 100 / 256) ;;
  picenable IRQ_TIMER.

(** ** ioapic.c *)

Definition REG_ID : Z := 0.
Definition REG_VER : Z := 1.
Definition REG_TABLE : Z := 16.
Definition INT_DISABLED : Z := 65536.

Definition ioapicread `{Hw} (reg : Z) : M Z := gets (fun s => u32 (dev_in (dev_out s) (Ioapic reg))).
Definition ioapicwrite (reg data : Z) : M unit := out (Ioapic reg) (u32 data).

Definition ioapicinit `{Hw} : M unit :=
  let! m := gets mpc in
  if negb (ismp m) then ret tt else
  let! v := ioapicread REG_VER in
  let maxintr := Z.land (Z.shiftr v 16) 255 in
  let! i := ioapicread REG_ID in
  let id := Z.shiftr i 24 in
  when (negb (id =? ioapicid m))
    (cprintf (bytes_of "ioapicinit: id isn't equal to ioapicid; not a MP" ++ [ch_newline]) []) ;;
  for_each (seqZ 0 (maxintr + 1)) (fun i =>
    ioapicwrite (REG_TABLE + 2 * i) (Z.lor INT_DISABLED (T_IRQ0 + i)) ;;
    ioapicwrite (REG_TABLE + 2 * i + 1) 0).

Definition ioapicenable (irq cpunum : Z) : M unit :=
  let! m := gets mpc in
  if negb (ismp m) then ret tt else
  ioapicwrite (REG_TABLE + 2 * irq) (T_IRQ0 + irq) ;;
  ioapicwrite (REG_TABLE + 2 * irq + 1) (Z.shiftl cpunum 24).

(** ** lapic.c *)

(** Registers by their index, as the source divides their offset by 4. *)
Definition L_ID : Z := 32 / 4.
Definition L_VER : Z := 48 / 4.
Definition L_TPR : Z := 128 / 4.
Definition L_EOI : Z := 176 / 4.
Definition L_SVR : Z := 240 / 4.
Definition L_ESR : Z := 640 / 4.
Definition L_ICRLO : Z := 768 / 4.
Definition L_ICRHI : Z := 784 / 4.
Definition L_TIMER : Z := 800 / 4.
Definition L_PCINT : Z := 832 / 4.
Definition L_LINT0 : Z := 848 / 4.
Definition L_LINT1 : Z := 864 / 4.
Definition L_ERROR : Z := 880 / 4.
Definition L_TICR : Z := 896 / 4.
Definition L_TDCR : Z := 992 / 4.
Definition ENABLE : Z := 256.
Definition INIT : Z := 1280.
Definition STARTUP : Z := 1536.
Definition ASSERT : Z := 16384.
Definition LEVEL : Z := 32768.
Definition BCAST : Z := 524288.
Definition X1 : Z := 11.
Definition PERIODIC : Z := 131072.
Definition MASKED : Z := 65536.

Definition lapicw (index value : Z) : M unit := out (Lapic index) (u32 value).
Definition lapicr `{Hw} (index : Z) : M Z := gets (fun s => u32 (dev_in (dev_out s) (Lapic index))).

(** The loop that waits for the delivery of the last message only reads. *)
Definition lapicinit `{Hw} : M unit :=
  let! m := gets mpc in
  if lapic m =? 0 then ret tt else
  lapicw L_SVR (Z.lor ENABLE (T_IRQ0 + IRQ_SPURIOUS)) ;;
  lapicw L_TDCR X1 ;;
  lapicw L_TIMER (Z.lor PERIODIC (T_IRQ0 + IRQ_TIMER)) ;;
  lapicw L_TICR 10000000 ;;
  lapicw L_LINT0 MASKED ;;
  lapicw L_LINT1 MASKED ;;
  let! v := lapicr L_VER in
  when (4 <=? Z.land (Z.shiftr v 16) 255) (lapicw L_PCINT MASKED) ;;
  lapicw L_ERROR (T_IRQ0 + IRQ_ERROR) ;;
  lapicw L_ESR 0 ;;
  lapicw L_ESR 0 ;;
  lapicw L_EOI 0 ;;
  lapicw L_ICRHI 0 ;;
  lapicw L_ICRLO (Z.lor (Z.lor BCAST INIT) LEVEL) ;;
  lapicw L_TPR 0.

Definition mod_mp (f : mpst -> mpst) : M unit := modify (fun s => set_mpc (f (mpc s)) s).

(** [ra] is the return address the warning prints. *)
Definition cpunum `{Hw} (ra : Z) : M Z :=
  let! fl := readeflags_IF in
  when fl
    (let! n := gets (fun s => cpunum_n (mpc s)) in
     mod_mp (set_cpunum_n (s32 (n + 1))) ;;
     when (n =? 0)
       (cprintf (bytes_of "cpu called from %x with interrupts enabled" ++ [ch_newline]) [AInt ra])) ;;
  let! m := gets mpc in
  if lapic m =? 0 then ret 0 else
  let! i := lapicr L_ID in
  let apicid := Z.shiftr i 24 in
  match find_idx (fun x => x =? apicid) (take (Z.to_nat (ncpu m)) (apicids m)) with
  | Some i => ret (Z.of_nat i)
  | None => panic "unknown apicid"
  end.

Definition lapiceoi : M unit :=
  let! m := gets mpc in
  when (negb (lapic m =? 0)) (lapicw L_EOI 0).

Definition CMOS_PORT : Z := 112.

(** [wrv] is the warm reset vector, two 16-bit words at 0x467. *)
Definition lapicstartap (apicid addr : Z) : M unit :=
  outb CMOS_PORT 15 ;;
  outb (CMOS_PORT + 1) 10 ;;
  kput (P2V (Z.lor (Z.shiftl 64 4) 103)) [0; 0] ;;
  (let w := u16 (Z.shiftr addr 4) in
   kput (P2V (Z.lor (Z.shiftl 64 4) 103) + 2) [w mod 256; w / 256]) ;;
  lapicw L_ICRHI (Z.shiftl apicid 24) ;;
  lapicw L_ICRLO (Z.lor (Z.lor INIT LEVEL) ASSERT) ;;
  lapicw L_ICRLO (Z.lor INIT LEVEL) ;;
  for_each (seq 0 2) (fun _ =>
    lapicw L_ICRHI (Z.shiftl apicid 24) ;;
    lapicw L_ICRLO (Z.lor STARTUP (Z.shiftr addr 12))).

(** date.h: struct rtcdate. *)
Record rtcdate := mkrtc { second : Z; minute : Z; hour : Z; day : Z; month : Z; year : Z }.
#[export] Instance rtcdate_eq_dec : EqDecision rtcdate.
Proof. solve_decision. Defined.

Definition cmos_read `{Hw} (reg : Z) : M Z := outb CMOS_PORT reg ;; inb (CMOS_PORT + 1).

Definition fill_rtcdate `{Hw} : M rtcdate :=
  let! second := cmos_read 0 in
  let! minute := cmos_read 2 in
  let! hour := cmos_read 4 in
  let! day := cmos_read 7 in
  let! month := cmos_read 8 in
  let! year := cmos_read 9 in
  ret (mkrtc second minute hour day month year).

Definition CONV (x : Z) : Z := Z.shiftr x 4 * 10 + Z.land x 15.

(** [tries] bounds the readings of a clock that keeps changing. *)
Definition cmostime `{Hw} (tries : nat) : M rtcdate :=
  let! sb := cmos_read 11 in
  let bcd := Z.land sb (Z.shiftl 1 2) =? 0 in
  let! t := loop_n tries (fun _ : unit =>
    let! t1 := fill_rtcdate in
    let! a := cmos_read 10 in
    if negb (Z.land a (Z.shiftl 1 7) =? 0) then ret (inl tt) else
    let! t2 := fill_rtcdate in
    ret (if bool_decide (t1 = t2) then inr t1 else inl tt)) tt in
  let t := if bcd then
      mkrtc (CONV (second t)) (CONV (minute t)) (CONV (hour t)) (CONV (day t)) (CONV (month t)) (CONV (year t))
    else t in
  ret (mkrtc (second t) (minute t) (hour t) (day t) (month t) (year t + 2000)).

(** ** mp.c

    The tables are read in physical memory, which the kernel maps from
    KERNBASE on. *)

Definition bytes_at (m : gmap Z Z) (a : Z) (n : nat) : list Z := (fun i => mget m (a + Z.of_nat i)) <$> seq 0 n.

Definition sum (m : gmap Z Z) (addr len : Z) : Z :=
  u8 (foldl Z.add 0 (bytes_at m addr (Z.to_nat len))).

Definition SIZEOF_MP : Z := 16.
Definition SIZEOF_MPCONF : Z := 44.

(** The first of the candidates, [n] of them from [a] on. *)
Fixpoint mpsearch1_loop (m : gmap Z Z) (a : Z) (n : nat) : option Z :=
  match n with
  | O => None
  | S n' =>
      if bool_decide (bytes_at m a 4 = bytes_of "_MP_") && (sum m a SIZEOF_MP =? 0) then Some a
      else mpsearch1_loop m (a + SIZEOF_MP) n'
  end.
Definition mpsearch1 (m : gmap Z Z) (a len : Z) : option Z :=
  mpsearch1_loop m a (Z.to_nat ((len + SIZEOF_MP - 1) / SIZEOF_MP)).

Definition mpsearch (m : gmap Z Z) : option Z :=
  let bda := 1024 in
  let p := Z.shiftl (Z.lor (Z.shiftl (mget m (bda + 15)) 8) (mget m (bda + 14))) 4 in
  let first :=
    if negb (p =? 0) then mpsearch1 m p 1024 else
    let p := Z.lor (Z.shiftl (mget m (bda + 20)) 8) (mget m (bda + 19)) * 1024 in
    mpsearch1 m (u32 (p - 1024)) 1024 in
  match first with
  | Some mp => Some mp
  | None => mpsearch1 m 983040 65536
  end.

Definition mp_physaddr (m : gmap Z Z) (mp : Z) : Z := load32 m (mp + 4).
Definition mp_imcrp (m : gmap Z Z) (mp : Z) : Z := mget m (mp + 12).
Definition conf_length (m : gmap Z Z) (c : Z) : Z := mget m (c + 4) + 256 * mget m (c + 5).
Definition conf_version (m : gmap Z Z) (c : Z) : Z := mget m (c + 6).
Definition conf_lapicaddr (m : gmap Z Z) (c : Z) : Z := load32 m (c + 36).

(** The floating structure and the configuration table. *)
Definition mpconfig (m : gmap Z Z) : option (Z * Z) :=
  mp ← mpsearch m;
  if mp_physaddr m mp =? 0 then None else
  let conf := mp_physaddr m mp in
  if negb (bool_decide (bytes_at m conf 4 = bytes_of "PCMP")) then None else
  if negb (conf_version m conf =? 1) && negb (conf_version m conf =? 4) then None else
  if negb (sum m conf (conf_length m conf) =? 0) then None else
  Some (mp, conf).

(** One turn of the loop over the table's entries. *)
Definition mp_entry (m : gmap Z Z) (p : Z) (g : mpst) : Z * mpst :=
  let t := mget m p in
  if t =? 0 then (* MPPROC *)
    (p + 20,
     if ncpu g <? Z.of_nat NCPU then
       set_ncpu (ncpu g + 1) (set_apicids (<[Z.to_nat (ncpu g) := mget m (p + 1)]> (apicids g)) g)
     else g)
  else if t =? 2 then (* MPIOAPIC *)
    (p + 8, set_ioapicid (mget m (p + 1)) g)
  else if (t =? 1) || (t =? 3) || (t =? 4) then (p + 8, g)
  else (p, set_ismp false g).

(** The loop, for [n] turns at most: [None] if it is still going on. *)
Fixpoint mp_entries (n : nat) (m : gmap Z Z) (p e : Z) (g : mpst) : option mpst :=
  if e <=? p then Some g else
  match n with
  | O => None
  | S n' => let (p', g') := mp_entry m p g in mp_entries n' m p' e g'
  end.

(** An entry has at least 8 bytes, so that a table of [conf_length] bytes
    takes fewer turns than that. *)
Definition mpinit `{Hw} : M unit :=
  let! m := gets phys in
  match mpconfig m with
  | None => ret tt
  | Some (mp, conf) =>
      mod_mp (set_ismp true) ;;
      mod_mp (set_lapic (conf_lapicaddr m conf)) ;;
      let! g := gets mpc in
      match mp_entries (Z.to_nat (conf_length m conf)) m (conf + SIZEOF_MPCONF)
              (conf + conf_length m conf) g with
      | None => halt WHalt
      | Some g =>
          modify (set_mpc g) ;;
          if negb (ismp g) then
            mod_mp (set_ncpu 1) ;; mod_mp (set_lapic 0) ;; mod_mp (set_ioapicid 0)
          else
            when (negb (mp_imcrp m mp =? 0))
              (outb 34 112 ;; let! x := inb 35 in outb 35 (Z.lor x 1))
      end
  end.

(** ** The table of processors *)

Section Mp.
Context (m : gmap Z Z) (e : Z).

Definition known (t : Z) : bool := (0 <=? t) && (t <=? 4).
Definition entry_size (t : Z) : Z := if t =? 0 then 20 else 8.

(** The entries the loop comes to from the one at [p], up to the first of
    an unknown type. *)
Inductive reaches : Z -> Z -> Prop :=
| reach_here p : reaches p p
| reach_next p q :
    p < e -> known (mget m p) = true -> reaches (p + entry_size (mget m p)) q -> reaches p q.

Lemma mp_entry_known p g :
  known (mget m p) = true ->
  exists g', mp_entry m p g = (p + entry_size (mget m p), g') /\ ismp g' = ismp g /\
    lapic g' = lapic g /\ ncpu g <= ncpu g' <= Z.max (ncpu g) (Z.of_nat NCPU).
Proof.
  unfold known, mp_entry, entry_size. intros Hk. change (Z.of_nat NCPU) with 8.
  destruct (Z.eqb_spec (mget m p) 0) as [E0|E0].
  - destruct (Z.ltb_spec (ncpu g) 8); eexists; (split; [reflexivity|]); split_and!; cbn; auto; lia.
  - destruct (Z.eqb_spec (mget m p) 2) as [E2|E2].
    + eexists. split; [reflexivity|]. split_and!; cbn; auto; lia.
    + assert (((mget m p =? 1) || (mget m p =? 3) || (mget m p =? 4)) = true) as ->.
      { apply andb_true_iff in Hk as [H1%Z.leb_le H2%Z.leb_le]. rewrite !orb_true_iff, !Z.eqb_eq. lia. }
      eexists. split; [reflexivity|]. split_and!; auto; lia.
Qed.

Lemma mp_entry_unknown p g :
  known (mget m p) = false -> mp_entry m p g = (p, set_ismp false g).
Proof.
  unfold known, mp_entry. intros Hk.
  destruct (Z.eqb_spec (mget m p) 0) as [E|]; [by rewrite E in Hk|].
  destruct (Z.eqb_spec (mget m p) 2) as [E|]; [by rewrite E in Hk|].
  destruct (Z.eqb_spec (mget m p) 1) as [E|]; [by rewrite E in Hk|].
  destruct (Z.eqb_spec (mget m p) 3) as [E|]; [by rewrite E in Hk|].
  destruct (Z.eqb_spec (mget m p) 4) as [E|]; [by rewrite E in Hk|done].
Qed.

(** On an entry of an unknown type the loop does not advance. *)
Lemma mp_entries_stuck p q : reaches p q -> q < e -> known (mget m q) = false ->
  forall n g, mp_entries n m p e g = None.
Proof.
  intros Hr Hq Hu. induction Hr as [p|p q Hp Hk Hr IH].
  - induction n as [|n IHn]; intros g; cbn [mp_entries]; destruct (Z.leb_spec e p); try lia; [done|].
    by rewrite mp_entry_unknown.
  - specialize (IH Hq Hu). intros [|n] g; cbn [mp_entries]; destruct (Z.leb_spec e p); try lia; [done|].
    destruct (mp_entry_known p g Hk) as (g' & -> & _). apply IH.
Qed.

Lemma mp_entries_keeps n : forall p g g',
  mp_entries n m p e g = Some g' ->
  ismp g' = ismp g /\ lapic g' = lapic g /\ ncpu g <= ncpu g' <= Z.max (ncpu g) (Z.of_nat NCPU).
Proof.
  induction n as [|n IH]; intros p g g'; cbn [mp_entries]; destruct (Z.leb_spec e p).
  - intros [= <-]. split_and!; [done..|lia|lia].
  - done.
  - intros [= <-]. split_and!; [done..|lia|lia].
  - destruct (known (mget m p)) eqn:Hk.
    + destruct (mp_entry_known p g Hk) as (g1 & -> & E & El & Hb). intros Hg.
      apply IH in Hg as (E' & El' & Hb'). split_and!; [congruence..|lia|lia].
    + rewrite mp_entry_unknown by done. intros Hg.
      by rewrite (mp_entries_stuck p p (reach_here p)) in Hg by done.
Qed.

(** Otherwise it ends before [n] turns. *)
Lemma mp_entries_ends n : forall p g, e - p <= Z.of_nat n ->
  is_Some (mp_entries n m p e g) \/ exists q, reaches p q /\ q < e /\ known (mget m q) = false.
Proof.
  induction n as [|n IH]; intros p g Hn; cbn [mp_entries]; destruct (Z.leb_spec e p); try lia; [by left; eauto..|].
  destruct (known (mget m p)) eqn:Hk.
  - destruct (mp_entry_known p g Hk) as (g1 & -> & _).
    assert (8 <= entry_size (mget m p)) by (unfold entry_size; destruct (_ =? 0); lia).
    destruct (IH (p + entry_size (mget m p)) g1) as [?|(q & Hq & Hu)]; [lia|by left|right].
    exists q. split; [|done]. by apply reach_next.
  - right. exists p. split; [apply reach_here|done].
Qed.
End Mp.

(** mp.c [mpinit].  When the machine has a configuration table,
    [mpinit] either comes to the end of it and keeps the multiprocessor
    setup, with at most NCPU processors, or comes to an entry whose type
    it does not know, and then never ends: its loop goes round on that
    entry for ever.  In no case does it fall back to one processor, as it
    means to do when it does not like what it finds. *)
Theorem mpinit_never_falls_back `{Hw} env s mp conf :
  mpconfig (phys s) = Some (mp, conf) -> ncpu (mpc s) <= Z.of_nat NCPU ->
  let m := phys s in
  let p := conf + SIZEOF_MPCONF in
  let e := conf + conf_length m conf in
  (exists s', mpinit env s = Ok tt s' env /\ ismp (mpc s') = true /\
     lapic (mpc s') = conf_lapicaddr m conf /\ ncpu (mpc s) <= ncpu (mpc s') <= Z.of_nat NCPU) \/
  (exists q s', reaches m e p q /\ q < e /\ known (mget m q) = false /\
     mpinit env s = Blocked WHalt s' /\ forall n g, mp_entries n m p e g = None).
Proof.
  intros Hc Hn m p e. unfold mpinit. rewrite bind_gets, Hc. unfold mod_mp. rewrite !bind_modify, bind_gets.
  set (s1 := set_mpc _ _). fold m p e. set (n := Z.to_nat (conf_length m conf)).
  assert (ismp (mpc s1) = true /\ lapic (mpc s1) = conf_lapicaddr m conf /\ ncpu (mpc s1) = ncpu (mpc s))
    as (H1 & H2 & H3) by done.
  destruct (mp_entries_ends m e n p (mpc s1)) as [[g Hg]|(q & Hq & Hlt & Hu)].
  - unfold e, p, n, SIZEOF_MPCONF. lia.
  - left. rewrite Hg. destruct (mp_entries_keeps m e n p _ _ Hg) as (E1 & E2 & Hb).
    rewrite bind_modify, E1, H1. cbn [negb]. unfold when.
    destruct (negb (mp_imcrp m mp =? 0)); (eexists; split; [reflexivity|]); cbn;
      rewrite E1, E2; split_and!; auto; lia.
  - right. exists q, s1. pose proof (mp_entries_stuck m e p q Hq Hlt Hu) as Hs. rewrite Hs. split_and!; done.
Qed.

(** A table with one entry, of type 9. *)
Definition mp_memory : gmap Z Z :=
  mput (mput ∅ 983040 (bytes_of "_MP_" ++ bytes32 4096 ++ [1; 4; 144; 0; 0; 0; 0; 0]))
    4096 (bytes_of "PCMP" ++ [52; 0; 4; 177] ++ replicate 28 0 ++ bytes32 4276092928 ++ replicate 4 0
          ++ [9; 0; 0; 0; 0; 0; 0; 0]).
Definition hw_silent : Hw := {| dev_in := fun _ _ => 0 |}.
#[local] Existing Instance hw_silent.

Lemma mpinit_never_falls_back_witness :
  exists q s', mget mp_memory q = 9 /\ mpinit [] (set_phys mp_memory kst_boot) = Blocked WHalt s'.
Proof.
  destruct (mpinit_never_falls_back [] (set_phys mp_memory kst_boot) 983040 4096)
    as [(s' & E & _)|(q & s' & Hq & _ & _ & E & _)].
  - by vm_compute.
  - by vm_compute.
  - exfalso. vm_compute in E. discriminate E.
  - exists 4140, s'. split; [by vm_compute|exact E].
Defined.
