(* ===== verification/Kbd.v ===== *)
(** * kbd.c, kbd.h and the input half of uart.c: where characters come from

    [kbd_in] and [uart_in] are the bytes waiting in the keyboard
    controller and in the serial port. *)

From stdpp Require Import base numbers list gmap strings.
From S2P Require Import Prelude Kernel Spinlock Console Intr.

(** ** kbd.h *)

Definition SHIFT : Z := 1.
Definition CTL : Z := 2.
Definition ALT : Z := 4.
Definition CAPSLOCK : Z := 8.
Definition NUMLOCK : Z := 16.
Definition SCROLLLOCK : Z := 32.
Definition E0ESC : Z := 64.

(** [C('x')]: control-x. *)
Definition C (x : Z) : Z := x - 64.

(** An array of 256 [uchar]s: its first entries, then entries by index. *)
Definition table (first : list Z) (entries : list (Z * Z)) : list Z :=
  foldl (fun t e => <[Z.to_nat (fst e) := u8 (snd e)]> t)
    (map u8 first ++ replicate (256 - length first) 0) entries.

Definition shiftcode : list Z :=
  table [] [(29, CTL); (42, SHIFT); (54, SHIFT); (56, ALT); (157, CTL); (184, ALT)].
Definition togglecode : list Z := table [] [(58, CAPSLOCK); (69, NUMLOCK); (70, SCROLLLOCK)].

(** KEY_UP, KEY_DN, KEY_PGUP, KEY_PGDN, KEY_LF, KEY_RT, KEY_HOME, KEY_END,
    KEY_INS, KEY_DEL. *)
Definition special : list (Z * Z) :=
  [(200, 226); (208, 227); (201, 230); (209, 231); (203, 228); (205, 229); (151, 224); (207, 225);
   (210, 232); (211, 233)].

Definition normalmap : list Z :=
  table ([0; 27] ++ bytes_of "1234567890-=" ++ [8; 9] ++
         bytes_of "qwertyuiop[]" ++ [10; 0] ++ bytes_of "asdfghjkl;'`" ++ [0; 92] ++
         bytes_of "zxcvbnm,./" ++ [0; 42; 0; 32; 0; 0; 0; 0; 0; 0; 0; 0; 0; 0; 0; 0; 0] ++
         bytes_of "789-456+1230." ++ [0; 0; 0; 0])
    ((156, 10) :: (181, 47) :: special).

Definition shiftmap : list Z :=
  table ([0; 27] ++ bytes_of "!@#$%^&*()_+" ++ [8; 9] ++
         bytes_of "QWERTYUIOP{}" ++ [10; 0] ++ bytes_of "ASDFGHJKL:" ++ [34; 126; 0; 124] ++
         bytes_of "ZXCVBNM<>?" ++ [0; 42; 0; 32; 0; 0; 0; 0; 0; 0; 0; 0; 0; 0; 0; 0; 0] ++
         bytes_of "789-456+1230." ++ [0; 0; 0; 0])
    ((156, 10) :: (181, 47) :: special).

Definition ctlmap : list Z :=
  table (replicate 16 0 ++ map C (bytes_of "QWERTYUIOP") ++ [0; 0; 13; 0] ++
         map C (bytes_of "ASDFGHJKL") ++ [0; 0; 0; 0; C 92] ++ map C (bytes_of "ZXCVBNM") ++
         [0; 0; C 47; 0; 0])
    ((156, 13) :: (181, C 47) :: special).

(** ** kbd.c *)

Definition charcode : list (list Z) := [normalmap; shiftmap; ctlmap; ctlmap].

(** What a scan code does: the new shift state and the character. *)
Definition kbd_code (shift data : Z) : Z * Z :=
  let code t := nth (Z.to_nat data) t 0 in
  if data =? 224 then (Z.lor shift E0ESC, 0) else
  if negb (Z.land data 128 =? 0) then
    let data := if negb (Z.land shift E0ESC =? 0) then data else Z.land data 127 in
    (Z.land shift (u32 (Z.lnot (Z.lor (nth (Z.to_nat data) shiftcode 0) E0ESC))), 0)
  else
    let (shift, data) :=
      if negb (Z.land shift E0ESC =? 0)
      then (Z.land shift (u32 (Z.lnot E0ESC)), Z.lor data 128) else (shift, data) in
    let shift := Z.lor shift (nth (Z.to_nat data) shiftcode 0) in
    let shift := Z.lxor shift (nth (Z.to_nat data) togglecode 0) in
    let c := nth (Z.to_nat data) (nth (Z.to_nat (Z.land shift (Z.lor CTL SHIFT))) charcode []) 0 in
    (shift,
     if negb (Z.land shift CAPSLOCK =? 0) then
       if (97 <=? c) && (c <=? 122) then c - 32
       else if (65 <=? c) && (c <=? 90) then c + 32 else c
     else c).

Definition kbdgetc : M Z :=
  let! q := gets kbd_in in
  match q with
  | [] => ret (-1)
  | data :: q' =>
      modify (set_kbd_in q') ;;
      let! sh := gets kbd_shift in
      let (sh', c) := kbd_code sh data in
      modify (set_kbd_shift sh') ;;
      ret c
  end.

(** ** uart.c *)

Definition COM1 : Z := 1016.

Definition uartinit `{Hw} : M unit :=
  outb (COM1 + 2) 0 ;;
  outb (COM1 + 3) 128 ;;
  outb (COM1 + 0) (115200 / 9600) ;;
  outb (COM1 + 1) 0 ;;
  outb (COM1 + 3) 3 ;;
  outb (COM1 + 4) 0 ;;
  outb (COM1 + 1) 1 ;;
  let! st := inb (COM1 + 5) in
  if st =? 255 then ret tt else
  modify (set_uart true) ;;
  let! _ := inb (COM1 + 2) in
  let! _ := inb (COM1 + 0) in
  picenable IRQ_COM1 ;;
  ioapicenable IRQ_COM1 0 ;;
  for_each (bytes_of "xv6..." ++ [ch_newline]) uartputc.

Definition uartgetc : M Z :=
  let! u := gets uart in
  if negb u then ret (-1) else
  let! q := gets uart_in in
  match q with
  | [] => ret (-1)
  | c :: q' => modify (set_uart_in q') ;; ret c
  end.
