(* ===== verification/Buf.v ===== *)
(** * buf.h: disk buffers, and what a disk driver offers

    The buffer cache works with either of two drivers, ide.c and memide.c:
    [Driver] is the interface they implement. *)

From stdpp Require Import base numbers list gmap strings.
From S2P Require Import Prelude Kernel.

Definition B_VALID : Z := 2.
Definition B_DIRTY : Z := 4.
Definition FSSIZE : Z := 1000.
Definition NBUF : nat := 30.

Definition get_buf (i : nat) : M buf := fun env s =>
  match bcache s !! i with Some b => Ok b s env | None => Panic "trap" end.
Definition mod_buf (i : nat) (f : buf -> buf) : M unit :=
  modify (fun s => set_bcache (upd i f (bcache s)) s).

Definition zero_block : list Z := replicate (Z.to_nat BSIZE) 0.
Definition block_of (d : gmap (Z * Z) (list Z)) (dev b : Z) : list Z := default zero_block (d !! (dev, b)).

(** [b->flags |= B_VALID; b->flags &= ~B_DIRTY]. *)
Definition flags_done (f : Z) : Z := Z.land (Z.lor f B_VALID) (u32 (Z.lnot B_DIRTY)).

(** [(b->flags & (B_VALID|B_DIRTY)) == B_VALID]. *)
Definition clean (b : buf) : bool := Z.land (b_flags b) (Z.lor B_VALID B_DIRTY) =? B_VALID.
Definition is_dirty (b : buf) : bool := negb (Z.land (b_flags b) B_DIRTY =? 0).
Definition is_valid (b : buf) : bool := negb (Z.land (b_flags b) B_VALID =? 0).

(** [ideinit], [ideintr] and [iderw] of the driver that is linked in. *)
Class Driver := {
  drv_init : M unit;
  drv_intr : M unit;
  drv_rw : nat -> M unit;
}.
