(* ===== verification/Ide.v ===== *)
(** * ide.c: the disk driver

    The IDE controller is the device it drives: [disk] holds the blocks of
    its two disks, a write command stores the block, and a read command
    ([ide_cmd]) selects the block whose bytes the next transfer reads.
    The loop in [idewait] that polls the controller until it is ready has
    no effect on the state. *)

From stdpp Require Import base numbers list gmap strings.
From S2P Require Import Prelude Kernel Spinlock Sched Sleeplock Intr Buf.

Definition IDE_CMD_READ : Z := 32.
Definition IDE_CMD_WRITE : Z := 48.
Definition IDE_CMD_RDMUL : Z := 196.
Definition IDE_CMD_WRMUL : Z := 197.

Definition idewait (checkerr : bool) : M Z :=
  let! e := gets ide_err in
  ret (if checkerr && e then -1 else 0).

(** The second disk is present if its status is not 0 in one of 1000
    readings. *)
Definition ideinit `{Hw} : M unit :=
  initlock LIde ;;
  picenable IRQ_IDE ;;
  let! n := gets (fun s => ncpu (mpc s)) in
  ioapicenable IRQ_IDE (n - 1) ;;
  let! _ := idewait false in
  outb 502 (Z.lor 224 (Z.shiftl 1 4)) ;;
  let! st := inb 503 in
  when (negb (st =? 0)) (modify (set_havedisk1 true)) ;;
  outb 502 (Z.lor 224 (Z.shiftl 0 4)).

(** The registers select the sector, and the command with the data that
    follows a write reaches the disk. *)
Definition idestart (ob : option nat) : M unit :=
  match ob with
  | None => panic "idestart"
  | Some i =>
      let! b := get_buf i in
      if FSSIZE <=? b_blockno b then panic "incorrect blockno" else
      let sector_per_block := BSIZE / 512 in
      let sector := b_blockno b * sector_per_block in
      let read_cmd := if sector_per_block =? 1 then IDE_CMD_READ else IDE_CMD_RDMUL in
      let write_cmd := if sector_per_block =? 1 then IDE_CMD_WRITE else IDE_CMD_WRMUL in
      if 7 <? sector_per_block then panic "idestart" else
      let! _ := idewait false in
      outb 1014 0 ;;
      outb 498 sector_per_block ;;
      outb 499 (Z.land sector 255) ;;
      outb 500 (Z.land (Z.shiftr sector 8) 255) ;;
      outb 501 (Z.land (Z.shiftr sector 16) 255) ;;
      outb 502 (Z.lor (Z.lor 224 (Z.shiftl (Z.land (b_dev b) 1) 4)) (Z.land (Z.shiftr sector 24) 15)) ;;
      let at_ := (Z.land (b_dev b) 1, sector) in
      modify (set_ide_cmd (Some at_)) ;;
      if is_dirty b then
        outb 503 write_cmd ;;
        modify (fun s => set_disk (<[at_ := b_data b]> (disk s)) s)
      else outb 503 read_cmd
  end.

(** [insl(0x1f0, b->data, BSIZE/4)]: the block of the last command. *)
Definition insl : M (list Z) :=
  gets (fun s =>
    match ide_cmd s with
    | Some (dev, sector) => block_of (disk s) dev sector
    | None => zero_block
    end).

Definition ideintr : M unit :=
  acquire LIde ;;
  let! q := gets idequeue in
  match q with
  | None => release LIde
  | Some i =>
      let! b := get_buf i in
      modify (set_idequeue (b_qnext b)) ;;
      (if is_dirty b then ret tt else
       let! r := idewait true in
       if r <? 0 then ret tt else
       let! d := insl in
       mod_buf i (set_b_data d)) ;;
      mod_buf i (fun b => set_b_flags (flags_done (b_flags b)) b) ;;
      wakeup (CBuf i) ;;
      let! q := gets idequeue in
      (match q with None => ret tt | Some _ => idestart q end) ;;
      release LIde
  end.

(** [for(pp=&idequeue; *pp; pp=&( *pp)->qnext)]: the last buffer of the
    queue; no queue is longer than the cache. *)
Fixpoint queue_last (fuel : nat) (i : nat) : M nat :=
  match fuel with
  | O => halt WFuel
  | S n =>
      let! b := get_buf i in
      match b_qnext b with
      | None => ret i
      | Some j => queue_last n j
      end
  end.

Definition enqueue (i : nat) : M unit :=
  mod_buf i (set_b_qnext None) ;;
  let! q := gets idequeue in
  match q with
  | None => modify (set_idequeue (Some i))
  | Some j =>
      let! k := queue_last (S NBUF) j in
      mod_buf k (set_b_qnext (Some i))
  end.

Definition iderw (i : nat) : M unit :=
  let! h := holdingsleep (SLbuf i) in
  if negb h then panic "iderw: buf not locked" else
  let! b := get_buf i in
  if clean b then panic "iderw: nothing to do" else
  let! h1 := gets havedisk1 in
  if negb (b_dev b =? 0) && negb h1 then panic "iderw: ide disk 1 not present" else
  acquire LIde ;;
  enqueue i ;;
  let! q := gets idequeue in
  when (bool_decide (q = Some i)) (idestart (Some i)) ;;
  wait_loop (fun _ : unit =>
    let! b := get_buf i in
    if clean b then ret (inr tt) else sleep (CBuf i) LIde ;; ret (inl tt)) tt ;;
  release LIde.

Definition ide_driver `{Hw} : Driver := {| drv_init := ideinit; drv_intr := ideintr; drv_rw := iderw |}.
