(* ===== verification/Memide.v ===== *)
(** * memide.c: the driver of a disk that is a memory image

    It takes the place of ide.c; the image is [disk], of device 1. *)

From stdpp Require Import base numbers list gmap strings.
From S2P Require Import Prelude Kernel Spinlock Sched Sleeplock Intr Buf.

(** The image's size in bytes is fixed by the linker. *)
Definition ideinit (image_size : Z) : Z := image_size / BSIZE.

Definition ideintr : M unit := ret tt.

(** [disksize] is what [ideinit] computed. *)
Definition iderw (disksize : Z) (i : nat) : M unit :=
  let! h := holdingsleep (SLbuf i) in
  if negb h then panic "iderw: buf not locked" else
  let! b := get_buf i in
  if clean b then panic "iderw: nothing to do" else
  if negb (b_dev b =? 1) then panic "iderw: request not for disk 1" else
  if disksize <=? b_blockno b then panic "iderw: block out of range" else
  (if is_dirty b then
     mod_buf i (fun b => set_b_flags (Z.land (b_flags b) (u32 (Z.lnot B_DIRTY))) b) ;;
     modify (fun s => set_disk (<[(1, b_blockno b) := b_data b]> (disk s)) s)
   else
     let! d := gets (fun s => block_of (disk s) 1 (b_blockno b)) in
     mod_buf i (set_b_data d)) ;;
  mod_buf i (fun b => set_b_flags (Z.lor (b_flags b) B_VALID) b).

Definition memide_driver (disksize : Z) : Driver :=
  {| drv_init := ret tt; drv_intr := ideintr; drv_rw := iderw disksize |}.
