(* ===== verification/Ring.v ===== *)
(** * Circular doubly linked lists

    The order list of the buffer cache, by itself: [next] and [prev] are
    functions from nodes to nodes, and [path f a l z] says that following
    [f] from [a] leads through [l] to [z]. *)

From stdpp Require Import base numbers list gmap.
From S2P Require Import Prelude.

#[local] Open Scope nat_scope.

Fixpoint path (f : nat -> nat) (a : nat) (l : list nat) (z : nat) : Prop :=
  match l with
  | [] => f a = z
  | b :: l' => f a = b /\ path f b l' z
  end.

(** [f] with the value at [a] replaced. *)
Definition upd_fn (f : nat -> nat) (a v : nat) : nat -> nat := fun x => if decide (x = a) then v else f x.

Lemma upd_fn_eq f a v : upd_fn f a v a = v.
Proof. unfold upd_fn. by rewrite decide_True. Qed.
Lemma upd_fn_ne f a v x : x <> a -> upd_fn f a v x = f x.
Proof. intros. unfold upd_fn. by rewrite decide_False. Qed.

Lemma path_app f a l1 b l2 z : path f a (l1 ++ b :: l2) z <-> path f a l1 b /\ path f b l2 z.
Proof.
  revert a. induction l1 as [|c l1 IH]; intros a; cbn; [tauto|]. rewrite IH. tauto.
Qed.

Lemma path_ext f g a l z : (forall x, x = a \/ x ∈ l -> f x = g x) -> path f a l z -> path g a l z.
Proof.
  revert a. induction l as [|b l IH]; intros a E; cbn.
  - intros <-. symmetry. apply E. by left.
  - intros [<- H]. split; [symmetry; apply E; by left|]. apply IH; [|done].
    intros x Hx. apply E. right. destruct Hx as [->|Hx]; [by left|by right].
Qed.

(** Replacing the link of the last node of a path. *)
Lemma path_last f a l z z' :
  NoDup (a :: l) -> path f a l z -> path (upd_fn f (default a (last l)) z') a l z'.
Proof.
  revert a. induction l as [|b l IH]; intros a Hd; cbn [path].
  - intros _. apply upd_fn_eq.
  - intros [Hab Hp]. apply NoDup_cons in Hd as [Ha Hd].
    assert (default a (last (b :: l)) = default b (last l)) as -> by (rewrite last_cons; by destruct (last l)).
    split; [|by apply IH]. rewrite upd_fn_ne; [done|]. intros ->. apply Ha.
    destruct (last l) as [y|] eqn:E; cbn; [|left]. apply last_Some in E as [l' ->]. right. apply elem_of_app.
    right. by left.
Qed.

(** Taking a node out: its predecessor gets its link. *)
Lemma path_unlink f h l1 i l2 :
  NoDup (h :: l1 ++ i :: l2) -> path f h (l1 ++ i :: l2) h ->
  path (upd_fn f (default h (last l1)) (f i)) h (l1 ++ l2) h.
Proof.
  intros Hd [H1 H2]%path_app.
  assert (NoDup (h :: l1)) as Hd1.
  { apply NoDup_cons in Hd as [Hh Hd]. apply NoDup_app in Hd as (Hd & _). apply NoDup_cons. split; [|done].
    intros ?. apply Hh. apply elem_of_app. by left. }
  pose proof (path_last f h l1 i (f i) Hd1 H1) as HL.
  set (g := upd_fn f (default h (last l1)) (f i)) in *.
  assert (forall x, x = h \/ x ∈ l1 -> x <> i /\ x ∉ l2) as Hsep.
  { intros x Hx. apply NoDup_cons in Hd as [Hh Hd]. apply NoDup_app in Hd as (_ & Hd & _).
    destruct Hx as [->|Hx].
    - split; intros ?; apply Hh; apply elem_of_app; right; [subst; by left|by right].
    - specialize (Hd x Hx). split; intros ?; apply Hd; [subst; by left|by right]. }
  assert (forall x, x = i \/ x ∈ l2 -> g x = f x) as Hg.
  { intros x Hx. apply upd_fn_ne. intros ->.
    assert (default h (last l1) = h \/ default h (last l1) ∈ l1) as Hin.
    { destruct (last l1) as [y|] eqn:E; cbn; [right|by left]. apply last_Some in E as [l' ->].
      apply elem_of_app. right. by left. }
    destruct (Hsep _ Hin) as [Hn1 Hn2]. by destruct Hx. }
  destruct l2 as [|b l2].
  - rewrite app_nil_r. cbn in H2. by rewrite H2 in HL.
  - apply path_app. cbn in H2. destruct H2 as [H2 H3]. rewrite H2 in HL. split; [done|].
    apply (path_ext f); [|done]. intros x Hx. symmetry. apply Hg. right.
    destruct Hx as [->|Hx]; [by left|by right].
Qed.

(** Putting a node in, as the first one and as the last one. *)
Lemma path_link_first f h i l :
  i <> h -> i ∉ l -> h ∉ l -> path f h l h ->
  path (upd_fn (upd_fn f i (f h)) h i) h (i :: l) h.
Proof.
  intros Hi Hil Hhl Hp. cbn. split; [apply upd_fn_eq|].
  assert (forall x, x <> h -> x <> i -> upd_fn (upd_fn f i (f h)) h i x = f x) as E.
  { intros x ? ?. by rewrite !upd_fn_ne. }
  destruct l as [|b l]; cbn in *.
  - rewrite upd_fn_ne, upd_fn_eq by done. done.
  - destruct Hp as [Hb Hp]. split; [by rewrite upd_fn_ne, upd_fn_eq by done|].
    apply (path_ext f); [|done]. intros x Hx. symmetry.
    assert (x ∈ b :: l) as Hin by (destruct Hx as [->|Hx]; [by left|by right]).
    apply E; intros ->; [by apply Hhl|by apply Hil].
Qed.

Lemma path_link_last f h i l :
  i <> h -> i ∉ l -> NoDup (h :: l) -> path f h l h ->
  path (upd_fn (upd_fn f i h) (default h (last l)) i) h (l ++ [i]) h.
Proof.
  intros Hi Hil Hd Hp. apply path_app.
  assert (i <> default h (last l)) as Hne.
  { destruct (last l) as [y|] eqn:E; cbn; [|done]. apply last_Some in E as [l' ->]. intros ->. apply Hil.
    apply elem_of_app. right. by left. }
  split.
  - apply path_last with (z := h); [done|]. apply (path_ext f); [|done]. intros x Hx. rewrite upd_fn_ne; [done|].
    intros ->. by destruct Hx.
  - cbn. by rewrite upd_fn_ne, upd_fn_eq.
Qed.
