(* ===== verification/Bio.v ===== *)
(** * bio.c: the buffer cache

    The buffers are the first [NBUF] entries of [bcache], and entry [NBUF]
    is the head of the list in order of use, whose links are positions. *)

From stdpp Require Import base numbers list gmap strings.
From S2P Require Import Prelude Kernel Spinlock Sched Sleeplock Buf.

Section Bio.
Context `{Driver}.

Definition HEAD : nat := NBUF.

(** Putting buffer [i] right after the head. *)
Definition link_first (i : nat) : M unit :=
  let! h := get_buf HEAD in
  mod_buf i (set_b_next (b_next h)) ;;
  mod_buf i (set_b_prev HEAD).
Definition relink_head (i : nat) : M unit :=
  let! h := get_buf HEAD in
  mod_buf (b_next h) (set_b_prev i) ;;
  mod_buf HEAD (set_b_next i).

Definition binit : M unit :=
  initlock LBcache ;;
  mod_buf HEAD (set_b_prev HEAD) ;;
  mod_buf HEAD (set_b_next HEAD) ;;
  for_each (seq 0 NBUF) (fun i =>
    link_first i ;;
    initsleeplock (SLbuf i) ;;
    relink_head i).

(** The two searches of [bget], along [next] and along [prev], from buffer
    [i] until the head. *)
Fixpoint bfind (link : buf -> nat) (ok : buf -> bool) (fuel i : nat) : M (option nat) :=
  match fuel with
  | O => halt WFuel
  | S n =>
      if bool_decide (i = HEAD) then ret None else
      let! b := get_buf i in
      if ok b then ret (Some i) else bfind link ok n (link b)
  end.

Definition bget (dev blockno : Z) : M nat :=
  acquire LBcache ;;
  let! h := get_buf HEAD in
  let! r := bfind b_next (fun b => (b_dev b =? dev) && (b_blockno b =? blockno)) (S NBUF) (b_next h) in
  match r with
  | Some i =>
      mod_buf i (fun b => set_b_refcnt (b_refcnt b + 1) b) ;;
      release LBcache ;;
      acquiresleep (SLbuf i) ;;
      ret i
  | None =>
      let! h := get_buf HEAD in
      let! r := bfind b_prev (fun b => (b_refcnt b =? 0) && negb (is_dirty b)) (S NBUF) (b_prev h) in
      match r with
      | Some i =>
          mod_buf i (set_b_dev dev) ;;
          mod_buf i (set_b_blockno blockno) ;;
          mod_buf i (set_b_flags 0) ;;
          mod_buf i (set_b_refcnt 1) ;;
          release LBcache ;;
          acquiresleep (SLbuf i) ;;
          ret i
      | None => panic "bget: no buffers"
      end
  end.

Definition bread (dev blockno : Z) : M nat :=
  let! i := bget dev blockno in
  let! b := get_buf i in
  when (negb (is_valid b)) (drv_rw i) ;;
  ret i.

Definition bwrite (i : nat) : M unit :=
  let! h := holdingsleep (SLbuf i) in
  if negb h then panic "bwrite" else
  mod_buf i (fun b => set_b_flags (Z.lor (b_flags b) B_DIRTY) b) ;;
  drv_rw i.

Definition brelse (i : nat) : M unit :=
  let! h := holdingsleep (SLbuf i) in
  if negb h then panic "brelse" else
  releasesleep (SLbuf i) ;;
  acquire LBcache ;;
  mod_buf i (fun b => set_b_refcnt (b_refcnt b - 1) b) ;;
  let! b := get_buf i in
  when (b_refcnt b =? 0)
    (mod_buf (b_next b) (set_b_prev (b_prev b)) ;;
     mod_buf (b_prev b) (set_b_next (b_next b)) ;;
     link_first i ;;
     relink_head i) ;;
  release LBcache.
End Bio.
