(* ===== verification/Bcache.v ===== *)
(** * The buffer cache as a client sees it

    [Cache H P s] relates the linked buffers of bio.c to what the code above
    it relies on: [H] maps every buffer that is locked to its block and its
    contents, and [P] maps every block whose buffer is dirty (pinned by the
    log) to the contents it is to have; all other cached data is equal to
    the disk's.  The lemmas give the effect of [bread], [bwrite] and [brelse]
    in these terms, for a driver that satisfies [SyncDisk]. *)

From stdpp Require Import base numbers list gmap strings.
From S2P Require Import Prelude Kernel Spinlock Sched Sleeplock Buf Memide Ring Bio.

(** ** A run that may be cut short by a power failure

    [rc C o Q]: the run returns in a state that satisfies [Q], or stops in
    one that satisfies [C]. *)

Definition rc {A} (C : kst -> Prop) (env : list (kst -> kst)) (o : outcome A) (Q : A -> kst -> Prop) : Prop :=
  match o with
  | Ok a s e => Q a s /\ e = env
  | Blocked WHalt s => C s
  | _ => False
  end.

Lemma rc_bind {A B} C env (m : M A) (f : A -> M B) s Q R :
  rc C env (m env s) Q -> (forall a s', Q a s' -> rc C env (f a env s') R) -> rc C env (bind m f env s) R.
Proof.
  unfold bind. destruct (m env s) as [a s' e| |[]]; cbn; try done. intros [HQ ->] Hf. by apply Hf.
Qed.

Lemma rc_mono {A} (C C' : kst -> Prop) env (o : outcome A) (Q R : A -> kst -> Prop) :
  rc C env o Q -> (forall s, C s -> C' s) -> (forall a s, Q a s -> R a s) -> rc C' env o R.
Proof. destruct o as [a s e| |[]]; cbn; try done; intros HQ HC HR; [destruct HQ; auto|auto]. Qed.

Lemma rc_ok {A} C env (o : outcome A) a s (Q : A -> kst -> Prop) : o = Ok a s env -> Q a s -> rc C env o Q.
Proof. by intros ->. Qed.

(** A loop that counts a header's blocks down: the turns of [loop_n]. *)
Lemma rc_loop {A} C env (body : Z -> M (Z + A)) (Inv : nat -> kst -> Prop) (Q : A -> kst -> Prop) n s :
  (forall k s, (k < n)%nat -> Inv k s ->
     rc C env (body (Z.of_nat k) env s) (fun r s' => r = inl (Z.of_nat (S k)) /\ Inv (S k) s')) ->
  (forall s, Inv n s -> rc C env (body (Z.of_nat n) env s) (fun r s' => exists a, r = inr a /\ Q a s')) ->
  forall fuel k, (k <= n)%nat -> (n - k < fuel)%nat -> Inv k s ->
  rc C env (loop_n fuel body (Z.of_nat k) env s) Q.
Proof.
  intros Hb He fuel. revert s. induction fuel as [|fuel IH]; intros s k Hk Hf HI; [lia|]. cbn [loop_n].
  destruct (decide (k = n)) as [->|Hne].
  - eapply rc_bind; [by apply He|]. intros r s' (a & -> & HQ). done.
  - eapply rc_bind; [apply (Hb k); [lia|done]|]. intros r s' [-> HI']. apply IH; [lia|lia|done].
Qed.

(** ** What the cache asks of the disk

    [rw_done i x s] is the state after a request for buffer [i], whose
    contents are [x]. *)

Definition rw_done (i : nat) (x : buf) (s : kst) : kst :=
  if is_dirty x then
    set_disk (<[(1, b_blockno x) := b_data x]> (disk s))
      (set_bcache (<[i := set_b_flags B_VALID x]> (bcache s)) s)
  else set_bcache (<[i := set_b_flags B_VALID (set_b_data (block_of (disk s) 1 (b_blockno x)) x)]> (bcache s)) s.

Definition flags_ok (f : Z) : Prop := f = 0 \/ f = B_VALID \/ f = Z.lor B_VALID B_DIRTY.

(** A driver of a disk of [size] blocks that has served the request when it
    returns; if [may] holds, the power may fail at any request. *)
Class SyncDisk {DR : Driver} (size : Z) (may : Prop) := {
  rw_served : forall i x env s,
    locks s = ∅ -> wf_cpu (kcpu s) -> crit (kcpu s) = kcpu s ->
    is_Some (slocks s !! SLbuf i) -> bcache s !! i = Some x ->
    flags_ok (b_flags x) -> clean x = false -> b_dev x = 1 -> 0 <= b_blockno x < size ->
    drv_rw i env s = Ok tt (rw_done i x s) env \/ may /\ drv_rw i env s = Blocked WHalt s
}.

Lemma set_kcpu_crit s : crit (kcpu s) = kcpu s -> set_kcpu (crit (kcpu s)) s = s.
Proof. intros ->. by destruct s. Qed.

Lemma memide_served size i x env s :
  locks s = ∅ -> wf_cpu (kcpu s) -> crit (kcpu s) = kcpu s ->
  is_Some (slocks s !! SLbuf i) -> bcache s !! i = Some x ->
  flags_ok (b_flags x) -> clean x = false -> b_dev x = 1 -> 0 <= b_blockno x < size ->
  Memide.iderw size i env s = Ok tt (rw_done i x s) env.
Proof.
  intros Hl Hw Hc Hs Hx Hf Hn Hd Hb. unfold Memide.iderw.
  rewrite (bind_ok _ _ _ _ _ _ _ (holdingsleep_run (SLbuf i) env s ltac:(by rewrite Hl) Hw)).
  rewrite bool_decide_eq_true_2, set_kcpu_crit by done. cbn [negb].
  erewrite bind_ok by (unfold get_buf; by rewrite Hx). rewrite Hn, Hd. cbn [Z.eqb Pos.eqb negb].
  rewrite (proj2 (Z.leb_gt _ _)) by lia. unfold rw_done.
  assert (forall f g, upd i f (upd i g (bcache s)) = <[i := f (g x)]> (bcache s)) as E.
  { intros f g. rewrite upd_upd. by apply upd_insert with (f := fun x => f (g x)). }
  assert (clean x = negb (is_dirty x) && negb (b_flags x =? 0)) as Ec.
  { unfold clean, is_dirty. by destruct Hf as [-> | [-> | ->]]. }
  destruct (is_dirty x) eqn:Ed.
  - unfold mod_buf, bind, modify. f_equal.
    assert (b_flags x = Z.lor B_VALID B_DIRTY) as Ef.
    { unfold is_dirty in Ed. by destruct Hf as [Hf | [Hf | Hf]]; rewrite Hf in Ed |- *. }
    cbn [bcache set_bcache set_disk]. rewrite E. cbn. rewrite Ef. done.
  - assert (b_flags x = 0) as Ef.
    { destruct (Z.eqb_spec (b_flags x) 0); [done|]. rewrite Ec in Hn. done. }
    unfold mod_buf, bind, gets, modify. f_equal. cbn [bcache set_bcache]. rewrite E. cbn. rewrite Ef. done.
Qed.

(** The power fails at a request in a state in which [fails] says so. *)
Definition failing (fails : kst -> bool) (DR : Driver) : Driver := {|
  drv_init := drv_init;
  drv_intr := drv_intr;
  drv_rw := fun i => let! f := gets fails in if (f : bool) then halt WHalt else drv_rw i
|}.

Lemma memide_sync size : @SyncDisk (memide_driver size) size False.
Proof. constructor. intros. left. by apply memide_served. Qed.

Lemma failing_sync fails size : @SyncDisk (failing fails (memide_driver size)) size True.
Proof.
  constructor. intros. cbn. unfold bind, gets. destruct (fails s); [by right|]. left. by apply memide_served.
Qed.

(** ** The cache *)

Definition linked (link : buf -> nat) (bs : list buf) (a : nat) : nat :=
  match bs !! a with Some b => link b | None => O end.

(** The buffers in order of use, the most recent first. *)
Record ring (bs : list buf) (order : list nat) : Prop := {
  ring_len : length bs = S NBUF;
  ring_all : order ≡ₚ seq 0 NBUF;
  ring_next : path (linked b_next bs) HEAD order HEAD;
  ring_prev : path (linked b_prev bs) HEAD (reverse order) HEAD;
}.

(** No block has two buffers. *)
Definition uniq (bs : list buf) : Prop := forall i j x y,
  (i < NBUF)%nat -> (j < NBUF)%nat -> bs !! i = Some x -> bs !! j = Some y ->
  b_dev x = 1 -> b_dev y = 1 -> b_blockno x = b_blockno y -> i = j.

(** A locked buffer has a block and, once it was read, contents. *)
Notation held := (gmap nat (Z * option (list Z))).
Notation pinned := (gmap Z (list Z)).

Definition locked_ok (size : Z) (v : Z * option (list Z)) (sl : option Z) (x : buf) : Prop :=
  b_refcnt x = 1 /\ is_Some sl /\ b_dev x = 1 /\ b_blockno x = fst v /\ 0 <= fst v < size /\
  match snd v with Some d => b_data x = d /\ is_valid x = true | None => b_flags x = 0 end.
Definition idle_ok (d : gmap (Z * Z) (list Z)) (sl : option Z) (x : buf) : Prop :=
  b_refcnt x = 0 /\ sl = None /\
  (b_dev x = 1 -> is_valid x = true -> is_dirty x = false -> b_data x = block_of d 1 (b_blockno x)).

Record buf_ok (size : Z) (H : held) (P : pinned) (sl : gmap slid Z) (d : gmap (Z * Z) (list Z)) (i : nat) (x : buf) : Prop := {
  bo_use : match H !! i with
           | Some v => locked_ok size v (sl !! SLbuf i) x
           | None => idle_ok d (sl !! SLbuf i) x
           end;
  bo_flags : flags_ok (b_flags x);
  bo_len : length (b_data x) = Z.to_nat BSIZE;
  bo_dirty : is_dirty x = true -> b_dev x = 1 /\ P !! b_blockno x = Some (b_data x);
}.

(** The process [mp] at position [me] is running, and no lock is held. *)
Record calm (me : nat) (mp : proc) (s : kst) : Prop := {
  ca_locks : locks s = ∅;
  ca_cur : cur s me mp;
  ca_run : state mp = RUNNING;
  ca_wf : wf_cpu (kcpu s);
  ca_crit : crit (kcpu s) = kcpu s;
}.

Record Cache (me : nat) (mp : proc) (size : Z) (H : held) (P : pinned) (s : kst) : Prop := {
  ca_calm : calm me mp s;
  ca_ring : exists order, ring (bcache s) order;
  ca_uniq : uniq (bcache s);
  ca_buf : forall i x, (i < NBUF)%nat -> bcache s !! i = Some x -> buf_ok size H P (slocks s) (disk s) i x;
  ca_pinned : forall b d, P !! b = Some d ->
    exists i x, (i < NBUF)%nat /\ bcache s !! i = Some x /\ b_dev x = 1 /\ b_blockno x = b /\ is_dirty x = true;
  ca_held : forall i v, H !! i = Some v -> (i < NBUF)%nat;
  ca_disk : forall b, length (block_of (disk s) 1 b) = Z.to_nat BSIZE;
}.

Lemma ring_lookup bs order i : ring bs order -> (i <= NBUF)%nat -> exists x, bs !! i = Some x.
Proof. intros Hr Hi. apply lookup_lt_is_Some. rewrite (ring_len _ _ Hr). lia. Qed.

Lemma ring_elem bs order i : ring bs order -> i ∈ order <-> (i < NBUF)%nat.
Proof. intros Hr. rewrite (ring_all _ _ Hr), elem_of_seq. lia. Qed.

Lemma ring_NoDup bs order : ring bs order -> NoDup (HEAD :: order).
Proof.
  intros Hr. apply NoDup_cons. split; [intros Hh; apply (ring_elem _ _ _ Hr) in Hh; unfold HEAD in Hh; lia|].
  rewrite (ring_all _ _ Hr). apply NoDup_seq.
Qed.

(** Changing a buffer but not its links. *)
Lemma linked_insert link bs i x x' a :
  bs !! i = Some x -> link x' = link x -> linked link (<[i := x']> bs) a = linked link bs a.
Proof.
  intros Hx Hl. unfold linked. destruct (decide (a = i)) as [->|Hne].
  - rewrite list_lookup_insert_eq, Hx; [done|by eapply lookup_lt_Some].
  - by rewrite list_lookup_insert_ne.
Qed.

Lemma ring_insert bs order i x x' :
  ring bs order -> bs !! i = Some x -> b_next x' = b_next x -> b_prev x' = b_prev x ->
  ring (<[i := x']> bs) order.
Proof.
  intros Hr Hx Hn Hp. constructor.
  - rewrite length_insert. apply (ring_len _ _ Hr).
  - apply (ring_all _ _ Hr).
  - eapply path_ext; [|apply (ring_next _ _ Hr)]. intros a _. symmetry. by apply linked_insert with x.
  - eapply path_ext; [|apply (ring_prev _ _ Hr)]. intros a _. symmetry. by apply linked_insert with x.
Qed.

(** The result of a search of [bget]. *)
Definition found (ok : buf -> bool) (bs : list buf) (l : list nat) (r : option nat) : Prop :=
  match r with
  | Some i => exists x, i ∈ l /\ bs !! i = Some x /\ ok x = true
  | None => forall i x, i ∈ l -> bs !! i = Some x -> ok x = false
  end.

Lemma bfind_path link ok s env : forall l h fuel,
  path (linked link (bcache s)) h l HEAD ->
  (forall i, i ∈ l -> (i < NBUF)%nat) -> length (bcache s) = S NBUF -> (length l < fuel)%nat ->
  exists r, bfind link ok fuel (linked link (bcache s) h) env s = Ok r s env /\ found ok (bcache s) l r.
Proof.
  induction l as [|b l IH]; intros h fuel Hp Hl Hlen Hf; (destruct fuel as [|fuel]; [cbn in Hf; lia|]); cbn [bfind path] in *.
  - rewrite Hp. exists None. split; [by rewrite bool_decide_eq_true_2|]. intros i x Hi. by apply elem_of_nil in Hi.
  - destruct Hp as [-> Hp]. assert (b < NBUF)%nat as Hb by (apply Hl; by left).
    rewrite bool_decide_eq_false_2 by (unfold HEAD; lia).
    destruct (lookup_lt_is_Some_2 (bcache s) b ltac:(lia)) as [x Hx].
    erewrite bind_ok by (unfold get_buf; by rewrite Hx). destruct (ok x) eqn:E.
    + exists (Some b). split; [done|]. exists x. split_and!; [by left|done|done].
    + destruct (IH b fuel Hp) as (r & Hr & Hfd); [intros; apply Hl; by right|done|cbn in Hf; lia|].
      assert (linked link (bcache s) b = link x) as Elk by (unfold linked; by rewrite Hx).
      exists r. split; [by rewrite <- Elk|]. destruct r as [i|]; cbn in *.
      * destruct Hfd as (y & ? & ?). exists y. split; [by right|done].
      * intros i y Hi Hy. apply elem_of_cons in Hi as [->|Hi]; [congruence|by apply (Hfd i y)].
Qed.

(** Moving a buffer to the front of the list. *)
Definition core (x : buf) : buf := set_b_next 0%nat (set_b_prev 0%nat x).

Definition unlinked (i : nat) (x : buf) (bs : list buf) : list buf :=
  upd (b_prev x) (set_b_next (b_next x)) (upd (b_next x) (set_b_prev (b_prev x)) bs).
Definition to_front (i : nat) (bs : list buf) : list buf :=
  let bs1 := upd i (set_b_prev HEAD) (upd i (set_b_next (linked b_next bs HEAD)) bs) in
  upd HEAD (set_b_next i) (upd (linked b_next bs1 HEAD) (set_b_prev i) bs1).

Lemma core_upd i f bs : (forall x, core (f x) = core x) -> core <$> upd i f bs = core <$> bs.
Proof.
  intros E. apply list_eq. intros j. rewrite !list_lookup_fmap. destruct (decide (j = i)) as [->|Hne].
  - rewrite lookup_upd_eq. destruct (bs !! i); cbn; [by rewrite E|done].
  - by rewrite lookup_upd_ne by done.
Qed.

Lemma core_moved i x bs : core <$> to_front i (unlinked i x bs) = core <$> bs.
Proof. unfold to_front, unlinked. by rewrite !core_upd by done. Qed.

Lemma linked_upd link bs a v f j :
  (a < length bs)%nat -> (forall x, link (f x) = v) ->
  linked link (upd a f bs) j = upd_fn (linked link bs) a v j.
Proof.
  intros Ha Hf. unfold linked, upd_fn. destruct (decide (j = a)) as [->|Hne].
  - rewrite lookup_upd_eq. destruct (lookup_lt_is_Some_2 bs a Ha) as [x ->]. cbn. apply Hf.
  - by rewrite lookup_upd_ne by done.
Qed.

Lemma linked_upd_other link bs a f j :
  (forall x, link (f x) = link x) -> linked link (upd a f bs) j = linked link bs j.
Proof.
  intros Hf. unfold linked. destruct (decide (j = a)) as [->|Hne].
  - rewrite lookup_upd_eq. destruct (bs !! a); cbn; [apply Hf|done].
  - by rewrite lookup_upd_ne by done.
Qed.

(** The node that a path visits first. *)
Lemma path_head f a l z : path f a l z -> f a = default z (head l).
Proof. by destruct l; cbn; [|intros [? ?]]. Qed.

Lemma last_reverse_default {A} (d : A) l : default d (last (reverse l)) = default d (head l).
Proof. by rewrite last_reverse. Qed.

Lemma upd_fn_ext f g a v x : (forall y, f y = g y) -> upd_fn f a v x = upd_fn g a v x.
Proof. intros E. unfold upd_fn. by rewrite E. Qed.

(** The links of the list in which buffer [i] was moved. *)
Lemma moved_links bs i x :
  bs !! i = Some x -> length bs = S NBUF -> (b_next x <= NBUF)%nat -> (b_prev x <= NBUF)%nat -> (i < NBUF)%nat ->
  let n1 := upd_fn (linked b_next bs) (b_prev x) (b_next x) in
  let p1 := upd_fn (linked b_prev bs) (b_next x) (b_prev x) in
  (n1 HEAD <= NBUF)%nat ->
  (forall j, linked b_next (to_front i (unlinked i x bs)) j = upd_fn (upd_fn n1 i (n1 HEAD)) HEAD i j) /\
  (forall j, linked b_prev (to_front i (unlinked i x bs)) j = upd_fn (upd_fn p1 i HEAD) (n1 HEAD) i j).
Proof.
  intros Hx Hlen Hn Hp Hi n1 p1 H1. set (u := unlinked i x bs).
  assert (length u = S NBUF) as Hu by (unfold u, unlinked; by rewrite !length_upd).
  assert (forall j, linked b_next u j = n1 j) as Eu1.
  { intros j. unfold u, unlinked. rewrite linked_upd with (v := b_next x); [|rewrite length_upd; lia|done].
    apply upd_fn_ext. intros y. by apply linked_upd_other. }
  assert (forall j, linked b_prev u j = p1 j) as Eu2.
  { intros j. unfold u, unlinked. rewrite linked_upd_other by done. apply linked_upd; [lia|done]. }
  unfold to_front. set (bs1 := upd i (set_b_prev HEAD) (upd i (set_b_next (linked b_next u HEAD)) u)).
  assert (length bs1 = S NBUF) as Hb1 by (unfold bs1; by rewrite !length_upd).
  assert (forall j, linked b_next bs1 j = upd_fn n1 i (n1 HEAD) j) as E1.
  { intros j. unfold bs1. rewrite linked_upd_other by done.
    rewrite linked_upd with (v := linked b_next u HEAD); [|lia|done]. rewrite Eu1. by apply upd_fn_ext. }
  assert (linked b_next bs1 HEAD = n1 HEAD) as Eh by (rewrite E1; apply upd_fn_ne; unfold HEAD; lia).
  rewrite Eh. split; intros j.
  - rewrite linked_upd with (v := i); [|rewrite length_upd, Hb1; unfold HEAD; lia|done].
    apply upd_fn_ext. intros y. by rewrite linked_upd_other by done.
  - rewrite linked_upd_other by done. rewrite linked_upd with (v := i); [|lia|done].
    apply upd_fn_ext. intros y. unfold bs1. rewrite linked_upd with (v := HEAD); [|rewrite length_upd; lia|done].
    apply upd_fn_ext. intros z. rewrite linked_upd_other by done. apply Eu2.
Qed.

Lemma head_default_in (l : list nat) h : default h (head l) = h \/ default h (head l) ∈ l.
Proof. destruct l; cbn; [by left|right; by left]. Qed.

Lemma ring_node bs order (l : list nat) : ring bs order -> (forall j, j ∈ l -> j ∈ order) ->
  (default HEAD (head l) <= NBUF)%nat.
Proof.
  intros Hr Hl. destruct (head_default_in l HEAD) as [->|Hin]; [unfold HEAD; lia|].
  apply Hl, (ring_elem _ _ _ Hr) in Hin. lia.
Qed.

(** The node before a node in the list, and the one after it. *)
Lemma ring_neighbours bs l1 i l2 x :
  ring bs (l1 ++ i :: l2) -> bs !! i = Some x ->
  b_next x = default HEAD (head l2) /\ b_prev x = default HEAD (last l1).
Proof.
  intros Hr Hx. pose proof (ring_next _ _ Hr) as [_ Hn]%path_app. pose proof (ring_prev _ _ Hr) as Hp.
  rewrite reverse_app, reverse_cons, <- app_assoc in Hp. apply path_app in Hp as [_ Hp].
  apply path_head in Hn, Hp. unfold linked in Hn, Hp. rewrite Hx in Hn, Hp.
  split; [done|]. by rewrite Hp, head_reverse.
Qed.

Lemma ring_without bs l1 i l2 :
  ring bs (l1 ++ i :: l2) -> NoDup (HEAD :: l1 ++ l2) /\ i ∉ l1 ++ l2.
Proof.
  intros Hr. assert (NoDup (i :: HEAD :: l1 ++ l2)) as Hd.
  { rewrite (Permutation_swap HEAD i), (Permutation_middle l1 l2 i). by eapply ring_NoDup. }
  apply NoDup_cons in Hd as [Hd1 Hd2]. split; [done|]. intros ?. apply Hd1. by right.
Qed.

Lemma ring_unlink bs l1 i l2 x :
  ring bs (l1 ++ i :: l2) -> bs !! i = Some x ->
  path (upd_fn (linked b_next bs) (b_prev x) (b_next x)) HEAD (l1 ++ l2) HEAD /\
  path (upd_fn (linked b_prev bs) (b_next x) (b_prev x)) HEAD (reverse (l1 ++ l2)) HEAD.
Proof.
  intros Hr Hx. pose proof (ring_NoDup _ _ Hr) as Hd. destruct (ring_neighbours _ _ _ _ _ Hr Hx) as [Hnx Hpv].
  assert (forall link, linked link bs i = link x) as El by (intros link; unfold linked; by rewrite Hx). split.
  - rewrite Hpv, <- (El b_next). apply path_unlink; [done|apply (ring_next _ _ Hr)].
  - rewrite Hnx, <- last_reverse_default, <- (El b_prev), reverse_app.
    pose proof (ring_prev _ _ Hr) as Hp. rewrite reverse_app, reverse_cons, <- app_assoc in Hp.
    apply path_unlink; [|done].
    assert (reverse l2 ++ i :: reverse l1 ≡ₚ l1 ++ i :: l2) as Hperm.
    { rewrite !reverse_Permutation, <- !Permutation_middle. by rewrite (Permutation_app_comm l2 l1). }
    by rewrite Hperm.
Qed.

Lemma ring_moved bs l1 i l2 x :
  ring bs (l1 ++ i :: l2) -> bs !! i = Some x -> ring (to_front i (unlinked i x bs)) (i :: l1 ++ l2).
Proof.
  intros Hr Hx. destruct (ring_neighbours _ _ _ _ _ Hr Hx) as [Hnx Hpv].
  assert (i < NBUF)%nat as Hi by (apply (ring_elem _ _ _ Hr), elem_of_app; right; by left).
  assert (forall j, j ∈ l1 ++ l2 -> j ∈ l1 ++ i :: l2) as Hsub.
  { intros j. rewrite !elem_of_app, elem_of_cons. tauto. }
  destruct (ring_without _ _ _ _ Hr) as [Hd1 Hil]. destruct (ring_unlink _ _ _ _ _ Hr Hx) as [Hn1 Hp1].
  pose proof (path_head _ _ _ _ Hn1) as Eh.
  destruct (moved_links bs i x Hx (ring_len _ _ Hr)) as [M1 M2]; try done.
  - rewrite Hnx. apply (ring_node bs (l1 ++ i :: l2)); [done|]. intros j Hj. apply Hsub, elem_of_app. by right.
  - rewrite Hpv, <- head_reverse. apply (ring_node bs (l1 ++ i :: l2)); [done|]. intros j Hj.
    rewrite elem_of_reverse in Hj. apply Hsub, elem_of_app. by left.
  - rewrite Eh. by apply (ring_node bs (l1 ++ i :: l2)).
  - constructor.
    + unfold to_front, unlinked. rewrite !length_upd. apply (ring_len _ _ Hr).
    + rewrite <- (ring_all _ _ Hr). by rewrite Permutation_middle.
    + eapply path_ext; [intros j _; symmetry; apply M1|]. apply NoDup_cons in Hd1 as [Hh Hd1].
      apply path_link_first; [unfold HEAD; lia|done|done|done].
    + eapply path_ext; [intros j _; symmetry; apply M2|]. rewrite reverse_cons, Eh, <- last_reverse_default.
      apply path_link_last; [unfold HEAD; lia| | |done].
      * by rewrite elem_of_reverse.
      * by rewrite reverse_Permutation.
Qed.

Section Cache.
Context {DR : Driver} (me : nat) (mp : proc) (size : Z).
Implicit Types (H : held) (P : pinned) (s : kst).

Notation Cache := (Cache me mp size).
Notation buf_ok := (buf_ok size).

(** Changing one buffer. *)
Lemma cache_change H P H' P' s s' i x x' :
  Cache H P s -> (i < NBUF)%nat -> bcache s !! i = Some x ->
  calm me mp s' -> bcache s' = <[i := x']> (bcache s) ->
  b_next x' = b_next x -> b_prev x' = b_prev x ->
  (forall j, j <> i -> H' !! j = H !! j /\ slocks s' !! SLbuf j = slocks s !! SLbuf j) ->
  (forall j y, j <> i -> (j < NBUF)%nat -> bcache s !! j = Some y -> b_dev y = 1 -> b_dev x' = 1 ->
     b_blockno y <> b_blockno x') ->
  (forall b, b <> b_blockno x' -> P' !! b = P !! b /\ block_of (disk s') 1 b = block_of (disk s) 1 b) ->
  (b_dev x' = 1) ->
  (is_dirty x = true -> b_blockno x = b_blockno x') ->
  (is_Some (P' !! b_blockno x') -> is_dirty x' = true) ->
  length (block_of (disk s') 1 (b_blockno x')) = Z.to_nat BSIZE ->
  buf_ok H' P' (slocks s') (disk s') i x' ->
  Cache H' P' s'.
Proof.
  intros HC Hi Hx Hcalm Hbs Hn Hp Hoth Hu HP Hdev Hd1 Hd2 Hlen Hok. destruct HC as [_ [order Hr] Huq Hb Hpn Hh Hdk].
  assert (i < length (bcache s))%nat as Hil by (rewrite (ring_len _ _ Hr); lia).
  assert (forall j y, bcache s' !! j = Some y -> (j = i /\ y = x') \/ (j <> i /\ bcache s !! j = Some y)) as Hlk.
  { intros j y. rewrite Hbs. destruct (decide (j = i)) as [->|Hne].
    - rewrite list_lookup_insert_eq by done. intros [= <-]. by left.
    - rewrite list_lookup_insert_ne by done. by right. }
  constructor; [done|exists order; rewrite Hbs; by apply ring_insert with x| | | | |].
  - intros j k y z Hj Hk Hy Hz Dy Dz E.
    destruct (Hlk j y Hy) as [[-> ->]|[Nj Hy']], (Hlk k z Hz) as [[-> ->]|[Nk Hz']]; [done| | |].
    + destruct (Hu k z Nk Hk Hz' Dz Dy). done.
    + destruct (Hu j y Nj Hj Hy' Dy Dz). done.
    + by apply (Huq j k y z).
  - intros j y Hj Hy. destruct (Hlk j y Hy) as [[-> ->]|[Nj Hy']]; [done|].
    destruct (Hb j y Hj Hy') as [B1 B2 B3 B4]. destruct (Hoth j Nj) as [E1 E2]. constructor; [|done|done|].
    + rewrite E1, E2. destruct (H !! j) as [v|]; [done|]. destruct B1 as (B11 & B12 & B13). split_and!; [done|done|].
      intros D1 D2 D3. rewrite (proj2 (HP (b_blockno y) (Hu j y Nj Hj Hy' D1 Hdev))). by apply B13.
    + intros D. destruct (B4 D) as [B41 B42]. split; [done|].
      by rewrite (proj1 (HP (b_blockno y) (Hu j y Nj Hj Hy' B41 Hdev))).
  - intros b d HPb. destruct (decide (b = b_blockno x')) as [->|Hne].
    + exists i, x'. rewrite Hbs, list_lookup_insert_eq by done. split_and!; try done. apply Hd2. by rewrite HPb.
    + rewrite (proj1 (HP b Hne)) in HPb. destruct (Hpn b d HPb) as (j & y & Hj & Hy & D1 & D2 & D3).
      exists j, y. split_and!; [done| |done|done|done]. rewrite Hbs, list_lookup_insert_ne; [done|].
      intros ->. rewrite Hx in Hy. injection Hy as <-. rewrite (Hd1 D3) in D2. by subst.
  - intros j v Hv. destruct (decide (j = i)) as [->|Hne]; [done|]. rewrite (proj1 (Hoth j Hne)) in Hv. by apply (Hh j v).
  - intros b. destruct (decide (b = b_blockno x')) as [->|Hne]; [done|]. by rewrite (proj2 (HP b Hne)).
Qed.

(** Nothing else of the state that matters has changed; the memory that user
    addresses lead to is [umem]. *)
Definition umem s : gmap Z Z * Z := (phys s, cr3 (kcpu s)).
Definition rest s s' : Prop :=
  icache s' = icache s /\ sb s' = sb s /\ umem s' = umem s /\ files s' = files s /\
  forall i, slocks s' !! SLinode i = slocks s !! SLinode i.
Definition same s s' : Prop := disk s' = disk s /\ log s' = log s /\ rest s s'.

Lemma rest_trans s1 s2 s3 : rest s1 s2 -> rest s2 s3 -> rest s1 s3.
Proof. intros (? & ? & ? & ? & E) (? & ? & ? & ? & E'). split_and!; try congruence; intros i; by rewrite E', E. Qed.
Lemma same_trans s1 s2 s3 : same s1 s2 -> same s2 s3 -> same s1 s3.
Proof. intros (? & ? & ?) (? & ? & ?). split; [congruence|]. split; [congruence|]. by eapply rest_trans. Qed.

Lemma unlocked H P s l : Cache H P s -> locks s !! l = None.
Proof. intros HC. by rewrite (ca_locks _ _ _ (ca_calm _ _ _ _ _ _ HC)). Qed.

(** The state after a critical section that changed only the buffers. *)
Lemma bcache_crit lk s bs :
  crit (kcpu s) = kcpu s ->
  set_locks (locks s) (set_kcpu (crit (kcpu s)) (set_bcache bs (acquired lk s))) = set_bcache bs s.
Proof. intros ->. by destruct s. Qed.

Lemma taken_calm l q s : calm me mp s -> calm me mp (taken_by l q s).
Proof.
  intros [C1 C2 C3 C4 C5]. constructor; cbn; [done| |done|done|by rewrite crit_idem]. exact C2.
Qed.

(** What [bget] does once it has chosen a buffer. *)
Lemma bget_lock H P s i x x' env :
  Cache H P s -> (i < NBUF)%nat -> bcache s !! i = Some x -> H !! i = None ->
  (release LBcache ;; acquiresleep (SLbuf i) ;; ret i) env
    (set_bcache (<[i := x']> (bcache s)) (acquired LBcache s)) =
  Ok i (taken_by (SLbuf i) (pid mp) (set_bcache (<[i := x']> (bcache s)) s)) env.
Proof.
  intros HC Hi Hx Hh. pose proof (ca_calm _ _ _ _ _ _ HC) as [C1 C2 C3 C4 C5].
  crit_release LBcache s (unlocked _ _ _ LBcache HC) C4. rewrite bcache_crit by done.
  pose proof (bo_use _ _ _ _ _ _ _ (ca_buf _ _ _ _ _ _ HC i x Hi Hx)) as Hu. rewrite Hh in Hu. destruct Hu as (_ & Hs & _).
  erewrite bind_ok; [done|]. by apply acquiresleep_free with (i := me) (p := mp); [|cbn; rewrite C1| |].
Qed.

Definition taken i x' s : kst := taken_by (SLbuf i) (pid mp) (set_bcache (<[i := x']> (bcache s)) s).

Lemma same_taken i x' s : same s (taken i x' s).
Proof. repeat split. intros j. cbn. by rewrite lookup_insert_ne. Qed.

Lemma taken_other i x' s j : j <> i -> slocks (taken i x' s) !! SLbuf j = slocks s !! SLbuf j.
Proof. intros Hne. cbn. by rewrite lookup_insert_ne by congruence. Qed.

Lemma is_dirty_refcnt r x : is_dirty (set_b_refcnt r x) = is_dirty x.
Proof. done. Qed.

(** The two ways to take a buffer: it has the block already, or it is clean
    and gets it. *)
Lemma take_cached H P s i x b :
  Cache H P s -> (i < NBUF)%nat -> bcache s !! i = Some x -> H !! i = None ->
  b_dev x = 1 -> b_blockno x = b -> 0 <= b < size ->
  let od := if is_valid x then Some (default (block_of (disk s) 1 b) (P !! b)) else None in
  Cache (<[i := (b, od)]> H) P (taken i (set_b_refcnt (b_refcnt x + 1) x) s) /\ (od = None -> P !! b = None).
Proof.
  intros HC Hi Hx Hh D1 <- Hb od. pose proof (ca_buf _ _ _ _ _ _ HC i x Hi Hx) as [B1 B2 B3 B4].
  rewrite Hh in B1. destruct B1 as (B11 & B12 & B13).
  assert (is_dirty x = false -> P !! b_blockno x = None) as Hnp.
  { intros Hd. destruct (P !! b_blockno x) as [d|] eqn:E; [|done].
    destruct (ca_pinned _ _ _ _ _ _ HC _ _ E) as (j & y & Hj & Hy & E1 & E2 & E3).
    rewrite (ca_uniq _ _ _ _ _ _ HC j i y x) in Hy by (try done). congruence. }
  assert (is_valid x = false -> is_dirty x = false) as Hvd.
  { unfold is_valid, is_dirty. by destruct B2 as [-> | [-> | ->]]. }
  split.
  - eapply cache_change with (i := i) (x := x); try done.
    + apply taken_calm. by destruct (ca_calm _ _ _ _ _ _ HC).
    + intros j Hj. by rewrite lookup_insert_ne, taken_other by done.
    + intros j y Hj Hjn Hy E1 _ E. apply Hj. by apply (ca_uniq _ _ _ _ _ _ HC j i y x).
    + intros [d Hd]. cbn in Hd. destruct (is_dirty x) eqn:E; [done|]. by rewrite (Hnp eq_refl) in Hd.
    + apply (ca_disk _ _ _ _ _ _ HC).
    + constructor; [|done|done|done]. rewrite lookup_insert_eq. cbn. rewrite lookup_insert_eq.
      unfold locked_ok; cbn [fst snd]; split_and!; [cbn; lia|done|done|done|lia|lia|]. unfold od. destruct (is_valid x) eqn:Ev; cycle 1.
      { cbn. unfold is_valid in Ev. by destruct B2 as [E | [E | E]]; rewrite E in Ev |- *. }
      split; [|done]. destruct (is_dirty x) eqn:Ed.
      * by rewrite (proj2 (B4 eq_refl)).
      * rewrite (Hnp eq_refl). by apply B13.
  - unfold od. destruct (is_valid x) eqn:Ev; [done|]. intros _. by apply Hnp, Hvd.
Qed.

Definition fresh_buf b x : buf := set_b_refcnt 1 (set_b_flags 0 (set_b_blockno b (set_b_dev 1 x))).

Lemma take_clean H P s i x b :
  Cache H P s -> (i < NBUF)%nat -> bcache s !! i = Some x -> b_refcnt x = 0 -> is_dirty x = false ->
  (forall j y, (j < NBUF)%nat -> bcache s !! j = Some y -> b_dev y = 1 -> b_blockno y <> b) -> 0 <= b < size ->
  H !! i = None /\ P !! b = None /\ Cache (<[i := (b, None)]> H) P (taken i (fresh_buf b x) s).
Proof.
  intros HC Hi Hx Hr Hd Hno Hb. pose proof (ca_buf _ _ _ _ _ _ HC i x Hi Hx) as [B1 B2 B3 B4].
  assert (H !! i = None) as Hh by (destruct (H !! i); [destruct B1; lia|done]). split; [done|].
  assert (P !! b = None) as HPb.
  { destruct (P !! b) as [d|] eqn:E; [|done].
    destruct (ca_pinned _ _ _ _ _ _ HC _ _ E) as (j & y & Hj & Hy & E1 & E2 & E3). by destruct (Hno j y Hj Hy E1). }
  split; [done|]. eapply cache_change with (i := i) (x := x); try done.
  - apply taken_calm. by destruct (ca_calm _ _ _ _ _ _ HC).
  - intros j Hj. by rewrite lookup_insert_ne, taken_other by done.
  - intros j y _ Hj Hy E _. by apply (Hno j y).
  - by rewrite Hd.
  - cbn. rewrite HPb. by intros [? ?].
  - apply (ca_disk _ _ _ _ _ _ HC).
  - constructor; [|by left|done|done]. rewrite lookup_insert_eq. cbn. rewrite lookup_insert_eq.
    unfold locked_ok; cbn [fst snd]; split_and!; [done|done|done|done|lia|lia|done].
Qed.

(** A buffer that [bget] can give to another block. *)
Definition room s : Prop :=
  exists i x, (i < NBUF)%nat /\ bcache s !! i = Some x /\ b_refcnt x = 0 /\ is_dirty x = false.

Definition not_held H (b : Z) : Prop := forall j v, H !! j = Some v -> fst v <> b.

(** The contents of block [b]. *)
Definition contents P s (b : Z) : list Z := default (block_of (disk s) 1 b) (P !! b).

Lemma bfind_ring link s order l ok env :
  ring (bcache s) order -> l ≡ₚ order -> path (linked link (bcache s)) HEAD l HEAD ->
  exists r, bfind link ok (S NBUF) (linked link (bcache s) HEAD) env (acquired LBcache s)
    = Ok r (acquired LBcache s) env /\ found ok (bcache s) (seq 0 NBUF) r.
Proof using.
  intros Hr Hl Hp. destruct (bfind_path link ok (acquired LBcache s) env l HEAD (S NBUF)) as (r & Hf & Hok); [done| | | |].
  - intros i Hi. apply (ring_elem _ _ _ Hr). by rewrite <- Hl.
  - apply (ring_len _ _ Hr).
  - rewrite Hl, (ring_all _ _ Hr), length_seq. lia.
  - exists r. split; [done|]. assert (forall i, i ∈ l <-> i ∈ seq 0 NBUF) as E.
    { intros i. by rewrite Hl, (ring_all _ _ Hr). }
    destruct r as [i|]; unfold found in *.
    + destruct Hok as (x & Hi & Hx). exists x. by rewrite <- E.
    + intros i x Hi. apply Hok. by rewrite E.
Qed.

(** Buffer [i] was taken for block [b]; if its contents are known, they are
    the block's. *)
Definition got H P s b i s' : Prop :=
  exists od, H !! i = None /\ Cache (<[i := (b, od)]> H) P s' /\ same s s' /\
    (match od with Some d => d = contents P s b | None => P !! b = None end).

Lemma bget_hit H P s b i x env :
  Cache H P s -> 0 <= b < size -> not_held H b ->
  (i < NBUF)%nat -> bcache s !! i = Some x -> b_dev x = 1 -> b_blockno x = b ->
  exists s', (mod_buf i (fun b => set_b_refcnt (b_refcnt b + 1) b) ;;
    release LBcache ;; acquiresleep (SLbuf i) ;; ret i) env (acquired LBcache s) = Ok i s' env /\ got H P s b i s'.
Proof.
  intros HC Hb Hnh Hi Hx D1 D2. pose proof (ca_buf _ _ _ _ _ _ HC i x Hi Hx) as HB.
  assert (H !! i = None) as Hn.
  { destruct (H !! i) as [v|] eqn:E; [|done]. pose proof (bo_use _ _ _ _ _ _ _ HB) as Hu. rewrite E in Hu.
    destruct Hu as (_ & _ & _ & E4 & _). destruct (Hnh i v E). congruence. }
  destruct (take_cached H P s i x b HC Hi Hx Hn D1 D2 Hb) as [HC' Hod].
  unfold mod_buf. rewrite bind_modify. cbn [bcache acquired set_locks set_kcpu].
  rewrite (upd_insert _ _ _ _ Hx). eexists. split; [by apply (bget_lock H P s i x _ env HC)|].
  eexists. split; [done|]. split; [exact HC'|]. split; [apply same_taken|]. destruct (is_valid x); [done|by apply Hod].
Qed.

Lemma bget_evict H P s b i x env :
  Cache H P s -> 0 <= b < size ->
  (forall j y, (j < NBUF)%nat -> bcache s !! j = Some y -> b_dev y = 1 -> b_blockno y <> b) ->
  (i < NBUF)%nat -> bcache s !! i = Some x -> b_refcnt x = 0 -> is_dirty x = false ->
  exists s', (mod_buf i (set_b_dev 1) ;; mod_buf i (set_b_blockno b) ;; mod_buf i (set_b_flags 0) ;;
    mod_buf i (set_b_refcnt 1) ;; release LBcache ;; acquiresleep (SLbuf i) ;; ret i) env (acquired LBcache s)
    = Ok i s' env /\ got H P s b i s'.
Proof.
  intros HC Hb Hno Hi Hx D1 D2. destruct (take_clean H P s i x b HC Hi Hx D1 D2 Hno Hb) as (Hn & HPb & HC').
  unfold mod_buf. rewrite !bind_modify. cbn [bcache acquired set_locks set_kcpu set_bcache].
  rewrite !upd_upd, (upd_insert _ _ _ _ Hx). eexists. split; [by apply (bget_lock H P s i x _ env HC)|].
  exists None. split; [done|]. split; [done|]. split; [apply same_taken|done].
Qed.

Lemma bget_spec H P s b env :
  Cache H P s -> 0 <= b < size -> not_held H b -> room s \/ is_Some (P !! b) ->
  exists i s', bget 1 b env s = Ok i s' env /\ got H P s b i s'.
Proof.
  intros HC Hb Hnh Hroom. unfold bget. destruct (ca_ring _ _ _ _ _ _ HC) as [order Hr].
  destruct (ring_lookup _ _ HEAD Hr ltac:(unfold HEAD; lia)) as [h Hh].
  rewrite (bind_ok _ _ _ _ _ _ _ (acquire_free LBcache env s (unlocked _ _ _ _ HC))).
  assert (forall A (k : buf -> M A), bind (get_buf HEAD) k env (acquired LBcache s) = k h env (acquired LBcache s)) as Eh.
  { intros A k. apply bind_ok. unfold get_buf. cbn [bcache acquired set_locks set_kcpu]. by rewrite Hh. }
  rewrite Eh. assert (forall link, link h = linked link (bcache s) HEAD) as El by (intros; unfold linked; by rewrite Hh).
  rewrite El. set (ok := fun y => _ && _).
  destruct (bfind_ring b_next s order order ok env Hr ltac:(done) (ring_next _ _ Hr)) as (r & Ef & Hf).
  rewrite (bind_ok _ _ _ _ _ _ _ Ef). destruct r as [i|]; unfold found in Hf.
  { destruct Hf as (x & Hi%elem_of_seq & Hx & Hok). unfold ok in Hok. apply andb_prop in Hok as [D1%Z.eqb_eq D2%Z.eqb_eq].
    destruct (bget_hit H P s b i x env HC Hb Hnh ltac:(lia) Hx D1 D2) as (s' & E & Hg). by exists i, s'. }
  rewrite Eh, El. set (ok2 := fun y => _ && _).
  destruct (bfind_ring b_prev s order (reverse order) ok2 env Hr (reverse_Permutation order) (ring_prev _ _ Hr))
    as (r & Ef2 & Hf2). rewrite (bind_ok _ _ _ _ _ _ _ Ef2).
  assert (forall j y, (j < NBUF)%nat -> bcache s !! j = Some y -> b_dev y = 1 -> b_blockno y <> b) as Hno.
  { intros j y Hj Hy D1 D2. specialize (Hf j y ltac:(apply elem_of_seq; lia) Hy). unfold ok in Hf.
    by rewrite D1, D2, !Z.eqb_refl in Hf. }
  destruct r as [i|]; unfold found in Hf2.
  - destruct Hf2 as (x & Hi%elem_of_seq & Hx & Hok). unfold ok2 in Hok.
    apply andb_prop in Hok as [D1%Z.eqb_eq D2%negb_true_iff].
    destruct (bget_evict H P s b i x env HC Hb Hno ltac:(lia) Hx D1 D2) as (s' & E & Hg). by exists i, s'.
  - exfalso. destruct Hroom as [(j & y & Hj & Hy & E1 & E2)|[d Hd]].
    + specialize (Hf2 j y ltac:(apply elem_of_seq; lia) Hy). unfold ok2 in Hf2. by rewrite E1, E2 in Hf2.
    + destruct (ca_pinned _ _ _ _ _ _ HC _ _ Hd) as (j & y & Hj & Hy & E1 & E2 & _). by destruct (Hno j y Hj Hy E1).
Qed.

(** ** The operations *)

(** The buffer of a locked block. *)
Lemma held_buf H P s i b od :
  Cache H P s -> H !! i = Some (b, od) ->
  exists x, (i < NBUF)%nat /\ bcache s !! i = Some x /\ buf_ok H P (slocks s) (disk s) i x /\
    locked_ok size (b, od) (slocks s !! SLbuf i) x.
Proof.
  intros HC Hi. pose proof (ca_held _ _ _ _ _ _ HC _ _ Hi) as Hlt. destruct (ca_ring _ _ _ _ _ _ HC) as [order Hr].
  destruct (ring_lookup _ _ i Hr ltac:(lia)) as [x Hx]. pose proof (ca_buf _ _ _ _ _ _ HC i x Hlt Hx) as HB.
  exists x. split_and!; [done|done|done|]. pose proof (bo_use _ _ _ _ _ _ _ HB) as Hu. by rewrite Hi in Hu.
Qed.

Lemma bind_get_buf {A} s i x (k : buf -> M A) env :
  bcache s !! i = Some x -> bind (get_buf i) k env s = k x env s.
Proof using. intros Hx. apply bind_ok. unfold get_buf. by rewrite Hx. Qed.

(** Changing a locked buffer: its block stays. *)
Lemma held_change H P P' s s' i b od od' x x' :
  Cache H P s -> H !! i = Some (b, od) -> bcache s !! i = Some x ->
  calm me mp s' -> bcache s' = <[i := x']> (bcache s) -> slocks s' = slocks s ->
  b_next x' = b_next x -> b_prev x' = b_prev x -> b_dev x' = b_dev x -> b_blockno x' = b_blockno x ->
  b_refcnt x' = b_refcnt x ->
  (forall c, c <> b -> P' !! c = P !! c /\ block_of (disk s') 1 c = block_of (disk s) 1 c) ->
  length (block_of (disk s') 1 b) = Z.to_nat BSIZE ->
  flags_ok (b_flags x') -> length (b_data x') = Z.to_nat BSIZE ->
  P' !! b = (if is_dirty x' then Some (b_data x') else None) ->
  match od' with Some d => b_data x' = d /\ is_valid x' = true | None => b_flags x' = 0 end ->
  Cache (<[i := (b, od')]> H) P' s'.
Proof.
  intros HC Hi Hx Hcalm Hbs Hsl Hn Hp Hdv Hbn Hrc HP Hlen Hf Hdl HPb Hod.
  destruct (held_buf _ _ _ _ _ _ HC Hi) as (y & Hlt & Hy & HB & L1 & L2 & L3 & L4 & L5 & L6).
  rewrite Hx in Hy. injection Hy as <-. cbn [fst snd] in *.
  eapply cache_change with (i := i) (x := x); try done.
  - intros j Hj. by rewrite lookup_insert_ne, Hsl by done.
  - intros j y Hj Hjn Hy E1 E2 E. apply Hj. apply (ca_uniq _ _ _ _ _ _ HC j i y x); congruence || done.
  - by rewrite Hbn, L4.
  - congruence.
  - rewrite Hbn, L4, HPb. destruct (is_dirty x'); [done|by intros [? ?]].
  - by rewrite Hbn, L4.
  - constructor; [|done|done|].
    + rewrite lookup_insert_eq. unfold locked_ok; cbn [fst snd]. rewrite Hsl. split_and!; [congruence|done|congruence|congruence|lia|lia|done].
    + intros Hd. split; [congruence|]. by rewrite Hbn, L4, HPb, Hd.
Qed.

(** Whether a locked buffer is dirty is whether its block is pinned. *)
Lemma held_dirty H P s i b od x :
  Cache H P s -> H !! i = Some (b, od) -> bcache s !! i = Some x ->
  P !! b = if is_dirty x then Some (b_data x) else None.
Proof.
  intros HC Hi Hx. destruct (held_buf _ _ _ _ _ _ HC Hi) as (y & Hlt & Hy & HB & L1 & L2 & L3 & L4 & L5 & L6).
  rewrite Hx in Hy. injection Hy as <-. cbn [fst snd] in *. destruct (is_dirty x) eqn:Hd.
  - rewrite <- L4. by apply (bo_dirty _ _ _ _ _ _ _ HB).
  - destruct (P !! b) as [d|] eqn:E; [|done].
    destruct (ca_pinned _ _ _ _ _ _ HC _ _ E) as (j & z & Hj & Hz & E1 & E2 & E3).
    assert (j = i) as -> by (apply (ca_uniq _ _ _ _ _ _ HC j i z x); congruence || done). congruence.
Qed.

Context {may : Prop} {SD : SyncDisk size may}.

(** A request that reads. *)
Lemma rw_read H P s i b env :
  Cache H P s -> H !! i = Some (b, None) ->
  rc (fun s' => may /\ disk s' = disk s) env (drv_rw i env s)
    (fun _ s' => Cache (<[i := (b, Some (block_of (disk s) 1 b))]> H) P s' /\ same s s').
Proof.
  intros HC Hi. destruct (held_buf _ _ _ _ _ _ HC Hi) as (x & Hlt & Hx & HB & L1 & L2 & L3 & L4 & L5 & L6).
  cbn [fst snd] in *. pose proof (ca_calm _ _ _ _ _ _ HC) as [C1 C2 C3 C4 C5].
  assert (is_dirty x = false) as Hd by (unfold is_dirty; by rewrite L6).
  assert (clean x = false) as Hcl by (unfold clean; by rewrite L6).
  destruct (rw_served i x env s) as [E|[Hm E]]; try done; [by left|lia| |by rewrite E].
  rewrite E. split; [|done]. unfold rw_done. rewrite Hd. split; [|done].
  eapply held_change with (x := x) (od := None); try done; cbn.
  - apply (ca_disk _ _ _ _ _ _ HC).
  - by right; left.
  - apply (ca_disk _ _ _ _ _ _ HC).
  - rewrite (held_dirty _ _ _ _ _ _ _ HC Hi Hx), Hd. done.
  - by rewrite L4.
Qed.

Lemma bread_spec H P s b env :
  Cache H P s -> 0 <= b < size -> not_held H b -> room s \/ is_Some (P !! b) ->
  rc (fun s' => may /\ disk s' = disk s) env (bread 1 b env s)
    (fun i s' => H !! i = None /\ Cache (<[i := (b, Some (contents P s b))]> H) P s' /\ same s s').
Proof.
  intros HC Hb Hnh Hroom. unfold bread.
  destruct (bget_spec H P s b env HC Hb Hnh Hroom) as (i & s1 & E & od & Hi & HC1 & [S1 S2] & Hod).
  rewrite (bind_ok _ _ _ _ _ _ _ E).
  destruct (held_buf _ _ _ i b od HC1 (lookup_insert_eq _ _ _)) as (x & Hlt & Hx & HB & L1 & L2 & L3 & L4 & L5 & L6).
  rewrite (bind_get_buf _ _ _ _ _ Hx). destruct od as [d|]; cbn [fst snd] in *.
  - destruct L6 as [L6 ->]. subst d. by split.
  - assert (is_valid x = false) as -> by (unfold is_valid; by rewrite L6). cbn [negb when].
    eapply rc_bind; [eapply rc_mono; [apply (rw_read _ P s1 i b env HC1 (lookup_insert_eq _ _ _))| |]|].
    + cbn. intros s' [Hm Hs]. by rewrite Hs, S1.
    + intros a s' HQ. exact HQ.
    + intros _ s' [HC2 HS]. cbn. split; [|done]. rewrite insert_insert_eq in HC2. unfold contents. rewrite Hod.
      cbn [default]. rewrite <- S1. split_and!; [done|done|]. eapply same_trans; [|done]. done.
Qed.

(** Writing into a locked buffer. *)
Lemma set_data_spec H P s i b d d' f :
  Cache H P s -> H !! i = Some (b, Some d) -> (forall x, b_data x = d -> f x = set_b_data d' x) ->
  length d' = Z.to_nat BSIZE ->
  Cache (<[i := (b, Some d')]> H) (alter (fun _ => d') b P) (set_bcache (upd i f (bcache s)) s).
Proof.
  intros HC Hi Hf Hlen. destruct (held_buf _ _ _ _ _ _ HC Hi) as (x & Hlt & Hx & HB & L1 & L2 & L3 & L4 & L5 & L6 & L7).
  cbn [fst snd] in *. rewrite (upd_insert _ _ _ _ Hx), (Hf x L6).
  pose proof (held_dirty _ _ _ _ _ _ _ HC Hi Hx) as HP.
  eapply held_change with (x := x) (od := Some d); try done; cbn.
  - destruct (ca_calm _ _ _ _ _ _ HC). by constructor.
  - intros c Hc. by rewrite lookup_alter_ne.
  - apply (ca_disk _ _ _ _ _ _ HC).
  - apply (bo_flags _ _ _ _ _ _ _ HB).
  - rewrite lookup_alter_eq, HP. change (is_dirty (set_b_data d' x)) with (is_dirty x). by destruct (is_dirty x).
Qed.

Lemma block_of_insert dk b d c :
  block_of (<[(1, b) := d]> dk) 1 c = if decide (c = b) then d else block_of dk 1 c.
Proof using.
  unfold block_of. destruct (decide (c = b)) as [->|Hne]; [by rewrite lookup_insert_eq|].
  rewrite lookup_insert_ne; [done|]. by intros [= ->].
Qed.

Lemma bwrite_spec H P s i b d env :
  Cache H P s -> H !! i = Some (b, Some d) ->
  rc (fun s' => may /\ disk s' = disk s) env (bwrite i env s)
    (fun _ s' => Cache H (delete b P) s' /\ disk s' = <[(1, b) := d]> (disk s) /\ log s' = log s /\ rest s s').
Proof.
  intros HC Hi. destruct (held_buf _ _ _ _ _ _ HC Hi) as (x & Hlt & Hx & HB & L1 & L2 & L3 & L4 & L5 & L6 & L7).
  cbn [fst snd] in *. pose proof (ca_calm _ _ _ _ _ _ HC) as [C1 C2 C3 C4 C5]. unfold bwrite.
  rewrite (bind_ok _ _ _ _ _ _ _ (holdingsleep_run (SLbuf i) env s (unlocked _ _ _ _ HC) C4)).
  rewrite bool_decide_eq_true_2, set_kcpu_crit by done. cbn [negb].
  unfold mod_buf. rewrite bind_modify, (upd_insert _ _ _ _ Hx).
  set (x1 := set_b_flags _ x). set (s1 := set_bcache _ s).
  assert (b_flags x1 = Z.lor B_VALID B_DIRTY) as Hf1.
  { cbn. pose proof (bo_flags _ _ _ _ _ _ _ HB) as [E|[E|E]]; rewrite E; [|done|done].
    unfold is_valid in L7. by rewrite E in L7. }
  assert (i < length (bcache s))%nat as Hil by (by eapply lookup_lt_Some).
  destruct (rw_served i x1 env s1) as [E|[Hm E]]; try done.
  - cbn. by rewrite list_lookup_insert_eq.
  - rewrite Hf1. by right; right.
  - unfold clean. by rewrite Hf1.
  - cbn. lia.
  - rewrite E. split; [|done]. unfold rw_done. assert (is_dirty x1 = true) as -> by (unfold is_dirty; by rewrite Hf1).
    cbn [disk bcache set_bcache s1 set_disk log b_blockno b_data x1 set_b_flags]. rewrite L4, L6. split; [|done].
    rewrite <- (insert_id H i _ Hi).
    eapply held_change with (x := x) (x' := set_b_flags B_VALID x) (od := Some d); try done; cbn.
    + by rewrite list_insert_insert_eq.
    + intros c Hc. rewrite lookup_delete_ne by done. split; [done|]. rewrite block_of_insert. by rewrite decide_False.
    + rewrite block_of_insert, decide_True by done. rewrite <- L6. apply (bo_len _ _ _ _ _ _ _ HB).
    + by right; left.
    + apply (bo_len _ _ _ _ _ _ _ HB).
    + by rewrite lookup_delete_eq.
  - by rewrite E.
Qed.

(** Moving buffers around does not change the cache. *)
Lemma core_inj x y : core x = core y ->
  b_flags x = b_flags y /\ b_dev x = b_dev y /\ b_blockno x = b_blockno y /\ b_refcnt x = b_refcnt y /\ b_data x = b_data y.
Proof using. destruct x, y. by intros [= -> -> -> -> _ ->]. Qed.

Lemma buf_ok_core H P sl dk i x y : core x = core y -> buf_ok H P sl dk i y -> buf_ok H P sl dk i x.
Proof using.
  intros (E1 & E2 & E3 & E4 & E5)%core_inj [B1 B2 B3 B4].
  assert (is_dirty x = is_dirty y) as Ed by (unfold is_dirty; by rewrite E1).
  assert (is_valid x = is_valid y) as Ev by (unfold is_valid; by rewrite E1).
  constructor; rewrite ?Ed, ?E1, ?E2, ?E3, ?E5; try done.
  unfold locked_ok, idle_ok in *. by rewrite Ed, Ev, E1, E2, E3, E4, E5.
Qed.

Lemma lookup_core (bs bs' : list buf) i x : core <$> bs' = core <$> bs -> bs' !! i = Some x ->
  exists y, bs !! i = Some y /\ core x = core y.
Proof using.
  intros E Hx. assert ((core <$> bs) !! i = Some (core x)) as Hc by (by rewrite <- E, list_lookup_fmap, Hx).
  rewrite list_lookup_fmap in Hc. destruct (bs !! i) as [y|]; [|done]. apply (inj Some) in Hc. by exists y.
Qed.

Lemma cache_relink H P s s' order :
  Cache H P s -> calm me mp s' -> core <$> bcache s' = core <$> bcache s -> ring (bcache s') order ->
  slocks s' = slocks s -> disk s' = disk s -> Cache H P s'.
Proof using.
  intros HC Hcalm Hco Hr Hsl Hdk. constructor; [done|by exists order| | | | |].
  - intros i j x y Hi Hj Hx Hy. destruct (lookup_core _ _ _ _ Hco Hx) as (x0 & Hx0 & Ex).
    destruct (lookup_core _ _ _ _ Hco Hy) as (y0 & Hy0 & Ey).
    destruct (core_inj _ _ Ex) as (_ & -> & -> & _). destruct (core_inj _ _ Ey) as (_ & -> & -> & _).
    by apply (ca_uniq _ _ _ _ _ _ HC i j x0 y0).
  - intros i x Hi Hx. destruct (lookup_core _ _ _ _ Hco Hx) as (x0 & Hx0 & Ex). rewrite Hsl, Hdk.
    apply (buf_ok_core _ _ _ _ _ _ _ Ex). by apply (ca_buf _ _ _ _ _ _ HC).
  - intros b d Hb. destruct (ca_pinned _ _ _ _ _ _ HC b d Hb) as (i & x & Hi & Hx & E1 & E2 & E3).
    destruct (lookup_core _ _ _ _ (eq_sym Hco) Hx) as (y & Hy & Ey). destruct (core_inj _ _ Ey) as (F1 & F2 & F3 & _).
    exists i, y. split_and!; [done|done|congruence|congruence|]. unfold is_dirty in *. by rewrite <- F1.
  - apply (ca_held _ _ _ _ _ _ HC).
  - rewrite Hdk. apply (ca_disk _ _ _ _ _ _ HC).
Qed.

(** What [brelse] does to the list. *)
Lemma relink_run s lk i x (env : list (kst -> kst)) :
  bcache s !! i = Some x -> length (bcache s) = S NBUF ->
  (mod_buf (b_next x) (set_b_prev (b_prev x)) ;; mod_buf (b_prev x) (set_b_next (b_next x)) ;;
   link_first i ;; relink_head i) env (acquired lk s) =
  Ok tt (set_bcache (to_front i (unlinked i x (bcache s))) (acquired lk s)) env.
Proof using.
  intros Hx Hlen. unfold mod_buf. rewrite !bind_modify. cbn [bcache acquired set_locks set_kcpu set_bcache].
  fold (unlinked i x (bcache s)). set (u := unlinked i x (bcache s)).
  assert (length u = S NBUF) as Hu by (unfold u, unlinked; by rewrite !length_upd).
  destruct (lookup_lt_is_Some_2 u HEAD ltac:(unfold HEAD; lia)) as [h Hh].
  unfold link_first. rewrite bind_assoc. erewrite bind_get_buf by exact Hh. unfold mod_buf. rewrite bind_assoc, !bind_modify.
  cbn [bcache acquired set_locks set_kcpu set_bcache].
  assert (b_next h = linked b_next u HEAD) as -> by (unfold linked; by rewrite Hh).
  unfold to_front. set (bs1 := upd i (set_b_prev HEAD) _).
  assert (length bs1 = S NBUF) as Hb1 by (unfold bs1; by rewrite !length_upd).
  destruct (lookup_lt_is_Some_2 bs1 HEAD ltac:(unfold HEAD; lia)) as [h1 Hh1].
  unfold relink_head. erewrite bind_get_buf by exact Hh1.
  assert (b_next h1 = linked b_next bs1 HEAD) as -> by (unfold linked; by rewrite Hh1). done.
Qed.

Lemma wake_running c s : calm me mp s -> (wake c <$> procs s) !! me = Some mp.
Proof using.
  intros [_ [_ C2] C3 _ _]. rewrite list_lookup_fmap, C2. cbn. unfold wake. by rewrite bool_decide_eq_false_2 by congruence.
Qed.

(** The state in which [brelse] has let go of the buffer and not yet moved
    it. *)
Definition let_go i x s : kst :=
  set_bcache (<[i := set_b_refcnt (b_refcnt x - 1) x]> (bcache s))
    (set_procs (wake (Some (CSleep (SLbuf i))) <$> procs s) (set_slocks (delete (SLbuf i) (slocks s)) s)).

Lemma let_go_cache H P s i b d x :
  Cache H P s -> H !! i = Some (b, Some d) -> bcache s !! i = Some x ->
  is_Some (P !! b) \/ block_of (disk s) 1 b = d -> Cache (delete i H) P (let_go i x s).
Proof using.
  intros HC Hi Hx Hd. destruct (held_buf _ _ _ _ _ _ HC Hi) as (y & Hlt & Hy & HB & L1 & L2 & L3 & L4 & L5 & L6 & L7).
  rewrite Hx in Hy. injection Hy as <-. cbn [fst snd] in *.
  pose proof (ca_calm _ _ _ _ _ _ HC) as [C1 C2 C3 C4 C5]. pose proof (held_dirty _ _ _ _ _ _ _ HC Hi Hx) as HP.
  eapply cache_change with (i := i) (x := x); try done.
  - constructor; try done. split; [apply C2|]. apply wake_running. by constructor.
  - intros j Hj. cbn. rewrite !lookup_delete_ne by congruence. done.
  - intros j y Hj Hjn Hy E1 _ E. apply Hj. by apply (ca_uniq _ _ _ _ _ _ HC j i y x).
  - cbn. rewrite L4, HP. change (is_dirty (set_b_refcnt (b_refcnt x - 1) x)) with (is_dirty x).
    destruct (is_dirty x); [done|by intros [? ?]].
  - apply (ca_disk _ _ _ _ _ _ HC).
  - destruct HB as [B1 B2 B3 B4]. constructor; [|done|done|done].
    rewrite lookup_delete_eq. cbn. rewrite lookup_delete_eq. split_and!; [cbn; lia|done|].
    intros _ _ Hnd. cbn. rewrite L4, L6. change (is_dirty x = false) in Hnd. rewrite HP, Hnd in Hd.
    destruct Hd as [[? ?]|Hd]; [done|by rewrite Hd].
Qed.

Lemma brelse_spec H P s i b d env :
  Cache H P s -> H !! i = Some (b, Some d) -> is_Some (P !! b) \/ block_of (disk s) 1 b = d ->
  rc (fun _ => False) env (brelse i env s)
    (fun _ s' => Cache (delete i H) P s' /\ same s s').
Proof.
  intros HC Hi Hd. destruct (held_buf _ _ _ _ _ _ HC Hi) as (x & Hlt & Hx & HB & L1 & L2 & L3 & L4 & L5 & L6 & L7).
  cbn [fst snd] in *. pose proof (ca_calm _ _ _ _ _ _ HC) as [C1 C2 C3 C4 C5].
  pose proof (let_go_cache _ _ _ _ _ _ _ HC Hi Hx Hd) as HC1. unfold brelse.
  rewrite (bind_ok _ _ _ _ _ _ _ (holdingsleep_run (SLbuf i) env s (unlocked _ _ _ _ HC) C4)).
  rewrite bool_decide_eq_true_2, set_kcpu_crit by done. cbn [negb].
  rewrite (bind_ok _ _ _ _ _ _ _ (releasesleep_run (SLbuf i) env s (unlocked _ _ _ _ HC) (unlocked _ _ _ _ HC) C4)).
  rewrite set_kcpu_crit by done. set (s1 := set_procs _ _).
  rewrite (bind_ok _ _ _ _ _ _ _ (acquire_free LBcache env s1 (unlocked _ _ _ LBcache HC))).
  unfold mod_buf at 1. rewrite bind_modify. cbn [bcache acquired set_locks set_kcpu s1 set_procs set_slocks].
  rewrite (upd_insert _ _ _ _ Hx). set (x1 := set_b_refcnt _ x).
  change (set_bcache (<[i := x1]> (bcache s)) (acquired LBcache s1)) with (acquired LBcache (let_go i x s)).
  assert (bcache (let_go i x s) !! i = Some x1) as Hx1.
  { cbn. rewrite list_lookup_insert_eq; [done|by eapply lookup_lt_Some]. }
  rewrite (bind_get_buf (acquired LBcache (let_go i x s)) i x1 _ env Hx1).
  assert (b_refcnt x1 =? 0 = true) as -> by (cbn; by rewrite L1). cbn [when].
  destruct (ca_ring _ _ _ _ _ _ HC1) as [order Hr].
  rewrite (bind_ok _ _ _ _ _ _ _ (relink_run (let_go i x s) LBcache i x1 env Hx1 (ring_len _ _ Hr))).
  pose proof (ca_calm _ _ _ _ _ _ HC1) as Hcalm1.
  erewrite (release_crit LBcache env (let_go i x s) _ (unlocked _ _ _ LBcache HC1) C4) by reflexivity.
  rewrite bcache_crit by done. split; [|done].
  assert (i ∈ order) as Hin by (by apply (ring_elem _ _ _ Hr)). apply list_elem_of_split in Hin as (l1 & l2 & ->).
  split; [|repeat split; intros j; cbn; by rewrite lookup_delete_ne]. eapply (cache_relink (delete i H) P (let_go i x s)); [done| | |by apply ring_moved|done|done].
  - by destruct Hcalm1.
  - apply core_moved.
Qed.

(** As long as the locked and the pinned buffers are not all, [bget] finds
    one. *)
Definition can_take s (i : nat) : bool :=
  match bcache s !! i with Some x => (b_refcnt x =? 0) && negb (is_dirty x) | None => false end.

Lemma room_can_take s : (exists i, (i < NBUF)%nat /\ can_take s i = true) -> room s.
Proof using.
  intros (i & Hi & Ht). unfold can_take in Ht. destruct (bcache s !! i) as [x|] eqn:Hx; [|done].
  apply andb_prop in Ht as [?%Z.eqb_eq ?%negb_true_iff]. by exists i, x.
Qed.

Definition key s (i : nat) : Z := match bcache s !! i with Some x => b_blockno x | None => 0 end.

Lemma busy_pinned H P s i :
  Cache H P s -> (i < NBUF)%nat -> can_take s i = false -> H !! i = None ->
  exists x, bcache s !! i = Some x /\ b_dev x = 1 /\ key s i ∈ dom P.
Proof using.
  intros HC Hi Ht Hh. destruct (ca_ring _ _ _ _ _ _ HC) as [order Hr]. destruct (ring_lookup _ _ i Hr ltac:(lia)) as [x Hx].
  pose proof (ca_buf _ _ _ _ _ _ HC i x Hi Hx) as [B1 B2 B3 B4]. rewrite Hh in B1. destruct B1 as (B1 & _).
  unfold can_take in Ht. rewrite Hx, B1 in Ht. cbn in Ht. apply negb_false_iff in Ht. destruct (B4 Ht) as [B5 B6].
  exists x. split_and!; [done|done|]. unfold key. rewrite Hx. by apply elem_of_dom.
Qed.

Lemma size_elements {K A} `{Countable K} (m : gmap K A) : base.size m = length (elements (dom m)).
Proof using. by rewrite <- (size_dom m). Qed.

Lemma room_size H P s : Cache H P s -> (base.size H + base.size P < NBUF)%nat -> room s.
Proof using.
  intros HC Hsz. apply room_can_take.
  destruct (existsb (can_take s) (seq 0 NBUF)) eqn:E.
  { apply existsb_exists in E as (i & Hi%in_seq & Ht). exists i. split; [lia|done]. }
  assert (forall i, (i < NBUF)%nat -> can_take s i = false) as Hbusy.
  { intros i Hi. destruct (can_take s i) eqn:Ei; [|done]. rewrite <- E. symmetry. apply existsb_exists.
    exists i. split; [apply in_seq; lia|done]. }
  exfalso. set (l := filter (fun i => H !! i = None) (seq 0 NBUF)).
  assert (forall i, i ∈ l -> (i < NBUF)%nat /\ H !! i = None) as Hl.
  { intros i. unfold l. rewrite list_elem_of_filter, elem_of_seq. intros [? ?]. split; [lia|done]. }
  assert (NBUF <= length l + base.size H)%nat as H1.
  { rewrite <- (length_seq NBUF 0) at 1. rewrite (size_elements H), <- length_app.
    apply submseteq_length, NoDup_submseteq; [apply NoDup_seq|]. intros i Hi. apply elem_of_app.
    destruct (H !! i) eqn:Ei; [right; apply elem_of_elements, elem_of_dom; by rewrite Ei|left].
    unfold l. by apply list_elem_of_filter. }
  assert (length l <= base.size P)%nat as H2; [|lia].
  rewrite <- (length_fmap (key s) l), (size_elements P).
  apply submseteq_length, NoDup_submseteq.
  - apply NoDup_fmap_2_strong; [|apply NoDup_filter, NoDup_seq]. intros i j Hi Hj Ek.
    destruct (Hl i Hi) as [Hi1 Hi2], (Hl j Hj) as [Hj1 Hj2].
    destruct (busy_pinned _ _ _ _ HC Hi1 (Hbusy i Hi1) Hi2) as (x & Hx & Dx & _).
    destruct (busy_pinned _ _ _ _ HC Hj1 (Hbusy j Hj1) Hj2) as (y & Hy & Dy & _).
    apply (ca_uniq _ _ _ _ _ _ HC i j x y); try done. unfold key in Ek. by rewrite Hx, Hy in Ek.
  - intros b (i & -> & Hi)%list_elem_of_fmap. destruct (Hl i Hi) as [Hi1 Hi2].
    destruct (busy_pinned _ _ _ _ HC Hi1 (Hbusy i Hi1) Hi2) as (x & Hx & Dx & Hk). by apply elem_of_elements.
Qed.
(** What does not concern the buffers leaves the cache as it is. *)
Lemma cache_frame H P s s' :
  Cache H P s -> calm me mp s' -> bcache s' = bcache s -> disk s' = disk s ->
  (forall j, slocks s' !! SLbuf j = slocks s !! SLbuf j) -> Cache H P s'.
Proof using.
  intros [C1 C2 C3 C4 C5 C6 C7] Hc Hb Hd Hs. constructor; rewrite ?Hb, ?Hd; try done.
  intros i x Hi Hx. destruct (C4 i x Hi Hx) as [B1 B2 B3 B4]. constructor; try done. by rewrite Hs.
Qed.
End Cache.
