(* ===== verification/Log.v ===== *)
(** * log.c: the redo log

    The in-memory header is [log]; the header block on disk holds [n] and
    then the block numbers, as 32-bit words. *)

From stdpp Require Import base numbers list gmap strings.
From S2P Require Import Prelude Kernel Spinlock Sched Sleeplock Kalloc Umem Buf Bio.

Section Log.
Context `{Driver}.

Definition MAXOPBLOCKS : Z := 10.
Definition LOGSIZE : Z := MAXOPBLOCKS * 3.
Definition SIZEOF_LOGHEADER : Z := 4 + 4 * LOGSIZE.

(** The 32-bit word at byte [off] of a block, as a C [int], and the block
    with that word replaced. *)
Definition word_at (d : list Z) (off : Z) : Z :=
  of_bytes32 (take 4 (drop (Z.to_nat off) d)).
Definition set_word (d : list Z) (off v : Z) : list Z :=
  take (Z.to_nat off) d ++ bytes32 v ++ drop (Z.to_nat (off + 4)) d.

Definition mod_log (f : logst -> logst) : M unit := modify (fun s => set_log (f (log s)) s).

(** [log.lh.block[i]], which has LOGSIZE entries; an access beyond them is
    outside the array. *)
Definition lh_get (i : Z) : M Z :=
  let! l := gets log in
  if i <? LOGSIZE then ret (nth (Z.to_nat i) (lh_block l) 0) else panic "trap".
Definition lh_set (i v : Z) : M unit :=
  if i <? LOGSIZE then mod_log (fun l => set_lh_block (<[Z.to_nat i := s32 v]> (lh_block l)) l)
  else panic "trap".

(** [for(i = 0; i < log.lh.n; i++) body].  The bodies access entry [i] of
    the header, so that there are at most LOGSIZE turns. *)
Definition for_log (body : Z -> M unit) : M unit :=
  loop_n (S (Z.to_nat LOGSIZE)) (fun i =>
    let! l := gets log in
    if i <? lh_n l then body i ;; ret (inl (i + 1)) else ret (inr tt)) 0.

(** [bread(log.dev, log.start+off)]. *)
Definition bread_log (off : Z) : M nat :=
  let! l := gets log in
  bread (u32 (lg_dev l)) (u32 (lg_start l + off)).
(** [bread(log.dev, log.lh.block[i])]. *)
Definition bread_home (i : Z) : M nat :=
  let! b := lh_get i in
  let! l := gets log in
  bread (u32 (lg_dev l)) (u32 b).

(** fs.c: [readsb], the seven words of block 1. *)
Definition sb_of_block (d : list Z) : superblock :=
  mksb (word_at d 0) (word_at d 4) (word_at d 8) (word_at d 12) (word_at d 16) (word_at d 20) (word_at d 24).
Definition readsb (dev : Z) : M superblock :=
  let! i := bread dev 1 in
  let! b := get_buf i in
  brelse i ;;
  ret (sb_of_block (b_data b)).

(** [memmove(dst->data, src->data, BSIZE)]. *)
Definition copy_buf (dst src : nat) : M unit :=
  let! b := get_buf src in
  mod_buf dst (set_b_data (b_data b)).

Definition install_trans : M unit :=
  for_log (fun tail =>
    let! lbuf := bread_log (tail + 1) in
    let! dbuf := bread_home tail in
    copy_buf dbuf lbuf ;;
    bwrite dbuf ;;
    brelse lbuf ;;
    brelse dbuf).

Definition read_head : M unit :=
  let! i := bread_log 0 in
  let! b := get_buf i in
  mod_log (set_lh_n (s32 (word_at (b_data b) 0))) ;;
  for_log (fun k => lh_set k (word_at (b_data b) (4 + 4 * k))) ;;
  brelse i.

Definition write_head : M unit :=
  let! i := bread_log 0 in
  let! n := gets (fun s => lh_n (log s)) in
  mod_buf i (fun b => set_b_data (set_word (b_data b) 0 n) b) ;;
  for_log (fun k =>
    let! v := lh_get k in
    mod_buf i (fun b => set_b_data (set_word (b_data b) (4 + 4 * k) v) b)) ;;
  bwrite i ;;
  brelse i.

Definition recover_from_log : M unit :=
  read_head ;;
  install_trans ;;
  mod_log (set_lh_n 0) ;;
  write_head.

Definition initlog (dev : Z) : M unit :=
  if BSIZE <=? SIZEOF_LOGHEADER then panic "initlog: too big logheader" else
  initlock LLog ;;
  let! b := readsb dev in
  mod_log (set_lg_start (s32 (sb_logstart b))) ;;
  mod_log (set_lg_size (s32 (sb_nlog b))) ;;
  mod_log (set_lg_dev dev) ;;
  recover_from_log.

Definition begin_op : M unit :=
  acquire LLog ;;
  wait_loop (fun _ : unit =>
    let! l := gets log in
    if lg_committing l then sleep CLog LLog ;; ret (inl tt)
    else if LOGSIZE <? lh_n l + (lg_outstanding l + 1) * MAXOPBLOCKS then
      sleep CLog LLog ;; ret (inl tt)
    else
      mod_log (fun l => set_lg_outstanding (lg_outstanding l + 1) l) ;;
      release LLog ;;
      ret (inr tt)) tt.

Definition write_log : M unit :=
  for_log (fun tail =>
    let! dst := bread_log (tail + 1) in
    let! src := bread_home tail in
    copy_buf dst src ;;
    bwrite dst ;;
    brelse src ;;
    brelse dst).

Definition commit : M unit :=
  let! n := gets (fun s => lh_n (log s)) in
  when (0 <? n)
    (write_log ;;
     write_head ;;
     install_trans ;;
     mod_log (set_lh_n 0) ;;
     write_head).

Definition end_op : M unit :=
  acquire LLog ;;
  mod_log (fun l => set_lg_outstanding (lg_outstanding l - 1) l) ;;
  let! l := gets log in
  if lg_committing l then panic "log.committing" else
  let do_commit := lg_outstanding l =? 0 in
  (if do_commit then mod_log (set_lg_committing true) else wakeup CLog) ;;
  release LLog ;;
  when do_commit
    (commit ;;
     acquire LLog ;;
     mod_log (set_lg_committing false) ;;
     wakeup CLog ;;
     release LLog).

(** The position at which [log_write] records the block: its own, if it
    is in the log already. *)
Definition log_slot (l : logst) (b : Z) : Z :=
  match find_idx (fun x => u32 x =? b) (take (Z.to_nat (lh_n l)) (lh_block l)) with
  | Some i => Z.of_nat i
  | None => Z.max 0 (lh_n l)
  end.

Definition log_write (i : nat) : M unit :=
  let! l := gets log in
  if (LOGSIZE <=? lh_n l) || (lg_size l - 1 <=? lh_n l) then panic "too big a transaction" else
  if lg_outstanding l <? 1 then panic "log_write outside of trans" else
  acquire LLog ;;
  let! b := get_buf i in
  let! l := gets log in
  let k := log_slot l (b_blockno b) in
  lh_set k (b_blockno b) ;;
  when (k =? lh_n l) (mod_log (fun l => set_lh_n (lh_n l + 1) l)) ;;
  mod_buf i (fun b => set_b_flags (Z.lor (b_flags b) B_DIRTY) b) ;;
  release LLog.
End Log.
