(* ===== verification/Logsafe.v ===== *)
(** * Transactions of the log survive a power failure

    [commit] and [recover_from_log] run against the buffer cache as
    [Bcache.Cache] describes it.  The power may fail at any request to the
    disk; a reboot then finds the disk as it was left, and nothing else. *)

From stdpp Require Import base numbers list gmap strings.
From S2P Require Import Prelude Kernel Spinlock Sched Sleeplock Kalloc Umem Buf Memide Ring Bio Bcache Log.

(** ** Words of a block *)

Lemma length_set_word d off v :
  0 <= off -> off + 4 <= Z.of_nat (length d) -> length (set_word d off v) = length d.
Proof.
  intros H1 H2. unfold set_word. rewrite !length_app, length_take, length_drop, length_bytes32. lia.
Qed.

Lemma word_at_set_word d off v :
  0 <= off -> off + 4 <= Z.of_nat (length d) -> word_at (set_word d off v) off = u32 v.
Proof.
  intros H1 H2. unfold word_at, set_word.
  rewrite drop_app_length' by (rewrite length_take; lia).
  rewrite take_app_length' by (by rewrite length_bytes32). apply of_bytes32_bytes32.
Qed.

Lemma word_at_set_word_ne d off v o :
  0 <= off -> off + 4 <= Z.of_nat (length d) -> 0 <= o -> o + 4 <= off \/ off + 4 <= o ->
  word_at (set_word d off v) o = word_at d o.
Proof.
  intros H1 H2 H3 H4. unfold word_at, set_word. f_equal. destruct H4 as [H4|H4].
  - rewrite drop_app_le by (rewrite length_take; lia).
    rewrite take_app_le by (rewrite length_drop, length_take; lia).
    rewrite skipn_firstn_comm, take_take. f_equal. lia.
  - rewrite drop_app_ge by (rewrite length_take; lia). rewrite length_take.
    rewrite drop_app_ge by (rewrite length_bytes32; lia). rewrite length_bytes32, drop_drop. f_equal. f_equal. lia.
Qed.

Section Logsafe.
Context {DR : Driver} (me : nat) (mp : proc) (size L nlog : Z) {may : Prop} {SD : SyncDisk size may}.
Implicit Types (P : pinned) (s : kst) (bs : list Z).

Notation Cache := (Cache me mp size).
Notation crash C := (fun s' => may /\ C (disk s')).

(** The log's header in memory: it is on device 1 at block [L], and lists
    the blocks [bs]. *)
Record header bs s : Prop := {
  hd_dev : lg_dev (log s) = 1;
  hd_start : lg_start (log s) = L;
  hd_n : lh_n (log s) = Z.of_nat (length bs);
  hd_blocks : take (length bs) (lh_block (log s)) = bs;
  hd_len : length (lh_block (log s)) = Z.to_nat LOGSIZE;
}.

(** The log's [nlog] blocks are on the disk, and the blocks [bs] are distinct
    blocks of the disk outside of it. *)
Definition in_log (b : Z) : Prop := L <= b < L + nlog.
Record layout bs : Prop := {
  ly_log : 0 <= L /\ 0 < nlog /\ L + nlog <= size /\ size <= 2147483648;
  ly_distinct : NoDup bs;
  ly_home : forall b, b ∈ bs -> 0 <= b < size /\ ~ in_log b;
  ly_len : (length bs <= Z.to_nat LOGSIZE)%nat;
  ly_fits : Z.of_nat (length bs) < nlog;
}.

Lemma header_same bs s s' : header bs s -> log s' = log s -> header bs s'.
Proof using. intros [] E. constructor; by rewrite E. Qed.

Lemma header_block bs s k b : header bs s -> bs !! k = Some b -> nth k (lh_block (log s)) 0 = b.
Proof using.
  intros Hh Hb. apply nth_lookup_Some. rewrite <- (hd_blocks _ _ Hh) in Hb.
  rewrite lookup_take in Hb. by case_decide.
Qed.

Lemma for_log_rc C env body (Inv : nat -> kst -> Prop) n s :
  (n <= Z.to_nat LOGSIZE)%nat ->
  (forall k s, Inv k s -> lh_n (log s) = Z.of_nat n) ->
  (forall k s, (k < n)%nat -> Inv k s -> rc C env (body (Z.of_nat k) env s) (fun _ s' => Inv (S k) s')) ->
  Inv O s -> rc C env (for_log body env s) (fun _ s' => Inv n s').
Proof using.
  intros Hn Hl Hb HI. unfold for_log.
  apply (rc_loop C env _ Inv (fun _ => Inv n) n s) with (k := O); [| |lia|lia|done].
  - intros k t Hk HI'. rewrite bind_gets, (Hl k t HI'), (proj2 (Z.ltb_lt _ _)) by lia.
    eapply rc_bind; [by apply Hb|]. intros a t' HI2. split; [|done]. split; [f_equal; lia|done].
  - intros t HI'. rewrite bind_gets, (Hl n t HI'), Z.ltb_irrefl. split; [|done]. by exists tt.
Qed.

(** One step of a run, by the specification of the function it calls. *)
Lemma rc_step {A B} (C0 C : kst -> Prop) env (m : M A) (f : A -> M B) s Q R :
  rc C0 env (m env s) Q -> (forall s', C0 s' -> C s') ->
  (forall a s', Q a s' -> rc C env (f a env s') R) -> rc C env (bind m f env s) R.
Proof using. intros Hm HC Hf. eapply rc_bind; [eapply rc_mono; [exact Hm|exact HC|intros a s' HQ; exact HQ]|done]. Qed.

Lemma log_bread bs P H s off env :
  header bs s -> layout bs -> Cache H P s -> 0 <= off < nlog -> not_held H (L + off) -> P !! (L + off) = None ->
  room s ->
  rc (fun s' => may /\ disk s' = disk s) env (bread_log off env s)
    (fun i s' => H !! i = None /\ Cache (<[i := (L + off, Some (block_of (disk s) 1 (L + off)))]> H) P s' /\ same s s').
Proof.
  intros Hh Hy HC Ho Hnh HP Hr. unfold bread_log. rewrite bind_gets, (hd_dev _ _ Hh), (hd_start _ _ Hh).
  pose proof (ly_log _ Hy). change (u32 1) with 1. rewrite u32_small by lia.
  eapply rc_mono; [apply (bread_spec me mp size H P); [done|lia|done|by left]|done|].
  unfold contents. by rewrite HP.
Qed.

Lemma home_bread bs P H s k b env :
  header bs s -> layout bs -> Cache H P s -> bs !! k = Some b -> not_held H b -> room s \/ is_Some (P !! b) ->
  rc (fun s' => may /\ disk s' = disk s) env (bread_home (Z.of_nat k) env s)
    (fun i s' => H !! i = None /\ Cache (<[i := (b, Some (contents P s b))]> H) P s' /\ same s s').
Proof.
  intros Hh Hy HC Hb Hnh Hr. unfold bread_home, lh_get. rewrite bind_assoc, bind_gets.
  assert (k < length bs)%nat by (by eapply lookup_lt_Some). pose proof (ly_len _ Hy). pose proof (ly_log _ Hy).
  rewrite (proj2 (Z.ltb_lt _ _)), bind_ret, bind_gets, (hd_dev _ _ Hh), Nat2Z.id, (header_block _ _ _ _ Hh Hb) by lia.
  destruct (ly_home _ Hy b) as [Hr1 _]; [by apply list_elem_of_lookup_2 in Hb|].
  change (u32 1) with 1. rewrite u32_small by lia. by apply (bread_spec me mp size).
Qed.

(** Copying a block: [src] has it in its buffer. *)
Lemma copy_write P s src dst a da b db env :
  Cache (<[dst := (b, Some db)]> (<[src := (a, Some da)]> ∅)) P s -> src <> dst -> a <> b -> contents P s a = da ->
  rc (crash (fun d => d = disk s \/ d = <[(1, b) := da]> (disk s))) env
    ((copy_buf dst src ;; bwrite dst ;; brelse src ;; brelse dst) env s)
    (fun _ s' => Cache ∅ (delete b P) s' /\ disk s' = <[(1, b) := da]> (disk s) /\ log s' = log s /\ rest s s').
Proof.
  intros HC Hsd Hab Hda. set (H := <[dst := _]> _) in HC.
  assert (H !! dst = Some (b, Some db)) as Hd by apply lookup_insert_eq.
  assert (H !! src = Some (a, Some da)) as Hs by (unfold H; rewrite lookup_insert_ne, lookup_insert_eq; done).
  destruct (held_buf me mp size _ _ _ _ _ _ HC Hs) as (x & _ & Hx & HB & _ & _ & _ & _ & _ & L6 & _). cbn [fst snd] in L6.
  unfold copy_buf, mod_buf. rewrite bind_assoc, (bind_get_buf _ _ _ _ _ Hx), bind_modify, L6.
  eassert (Cache _ _ _) as HC1.
  { apply (set_data_spec me mp size H P s dst b db da (set_b_data da)); [done|done|done|].
    rewrite <- L6. apply (bo_len _ _ _ _ _ _ _ HB). }
  set (s1 := set_bcache _ _) in *. unfold H in HC1. rewrite insert_insert_eq in HC1.
  eapply rc_step; [apply (bwrite_spec me mp size _ _ s1 dst b da env HC1), lookup_insert_eq| |].
  { intros s' [Hm Hdk]. split; [done|]. by left. }
  intros _ s2 (HC2 & D2 & L2 & R2). cbn [disk set_bcache log s1] in D2, L2.
  assert (delete b (alter (fun _ => da) b P) = delete b P) as EP.
  { apply map_eq. intros c. destruct (decide (c = b)) as [->|Hc]; [by rewrite !lookup_delete_eq|].
    by rewrite !lookup_delete_ne, lookup_alter_ne by done. }
  rewrite EP in HC2.
  eapply rc_step; [apply (brelse_spec me mp size _ _ s2 src a da env HC2)| |].
  - rewrite lookup_insert_ne by done. apply lookup_insert_eq.
  - rewrite lookup_delete_ne by done. unfold contents in Hda. destruct (P !! a); [by left|right].
    by rewrite D2, block_of_insert, decide_False.
  - done.
  - intros _ s3 (HC3 & (D3 & L3 & R3)).
    rewrite delete_insert_ne, delete_insert_id in HC3 by done.
    eapply rc_mono; [apply (brelse_spec me mp size _ _ s3 dst b da env HC3)|..].
    + apply lookup_insert_eq.
    + right. by rewrite D3, D2, block_of_insert, decide_True.
    + done.
    + intros _ s4 (HC4 & (D4 & L4 & R4)). rewrite delete_insert_id in HC4 by apply lookup_empty.
      split; [done|]. split; [congruence|]. split; [congruence|]. exact (rest_trans _ _ _ R2 (rest_trans _ _ _ R3 R4)).
Qed.

(** The blocks that are pinned are the log's. *)
Definition pins bs P : Prop := (forall b, is_Some (P !! b) <-> b ∈ bs) /\ (base.size P < NBUF)%nat.

Lemma pins_log bs P b : layout bs -> pins bs P -> in_log b -> P !! b = None.
Proof using.
  intros Hy [Hp _] Hb. destruct (P !! b) eqn:E; [|done]. exfalso.
  assert (b ∈ bs) as Hin by (apply Hp; by rewrite E). by apply (ly_home _ Hy b).
Qed.

Lemma not_held_empty b : not_held ∅ b.
Proof using. intros j v. by rewrite lookup_empty. Qed.

Lemma not_held_one i a od b : a <> b -> not_held (<[i := (a, od)]> ∅) b.
Proof using.
  intros Hab j v. destruct (decide (j = i)) as [->|Hne].
  - rewrite lookup_insert_eq. by intros [= <-].
  - by rewrite lookup_insert_ne, lookup_empty.
Qed.

Lemma room_empty P s : Cache ∅ P s -> (base.size P < NBUF)%nat -> room s.
Proof using. intros HC Hs. eapply room_size; [done|]. by rewrite map_size_empty. Qed.

Lemma log_block_of bs k b : layout bs -> bs !! k = Some b ->
  in_log (L + (Z.of_nat k + 1)) /\ L < L + (Z.of_nat k + 1) /\ b <> L + (Z.of_nat k + 1) /\ Z.of_nat k + 1 < nlog.
Proof using.
  intros Hy Hb. assert (k < length bs)%nat by (by eapply lookup_lt_Some). pose proof (ly_fits _ Hy).
  assert (in_log (L + (Z.of_nat k + 1))) as Hin by (unfold in_log; lia).
  split_and!; [done|lia| |lia]. intros ->. destruct (ly_home _ Hy (L + (Z.of_nat k + 1))) as [_ Hn]; [|done].
  by apply list_elem_of_lookup_2 in Hb.
Qed.

(** The disk [d] has the contents of the blocks in the log, and is as [d0]
    elsewhere. *)
Definition outside_log d0 d : Prop :=
  forall c, ~ (L < c < L + nlog) -> block_of d 1 c = block_of d0 1 c.
Definition logged (new : Z -> list Z) bs (n : nat) d : Prop :=
  forall k b, (k < n)%nat -> bs !! k = Some b -> block_of d 1 (L + (Z.of_nat k + 1)) = new b.

Lemma write_log_step bs P s k b env :
  Cache ∅ P s -> header bs s -> layout bs -> pins bs P -> bs !! k = Some b ->
  let d' := <[(1, L + (Z.of_nat k + 1)) := contents P s b]> (disk s) in
  rc (crash (fun d => d = disk s \/ d = d')) env
    ((let! dst := bread_log (Z.of_nat k + 1) in let! src := bread_home (Z.of_nat k) in
      copy_buf dst src ;; bwrite dst ;; brelse src ;; brelse dst) env s)
    (fun _ s' => Cache ∅ P s' /\ disk s' = d' /\ log s' = log s /\ rest s s').
Proof.
  intros HC Hh Hy Hp Hb d'. destruct (log_block_of _ _ _ Hy Hb) as (Hil & _ & Hne & Hle).
  pose proof (pins_log _ _ _ Hy Hp Hil) as HPl.
  eapply rc_step; [apply (log_bread bs P ∅ s _ env Hh Hy HC); [lia|apply not_held_empty|done|by apply room_empty with P, Hp]| |].
  { intros s' [Hm E]. split; [done|by left]. }
  intros dst s1 (Hd & HC1 & (D1 & L1 & R1)).
  eapply rc_step; [apply (home_bread bs P _ s1 k b env (header_same _ _ _ Hh L1) Hy HC1 Hb); [by apply not_held_one|right]| |].
  { apply Hp. by apply list_elem_of_lookup_2 in Hb. }
  { intros s' [Hm E]. split; [done|left]. congruence. }
  intros src s2 (Hsrc & HC2 & (D2 & L2 & R2)).
  assert (dst <> src) as Hds by (intros ->; by rewrite lookup_insert_eq in Hsrc).
  assert (contents P s1 b = contents P s b /\ contents P s2 b = contents P s b) as [E1 E2].
  { unfold contents. by rewrite D2, D1. }
  rewrite insert_insert_ne in HC2 by done.
  eapply rc_mono; [apply (copy_write P s2 src dst b _ _ _ env HC2); [done|done|congruence]| |].
  - intros s' [Hm E]. split; [done|]. unfold d'. rewrite E1, D2, D1 in E. exact E.
  - intros _ s3 (HC3 & D3 & L3 & R3). rewrite delete_id in HC3 by done. unfold d'.
    rewrite E1, D2, D1 in D3. split; [done|]. split; [done|]. split; [congruence|]. exact (rest_trans _ _ _ R1 (rest_trans _ _ _ R2 R3)).
Qed.

Lemma write_log_spec bs P s env :
  Cache ∅ P s -> header bs s -> layout bs -> pins bs P ->
  rc (crash (outside_log (disk s))) env (write_log env s)
    (fun _ s' => Cache ∅ P s' /\ (log s' = log s /\ rest s s') /\ outside_log (disk s) (disk s') /\
       logged (contents P s) bs (length bs) (disk s')).
Proof.
  intros HC Hh Hy Hp. unfold write_log.
  eapply rc_mono with (C := crash (outside_log (disk s))); [|done|intros a s' HQ; exact HQ].
  apply (for_log_rc _ env _ (fun k s' => Cache ∅ P s' /\ (log s' = log s /\ rest s s') /\ outside_log (disk s) (disk s') /\
    logged (contents P s) bs k (disk s'))).
  - apply (ly_len _ Hy).
  - intros k t (_ & [El _] & _). rewrite El. apply (hd_n _ _ Hh).
  - intros k t Hk (HCt & [El Rt] & Ho & Hlg). destruct (lookup_lt_is_Some_2 bs k Hk) as [b Hb].
    assert (contents P t b = contents P s b) as Ec.
    { unfold contents. assert (b ∈ bs) as Hin by (by apply list_elem_of_lookup_2 in Hb).
      apply (proj1 Hp) in Hin as [d ->]. done. }
    assert (outside_log (disk s) (<[(1, L + (Z.of_nat k + 1)) := contents P t b]> (disk t))) as Ho'.
    { intros c Hc. rewrite block_of_insert, decide_False; [by apply Ho|].
      intros ->. apply Hc. destruct (log_block_of _ _ _ Hy Hb) as (? & ? & _). unfold in_log in *. lia. }
    eapply rc_mono; [apply (write_log_step bs P t k b env HCt (header_same _ _ _ Hh El) Hy Hp Hb)| |].
    + intros s' [Hm [-> | ->]]; by split.
    + intros _ s' (HC' & -> & L' & R'). split; [done|]. split; [split; [congruence|exact (rest_trans _ _ _ Rt R')]|]. split; [done|].
      intros j c Hj Hc. rewrite block_of_insert. case_decide as Hjk.
      * assert (j = k) as -> by lia. rewrite Ec. congruence.
      * apply Hlg; [|done]. assert (j <> k) by (intros ->; by apply Hjk). lia.
  - split; [done|]. split; [done|]. split; [intros c _; done|intros j c Hj; lia].
Qed.

(** The header block [d] lists [bs]. *)
Definition hdr (d : list Z) bs : Prop :=
  word_at d 0 = Z.of_nat (length bs) /\ forall k b, bs !! k = Some b -> word_at d (4 + 4 * Z.of_nat k) = b.

Lemma alter_absent {V} f b (P : gmap Z V) : P !! b = None -> alter f b P = P.
Proof using.
  intros E. apply map_eq. intros c. destruct (decide (c = b)) as [->|Hc].
  - by rewrite lookup_alter_eq, E.
  - by rewrite lookup_alter_ne.
Qed.

(** Storing a word into a locked buffer whose block is not pinned. *)
Lemma set_word_cache P s i b d off v :
  Cache (<[i := (b, Some d)]> ∅) P s -> P !! b = None -> 0 <= off -> off + 4 <= BSIZE ->
  Cache (<[i := (b, Some (set_word d off v))]> ∅) P
    (set_bcache (upd i (fun x => set_b_data (set_word (b_data x) off v) x) (bcache s)) s) /\
  length d = Z.to_nat BSIZE.
Proof using.
  intros HC HP H1 H2.
  destruct (held_buf me mp size _ _ _ _ _ _ HC (lookup_insert_eq _ _ _)) as (x & _ & Hx & HB & _ & _ & _ & _ & _ & L6 & _).
  cbn [fst snd] in L6. assert (length d = Z.to_nat BSIZE) as Hd by (rewrite <- L6; apply (bo_len _ _ _ _ _ _ _ HB)).
  split; [|done]. rewrite <- (alter_absent (fun _ => set_word d off v) b P HP).
  rewrite <- (insert_insert_eq ∅ i (b, Some (set_word d off v)) (b, Some d)).
  apply set_data_spec with (d := d); [done|apply lookup_insert_eq| |].
  - intros y <-. done.
  - rewrite length_set_word by lia. done.
Qed.

(** The words that were stored so far. *)
Definition hdr_upto (d : list Z) bs (n : nat) : Prop :=
  word_at d 0 = Z.of_nat (length bs) /\
  forall k b, (k < n)%nat -> bs !! k = Some b -> word_at d (4 + 4 * Z.of_nat k) = b.

Lemma hdr_upto_step d bs k b :
  layout bs -> length d = Z.to_nat BSIZE -> bs !! k = Some b -> hdr_upto d bs k ->
  hdr_upto (set_word d (4 + 4 * Z.of_nat k) b) bs (S k).
Proof using.
  intros Hy Hd Hb [H0 Hk]. assert (k < length bs)%nat by (by eapply lookup_lt_Some). pose proof (ly_len _ Hy).
  assert (0 <= b < 4294967296) as Hbr.
  { destruct (ly_home _ Hy b) as [? _]; [by apply list_elem_of_lookup_2 in Hb|]. pose proof (ly_log _ Hy). lia. }
  unfold LOGSIZE, MAXOPBLOCKS, BSIZE in *. split.
  - rewrite word_at_set_word_ne by lia. done.
  - intros j c Hj Hc. destruct (decide (j = k)) as [->|Hne].
    + rewrite word_at_set_word by lia. rewrite u32_small; congruence.
    + rewrite word_at_set_word_ne by lia. apply Hk; [lia|done].
Qed.

Lemma write_head_words bs P s i d env :
  Cache (<[i := (L, Some d)]> ∅) P s -> header bs s -> layout bs -> P !! L = None ->
  word_at d 0 = Z.of_nat (length bs) ->
  rc (fun _ => False) env
    (for_log (fun k => let! v := lh_get k in
       mod_buf i (fun b => set_b_data (set_word (b_data b) (4 + 4 * k) v) b)) env s)
    (fun _ s' => exists d', Cache (<[i := (L, Some d')]> ∅) P s' /\ same s s' /\ hdr d' bs).
Proof using.
  intros HC Hh Hy HP H0.
  eapply rc_mono; [apply (for_log_rc (fun _ => False) env _ (fun k s' => exists d', Cache (<[i := (L, Some d')]> ∅) P s' /\
    same s s' /\ hdr_upto d' bs k) (length bs))|done|].
  - apply (ly_len _ Hy).
  - intros k t (d' & _ & (_ & El & _) & _). rewrite El. apply (hd_n _ _ Hh).
  - intros k t Hk (d' & HCt & (D1 & L1 & R1) & Hu). destruct (lookup_lt_is_Some_2 bs k Hk) as [b Hb].
    pose proof (ly_len _ Hy). unfold lh_get. rewrite bind_assoc, bind_gets.
    rewrite (proj2 (Z.ltb_lt _ _)), bind_ret, Nat2Z.id, L1, (header_block _ _ _ _ Hh Hb) by lia.
    destruct (set_word_cache P t i L d' (4 + 4 * Z.of_nat k) b HCt HP) as [HC' Hd'];
      [lia|unfold BSIZE, LOGSIZE, MAXOPBLOCKS in *; lia|].
    split; [|done]. exists (set_word d' (4 + 4 * Z.of_nat k) b). split; [done|]. split; [done|].
    by apply hdr_upto_step.
  - exists d. split; [done|]. split; [done|]. split; [done|]. intros k b Hk. lia.
  - intros _ s' (d' & HC' & HS & H1 & H2). exists d'. split; [done|]. split; [done|]. split; [done|].
    intros k b Hb. apply H2; [by eapply lookup_lt_Some|done].
Qed.

Lemma write_head_spec bs P s env :
  Cache ∅ P s -> header bs s -> layout bs -> P !! L = None -> (base.size P < NBUF)%nat ->
  rc (crash (fun d => d = disk s)) env (write_head env s)
    (fun _ s' => Cache ∅ P s' /\ (log s' = log s /\ rest s s') /\ exists d, disk s' = <[(1, L) := d]> (disk s) /\ hdr d bs).
Proof.
  intros HC Hh Hy HP Hsz. unfold write_head. pose proof (ly_log _ Hy).
  eapply rc_step; [apply (log_bread bs P ∅ s 0 env Hh Hy HC); [lia|apply not_held_empty|by rewrite Z.add_0_r|by apply room_empty with P]|done|].
  intros i s1 (_ & HC1 & (D1 & L1 & R1)). rewrite Z.add_0_r in HC1. rewrite bind_gets. unfold mod_buf at 1. rewrite bind_modify.
  rewrite L1, (hd_n _ _ Hh).
  destruct (set_word_cache P s1 i L _ 0 (Z.of_nat (length bs)) HC1 HP) as [HC2 Hlen]; [lia|unfold BSIZE; lia|].
  set (s2 := set_bcache _ s1) in *.
  eapply rc_step; [apply (write_head_words bs P s2 i _ env HC2); [|done|done|]|done|].
  { by apply header_same with s. }
  { pose proof (ly_len _ Hy). rewrite word_at_set_word by (unfold BSIZE in *; lia). apply u32_small.
    unfold LOGSIZE, MAXOPBLOCKS in *. lia. }
  intros _ s3 (d & HC3 & (D3 & L3 & R3) & Hhd). cbn [s2 disk log set_bcache] in D3, L3.
  eapply rc_step; [apply (bwrite_spec me mp size _ _ s3 i L d env HC3), lookup_insert_eq| |].
  { intros s' [Hm E]. split; [done|congruence]. }
  intros _ s4 (HC4 & D4 & L4 & R4). rewrite delete_id in HC4 by done.
  eapply rc_mono; [apply (brelse_spec me mp size _ _ s4 i L d env HC4); [apply lookup_insert_eq|right]|done|].
  { by rewrite D4, block_of_insert, decide_True. }
  intros _ s5 (HC5 & (D5 & L5 & R5)). rewrite delete_insert_id in HC5 by apply lookup_empty.
  split; [done|]. split; [|exists d; split; [congruence|done]].
  split; [congruence|]. exact (rest_trans _ _ _ R1 (rest_trans _ _ _ R3 (rest_trans _ _ _ R4 R5))).
Qed.

(** ** Installing *)

Lemma install_step bs P s k b env :
  Cache ∅ P s -> header bs s -> layout bs -> (forall c, in_log c -> P !! c = None) -> bs !! k = Some b ->
  (S (base.size P) < NBUF)%nat \/ (base.size P < NBUF)%nat /\ is_Some (P !! b) ->
  let d' := <[(1, b) := block_of (disk s) 1 (L + (Z.of_nat k + 1))]> (disk s) in
  rc (crash (fun d => d = disk s \/ d = d')) env
    ((let! lbuf := bread_log (Z.of_nat k + 1) in let! dbuf := bread_home (Z.of_nat k) in
      copy_buf dbuf lbuf ;; bwrite dbuf ;; brelse lbuf ;; brelse dbuf) env s)
    (fun _ s' => Cache ∅ (delete b P) s' /\ disk s' = d' /\ log s' = log s /\ rest s s').
Proof.
  intros HC Hh Hy HPl Hb Hsz d'. destruct (log_block_of _ _ _ Hy Hb) as (Hil & _ & Hne & Hle).
  eapply rc_step; [apply (log_bread bs P ∅ s _ env Hh Hy HC);
    [lia|apply not_held_empty|by apply HPl|apply room_empty with P; [done|lia]]| |].
  { intros s' [Hm E]. split; [done|by left]. }
  intros lbuf s1 (Hd & HC1 & (D1 & L1 & R1)).
  eapply rc_step; [apply (home_bread bs P _ s1 k b env (header_same _ _ _ Hh L1) Hy HC1 Hb); [by apply not_held_one|]| |].
  { destruct Hsz as [Hsz|[_ Hsz]]; [left|by right]. eapply room_size; [done|].
    rewrite map_size_insert_None, map_size_empty by apply lookup_empty. lia. }
  { intros s' [Hm E]. split; [done|left]. congruence. }
  intros dbuf s2 (Hdb & HC2 & (D2 & L2 & R2)).
  assert (lbuf <> dbuf) as Hds by (intros ->; by rewrite lookup_insert_eq in Hdb).
  eapply rc_mono; [apply (copy_write P s2 lbuf dbuf _ _ b _ env HC2); [done|done|]| |].
  - unfold contents. by rewrite (HPl _ Hil), D2, D1.
  - intros s' [Hm E]. split; [done|]. unfold d'. rewrite D2, D1 in E. exact E.
  - intros _ s3 (HC3 & D3 & L3 & R3). unfold d'. rewrite D2, D1 in D3. split; [done|]. split; [done|]. split; [congruence|].
    exact (rest_trans _ _ _ R1 (rest_trans _ _ _ R2 R3)).
Qed.

(** What is pinned when the first [k] blocks are installed. *)
Record pins_from bs P k Pk : Prop := {
  pf_sub : Pk ⊆ P;
  pf_rest : forall j b, (k <= j)%nat -> bs !! j = Some b -> Pk !! b = P !! b;
  pf_done : forall j b, (j < k)%nat -> bs !! j = Some b -> Pk !! b = None;
}.

Lemma pins_from_step bs P k Pk b :
  layout bs -> bs !! k = Some b -> pins_from bs P k Pk -> pins_from bs P (S k) (delete b Pk).
Proof using.
  intros Hy Hb [H1 H2 H3]. constructor.
  - etransitivity; [apply delete_subseteq|done].
  - intros j c Hj Hc. rewrite lookup_delete_ne; [apply (H2 j); [lia|done]|]. intros ->.
    assert (j = k) by (by eapply NoDup_lookup; [apply (ly_distinct _ Hy)|..]). lia.
  - intros j c Hj Hc. destruct (decide (c = b)) as [->|Hne]; [apply lookup_delete_eq|].
    rewrite lookup_delete_ne by done. apply (H3 j); [|done]. assert (j <> k) by congruence. lia.
Qed.

Definition outside bs d0 d : Prop := forall c, c ∉ bs -> block_of d 1 c = block_of d0 1 c.
Definition installed d0 bs (n : nat) d : Prop :=
  forall k b, (k < n)%nat -> bs !! k = Some b -> block_of d 1 b = block_of d0 1 (L + (Z.of_nat k + 1)).

Lemma log_not_home bs c : layout bs -> in_log c -> c ∉ bs.
Proof using. intros Hy Hc Hin. by apply (ly_home _ Hy c). Qed.

Lemma install_spec bs P s env :
  Cache ∅ P s -> header bs s -> layout bs ->
  pins bs P \/ P = ∅ ->
  rc (crash (outside bs (disk s))) env (install_trans env s)
    (fun _ s' => Cache ∅ ∅ s' /\ (log s' = log s /\ rest s s') /\ outside bs (disk s) (disk s') /\
       installed (disk s) bs (length bs) (disk s')).
Proof.
  intros HC Hh Hy HP. unfold install_trans.
  assert (forall c, in_log c -> P !! c = None) as HPl.
  { destruct HP as [Hp| ->]; [|done]. intros c. by apply (pins_log bs). }
  assert (base.size P < NBUF)%nat as Hsz by (destruct HP as [[_ Hp]| ->]; [done|rewrite map_size_empty; unfold NBUF; lia]).
  eapply rc_mono; [apply (for_log_rc (crash (outside bs (disk s))) env _ (fun k s' => exists Pk, Cache ∅ Pk s' /\
    (log s' = log s /\ rest s s') /\ pins_from bs P k Pk /\ outside bs (disk s) (disk s') /\ installed (disk s) bs k (disk s')) (length bs))|done|].
  - apply (ly_len _ Hy).
  - intros k t (Pk & _ & [El _] & _). rewrite El. apply (hd_n _ _ Hh).
  - intros k t Hk (Pk & HCt & [El Rt] & Hpf & Ho & Hin). destruct (lookup_lt_is_Some_2 bs k Hk) as [b Hb].
    assert (b ∈ bs) as Hbin by (by apply list_elem_of_lookup_2 in Hb).
    destruct (log_block_of _ _ _ Hy Hb) as (Hil & _ & _ & _).
    assert (outside bs (disk s) (<[(1, b) := block_of (disk t) 1 (L + (Z.of_nat k + 1))]> (disk t))) as Ho'.
    { intros c Hc. rewrite block_of_insert, decide_False; [by apply Ho|congruence]. }
    eapply rc_mono; [apply (install_step bs Pk t k b env HCt (header_same _ _ _ Hh El) Hy)| |].
    + intros c Hc. eapply lookup_weaken_None; [by apply HPl|apply (pf_sub _ _ _ _ Hpf)].
    + done.
    + pose proof (map_subseteq_size _ _ (pf_sub _ _ _ _ Hpf)). destruct HP as [Hp| ->].
      * right. split; [lia|]. rewrite (pf_rest _ _ _ _ Hpf k b) by (lia || done). by apply Hp.
      * left. rewrite map_size_empty in *. unfold NBUF. lia.
    + intros s' [Hm [-> | ->]]; by split.
    + intros _ s' (HC' & -> & L' & R'). exists (delete b Pk). split; [done|].
      split; [split; [congruence|exact (rest_trans _ _ _ Rt R')]|]. split; [by apply pins_from_step|]. split; [done|].
      intros j c Hj Hc. rewrite block_of_insert. case_decide as Hcb.
      * subst c. assert (j = k) as -> by (by eapply NoDup_lookup; [apply (ly_distinct _ Hy)|..]).
        apply Ho. by apply log_not_home.
      * apply Hin; [|done]. assert (j <> k) by congruence. lia.
  - exists P. split; [done|]. split; [done|]. split; [|split; [done|intros j c Hj; lia]]. constructor; [done|done|intros j c Hj; lia].
  - intros _ s' (Pk & HC' & El & Hpf & Ho & Hin). split; [|done].
    assert (Pk = ∅) as <-; [|done]. apply map_eq. intros b. rewrite lookup_empty.
    destruct (decide (b ∈ bs)) as [[j Hj]%list_elem_of_lookup_1|Hb].
    + apply (pf_done _ _ _ _ Hpf j); [by eapply lookup_lt_Some|done].
    + eapply lookup_weaken_None; [|apply (pf_sub _ _ _ _ Hpf)]. destruct HP as [Hp| ->]; [|done].
      destruct (P !! b) eqn:E; [|done]. destruct Hb. apply Hp. by rewrite E.
Qed.

(** ** Committing *)

(** The disk on which a transaction that writes [new] to the blocks [bs]
    of the disk [d0] has not begun, has committed, and is complete. *)
Definition begun d0 d : Prop :=
  hdr (block_of d 1 L) [] /\ forall c, ~ in_log c -> block_of d 1 c = block_of d0 1 c.
Definition committed (new : Z -> list Z) bs d0 d : Prop :=
  hdr (block_of d 1 L) bs /\ logged new bs (length bs) d /\
  forall c, ~ in_log c -> c ∉ bs -> block_of d 1 c = block_of d0 1 c.
Definition complete (new : Z -> list Z) bs d0 d : Prop :=
  hdr (block_of d 1 L) [] /\ (forall c, c ∈ bs -> block_of d 1 c = new c) /\
  forall c, ~ in_log c -> c ∉ bs -> block_of d 1 c = block_of d0 1 c.

Lemma header_empty bs s : header bs s -> header [] (set_log (set_lh_n 0 (log s)) s).
Proof using. intros []. by constructor. Qed.

Lemma layout_nil bs : layout bs -> layout [].
Proof using. intros []. constructor; [done|constructor|intros b Hb; by apply elem_of_nil in Hb|cbn; lia|cbn; lia]. Qed.

Lemma cache_log H P s l : Cache H P s -> Cache H P (set_log l s).
Proof using. intros [[] ? ? ? ? ? ?]. by constructor; [constructor|..]. Qed.

Lemma in_log_start bs : layout bs -> in_log L.
Proof using. intros Hy. pose proof (ly_log _ Hy). unfold in_log. lia. Qed.

Lemma install_committed new bs d0 d d' :
  layout bs -> committed new bs d0 d -> outside bs d d' -> committed new bs d0 d'.
Proof using.
  intros Hy (H1 & H2 & H3) Ho. split_and!.
  - rewrite Ho; [done|]. apply log_not_home; [done|by apply in_log_start with bs].
  - intros k b Hk Hb. destruct (log_block_of _ _ _ Hy Hb) as (Hil & _).
    rewrite Ho; [by apply H2|by apply log_not_home].
  - intros c Hc Hcb. rewrite Ho by done. by apply H3.
Qed.

Lemma install_complete new bs d0 d d' h :
  layout bs -> committed new bs d0 d -> outside bs d d' -> installed d bs (length bs) d' -> hdr h [] ->
  complete new bs d0 (<[(1, L) := h]> d').
Proof using.
  intros Hy (H1 & H2 & H3) Ho Hi Hh. split_and!.
  - by rewrite block_of_insert, decide_True.
  - intros c [k Hk]%list_elem_of_lookup_1. assert (k < length bs)%nat by (by eapply lookup_lt_Some).
    rewrite block_of_insert, decide_False.
    + rewrite (Hi k c) by done. by apply H2.
    + intros ->. destruct (log_not_home bs L Hy (in_log_start bs Hy)). by apply list_elem_of_lookup_2 in Hk.
  - intros c Hc Hcb. rewrite block_of_insert, decide_False; [|by intros ->; apply Hc, in_log_start with bs].
    rewrite Ho by done. by apply H3.
Qed.

Definition crash_point new bs d0 d : Prop := begun d0 d \/ committed new bs d0 d \/ complete new bs d0 d.

(** The second half of [commit], and of [recover_from_log]. *)
Lemma install_and_clear new bs P d0 s env :
  Cache ∅ P s -> header bs s -> layout bs -> pins bs P \/ P = ∅ -> committed new bs d0 (disk s) ->
  rc (crash (crash_point new bs d0)) env ((install_trans ;; mod_log (set_lh_n 0) ;; write_head) env s)
    (fun _ s' => Cache ∅ ∅ s' /\ (log s' = set_lh_n 0 (log s) /\ rest s s') /\ complete new bs d0 (disk s')).
Proof.
  intros HC Hh Hy HP Hcm. eapply rc_step; [apply (install_spec bs P s env HC Hh Hy HP)| |].
  { intros s' [Hm Ho]. split; [done|]. right; left. by eapply install_committed. }
  intros _ s1 (HC1 & [L1 R1] & Ho & Hin). unfold mod_log. rewrite bind_modify.
  eapply rc_mono; [apply (write_head_spec [] ∅ _ env (cache_log _ _ _ _ HC1))| |].
  - eapply header_empty, header_same; done.
  - by eapply layout_nil.
  - apply lookup_empty.
  - rewrite map_size_empty. unfold NBUF. lia.
  - intros s' [Hm E]. split; [done|]. right; left. rewrite E. by eapply install_committed.
  - intros _ s2 (HC2 & [L2 R2] & d & D2 & Hd). split; [done|]. split; [|rewrite D2; by eapply install_complete].
    split; [rewrite L2; cbn; by rewrite L1|exact (rest_trans _ _ _ R1 R2)].
Qed.

Lemma commit_spec bs P s env :
  Cache ∅ P s -> header bs s -> layout bs -> pins bs P -> hdr (block_of (disk s) 1 L) [] ->
  rc (crash (crash_point (contents P s) bs (disk s))) env (commit env s)
    (fun _ s' => Cache ∅ ∅ s' /\ (log s' = set_lh_n 0 (log s) /\ rest s s') /\ complete (contents P s) bs (disk s) (disk s')).
Proof.
  intros HC Hh Hy Hp Hd. unfold commit. rewrite bind_gets, (hd_n _ _ Hh).
  destruct (decide (bs = [])) as [->|Hne].
  { split; [|done]. split.
    - assert (P = ∅) as <-; [|done]. apply map_eq. intros b. rewrite lookup_empty. destruct (P !! b) eqn:E; [|done].
      assert (b ∈ []) as Hb by (apply (proj1 Hp); by rewrite E). by apply elem_of_nil in Hb.
    - split; [split; [|done]|split_and!; [done|intros c Hc; by apply elem_of_nil in Hc|done]]. pose proof (hd_n _ _ Hh : lh_n (log s) = 0) as E. destruct (log s). cbn in E |- *. by rewrite E. }
  rewrite (proj2 (Z.ltb_lt 0 _)) by (destruct bs; [done|cbn; lia]). cbn [when].
  assert (forall d, outside_log (disk s) d -> begun (disk s) d) as Hbeg.
  { intros d Ho. split; [rewrite Ho; [done|lia]|]. intros c Hc. apply Ho. unfold in_log in Hc. lia. }
  eapply rc_step; [apply (write_log_spec bs P s env HC Hh Hy Hp)| |].
  { intros s' [Hm Ho]. split; [done|]. left. by apply Hbeg. }
  intros _ s1 (HC1 & [L1 R1] & Ho1 & Hlg).
  eapply rc_step; [apply (write_head_spec bs P s1 env HC1 (header_same _ _ _ Hh L1) Hy); [|apply Hp]| |].
  { apply (pins_log bs); [done|done|by apply in_log_start with bs]. }
  { intros s' [Hm ->]. split; [done|]. left. by apply Hbeg. }
  intros _ s2 (HC2 & [L2 R2] & d & D2 & Hdh).
  eapply rc_mono; [apply (install_and_clear (contents P s) bs P (disk s) s2 env HC2); [apply header_same with s; [done|congruence]|done|by left|]|done|].
  2:{ intros a s3 (HC3 & [L3 R3] & Hc3). split; [done|]. split; [split; [congruence|exact (rest_trans _ _ _ R1 (rest_trans _ _ _ R2 R3))]|done]. }
  rewrite D2. split_and!.
  - by rewrite block_of_insert, decide_True.
  - intros k b Hk Hb. destruct (log_block_of _ _ _ Hy Hb) as (Hil & Hlt & _).
    rewrite block_of_insert, decide_False by lia. by apply Hlg.
  - intros c Hc _. rewrite block_of_insert, decide_False; [|by intros ->; apply Hc, in_log_start with bs].
    apply Ho1. unfold in_log in Hc. lia.
Qed.

(** ** Recovery *)

Record reading bs k s : Prop := {
  rd_dev : lg_dev (log s) = 1;
  rd_start : lg_start (log s) = L;
  rd_n : lh_n (log s) = Z.of_nat (length bs);
  rd_len : length (lh_block (log s)) = Z.to_nat LOGSIZE;
  rd_blocks : forall j b, (j < k)%nat -> bs !! j = Some b -> lh_block (log s) !! j = Some b;
}.

Lemma reading_header bs s : layout bs -> reading bs (length bs) s -> header bs s.
Proof using.
  intros Hy [H1 H2 H3 H4 H5]. constructor; [done|done|done| |done].
  apply list_eq. intros j. rewrite lookup_take. case_decide as Hj.
  - destruct (lookup_lt_is_Some_2 bs j Hj) as [b Hb]. by rewrite Hb, (H5 j b).
  - symmetry. apply lookup_ge_None. lia.
Qed.

Lemma reading_step bs k b s :
  layout bs -> bs !! k = Some b -> reading bs k s ->
  exists s', (forall env, lh_set (Z.of_nat k) b env s = Ok tt s' env) /\ reading bs (S k) s' /\
    s' = set_log (set_lh_block (<[k := b]> (lh_block (log s))) (log s)) s.
Proof using.
  intros Hy Hb [H1 H2 H3 H4 H5]. assert (k < length bs)%nat as Hk by (by eapply lookup_lt_Some).
  pose proof (ly_len _ Hy). destruct (ly_home _ Hy b) as [Hr _]; [by apply list_elem_of_lookup_2 in Hb|].
  pose proof (ly_log _ Hy). eexists. split_and!; [| |done].
  - intros env. unfold lh_set. rewrite (proj2 (Z.ltb_lt _ _)), Nat2Z.id, s32_small by lia. done.
  - constructor; cbn; try done; [by rewrite length_insert|]. intros j c Hj Hc.
    destruct (decide (j = k)) as [->|Hne].
    + rewrite list_lookup_insert_eq by lia. congruence.
    + rewrite list_lookup_insert_ne by done. apply H5; [lia|done].
Qed.

Lemma read_head_spec bs s env :
  Cache ∅ ∅ s -> header [] s -> layout bs -> hdr (block_of (disk s) 1 L) bs ->
  rc (crash (fun d => d = disk s)) env (read_head env s)
    (fun _ s' => Cache ∅ ∅ s' /\ header bs s' /\ disk s' = disk s).
Proof.
  intros HC Hh Hy [Hn Hb]. unfold read_head. pose proof (ly_len _ Hy).
  assert (0 <= LOGSIZE < 2147483648) by (unfold LOGSIZE, MAXOPBLOCKS; lia). pose proof (ly_log _ Hy).
  eapply rc_step; [apply (log_bread [] ∅ ∅ s 0 env Hh (layout_nil _ Hy) HC); [lia|apply not_held_empty|apply lookup_empty|]|done|].
  { eapply room_empty; [done|]. rewrite map_size_empty. unfold NBUF. lia. }
  rewrite Z.add_0_r. intros i s1 (_ & HC1 & (D1 & L1 & R1)).
  destruct (held_buf me mp size _ _ _ _ _ _ HC1 (lookup_insert_eq _ _ _)) as (x & _ & Hx & _ & _ & _ & _ & _ & _ & L6 & _).
  cbn [fst snd] in L6. rewrite (bind_get_buf _ _ _ _ _ Hx), L6. unfold mod_log. rewrite bind_modify, Hn, s32_small by lia.
  eapply rc_step; [apply (for_log_rc (fun _ => False) env _ (fun k s' => reading bs k s' /\
    Cache (<[i := (L, Some (block_of (disk s) 1 L))]> ∅) ∅ s' /\ disk s' = disk s) (length bs))|done|].
  - done.
  - intros k t [Hr _]. apply (rd_n _ _ _ Hr).
  - intros k t Hk (Hr & HCt & Dt). destruct (lookup_lt_is_Some_2 bs k Hk) as [b Hbk]. rewrite (Hb k b Hbk).
    destruct (reading_step bs k b t Hy Hbk Hr) as (t' & E & Hr' & Et). rewrite E. split; [|done].
    split; [done|]. rewrite Et. split; [by apply cache_log|done].
  - split; [|split; [by apply cache_log|done]].
    destruct Hh. constructor; cbn; rewrite ?L1; try done. intros j b Hj. lia.
  - intros _ s2 (Hr & HC2 & D2).
    eapply rc_mono; [apply (brelse_spec me mp size _ _ s2 i L (block_of (disk s) 1 L) env HC2); [apply lookup_insert_eq|right; by rewrite D2]|done|].
    intros _ s3 (HC3 & (D3 & L3 & R3)). rewrite delete_insert_id in HC3 by apply lookup_empty.
    split_and!; [done| |congruence]. apply header_same with s2; [by apply reading_header|done].
Qed.

Lemma crash_point_nil new d0 d : crash_point new [] d0 d -> begun d0 d.
Proof using.
  assert (forall c : Z, c ∉ []) as Hn by (intros c Hc; by apply elem_of_nil in Hc).
  intros [H|[(H1 & _ & H2)|(H1 & _ & H2)]]; [done| |]; (split; [done|]; intros c Hc; by apply H2).
Qed.

Lemma begun_committed new d0 d : begun d0 d -> committed new [] d0 d.
Proof using. intros [H1 H2]. split_and!; [done|intros k b Hk; cbn in Hk; lia|]. intros c Hc _. by apply H2. Qed.

Lemma begun_complete new bs d0 d d' : layout bs -> complete new bs d0 d -> begun d d' -> complete new bs d0 d'.
Proof using.
  intros Hy (H1 & H2 & H3) [H4 H5]. split_and!; [done| |].
  - intros c Hc. rewrite H5; [by apply H2|]. by apply (ly_home _ Hy).
  - intros c Hc Hcb. rewrite H5 by done. by apply H3.
Qed.

(** [recover_from_log] when the log is empty. *)
Lemma recover_empty bs d1 s env :
  Cache ∅ ∅ s -> header [] s -> layout bs -> begun d1 (disk s) ->
  rc (crash (begun d1)) env (recover_from_log env s) (fun _ s' => Cache ∅ ∅ s' /\ begun d1 (disk s')).
Proof.
  intros HC Hh Hy%layout_nil Hb. unfold recover_from_log.
  eapply rc_step; [apply (read_head_spec [] s env HC Hh Hy), Hb| |].
  { intros s' [Hm ->]. by split. }
  intros _ s1 (HC1 & Hh1 & D1). pose (new := fun _ : Z => @nil Z).
  eapply rc_mono; [apply (install_and_clear new [] ∅ d1 s1 env HC1 Hh1 Hy); [by right|]| |].
  - rewrite D1. by apply begun_committed.
  - intros s' [Hm Hc]. split; [done|]. by apply crash_point_nil with new.
  - intros _ s' (HC' & _ & Hc). split; [done|]. apply crash_point_nil with new. by right; right.
Qed.

(** [recover_from_log] on a disk left behind at any point. *)
Definition recovered new bs d0 d d' : Prop :=
  (begun d0 d /\ begun d0 d') \/
  ((committed new bs d0 d \/ complete new bs d0 d) /\ complete new bs d0 d').

Lemma recover_spec new bs d0 s env :
  Cache ∅ ∅ s -> header [] s -> layout bs -> crash_point new bs d0 (disk s) ->
  rc (crash (crash_point new bs d0)) env (recover_from_log env s)
    (fun _ s' => Cache ∅ ∅ s' /\ recovered new bs d0 (disk s) (disk s')).
Proof.
  intros HC Hh Hy [Hb|[Hc|Hc]].
  - eapply rc_mono; [by apply (recover_empty bs d0)| |].
    + intros s' [Hm Hd]. split; [done|]. by left.
    + intros _ s' [HC' Hd]. split; [done|]. by left.
  - unfold recover_from_log. eapply rc_step; [apply (read_head_spec bs s env HC Hh Hy), Hc| |].
    { intros s' [Hm ->]. split; [done|]. by right; left. }
    intros _ s1 (HC1 & Hh1 & D1).
    eapply rc_mono; [apply (install_and_clear new bs ∅ d0 s1 env HC1 Hh1 Hy); [by right|by rewrite D1]|done|].
    intros _ s' (HC' & _ & Hd). split; [done|]. right. split; [by left|done].
  - eapply rc_mono; [apply (recover_empty bs (disk s)); [done|done|done|by split; [apply Hc|]]| |].
    + intros s' [Hm Hd]. split; [done|]. right; right. by eapply begun_complete.
    + intros _ s' [HC' Hd]. split; [done|]. right. split; [by right|]. by eapply begun_complete.
Qed.

(** ** Recording a block *)

Definition add_block (b : Z) bs : list Z := if decide (b ∈ bs) then bs else bs ++ [b].

Definition counters l l' : Prop :=
  lg_size l' = lg_size l /\ lg_outstanding l' = lg_outstanding l /\ lg_committing l' = lg_committing l.

Lemma log_slot_spec bs s b :
  header bs s -> layout bs ->
  match bs !! Z.to_nat (log_slot (log s) b) with
  | Some c => c = b /\ log_slot (log s) b < Z.of_nat (length bs)
  | None => b ∉ bs /\ log_slot (log s) b = Z.of_nat (length bs)
  end.
Proof using.
  intros Hh Hy. unfold log_slot. rewrite (hd_n _ _ Hh), Nat2Z.id, (hd_blocks _ _ Hh).
  assert (forall c, c ∈ bs -> u32 c = c) as Hu.
  { intros c Hc. destruct (ly_home _ Hy c Hc) as [? _]. pose proof (ly_log _ Hy). apply u32_small. lia. }
  destruct (find_idx _ bs) as [i|] eqn:E.
  - apply find_idx_Some in E as [(x & Hx & Ex%Z.eqb_eq) _]. rewrite Nat2Z.id, Hx.
    rewrite Hu in Ex by (by apply list_elem_of_lookup_2 in Hx). split; [done|].
    apply lookup_lt_Some in Hx. lia.
  - rewrite Z.max_r, Nat2Z.id by lia. rewrite lookup_ge_None_2 by lia. split; [|done].
    intros [j Hj]%list_elem_of_lookup_1. pose proof (proj1 (find_idx_None _ _) E j b Hj) as Ef. cbn in Ef.
    rewrite Hu, Z.eqb_refl in Ef by (by apply list_elem_of_lookup_2 in Hj). done.
Qed.

(** The header with the block recorded. *)
Definition recorded (b : Z) (l : logst) : logst :=
  let k := log_slot l b in
  let l1 := set_lh_block (<[Z.to_nat k := s32 b]> (lh_block l)) l in
  if k =? lh_n l then set_lh_n (lh_n l + 1) l1 else l1.

Lemma recorded_header bs s b :
  header bs s -> layout bs -> (length bs < Z.to_nat LOGSIZE)%nat -> 0 <= b < size ->
  header (add_block b bs) (set_log (recorded b (log s)) s) /\ counters (log s) (recorded b (log s)).
Proof using.
  intros Hh Hy Hlen Hb. pose proof (ly_log _ Hy). pose proof (log_slot_spec bs s b Hh Hy) as Hk.
  unfold recorded. rewrite (s32_small b), (hd_n _ _ Hh) by lia. unfold add_block.
  destruct Hh as [H1 H2 H3 H4 H5]. destruct (bs !! Z.to_nat (log_slot (log s) b)) as [c|] eqn:E.
  - destruct Hk as [-> Hk]. rewrite (proj2 (Z.eqb_neq _ _)) by lia. split; [|done].
    rewrite decide_True by (by apply list_elem_of_lookup_2 in E). constructor; cbn; try done; [|by rewrite length_insert].
    rewrite <- H4 in E. rewrite lookup_take in E. case_decide; [|done]. by rewrite list_insert_id.
  - destruct Hk as [Hn ->]. rewrite Z.eqb_refl, Nat2Z.id. split; [|done]. rewrite decide_False by done.
    constructor; cbn; [done|done|rewrite length_app; cbn; lia| |by rewrite length_insert].
    rewrite length_app, Nat.add_1_r.
    rewrite (take_S_r _ _ b) by (apply list_lookup_insert_eq; lia).
    rewrite take_insert_ge by lia. by rewrite H4.
Qed.

(** Pinning a locked buffer. *)
Lemma pin_spec H P s i b d x l :
  Cache H P s -> H !! i = Some (b, Some d) -> bcache s !! i = Some x ->
  Cache H (<[b := d]> P)
    (set_bcache (<[i := set_b_flags (Z.lor (b_flags x) B_DIRTY) x]> (bcache s)) (set_log l s)).
Proof using.
  intros HC Hi Hx.
  destruct (held_buf me mp size _ _ _ _ _ _ HC Hi) as (y & Hlt & Hy & HB & L1 & L2 & L3 & L4 & L5 & L6 & L7).
  rewrite Hx in Hy. injection Hy as <-. cbn [fst snd] in *. set (x' := set_b_flags _ x).
  assert (b_flags x' = Z.lor B_VALID B_DIRTY) as Hf.
  { cbn. pose proof (bo_flags _ _ _ _ _ _ _ HB) as [E|[E|E]]; rewrite E; [|done|done].
    unfold is_valid in L7. by rewrite E in L7. }
  rewrite <- (insert_id H i _ Hi).
  eapply held_change with (x := x) (x' := x') (od := Some d); try done.
  - by destruct (ca_calm _ _ _ _ _ _ HC).
  - intros c Hc. by rewrite lookup_insert_ne.
  - apply (ca_disk _ _ _ _ _ _ HC).
  - rewrite Hf. by right; right.
  - apply (bo_len _ _ _ _ _ _ _ HB).
  - rewrite lookup_insert_eq. unfold is_dirty. rewrite Hf. cbn. by rewrite L6.
  - split; [done|]. unfold is_valid. by rewrite Hf.
Qed.

Lemma log_write_spec bs H P s i b d env :
  Cache H P s -> H !! i = Some (b, Some d) -> header bs s -> layout bs ->
  (length bs < Z.to_nat LOGSIZE)%nat -> Z.of_nat (length bs) < lg_size (log s) - 1 -> 1 <= lg_outstanding (log s) ->
  0 <= b < size ->
  rc (fun _ => False) env (log_write i env s)
    (fun _ s' => Cache H (<[b := d]> P) s' /\ header (add_block b bs) s' /\ disk s' = disk s /\ counters (log s) (log s') /\ rest s s').
Proof using.
  intros HC Hi Hh Hy Hlen Hsz Hout Hb. unfold log_write. rewrite bind_gets.
  pose proof (ca_calm _ _ _ _ _ _ HC) as [C1 C2 C3 C4 C5].
  destruct (held_buf me mp size _ _ _ _ _ _ HC Hi) as (x & Hlt & Hx & HB & L1 & L2 & L3 & L4 & L5 & L6 & L7). cbn [fst snd] in *.
  rewrite (proj2 (Z.leb_gt LOGSIZE _)), (proj2 (Z.leb_gt (lg_size _ - 1) _)) by (rewrite (hd_n _ _ Hh); lia). cbn [orb].
  rewrite (proj2 (Z.ltb_ge _ _)) by lia.
  assert (locks s !! LLog = None) as Hl by (by rewrite C1).
  rewrite (bind_ok _ _ _ _ _ _ _ (acquire_free LLog env s Hl)).
  erewrite bind_get_buf by exact Hx. rewrite bind_gets. cbn [log acquired set_locks set_kcpu].
  destruct (recorded_header bs s b Hh Hy Hlen Hb) as [Hh' Hct].
  pose proof (log_slot_spec bs s b Hh Hy) as Hk.
  assert (log_slot (log s) b < LOGSIZE) as Hkl by (destruct (bs !! _); lia).
  unfold lh_set. rewrite L4, (proj2 (Z.ltb_lt _ _)) by done. unfold mod_log, mod_buf.
  set (s2 := set_bcache (<[i := set_b_flags (Z.lor (b_flags x) B_DIRTY) x]> (bcache s)) (set_log (recorded b (log s)) s)).
  eapply rc_ok with (s := s2).
  - rewrite bind_modify. unfold when. destruct (_ =? _) eqn:Ek; rewrite ?bind_modify, ?bind_ret, ?bind_modify;
      cbn [bcache set_log acquired set_locks set_kcpu log]; rewrite (upd_insert _ _ _ _ Hx);
      (erewrite (release_crit LLog env s _ Hl C4) by reflexivity); f_equal;
      unfold s2, recorded; rewrite Ek, C5; by destruct s.
  - split; [by apply pin_spec|]. split; [by apply header_same with (set_log (recorded b (log s)) s)|]. by repeat split; try apply Hct.
Qed.

(** ** A transaction

    The file system changes a block by reading it, changing the buffer,
    [log_write] and [brelse]; [w] is the block and the change. *)

Definition update (w : Z * (list Z -> list Z)) : M unit :=
  let! i := bread 1 (fst w) in
  mod_buf i (fun x => set_b_data (snd w (b_data x)) x) ;;
  log_write i ;;
  brelse i.
Definition transaction (ws : list (Z * (list Z -> list Z))) : M unit :=
  begin_op ;; for_each ws update ;; end_op.

(** What the updates mean. *)
Definition apply1 (D : Z -> list Z) (w : Z * (list Z -> list Z)) : Z -> list Z :=
  fun c => if decide (c = fst w) then snd w (D c) else D c.
Definition apply_all (ws : list (Z * (list Z -> list Z))) (D : Z -> list Z) : Z -> list Z := foldl apply1 D ws.

Definition update_ok (w : Z * (list Z -> list Z)) : Prop :=
  0 <= fst w < size /\ ~ in_log (fst w) /\
  forall d, length d = Z.to_nat BSIZE -> length (snd w d) = Z.to_nat BSIZE.

(** In a transaction that started on the disk [d0], the blocks [bs] have
    been recorded, and the contents of the blocks are [D]. *)
Record in_txn d0 bs (D : Z -> list Z) s : Prop := {
  it_cache : exists P, Cache ∅ P s /\ pins bs P /\ forall c, contents P s c = D c;
  it_header : header bs s;
  it_layout : layout bs;
  it_disk : disk s = d0;
  it_size : lg_size (log s) = nlog;
  it_count : lg_outstanding (log s) = 1 /\ lg_committing (log s) = false;
}.

Lemma pins_size bs P : (forall b, is_Some (P !! b) <-> b ∈ bs) -> (base.size P <= length bs)%nat.
Proof using.
  intros Hp. rewrite size_elements. apply submseteq_length, NoDup_submseteq; [apply NoDup_elements|].
  intros b Hb%elem_of_elements%elem_of_dom. by apply Hp.
Qed.

Lemma length_add_block b bs : (length (add_block b bs) <= S (length bs))%nat.
Proof using. unfold add_block. case_decide; [lia|]. rewrite length_app. cbn. lia. Qed.

Lemma elem_of_add_block b bs c : c ∈ add_block b bs <-> c = b \/ c ∈ bs.
Proof using.
  unfold add_block. case_decide as Hb; [split; [by right|by intros [-> |?]]|]. rewrite elem_of_app, list_elem_of_singleton. tauto.
Qed.

Lemma layout_add b bs :
  layout bs -> 0 <= b < size -> ~ in_log b -> (length bs < Z.to_nat LOGSIZE)%nat -> Z.of_nat (length bs) + 1 < nlog ->
  layout (add_block b bs).
Proof using.
  intros [H1 H2 H3 H4 H5] Hb Hl Hn Hf. pose proof (length_add_block b bs). constructor; [done| | |lia|lia].
  - unfold add_block. case_decide as Hin; [done|]. apply NoDup_app. split_and!; [done| |apply NoDup_singleton].
    intros c Hc ->%list_elem_of_singleton. done.
  - intros c [->|Hc]%elem_of_add_block; [done|by apply H3].
Qed.

Lemma pins_add b d bs P :
  pins bs P -> (length bs < Z.to_nat LOGSIZE - 1)%nat -> pins (add_block b bs) (<[b := d]> P).
Proof using.
  intros [H1 _] Hlen. assert (forall c, is_Some (<[b := d]> P !! c) <-> c ∈ add_block b bs) as Hp.
  { intros c. rewrite lookup_insert_is_Some', elem_of_add_block, H1. intuition congruence. }
  split; [done|]. apply pins_size in Hp. pose proof (length_add_block b bs).
  unfold LOGSIZE, MAXOPBLOCKS, NBUF in *. lia.
Qed.

Lemma update_spec d0 bs D s w env :
  in_txn d0 bs D s -> update_ok w -> (length bs < Z.to_nat LOGSIZE - 1)%nat -> Z.of_nat (length bs) + 1 < nlog ->
  rc (crash (fun d => d = d0)) env (update w env s) (fun _ s' => in_txn d0 (add_block (fst w) bs) (apply1 D w) s').
Proof.
  intros [(P & HC & Hp & HD) Hh Hy Hdk Hsz [Ho Hcm]] (Hb & Hnl & Hf) Hlen Hfit. unfold update.
  eapply rc_step; [apply (bread_spec me mp size ∅ P s (fst w) env HC Hb (not_held_empty _))| |].
  { left. apply (room_empty P); [done|apply Hp]. }
  { intros s' [Hm E]. split; [done|congruence]. }
  intros i s1 (_ & HC1 & (D1 & L1 & R1)). unfold mod_buf. rewrite bind_modify. rewrite HD in HC1.
  assert (length (D (fst w)) = Z.to_nat BSIZE) as HlD.
  { destruct (held_buf me mp size _ _ _ _ _ _ HC1 (lookup_insert_eq _ _ _)) as (x & _ & _ & HB & _ & _ & _ & _ & _ & L6 & _).
    cbn [fst snd] in L6. rewrite <- L6. apply (bo_len _ _ _ _ _ _ _ HB). }
  eassert (Cache _ _ _) as HC2.
  { apply (set_data_spec me mp size _ P s1 i (fst w) _ (snd w (D (fst w)))
      (fun x => set_b_data (snd w (b_data x)) x) HC1 (lookup_insert_eq _ _ _)); [by intros x <-|by apply Hf]. }
  rewrite insert_insert_eq in HC2. set (s2 := set_bcache _ s1) in *.
  assert (log s2 = log s) as L2 by done.
  eapply rc_step; [apply (log_write_spec bs _ _ s2 i _ _ env HC2 (lookup_insert_eq _ _ _)); rewrite ?L2; try done|done|].
  { by apply header_same with s. } { lia. } { lia. } { lia. }
  intros _ s3 (HC3 & Hh3 & D3 & Hct & _). rewrite L2 in Hct. destruct Hct as (Ct1 & Ct2 & Ct3).
  eapply rc_mono; [apply (brelse_spec me mp size _ _ s3 i _ _ env HC3 (lookup_insert_eq _ _ _))|done|].
  { left. by rewrite lookup_insert_eq. }
  intros _ s4 (HC4 & (D4 & L4 & R4)). rewrite delete_insert_id in HC4 by apply lookup_empty.
  assert (disk s4 = disk s) as D5 by (rewrite D4, D3; done).
  constructor; [|by apply header_same with s3|apply layout_add; [done|done|done|lia|done]|congruence|congruence|].
  - exists (<[fst w := snd w (D (fst w))]> P). split_and!.
    + assert (<[fst w := snd w (D (fst w))]> (alter (fun _ => snd w (D (fst w))) (fst w) P) =
        <[fst w := snd w (D (fst w))]> P) as <-; [|done].
      apply map_eq. intros c. destruct (decide (c = fst w)) as [->|Hc]; [by rewrite !lookup_insert_eq|].
      by rewrite !lookup_insert_ne, lookup_alter_ne by done.
    + by apply pins_add.
    + intros c. unfold contents, apply1. case_decide as Hc; [subst c; by rewrite lookup_insert_eq|].
      rewrite lookup_insert_ne by done. rewrite D5. apply HD.
  - rewrite L4. split; congruence.
Qed.

Lemma updates_spec d0 ws : forall bs D s env,
  in_txn d0 bs D s -> Forall update_ok ws ->
  (length bs + length ws < Z.to_nat LOGSIZE)%nat -> Z.of_nat (length bs + length ws) < nlog ->
  rc (crash (fun d => d = d0)) env (for_each ws update env s)
    (fun _ s' => exists bs', in_txn d0 bs' (apply_all ws D) s').
Proof.
  induction ws as [|w ws IH]; intros bs D s env Ht Hws Hn Hf; cbn [for_each apply_all foldl].
  { split; [by exists bs|done]. }
  apply Forall_cons in Hws as [Hw Hws]. cbn [length] in *.
  eapply rc_step; [apply (update_spec d0 bs D s w env Ht Hw); [lia|lia]|done|].
  intros a s1 Ht1. pose proof (length_add_block (fst w) bs). eapply IH; [exact Ht1|done|lia|lia].
Qed.

(** Between transactions. *)
Record idle s : Prop := {
  id_cache : Cache ∅ ∅ s;
  id_header : header [] s;
  id_log : hdr (block_of (disk s) 1 L) [];
  id_layout : layout [];
  id_size : lg_size (log s) = nlog;
  id_count : lg_outstanding (log s) = 0 /\ lg_committing (log s) = false;
}.

Lemma begin_op_spec s env :
  idle s -> rc (fun _ => False) env (begin_op env s) (fun _ s' => in_txn (disk s) [] (block_of (disk s) 1) s' /\ rest s s').
Proof using.
  intros [HC Hh Hd Hy Hsz [Ho Hcm]]. pose proof (ca_calm _ _ _ _ _ _ HC) as [C1 C2 C3 C4 C5].
  assert (locks s !! LLog = None) as Hl by (by rewrite C1).
  set (l' := set_lg_outstanding (lg_outstanding (log s) + 1) (log s)).
  apply rc_ok with (a := tt) (s := set_log l' s).
  - unfold begin_op. rewrite (bind_ok _ _ _ _ _ _ _ (acquire_free LLog env s Hl)). unfold wait_loop. cbn [loop_n].
    rewrite bind_assoc, bind_gets. cbn [log acquired set_locks set_kcpu]. rewrite Hcm, (hd_n _ _ Hh), Ho. cbn [length].
    change (LOGSIZE <? Z.of_nat 0 + (0 + 1) * MAXOPBLOCKS) with false. cbv iota. unfold mod_log.
    rewrite !bind_assoc, bind_modify, bind_assoc. crit_release LLog s Hl C4. cbn. rewrite C5. by destruct s.
  - split; [|by repeat split]. constructor; cbn; [|by destruct Hh|done|done|done|by rewrite Ho].
    exists ∅. split_and!; [by apply cache_log| |done]. split.
    + intros b. rewrite lookup_empty. split; [by intros [? ?]|]. intros Hb. by apply elem_of_nil in Hb.
    + rewrite map_size_empty. unfold NBUF. lia.
Qed.

Lemma complete_ext new new' bs d0 d :
  (forall c, new c = new' c) -> complete new bs d0 d -> complete new' bs d0 d.
Proof using. intros E (H1 & H2 & H3). split_and!; [done| |done]. intros c Hc. rewrite <- E. by apply H2. Qed.

Lemma crash_point_ext new new' bs d0 d :
  (forall c, new c = new' c) -> crash_point new bs d0 d -> crash_point new' bs d0 d.
Proof using.
  intros E [H|[(H1 & H2 & H3)|H]]; [by left| |right; right; by eapply complete_ext]. right; left. split_and!; [done| |done].
  intros k b Hk Hb. rewrite <- E. by apply H2.
Qed.

(** The last lines of [end_op]. *)
Lemma end_commit_run s env :
  Cache ∅ ∅ s ->
  exists s', (acquire LLog ;; mod_log (set_lg_committing false) ;; wakeup CLog ;; release LLog) env s = Ok tt s' env /\
    disk s' = disk s /\ log s' = set_lg_committing false (log s) /\ rest s s' /\ Cache ∅ ∅ s'.
Proof using.
  intros HC. pose proof (ca_calm _ _ _ _ _ _ HC) as [C1 C2 C3 C4 C5].
  rewrite (bind_ok _ _ _ _ _ _ _ (acquire_free LLog env s (unlocked _ _ _ _ _ _ LLog HC))).
  unfold mod_log. rewrite bind_modify.
  assert (locks (acquired LLog s) !! LPtable = None) as Hp by (cbn; by rewrite lookup_insert_ne, C1).
  erewrite bind_ok by (apply wakeup_run; [exact Hp|by apply wf_pushed]). cbn [kcpu acquired set_locks set_kcpu set_log procs]. rewrite crit_pushed by done.
  erewrite (release_crit LLog env s _ (unlocked _ _ _ _ _ _ LLog HC) C4) by reflexivity.
  eexists. split; [done|]. split; [done|]. split; [done|]. split.
  - by repeat split.
  - apply (cache_frame me mp size ∅ ∅ s); try done. constructor; cbn [locks kcpu set_locks set_kcpu]; rewrite ?C5; try done.
    split; [apply C2|]. apply (wake_running me mp). by constructor.
Qed.

Lemma end_op_spec d0 bs D s env :
  in_txn d0 bs D s -> hdr (block_of d0 1 L) [] ->
  rc (crash (crash_point D bs d0)) env (end_op env s) (fun _ s' => complete D bs d0 (disk s') /\ idle s' /\ rest s s').
Proof.
  intros [(P & HC & Hp & HD) Hh Hy Hdk Hsz [Ho Hcm]] Hd. pose proof (ca_calm _ _ _ _ _ _ HC) as [C1 C2 C3 C4 C5].
  assert (locks s !! LLog = None) as Hl by (by rewrite C1). unfold end_op.
  rewrite (bind_ok _ _ _ _ _ _ _ (acquire_free LLog env s Hl)). unfold mod_log at 1.
  rewrite bind_modify, bind_gets. cbn [log acquired set_locks set_kcpu set_log lg_committing set_lg_outstanding lg_outstanding].
  rewrite Hcm, Ho. change (1 - 1 =? 0) with true. cbv iota. unfold mod_log at 1. rewrite bind_modify.
  crit_release LLog s Hl C4. cbn [when].
  set (l' := set_lg_committing true (set_lg_outstanding 0 (log s))).
  set (t := set_locks _ _). assert (t = set_log l' s) as -> by (unfold t, l'; cbn; rewrite C5; by destruct s).
  assert (forall c, contents P (set_log l' s) c = D c) as HD' by done.
  eapply rc_step; [apply (commit_spec bs P (set_log l' s) env)| |].
  - by apply cache_log.
  - by destruct Hh.
  - done.
  - done.
  - cbn. by rewrite Hdk.
  - cbn [disk set_log]. intros s' [Hm Hcp]. split; [done|]. rewrite Hdk in Hcp. by eapply crash_point_ext.
  - intros _ s1 (HC1 & [L1 R1] & Hc). destruct (end_commit_run s1 env HC1) as (s2 & E & D2 & L2 & R2 & HC2). rewrite E. split; [|done].
    cbn [disk set_log] in Hc. rewrite Hdk in Hc. cbn [log set_log] in L1. rewrite L1 in L2.
    split; [rewrite D2; by eapply complete_ext|]. split; [|exact (rest_trans _ _ _ R1 R2)].
    split; rewrite ?L2; try done; [|rewrite D2; apply Hc|by eapply layout_nil]. destruct Hh. by constructor; rewrite ?L2.
Qed.
End Logsafe.
