(* ===== verification/Crash.v ===== *)
(** * A transaction happens entirely or not at all

    The start of the buffer cache, and the main theorem about bio.c and
    log.c: whenever the power fails during a transaction, and however often
    it fails again during recovery, the disk ends up as before the
    transaction or as after it. *)

From stdpp Require Import base numbers list gmap strings.
From S2P Require Import Prelude Kernel Spinlock Sched Sleeplock Kalloc Umem Buf Memide Ring Bio Bcache Log Logsafe.

(** ** [binit] *)

(** One turn of its loop. *)
Lemma binit_turn i env s :
  (i < NBUF)%nat -> length (bcache s) = S NBUF ->
  (link_first i ;; initsleeplock (SLbuf i) ;; relink_head i) env s =
  Ok tt (set_bcache (to_front i (bcache s)) (set_slocks (delete (SLbuf i) (slocks s))
    (set_locks (delete (LSleep (SLbuf i)) (locks s)) s))) env.
Proof.
  intros Hi Hlen. destruct (lookup_lt_is_Some_2 (bcache s) HEAD ltac:(unfold HEAD; lia)) as [h Hh].
  unfold link_first, initsleeplock, initlock, mod_buf.
  rewrite bind_assoc, (bind_get_buf _ _ _ _ _ Hh), bind_assoc, !bind_modify, bind_assoc, !bind_modify.
  cbn [bcache set_bcache slocks locks set_locks].
  assert (b_next h = linked b_next (bcache s) HEAD) as -> by (unfold linked; by rewrite Hh).
  unfold to_front. set (bs1 := upd i (set_b_prev HEAD) _).
  assert (length bs1 = S NBUF) as Hb1 by (unfold bs1; by rewrite !length_upd).
  destruct (lookup_lt_is_Some_2 bs1 HEAD ltac:(unfold HEAD; lia)) as [h1 Hh1].
  unfold relink_head. erewrite bind_get_buf by exact Hh1.
  assert (b_next h1 = linked b_next bs1 HEAD) as -> by (unfold linked; by rewrite Hh1). done.
Qed.

Lemma binit_loop l : forall env s,
  (forall i, i ∈ l -> (i < NBUF)%nat) -> length (bcache s) = S NBUF -> locks s = ∅ ->
  for_each l (fun i => link_first i ;; initsleeplock (SLbuf i) ;; relink_head i) env s =
    Ok tt (set_bcache (foldl (fun bs i => to_front i bs) (bcache s) l)
      (set_slocks (foldl (fun m i => delete (SLbuf i) m) (slocks s) l) s)) env.
Proof.
  induction l as [|i l IH]; intros env s Hl Hlen Hlk; cbn [for_each foldl].
  { unfold ret. f_equal. by destruct s. }
  rewrite (bind_ok _ _ _ _ _ _ _ (binit_turn i env s ltac:(apply Hl; by left) Hlen)).
  rewrite Hlk, delete_empty. rewrite IH.
  - cbn. f_equal. rewrite <- Hlk. by destruct s.
  - intros j Hj. apply Hl. by right.
  - change (length (to_front i (bcache s)) = S NBUF). unfold to_front. by rewrite !length_upd.
  - done.
Qed.

Lemma binit_run env s :
  locks s = ∅ -> length (bcache s) = S NBUF ->
  binit env s =
    Ok tt (set_bcache (foldl (fun bs i => to_front i bs)
        (upd HEAD (set_b_next HEAD) (upd HEAD (set_b_prev HEAD) (bcache s))) (seq 0 NBUF))
      (set_slocks (foldl (fun m i => delete (SLbuf i) m) (slocks s) (seq 0 NBUF)) s)) env.
Proof.
  intros Hl Hlen. unfold binit, initlock, mod_buf.
  assert (forall i, i ∈ seq 0 NBUF -> (i < NBUF)%nat) as Hs by (intros i Hi%elem_of_seq; lia).
  revert Hs. generalize (seq 0 NBUF). intros l Hs. rewrite !bind_modify.
  rewrite Hl, delete_empty, binit_loop; [|done|cbn [bcache set_bcache]; by rewrite !length_upd|done].
  f_equal. rewrite <- Hl. by destruct s.
Qed.

(** The buffers after [binit], when they were zero. *)
Definition bufs_boot : list buf :=
  foldl (fun bs i => to_front i bs)
    (upd HEAD (set_b_next HEAD) (upd HEAD (set_b_prev HEAD) (replicate (S NBUF) buf_zero))) (seq 0 NBUF).

Lemma bufs_boot_ring : ring bufs_boot (reverse (seq 0 NBUF)).
Proof.
  constructor; [reflexivity|apply reverse_Permutation| |]; vm_compute; repeat split.
Qed.

Lemma bufs_boot_idle i x : bufs_boot !! i = Some x -> core x = core buf_zero.
Proof.
  intros Hx. assert (core <$> bufs_boot = replicate (S NBUF) (core buf_zero)) as E by reflexivity.
  assert ((core <$> bufs_boot) !! i = Some (core x)) as Hc by (by rewrite list_lookup_fmap, Hx).
  rewrite E in Hc. by apply lookup_replicate in Hc as [-> _].
Qed.

(** [binit] makes an empty cache. *)
Definition after_binit (s : kst) : kst := set_bcache bufs_boot s.

Lemma after_binit_run env s :
  locks s = ∅ -> bcache s = replicate (S NBUF) buf_zero -> slocks s = ∅ ->
  binit env s = Ok tt (after_binit s) env.
Proof.
  intros Hl Hb Hs. rewrite binit_run by (done || by rewrite Hb). unfold after_binit, bufs_boot. rewrite Hb, Hs.
  assert (forall l, foldl (fun m i => delete (SLbuf i) m) (∅ : gmap slid Z) l = ∅) as ->.
  { intros l. induction l as [|j l IH]; cbn; [done|]. by rewrite delete_empty. }
  f_equal. f_equal. rewrite <- Hs. by destruct s.
Qed.

Lemma after_binit_cache me mp size s :
  calm me mp s -> slocks s = ∅ -> (forall b, length (block_of (disk s) 1 b) = Z.to_nat BSIZE) ->
  Cache me mp size ∅ ∅ (after_binit s).
Proof.
  intros Hc Hs Hd. unfold after_binit. pose proof bufs_boot_ring as Hr. pose proof bufs_boot_idle as Hi.
  revert Hr Hi. generalize bufs_boot. intros bs Hr Hi.
  constructor; cbn [bcache set_bcache slocks disk]; [by destruct Hc|by eexists| | | | |done].
  - intros i j x y _ _ Hx _ Dx. apply Hi, core_inj in Hx as (_ & Hx & _). rewrite Hx in Dx. done.
  - intros i x _ Hx%Hi. apply (buf_ok_core _ _ _ _ _ _ _ _ Hx). constructor; [|by left|reflexivity|done].
    by rewrite lookup_empty, Hs.
  - intros b d. by rewrite lookup_empty.
  - intros i v. by rewrite lookup_empty.
Qed.

(** ** Reboots *)

Section Crash.
Context (size L nlog : Z).
Notation diskmap := (gmap (Z * Z) (list Z)).

(** What [recover_from_log] finds: an empty cache, and the header of the log
    in memory as [initlog] leaves it. *)
Definition booted (s : kst) : Prop := exists me mp, Cache me mp size ∅ ∅ s /\ header L [] s.

(** The disks that recoveries leave which were cut short. *)
Inductive interrupted (d0 : diskmap) : diskmap -> Prop :=
| no_recovery : interrupted d0 d0
| cut_short (fails : kst -> bool) s s' env :
    interrupted d0 (disk s) -> booted s ->
    @recover_from_log (failing fails (memide_driver size)) env s = Blocked WHalt s' ->
    interrupted d0 (disk s').

(** The recovery that is not cut short returns, and leaves a disk with [Q]. *)
Definition survives (Q : diskmap -> Prop) (d0 : diskmap) : Prop :=
  forall d s env, interrupted d0 d -> booted s -> disk s = d ->
  exists s', @recover_from_log (memide_driver size) env s = Ok tt s' env /\ Q (disk s').

Lemma interrupted_inv (I : diskmap -> Prop) d0 d :
  (forall fails s s' env, booted s -> I (disk s) ->
     @recover_from_log (failing fails (memide_driver size)) env s = Blocked WHalt s' -> I (disk s')) ->
  I d0 -> interrupted d0 d -> I d.
Proof using. intros HI H0 Hd. induction Hd as [|fails s s' env Hd IH Hb E]; [done|]. by eapply HI. Qed.

Context (new : Z -> list Z) (bs : list Z) (d0 : diskmap) (Hy : layout size L nlog bs).

Lemma crash_point_kept fails s s' env :
  booted s -> crash_point L nlog new bs d0 (disk s) ->
  @recover_from_log (failing fails (memide_driver size)) env s = Blocked WHalt s' ->
  crash_point L nlog new bs d0 (disk s').
Proof using Hy.
  intros (me & mp & HC & Hh) Hcp E.
  pose proof (@recover_spec (failing fails (memide_driver size)) me mp size L nlog True (failing_sync fails size)
    new bs d0 s env HC Hh Hy Hcp) as Hr.
  rewrite E in Hr. apply Hr.
Qed.

Lemma complete_kept fails s s' env :
  booted s -> complete L nlog new bs d0 (disk s) ->
  @recover_from_log (failing fails (memide_driver size)) env s = Blocked WHalt s' ->
  complete L nlog new bs d0 (disk s').
Proof using Hy.
  intros (me & mp & HC & Hh) Hc E.
  pose proof (@recover_empty (failing fails (memide_driver size)) me mp size L nlog True (failing_sync fails size)
    bs (disk s) s env HC Hh Hy ltac:(by split; [apply Hc|])) as Hr.
  rewrite E in Hr. eapply begun_complete; [done|done|apply Hr].
Qed.

Lemma recovery_returns s env :
  booted s -> crash_point L nlog new bs d0 (disk s) ->
  exists s', @recover_from_log (memide_driver size) env s = Ok tt s' env /\
    recovered L nlog new bs d0 (disk s) (disk s').
Proof using Hy.
  intros (me & mp & HC & Hh) Hcp.
  pose proof (@recover_spec (memide_driver size) me mp size L nlog False (memide_sync size)
    new bs d0 s env HC Hh Hy Hcp) as Hr.
  destruct (recover_from_log env s) as [[] s' e| |[]]; cbn in Hr; try done; [|by destruct Hr].
  destruct Hr as [[_ Hr] ->]. by exists s'.
Qed.

Lemma survives_crash (Q : diskmap -> Prop) d :
  (forall d', begun L nlog d0 d' -> Q d') -> (forall d', complete L nlog new bs d0 d' -> Q d') ->
  crash_point L nlog new bs d0 d -> survives Q d.
Proof using Hy.
  intros Hb Hc Hcp d1 s env Hi Hbt Hd. assert (crash_point L nlog new bs d0 d1) as Hcp1.
  { eapply interrupted_inv; [|exact Hcp|exact Hi]. intros. by eapply crash_point_kept. }
  subst d1. destruct (recovery_returns s env Hbt Hcp1) as (s' & E & [[_ Hr]|[_ Hr]]); exists s'; auto.
Qed.

Lemma survives_complete (Q : diskmap -> Prop) d :
  (forall d', complete L nlog new bs d0 d' -> Q d') -> complete L nlog new bs d0 d -> survives Q d.
Proof using Hy.
  intros HQ Hc d1 s env Hi Hbt Hd. assert (complete L nlog new bs d0 d1) as Hc1.
  { eapply interrupted_inv; [|exact Hc|exact Hi]. intros. by eapply complete_kept. }
  subst d1. destruct Hbt as (me & mp & HC & Hh).
  pose proof (@recover_empty (memide_driver size) me mp size L nlog False (memide_sync size)
    bs (disk s) s env HC Hh Hy ltac:(by split; [apply Hc1|])) as Hr.
  destruct (recover_from_log env s) as [[] s' e| |[]]; cbn in Hr; try done; [|by destruct Hr].
  destruct Hr as [[_ Hr] ->]. exists s'. split; [done|]. apply HQ. by eapply begun_complete.
Qed.
End Crash.

(** ** The theorem *)

Section Atomic.
Context {DR : Driver} (me : nat) (mp : proc) (size L nlog : Z) {may : Prop} {SD : SyncDisk size may}.

(** Some blocks were recorded, and the transaction's effect is confined to
    them. *)
Definition confined (D : Z -> list Z) (d0 : gmap (Z * Z) (list Z)) (bs : list Z) : Prop :=
  layout size L nlog bs /\ forall c, c ∉ bs -> D c = block_of d0 1 c.

Lemma in_txn_confined d0 bs D s : in_txn me mp size L nlog d0 bs D s -> confined D d0 bs.
Proof using.
  intros [(P & _ & Hp & HD) _ Hy Hd _ _]. split; [done|]. intros c Hc. rewrite <- HD. unfold contents.
  destruct (P !! c) eqn:E; [|by rewrite Hd]. destruct Hc. apply Hp. by rewrite E.
Qed.

Lemma confined_complete D d0 bs d c :
  confined D d0 bs -> complete L nlog D bs d0 d -> ~ in_log L nlog c -> block_of d 1 c = D c.
Proof using.
  intros [Hy Hc] (_ & H2 & H3) Hl. destruct (decide (c ∈ bs)) as [Hin|Hin]; [by apply H2|].
  rewrite Hc by done. by apply H3.
Qed.

(** Where the power may fail. *)
Definition cut (D : Z -> list Z) (d0 d : gmap (Z * Z) (list Z)) : Prop :=
  begun L nlog d0 d \/ exists bs, confined D d0 bs /\ crash_point L nlog D bs d0 d.

Lemma transaction_run s ws env :
  idle me mp size L nlog s -> Forall (update_ok size L nlog) ws ->
  (length ws < Z.to_nat LOGSIZE)%nat -> Z.of_nat (length ws) < nlog ->
  let D := apply_all ws (block_of (disk s) 1) in
  rc (fun s' => cut D (disk s) (disk s')) env (transaction ws env s)
    (fun _ s' => exists bs, confined D (disk s) bs /\ complete L nlog D bs (disk s) (disk s')).
Proof.
  intros Hi Hws Hn Hf D. unfold transaction. pose proof (id_log _ _ _ _ _ _ Hi) as Hd.
  eapply rc_step; [apply (begin_op_spec me mp size L nlog s env Hi)|done|]. intros a s1 [Ht1 _].
  eapply rc_step; [apply (updates_spec me mp size L nlog (disk s) ws [] _ s1 env Ht1 Hws); [done|done]| |].
  { intros s' [_ ->]. by left. }
  intros b s2 [bs Ht2]. pose proof (in_txn_confined _ _ _ _ Ht2) as Hc.
  eapply rc_mono; [apply (end_op_spec me mp size L nlog (disk s) bs D s2 env Ht2 Hd)| |].
  - intros s' [_ Hcp]. right. by exists bs.
  - intros c s' [Hcm _]. by exists bs.
Qed.
End Atomic.

Lemma survives_cut (size L nlog : Z) (D : Z -> list Z) (d0 d : gmap (Z * Z) (list Z)) (Q : gmap (Z * Z) (list Z) -> Prop) :
  layout size L nlog [] -> cut size L nlog D d0 d ->
  (forall d', begun L nlog d0 d' -> Q d') ->
  (forall bs d', confined size L nlog D d0 bs -> complete L nlog D bs d0 d' -> Q d') -> survives size L Q d.
Proof.
  intros Hy Hc HQ1 HQ2. destruct Hc as [Hb|(bs & Hcf & Hcp)].
  - apply (survives_crash size L nlog D [] d0 Hy); [done| |by left].
    intros d' Hd'. apply HQ1, crash_point_nil with D. by right; right.
  - apply (survives_crash size L nlog D bs d0 (proj1 Hcf)); [done| |done]. intros d' Hd'. by apply (HQ2 bs).
Qed.

(** A run that does one transaction, which makes the blocks satisfy [Q]:
    what is left of it at a power failure, and the disk in the end. *)
Definition cut_with (size L nlog : Z) (Q : (Z -> list Z) -> Prop) (d0 d : gmap (Z * Z) (list Z)) : Prop :=
  begun L nlog d0 d \/ exists D bs, Q D /\ confined size L nlog D d0 bs /\ crash_point L nlog D bs d0 d.
Definition done_with (size L nlog : Z) (Q : (Z -> list Z) -> Prop) (d0 d : gmap (Z * Z) (list Z)) : Prop :=
  exists D bs, Q D /\ confined size L nlog D d0 bs /\ complete L nlog D bs d0 d.

Lemma done_survives (size L nlog : Z) (Q : (Z -> list Z) -> Prop) (d0 d : gmap (Z * Z) (list Z)) :
  (forall D D', Q D -> (forall c, ~ in_log L nlog c -> D' c = D c) -> Q D') -> done_with size L nlog Q d0 d ->
  let new d := Q (block_of d 1) in new d /\ survives size L new d.
Proof.
  intros HQ (D & bs & HD & Hc & Hcm) new. assert (forall d, complete L nlog D bs d0 d -> new d) as Hnew.
  { intros d1 Hd. apply (HQ D); [done|]. intros c Hl. by apply (confined_complete size L nlog D d0 bs). }
  split; [by apply Hnew|]. by apply (survives_complete size L nlog D bs d0 (proj1 Hc)).
Qed.

Lemma cut_survives (size L nlog : Z) (Q : (Z -> list Z) -> Prop) (d0 d : gmap (Z * Z) (list Z)) :
  layout size L nlog [] -> (forall D D', Q D -> (forall c, ~ in_log L nlog c -> D' c = D c) -> Q D') -> cut_with size L nlog Q d0 d ->
  let old d := forall c, ~ in_log L nlog c -> block_of d 1 c = block_of d0 1 c in
  let new d := Q (block_of d 1) in
  survives size L (fun d => old d \/ new d) d.
Proof.
  intros Hy HQ Hr old new. destruct Hr as [Hb|(D & bs & HD & Hc & Hcp)].
  - apply (survives_crash size L nlog (fun _ => []) [] d0 Hy); [|intros d1 Hd|by left].
    + intros d1 Hd. left. exact (proj2 Hd).
    + left. intros c Hcl. apply (proj2 (proj2 Hd)); [done|by apply not_elem_of_nil].
  - apply (survives_crash size L nlog D bs d0 (proj1 Hc)); [| |done].
    + intros d1 Hd. left. exact (proj2 Hd).
    + intros d1 Hd. right. apply (HQ D); [done|]. intros c Hl. by apply (confined_complete size L nlog D d0 bs).
Qed.

Lemma atomic_outcome {A} (size L nlog : Z) (Q : (Z -> list Z) -> Prop) (R : A -> kst -> Prop) (d0 : gmap (Z * Z) (list Z)) env (o : outcome A) :
  layout size L nlog [] -> (forall D D', Q D -> (forall c, ~ in_log L nlog c -> D' c = D c) -> Q D') ->
  rc (fun s' => cut_with size L nlog Q d0 (disk s')) env o (fun r s' => R r s' /\ done_with size L nlog Q d0 (disk s')) ->
  let old d := forall c, ~ in_log L nlog c -> block_of d 1 c = block_of d0 1 c in
  let new d := Q (block_of d 1) in
  match o with
  | Ok r s' _ => R r s' /\ new (disk s') /\ survives size L new (disk s')
  | Blocked WHalt s' => survives size L (fun d => old d \/ new d) (disk s')
  | _ => False
  end.
Proof.
  intros Hy HQ Hr old new. destruct o as [r s' e| |[]]; cbn in Hr; try done.
  - destruct Hr as [[Hr Hd] _]. split; [done|]. by apply (done_survives size L nlog Q d0).
  - by apply (cut_survives size L nlog Q d0).
Qed.

(** C1: transactions are atomic and durable.  [begin_op], any updates of
    fewer than LOGSIZE blocks through [bread], [log_write] and [brelse], and
    [end_op], from an idle log, with a disk whose power may fail at any
    request.  If [end_op] returns, the blocks of the disk outside the log
    have their new contents, and keep them through every later reboot.  If
    the power fails, then after any number of recoveries that are cut short
    by further power failures, the recovery that is not returns, and the
    blocks all have their old contents or all have their new contents. *)
Theorem transaction_atomic fails me mp size L nlog s ws env :
  idle me mp size L nlog s -> Forall (update_ok size L nlog) ws ->
  (length ws < Z.to_nat LOGSIZE)%nat -> Z.of_nat (length ws) < nlog ->
  let old d := forall c, ~ in_log L nlog c -> block_of d 1 c = block_of (disk s) 1 c in
  let new d := forall c, ~ in_log L nlog c -> block_of d 1 c = apply_all ws (block_of (disk s) 1) c in
  match @transaction (failing fails (memide_driver size)) ws env s with
  | Ok _ s' _ => new (disk s') /\ survives size L new (disk s')
  | Blocked WHalt s' => survives size L (fun d => old d \/ new d) (disk s')
  | _ => False
  end.
Proof.
  intros Hi Hws Hn Hf old new. set (D := apply_all ws (block_of (disk s) 1)).
  pose proof (@transaction_run _ me mp size L nlog True (failing_sync fails size) s ws env Hi Hws Hn Hf) as Hr.
  fold D in Hr. assert (forall bs d', confined size L nlog D (disk s) bs -> complete L nlog D bs (disk s) d' -> new d') as Hnew.
  { intros bs d' Hc Hd' c Hl. by apply (confined_complete size L nlog D (disk s) bs). }
  destruct (@transaction _ ws env s) as [a s' e| |[]]; cbn in Hr; try done.
  - destruct Hr as [(bs & Hc & Hcm) _]. split; [by apply (Hnew bs)|].
    apply (survives_complete size L nlog D bs (disk s) (proj1 Hc)); [|done]. intros d'. by apply (Hnew bs).
  - apply (survives_cut size L nlog D (disk s)); [apply (id_layout _ _ _ _ _ _ Hi)|done| |].
    + intros d' Hb. left. exact (proj2 Hb).
    + intros bs d' Hc Hd'. right. by apply (Hnew bs).
Qed.

(** A disk of 1000 zero blocks with a log of 30 blocks at block 2. *)
Definition proc_running : proc := set_state RUNNING (set_pid 1 proc_zero).
Definition kst_idle : kst :=
  set_log (mklog 2 30 0 false 1 0 (replicate 30 0))
    (set_kcpu (crit (set_curproc (Some 0%nat) cpu_boot))
      (set_procs (<[0%nat := proc_running]> (procs kst_boot)) kst_boot)).

Lemma kst_idle_calm : calm 0 proc_running kst_idle.
Proof. constructor; [reflexivity|split; reflexivity|reflexivity|split; [cbn; lia|done]|reflexivity]. Qed.

Lemma block_of_empty b : block_of ∅ 1 b = zero_block.
Proof. unfold block_of. by rewrite lookup_empty. Qed.

Lemma kst_idle_idle : idle 0 proc_running 1000 2 30 (after_binit kst_idle).
Proof.
  constructor.
  - apply after_binit_cache; [apply kst_idle_calm|reflexivity|]. intros b.
    change (disk kst_idle) with (∅ : gmap (Z * Z) (list Z)). rewrite block_of_empty. reflexivity.
  - by constructor.
  - change (disk (after_binit kst_idle)) with (∅ : gmap (Z * Z) (list Z)). rewrite block_of_empty.
    split; [reflexivity|]. intros k b Hb. by rewrite lookup_nil in Hb.
  - constructor; [lia|apply NoDup_nil_2|intros b Hb; by apply elem_of_nil in Hb|cbn; lia|cbn; lia].
  - reflexivity.
  - split; reflexivity.
Qed.

Lemma transaction_atomic_witness :
  let s := after_binit kst_idle in
  let ws := [(100, fun d : list Z => <[0%nat := 7]> d)] in
  idle 0 proc_running 1000 2 30 s /\
  let old d := forall c, ~ in_log 2 30 c -> block_of d 1 c = block_of (disk s) 1 c in
  let new d := forall c, ~ in_log 2 30 c -> block_of d 1 c = apply_all ws (block_of (disk s) 1) c in
  match @transaction (failing (fun s => bool_decide (disk s <> ∅)) (memide_driver 1000)) ws [] s with
  | Ok _ s' _ => new (disk s') /\ survives 1000 2 new (disk s')
  | Blocked WHalt s' => survives 1000 2 (fun d => old d \/ new d) (disk s')
  | _ => False
  end.
Proof.
  intros s ws. split; [exact kst_idle_idle|].
  apply (transaction_atomic (fun s => bool_decide (disk s <> ∅)) 0 proc_running 1000 2 30 s ws []).
  - exact kst_idle_idle.
  - apply Forall_singleton. split_and!; cbn [fst snd]; [lia|lia|unfold in_log; lia|].
    intros d Hd. by rewrite length_insert.
  - unfold LOGSIZE, MAXOPBLOCKS. cbn. lia.
  - cbn. lia.
Defined.
