(* ===== verification/Inode.v ===== *)
(** * fs.c, lower half: blocks and inodes

    The free-block bitmap, the inode table on disk and its cache in
    memory, and the block map of an inode.  An inode pointer is a
    position in [icache]; a pointer that may be null is an [option]. *)

From stdpp Require Import base numbers list gmap strings.
From S2P Require Import Prelude Kernel Spinlock Sched Kalloc Console Umem Sleeplock Buf Bio Log.

Section Inode.
Context `{Driver}.

Definition NINODE : nat := 50.
Definition NDIRECT : Z := 12.
Definition NINDIRECT : Z := BSIZE / 4.
Definition MAXFILE : Z := NDIRECT + NINDIRECT.
Definition SIZEOF_DINODE : Z := 64.
Definition IPB : Z := BSIZE / SIZEOF_DINODE.
Definition BPB : Z := BSIZE * 8.
Definition IBLOCK (i : Z) (b : superblock) : Z := u32 (i / IPB + sb_inodestart b).
Definition BBLOCK (b : Z) (s : superblock) : Z := u32 (b / BPB + sb_bmapstart s).
Definition T_DIR : Z := 1.
Definition T_FILE : Z := 2.
Definition T_DEV : Z := 3.
Definition I_VALID : Z := 2.

Definition get_inode (i : nat) : M inode := fun env s =>
  match icache s !! i with Some x => Ok x s env | None => Panic "trap" end.
Definition mod_inode (i : nat) (f : inode -> inode) : M unit :=
  modify (fun s => set_icache (upd i f (icache s)) s).
(** Dereferencing a pointer that may be null. *)
Definition deref {A} (p : option A) : M A :=
  match p with Some i => ret i | None => panic "trap" end.

(** ** Bytes of a block *)

(** [d] with the bytes from [off] on replaced. *)
Definition splice (d : list Z) (off : Z) (bs : list Z) : list Z :=
  take (Z.to_nat off) d ++ bs ++ drop (Z.to_nat off + length bs) d.
Definition slice (d : list Z) (off n : Z) : list Z :=
  take (Z.to_nat n) (drop (Z.to_nat off) d).

Definition s16 (x : Z) : Z := (x + 32768) mod 65536 - 32768.
Definition short_at (d : list Z) (off : Z) : Z :=
  s16 (nth (Z.to_nat off) d 0 + 256 * nth (Z.to_nat (off + 1)) d 0).

Definition mod_data (i : nat) (f : list Z -> list Z) : M unit :=
  mod_buf i (fun b => set_b_data (f (b_data b)) b).

(** ** Blocks *)

Definition bzero (dev bno : Z) : M unit :=
  let! bp := bread (u32 dev) (u32 bno) in
  mod_data bp (fun _ => zero_block) ;;
  log_write bp ;;
  brelse bp.

(** Bit [bi] of a bitmap block, and the block with it set or cleared. *)
Definition bit_mask (bi : Z) : Z := Z.shiftl 1 (bi mod 8).
Definition byte_of (d : list Z) (bi : Z) : Z := nth (Z.to_nat (bi / 8)) d 0.
Definition bit_free (d : list Z) (bi : Z) : bool := Z.land (byte_of d bi) (bit_mask bi) =? 0.
Definition bit_set (bi : Z) (d : list Z) : list Z :=
  <[Z.to_nat (bi / 8) := Z.lor (byte_of d bi) (bit_mask bi)]> d.
Definition bit_clear (bi : Z) (d : list Z) : list Z :=
  <[Z.to_nat (bi / 8) := u8 (Z.land (byte_of d bi) (Z.lnot (bit_mask bi)))]> d.

(** The inner loop of [balloc]: the first free bit of a block, of those
    that stand for one of the [lim] blocks left. *)
Definition first_free (d : list Z) (lim : Z) : option Z :=
  Z.of_nat <$> find_idx (bit_free d) (seqZ 0 (Z.min BPB lim)).

(** [b] is the block the bitmap block starts with; there is a turn for
    every bitmap block. *)
Fixpoint balloc_loop (fuel : nat) (dev b : Z) : M Z :=
  match fuel with
  | O => halt WFuel
  | S n =>
      let! s := gets sb in
      if sb_size s <=? b then panic "balloc: out of blocks" else
      let! bp := bread dev (BBLOCK b s) in
      let! x := get_buf bp in
      let! s := gets sb in
      match first_free (b_data x) (sb_size s - b) with
      | Some bi =>
          mod_data bp (bit_set bi) ;;
          log_write bp ;;
          brelse bp ;;
          bzero dev (b + bi) ;;
          ret (b + bi)
      | None =>
          brelse bp ;;
          balloc_loop n dev (b + BPB)
      end
  end.
Definition balloc (dev : Z) : M Z :=
  let! s := gets sb in balloc_loop (Z.to_nat (sb_size s / BPB + 2)) dev 0.

Definition bfree (dev b : Z) : M unit :=
  let! s := readsb (u32 dev) in
  modify (set_sb s) ;;
  let! bp := bread (u32 dev) (BBLOCK b s) in
  let bi := b mod BPB in
  let! x := get_buf bp in
  if bit_free (b_data x) bi then panic "freeing free block" else
  mod_data bp (bit_clear bi) ;;
  log_write bp ;;
  brelse bp.

(** ** fs.h: struct dinode *)

Record dinode := mkdi {
  di_type : Z; di_major : Z; di_minor : Z; di_nlink : Z; di_size : Z; di_addrs : list Z;
}.
Definition di_bytes (d : dinode) : list Z :=
  bytes16 (di_type d) ++ bytes16 (di_major d) ++ bytes16 (di_minor d) ++ bytes16 (di_nlink d) ++
  bytes32 (di_size d) ++ (di_addrs d ≫= bytes32).
Definition di_at (d : list Z) (off : Z) : dinode :=
  mkdi (short_at d off) (short_at d (off + 2)) (short_at d (off + 4)) (short_at d (off + 6))
    (word_at d (off + 8))
    ((fun k => word_at d (off + 12 + 4 * k)) <$> seqZ 0 (NDIRECT + 1)).
(** Where in its block the inode numbered [inum] is. *)
Definition di_off (inum : Z) : Z := SIZEOF_DINODE * (inum mod IPB).

(** ** Inodes *)

Definition iget (dev inum : Z) : M nat :=
  acquire LIcache ;;
  let! c := gets icache in
  match find_idx (fun ip => (0 <? i_ref ip) && (i_dev ip =? dev) && (i_inum ip =? inum)) c with
  | Some i =>
      mod_inode i (fun ip => set_i_ref (i_ref ip + 1) ip) ;;
      release LIcache ;;
      ret i
  | None =>
      match find_idx (fun ip => i_ref ip =? 0) c with
      | None => panic "iget: no inodes"
      | Some i =>
          mod_inode i (set_i_dev dev) ;;
          mod_inode i (set_i_inum inum) ;;
          mod_inode i (set_i_ref 1) ;;
          mod_inode i (set_i_flags 0) ;;
          release LIcache ;;
          ret i
      end
  end.

Definition iinit (dev : Z) : M unit :=
  initlock LIcache ;;
  for_each (seq 0 NINODE) (fun i => initsleeplock (SLinode i)) ;;
  let! s := readsb (u32 dev) in
  modify (set_sb s) ;;
  cprintf (bytes_of "sb: size %d nblocks %d ninodes %d nlog %d logstart %d inodestart %d bmap start %d"
           ++ [ch_newline])
    (AInt <$> [sb_size s; sb_nblocks s; sb_ninodes s; sb_nlog s; sb_logstart s; sb_inodestart s; sb_bmapstart s]).

Fixpoint ialloc_loop (fuel : nat) (dev type inum : Z) : M nat :=
  match fuel with
  | O => halt WFuel
  | S n =>
      let! s := gets sb in
      if sb_ninodes s <=? inum then panic "ialloc: no inodes" else
      let! bp := bread dev (IBLOCK inum s) in
      let! x := get_buf bp in
      let off := di_off inum in
      if short_at (b_data x) off =? 0 then
        mod_data bp (fun d => splice d off (replicate (Z.to_nat SIZEOF_DINODE) 0)) ;;
        mod_data bp (fun d => splice d off (bytes16 type)) ;;
        log_write bp ;;
        brelse bp ;;
        iget dev inum
      else
        brelse bp ;;
        ialloc_loop n dev type (inum + 1)
  end.
Definition ialloc (dev type : Z) : M nat :=
  let! s := gets sb in ialloc_loop (Z.to_nat (sb_ninodes s + 1)) dev type 1.

Definition di_of (ip : inode) : dinode :=
  mkdi (i_type ip) (i_major ip) (i_minor ip) (i_nlink ip) (i_size ip) (i_addrs ip).

Definition iupdate (i : nat) : M unit :=
  let! ip := get_inode i in
  let! s := gets sb in
  let! bp := bread (i_dev ip) (IBLOCK (i_inum ip) s) in
  let! ip := get_inode i in
  mod_data bp (fun d => splice d (di_off (i_inum ip)) (di_bytes (di_of ip))) ;;
  log_write bp ;;
  brelse bp.

Definition idup (i : nat) : M nat :=
  acquire LIcache ;;
  mod_inode i (fun ip => set_i_ref (i_ref ip + 1) ip) ;;
  release LIcache ;;
  ret i.

Definition load_di (d : dinode) (ip : inode) : inode :=
  set_i_addrs (di_addrs d) (set_i_size (di_size d) (set_i_nlink (di_nlink d) (set_i_minor (di_minor d)
    (set_i_major (di_major d) (set_i_type (di_type d) ip))))).

Definition ilock (p : option nat) : M unit :=
  match p with
  | None => panic "ilock"
  | Some i =>
      let! ip := get_inode i in
      if i_ref ip <? 1 then panic "ilock" else
      acquiresleep (SLinode i) ;;
      let! ip := get_inode i in
      if negb (Z.land (i_flags ip) I_VALID =? 0) then ret tt else
      let! s := gets sb in
      let! bp := bread (i_dev ip) (IBLOCK (i_inum ip) s) in
      let! x := get_buf bp in
      let d := di_at (b_data x) (di_off (i_inum ip)) in
      mod_inode i (load_di d) ;;
      brelse bp ;;
      mod_inode i (fun ip => set_i_flags (Z.lor (i_flags ip) I_VALID) ip) ;;
      let! ip := get_inode i in
      if i_type ip =? 0 then panic "ilock: no type" else ret tt
  end.

Definition iunlock (p : option nat) : M unit :=
  match p with
  | None => panic "iunlock"
  | Some i =>
      let! h := holdingsleep (SLinode i) in
      if negb h then panic "iunlock" else
      let! ip := get_inode i in
      if i_ref ip <? 1 then panic "iunlock" else
      releasesleep (SLinode i)
  end.

(** [ip->addrs[k]]. *)
Definition addr_at (ip : inode) (k : Z) : Z := nth (Z.to_nat k) (i_addrs ip) 0.
Definition set_addr (i : nat) (k v : Z) : M unit :=
  mod_inode i (fun ip => set_i_addrs (<[Z.to_nat k := v]> (i_addrs ip)) ip).

(** [if((addr = ip->addrs[k]) == 0) ip->addrs[k] = addr = balloc(ip->dev)]. *)
Definition addr_alloc (i : nat) (k : Z) : M Z :=
  let! ip := get_inode i in
  if negb (addr_at ip k =? 0) then ret (addr_at ip k) else
  let! a := balloc (i_dev ip) in
  set_addr i k a ;;
  ret a.

Definition bmap (i : nat) (bn : Z) : M Z :=
  if bn <? NDIRECT then addr_alloc i bn else
  let bn := bn - NDIRECT in
  if bn <? NINDIRECT then
    let! addr := addr_alloc i NDIRECT in
    let! ip := get_inode i in
    let! bp := bread (i_dev ip) addr in
    let! x := get_buf bp in
    let! addr :=
      (if negb (word_at (b_data x) (4 * bn) =? 0) then ret (word_at (b_data x) (4 * bn)) else
       let! a := balloc (i_dev ip) in
       mod_data bp (fun d => set_word d (4 * bn) a) ;;
       log_write bp ;;
       ret a) in
    brelse bp ;;
    ret addr
  else panic "bmap: out of range".

Definition itrunc (i : nat) : M unit :=
  for_each (seqZ 0 NDIRECT) (fun k =>
    let! ip := get_inode i in
    when (negb (addr_at ip k =? 0))
      (bfree (i_dev ip) (addr_at ip k) ;; set_addr i k 0)) ;;
  let! ip := get_inode i in
  when (negb (addr_at ip NDIRECT =? 0))
    (let! bp := bread (i_dev ip) (addr_at ip NDIRECT) in
     for_each (seqZ 0 NINDIRECT) (fun j =>
       let! x := get_buf bp in
       let a := word_at (b_data x) (4 * j) in
       when (negb (a =? 0)) (bfree (i_dev ip) a)) ;;
     brelse bp ;;
     bfree (i_dev ip) (addr_at ip NDIRECT) ;;
     set_addr i NDIRECT 0) ;;
  mod_inode i (set_i_size 0) ;;
  iupdate i.

Definition iput (i : nat) : M unit :=
  acquire LIcache ;;
  let! ip := get_inode i in
  when ((i_ref ip =? 1) && negb (Z.land (i_flags ip) I_VALID =? 0) && (i_nlink ip =? 0))
    (release LIcache ;;
     itrunc i ;;
     mod_inode i (set_i_type 0) ;;
     iupdate i ;;
     acquire LIcache ;;
     mod_inode i (set_i_flags 0)) ;;
  mod_inode i (fun ip => set_i_ref (i_ref ip - 1) ip) ;;
  release LIcache.

Definition iunlockput (i : nat) : M unit := iunlock (Some i) ;; iput i.

(** stat.h: struct stat, 20 bytes: the fields and the padding after the
    two [short]s, which [stati] leaves as it is. *)
Record stat := mkstat { st_type : Z; st_dev : Z; st_ino : Z; st_nlink : Z; st_size : Z }.
Definition stati (i : nat) : M stat :=
  let! ip := get_inode i in
  ret (mkstat (i_type ip) (i_dev ip) (i_inum ip) (i_nlink ip) (i_size ip)).
End Inode.
