(* ===== verification/Usertests.v ===== *)
(** * The tests of usertests.c

    The tests that work through system calls alone, as programs (User.v);
    [buf] is the global [char buf[8192]], which a test may leave changed.
    Then: what some of them accept, and what they leave behind. *)

From stdpp Require Import base numbers list strings.
From S2P Require Import Prelude Kernel Console Kalloc Umem Inode User Ulib Sh Progs.

(** [{ printf(1, s); exit(); }], with a newline at the end of [s]. *)
Definition fail {A} (s : string) : P A := say 1 (bytes_of s) ;+ exit.
Definition ok (s : string) : P unit := say 1 (bytes_of s).

(** [read(fd, buf, n)]: the first bytes of the array are replaced. *)
Definition read_to (fd n : Z) (buf : list Z) : P (Z * list Z) :=
  let+ r := read fd n in
  let (k, d) := r in
  pret (k, d ++ drop (length d) buf).

(** [for] over the values [l], with a state; the body may leave the loop. *)
Fixpoint for_until {X S A} (l : list X) (s : S) (f : X -> S -> P (S + A)) : P (S + A) :=
  match l with
  | [] => pret (inl s)
  | x :: l' =>
      let+ r := f x s in
      match r with
      | inl s' => for_until l' s' f
      | inr a => pret (inr a)
      end
  end.
Fixpoint for_state {X S} (l : list X) (s : S) (f : X -> S -> P S) : P S :=
  match l with
  | [] => pret s
  | x :: l' => let+ s' := f x s in for_state l' s' f
  end.

(** A loop that makes no call: nothing more is seen of the process. *)
Definition spin {A} : P A := fun _ => Waits [].

(** A [char] as an int. *)
Definition s8 (c : Z) : Z := if c <? 128 then c else c - 256.

(** ** Inodes that are dropped in system calls *)

Definition exitiputtest : P unit :=
  ok "exitiput test" ;+
  let+ pid := fork in
  if pid <? 0 then fail "fork failed" else
  if pid =? 0 then
    let+ r := mkdir (bytes_of "iputdir") in
    if r <? 0 then fail "mkdir failed" else
    let+ r := chdir (bytes_of "iputdir") in
    if r <? 0 then fail "child chdir failed" else
    let+ r := unlink (bytes_of "../iputdir") in
    if r <? 0 then fail "unlink ../iputdir failed" else
    exit
  else
  wait ;+
  ok "exitiput test ok".

Definition openiputtest : P unit :=
  ok "openiput test" ;+
  let+ r := mkdir (bytes_of "oidir") in
  if r <? 0 then fail "mkdir oidir failed" else
  let+ pid := fork in
  if pid <? 0 then fail "fork failed" else
  if pid =? 0 then
    let+ fd := open (bytes_of "oidir") O_RDWR in
    if 0 <=? fd then fail "open directory for write succeeded" else
    exit
  else
  sleep 1 ;+
  let+ r := unlink (bytes_of "oidir") in
  if negb (r =? 0) then fail "unlink failed" else
  wait ;+
  ok "openiput test ok".

(** ** Writing and reading files *)

Definition writetest (buf : list Z) : P (list Z) :=
  ok "small file test" ;+
  let+ fd := open (bytes_of "small") (Z.lor O_CREATE O_RDWR) in
  (if 0 <=? fd then ok "creat small succeeded; ok" else fail "error: creat small failed!") ;+
  pfor (seqZ 0 100) (fun i =>
    let+ n := write fd (replicate 10 97) in
    if negb (n =? 10) then printf 1 (bytes_of "error: write aa %d new file failed" ++ [10]) [AInt i] ;+ exit else
    let+ n := write fd (replicate 10 98) in
    if negb (n =? 10) then printf 1 (bytes_of "error: write bb %d new file failed" ++ [10]) [AInt i] ;+ exit else
    pret tt) ;+
  ok "writes ok" ;+
  close fd ;+
  let+ fd := open (bytes_of "small") O_RDONLY in
  (if 0 <=? fd then ok "open small succeeded ok" else fail "error: open small failed!") ;+
  let+ r := read_to fd 2000 buf in
  let (i, buf) := r in
  (if i =? 2000 then ok "read succeeded ok" else fail "read failed") ;+
  close fd ;+
  let+ r := unlink (bytes_of "small") in
  if r <? 0 then fail "unlink small failed" else
  ok "small file test ok" ;+
  pret buf.

(** [((int* )buf)[0]]. *)
Definition first_int (buf : list Z) : Z := s32 (of_bytes32 (take 4 buf)).

Definition writetest1 (buf : list Z) : P (list Z) :=
  ok "big files test" ;+
  let+ fd := open (bytes_of "big") (Z.lor O_CREATE O_RDWR) in
  if fd <? 0 then fail "error: creat big failed!" else
  let+ buf := for_state (seqZ 0 MAXFILE) buf (fun i buf =>
    let buf := bytes32 i ++ drop 4 buf in
    let+ n := write fd (take 512 buf) in
    if negb (n =? 512) then fail "error: write big file failed" else pret buf) in
  close fd ;+
  let+ fd := open (bytes_of "big") O_RDONLY in
  if fd <? 0 then fail "error: open big failed!" else
  let+ buf := while (fun st : Z * list Z =>
    let (n, buf) := st in
    let+ r := read_to fd 512 buf in
    let (i, buf) := r in
    if i =? 0 then
      if n =? MAXFILE - 1 then printf 1 (bytes_of "read only %d blocks from big") [AInt n] ;+ exit
      else pret (inr buf)
    else if negb (i =? 512) then printf 1 (bytes_of "read failed %d" ++ [10]) [AInt i] ;+ exit
    else if negb (first_int buf =? n) then
      printf 1 (bytes_of "read content of block %d is %d" ++ [10]) [AInt n; AInt (first_int buf)] ;+ exit
    else pret (inl (n + 1, buf))) (0, buf) in
  close fd ;+
  let+ r := unlink (bytes_of "big") in
  if r <? 0 then fail "unlink big failed" else
  ok "big files ok" ;+
  pret buf.

(** ** Processes and pipes *)

(** A round of the parent's loop: the bytes that were read continue the
    sequence.  The loop ends with the total, or with a report. *)
Definition pipe1_body (fd : Z) (st : (Z * Z * Z) * list Z) : P (((Z * Z * Z) * list Z) + (option Z * list Z)) :=
  let '(seq, cc, total, buf) := st in
  let+ r := read_to fd cc buf in
  let (n, buf) := r in
  if 0 <? n then
    if bool_decide (u8 <$> take (Z.to_nat n) buf = (fun k => u8 (seq + k)) <$> seqZ 0 n)
    then pret (inl (seq + n, Z.min (cc * 2) 8192, total + n, buf))
    else ok "pipe1 oops 2" ;+ pret (inr (None, buf))
  else pret (inr (Some total, buf)).

Definition pipe1 (buf : list Z) : P (list Z) :=
  let+ r := pipe in
  let '(r, (fd0, fd1)) := r in
  if negb (r =? 0) then fail "pipe() failed" else
  let+ pid := fork in
  if pid =? 0 then
    close fd0 ;+
    pfor (seqZ 0 5) (fun n =>
      let+ k := write fd1 ((fun i => u8 (1033 * n + i)) <$> seqZ 0 1033) in
      if negb (k =? 1033) then fail "pipe1 oops 1" else pret tt) ;+
    exit
  else if 0 <? pid then
    close fd1 ;+
    let+ r := while (pipe1_body fd0) (0, 1, 0, buf) in
    let (t, buf) := r in
    match t with
    | None => pret buf
    | Some total =>
        if negb (total =? 5 * 1033) then printf 1 (bytes_of "pipe1 oops 3 total %d" ++ [10]) [AInt total] ;+ exit else
        close fd0 ;+
        wait ;+
        ok "pipe1 ok" ;+
        pret buf
    end
  else fail "fork() failed".

Definition preempt (buf : list Z) : P (list Z) :=
  printf 1 (bytes_of "preempt: ") [] ;+
  let+ pid1 := fork in
  if pid1 =? 0 then spin else
  let+ pid2 := fork in
  if pid2 =? 0 then spin else
  let+ r := pipe in
  let '(_, (fd0, fd1)) := r in
  let+ pid3 := fork in
  if pid3 =? 0 then
    close fd0 ;+
    let+ n := write fd1 (bytes_of "x") in
    (if negb (n =? 1) then printf 1 (bytes_of "preempt write error") [] else pret tt) ;+
    close fd1 ;+
    spin
  else
  close fd1 ;+
  let+ r := read_to fd0 8192 buf in
  let (n, buf) := r in
  if negb (n =? 1) then printf 1 (bytes_of "preempt read error") [] ;+ pret buf else
  close fd0 ;+
  printf 1 (bytes_of "kill... ") [] ;+
  kill pid1 ;+
  kill pid2 ;+
  kill pid3 ;+
  printf 1 (bytes_of "wait... ") [] ;+
  wait ;+
  wait ;+
  wait ;+
  ok "preempt ok" ;+
  pret buf.

(** ** Processes that share files and directories *)

Definition count_char (c : Z) (b : list Z) : Z := Z.of_nat (length (List.filter (Z.eqb c) b)).

(** [buf] is the local [char buf[10]] here. *)
Definition sharedfd : P unit :=
  ok "sharedfd test" ;+
  unlink (bytes_of "sharedfd") ;+
  let+ fd := open (bytes_of "sharedfd") (Z.lor O_CREATE O_RDWR) in
  if fd <? 0 then printf 1 (bytes_of "fstests: cannot open sharedfd for writing") [] else
  let+ pid := fork in
  let buf := replicate 10 (if pid =? 0 then 99 else 112) in
  for_until (seqZ 0 1000) tt (fun _ _ =>
    let+ n := write fd buf in
    if negb (n =? 10) then ok "fstests: write sharedfd failed" ;+ pret (inr tt) else pret (inl tt)) ;+
  (if pid =? 0 then exit else wait) ;+
  close fd ;+
  let+ fd := open (bytes_of "sharedfd") 0 in
  if fd <? 0 then ok "fstests: cannot open sharedfd for reading" else
  let+ r := while (fun st : (Z * Z) * list Z =>
    let '(nc, np, buf) := st in
    let+ r := read_to fd 10 buf in
    let (n, buf) := r in
    if 0 <? n then pret (inl (nc + count_char 99 buf, np + count_char 112 buf, buf))
    else pret (inr (nc, np))) (0, 0, buf) in
  let (nc, np) := r in
  close fd ;+
  unlink (bytes_of "sharedfd") ;+
  if (nc =? 10000) && (np =? 10000) then ok "sharedfd ok"
  else printf 1 (bytes_of "sharedfd oops %d %d" ++ [10]) [AInt nc; AInt np] ;+ exit.

Definition fourfiles (buf : list Z) : P (list Z) :=
  ok "fourfiles test" ;+
  pfor (seqZ 0 4) (fun pi =>
    let fname := [102; 48 + pi] in
    unlink fname ;+
    let+ pid := fork in
    if pid <? 0 then fail "fork failed" else
    if pid =? 0 then
      let+ fd := open fname (Z.lor O_CREATE O_RDWR) in
      if fd <? 0 then fail "create failed" else
      pfor (seqZ 0 12) (fun _ =>
        let+ n := write fd (replicate 500 (48 + pi)) in
        if negb (n =? 500) then printf 1 (bytes_of "write failed %d" ++ [10]) [AInt n] ;+ exit else pret tt) ;+
      exit
    else pret tt) ;+
  pfor (seqZ 0 4) (fun _ => wait ;+ pret tt) ;+
  let+ buf := for_state (seqZ 0 2) buf (fun i buf =>
    let fname := [102; 48 + i] in
    let+ fd := open fname 0 in
    let+ r := while (fun st : Z * list Z =>
      let (total, buf) := st in
      let+ r := read_to fd 8192 buf in
      let (n, buf) := r in
      if 0 <? n then
        if negb (forallb (Z.eqb (48 + i)) (take (Z.to_nat n) buf)) then fail "wrong char"
        else pret (inl (total + n, buf))
      else pret (inr (total, buf))) (0, buf) in
    let (total, buf) := r in
    close fd ;+
    if negb (total =? 12 * 500) then printf 1 (bytes_of "wrong length %d" ++ [10]) [AInt total] ;+ exit else
    unlink fname ;+
    pret buf) in
  ok "fourfiles ok" ;+
  pret buf.

Definition createdelete : P unit :=
  let N := 20 in
  ok "createdelete test" ;+
  pfor (seqZ 0 4) (fun pi =>
    let+ pid := fork in
    if pid <? 0 then fail "fork failed" else
    if pid =? 0 then
      pfor (seqZ 0 N) (fun i =>
        let+ fd := open [112 + pi; 48 + i] (Z.lor O_CREATE O_RDWR) in
        if fd <? 0 then fail "create failed" else
        close fd ;+
        if (0 <? i) && (i mod 2 =? 0) then
          let+ r := unlink [112 + pi; 48 + i / 2] in
          if r <? 0 then fail "unlink failed" else pret tt
        else pret tt) ;+
      exit
    else pret tt) ;+
  pfor (seqZ 0 4) (fun _ => wait ;+ pret tt) ;+
  pfor (seqZ 0 N) (fun i =>
    pfor (seqZ 0 4) (fun pi =>
      let name := [112 + pi; 48 + i] in
      let+ fd := open name 0 in
      if ((i =? 0) || (N / 2 <=? i)) && (fd <? 0) then
        printf 1 (bytes_of "oops createdelete %s didn't exist" ++ [10]) [AStr (Some name)] ;+ exit
      else if ((1 <=? i) && (i <? N / 2)) && (0 <=? fd) then
        printf 1 (bytes_of "oops createdelete %s did exist" ++ [10]) [AStr (Some name)] ;+ exit
      else if 0 <=? fd then close fd ;+ pret tt else pret tt)) ;+
  pfor (seqZ 0 N) (fun i =>
    pfor (seqZ 0 4) (fun _ => unlink [112 + i; 48 + i] ;+ pret tt)) ;+
  ok "createdelete ok".

(** ** Links *)

Definition unlinkread (buf : list Z) : P (list Z) :=
  ok "unlinkread test" ;+
  let+ fd := open (bytes_of "unlinkread") (Z.lor O_CREATE O_RDWR) in
  if fd <? 0 then fail "create unlinkread failed" else
  write fd (bytes_of "hello") ;+
  close fd ;+
  let+ fd := open (bytes_of "unlinkread") O_RDWR in
  if fd <? 0 then fail "open unlinkread failed" else
  let+ r := unlink (bytes_of "unlinkread") in
  if negb (r =? 0) then fail "unlink unlinkread failed" else
  let+ fd1 := open (bytes_of "unlinkread") (Z.lor O_CREATE O_RDWR) in
  write fd1 (bytes_of "yyy") ;+
  close fd1 ;+
  let+ r := read_to fd 8192 buf in
  let (n, buf) := r in
  if negb (n =? 5) then printf 1 (bytes_of "unlinkread read failed") [] ;+ exit else
  if negb (nth 0 buf 0 =? 104) then fail "unlinkread wrong data" else
  let+ n := write fd (take 10 buf) in
  if negb (n =? 10) then fail "unlinkread write failed" else
  close fd ;+
  unlink (bytes_of "unlinkread") ;+
  ok "unlinkread ok" ;+
  pret buf.

Definition linktest (buf : list Z) : P (list Z) :=
  ok "linktest" ;+
  unlink (bytes_of "lf1") ;+
  unlink (bytes_of "lf2") ;+
  let+ fd := open (bytes_of "lf1") (Z.lor O_CREATE O_RDWR) in
  if fd <? 0 then fail "create lf1 failed" else
  let+ n := write fd (bytes_of "hello") in
  if negb (n =? 5) then fail "write lf1 failed" else
  close fd ;+
  let+ r := link (bytes_of "lf1") (bytes_of "lf2") in
  if r <? 0 then fail "link lf1 lf2 failed" else
  unlink (bytes_of "lf1") ;+
  let+ fd := open (bytes_of "lf1") 0 in
  if 0 <=? fd then fail "unlinked lf1 but it is still there!" else
  let+ fd := open (bytes_of "lf2") 0 in
  if fd <? 0 then fail "open lf2 failed" else
  let+ r := read_to fd 8192 buf in
  let (n, buf) := r in
  if negb (n =? 5) then fail "read lf2 failed" else
  close fd ;+
  let+ r := link (bytes_of "lf2") (bytes_of "lf2") in
  if 0 <=? r then fail "link lf2 lf2 succeeded! oops" else
  unlink (bytes_of "lf2") ;+
  let+ r := link (bytes_of "lf2") (bytes_of "lf1") in
  if 0 <=? r then fail "link non-existant succeeded! oops" else
  let+ r := link (bytes_of ".") (bytes_of "lf1") in
  if 0 <=? r then fail "link . lf1 succeeded! oops" else
  ok "linktest ok" ;+
  pret buf.

(** The string that starts with these bytes. *)
Fixpoint c_str (bs : list Z) : str :=
  match bs with
  | [] => []
  | b :: bs' => if b =? 0 then [] else b :: c_str bs'
  end.

(** [de0] is what the local [de] holds before it is read. *)
Definition concreate (de0 : list Z) : P unit :=
  ok "concreate test" ;+
  pfor (seqZ 0 40) (fun i =>
    let file := [67; 48 + i] in
    unlink file ;+
    let+ pid := fork in
    (if negb (pid =? 0) && (i mod 3 =? 1) then link (bytes_of "C0") file ;+ pret tt
     else if (pid =? 0) && (i mod 5 =? 1) then link (bytes_of "C0") file ;+ pret tt
     else
       let+ fd := open file (Z.lor O_CREATE O_RDWR) in
       if fd <? 0 then printf 1 (bytes_of "concreate create %s failed" ++ [10]) [AStr (Some file)] ;+ exit else
       close fd ;+ pret tt) ;+
    if pid =? 0 then exit else wait ;+ pret tt) ;+
  let+ fd := open (bytes_of ".") 0 in
  let+ n := while (fun st : list Z * Z * list Z =>
    let '(fa, n, de) := st in
    let+ r := read_to fd 16 de in
    let (k, de) := r in
    if k <=? 0 then pret (inr n) else
    let inum := nth 0 de 0 + 256 * nth 1 de 0 in
    let name := drop 2 de in
    if inum =? 0 then pret (inl (fa, n, de)) else
    if (nth 0 name 0 =? 67) && (nth 2 name 0 =? 0) then
      let i := s8 (nth 1 name 0) - 48 in
      if (i <? 0) || (40 <=? i) then printf 1 (bytes_of "concreate weird file %s" ++ [10]) [AStr (Some (c_str name))] ;+ exit else
      if negb (nth (Z.to_nat i) fa 0 =? 0) then
        printf 1 (bytes_of "concreate duplicate file %s" ++ [10]) [AStr (Some (c_str name))] ;+ exit
      else pret (inl (<[Z.to_nat i := 1]> fa, n + 1, de))
    else pret (inl (fa, n, de))) (replicate 40 0, 0, de0) in
  close fd ;+
  if negb (n =? 40) then fail "concreate not enough files in directory listing" else
  pfor (seqZ 0 40) (fun i =>
    let file := [67; 48 + i] in
    let+ pid := fork in
    if pid <? 0 then fail "fork failed" else
    (if ((i mod 3 =? 0) && (pid =? 0)) || ((i mod 3 =? 1) && negb (pid =? 0)) then
       pfor (seqZ 0 4) (fun _ => let+ fd := open file 0 in close fd ;+ pret tt)
     else
       pfor (seqZ 0 4) (fun _ => unlink file ;+ pret tt)) ;+
    if pid =? 0 then exit else wait ;+ pret tt) ;+
  ok "concreate ok".

Definition linkunlink : P unit :=
  ok "linkunlink test" ;+
  unlink (bytes_of "x") ;+
  let+ pid := fork in
  if pid <? 0 then fail "fork failed" else
  for_state (seqZ 0 100) (if pid =? 0 then 97 else 1) (fun _ x =>
    let x := u32 (x * 1103515245 + 12345) in
    (if x mod 3 =? 0 then let+ fd := open (bytes_of "x") (Z.lor O_RDWR O_CREATE) in close fd
     else if x mod 3 =? 1 then link (bytes_of "cat") (bytes_of "x")
     else unlink (bytes_of "x")) ;+
    pret x) ;+
  (if pid =? 0 then exit else wait) ;+
  ok "linkunlink ok".

Definition bigdir : P unit :=
  ok "bigdir test" ;+
  unlink (bytes_of "bd") ;+
  let+ fd := open (bytes_of "bd") O_CREATE in
  if fd <? 0 then fail "bigdir create failed" else
  close fd ;+
  pfor (seqZ 0 500) (fun i =>
    let+ r := link (bytes_of "bd") [120; 48 + i / 64; 48 + i mod 64] in
    if negb (r =? 0) then fail "bigdir link failed" else pret tt) ;+
  unlink (bytes_of "bd") ;+
  pfor (seqZ 0 500) (fun i =>
    let+ r := unlink [120; 48 + i / 64; 48 + i mod 64] in
    if negb (r =? 0) then printf 1 (bytes_of "bigdir unlink failed") [] ;+ exit else pret tt) ;+
  ok "bigdir ok".

(** ** Large files *)

Definition bigwrite (buf : list Z) : P unit :=
  ok "bigwrite test" ;+
  unlink (bytes_of "bigwrite") ;+
  pfor ((fun k => 499 + 471 * k) <$> seqZ 0 ((12 * 512 - 499 + 470) / 471)) (fun sz =>
    let+ fd := open (bytes_of "bigwrite") (Z.lor O_CREATE O_RDWR) in
    if fd <? 0 then fail "cannot create bigwrite" else
    pfor (seqZ 0 2) (fun _ =>
      let+ cc := write fd (take (Z.to_nat sz) buf) in
      if negb (cc =? sz) then printf 1 (bytes_of "write(%d) ret %d" ++ [10]) [AInt sz; AInt cc] ;+ exit else pret tt) ;+
    close fd ;+
    unlink (bytes_of "bigwrite") ;+
    pret tt) ;+
  ok "bigwrite ok".

Definition bigfile (buf : list Z) : P (list Z) :=
  ok "bigfile test" ;+
  unlink (bytes_of "bigfile") ;+
  let+ fd := open (bytes_of "bigfile") (Z.lor O_CREATE O_RDWR) in
  if fd <? 0 then printf 1 (bytes_of "cannot create bigfile") [] ;+ exit else
  let+ buf := for_state (seqZ 0 20) buf (fun i buf =>
    let buf := replicate 600 i ++ drop 600 buf in
    let+ n := write fd (take 600 buf) in
    if negb (n =? 600) then fail "write bigfile failed" else pret buf) in
  close fd ;+
  let+ fd := open (bytes_of "bigfile") 0 in
  if fd <? 0 then fail "cannot open bigfile" else
  let+ r := while (fun st : (Z * Z) * list Z =>
    let '(i, total, buf) := st in
    let+ r := read_to fd 300 buf in
    let (cc, buf) := r in
    if cc <? 0 then fail "read bigfile failed" else
    if cc =? 0 then pret (inr (total, buf)) else
    if negb (cc =? 300) then fail "short read bigfile" else
    if negb (s8 (nth 0 buf 0) =? i / 2) || negb (s8 (nth 299 buf 0) =? i / 2) then fail "read bigfile wrong data" else
    pret (inl (i + 1, total + cc, buf))) (0, 0, buf) in
  let (total, buf) := r in
  close fd ;+
  if negb (total =? 20 * 600) then fail "read bigfile wrong total" else
  unlink (bytes_of "bigfile") ;+
  ok "bigfile test ok" ;+
  pret buf.

(** ** Directories *)

Definition subdir (buf : list Z) : P (list Z) :=
  ok "subdir test" ;+
  unlink (bytes_of "ff") ;+
  let+ r := mkdir (bytes_of "dd") in
  if negb (r =? 0) then fail "subdir mkdir dd failed" else
  let+ fd := open (bytes_of "dd/ff") (Z.lor O_CREATE O_RDWR) in
  if fd <? 0 then fail "create dd/ff failed" else
  write fd (bytes_of "ff") ;+
  close fd ;+
  let+ r := unlink (bytes_of "dd") in
  if 0 <=? r then fail "unlink dd (non-empty dir) succeeded!" else
  let+ r := mkdir (bytes_of "/dd/dd") in
  if negb (r =? 0) then fail "subdir mkdir dd/dd failed" else
  let+ fd := open (bytes_of "dd/dd/ff") (Z.lor O_CREATE O_RDWR) in
  if fd <? 0 then fail "create dd/dd/ff failed" else
  write fd (bytes_of "FF") ;+
  close fd ;+
  let+ fd := open (bytes_of "dd/dd/../ff") 0 in
  if fd <? 0 then fail "open dd/dd/../ff failed" else
  let+ r := read_to fd 8192 buf in
  let (cc, buf) := r in
  if negb (cc =? 2) || negb (nth 0 buf 0 =? 102) then fail "dd/dd/../ff wrong content" else
  close fd ;+
  let+ r := link (bytes_of "dd/dd/ff") (bytes_of "dd/dd/ffff") in
  if negb (r =? 0) then fail "link dd/dd/ff dd/dd/ffff failed" else
  let+ r := unlink (bytes_of "dd/dd/ff") in
  if negb (r =? 0) then fail "unlink dd/dd/ff failed" else
  let+ fd := open (bytes_of "dd/dd/ff") O_RDONLY in
  if 0 <=? fd then fail "open (unlinked) dd/dd/ff succeeded" else
  let+ r := chdir (bytes_of "dd") in
  if negb (r =? 0) then fail "chdir dd failed" else
  let+ r := chdir (bytes_of "dd/../../dd") in
  if negb (r =? 0) then fail "chdir dd/../../dd failed" else
  let+ r := chdir (bytes_of "dd/../../../dd") in
  if negb (r =? 0) then fail "chdir dd/../../dd failed" else
  let+ r := chdir (bytes_of "./..") in
  if negb (r =? 0) then fail "chdir ./.. failed" else
  let+ fd := open (bytes_of "dd/dd/ffff") 0 in
  if fd <? 0 then fail "open dd/dd/ffff failed" else
  let+ r := read_to fd 8192 buf in
  let (cc, buf) := r in
  if negb (cc =? 2) then fail "read dd/dd/ffff wrong len" else
  close fd ;+
  let+ fd := open (bytes_of "dd/dd/ff") O_RDONLY in
  if 0 <=? fd then fail "open (unlinked) dd/dd/ff succeeded!" else
  let+ fd := open (bytes_of "dd/ff/ff") (Z.lor O_CREATE O_RDWR) in
  if 0 <=? fd then fail "create dd/ff/ff succeeded!" else
  let+ fd := open (bytes_of "dd/xx/ff") (Z.lor O_CREATE O_RDWR) in
  if 0 <=? fd then fail "create dd/xx/ff succeeded!" else
  let+ fd := open (bytes_of "dd") O_CREATE in
  if 0 <=? fd then fail "create dd succeeded!" else
  let+ fd := open (bytes_of "dd") O_RDWR in
  if 0 <=? fd then fail "open dd rdwr succeeded!" else
  let+ fd := open (bytes_of "dd") O_WRONLY in
  if 0 <=? fd then fail "open dd wronly succeeded!" else
  let+ r := link (bytes_of "dd/ff/ff") (bytes_of "dd/dd/xx") in
  if r =? 0 then fail "link dd/ff/ff dd/dd/xx succeeded!" else
  let+ r := link (bytes_of "dd/xx/ff") (bytes_of "dd/dd/xx") in
  if r =? 0 then fail "link dd/xx/ff dd/dd/xx succeeded!" else
  let+ r := link (bytes_of "dd/ff") (bytes_of "dd/dd/ffff") in
  if r =? 0 then fail "link dd/ff dd/dd/ffff succeeded!" else
  let+ r := mkdir (bytes_of "dd/ff/ff") in
  if r =? 0 then fail "mkdir dd/ff/ff succeeded!" else
  let+ r := mkdir (bytes_of "dd/xx/ff") in
  if r =? 0 then fail "mkdir dd/xx/ff succeeded!" else
  let+ r := mkdir (bytes_of "dd/dd/ffff") in
  if r =? 0 then fail "mkdir dd/dd/ffff succeeded!" else
  let+ r := unlink (bytes_of "dd/xx/ff") in
  if r =? 0 then fail "unlink dd/xx/ff succeeded!" else
  let+ r := unlink (bytes_of "dd/ff/ff") in
  if r =? 0 then fail "unlink dd/ff/ff succeeded!" else
  let+ r := chdir (bytes_of "dd/ff") in
  if r =? 0 then fail "chdir dd/ff succeeded!" else
  let+ r := chdir (bytes_of "dd/xx") in
  if r =? 0 then fail "chdir dd/xx succeeded!" else
  let+ r := unlink (bytes_of "dd/dd/ffff") in
  if negb (r =? 0) then fail "unlink dd/dd/ff failed" else
  let+ r := unlink (bytes_of "dd/ff") in
  if negb (r =? 0) then fail "unlink dd/ff failed" else
  let+ r := unlink (bytes_of "dd") in
  if r =? 0 then fail "unlink non-empty dd succeeded!" else
  let+ r := unlink (bytes_of "dd/dd") in
  if r <? 0 then fail "unlink dd/dd failed" else
  let+ r := unlink (bytes_of "dd") in
  if r <? 0 then fail "unlink dd failed" else
  ok "subdir ok" ;+
  pret buf.

Definition fourteen : P unit :=
  ok "fourteen test" ;+
  let+ r := mkdir (bytes_of "12345678901234") in
  if negb (r =? 0) then fail "mkdir 12345678901234 failed" else
  let+ r := mkdir (bytes_of "12345678901234/123456789012345") in
  if negb (r =? 0) then fail "mkdir 12345678901234/123456789012345 failed" else
  let+ fd := open (bytes_of "123456789012345/123456789012345/123456789012345") O_CREATE in
  if fd <? 0 then fail "create 123456789012345/123456789012345/123456789012345 failed" else
  close fd ;+
  let+ fd := open (bytes_of "12345678901234/12345678901234/12345678901234") 0 in
  if fd <? 0 then fail "open 12345678901234/12345678901234/12345678901234 failed" else
  close fd ;+
  let+ r := mkdir (bytes_of "12345678901234/12345678901234") in
  if r =? 0 then fail "mkdir 12345678901234/12345678901234 succeeded!" else
  let+ r := mkdir (bytes_of "123456789012345/12345678901234") in
  if r =? 0 then fail "mkdir 12345678901234/123456789012345 succeeded!" else
  ok "fourteen ok".

Definition rmdot : P unit :=
  ok "rmdot test" ;+
  let+ r := mkdir (bytes_of "dots") in
  if negb (r =? 0) then fail "mkdir dots failed" else
  let+ r := chdir (bytes_of "dots") in
  if negb (r =? 0) then fail "chdir dots failed" else
  let+ r := unlink (bytes_of ".") in
  if r =? 0 then fail "rm . worked!" else
  let+ r := unlink (bytes_of "..") in
  if r =? 0 then fail "rm .. worked!" else
  let+ r := chdir (bytes_of "/") in
  if negb (r =? 0) then fail "chdir / failed" else
  let+ r := unlink (bytes_of "dots/.") in
  if r =? 0 then fail "unlink dots/. worked!" else
  let+ r := unlink (bytes_of "dots/..") in
  if r =? 0 then fail "unlink dots/.. worked!" else
  let+ r := unlink (bytes_of "dots") in
  if negb (r =? 0) then fail "unlink dots failed!" else
  ok "rmdot ok".

Definition dirfile : P unit :=
  ok "dir vs file" ;+
  let+ fd := open (bytes_of "dirfile") O_CREATE in
  if fd <? 0 then fail "create dirfile failed" else
  close fd ;+
  let+ r := chdir (bytes_of "dirfile") in
  if r =? 0 then fail "chdir dirfile succeeded!" else
  let+ fd := open (bytes_of "dirfile/xx") 0 in
  if 0 <=? fd then fail "create dirfile/xx succeeded!" else
  let+ fd := open (bytes_of "dirfile/xx") O_CREATE in
  if 0 <=? fd then fail "create dirfile/xx succeeded!" else
  let+ r := mkdir (bytes_of "dirfile/xx") in
  if r =? 0 then fail "mkdir dirfile/xx succeeded!" else
  let+ r := unlink (bytes_of "dirfile/xx") in
  if r =? 0 then fail "unlink dirfile/xx succeeded!" else
  let+ r := link (bytes_of "README") (bytes_of "dirfile/xx") in
  if r =? 0 then fail "link to dirfile/xx succeeded!" else
  let+ r := unlink (bytes_of "dirfile") in
  if negb (r =? 0) then fail "unlink dirfile failed!" else
  let+ fd := open (bytes_of ".") O_RDWR in
  if 0 <=? fd then fail "open . for writing succeeded!" else
  let+ fd := open (bytes_of ".") 0 in
  let+ n := write fd (bytes_of "x") in
  if 0 <? n then fail "write . succeeded!" else
  close fd ;+
  ok "dir vs file OK".

Definition iref : P unit :=
  ok "empty file name" ;+
  pfor (seqZ 0 (50 + 1)) (fun _ =>
    let+ r := mkdir (bytes_of "irefd") in
    if negb (r =? 0) then fail "mkdir irefd failed" else
    let+ r := chdir (bytes_of "irefd") in
    if negb (r =? 0) then fail "chdir irefd failed" else
    mkdir [] ;+
    link (bytes_of "README") [] ;+
    let+ fd := open [] O_CREATE in
    (if 0 <=? fd then close fd ;+ pret tt else pret tt) ;+
    let+ fd := open (bytes_of "xx") O_CREATE in
    (if 0 <=? fd then close fd ;+ pret tt else pret tt) ;+
    unlink (bytes_of "xx") ;+
    pret tt) ;+
  chdir (bytes_of "/") ;+
  ok "empty file name OK".

(** ** Limits *)

(** The arguments of [exec]: a long string, MAXARG - 1 times. *)
Definition bigargtest : P unit :=
  unlink (bytes_of "bigarg-ok") ;+
  let+ pid := fork in
  if pid =? 0 then
    let args := replicate 31 (bytes_of "bigargs test: failed" ++ [10] ++ replicate 199 32) in
    ok "bigarg test" ;+
    exec (bytes_of "echo") args ;+
    ok "bigarg test ok" ;+
    let+ fd := open (bytes_of "bigarg-ok") O_CREATE in
    close fd ;+
    exit
  else if pid <? 0 then fail "bigargtest: fork failed" else
  wait ;+
  let+ fd := open (bytes_of "bigarg-ok") 0 in
  if fd <? 0 then fail "bigarg test failed!" else
  close fd ;+
  unlink (bytes_of "bigarg-ok") ;+
  pret tt.

Definition fsfull (buf : list Z) : P unit :=
  let full_name n := [102; u8 (48 + n / 1000); 48 + (n mod 1000) / 100; 48 + (n mod 100) / 10; 48 + n mod 10] in
  ok "fsfull test" ;+
  let+ nfiles := while (fun nfiles =>
    let name := full_name nfiles in
    printf 1 (bytes_of "writing %s" ++ [10]) [AStr (Some name)] ;+
    let+ fd := open name (Z.lor O_CREATE O_RDWR) in
    if fd <? 0 then printf 1 (bytes_of "open %s failed" ++ [10]) [AStr (Some name)] ;+ pret (inr nfiles) else
    let+ total := while (fun total =>
      let+ cc := write fd (take 512 buf) in
      if cc <? 512 then pret (inr total) else pret (inl (total + cc))) 0 in
    printf 1 (bytes_of "wrote %d bytes" ++ [10]) [AInt total] ;+
    close fd ;+
    if total =? 0 then pret (inr nfiles) else pret (inl (nfiles + 1))) 0 in
  pfor (reverse (seqZ 0 (nfiles + 1))) (fun n => unlink (full_name n) ;+ pret tt) ;+
  ok "fsfull test finished".

(** ** The calls that a program may make *)

Definition calls_of {A} (r : pres A) : list call :=
  match r with Goes _ _ tr | Over tr | Waits tr | Faults tr => tr end.

(** Every call satisfies [Q], whatever the answers are. *)
Definition only {A} (Q : call -> Prop) (m : P A) : Prop := forall l, Forall Q (calls_of (m l)).

Section Only.
Context (Q : call -> Prop).

Lemma only_ret {A} (a : A) : only Q (pret a).
Proof. intros l. constructor. Qed.
Lemma only_bind {A B} (m : P A) (f : A -> P B) : only Q m -> (forall a, only Q (f a)) -> only Q (pbind m f).
Proof.
  intros Hm Hf l. unfold pbind. specialize (Hm l). destruct (m l) as [a l' tr| | |]; try done. specialize (Hf a l').
  destruct (f a l'); cbn in *; by apply Forall_app.
Qed.
Lemma only_syscall c : Q c -> only Q (syscall c).
Proof. intros Hc [|a l]; by repeat constructor. Qed.
Lemma only_scall c : Q c -> only Q (scall c).
Proof. intros Hc. apply only_bind; [by apply only_syscall|]. intros a. apply only_ret. Qed.
Lemma only_exit {A} : Q CExit -> only (A := A) Q exit.
Proof. intros Hc l. by repeat constructor. Qed.
Lemma only_for {X} (xs : list X) f : (forall x, x ∈ xs -> only Q (f x)) -> only Q (pfor xs f).
Proof.
  induction xs as [|x xs IH]; intros Hf; cbn [pfor]; [apply only_ret|]. apply only_bind; [apply Hf; left|]. intros _. apply IH. intros y Hy. apply Hf. by right.
Qed.
Lemma only_for_state {X S} (xs : list X) (f : X -> S -> P S) : (forall x s, x ∈ xs -> only Q (f x s)) -> forall s, only Q (for_state xs s f).
Proof.
  induction xs as [|x xs IH]; intros Hf s; cbn [for_state]; [apply only_ret|]. apply only_bind; [apply Hf; left|]. intros s'. apply IH. intros y s2 Hy. apply Hf. by right.
Qed.
Lemma only_while {S A} (body : S -> P (S + A)) : (forall s, only Q (body s)) -> forall s, only Q (while body s).
Proof.
  intros Hb s l. unfold while. generalize (Datatypes.S (length l)). intros n. revert s l. induction n as [|n IH]; intros s l; cbn [while_n]; [constructor|].
  apply only_bind; [apply Hb|]. intros [s'|a]; [intros l'; apply IH|apply only_ret].
Qed.

(** A program may print if every [write] to descriptor 1 is allowed. *)
Hypothesis Hprint : forall bs, Q (CWrite 1 bs).
Lemma only_putc c : only Q (putc 1 c).
Proof using Hprint. apply only_bind; [by apply only_scall|]. intros. apply only_ret. Qed.
Lemma only_printf fmt ap : only Q (printf 1 fmt ap).
Proof using Hprint.
  unfold printf. generalize false. revert ap. induction fmt as [|c fmt IH]; intros ap state; cbn [printf_loop]; cbv zeta; [apply only_ret|].
  assert (forall xx base sgn, only Q (printint 1 xx base sgn)) as Hi.
  { intros xx base sgn. unfold printint. destruct (put_digits _ _ _ _); [|intros l; constructor].
    destruct (if _ && _ then _ else _); [apply only_for; intros; apply only_putc|intros l'; constructor]. }
  repeat case_match; repeat (apply only_bind; [first [apply only_putc|apply Hi|apply only_for; intros; apply only_putc]|intros _]); apply IH.
Qed.
Lemma only_ok s : only Q (ok s).
Proof using Hprint. apply only_printf. Qed.
Lemma only_fail {A} s : Q CExit -> only (A := A) Q (fail s).
Proof using Hprint. intros Hc. apply only_bind; [apply only_printf|]. intros _. by apply only_exit. Qed.
Lemma only_read_to fd n buf : Q (CRead fd n) -> only Q (read_to fd n buf).
Proof using. intros Hc. apply only_bind; [apply only_bind; [by apply only_syscall|intros; apply only_ret]|]. intros [k d]. apply only_ret. Qed.
End Only.

(** One step of a program, for calls that are allowed by computation. *)
Ltac only_step :=
  match goal with
  | |- only _ (pret _) => apply only_ret
  | |- only _ exit => apply only_exit
  | |- only _ (ok _) => apply only_ok
  | |- only _ (fail _) => apply only_fail
  | |- only _ (printf 1 _ _) => apply only_printf
  | |- only _ (read_to _ _ _) => apply only_read_to
  | |- only _ (pbind _ _) => apply only_bind
  | |- only _ (pfor _ _) => apply only_for
  | |- only _ (for_state _ _ _) => apply only_for_state
  | |- only _ (while _ _) => apply only_while
  | |- only _ (if ?b then _ else _) => destruct b eqn:?
  | |- only _ (let (_, _) := ?p in _) => destruct p
  | |- only _ ?m => progress (cbv beta zeta) || (unfold fork, wait, open, close, unlink, write, link; apply only_scall)
  | |- forall _, _ => intros ?
  end.

(** createdelete.  The processes create p0, q0, r0 and s0, and the test
    requires that they exist; but no call removes q0, r0 or s0, because the
    last loop takes the first letter of the name from [i], not from [pi]. *)
Theorem createdelete_leaves_files pi l : 1 <= pi < 4 -> CUnlink [112 + pi; 48] ∉ calls_of (createdelete l).
Proof.
  intros Hpi Hin. assert (only (fun c => c <> CUnlink [112 + pi; 48]) createdelete) as H.
  { unfold createdelete. repeat only_step; try done.
    - intros [= E1 E2]. match goal with E : (0 <? ?i) && _ = true |- _ => apply andb_prop in E as [E3 E4]; clear -E2 E3 E4 end.
      apply Z.ltb_lt in E3. apply Z.eqb_eq in E4. Z.div_mod_to_equations. lia.
    - intros [= E1 E2]. lia. }
  specialize (H l). rewrite Forall_forall in H. by apply (H _ Hin).
Qed.

(** fourfiles.  Four processes write f0 to f3, but only f0 and f1 are read
    back, and only these are removed in the end. *)
Theorem fourfiles_reads_two buf i l : 2 <= i < 4 -> COpen [102; 48 + i] 0 ∉ calls_of (fourfiles buf l).
Proof.
  intros Hi Hin. assert (only (fun c => c <> COpen [102; 48 + i] 0) (fourfiles buf)) as H.
  { unfold fourfiles. repeat only_step; try done.
    intros [= E1]. match goal with E : _ ∈ seqZ 0 2 |- _ => apply elem_of_seqZ in E end. lia. }
  specialize (H l). rewrite Forall_forall in H. by apply (H _ Hin).
Qed.

(** writetest1.  The test compares the number of blocks it read with
    MAXFILE - 1 only: a file that is empty after its 140 blocks were written
    passes. *)
Definition answers (n : nat) (r : Z) : list ans := replicate n (mkans r []).
Lemma writetest1_passes_empty_file :
  exists tr, writetest1 (replicate (Z.to_nat 8192) 0) (answers 15 1 ++ answers 1 3 ++ answers 140 512 ++ answers 1 0 ++ answers 1 3 ++ answers 1 0 ++ answers 2 0 ++ answers 13 1) =
    Goes (bytes32 139 ++ replicate (Z.to_nat 8188) 0) [] tr /\ last tr = Some (CWrite 1 [10]).
Proof. eexists. split; vm_compute; reflexivity. Qed.

(** ** What the pipe test accepts *)

(** The bytes 0, 1, 2, .., from [from] on. *)
Definition counting (from : Z) (n : nat) : str := (fun k => u8 (from + k)) <$> seqZ 0 (Z.of_nat n).

Lemma counting_app from n m : counting from (n + m) = counting from n ++ counting (from + Z.of_nat n) m.
Proof.
  unfold counting. rewrite Nat2Z.inj_add, (seqZ_app 0 (Z.of_nat n)) by lia. rewrite fmap_app. f_equal. rewrite Z.add_0_l.
  replace (seqZ (Z.of_nat n) (Z.of_nat m)) with (Z.add (Z.of_nat n) <$> seqZ 0 (Z.of_nat m)) by (rewrite fmap_add_seqZ; f_equal; lia).
  rewrite <- list_fmap_compose. apply list_fmap_ext. intros i k _. cbn. f_equal. lia.
Qed.
Lemma length_counting from n : length (counting from n) = n.
Proof. unfold counting. rewrite length_fmap, length_seqZ. lia. Qed.

(** The pieces that the reads return: not more than was asked for. *)
Fixpoint piece_sizes (cc : Z) (cs : list str) : Prop :=
  match cs with
  | [] => True
  | d :: cs' => d <> [] /\ Z.of_nat (length d) <= cc /\ Forall (fun b => 0 <= b < 256) d /\ piece_sizes (Z.min (cc * 2) 8192) cs'
  end.

Lemma consumes_read_to fd n buf : consumes (read_to fd n buf).
Proof. apply consumes_bind; [apply consumes_read|]. intros [k d]. apply shrinks_ret. Qed.
Lemma consumes_pipe1 fd st : consumes (pipe1_body fd st).
Proof.
  destruct st as [[[seq cc] total] buf]. apply consumes_bind; [apply consumes_read_to|]. intros [n b].
  repeat case_match; repeat first [apply shrinks_ret | apply shrinks_bind; [apply shrinks_printf|intros]].
Qed.

Lemma read_to_piece {A} fd cc d buf (k : Z * list Z -> P A) l : Z.of_nat (length d) <= cc ->
  pbind (read_to fd cc buf) k (piece d :: l) = pbind (fun l => Goes tt l [CRead fd cc]) (fun _ => k (Z.of_nat (length d), d ++ drop (length d) buf)) l.
Proof.
  intros Hl. unfold read_to, read, syscall, pbind, pret, piece. cbn [retval data]. rewrite (proj2 (Z.ltb_ge _ 0)) by lia. rewrite take_ge by lia. done.
Qed.

Lemma pipe1_loop fd l : forall cs seq cc total buf, 0 < cc -> piece_sizes cc cs ->
  let n := length (concat cs) in
  (exists buf' tr, while (pipe1_body fd) (seq, cc, total, buf) ((piece <$> cs) ++ mkans 0 [] :: l) = Goes (Some (total + Z.of_nat n), buf') l tr) <->
  concat cs = counting seq n.
Proof.
  induction cs as [|d cs IH]; intros seq cc total buf Hcc Hp n; rewrite while_unfold by apply consumes_pipe1.
  - split; [intros _; reflexivity|]. intros _. exists buf, [CRead fd cc]. cbn [fmap list_fmap app]. change (mkans 0 []) with (piece []). unfold pipe1_body at 1.
    rewrite pbind_assoc, read_to_piece by (cbn; lia). unfold n. cbn [concat length]. replace (total + Z.of_nat 0) with total by lia. reflexivity.
  - destruct Hp as (Hd & Hl & Hb & Hp). rewrite fmap_cons. cbn [app]. unfold pipe1_body at 1. rewrite pbind_assoc, read_to_piece by done.
    assert (0 < Z.of_nat (length d)) as H0 by (destruct d; [done|cbn; lia]). erewrite pbind_goes by reflexivity. cbv beta iota.
    rewrite (proj2 (Z.ltb_lt 0 _)) by done. rewrite Nat2Z.id, take_app_length.
    assert (u8 <$> d = d) as Eu. { rewrite <- (list_fmap_id d) at 2. apply list_fmap_ext. intros i b Hi. apply Z.mod_small. rewrite Forall_forall in Hb. apply Hb. by eapply list_elem_of_lookup_2. }
    rewrite Eu. fold (counting seq (length d)). cbn [concat] in n |- *. assert (n = length d + length (concat cs))%nat as En by (unfold n; apply length_app).
    rewrite En, counting_app. case_bool_decide as Ed.
    + rewrite pbind_ret. specialize (IH (seq + Z.of_nat (length d)) (Z.min (cc * 2) 8192) (total + Z.of_nat (length d)) (d ++ drop (length d) buf) ltac:(lia) Hp). cbv zeta in IH.
      rewrite <- Ed. replace (total + Z.of_nat (length d + length (concat cs))) with (total + Z.of_nat (length d) + Z.of_nat (length (concat cs))) by lia.
      transitivity (concat cs = counting (seq + Z.of_nat (length d)) (length (concat cs))); [|split; [by intros <-|apply app_inv_head]].
      rewrite <- IH. split; intros (buf' & tr & E).
      * destruct (while _ _ _) as [a l' tr'| | |]; try done. injection E as -> -> _. by exists buf', tr'.
      * rewrite E. by eexists _, _.
    + split.
      * intros (buf' & tr & E). rewrite pbind_assoc in E. exfalso. revert E. unfold pbind, pret. by destruct (ok "pipe1 oops 2" _).
      * intros E. exfalso. apply Ed. apply (f_equal (take (length d))) in E. rewrite take_app_length in E.
        by rewrite take_app_length' in E by (by rewrite length_counting).
Qed.

(** pipe1.  However the bytes come in pieces, the loop of the parent ends
    with their number, without a report, exactly if they are 0, 1, 2, ..
    modulo 256: the test accepts no lost, added, changed or reordered byte. *)
Theorem pipe1_accepts fd cs buf l : piece_sizes 1 cs ->
  let n := length (concat cs) in
  (exists buf' tr, while (pipe1_body fd) (0, 1, 0, buf) ((piece <$> cs) ++ mkans 0 [] :: l) = Goes (Some (Z.of_nat n), buf') l tr) <->
  concat cs = counting 0 n.
Proof. intros Hp. apply (pipe1_loop fd l cs 0 1 0 buf ltac:(lia) Hp). Qed.
