(* ===== verification/Consdev.v ===== *)
(** * console.c: the console as a device

    Input is collected in a ring buffer by the interrupt handler, which
    edits the line, and is read by [consoleread] a line at a time.
    [procdump] of proc.c is here because the handler calls it. *)

From stdpp Require Import base numbers list gmap strings.
From S2P Require Import Prelude Kernel Spinlock Sched Kalloc Console Umem Intr Kbd Sleeplock Buf Bio Log Inode.

Section Consdev.
Context `{Driver}.

Definition INPUT_BUF : Z := 128.
Definition CONSOLE : Z := 1.

(** ** spinlock.c: getcallerpcs *)

(** The return addresses found by following saved frame pointers from
    [ebp]; the rest of the ten entries are 0. *)
Fixpoint callerpcs (m : gmap Z Z) (ebp : Z) (n : nat) : list Z :=
  match n with
  | O => []
  | S n' =>
      if (ebp =? 0) || (ebp <? KERNBASE) || (ebp =? 4294967295) then replicate n 0
      else load32 m (V2P (u32 (ebp + 4))) :: callerpcs m (load32 m (V2P ebp)) n'
  end.
Definition getcallerpcs (m : gmap Z Z) (v : Z) : list Z := callerpcs m (u32 (v - 8)) 10.

(** ** proc.c: procdump *)

Definition state_name (st : procstate) : list Z :=
  match st with
  | UNUSED => bytes_of "unused" | EMBRYO => bytes_of "embryo" | SLEEPING => bytes_of "sleep "
  | RUNNABLE => bytes_of "runble" | RUNNING => bytes_of "run   " | ZOMBIE => bytes_of "zombie"
  end.

(** The characters of a C string held in an array. *)
Fixpoint cstr (l : list Z) : list Z :=
  match l with [] => [] | c :: l' => if c =? 0 then [] else c :: cstr l' end.

Definition procdump : M unit :=
  for_each (seq 0 NPROC) (fun i =>
    let! p := get_proc i in
    if bool_decide (state p = UNUSED) then ret tt else
    cprintf (bytes_of "%d %s %s") [AInt (pid p); AStr (Some (state_name (state p))); AStr (Some (cstr (name p)))] ;;
    let! p := get_proc i in
    when (bool_decide (state p = SLEEPING))
      (let! m := gets phys in
       for_each (cstr (getcallerpcs m (u32 (cx_ebp (p_context p) + 8)))) (fun pc =>
         cprintf (bytes_of " %p") [AInt pc])) ;;
    cprintf [ch_newline] []).

(** ** The interrupt handler *)

Definition mod_input (f : inbuf -> inbuf) : M unit := modify (fun s => set_input (f (input s)) s).
Definition in_at (x : inbuf) (i : Z) : Z := nth (Z.to_nat (i mod INPUT_BUF)) (in_buf x) 0.

(** Kill line: at most a buffer of characters is erased. *)
Definition kill_line : M unit :=
  loop_n (S (Z.to_nat INPUT_BUF)) (fun _ : unit =>
    let! x := gets input in
    if negb (in_e x =? in_w x) && negb (in_at x (u32 (in_e x - 1)) =? ch_newline) then
      mod_input (set_in_e (u32 (in_e x - 1))) ;;
      consputc BACKSPACE ;;
      ret (inl tt)
    else ret (inr tt)) tt.

(** The [switch] on a character; the result is whether it asks for a
    process listing. *)
Definition consolechar (c : Z) : M bool :=
  if c =? C 80 (* P *) then ret true else
  if c =? C 85 (* U *) then kill_line ;; ret false else
  if (c =? C 72 (* H *)) || (c =? 127) then
    let! x := gets input in
    when (negb (in_e x =? in_w x))
      (mod_input (set_in_e (u32 (in_e x - 1))) ;; consputc BACKSPACE) ;;
    ret false
  else
    let! x := gets input in
    when (negb (c =? 0) && (u32 (in_e x - in_r x) <? INPUT_BUF))
      (let c := if c =? 13 then ch_newline else c in
       mod_input (fun x =>
         set_in_e (u32 (in_e x + 1))
           (set_in_buf (<[Z.to_nat (in_e x mod INPUT_BUF) := u8 c]> (in_buf x)) x)) ;;
       consputc c ;;
       let! x := gets input in
       when ((c =? ch_newline) || (c =? C 68 (* D *)) || (in_e x =? u32 (in_r x + INPUT_BUF)))
         (mod_input (fun x => set_in_w (in_e x) x) ;; wakeup CInput)) ;;
    ret false.

(** Each turn takes a byte from one of the devices. *)
Definition consoleintr (getc : M Z) : M unit :=
  acquire LCons ;;
  let! n := gets (fun s => S (length (kbd_in s) + length (uart_in s))) in
  let! doprocdump := loop_n n (fun dump : bool =>
    let! c := getc in
    if c <? 0 then ret (inr dump) else
    let! d := consolechar c in
    ret (inl (dump || d))) false in
  release LCons ;;
  when doprocdump procdump.

Definition kbdintr : M unit := consoleintr kbdgetc.
Definition uartintr : M unit := consoleintr uartgetc.

(** ** The device *)

(** [ *dst++ = c ] stores at the offsets 0, 1, ... of the destination;
    [n] is the room left.  The result is [None] if the process is killed
    while it waits, and otherwise the room left and what was stored. *)
Fixpoint consoleread_loop (fuel : nat) (dst : Z -> list Z -> M unit) (target n : Z) (got : list Z) :
    M (option (Z * list Z)) :=
  if n <=? 0 then ret (Some (n, got)) else
  match fuel with
  | O => halt WFuel
  | S f =>
      let! k := wait_loop (fun _ : unit =>
        let! x := gets input in
        if negb (in_r x =? in_w x) then ret (inr false) else
        let! (_, p) := myproc_get in
        if killed p then ret (inr true) else
        sleep CInput LCons ;; ret (inl tt)) tt in
      if (k : bool) then ret None else
      let! x := gets input in
      let c := in_at x (in_r x) in
      mod_input (set_in_r (u32 (in_r x + 1))) ;;
      if c =? C 68 (* D *) then
        when (n <? target) (mod_input (fun x => set_in_r (u32 (in_r x - 1)) x)) ;;
        ret (Some (n, got))
      else
        dst (target - n) [c] ;;
        if c =? ch_newline then ret (Some (n - 1, got ++ [c]))
        else consoleread_loop f dst target (n - 1) (got ++ [c])
  end.

(** The result and the bytes stored. *)
Definition consoleread (i : nat) (dst : Z -> list Z -> M unit) (n : Z) : M (Z * list Z) :=
  iunlock (Some i) ;;
  acquire LCons ;;
  let! r := consoleread_loop (Z.to_nat n) dst n n [] in
  release LCons ;;
  ilock (Some i) ;;
  match r with
  | None => ret (-1, [])
  | Some (rest, got) => ret (n - rest, got)
  end.

(** [src off 1] is the byte at offset [off] of the source. *)
Definition consolewrite (i : nat) (src : Z -> nat -> M (list Z)) (n : Z) : M Z :=
  iunlock (Some i) ;;
  acquire LCons ;;
  for_each (seqZ 0 n) (fun k =>
    let! b := src k 1%nat in
    consputc (Z.land (hd 0 b) 255)) ;;
  release LCons ;;
  ilock (Some i) ;;
  ret n.

Definition consoleinit : M unit :=
  initlock LCons ;;
  modify (set_devsw_console true) ;;
  modify (set_cons_locking true) ;;
  picenable IRQ_KBD ;;
  ioapicenable IRQ_KBD 0.
End Consdev.
