(* ===== verification/Tty.v ===== *)
(** * The console's line discipline

    The input buffer of console.c is a ring with three counters that wrap at
    32 bits.  What it means is a pair of lists: the characters that readers
    may have, and the line that is being edited. *)

From stdpp Require Import base numbers list gmap strings.
From S2P Require Import Prelude Kernel Spinlock Sched Console Kbd Consdev.

(** ** The editor *)

Record tty := mktty { t_ready : list Z; t_line : list Z }.

Definition full (t : tty) : bool := INPUT_BUF <=? Z.of_nat (length (t_ready t) + length (t_line t)).

(** What a character does, and what is echoed. *)
Definition commit_line (t : tty) : tty := mktty (t_ready t ++ t_line t) [].
Definition typed (c : Z) (t : tty) : tty :=
  let c := if c =? 13 then ch_newline else c in
  let t' := mktty (t_ready t) (t_line t ++ [c]) in
  if (c =? ch_newline) || (c =? C 68) || full t' then commit_line t' else t'.
Definition edit (c : Z) (t : tty) : tty :=
  if c =? C 80 then t else
  if c =? C 85 then mktty (t_ready t) [] else
  if (c =? C 72) || (c =? 127) then mktty (t_ready t) (take (length (t_line t) - 1) (t_line t)) else
  if (c =? 0) || full t then t else typed c t.
Definition echo (c : Z) (t : tty) : list Z :=
  if c =? C 80 then [] else
  if c =? C 85 then concat (replicate (length (t_line t)) [8; 32; 8]) else
  if (c =? C 72) || (c =? 127) then (if decide (t_line t = []) then [] else [8; 32; 8]) else
  if (c =? 0) || full t then [] else [if c =? 13 then ch_newline else c].

(** ** The ring *)

Record holds (x : inbuf) (t : tty) : Prop := {
  h_len : length (in_buf x) = Z.to_nat INPUT_BUF;
  h_r : 0 <= in_r x < 4294967296;
  h_w : in_w x = u32 (in_r x + Z.of_nat (length (t_ready t)));
  h_e : in_e x = u32 (in_r x + Z.of_nat (length (t_ready t) + length (t_line t)));
  h_room : Z.of_nat (length (t_ready t) + length (t_line t)) <= INPUT_BUF;
  h_at : forall k c, (t_ready t ++ t_line t) !! k = Some c -> in_at x (in_r x + Z.of_nat k) = c;
}.

Lemma in_at_mod x i j : i mod INPUT_BUF = j mod INPUT_BUF -> in_at x i = in_at x j.
Proof. unfold in_at. by intros ->. Qed.

Lemma u32_mod_input i : u32 i mod INPUT_BUF = i mod INPUT_BUF.
Proof. unfold u32, INPUT_BUF. Z.div_mod_to_equations. lia. Qed.

Lemma holds_empty x t : holds x t -> (in_e x =? in_w x) = bool_decide (t_line t = []).
Proof.
  intros [H1 H2 H3 H4 H5 H6]. apply eq_true_iff_eq. rewrite Z.eqb_eq, bool_decide_eq_true, H3, H4.
  assert (t_line t = [] <-> length (t_line t) = 0%nat) as -> by (destruct (t_line t); cbn; split; done || lia).
  unfold INPUT_BUF, u32 in *. Z.div_mod_to_equations. lia.
Qed.

Lemma holds_full x t : holds x t -> (u32 (in_e x - in_r x) <? INPUT_BUF) = negb (full t).
Proof.
  intros [H1 H2 H3 H4 H5 H6]. unfold full. rewrite H4, Z.leb_antisym, negb_involutive. f_equal.
  unfold INPUT_BUF, u32 in *. Z.div_mod_to_equations. lia.
Qed.

Lemma holds_at_end x t : holds x t -> (in_e x =? u32 (in_r x + INPUT_BUF)) = full t.
Proof.
  intros [H1 H2 H3 H4 H5 H6]. unfold full. rewrite H4. apply eq_true_iff_eq. rewrite Z.eqb_eq, Z.leb_le.
  unfold INPUT_BUF, u32 in *. Z.div_mod_to_equations. lia.
Qed.

(** Erasing the last character. *)
Lemma holds_erase x r l c :
  holds x (mktty r (l ++ [c])) ->
  holds (set_in_e (u32 (in_e x - 1)) x) (mktty r l) /\ in_at x (u32 (in_e x - 1)) = c.
Proof.
  intros [H1 H2 H3 H4 H5 H6]. cbn [t_ready t_line] in *. rewrite length_app in *. cbn [length] in *.
  assert (u32 (in_e x - 1) = u32 (in_r x + Z.of_nat (length r + length l))) as E.
  { rewrite H4, u32_sub_l. f_equal. lia. }
  split.
  - constructor; cbn [in_buf in_r in_w in_e set_in_e t_ready t_line]; [done|done|done|done|lia|].
    intros k d Hk. apply (H6 k d). rewrite app_assoc. by apply lookup_app_l_Some.
  - rewrite E. rewrite <- (H6 (length r + length l)%nat c).
    + apply in_at_mod, u32_mod_input.
    + rewrite app_assoc, lookup_app_r; rewrite length_app; [|lia]. by rewrite Nat.sub_diag.
Qed.

(** Storing a character. *)
Definition put_char (c : Z) (x : inbuf) : inbuf :=
  set_in_e (u32 (in_e x + 1)) (set_in_buf (<[Z.to_nat (in_e x mod INPUT_BUF) := u8 c]> (in_buf x)) x).

Lemma holds_put x t c :
  holds x t -> full t = false -> 0 <= c < 256 ->
  holds (put_char c x) (mktty (t_ready t) (t_line t ++ [c])).
Proof.
  intros [H1 H2 H3 H4 H5 H6] Hf Hc. unfold full in Hf. apply Z.leb_gt in Hf.
  set (n := (length (t_ready t) + length (t_line t))%nat) in *.
  assert (in_e x mod INPUT_BUF = (in_r x + Z.of_nat n) mod INPUT_BUF) as He by (rewrite H4; apply u32_mod_input).
  constructor; cbn [in_buf in_r in_w in_e put_char set_in_e set_in_buf t_ready t_line].
  - by rewrite length_insert.
  - done.
  - done.
  - rewrite H4, u32_add_l, length_app. cbn [length]. f_equal. lia.
  - rewrite length_app. cbn [length]. lia.
  - intros k d Hk. rewrite app_assoc in Hk. unfold in_at. cbn [in_buf put_char set_in_e set_in_buf]. rewrite He.
    destruct (decide (k = n)) as [->|Hne].
    + rewrite lookup_app_r in Hk by (rewrite length_app; lia).
      rewrite length_app, Nat.sub_diag in Hk. injection Hk as <-.
      rewrite nth_lookup, list_lookup_insert_eq; [cbn; unfold u8; by apply Z.mod_small|].
      rewrite H1. pose proof (Z.mod_pos_bound (in_r x + Z.of_nat n) INPUT_BUF). unfold INPUT_BUF in *. lia.
    + assert (k < n)%nat as Hkn.
      { apply lookup_lt_Some in Hk. rewrite !length_app in Hk. cbn [length] in Hk. lia. }
      rewrite lookup_app_l in Hk by (rewrite length_app; lia). rewrite <- (H6 k d Hk). unfold in_at.
      rewrite !nth_lookup, list_lookup_insert_ne; [done|]. unfold INPUT_BUF in *. Z.div_mod_to_equations. lia.
Qed.

Lemma holds_commit x t : holds x t -> holds (set_in_w (in_e x) x) (commit_line t).
Proof.
  intros [H1 H2 H3 H4 H5 H6]. unfold commit_line.
  constructor; cbn [in_buf in_r in_w in_e set_in_w t_ready t_line length]; rewrite ?length_app, ?Nat.add_0_r, ?app_nil_r; done.
Qed.

(** ** The handler *)

(** The console can be written to, and the buffer holds [t]; a line has no
    newline. *)
Record console (t : tty) (s : kst) : Prop := {
  cs_screen : screen_ok s;
  cs_input : holds (input s) t;
  cs_line : ch_newline ∉ t_line t;
  cs_table : locks s !! LPtable = None;
  cs_cpu : wf_cpu (kcpu s);
  cs_crit : crit (kcpu s) = kcpu s;
}.

(** What the handler leaves alone, and what it sends to the serial line. *)
Definition sent (out : list Z) (s s' : kst) : Prop :=
  uart_out s' = uart_out s ++ (if uart s then out else []) /\
  locks s' = locks s /\ kcpu s' = kcpu s /\ uart s' = uart s /\ uart_in s' = uart_in s /\ kbd_in s' = kbd_in s.

Lemma sent_trans o1 o2 s1 s2 s3 : sent o1 s1 s2 -> sent o2 s2 s3 -> sent (o1 ++ o2) s1 s3.
Proof.
  intros (A1 & A2 & A3 & A4 & A5 & A6) (B1 & B2 & B3 & B4 & B5 & B6). split_and!; try congruence.
  rewrite B1, A1, A4. destruct (uart s1); [by rewrite app_assoc|by rewrite !app_nil_r].
Qed.

Lemma sent_nil s : sent [] s s.
Proof. split_and!; try done. by destruct (uart s); rewrite app_nil_r. Qed.

(** Changing the buffer and echoing a character. *)
Lemma echo_run t t' s f c env :
  console t s -> holds (f (input s)) t' -> ch_newline ∉ t_line t' ->
  exists s', (mod_input f ;; consputc c) env s = Ok tt s' env /\ console t' s' /\ input s' = f (input s) /\
    sent (uart_chars c) s s'.
Proof.
  intros [C1 C2 C3 C4 C5 C6] Hh Hn. unfold mod_input. rewrite bind_modify.
  destruct (consputc_run c env (set_input (f (input s)) s)) as (scr & p & E & Hs); [done|].
  rewrite E. eexists. split; [done|]. split; [by constructor|]. split; [done|]. by split_and!.
Qed.

Lemma bind_two {A} (m1 m2 : M unit) (k : M A) env s s' :
  (m1 ;; m2) env s = Ok tt s' env -> (m1 ;; m2 ;; k) env s = k env s'.
Proof. unfold bind. destruct (m1 env s) as [a t e| |]; [|done|done]. by intros ->. Qed.

Lemma kill_line_run : forall n l r s env,
  console (mktty r l) s -> (length l < n)%nat ->
  exists s', loop_n n (fun _ : unit =>
    let! x := gets input in
    if negb (in_e x =? in_w x) && negb (in_at x (u32 (in_e x - 1)) =? ch_newline) then
      mod_input (set_in_e (u32 (in_e x - 1))) ;; consputc BACKSPACE ;; ret (inl tt)
    else ret (inr tt)) tt env s = Ok tt s' env /\
  console (mktty r []) s' /\ sent (concat (replicate (length l) [8; 32; 8])) s s'.
Proof.
  induction n as [|n IH]; intros l r s env Hc Hn; [lia|]. cbn [loop_n]. rewrite bind_assoc, bind_gets.
  rewrite (holds_empty _ _ (cs_input _ _ Hc)). destruct l as [|c l _] using rev_ind.
  - rewrite bool_decide_eq_true_2 by done. cbn. exists s. split; [done|]. split; [done|apply sent_nil].
  - rewrite bool_decide_eq_false_2 by (cbn; by destruct l). destruct (holds_erase _ _ _ _ (cs_input _ _ Hc)) as [He Ha].
    rewrite Ha. assert (c =? ch_newline = false) as ->.
    { apply Z.eqb_neq. intros ->. apply (cs_line _ _ Hc), elem_of_app. right. by left. }
    cbn [negb andb].
    destruct (echo_run _ (mktty r l) s _ BACKSPACE env Hc He) as (s1 & E & Hc1 & _ & Hs1).
    { intros Hin. apply (cs_line _ _ Hc), elem_of_app. by left. }
    rewrite (bind_ok _ _ _ _ _ _ _ (bind_two _ _ (ret (inl tt)) _ _ _ E)).
    rewrite length_app in Hn |- *. cbn [length] in *.
    destruct (IH l r s1 env Hc1 ltac:(lia)) as (s2 & E2 & Hc2 & Hs2). exists s2. split; [exact E2|]. split; [done|].
    replace (length l + 1)%nat with (1 + length l)%nat by lia. cbn [replicate concat Nat.add].
    eapply sent_trans; [exact Hs1|exact Hs2].
Qed.

Lemma erase_run t s env :
  console t s ->
  exists s', (let! x := gets input in
    when (negb (in_e x =? in_w x)) (mod_input (set_in_e (u32 (in_e x - 1))) ;; consputc BACKSPACE) ;; ret false) env s
    = Ok false s' env /\
  console (mktty (t_ready t) (take (length (t_line t) - 1) (t_line t))) s' /\
  sent (if decide (t_line t = []) then [] else [8; 32; 8]) s s'.
Proof.
  intros Hc. rewrite bind_gets, (holds_empty _ _ (cs_input _ _ Hc)). destruct t as [r l]. cbn [t_line t_ready].
  destruct l as [|c l _] using rev_ind.
  - rewrite bool_decide_eq_true_2, decide_True by done. exists s. split; [done|]. split; [done|apply sent_nil].
  - rewrite bool_decide_eq_false_2, decide_False by (by destruct l).
    rewrite length_app, take_app_le, take_ge by (cbn [length]; lia).
    destruct (holds_erase _ _ _ _ (cs_input _ _ Hc)) as [He _].
    destruct (echo_run _ (mktty r l) s _ BACKSPACE env Hc He) as (s1 & E & Hc1 & _ & Hs1).
    { intros Hin. apply (cs_line _ _ Hc), elem_of_app. by left. }
    exists s1. split; [|by split]. cbn [negb when]. by rewrite (bind_ok _ _ _ _ _ _ _ E).
Qed.

(** Making the line available to readers. *)
Lemma commit_run t s env :
  screen_ok s -> holds (input s) t -> locks s !! LPtable = None -> wf_cpu (kcpu s) -> crit (kcpu s) = kcpu s ->
  exists s', (mod_input (fun x => set_in_w (in_e x) x) ;; wakeup CInput) env s = Ok tt s' env /\
    console (commit_line t) s' /\ sent [] s s'.
Proof.
  intros C1 C2 C4 C5 C6. unfold mod_input. rewrite bind_modify, wakeup_run by done. eexists. split; [done|]. split.
  - constructor; [done|by apply holds_commit|cbn; by apply not_elem_of_nil|done|done|cbn; by rewrite crit_idem].
  - destruct (sent_nil s) as (? & ?). by split_and!.
Qed.

Lemma typed_run t s c env :
  console t s -> full t = false -> 0 <= c < 256 -> c <> 13 ->
  let t' := mktty (t_ready t) (t_line t ++ [c]) in
  exists s', (mod_input (put_char c) ;;
    consputc c ;;
    let! x := gets input in
    when ((c =? ch_newline) || (c =? C 68) || (in_e x =? u32 (in_r x + INPUT_BUF)))
      (mod_input (fun x => set_in_w (in_e x) x) ;; wakeup CInput)) env s = Ok tt s' env /\
  console (if (c =? ch_newline) || (c =? C 68) || full t' then commit_line t' else t') s' /\ sent [c] s s'.
Proof.
  intros [C1 C2 C3 C4 C5 C6] Hf Hc H13 t'. pose proof (holds_put _ _ c C2 Hf Hc) as Hh. fold t' in Hh.
  unfold mod_input at 1. rewrite bind_modify.
  destruct (consputc_run c env (set_input (put_char c (input s)) s)) as (scr & p & E & Hs); [done|].
  rewrite (bind_ok _ _ _ _ _ _ _ E), bind_gets. cbn [input redrawn set_crt set_crt_pos set_uart_out set_input].
  rewrite (holds_at_end _ _ Hh). set (s1 := redrawn _ _ _ _) in *.
  assert (sent [c] s s1) as Hs1.
  { split_and!; try done. cbn. unfold uart_chars. rewrite (proj2 (Z.eqb_neq c BACKSPACE)) by (unfold BACKSPACE; lia).
    unfold u8. by rewrite Z.mod_small. }
  destruct (_ || _) eqn:Ec; cbn [when].
  - destruct (commit_run t' s1 env Hs Hh C4 C5 C6) as (s2 & E2 & Hc2 & Hs2). exists s2. split; [exact E2|]. split; [done|].
    rewrite <- (app_nil_r [c]). by eapply sent_trans.
  - exists s1. split; [done|]. split; [|done]. constructor; try done. cbn.
    apply orb_false_iff in Ec as [[En%Z.eqb_neq _]%orb_false_iff _].
    rewrite elem_of_app, list_elem_of_singleton. intros [Hin|Hin]; [by apply C3|]. by subst c.
Qed.

(** One character. *)
Lemma consolechar_run t s c env :
  console t s -> 0 <= c < 256 ->
  exists s', consolechar c env s = Ok (c =? C 80) s' env /\ console (edit c t) s' /\ sent (echo c t) s s'.
Proof.
  intros Hc Hr. unfold consolechar, edit, echo. destruct (Z.eqb_spec c (C 80)) as [->|HP].
  { exists s. split; [done|]. split; [done|apply sent_nil]. }
  destruct (c =? C 85).
  { destruct t as [r l]. destruct (kill_line_run (S (Z.to_nat INPUT_BUF)) l r s env Hc) as (s' & E & Hc' & Hs').
    { pose proof (h_room _ _ (cs_input _ _ Hc)). cbn in H. lia. }
    exists s'. split; [|by split]. unfold kill_line. by rewrite (bind_ok _ _ _ _ _ _ _ E). }
  destruct ((c =? C 72) || (c =? 127)); [by apply erase_run|].
  rewrite bind_gets, (holds_full _ _ (cs_input _ _ Hc)), <- negb_orb.
  destruct ((c =? 0) || full t) eqn:Ef; cbn [negb when].
  { exists s. split; [done|]. split; [done|apply sent_nil]. }
  apply orb_false_iff in Ef as [_ Ef]. unfold typed. set (c' := if c =? 13 then ch_newline else c).
  destruct (typed_run t s c' env Hc Ef) as (s' & E & Hc' & Hs').
  { unfold c'. destruct (c =? 13); [unfold ch_newline; lia|done]. }
  { unfold c'. destruct (Z.eqb_spec c 13); done. }
  exists s'. split; [|by split]. by rewrite (bind_ok _ _ _ _ _ _ _ E).
Qed.

(** ** The interrupt *)

Fixpoint echoes (cs : list Z) (t : tty) : list Z :=
  match cs with [] => [] | c :: cs' => echo c t ++ echoes cs' (edit c t) end.

Lemma console_ext t s s' :
  console t s -> crt_pos s' = crt_pos s -> crt s' = crt s -> panicked s' = panicked s -> input s' = input s ->
  locks s' !! LPtable = None -> wf_cpu (kcpu s') -> crit (kcpu s') = kcpu s' -> console t s'.
Proof.
  intros [C1 C2 C3 C4 C5 C6] E1 E2 E3 E4 E5 E6 E7. constructor; try done.
  - unfold screen_ok. by rewrite E1, E2, E3.
  - by rewrite E4.
Qed.

Lemma intr_loop cs : forall n t s dump env,
  console t s -> uart s = true -> uart_in s = cs -> Forall (fun c => 0 <= c < 256) cs -> (length cs < n)%nat ->
  exists s', loop_n n (fun dump : bool =>
      let! c := uartgetc in
      if c <? 0 then ret (inr dump) else
      let! d := consolechar c in
      ret (inl (dump || d))) dump env s = Ok (dump || existsb (Z.eqb (C 80)) cs) s' env /\
    console (foldl (fun t c => edit c t) t cs) s' /\ uart_in s' = [] /\
    uart_out s' = uart_out s ++ echoes cs t /\ locks s' = locks s /\ kcpu s' = kcpu s.
Proof.
  induction cs as [|c cs IH]; intros n t s dump env Hc Hu Hi Hr Hn; (destruct n as [|n]; [cbn in Hn; lia|]); cbn [loop_n].
  - unfold uartgetc. rewrite !bind_assoc, bind_gets, Hu. cbn [negb]. rewrite !bind_assoc, bind_gets, Hi. cbn.
    exists s. rewrite orb_false_r, app_nil_r. done.
  - apply Forall_cons in Hr as [Hc0 Hr]. unfold uartgetc. rewrite !bind_assoc, bind_gets, Hu. cbn [negb].
    rewrite !bind_assoc, bind_gets, Hi, !bind_assoc, bind_modify, bind_ret, (proj2 (Z.ltb_ge c 0)) by lia.
    destruct (consolechar_run t (set_uart_in cs s) c env) as (s1 & E & Hc1 & S1 & S2 & S3 & S4 & S5 & S6).
    { destruct Hc. by constructor. }
    { done. }
    rewrite bind_assoc, (bind_ok _ _ _ _ _ _ _ E), bind_ret.
    destruct (IH n (edit c t) s1 (dump || (c =? C 80)) env Hc1) as (s2 & E2 & Hc2 & I2 & O2 & L2 & K2).
    { by rewrite S4. } { by rewrite S5. } { done. } { cbn in Hn. lia. }
    exists s2. cbn [existsb foldl echoes]. rewrite (Z.eqb_sym (C 80) c), orb_assoc. split; [exact E2|].
    cbn in S1, S2, S3. rewrite Hu in S1. split_and!; [done|done|rewrite O2, S1; by rewrite app_assoc|congruence|congruence].
Qed.

(** C32: the serial port's interrupt edits the input line.  Whatever bytes
    have arrived, with no Ctrl-P among them, and wherever the counters of the
    ring buffer are in their 32-bit range, the handler consumes them all and
    leaves the buffer as the line editor [edit] would: printable characters
    go to the line while there is room, backspace and Ctrl-U take characters
    of the unfinished line back but never of a finished one, and a line
    becomes available to readers with its newline, with Ctrl-D or when the
    buffer is full.  The echo is what the editor shows. *)
Theorem uartintr_edits t s cs env :
  console t s -> locks s !! LCons = None -> uart s = true -> uart_in s = cs ->
  Forall (fun c => 0 <= c < 256) cs -> C 80 ∉ cs ->
  exists s', uartintr env s = Ok tt s' env /\ holds (input s') (foldl (fun t c => edit c t) t cs) /\
    uart_in s' = [] /\ uart_out s' = uart_out s ++ echoes cs t /\ locks s' = locks s /\ kcpu s' = kcpu s.
Proof.
  intros Hc Hl Hu Hi Hr HP. pose proof Hc as [C1 C2 C3 C4 C5 C6]. unfold uartintr, consoleintr.
  rewrite (bind_ok _ _ _ _ _ _ _ (acquire_free LCons env s Hl)), bind_gets.
  destruct (intr_loop cs (S (length (kbd_in s) + length (uart_in s))) t (acquired LCons s) false env)
    as (s1 & E & Hc1 & I1 & O1 & L1 & K1).
  - apply (console_ext t s); try done; cbn.
    + by rewrite lookup_insert_ne.
    + by apply wf_pushed.
    + by apply crit_pushed.
  - done.
  - done.
  - done.
  - rewrite Hi. lia.
  - rewrite (bind_ok _ _ _ _ _ _ _ E).
    erewrite bind_ok by (apply (release_crit LCons env s s1 Hl C5); [exact L1|exact K1]).
    assert (existsb (Z.eqb (C 80)) cs = false) as ->.
    { apply not_true_is_false. intros (c & Hin & <-%Z.eqb_eq)%existsb_exists. by apply HP, list_elem_of_In. }
    cbn [orb when]. eexists. split; [done|]. cbn. split_and!; [apply Hc1|done|by rewrite O1|done|done].
Qed.

(** The counters are about to wrap; "hi", backspace, "o", return, "x". *)
Lemma uartintr_edits_witness :
  let x := mkinbuf (replicate 128 0) 4294967295 4294967295 4294967295 in
  let s := set_kcpu (crit (kcpu kst_boot)) (set_uart_in [104; 105; 8; 111; 13; 120] (set_input x kst_boot)) in
  exists s', uartintr [] s = Ok tt s' [] /\ holds (input s') (mktty [104; 111; 10] [120]) /\
    uart_out s' = [104; 105; 8; 32; 8; 111; 10; 120].
Proof.
  intros x s. destruct (uartintr_edits (mktty [] []) s [104; 105; 8; 111; 13; 120] []) as (s' & E & H1 & _ & H2 & _).
  - constructor.
    + split_and!; [cbn; lia|cbn; lia|reflexivity|reflexivity].
    + constructor; [reflexivity|cbn; lia|reflexivity|reflexivity|vm_compute; discriminate|].
      intros k c Hk. cbn in Hk. by destruct k.
    + apply not_elem_of_nil.
    + reflexivity.
    + split; [cbn; lia|done].
    + reflexivity.
  - reflexivity.
  - reflexivity.
  - reflexivity.
  - repeat constructor; lia.
  - vm_compute. intros Hin. repeat (apply elem_of_cons in Hin as [Hin|Hin]; [discriminate|]). by apply elem_of_nil in Hin.
  - exists s'. split; [exact E|]. split; [exact H1|exact H2].
Defined.
