(* ===== verification/Dir.v ===== *)
(** * fs.c, upper half: file contents, directories, paths

    [readi] gives the bytes it reads to the destination [dst] (an offset
    and the bytes) and returns them next to its result; [writei] takes its
    bytes from the source [src] (an offset and a length).  A destination
    or source in user memory is an access through the page tables
    (Umem.v), a local variable of the kernel is the list itself.  A path
    is the list of its bytes, without the terminator. *)

From stdpp Require Import base numbers list gmap strings.
From S2P Require Import Prelude Kernel Spinlock Sched Kalloc Console Umem Str Intr Kbd Sleeplock Buf Bio Log Inode Consdev.

Section Dir.
Context `{Driver}.

Definition NDEV : Z := 10.
Definition ROOTDEV : Z := 1.
Definition ROOTINO : Z := 1.
Definition DIRSIZ : nat := 14.
Definition SIZEOF_DIRENT : Z := 16.

(** [devsw[major]] is set: consoleinit sets the entry CONSOLE. *)
Definition has_dev (major : Z) : M bool :=
  let! c := gets devsw_console in
  ret (negb ((major <? 0) || (NDEV <=? major) || negb ((major =? CONSOLE) && c))).

(** ** readi and writei *)

(** A turn copies at least a byte, so that [n] turns are enough. *)
Fixpoint readi_loop (fuel : nat) (i : nat) (dst : Z -> list Z -> M unit) (off n tot : Z) (got : list Z) :
    M (list Z) :=
  if n <=? tot then ret got else
  match fuel with
  | O => halt WFuel
  | S f =>
      let! a := bmap i (off / BSIZE) in
      let! ip := get_inode i in
      let! bp := bread (i_dev ip) a in
      let m := Z.min (n - tot) (BSIZE - off mod BSIZE) in
      let! b := get_buf bp in
      let bs := slice (b_data b) (off mod BSIZE) m in
      dst tot bs ;;
      brelse bp ;;
      readi_loop f i dst (off + m) n (tot + m) (got ++ bs)
  end.

Definition readi (i : nat) (dst : Z -> list Z -> M unit) (off n : Z) : M (Z * list Z) :=
  let! ip := get_inode i in
  if i_type ip =? T_DEV then
    let! ok := has_dev (i_major ip) in
    if negb ok then ret (-1, []) else consoleread i dst (s32 n)
  else
  if (i_size ip <? off) || (u32 (off + n) <? off) then ret (-1, []) else
  let n := if i_size ip <? u32 (off + n) then i_size ip - off else n in
  let! got := readi_loop (Z.to_nat n) i dst off n 0 [] in
  ret (n, got).

(** The result is the offset after the last byte. *)
Fixpoint writei_loop (fuel : nat) (i : nat) (src : Z -> nat -> M (list Z)) (off n tot : Z) : M Z :=
  if n <=? tot then ret off else
  match fuel with
  | O => halt WFuel
  | S f =>
      let! a := bmap i (off / BSIZE) in
      let! ip := get_inode i in
      let! bp := bread (i_dev ip) a in
      let m := Z.min (n - tot) (BSIZE - off mod BSIZE) in
      let! bs := src tot (Z.to_nat m) in
      mod_data bp (fun d => splice d (off mod BSIZE) bs) ;;
      log_write bp ;;
      brelse bp ;;
      writei_loop f i src (off + m) n (tot + m)
  end.

Definition writei (i : nat) (src : Z -> nat -> M (list Z)) (off n : Z) : M Z :=
  let! ip := get_inode i in
  if i_type ip =? T_DEV then
    let! ok := has_dev (i_major ip) in
    if negb ok then ret (-1) else consolewrite i src (s32 n)
  else
  if (i_size ip <? off) || (u32 (off + n) <? off) then ret (-1) else
  if MAXFILE * BSIZE <? u32 (off + n) then ret (-1) else
  let! off := writei_loop (Z.to_nat n) i src off n 0 in
  let! ip := get_inode i in
  when ((0 <? n) && (i_size ip <? off))
    (mod_inode i (set_i_size off) ;; iupdate i) ;;
  ret n.

(** Destinations and sources. *)
Definition to_user (addr : Z) (off : Z) (bs : list Z) : M unit := ustore (u32 (addr + off)) bs.
Definition to_local (_ : Z) (_ : list Z) : M unit := ret tt.
Definition from_user (addr : Z) (off : Z) (n : nat) : M (list Z) := uload (u32 (addr + off)) n.
Definition from_local (bs : list Z) (off : Z) (n : nat) : M (list Z) :=
  ret (slice bs off (Z.of_nat n)).

(** ** Directories *)

(** [strncmp] and [strncpy] of string.c on arrays: a byte past the end of
    a list is the terminator. *)
Fixpoint strncmp_l (s t : list Z) (n : nat) : Z :=
  match n with
  | O => 0
  | S n' =>
      let p := hd 0 s in
      if negb (p =? 0) && (p =? hd 0 t) then strncmp_l (tail s) (tail t) n' else p - hd 0 t
  end.
Fixpoint strncpy_l (t : list Z) (n : nat) : list Z :=
  match n with
  | O => []
  | S n' => if hd 0 t =? 0 then replicate n 0 else hd 0 t :: strncpy_l (tail t) n'
  end.

Definition namecmp (s t : list Z) : Z := strncmp_l s t DIRSIZ.

(** fs.h: struct dirent. *)
Record dirent := mkde { de_inum : Z; de_name : list Z }.
Definition de_bytes (d : dirent) : list Z := bytes16 (de_inum d) ++ de_name d.
Definition de_of (bs : list Z) : dirent :=
  mkde (nth 0 bs 0 + 256 * nth 1 bs 0) (take DIRSIZ (drop 2 bs)).
Definition de_zero : list Z := replicate (Z.to_nat SIZEOF_DIRENT) 0.

(** [if(readi(dp, &de, off, sizeof(de)) != sizeof(de)) panic(msg)]. *)
Definition read_de (msg : string) (dp : nat) (off : Z) : M dirent :=
  let! (r, bs) := readi dp to_local off SIZEOF_DIRENT in
  if negb (r =? SIZEOF_DIRENT) then panic msg else ret (de_of bs).

(** The inode and the offset of the entry. *)
Fixpoint dirlookup_loop (fuel : nat) (dp : nat) (nm : list Z) (off : Z) : M (option (nat * Z)) :=
  let! d := get_inode dp in
  if i_size d <=? off then ret None else
  match fuel with
  | O => halt WFuel
  | S f =>
      let! de := read_de "dirlink read" dp off in
      if de_inum de =? 0 then dirlookup_loop f dp nm (off + SIZEOF_DIRENT) else
      if namecmp nm (de_name de) =? 0 then
        let! d := get_inode dp in
        let! ip := iget (i_dev d) (de_inum de) in
        ret (Some (ip, off))
      else dirlookup_loop f dp nm (off + SIZEOF_DIRENT)
  end.

(** There is a turn for every entry of the directory. *)
Definition dir_fuel (dp : nat) : M nat :=
  let! d := get_inode dp in ret (Z.to_nat (i_size d / SIZEOF_DIRENT + 2)).

Definition dirlookup (dp : nat) (nm : list Z) : M (option (nat * Z)) :=
  let! d := get_inode dp in
  if negb (i_type d =? T_DIR) then panic "dirlookup not DIR" else
  let! n := dir_fuel dp in
  dirlookup_loop n dp nm 0.

(** The offset of the first free entry, or of the end. *)
Fixpoint free_entry (fuel : nat) (dp : nat) (off : Z) : M Z :=
  let! d := get_inode dp in
  if i_size d <=? off then ret off else
  match fuel with
  | O => halt WFuel
  | S f =>
      let! de := read_de "dirlink read" dp off in
      if de_inum de =? 0 then ret off else free_entry f dp (off + SIZEOF_DIRENT)
  end.

Definition dirlink (dp : nat) (nm : list Z) (inum : Z) : M Z :=
  let! r := dirlookup dp nm in
  match r with
  | Some (ip, _) => iput ip ;; ret (-1)
  | None =>
      let! n := dir_fuel dp in
      let! off := free_entry n dp 0 in
      let de := mkde (u16 inum) (strncpy_l nm DIRSIZ) in
      let! r := writei dp (from_local (de_bytes de)) off SIZEOF_DIRENT in
      if negb (r =? SIZEOF_DIRENT) then panic "dirlink" else ret 0
  end.

(** ** Paths *)

Definition slash : Z := 47.

Fixpoint skip_slashes (path : list Z) : list Z :=
  match path with
  | c :: path' => if c =? slash then skip_slashes path' else path
  | [] => []
  end.
(** The characters before the next slash, and the rest. *)
Fixpoint element (path : list Z) : list Z * list Z :=
  match path with
  | c :: path' => if c =? slash then ([], path) else let (e, r) := element path' in (c :: e, r)
  | [] => ([], [])
  end.

(** The buffer [name] of DIRSIZ bytes is filled in, with a terminator if
    there is room for it. *)
Definition set_elem (e nm : list Z) : list Z :=
  if (DIRSIZ <=? length e)%nat then take DIRSIZ e else e ++ 0 :: drop (S (length e)) nm.

Definition skipelem (path nm : list Z) : option (list Z * list Z) :=
  match skip_slashes path with
  | [] => None
  | path =>
      let (e, rest) := element path in
      Some (skip_slashes rest, set_elem e nm)
  end.

(** The inode, and the last element for [nameiparent].  Every turn takes
    an element off the path. *)
Fixpoint namex_loop (fuel : nat) (ip : nat) (path : list Z) (nameiparent : bool) (nm : list Z) :
    M (option nat * list Z) :=
  match skipelem path nm with
  | None =>
      if nameiparent then iput ip ;; ret (None, nm) else ret (Some ip, nm)
  | Some (path, nm) =>
      match fuel with
      | O => halt WFuel
      | S f =>
          ilock (Some ip) ;;
          let! d := get_inode ip in
          if negb (i_type d =? T_DIR) then iunlockput ip ;; ret (None, nm) else
          if nameiparent && bool_decide (path = []) then iunlock (Some ip) ;; ret (Some ip, nm) else
          let! next := dirlookup ip nm in
          match next with
          | None => iunlockput ip ;; ret (None, nm)
          | Some (next, _) => iunlockput ip ;; namex_loop f next path nameiparent nm
          end
      end
  end.

Definition namex (path : list Z) (nameiparent : bool) (nm : list Z) : M (option nat * list Z) :=
  let! ip :=
    (if hd 0 path =? slash then iget ROOTDEV ROOTINO else
     let! (_, p) := myproc_get in
     let! c := deref (cwd p) in
     idup c) in
  namex_loop (S (length path)) ip path nameiparent nm.

Definition namei (path : list Z) : M (option nat) :=
  let! (r, _) := namex path false (replicate DIRSIZ 0) in ret r.

Definition nameiparent (path nm : list Z) : M (option nat * list Z) := namex path true nm.
End Dir.
