(* ===== verification/Fsread.v ===== *)
(** * Reading files and directories through the buffer cache

    What fs.c's readers do on a disk whose blocks are [contents P s] (what
    the cache and the disk together hold): [bmap] and [readi] return the
    bytes an inode's addresses lead to, [ilock] loads an inode, [dirlookup]
    and [namei] find the entry with a name.  The driver is any that satisfies
    [Bcache.SyncDisk]; a run ends in a state with the same disk, or stops
    because the power failed. *)

From stdpp Require Import base numbers list gmap strings.
From S2P Require Import Prelude Kernel Spinlock Sched Sleeplock Kalloc Umem Str Buf Memide Ring Bio Bcache Log Logsafe Inode Consdev Dir.

(** ** A file as its inode gives it *)

(** The address of block [bn] of a file, and byte [k] of it. *)
Definition fslot (D : Z -> list Z) (ip : inode) (bn : Z) : Z :=
  if bn <? NDIRECT then addr_at ip bn else word_at (D (addr_at ip NDIRECT)) (4 * (bn - NDIRECT)).
Definition fbyte (D : Z -> list Z) (ip : inode) (k : Z) : Z := nth (Z.to_nat (k mod BSIZE)) (D (fslot D ip (k / BSIZE))) 0.
Definition fbytes (D : Z -> list Z) (ip : inode) (off n : Z) : list Z := fbyte D ip <$> seqZ off n.

Lemma fbytes_app D ip off m n : 0 <= m -> 0 <= n -> fbytes D ip off (m + n) = fbytes D ip off m ++ fbytes D ip (off + m) n.
Proof. intros. unfold fbytes. by rewrite seqZ_app, fmap_app by lia. Qed.

(** The part of a file that is in one of its blocks. *)
Lemma fbytes_slice D ip off m :
  0 <= off -> 0 <= m <= BSIZE - off mod BSIZE -> length (D (fslot D ip (off / BSIZE))) = Z.to_nat BSIZE ->
  fbytes D ip off m = slice (D (fslot D ip (off / BSIZE))) (off mod BSIZE) m.
Proof.
  intros Ho Hm Hl. unfold fbytes, slice. unfold BSIZE in *. apply list_eq. intros k.
  rewrite list_lookup_fmap, lookup_take, lookup_drop. assert (0 <= off mod 512 < 512) as Hr by (apply Z.mod_pos_bound; lia).
  case_decide as Hk.
  - rewrite lookup_seqZ_lt by lia. cbn. unfold fbyte, BSIZE.
    replace ((off + Z.of_nat k) / 512) with (off / 512) by (Z.div_mod_to_equations; lia).
    replace ((off + Z.of_nat k) mod 512) with (off mod 512 + Z.of_nat k) by (Z.div_mod_to_equations; lia).
    rewrite Z2Nat.inj_add, Nat2Z.id by lia. destruct (lookup_lt_is_Some_2 (D (fslot D ip (off / 512))) (Z.to_nat (off mod 512) + k)) as [x Hx]; [lia|].
    rewrite Hx. f_equal. by apply nth_lookup_Some.
  - by rewrite lookup_seqZ_ge by lia.
Qed.

(** ** Names *)

(** The DIRSIZ bytes of a name in an entry decide [namecmp]. *)
Lemma strncmp_padded n : forall a b, strncmp_l a b n = 0 <-> strncpy_l a n = strncpy_l b n.
Proof.
  induction n as [|n IH]; intros a b; cbn [strncmp_l strncpy_l]; [done|].
  destruct (Z.eqb_spec (hd 0 a) 0) as [Ha|Ha], (Z.eqb_spec (hd 0 b) 0) as [Hb|Hb]; cbn [negb andb].
  - rewrite Ha, Hb. done.
  - rewrite Ha. cbn [replicate]. split; [lia|]. intros [=]. lia.
  - rewrite (proj2 (Z.eqb_neq _ _)) by lia. rewrite Hb. cbn [replicate]. split; [lia|]. intros [=]. lia.
  - destruct (Z.eqb_spec (hd 0 a) (hd 0 b)) as [E|E]; [rewrite IH, E|].
    + split; [by intros ->|by intros [=]].
    + split; [lia|by intros [=]].
Qed.

Lemma strncpy_strncpy n : forall a, strncpy_l (strncpy_l a n) n = strncpy_l a n.
Proof.
  induction n as [|n IH]; intros a; cbn [strncpy_l]; [done|]. destruct (Z.eqb_spec (hd 0 a) 0) as [Ha|Ha]; [done|].
  cbn [hd tail]. by rewrite (proj2 (Z.eqb_neq _ _) Ha), IH.
Qed.

Lemma strncpy_take n : forall a, strncpy_l (take n a) n = strncpy_l a n.
Proof. induction n as [|n IH]; intros [|x a]; cbn; [done|done|done|]. destruct (x =? 0); [done|]. by rewrite IH. Qed.

Lemma strncpy_end n : forall a r, strncpy_l (a ++ 0 :: r) n = strncpy_l a n.
Proof. induction n as [|n IH]; intros [|x a] r; cbn; [done|done|done|]. destruct (x =? 0); [done|]. by rewrite IH. Qed.

Lemma strncpy_set_elem e nm : strncpy_l (set_elem e nm) DIRSIZ = strncpy_l e DIRSIZ.
Proof. unfold set_elem. destruct (_ <=? _)%nat; [apply strncpy_take|apply strncpy_end]. Qed.

Lemma element_all e : slash ∉ e -> element e = (e, []).
Proof.
  induction e as [|x e IH]; [done|]. rewrite not_elem_of_cons. intros [H1 H2]. cbn [element].
  rewrite (proj2 (Z.eqb_neq _ _)), (IH H2) by done. done.
Qed.

Lemma skipelem_child e nm : e <> [] -> slash ∉ e -> skipelem (slash :: e) nm = Some ([], set_elem e nm).
Proof.
  intros He Hs. unfold skipelem. cbn [skip_slashes]. rewrite Z.eqb_refl. destruct e as [|x e]; [done|].
  assert (skip_slashes (x :: e) = x :: e) as ->.
  { cbn [skip_slashes]. apply not_elem_of_cons in Hs as [Hs _]. by rewrite (proj2 (Z.eqb_neq x slash)). }
  by rewrite element_all.
Qed.

Section Fsread.
Context {DR : Driver} (me : nat) (mp : proc) (size : Z) {may : Prop} {SD : SyncDisk size may}.
Implicit Types (P : pinned) (s : kst).

Notation Cache := (Cache me mp size).

(** The run was cut short, and the disk is as before. *)
Definition stopped s s' : Prop := may /\ disk s' = disk s.

(** The cache is between operations, and has a buffer to spare. *)
Record quiet P s : Prop := { qu_cache : Cache ∅ P s; qu_room : (base.size P < NBUF)%nat }.

Lemma contents_same P s s' : disk s' = disk s -> contents P s' = contents P s.
Proof using. intros E. unfold contents. by rewrite E. Qed.

Lemma length_contents H P s b : Cache H P s -> length (contents P s b) = Z.to_nat BSIZE.
Proof using.
  intros HC. unfold contents. destruct (P !! b) as [d|] eqn:Hb; cbn; [|apply HC].
  destruct (ca_pinned _ _ _ _ _ _ HC b d Hb) as (i & x & Hi & Hx & Hd & E & Hy).
  pose proof (ca_buf _ _ _ _ _ _ HC i x Hi Hx) as HB. destruct (bo_dirty _ _ _ _ _ _ _ HB Hy) as [_ Hp].
  rewrite E, Hb in Hp. injection Hp as ->. apply HB.
Qed.

(** [bp = bread(1, b); ...; brelse(bp); k], where the part in between looks
    at the buffer, and changes the rest of the state by [g]. *)
Lemma read_block_with {B} (g : kst -> kst) P s b (f : nat -> M B) (k : M B) R env :
  quiet P s -> 0 <= b < size ->
  (forall H s', Cache H P s' -> Cache H P (g s')) -> (forall s', same s s' -> same (g s) (g s')) -> (forall s', disk (g s') = disk s') ->
  (forall j x s', bcache s' !! j = Some x -> b_data x = contents P s b -> same s s' -> f j env s' = (brelse j ;; k) env (g s')) ->
  (forall s', quiet P s' -> same (g s) s' -> rc (stopped s) env (k env s') R) ->
  rc (stopped s) env (bind (bread 1 b) f env s) R.
Proof using SD.
  intros [HC Hr] Hb Hg1 Hg2 Hg3 Hf Hk.
  eapply rc_step; [apply (bread_spec me mp size ∅ P s b env HC Hb (not_held_empty _)); left; by apply (room_empty me mp size P)|done|].
  intros j s1 (_ & HC1 & E1). destruct (held_buf me mp size _ _ _ _ _ _ HC1 (lookup_insert_eq _ _ _)) as (x & _ & Hx & _ & _ & _ & _ & _ & _ & L6 & _).
  cbn [snd] in L6. rewrite (Hf j x s1 Hx L6 E1).
  eapply rc_step; [apply (brelse_spec me mp size _ _ (g s1) j _ _ env (Hg1 _ _ HC1) (lookup_insert_eq _ _ _))| |].
  - unfold contents. rewrite Hg3, (proj1 E1). destruct (P !! b) as [d|]; cbn; [left; by eexists|by right].
  - done.
  - intros _ s2 [HC2 E2]. rewrite delete_insert_id in HC2 by apply lookup_empty. apply Hk; [by split|by eapply same_trans; [apply Hg2|]].
Qed.

(** The same where nothing is changed. *)
Lemma read_block {B} P s b (f : nat -> M B) (k : M B) R env :
  quiet P s -> 0 <= b < size ->
  (forall j x s', bcache s' !! j = Some x -> b_data x = contents P s b -> same s s' -> f j env s' = (brelse j ;; k) env s') ->
  (forall s', quiet P s' -> same s s' -> rc (stopped s) env (k env s') R) ->
  rc (stopped s) env (bind (bread 1 b) f env s) R.
Proof using SD. intros. by apply (read_block_with id P s b f k). Qed.

(** Later parts of a run start on the same disk. *)
Lemma stopped_same {A} s s1 env (o : outcome A) R : disk s1 = disk s -> rc (stopped s1) env o R -> rc (stopped s) env o R.
Proof using. intros E Ho. eapply rc_mono; [exact Ho| |by intros]. intros s' [Hm Hd]. split; [done|congruence]. Qed.

Lemma bind_get_inode {A} s i ip (k : inode -> M A) env : icache s !! i = Some ip -> bind (get_inode i) k env s = k ip env s.
Proof using. intros H. apply bind_ok. unfold get_inode. by rewrite H. Qed.

(** ** bmap and readi *)

(** Block [bn] of the file is there. *)
Definition mapped (D : Z -> list Z) (ip : inode) (bn : Z) : Prop :=
  0 < fslot D ip bn < size /\ (NDIRECT <= bn -> 0 < addr_at ip NDIRECT < size).

Lemma same_inode s s' i ip : icache s !! i = Some ip -> same s s' -> icache s' !! i = Some ip.
Proof using. intros H (_ & _ & E & _). by rewrite E. Qed.

Lemma same_refl s : same s s.
Proof using. by repeat split. Qed.

Lemma bmap_reads P s i ip bn env :
  quiet P s -> icache s !! i = Some ip -> i_dev ip = 1 -> 0 <= bn < MAXFILE -> mapped (contents P s) ip bn ->
  rc (stopped s) env (bmap i bn env s) (fun a s' => a = fslot (contents P s) ip bn /\ quiet P s' /\ same s s').
Proof using SD.
  intros HQ Hi Hd Hbn [Hs Hind]. unfold fslot in Hs |- *. unfold bmap. destruct (Z.ltb_spec bn NDIRECT) as [Hlt|Hge].
  - unfold addr_alloc. rewrite (bind_get_inode _ _ _ _ _ Hi), (proj2 (Z.eqb_neq _ _)) by lia. by split; [split_and!|].
  - specialize (Hind Hge). unfold MAXFILE in Hbn. rewrite (proj2 (Z.ltb_lt _ _)) by lia.
    unfold addr_alloc. rewrite bind_assoc, (bind_get_inode _ _ _ _ _ Hi), (proj2 (Z.eqb_neq (addr_at ip NDIRECT) 0)) by lia.
    cbn [negb]. rewrite bind_ret, (bind_get_inode _ _ _ _ _ Hi), Hd.
    eapply (read_block P s _ _ (ret (word_at (contents P s (addr_at ip NDIRECT)) (4 * (bn - NDIRECT))))); [done|lia| |].
    + intros j x s' Hx Ex _. rewrite (bind_get_buf _ _ _ _ _ Hx), Ex, (proj2 (Z.eqb_neq _ _)) by lia. done.
    + intros s' HQ' E. by split; [split_and!|].
Qed.

Lemma readi_loop_reads P i ip n : forall fuel s off tot got env,
  quiet P s -> icache s !! i = Some ip -> i_dev ip = 1 -> 0 <= off -> off + (n - tot) <= MAXFILE * BSIZE -> tot <= n ->
  (forall bn, off / BSIZE <= bn -> bn * BSIZE < off + (n - tot) -> mapped (contents P s) ip bn) ->
  (Z.to_nat (n - tot) <= fuel)%nat ->
  rc (stopped s) env (readi_loop fuel i to_local off n tot got env s)
    (fun r s' => r = got ++ fbytes (contents P s) ip off (n - tot) /\ quiet P s' /\ same s s').
Proof using SD.
  induction fuel as [|fuel IH]; intros s off tot got env HQ Hi Hd Ho Hmax Ht Hmap Hf; cbn [readi_loop].
  - rewrite (proj2 (Z.leb_le n tot)) by lia. replace (n - tot) with 0 by lia. split; [|done]. split_and!; [by rewrite app_nil_r|done|apply same_refl].
  - destruct (Z.leb_spec n tot) as [Hle|Hgt].
    { replace (n - tot) with 0 by lia. split; [|done]. split_and!; [by rewrite app_nil_r|done|apply same_refl]. }
    assert (0 <= off mod BSIZE < BSIZE) as Hr by (apply Z.mod_pos_bound; done). unfold BSIZE in Hr, Hmax.
    assert (mapped (contents P s) ip (off / BSIZE)) as Hm by (apply Hmap; unfold BSIZE; Z.div_mod_to_equations; lia).
    eapply rc_step; [apply (bmap_reads P s i ip (off / BSIZE) env HQ Hi Hd); [|done]|done|].
    { unfold BSIZE. split; [Z.div_mod_to_equations; lia|]. apply Z.div_lt_upper_bound; lia. }
    intros a s1 (-> & HQ1 & E1). pose proof (same_inode _ _ _ _ Hi E1) as Hi1. rewrite (bind_get_inode _ _ _ _ _ Hi1), Hd.
    set (D := contents P s) in *. set (a := fslot D ip (off / BSIZE)). set (m := Z.min (n - tot) (BSIZE - off mod BSIZE)).
    assert (0 < m <= n - tot /\ m <= 512 - off mod 512) as Hmm by (unfold m, BSIZE in *; lia).
    assert (contents P s1 = D) as HD by apply contents_same, E1.
    apply (stopped_same s s1); [apply E1|]. set (bs := slice (D a) (off mod BSIZE) m).
    eapply (read_block P s1 a _ (readi_loop fuel i to_local (off + m) n (tot + m) (got ++ bs))); [done|unfold a; destruct Hm; lia| |].
    { intros j x s' Hx Ex _. rewrite (bind_get_buf _ _ _ _ _ Hx), Ex, HD. done. }
    intros s2 HQ2 E2. assert (contents P s2 = D) as HD2 by (rewrite <- HD; apply contents_same, E2).
    apply (stopped_same s1 s2); [apply E2|].
    eapply rc_mono; [apply (IH s2); try done; [by eapply same_inode|lia|unfold BSIZE; lia|lia| |lia]|done|].
    { intros bn H1 H2. rewrite HD2. apply Hmap; [|lia]. unfold BSIZE in *. Z.div_mod_to_equations. lia. }
    intros r s3 (-> & HQ3 & E3). split_and!; [|done|by eapply same_trans; [|eapply same_trans]].
    rewrite HD2, <- app_assoc. f_equal. replace (n - tot) with (m + (n - (tot + m))) by lia. rewrite fbytes_app by lia. f_equal.
    symmetry. apply fbytes_slice; [done|unfold BSIZE in *; lia|]. apply (length_contents ∅ P s), HQ.
Qed.

Lemma readi_reads P s i ip off n env :
  quiet P s -> icache s !! i = Some ip -> i_dev ip = 1 -> i_type ip <> T_DEV ->
  0 <= off <= i_size ip -> 0 <= n -> off + n < 4294967296 -> i_size ip < 4294967296 ->
  let m := Z.min n (i_size ip - off) in
  off + m <= MAXFILE * BSIZE -> (forall bn, off / BSIZE <= bn -> bn * BSIZE < off + m -> mapped (contents P s) ip bn) ->
  rc (stopped s) env (readi i to_local off n env s)
    (fun r s' => r = (m, fbytes (contents P s) ip off m) /\ quiet P s' /\ same s s').
Proof using SD.
  intros HQ Hi Hd Ht Ho Hn Hon Hsz m Hm Hmap. unfold readi. rewrite (bind_get_inode _ _ _ _ _ Hi).
  rewrite (proj2 (Z.eqb_neq _ _)) by done. rewrite u32_small by lia.
  rewrite (proj2 (Z.ltb_ge _ _)), (proj2 (Z.ltb_ge (off + n) off)) by lia. cbn [orb].
  assert ((if i_size ip <? off + n then i_size ip - off else n) = m) as -> by (unfold m; destruct (Z.ltb_spec (i_size ip) (off + n)); lia).
  eapply rc_step; [apply (readi_loop_reads P i ip m (Z.to_nat m) s off 0 [] env HQ Hi Hd); rewrite ?Z.sub_0_r; try done; lia|done|].
  intros r s' (-> & HQ' & E). rewrite Z.sub_0_r. by split; [split_and!|].
Qed.

(** ** Inodes in memory *)

Lemma quiet_frame P s s' :
  quiet P s -> calm me mp s' -> bcache s' = bcache s -> disk s' = disk s ->
  (forall j, slocks s' !! SLbuf j = slocks s !! SLbuf j) -> quiet P s'.
Proof using. intros [HC Hr] ? ? ? ?. split; [by eapply cache_frame|done]. Qed.

Lemma quiet_icache P s c : quiet P s -> quiet P (set_icache c s).
Proof using. intros HQ. eapply quiet_frame; try done. by destruct (ca_calm _ _ _ _ _ _ (qu_cache _ _ HQ)). Qed.

Lemma same_icache s s' c : same s s' -> same (set_icache c s) (set_icache c s').
Proof using. intros (? & ? & ? & ? & ? & ? & ?). by repeat split. Qed.
Lemma same_icache_from s s' c c' : same (set_icache c s) s' -> same (set_icache c' s) (set_icache c' s').
Proof using. intros (? & ? & ? & ? & ? & ? & ?). by repeat split. Qed.

(** The entry [iget] chooses, and the table after it. *)
Definition iget_to (c : list inode) (dev inum : Z) : option (nat * list inode) :=
  match find_idx (fun ip => (0 <? i_ref ip) && (i_dev ip =? dev) && (i_inum ip =? inum)) c with
  | Some i => Some (i, upd i (fun ip => set_i_ref (i_ref ip + 1) ip) c)
  | None =>
      (fun i => (i, upd i (fun ip => set_i_flags 0 (set_i_ref 1 (set_i_inum inum (set_i_dev dev ip)))) c)) <$>
        find_idx (fun ip => i_ref ip =? 0) c
  end.

(** An inode that is in use stays, and gains a reference at most. *)
Lemma iget_to_keeps c dev inum i c' r ip :
  iget_to c dev inum = Some (i, c') -> c !! r = Some ip -> 1 <= i_ref ip ->
  exists n, c' !! r = Some (set_i_ref n ip) /\ i_ref ip <= n /\ (r <> i -> n = i_ref ip).
Proof using.
  unfold iget_to. intros Hg Hr Hp. assert (c !! r = Some (set_i_ref (i_ref ip) ip)) as Hid by (rewrite Hr; by destruct ip).
  destruct (find_idx _ c) as [j|] eqn:E1.
  - injection Hg as <- <-. unfold upd. rewrite list_lookup_alter. case_decide as Hj; [subst r; rewrite Hr|].
    + exists (i_ref ip + 1). split_and!; [done|lia|done].
    + exists (i_ref ip). by split_and!.
  - destruct (find_idx (fun ip => i_ref ip =? 0) c) as [j|] eqn:E2; [|done]. injection Hg as <- <-.
    apply find_idx_Some in E2 as [(x & Hx & Ex%Z.eqb_eq) _]. assert (j <> r) as Hne by (intros ->; rewrite Hr in Hx; injection Hx as ->; lia).
    unfold upd. rewrite list_lookup_alter_ne by done. exists (i_ref ip). by split_and!.
Qed.

(** The entry it gives. *)
Lemma iget_to_got c dev inum i c' :
  iget_to c dev inum = Some (i, c') -> exists ip, c' !! i = Some ip /\ 1 <= i_ref ip /\ i_dev ip = dev /\ i_inum ip = inum.
Proof using.
  unfold iget_to. intros Hg. destruct (find_idx _ c) as [j|] eqn:E1.
  - injection Hg as <- <-. apply find_idx_Some in E1 as [(x & Hx & Ex) _]. apply andb_prop in Ex as [[H1%Z.ltb_lt H2%Z.eqb_eq]%andb_prop H3%Z.eqb_eq].
    eexists. unfold upd. rewrite list_lookup_alter_eq, Hx. split; [done|]. cbn. lia.
  - destruct (find_idx (fun ip => i_ref ip =? 0) c) as [j|] eqn:E2; [|done]. injection Hg as <- <-.
    apply find_idx_Some in E2 as [(x & Hx & _) _]. eexists. unfold upd. rewrite list_lookup_alter_eq, Hx. by split.
Qed.

(** The state after a critical section that changed only the inodes. *)
Lemma icache_crit lk s c :
  crit (kcpu s) = kcpu s -> set_locks (locks s) (set_kcpu (crit (kcpu s)) (set_icache c (acquired lk s))) = set_icache c s.
Proof using. intros ->. by destruct s. Qed.

Lemma iget_run P s dev inum i c env :
  quiet P s -> iget_to (icache s) dev inum = Some (i, c) -> iget dev inum env s = Ok i (set_icache c s) env.
Proof using.
  intros [HC _] Hi. pose proof (ca_calm _ _ _ _ _ _ HC) as [C1 C2 C3 C4 C5]. assert (locks s !! LIcache = None) as Hl by (by rewrite C1).
  unfold iget, iget_to in *. rewrite (bind_ok _ _ _ _ _ _ _ (acquire_free LIcache env s Hl)), bind_gets.
  cbn [icache acquired set_locks set_kcpu]. unfold mod_inode. destruct (find_idx _ (icache s)) as [j|].
  - injection Hi as <- <-. rewrite bind_modify. crit_release LIcache s Hl C4. cbn [icache acquired set_locks set_kcpu]. by rewrite icache_crit.
  - destruct (find_idx _ (icache s)) as [j|]; [|done]. injection Hi as <- <-. rewrite !bind_modify.
    crit_release LIcache s Hl C4. cbn [icache acquired set_locks set_kcpu set_icache]. rewrite !upd_upd, C5. by destruct s.
Qed.

(** [iput] when the file has a link, or another reference. *)
Lemma iput_run P s i ip env :
  quiet P s -> icache s !! i = Some ip -> i_nlink ip <> 0 \/ i_ref ip <> 1 ->
  iput i env s = Ok tt (set_icache (upd i (fun ip => set_i_ref (i_ref ip - 1) ip) (icache s)) s) env.
Proof using.
  intros [HC _] Hi Hn. pose proof (ca_calm _ _ _ _ _ _ HC) as [C1 C2 C3 C4 C5]. assert (locks s !! LIcache = None) as Hl by (by rewrite C1).
  unfold iput. rewrite (bind_ok _ _ _ _ _ _ _ (acquire_free LIcache env s Hl)), (bind_get_inode _ i ip) by done.
  assert ((i_ref ip =? 1) && negb (Z.land (i_flags ip) I_VALID =? 0) && (i_nlink ip =? 0) = false) as ->.
  { destruct Hn as [Hn|Hn]; rewrite (proj2 (Z.eqb_neq _ _) Hn); [apply andb_false_r|done]. }
  cbn [when]. rewrite bind_ret. unfold mod_inode. rewrite bind_modify.
  erewrite (release_crit LIcache env s _ Hl C4) by reflexivity. cbn [icache acquired set_locks set_kcpu]. by rewrite icache_crit.
Qed.

(** The lock of an inode, taken and given back. *)
Definition locked_inode (i : nat) s : kst := set_slocks (<[SLinode i := pid mp]> (slocks s)) s.
Definition unlocked_inode (i : nat) s : kst := set_slocks (delete (SLinode i) (slocks s)) s.

Lemma quiet_locked P s i : quiet P s -> quiet P (locked_inode i s).
Proof using.
  intros HQ. eapply quiet_frame; try done; [by destruct (ca_calm _ _ _ _ _ _ (qu_cache _ _ HQ))|].
  intros j. cbn. by rewrite lookup_insert_ne.
Qed.

(** What [ilock] loads: the inode as it is in its block. *)
Definition loaded (D : Z -> list Z) (b : superblock) (ip : inode) : inode :=
  let d := di_at (D (IBLOCK (i_inum ip) b)) (di_off (i_inum ip)) in
  let ip := load_di d ip in set_i_flags (Z.lor (i_flags ip) I_VALID) ip.

Lemma acquire_inode P s i env :
  quiet P s -> slocks s !! SLinode i = None -> acquiresleep (SLinode i) env s = Ok tt (locked_inode i s) env.
Proof using.
  intros [HC _] Hs. pose proof (ca_calm _ _ _ _ _ _ HC) as [C1 C2 C3 C4 C5].
  rewrite (acquiresleep_free (SLinode i) env s me mp C2) by (done || by rewrite C1). unfold taken_by, locked_inode. rewrite C5. by destruct s.
Qed.

Lemma ilock_loads P s i ip env :
  quiet P s -> icache s !! i = Some ip -> 1 <= i_ref ip -> Z.land (i_flags ip) I_VALID = 0 -> i_dev ip = 1 ->
  slocks s !! SLinode i = None -> 0 <= IBLOCK (i_inum ip) (sb s) < size -> i_type (loaded (contents P s) (sb s) ip) <> 0 ->
  rc (stopped s) env (ilock (Some i) env s)
    (fun _ s' => quiet P s' /\ same (set_icache (<[i := loaded (contents P s) (sb s) ip]> (icache s)) (locked_inode i s)) s').
Proof using SD.
  intros HQ Hi Hr Hf Hd Hs Hb Ht. unfold ilock. rewrite (bind_get_inode _ _ _ _ _ Hi), (proj2 (Z.ltb_ge _ _)) by lia.
  rewrite (bind_ok _ _ _ _ _ _ _ (acquire_inode P s i env HQ Hs)). set (s1 := locked_inode i s).
  assert (icache s1 !! i = Some ip) as Hi1 by done. rewrite (bind_get_inode _ _ _ _ _ Hi1), Hf. cbn [Z.eqb negb]. rewrite bind_gets, Hd.
  change (sb s1) with (sb s). assert (quiet P s1) as HQ1 by by apply quiet_locked.
  set (D := contents P s). set (b := IBLOCK (i_inum ip) (sb s)). set (d := di_at (D b) (di_off (i_inum ip))).
  apply (stopped_same s s1); [done|].
  eapply (read_block_with (fun t => set_icache (upd i (load_di d) (icache t)) t) P s1 b); [done|done| | |done| |].
  - intros H s' HC. eapply (cache_frame me mp size); try done. by destruct (ca_calm _ _ _ _ _ _ HC).
  - intros s' (E1 & E2 & E3 & E4 & E5 & E6 & E7). exact (conj E1 (conj E2 (conj (f_equal (upd i (load_di d)) E3) (conj E4 (conj E5 (conj E6 E7)))))).
  - intros j x s' Hx Ex _. rewrite (bind_get_buf _ _ _ _ _ Hx), Ex. unfold mod_inode at 1. by rewrite bind_modify.
  - intros s' HQ' E. unfold mod_inode. rewrite bind_modify.
    assert (icache s' = <[i := load_di d ip]> (icache s)) as Ei.
    { destruct E as (_ & _ & -> & _). cbn. by apply upd_insert. }
    assert (i < length (icache s))%nat as Hlt by by eapply lookup_lt_Some.
    assert (upd i (fun ip => set_i_flags (Z.lor (i_flags ip) I_VALID) ip) (icache s') = <[i := loaded D (sb s) ip]> (icache s)) as ->.
    { rewrite Ei, (upd_insert _ _ _ (load_di d ip)) by (by rewrite list_lookup_insert_eq). by rewrite list_insert_insert_eq. }
    rewrite (bind_get_inode _ i (loaded D (sb s) ip)) by (cbn; by rewrite list_lookup_insert_eq).
    rewrite (proj2 (Z.eqb_neq _ _)) by done. split; [|done]. split; [by apply quiet_icache|]. by apply (same_icache_from _ _ (upd i (load_di d) (icache s1))).
Qed.

(** [ilock] of an inode that is in memory already. *)
Definition is_loaded (ip : inode) : bool := negb (Z.land (i_flags ip) I_VALID =? 0).
Definition fetched (D : Z -> list Z) (b : superblock) (ip : inode) : inode := if is_loaded ip then ip else loaded D b ip.

Lemma ilock_fetches P s i ip env :
  quiet P s -> icache s !! i = Some ip -> 1 <= i_ref ip -> i_dev ip = 1 ->
  slocks s !! SLinode i = None -> 0 <= IBLOCK (i_inum ip) (sb s) < size -> i_type (fetched (contents P s) (sb s) ip) <> 0 ->
  rc (stopped s) env (ilock (Some i) env s)
    (fun _ s' => quiet P s' /\ same (set_icache (<[i := fetched (contents P s) (sb s) ip]> (icache s)) (locked_inode i s)) s').
Proof using SD.
  intros HQ Hi Hr Hd Hs Hb Ht. unfold fetched, is_loaded in *. destruct (Z.eqb_spec (Z.land (i_flags ip) I_VALID) 0) as [Hf|Hf]; cbn [negb] in *.
  { by apply ilock_loads. }
  unfold ilock. rewrite (bind_get_inode _ _ _ _ _ Hi), (proj2 (Z.ltb_ge _ _)) by lia.
  rewrite (bind_ok _ _ _ _ _ _ _ (acquire_inode P s i env HQ Hs)), (bind_get_inode _ _ _ _ _ (Hi : icache (locked_inode i s) !! i = Some ip)).
  rewrite (proj2 (Z.eqb_neq _ _) Hf). split; [|done]. split; [by apply quiet_locked|]. rewrite list_insert_id by done. by destruct s.
Qed.

Lemma iunlock_run P s i ip env :
  quiet P s -> icache s !! i = Some ip -> 1 <= i_ref ip -> is_Some (slocks s !! SLinode i) ->
  exists s', iunlock (Some i) env s = Ok tt s' env /\ quiet P s' /\ same (unlocked_inode i s) s'.
Proof using.
  intros HQ Hi Hr Hs. pose proof HQ as [HC _]. pose proof (ca_calm _ _ _ _ _ _ HC) as [C1 C2 C3 C4 C5]. unfold iunlock.
  rewrite (bind_ok _ _ _ _ _ _ _ (holdingsleep_run (SLinode i) env s (unlocked _ _ _ _ _ _ _ HC) C4)).
  rewrite bool_decide_eq_true_2, set_kcpu_crit by done. cbn [negb]. rewrite (bind_get_inode _ _ _ _ _ Hi), (proj2 (Z.ltb_ge _ _)) by lia.
  rewrite (releasesleep_run (SLinode i) env s (unlocked _ _ _ _ _ _ _ HC) (unlocked _ _ _ _ _ _ _ HC) C4), set_kcpu_crit by done.
  eexists. split; [done|]. split; [|by repeat split]. eapply quiet_frame; [exact HQ| |done|done|].
  - constructor; try done. split; [apply C2|]. apply wake_running. by constructor.
  - intros j. cbn. by rewrite lookup_delete_ne.
Qed.

Lemma iunlockput_run P s i ip env :
  quiet P s -> icache s !! i = Some ip -> 1 <= i_ref ip -> is_Some (slocks s !! SLinode i) -> i_nlink ip <> 0 ->
  exists s', iunlockput i env s = Ok tt s' env /\ quiet P s' /\
    same (set_icache (upd i (fun ip => set_i_ref (i_ref ip - 1) ip) (icache s)) (unlocked_inode i s)) s'.
Proof using.
  intros HQ Hi Hr Hs Hn. destruct (iunlock_run P s i ip env HQ Hi Hr Hs) as (s1 & E & HQ1 & Es). unfold iunlockput.
  rewrite (bind_ok _ _ _ _ _ _ _ E). assert (icache s1 = icache s) as Ei by apply Es.
  rewrite (iput_run P s1 i ip env HQ1) by (rewrite ?Ei; auto). eexists. split; [done|]. split; [by apply quiet_icache|].
  rewrite Ei. by apply same_icache.
Qed.

(** ** Directories *)

(** The entries of a directory. *)
Definition dirent_at (D : Z -> list Z) (ip : inode) (k : nat) : dirent := de_of (fbytes D ip (16 * Z.of_nat k) 16).
Definition names (nm : list Z) (de : dirent) : bool := negb (de_inum de =? 0) && (namecmp nm (de_name de) =? 0).

(** A directory in memory, the first [n] entries of which are there. *)
Record directory (D : Z -> list Z) (ip : inode) (n : nat) : Prop := {
  dr_dev : i_dev ip = 1;
  dr_type : i_type ip = T_DIR;
  dr_size : 16 * Z.of_nat n <= i_size ip <= MAXFILE * BSIZE;
  dr_mapped : forall bn, 0 <= bn -> bn * BSIZE < 16 * Z.of_nat n -> mapped D ip bn;
}.

Lemma read_de_reads P s dp ip n k msg env :
  quiet P s -> icache s !! dp = Some ip -> directory (contents P s) ip n -> (k < n)%nat ->
  rc (stopped s) env (read_de msg dp (16 * Z.of_nat k) env s)
    (fun r s' => r = dirent_at (contents P s) ip k /\ quiet P s' /\ same s s').
Proof using SD.
  intros HQ Hi [Hd Ht Hs Hm] Hk. unfold read_de. change (MAXFILE * BSIZE) with 71680 in Hs.
  assert (Z.min SIZEOF_DIRENT (i_size ip - 16 * Z.of_nat k) = 16) as Emin by (unfold SIZEOF_DIRENT; lia).
  eapply rc_step; [apply (readi_reads P s dp ip (16 * Z.of_nat k) SIZEOF_DIRENT env HQ Hi Hd)|done|]; rewrite ?Emin.
  1-6: rewrite ?Ht; change (MAXFILE * BSIZE) with 71680; unfold SIZEOF_DIRENT; done || lia.
  - intros bn H1 H2. apply Hm; unfold BSIZE in *; Z.div_mod_to_equations; lia.
  - intros r s' (-> & HQ' & E). by split; [split_and!|].
Qed.

(** The scan up to entry [k], none before which has the name. *)
Lemma dirlookup_scan P dp ip nm n k fuel R env : forall d s,
  quiet P s -> icache s !! dp = Some ip -> directory (contents P s) ip n -> (k <= n)%nat -> (d <= k)%nat ->
  (forall j, (k - d <= j < k)%nat -> names nm (dirent_at (contents P s) ip j) = false) ->
  (forall s', quiet P s' -> same s s' -> rc (stopped s) env (dirlookup_loop fuel dp nm (16 * Z.of_nat k) env s') R) ->
  rc (stopped s) env (dirlookup_loop (d + fuel) dp nm (16 * Z.of_nat (k - d)) env s) R.
Proof using SD.
  induction d as [|d IH]; intros s HQ Hi Hdir Hk Hd Hno Hgo; [rewrite Nat.sub_0_r; by apply Hgo; [|apply same_refl]|].
  cbn [Nat.add dirlookup_loop]. rewrite (bind_get_inode _ _ _ _ _ Hi). pose proof (dr_size _ _ _ Hdir) as Hsz.
  rewrite (proj2 (Z.leb_gt _ _)) by lia.
  eapply rc_step; [apply (read_de_reads P s dp ip n (k - S d) _ env HQ Hi Hdir); lia|done|].
  intros de s1 (-> & HQ1 & E1). assert (contents P s1 = contents P s) as Ec by apply contents_same, E1.
  assert (rc (stopped s) env (dirlookup_loop (d + fuel) dp nm (16 * Z.of_nat (k - S d) + SIZEOF_DIRENT) env s1) R) as Hrec.
  { apply (stopped_same s s1); [apply E1|]. replace (16 * Z.of_nat (k - S d) + SIZEOF_DIRENT) with (16 * Z.of_nat (k - d)) by (unfold SIZEOF_DIRENT; lia).
    apply IH; rewrite ?Ec; [done|by eapply same_inode|done|done|lia|intros j Hj; apply Hno; lia|].
    intros s2 HQ2 E2. apply (stopped_same s1 s); [symmetry; apply E1|]. apply Hgo; [done|by eapply same_trans]. }
  pose proof (Hno (k - S d)%nat ltac:(lia)) as Hn. unfold names in Hn.
  destruct (_ =? 0); [done|]. cbn [negb andb] in Hn. by rewrite Hn.
Qed.

(** The fuel is the number of entries and more. *)
Lemma dirlookup_enters P s dp ip nm n k R env :
  quiet P s -> icache s !! dp = Some ip -> directory (contents P s) ip n -> (k <= n)%nat ->
  (forall j, (j < k)%nat -> names nm (dirent_at (contents P s) ip j) = false) ->
  (forall f s', quiet P s' -> same s s' -> rc (stopped s) env (dirlookup_loop (S f) dp nm (16 * Z.of_nat k) env s') R) ->
  rc (stopped s) env (dirlookup dp nm env s) R.
Proof using SD.
  intros HQ Hi Hdir Hk Hno Hgo. unfold dirlookup, dir_fuel. rewrite (bind_get_inode _ _ _ _ _ Hi), (dr_type _ _ _ Hdir).
  cbn [Z.eqb negb T_DIR Pos.eqb]. rewrite bind_assoc, (bind_get_inode _ _ _ _ _ Hi), bind_ret. pose proof (dr_size _ _ _ Hdir) as Hsz.
  set (N := Z.to_nat _). assert (exists f, N = (k + S f)%nat) as [f ->].
  { exists (N - k - 1)%nat. unfold N, SIZEOF_DIRENT. Z.div_mod_to_equations. lia. }
  change 0 with (16 * Z.of_nat 0). replace 0%nat with (k - k)%nat by lia.
  apply (dirlookup_scan P dp ip nm n k (S f) R env k s); [done|done|done|done|done|intros j Hj; apply Hno; lia|apply Hgo].
Qed.

Lemma dirlookup_found P s dp ip nm n k i c env :
  quiet P s -> icache s !! dp = Some ip -> directory (contents P s) ip n -> (k < n)%nat ->
  (forall j, (j < k)%nat -> names nm (dirent_at (contents P s) ip j) = false) -> names nm (dirent_at (contents P s) ip k) = true ->
  iget_to (icache s) 1 (de_inum (dirent_at (contents P s) ip k)) = Some (i, c) ->
  rc (stopped s) env (dirlookup dp nm env s)
    (fun r s' => r = Some (i, 16 * Z.of_nat k) /\ quiet P s' /\ same (set_icache c s) s').
Proof using SD.
  intros HQ Hi Hdir Hk Hno Hyes Hget. apply (dirlookup_enters P s dp ip nm n k); try done; [lia|]. intros f s1 HQ1 E1. cbn [dirlookup_loop].
  pose proof (same_inode _ _ _ _ Hi E1) as Hi1. assert (contents P s1 = contents P s) as Ec by apply contents_same, E1.
  rewrite (bind_get_inode _ _ _ _ _ Hi1). pose proof (dr_size _ _ _ Hdir) as Hsz. rewrite (proj2 (Z.leb_gt _ _)) by lia.
  apply (stopped_same s s1); [apply E1|].
  eapply rc_step; [apply (read_de_reads P s1 dp ip n k _ env HQ1 Hi1); [by rewrite Ec|done]|done|].
  intros de s2 (-> & HQ2 & E2). rewrite Ec. unfold names in Hyes. apply andb_prop in Hyes as [->%negb_true_iff ->].
  rewrite (bind_get_inode _ _ _ _ _ (same_inode _ _ _ _ Hi1 E2)), (dr_dev _ _ _ Hdir).
  pose proof (same_trans _ _ _ E1 E2) as E. assert (icache s2 = icache s) as Ei by apply E.
  erewrite bind_ok by (apply (iget_run P s2 1 _ i c env HQ2); rewrite Ei; exact Hget).
  split; [|done]. split_and!; [done|by apply quiet_icache|by apply same_icache].
Qed.

Lemma dirlookup_missing P s dp ip nm n env :
  quiet P s -> icache s !! dp = Some ip -> directory (contents P s) ip n -> i_size ip = 16 * Z.of_nat n ->
  (forall j, (j < n)%nat -> names nm (dirent_at (contents P s) ip j) = false) ->
  rc (stopped s) env (dirlookup dp nm env s) (fun r s' => r = None /\ quiet P s' /\ same s s').
Proof using SD.
  intros HQ Hi Hdir Hn Hno. apply (dirlookup_enters P s dp ip nm n n); try done. intros f s1 HQ1 E1. cbn [dirlookup_loop].
  rewrite (bind_get_inode _ _ _ _ _ (same_inode _ _ _ _ Hi E1)), (proj2 (Z.leb_le _ _)) by lia. by split; [split_and!|].
Qed.

(** ** namei of a file in the root directory *)

(** The lock was taken and given back. *)
Lemma same_put s s1 s2 s3 i c c' c2 :
  slocks s !! SLinode i = None -> same (set_icache c (locked_inode i s)) s1 -> same (set_icache c' s1) s2 ->
  same (set_icache c2 (unlocked_inode i s2)) s3 -> same (set_icache c2 s) s3.
Proof using.
  intros Hs (A1 & A2 & A3 & A4 & A5 & A6 & A7) (B1 & B2 & B3 & B4 & B5 & B6 & B7). apply same_trans.
  repeat split; unfold umem in *; cbn in *; try congruence. intros j. destruct (decide (j = i)) as [->|Hne]; [by rewrite lookup_delete_eq, Hs|].
  rewrite lookup_delete_ne by congruence. rewrite B7, A7, lookup_insert_ne by congruence. done.
Qed.

Lemma names_set_elem e nm de : names (set_elem e nm) de = names e de.
Proof using.
  unfold names, namecmp. f_equal. pose proof (strncmp_padded DIRSIZ e (de_name de)) as H1.
  pose proof (strncmp_padded DIRSIZ (set_elem e nm) (de_name de)) as H2. rewrite strncpy_set_elem in H2.
  destruct (Z.eqb_spec (strncmp_l (set_elem e nm) (de_name de) DIRSIZ) 0), (Z.eqb_spec (strncmp_l e (de_name de) DIRSIZ) 0); tauto.
Qed.

(** A turn of [namex] through directory [r] to its entry [k], the last of
    the path. *)
Lemma namex_last P s e nm r ip n k i c' fuel env :
  quiet P s -> e <> [] -> slash ∉ e ->
  icache s !! r = Some ip -> 1 <= i_ref ip -> i_dev ip = 1 -> slocks s !! SLinode r = None -> 0 <= IBLOCK (i_inum ip) (sb s) < size ->
  let D := contents P s in let dir := fetched D (sb s) ip in
  directory D dir n -> i_ref dir = i_ref ip -> i_nlink dir <> 0 -> (k < n)%nat ->
  (forall j, (j < k)%nat -> names e (dirent_at D dir j) = false) -> names e (dirent_at D dir k) = true ->
  iget_to (<[r := dir]> (icache s)) 1 (de_inum (dirent_at D dir k)) = Some (i, c') ->
  rc (stopped s) env (namex_loop (S fuel) r (slash :: e) false nm env s)
    (fun x s' => x = (Some i, set_elem e nm) /\ quiet P s' /\ same (set_icache (upd r (fun ip => set_i_ref (i_ref ip - 1) ip) c') s) s').
Proof using SD.
  intros HQ He Hsl Hr Hp Hdv Hlk Hb D dir Hdir Href Hnl Hk Hno Hyes Hget. cbn [namex_loop]. rewrite skipelem_child by done.
  assert (r < length (icache s))%nat as Hlt by by eapply lookup_lt_Some.
  eapply rc_step; [apply (ilock_fetches P s r ip env HQ Hr Hp Hdv Hlk Hb)|done|].
  { fold D dir. by rewrite (dr_type _ _ _ Hdir). }
  fold D dir. intros _ s1 (HQ1 & E1). assert (icache s1 = <[r := dir]> (icache s)) as Ei1 by apply E1.
  assert (icache s1 !! r = Some dir) as Hr1 by (by rewrite Ei1, list_lookup_insert_eq).
  assert (contents P s1 = D) as Ec by (apply contents_same, E1). apply (stopped_same s s1); [apply E1|].
  rewrite (bind_get_inode _ _ _ _ _ Hr1), (dr_type _ _ _ Hdir). cbn [Z.eqb negb T_DIR Pos.eqb andb].
  eapply rc_step; [apply (dirlookup_found P s1 r dir (set_elem e nm) n k i c' env HQ1 Hr1)|done|]; rewrite ?Ec; try done.
  { intros j Hj. rewrite names_set_elem. by apply Hno. } { by rewrite names_set_elem. } { by rewrite Ei1. }
  intros x s2 (-> & HQ2 & E2). destruct (iget_to_keeps _ _ _ _ _ r dir Hget) as (m & Hm & Hm2 & _); [by apply list_lookup_insert_eq|lia|].
  assert (icache s2 = c') as Ei2 by apply E2.
  destruct (iunlockput_run P s2 r (set_i_ref m dir) env HQ2) as (s3 & E & HQ3 & E3); [by rewrite Ei2|cbn; lia| |done|].
  { destruct E2 as (_ & _ & _ & _ & _ & _ & ->). destruct E1 as (_ & _ & _ & _ & _ & _ & E). cbn. rewrite E. cbn. by rewrite lookup_insert_eq. }
  rewrite (bind_ok _ _ _ _ _ _ _ E). apply rc_ok with (a := (Some i, set_elem e nm)) (s := s3); [by destruct fuel|].
  split_and!; [done|done|]. rewrite Ei2 in E3. by eapply same_put.
Qed.

Lemma fetched_keeps D b ip : i_ref (fetched D b ip) = i_ref ip.
Proof using. unfold fetched. by destruct (is_loaded ip). Qed.

Lemma namei_child P s e r c ip n k i c' env :
  quiet P s -> e <> [] -> slash ∉ e ->
  iget_to (icache s) ROOTDEV ROOTINO = Some (r, c) -> c !! r = Some ip -> slocks s !! SLinode r = None ->
  0 <= IBLOCK ROOTINO (sb s) < size ->
  let D := contents P s in let dir := fetched D (sb s) ip in
  directory D dir n -> i_nlink dir <> 0 -> (k < n)%nat ->
  (forall j, (j < k)%nat -> names e (dirent_at D dir j) = false) -> names e (dirent_at D dir k) = true ->
  iget_to (<[r := dir]> c) 1 (de_inum (dirent_at D dir k)) = Some (i, c') ->
  rc (stopped s) env (namei (slash :: e) env s)
    (fun x s' => x = Some i /\ quiet P s' /\ same (set_icache (upd r (fun ip => set_i_ref (i_ref ip - 1) ip) c') s) s').
Proof using SD.
  intros HQ He Hsl Hroot Hr Hlk Hb D dir Hdir Hnl Hk Hno Hyes Hget. unfold namei, namex. cbn [hd]. rewrite Z.eqb_refl.
  rewrite !bind_assoc, (bind_ok _ _ _ _ _ _ _ (iget_run P s _ _ r c env HQ Hroot)). destruct (iget_to_got _ _ _ _ _ Hroot) as (ip' & Hr' & Hp & Hd & Hn).
  rewrite Hr in Hr'. injection Hr' as <-. cbn [length].
  eapply rc_step; [apply (namex_last P (set_icache c s) e _ r ip n k i c' _ env (quiet_icache _ _ _ HQ)); try done| |].
  - cbn. by rewrite Hn.
  - apply fetched_keeps.
  - done.
  - intros [x y] s' ([= -> ->] & HQ' & E). split; [|done]. split_and!; [done|done|]. eapply same_trans; [|exact E]. by repeat split.
Qed.
End Fsread.
