(* ===== verification/Fstxn.v ===== *)
(** * The blocks of the disk within a transaction

    [txn H d0 bs D s]: in a transaction that started on the disk [d0], the
    blocks [bs] were recorded, the blocks have the contents [D], and the
    buffers [H] are locked.  The lemmas give the effect of [bread],
    [log_write] and [brelse] in these terms; the file system's code above
    uses nothing else of the cache and the log. *)

From stdpp Require Import base numbers list gmap strings.
From S2P Require Import Prelude Kernel Spinlock Sched Sleeplock Kalloc Umem Buf Memide Ring Bio Bcache Log Logsafe Inode Consdev Dir Fsread.

(** The blocks with block [b] replaced. *)
Definition fput (b : Z) (v : list Z) (D : Z -> list Z) : Z -> list Z := fun c => if decide (c = b) then v else D c.
Lemma fput_eq b v D : fput b v D b = v.
Proof. unfold fput. by rewrite decide_True. Qed.
Lemma fput_ne b v D c : c <> b -> fput b v D c = D c.
Proof. intros H. unfold fput. by rewrite decide_False. Qed.

Section Fstxn.
Context {DR : Driver} (me : nat) (mp : proc) (size L nlog : Z) {may : Prop} {SD : SyncDisk size may}.
Implicit Types (P : pinned) (H : held) (s : kst) (bs : list Z) (D : Z -> list Z).

Notation Cache := (Cache me mp size).

Record txn H d0 bs D s : Prop := {
  tx_cache : exists P, Cache H P s /\ (forall b, is_Some (P !! b) <-> b ∈ bs) /\ forall c, contents P s c = D c;
  tx_header : header L bs s;
  tx_layout : layout size L nlog bs;
  tx_disk : disk s = d0;
  tx_size : lg_size (log s) = nlog;
  tx_count : lg_outstanding (log s) = 1 /\ lg_committing (log s) = false;
}.

(** [n] more blocks can be recorded. *)
Definition spare (n : nat) bs : Prop := (length bs + n <= 28)%nat /\ Z.of_nat (length bs + n) < nlog.

(** Where the run stops if the power fails. *)
Definition cut_off (d0 : gmap (Z * Z) (list Z)) s : Prop := may /\ disk s = d0.

Lemma txn_of_in_txn d0 bs D s : in_txn me mp size L nlog d0 bs D s -> txn ∅ d0 bs D s.
Proof using. intros [(P & HC & [Hp _] & HD) ? ? ? ? ?]. split; try done. by exists P. Qed.
Lemma in_txn_of_txn d0 bs D s : txn ∅ d0 bs D s -> (length bs <= 28)%nat -> in_txn me mp size L nlog d0 bs D s.
Proof using.
  intros [(P & HC & Hp & HD) ? ? ? ? ?] Hl. split; try done. exists P. split_and!; [done| |done]. split; [done|].
  apply pins_size in Hp. unfold NBUF. lia.
Qed.

Lemma txn_length H d0 bs D s b : txn H d0 bs D s -> length (D b) = Z.to_nat BSIZE.
Proof using. intros [(P & HC & _ & <-) _ _ _ _ _]. by apply (length_contents me mp size H). Qed.

Lemma txn_bread H d0 bs D s b env :
  txn H d0 bs D s -> 0 <= b < size -> not_held H b -> (base.size H <= 1)%nat -> spare 0 bs ->
  rc (cut_off d0) env (bread 1 b env s)
    (fun j s' => H !! j = None /\ txn (<[j := (b, Some (D b))]> H) d0 bs D s' /\ rest s s' /\ exists x, bcache s' !! j = Some x /\ b_data x = D b).
Proof using SD.
  intros [(P & HC & Hp & HD) Hh Hy Hd Hsz Hct] Hb Hn Hs1 [Hs2 _].
  eapply rc_mono; [apply (bread_spec me mp size H P s b env HC Hb Hn)| |].
  - left. eapply room_size; [exact HC|]. apply pins_size in Hp. unfold NBUF. lia.
  - intros s' [Hm E]. split; [done|congruence].
  - intros j s' (Hj & HC' & (D1 & L1 & R1)). rewrite HD in HC'. split_and!; [done| |done|].
    + split; rewrite ?L1; try done; [|by eapply header_same|congruence]. exists P. split_and!; [done|done|].
      intros c. rewrite (contents_same P s s') by done. apply HD.
    + destruct (held_buf me mp size _ _ _ _ _ _ HC' (lookup_insert_eq _ _ _)) as (x & _ & Hx & _ & _ & _ & _ & _ & _ & L6 & _). by exists x.
Qed.

Lemma txn_brelse H d0 bs D s j b env :
  txn H d0 bs D s -> H !! j = Some (b, Some (D b)) ->
  rc (fun _ => False) env (brelse j env s) (fun _ s' => txn (delete j H) d0 bs D s' /\ rest s s').
Proof using SD.
  intros [(P & HC & Hp & HD) Hh Hy Hd Hsz Hct] Hj.
  eapply rc_mono; [apply (brelse_spec me mp size H P s j b _ env HC Hj)|done|].
  - rewrite <- HD. unfold contents. destruct (P !! b) as [d|]; [left; by eexists|by right].
  - intros _ s' (HC' & (D1 & L1 & R1)). split; [|done].
    split; rewrite ?L1; try done; [|by eapply header_same|congruence]. exists P. split_and!; [done|done|].
    intros c. rewrite (contents_same P s s') by done. apply HD.
Qed.

(** [bp->data = g(bp->data); log_write(bp)] *)
Lemma txn_write H d0 bs D s j b d g env :
  txn H d0 bs D s -> H !! j = Some (b, Some d) -> 0 <= b < size -> ~ in_log L nlog b -> length (g d) = Z.to_nat BSIZE -> spare 1 bs ->
  rc (fun _ => False) env ((mod_data j g ;; log_write j) env s)
    (fun _ s' => txn (<[j := (b, Some (g d))]> H) d0 (add_block b bs) (fput b (g d) D) s' /\ rest s s').
Proof using.
  intros [(P & HC & Hp & HD) Hh Hy Hd Hsz [Hc1 Hc2]] Hj Hb Hl Hg [Hs1 Hs2]. unfold mod_data, mod_buf. rewrite bind_modify.
  eassert (Cache _ _ _) as HC1.
  { apply (set_data_spec me mp size H P s j b d (g d) (fun x => set_b_data (g (b_data x)) x) HC Hj); [by intros x <-|done]. }
  set (s1 := set_bcache _ s) in *. assert (log s1 = log s) as L1 by done.
  assert (LOGSIZE = 30) as EL by done.
  eapply rc_mono; [apply (log_write_spec me mp size L nlog bs _ _ s1 j b (g d) env HC1 (lookup_insert_eq _ _ _)); rewrite ?L1; try done; try lia|done|].
  { by apply header_same with s. }
  intros _ s2 (HC2 & Hh2 & D2 & (Ct1 & Ct2 & Ct3) & R2). rewrite L1 in Ct1, Ct2, Ct3. split; [|done].
  split; rewrite ?Ct1, ?Ct2, ?Ct3; try done; [|apply layout_add; (done || lia)|by rewrite D2].
  eexists. split_and!; [exact HC2| |].
  - intros c. rewrite lookup_insert_is_Some', elem_of_add_block, <- Hp. destruct (decide (c = b)) as [->|Hne]; [tauto|].
    rewrite lookup_alter_ne by done. intuition congruence.
  - intros c. unfold contents, fput. case_decide as Hne; [subst c; by rewrite lookup_insert_eq|].
    rewrite lookup_insert_ne, lookup_alter_ne by done. rewrite D2. apply HD.
Qed.

Lemma txn_icache H d0 bs D s c : txn H d0 bs D s -> txn H d0 bs D (set_icache c s).
Proof using.
  intros [(P & HC & Hp & HD) Hh Hy Hd Hsz Hct]. split; try done; [|by eapply header_same]. exists P. split_and!; try done.
  apply (cache_frame me mp size H P s); try done. by destruct (ca_calm _ _ _ _ _ _ HC).
Qed.

(** ** Reading a block, and changing one *)

Section Block.
Context {B : Type} (H : held) (d0 : gmap (Z * Z) (list Z)) (bs : list Z) (D : Z -> list Z) (s : kst) (b : Z) (env : list (kst -> kst)).
Hypotheses (Ht : txn H d0 bs D s) (Hb : 0 <= b < size) (Hn : not_held H b) (Hsz : (base.size H <= 1)%nat).

(** [bp = bread(1, b); ...; brelse(bp); k]: the part in between only looks. *)
Lemma txn_read (f : nat -> M B) (k : M B) R :
  spare 0 bs ->
  (forall j x s', bcache s' !! j = Some x -> b_data x = D b -> rest s s' -> f j env s' = (brelse j ;; k) env s') ->
  (forall s', txn H d0 bs D s' -> rest s s' -> rc (cut_off d0) env (k env s') R) ->
  rc (cut_off d0) env (bind (bread 1 b) f env s) R.
Proof using SD Ht Hb Hn Hsz.
  intros Hs Hf Hk. eapply rc_step; [apply (txn_bread H d0 bs D s b env Ht Hb Hn Hsz Hs)|done|].
  intros j s1 (Hj & Ht1 & R1 & x & Hx & Ex). rewrite (Hf j x s1 Hx Ex R1).
  eapply rc_step; [apply (txn_brelse _ d0 bs D s1 j b env Ht1 (lookup_insert_eq _ _ _))|done|].
  intros _ s2 [Ht2 R2]. rewrite delete_insert_id in Ht2 by done. apply Hk; [done|by eapply rest_trans].
Qed.

(** The part in between looks, and then changes the block. *)
Lemma txn_update (g : list Z -> list Z) (f : nat -> M B) (k : M B) R :
  spare 1 bs -> ~ in_log L nlog b -> length (g (D b)) = Z.to_nat BSIZE ->
  (forall j x s', bcache s' !! j = Some x -> b_data x = D b -> rest s s' ->
     f j env s' = (mod_data j g ;; log_write j ;; brelse j ;; k) env s') ->
  (forall s', txn H d0 (add_block b bs) (fput b (g (D b)) D) s' -> rest s s' -> rc (cut_off d0) env (k env s') R) ->
  rc (cut_off d0) env (bind (bread 1 b) f env s) R.
Proof using SD Ht Hb Hn Hsz.
  intros Hs Hl Hg Hf Hk. assert (spare 0 bs) as Hs0 by (destruct Hs; split; lia).
  eapply rc_step; [apply (txn_bread H d0 bs D s b env Ht Hb Hn Hsz Hs0)|done|].
  intros j s1 (Hj & Ht1 & R1 & x & Hx & Ex). rewrite (Hf j x s1 Hx Ex R1), <- bind_assoc.
  eapply rc_step; [apply (txn_write _ d0 bs D s1 j b _ g env Ht1 (lookup_insert_eq _ _ _) Hb Hl Hg Hs)|done|].
  intros _ s2 [Ht2 R2]. rewrite insert_insert_eq in Ht2.
  eapply rc_step; [apply (txn_brelse _ d0 _ _ s2 j b env Ht2)|done|]; [by rewrite lookup_insert_eq, fput_eq|].
  intros _ s3 [Ht3 R3]. rewrite delete_insert_id in Ht3 by done. apply Hk; [done|]. by eapply rest_trans; [|eapply rest_trans].
Qed.
End Block.
End Fstxn.
