(* ===== verification/Mkfs.v ===== *)
(** * mkfs.c: the program that builds the file system

    mkfs runs on the host.  The image is the list of the sectors of the file
    it writes; the host's read, write and lseek work on it.  A failed
    assertion or a failed call of the host ends the program with an error,
    which is [None] here.  The files it copies are given by their names and
    the pieces [read] returns, or by the failure to open them.  The host is
    little-endian, as the Makefile builds it on an x86.

    The structures on the disk are those of the kernel (Inode.v, Dir.v,
    Log.v): that a kernel finds in the image what mkfs was told to put there
    is Mkfsok.v. *)

From stdpp Require Import base numbers list gmap strings.
From S2P Require Import Prelude Kernel Kalloc Umem Console Buf Log Inode Dir.

Notation block := (list Z).

(** ** Constants and the super block *)

Definition NINODES : Z := 200.
Definition nbitmap : Z := FSSIZE / (BSIZE * 8) + 1.
Definition ninodeblocks : Z := NINODES / IPB + 1.
Definition nlog : Z := LOGSIZE.
Definition nmeta : Z := 2 + nlog + ninodeblocks + nbitmap.
Definition nblocks : Z := FSSIZE - nmeta.

(** The bytes in Intel order, read back as an integer of the host. *)
Definition xshort (x : Z) : Z :=
  let a := [u8 x; u8 (x / 256)] in nth 0 a 0 + 256 * nth 1 a 0.
Definition xint (x : Z) : Z :=
  of_bytes32 [u8 x; u8 (x / 256); u8 (x / 65536); u8 (x / 16777216)].

Definition fs_sb : superblock :=
  mksb (xint FSSIZE) (xint nblocks) (xint NINODES) (xint nlog) (xint 2) (xint (2 + nlog)) (xint (2 + nlog + ninodeblocks)).
Definition sb_bytes (b : superblock) : list Z :=
  [sb_size b; sb_nblocks b; sb_ninodes b; sb_nlog b; sb_logstart b; sb_inodestart b; sb_bmapstart b] ≫= bytes32.

(** ** The image *)

Record mkst := mkmkst { img : list block; freeinode : Z; freeblock : Z }.
Definition set_img (f : list block -> list block) (st : mkst) : mkst := mkmkst (f (img st)) (freeinode st) (freeblock st).
Definition next_block (st : mkst) : mkst := mkmkst (img st) (freeinode st) (u32 (freeblock st + 1)).

(** The sector at [lseek(fsfd, sec * BSIZE, 0)]; the product is a uint. *)
Definition sector (sec : Z) : nat := Z.to_nat (u32 (sec * BSIZE) / BSIZE).

(** A write behind the end of the file leaves zeroes between. *)
Definition wsect (sec : Z) (buf : block) (st : mkst) : mkst :=
  set_img (fun im =>
    if (sector sec <? length im)%nat then <[sector sec := buf]> im
    else im ++ replicate (sector sec - length im) zero_block ++ [buf]) st.
(** A read behind the end is short. *)
Definition rsect (sec : Z) (st : mkst) : option block := img st !! sector sec.

Definition winode (inum : Z) (ip : dinode) (st : mkst) : option mkst :=
  let bn := IBLOCK inum fs_sb in
  buf ← rsect bn st;
  Some (wsect bn (splice buf (di_off inum) (di_bytes ip)) st).
Definition rinode (inum : Z) (st : mkst) : option dinode :=
  let bn := IBLOCK inum fs_sb in
  buf ← rsect bn st;
  Some (di_at buf (di_off inum)).

Definition ialloc (type : Z) (st : mkst) : option (Z * mkst) :=
  let inum := freeinode st in
  let st := mkmkst (img st) (u32 (inum + 1)) (freeblock st) in
  let din := mkdi (xshort type) 0 0 (xshort 1) (xint 0) (replicate 13 0) in
  st ← winode inum din st;
  Some (inum, st).

Definition balloc (used : Z) (st : mkst) : option mkst :=
  if BSIZE * 8 <=? used then None else
  Some (wsect (sb_bmapstart fs_sb)
    (foldl (fun buf i => <[Z.to_nat (i / 8) := u8 (Z.lor (nth (Z.to_nat (i / 8)) buf 0) (Z.shiftl 1 (i mod 8)))]> buf)
       zero_block (seqZ 0 used)) st).

(** ** iappend *)

Definition addr (d : dinode) (k : Z) : Z := nth (Z.to_nat k) (di_addrs d) 0.
Definition set_addr (k v : Z) (d : dinode) : dinode :=
  mkdi (di_type d) (di_major d) (di_minor d) (di_nlink d) (di_size d) (<[Z.to_nat k := v]> (di_addrs d)).
Definition set_size (v : Z) (d : dinode) : dinode :=
  mkdi (di_type d) (di_major d) (di_minor d) (di_nlink d) v (di_addrs d).

(** The block [x] for block [fbn] of the file; it is allocated if there is
    none. *)
Definition take_addr (k : Z) (din : dinode) (st : mkst) : dinode * mkst :=
  if xint (addr din k) =? 0 then (set_addr k (xint (freeblock st)) din, next_block st) else (din, st).
Definition entry_for (fbn : Z) (din : dinode) (st : mkst) : option (Z * mkst) :=
  indirect ← rsect (xint (addr din NDIRECT)) st;
  let e := 4 * (fbn - NDIRECT) in
  let '(indirect, st) :=
    if word_at indirect e =? 0 then
      let indirect := set_word indirect e (xint (freeblock st)) in
      (indirect, wsect (xint (addr din NDIRECT)) indirect (next_block st))
    else (indirect, st) in
  Some (xint (word_at indirect e), st).
Definition block_for (fbn : Z) (din : dinode) (st : mkst) : option (Z * dinode * mkst) :=
  if fbn <? NDIRECT then
    let (din, st) := take_addr fbn din st in
    Some (xint (addr din fbn), din, st)
  else
    let (din, st) := take_addr NDIRECT din st in
    r ← entry_for fbn din st;
    let '(x, st) := (r : Z * mkst) in
    Some (x, din, st).

(** [while(n > 0)]: every round takes at least one of the [n] bytes. *)
Fixpoint append_loop (fuel : nat) (din : dinode) (off : Z) (p : list Z) (st : mkst) : option (dinode * Z * mkst) :=
  match fuel with
  | O => None
  | S f =>
      match p with
      | [] => Some (din, off, st)
      | _ =>
          let fbn := off / BSIZE in
          if MAXFILE <=? fbn then None else
          r ← block_for fbn din st;
          let '(x, din, st) := (r : Z * dinode * mkst) in
          let n1 := Z.min (Z.of_nat (length p)) ((fbn + 1) * BSIZE - off) in
          buf ← rsect x st;
          let st := wsect x (splice buf (off - fbn * BSIZE) (take (Z.to_nat n1) p)) st in
          append_loop f din (u32 (off + n1)) (drop (Z.to_nat n1) p) st
      end
  end.
Definition iappend (inum : Z) (p : list Z) (st : mkst) : option mkst :=
  din ← rinode inum st;
  r ← append_loop (S (length p)) din (xint (di_size din)) p st;
  let '(din, off, st) := (r : dinode * Z * mkst) in
  winode inum (set_size (xint off) din) st.

(** ** main *)

(** [bzero(&de, sizeof(de)); de.inum = ..; strncpy(de.name, .., DIRSIZ)] *)
Definition entry (inum : Z) (name : list Z) : list Z := de_bytes (mkde (xshort inum) (strncpy_l name DIRSIZ)).

Definition strip (name : list Z) : list Z := match name with 95 :: rest => rest | _ => name end.

(** A file on the command line. *)
Record hostfile := mkhost { h_name : list Z; h_pieces : option (list (list Z)) }.

Fixpoint append_all (inum : Z) (pieces : list (list Z)) (st : mkst) : option mkst :=
  match pieces with
  | [] => Some st
  | p :: pieces' => st ← iappend inum p st; append_all inum pieces' st
  end.

Definition add_file (rootino : Z) (f : hostfile) (st : mkst) : option mkst :=
  if bool_decide (slash ∈ h_name f) then None else
  pieces ← h_pieces f;
  r ← ialloc T_FILE st;
  let '(inum, st) := (r : Z * mkst) in
  st ← iappend rootino (entry inum (strip (h_name f))) st;
  append_all inum pieces st.

Fixpoint add_files (rootino : Z) (fs : list hostfile) (st : mkst) : option mkst :=
  match fs with
  | [] => Some st
  | f :: fs' => st ← add_file rootino f st; add_files rootino fs' st
  end.

Definition fix_root (rootino : Z) (st : mkst) : option mkst :=
  din ← rinode rootino st;
  let off := xint (di_size din) in
  let off := u32 ((off / BSIZE + 1) * BSIZE) in
  winode rootino (set_size (xint off) din) st.

Definition zeroed : mkst :=
  foldl (fun st i => wsect i zero_block st) (mkmkst [] 1 nmeta) (seqZ 0 FSSIZE).

Definition main (fs : list hostfile) : option mkst :=
  let st := wsect 1 (splice zero_block 0 (sb_bytes fs_sb)) zeroed in
  r ← ialloc T_DIR st;
  let '(rootino, st) := (r : Z * mkst) in
  if negb (rootino =? ROOTINO) then None else
  st ← iappend rootino (entry rootino (bytes_of ".")) st;
  st ← iappend rootino (entry rootino (bytes_of "..")) st;
  st ← add_files rootino fs st;
  st ← fix_root rootino st;
  balloc (freeblock st) st.
