(* ===== verification/Mkfsok.v ===== *)
(** * The file system mkfs builds

    The image is read here the way the kernel reads it: the super block is
    the seven words of block 1 ([sb_of_block], Log.v), an inode is at its
    place in the inode blocks ([di_at], Inode.v), and block [bn] of a file is
    found in the addresses of the inode or in its indirect block, as [bmap]
    (fs.c) does.  [mkfs_builds] says that for files that fit mkfs succeeds,
    and that the image has exactly them. *)

From stdpp Require Import base numbers list gmap strings.
From S2P Require Import Prelude Kernel Kalloc Umem Console Buf Log Logsafe Inode Dir Mkfs.

(** ** Bytes *)

Definition byte (d : block) (k : Z) : Z := nth (Z.to_nat k) d 0.

Lemma length_splice d off bs : 0 <= off -> off + Z.of_nat (length bs) <= Z.of_nat (length d) -> length (splice d off bs) = length d.
Proof. intros H1 H2. unfold splice. rewrite !length_app, length_take, length_drop. lia. Qed.

Lemma byte_splice d off bs k : 0 <= off -> off + Z.of_nat (length bs) <= Z.of_nat (length d) -> 0 <= k ->
  byte (splice d off bs) k = if (off <=? k) && (k <? off + Z.of_nat (length bs)) then byte bs (k - off) else byte d k.
Proof.
  intros H1 H2 H3. unfold byte, splice.
  destruct (Z.leb_spec off k) as [Hk|Hk]; cbn [andb].
  - rewrite app_nth2 by (rewrite length_take; lia). rewrite length_take, Nat.min_l by lia.
    destruct (Z.ltb_spec k (off + Z.of_nat (length bs))) as [Hk2|Hk2].
    + rewrite app_nth1 by lia. f_equal. lia.
    + rewrite app_nth2 by lia. rewrite nth_skipn. f_equal. lia.
  - rewrite app_nth1 by (rewrite length_take; lia). rewrite nth_firstn. by rewrite (proj2 (Nat.ltb_lt _ _)) by lia.
Qed.
Lemma byte_splice_in d off bs k : 0 <= off -> off + Z.of_nat (length bs) <= Z.of_nat (length d) ->
  0 <= k < Z.of_nat (length bs) -> byte (splice d off bs) (off + k) = byte bs k.
Proof.
  intros H1 H2 H3. rewrite byte_splice by lia. rewrite (proj2 (Z.leb_le _ _)), (proj2 (Z.ltb_lt _ _)) by lia. cbn. f_equal. lia.
Qed.
Lemma byte_splice_out d off bs k : 0 <= off -> off + Z.of_nat (length bs) <= Z.of_nat (length d) -> 0 <= k ->
  k < off \/ off + Z.of_nat (length bs) <= k -> byte (splice d off bs) k = byte d k.
Proof.
  intros H1 H2 H3 H4. rewrite byte_splice by lia.
  destruct (Z.leb_spec off k), (Z.ltb_spec k (off + Z.of_nat (length bs))); cbn; try done; lia.
Qed.

Lemma word_at_byte d off : 0 <= off ->
  word_at d off = byte d off + 256 * byte d (off + 1) + 65536 * byte d (off + 2) + 16777216 * byte d (off + 3).
Proof.
  intros Ho. unfold word_at, of_bytes32, byte. rewrite !nth_firstn, !nth_skipn. cbn [Nat.ltb Nat.leb].
  rewrite Nat.add_0_r, !Z2Nat.inj_add by lia. done.
Qed.
Lemma word_at_ext d d' off : 0 <= off -> (forall k, off <= k < off + 4 -> byte d k = byte d' k) -> word_at d off = word_at d' off.
Proof. intros Ho H. rewrite !word_at_byte by done. by rewrite !H by lia. Qed.
Lemma word_at_splice d off bs k : 0 <= off -> off + Z.of_nat (length bs) <= Z.of_nat (length d) ->
  0 <= k -> k + 4 <= Z.of_nat (length bs) -> word_at (splice d off bs) (off + k) = word_at bs k.
Proof. intros. rewrite !word_at_byte by lia. rewrite <- !Z.add_assoc. by rewrite !byte_splice_in by lia. Qed.
Lemma short_at_splice d off bs k : 0 <= off -> off + Z.of_nat (length bs) <= Z.of_nat (length d) ->
  0 <= k -> k + 2 <= Z.of_nat (length bs) -> short_at (splice d off bs) (off + k) = short_at bs k.
Proof.
  intros. unfold short_at. fold (byte (splice d off bs) (off + k)). fold (byte (splice d off bs) (off + k + 1)).
  rewrite <- Z.add_assoc. by rewrite !byte_splice_in by lia.
Qed.
Lemma set_word_splice d off v : 0 <= off -> set_word d off v = splice d off (bytes32 v).
Proof. intros Ho. unfold set_word, splice. do 3 f_equal. cbn. lia. Qed.

Lemma nth_repeat0 n m : nth n (replicate m 0) 0 = 0.
Proof. revert n. induction m as [|m IH]; intros [|n]; cbn; auto. Qed.
Lemma byte_zero k : byte zero_block k = 0.
Proof. unfold byte, zero_block. generalize (Z.to_nat k). intros n. apply nth_repeat0. Qed.
Lemma word_at_zero off : 0 <= off -> word_at zero_block off = 0.
Proof. intros Ho. by rewrite word_at_byte, !byte_zero by done. Qed.

(** ** Inodes *)

Definition short_ok (x : Z) : Prop := -32768 <= x < 32768.
Definition uint_ok (x : Z) : Prop := 0 <= x < 4294967296.
Record di_ok (d : dinode) : Prop := {
  ok_type : short_ok (di_type d); ok_major : short_ok (di_major d);
  ok_minor : short_ok (di_minor d); ok_nlink : short_ok (di_nlink d);
  ok_size : uint_ok (di_size d); ok_len : length (di_addrs d) = 13%nat; ok_addrs : Forall uint_ok (di_addrs d);
}.

Lemma length_di_bytes d : di_ok d -> length (di_bytes d) = 64%nat.
Proof.
  intros Hd. unfold di_bytes. pose proof (ok_len d Hd) as Hl. revert Hl. generalize (di_addrs d). intros l Hl.
  do 13 (destruct l as [|? l]; [done|]). by destruct l.
Qed.

Lemma s16_bytes x : short_ok x -> s16 (x mod 256 + 256 * ((x / 256) mod 256)) = x.
Proof. unfold short_ok, s16. intros H. Z.div_mod_to_equations. lia. Qed.

Lemma di_at_bytes b off d : di_ok d -> 0 <= off -> off + 64 <= Z.of_nat (length b) -> di_at (splice b off (di_bytes d)) off = d.
Proof.
  intros Hd Ho Hl. pose proof (length_di_bytes d Hd) as Hlen. unfold di_at.
  rewrite <- (Z.add_0_r off) at 2. rewrite !short_at_splice, word_at_splice by lia.
  assert (((fun k => word_at (splice b off (di_bytes d)) (off + 12 + 4 * k)) <$> seqZ 0 (NDIRECT + 1)) =
          ((fun k => word_at (di_bytes d) (12 + 4 * k)) <$> seqZ 0 (NDIRECT + 1))) as ->.
  { apply list_fmap_ext. intros i x Hx. apply lookup_seqZ in Hx as [-> Hx]. change (NDIRECT + 1) with 13 in Hx.
    rewrite <- Z.add_assoc. apply word_at_splice; lia. }
  destruct Hd as [H1 H2 H3 H4 H5 H6 H7]. destruct d as [ty ma mi nl sz ad]. cbn [di_type di_major di_minor di_nlink di_size di_addrs] in *.
  do 13 (destruct ad as [|? ad]; [done|]). destruct ad; [|done]. clear Hlen H6.
  repeat (apply Forall_cons in H7 as [? H7]).
  f_equal; [by apply s16_bytes..| |].
  - refine (eq_trans (of_bytes32_bytes32 sz) _). by apply u32_small.
  - change (seqZ 0 (NDIRECT + 1)) with [0; 1; 2; 3; 4; 5; 6; 7; 8; 9; 10; 11; 12]. cbn [fmap list_fmap].
    repeat (apply (f_equal2 cons); [refine (eq_trans (of_bytes32_bytes32 _) _); by apply u32_small|]). done.
Qed.

Lemma di_at_ext b b' off : 0 <= off -> (forall k, off <= k < off + 64 -> byte b k = byte b' k) -> di_at b off = di_at b' off.
Proof.
  intros Ho H. unfold di_at, short_at.
  assert (forall k, off <= k < off + 64 -> nth (Z.to_nat k) b 0 = nth (Z.to_nat k) b' 0) as H' by exact H.
  rewrite !H' by lia. f_equal.
  - apply word_at_ext; [lia|]. intros k Hk. apply H. lia.
  - apply list_fmap_ext. intros i x Hx. apply lookup_seqZ in Hx as [-> Hx]. change (NDIRECT + 1) with 13 in Hx.
    apply word_at_ext; [lia|]. intros k Hk. apply H. lia.
Qed.

(** ** Sectors *)

Definition blk (im : list block) (x : Z) : block := nth (Z.to_nat x) im [].
Definition put (x : Z) (b : block) (im : list block) : list block := <[Z.to_nat x := b]> im.
Record img_ok (im : list block) : Prop := {
  im_len : length im = 1000%nat;
  im_blocks : Forall (fun b => length b = 512%nat) im;
}.
Definition on_disk (x : Z) : Prop := 0 <= x < 1000.

Lemma blk_lookup im x : img_ok im -> on_disk x -> im !! Z.to_nat x = Some (blk im x).
Proof.
  intros [Hl _] Hx. unfold on_disk in Hx. destruct (lookup_lt_is_Some_2 im (Z.to_nat x)) as [b Hb]; [lia|].
  rewrite Hb. unfold blk. by rewrite (nth_lookup_Some _ _ _ _ Hb).
Qed.
Lemma length_blk im x : img_ok im -> on_disk x -> length (blk im x) = 512%nat.
Proof. intros Hi Hx. pose proof (blk_lookup im x Hi Hx) as E. eapply Forall_lookup_1 in E; [|apply (im_blocks im Hi)]. done. Qed.
Lemma blk_put_eq im x b : img_ok im -> on_disk x -> blk (put x b im) x = b.
Proof. intros [Hl _] Hx. unfold on_disk in Hx. unfold blk, put. apply nth_lookup_Some, list_lookup_insert_eq. lia. Qed.
Lemma blk_put_ne im x y b : 0 <= x -> 0 <= y -> x <> y -> blk (put x b im) y = blk im y.
Proof. intros Hx Hy Hne. unfold blk, put. rewrite !nth_lookup, list_lookup_insert_ne by lia. done. Qed.
Lemma put_ok im x b : img_ok im -> length b = 512%nat -> img_ok (put x b im).
Proof. intros [H1 H2] Hb. split; [unfold put; by rewrite length_insert|by apply Forall_insert]. Qed.

Lemma sector_ok x : on_disk x -> sector x = Z.to_nat x.
Proof. unfold on_disk, sector, BSIZE. intros Hx. rewrite u32_small by lia. by rewrite Z.div_mul by lia. Qed.
Lemma rsect_run st x : img_ok (img st) -> on_disk x -> rsect x st = Some (blk (img st) x).
Proof. intros Hi Hx. unfold rsect. rewrite sector_ok by done. by apply blk_lookup. Qed.
Lemma wsect_run st x b : img_ok (img st) -> on_disk x -> wsect x b st = set_img (put x b) st.
Proof.
  intros [Hl _] Hx. unfold wsect, set_img, put. rewrite sector_ok by done. unfold on_disk in Hx.
  by rewrite (proj2 (Nat.ltb_lt _ _)) by lia.
Qed.

Lemma xint_ok x : uint_ok x -> xint x = x.
Proof. intros Hx. change (xint x) with (of_bytes32 (bytes32 x)). rewrite of_bytes32_bytes32. by apply u32_small. Qed.

(** ** What the files own *)

(** The block number in slot [s] of an inode: -1 is the indirect block, the
    others are the blocks of the file. *)
Definition slot (im : list block) (d : dinode) (s : Z) : Z :=
  if s =? -1 then addr d NDIRECT
  else if s <? NDIRECT then addr d s
  else if addr d NDIRECT =? 0 then 0 else word_at (blk im (addr d NDIRECT)) (4 * (s - NDIRECT)).
Definition is_slot (s : Z) : Prop := -1 <= s < 140.

(** Byte [k] of a file. *)
Definition file_byte (im : list block) (d : dinode) (k : Z) : Z := byte (blk im (slot im d (k / 512))) (k mod 512).

(** An inode, the number of blocks it has, and the bytes in them. *)
Record gi := mkgi { g_di : dinode; g_nb : Z; g_data : list Z }.

(** [own] says which slot of which inode a block is for. *)
Record inv (im : list block) (fb : Z) (gs : list gi) (own : Z -> option (nat * Z)) : Prop := {
  iv_img : img_ok im;
  iv_fb : 59 <= fb <= 1000;
  iv_free : forall b, fb <= b < 1000 -> blk im b = zero_block;
  iv_di : forall i g, gs !! i = Some g -> di_ok (g_di g);
  iv_own : forall i g s, gs !! i = Some g -> is_slot s -> slot im (g_di g) s <> 0 ->
    own (slot im (g_di g) s) = Some (i, s) /\ 59 <= slot im (g_di g) s < fb;
  iv_nb : forall i g bn, gs !! i = Some g -> 0 <= bn < 140 -> slot im (g_di g) bn <> 0 <-> bn < g_nb g;
  iv_data : forall i g k, gs !! i = Some g -> 0 <= k < 140 * 512 -> k / 512 < g_nb g ->
    file_byte im (g_di g) k = byte (g_data g) k;
}.

Lemma addr_ok d k : di_ok d -> 0 <= k < 13 -> uint_ok (addr d k).
Proof. intros Hd Hk. unfold addr. apply Forall_nth; [apply (ok_addrs d Hd)|]. rewrite (ok_len d Hd). lia. Qed.

(** A slot is not in the way of a write to another block. *)
Lemma slot_put im d s x b : 0 <= x -> uint_ok (addr d NDIRECT) -> x <> addr d NDIRECT -> slot (put x b im) d s = slot im d s.
Proof. intros Hx [Ha _] Hne. unfold slot. by rewrite blk_put_ne by done. Qed.

Lemma div_bound k : 0 <= k < 140 * 512 -> 0 <= k / 512 < 140.
Proof. intros Hk. Z.div_mod_to_equations. lia. Qed.

(** Allocation of a block for slot [s] of inode [i]. *)
Lemma inv_alloc im fb gs own i g s im' d' nb' :
  inv im fb gs own -> gs !! i = Some g -> fb < 1000 -> is_slot s -> slot im (g_di g) s = 0 ->
  img_ok im' -> di_ok d' ->
  (forall s', is_slot s' -> slot im' d' s' = if s' =? s then fb else slot im (g_di g) s') ->
  (forall j h s', j <> i -> gs !! j = Some h -> is_slot s' -> slot im' (g_di h) s' = slot im (g_di h) s') ->
  (forall x, 0 <= x -> blk im' x <> blk im x -> exists j, own x = Some (j, -1)) ->
  (forall b, fb <= b < 1000 -> blk im' b = blk im b) ->
  (s = -1 /\ nb' = g_nb g \/ s = g_nb g /\ nb' = g_nb g + 1) ->
  (forall k, 0 <= k -> 512 * g_nb g <= k -> byte (g_data g) k = 0) ->
  inv im' (fb + 1) (<[i := mkgi d' nb' (g_data g)]> gs) (fun b => if b =? fb then Some (i, s) else own b).
Proof.
  intros I Hi Hfb Hs Hz Hok Hd Hslot Hother Hblk Hfree Hnb Htail.
  pose proof (lookup_lt_Some _ _ _ Hi) as Hlt. pose proof (iv_fb _ _ _ _ I) as Hr.
  assert (forall j h, <[i := mkgi d' nb' (g_data g)]> gs !! j = Some h ->
    j = i /\ h = mkgi d' nb' (g_data g) \/ j <> i /\ gs !! j = Some h) as Hcase.
  { intros j h Hj. destruct (decide (j = i)) as [->|Hne]; [left|right].
    - rewrite list_lookup_insert_eq in Hj by done. by injection Hj as <-.
    - by rewrite list_lookup_insert_ne in Hj. }
  split.
  - done.
  - lia.
  - intros b Hb. rewrite Hfree by lia. apply (iv_free _ _ _ _ I). lia.
  - intros j h [[-> ->]|[Hne Hj]]%Hcase; [done|]. by apply (iv_di _ _ _ _ I j).
  - intros j h s' [[-> ->]|[Hne Hj]]%Hcase Hs' Hnz; cbn [g_di] in *.
    + rewrite Hslot in Hnz |- * by done. destruct (Z.eqb_spec s' s) as [->|Hss]; [rewrite Z.eqb_refl; split; [done|lia]|].
      destruct (iv_own _ _ _ _ I i g s' Hi Hs' Hnz) as [E1 E2]. rewrite (proj2 (Z.eqb_neq _ _)) by lia. split; [done|lia].
    + rewrite (Hother j h s' Hne Hj Hs') in Hnz |- *. destruct (iv_own _ _ _ _ I j h s' Hj Hs' Hnz) as [E1 E2].
      rewrite (proj2 (Z.eqb_neq _ _)) by lia. split; [done|lia].
  - intros j h bn [[-> ->]|[Hne Hj]]%Hcase Hbn; cbn [g_di g_nb] in *.
    + rewrite Hslot by (unfold is_slot; lia). pose proof (iv_nb _ _ _ _ I i g bn Hi Hbn) as E.
      destruct (Z.eqb_spec bn s) as [->|Hss]; [split; [|lia]; intros _; lia|]. rewrite E. lia.
    + rewrite (Hother j h bn Hne Hj) by (unfold is_slot; lia). by apply (iv_nb _ _ _ _ I j).
  - assert (forall j h k, gs !! j = Some h -> 0 <= k < 140 * 512 -> k / 512 < g_nb h ->
      byte (blk im' (slot im (g_di h) (k / 512))) (k mod 512) = byte (g_data h) k) as Hsame.
    { intros j h k Hj Hk Hkn. pose proof (div_bound k Hk) as Hkb.
      pose proof (proj2 (iv_nb _ _ _ _ I j h _ Hj Hkb) Hkn) as Hnz.
      destruct (iv_own _ _ _ _ I j h (k / 512) Hj ltac:(unfold is_slot; lia) Hnz) as [E1 E2].
      rewrite <- (iv_data _ _ _ _ I j h k Hj Hk Hkn). unfold file_byte.
      destruct (decide (blk im' (slot im (g_di h) (k / 512)) = blk im (slot im (g_di h) (k / 512)))) as [->|Hne]; [done|].
      apply Hblk in Hne as [j' E']; [|lia]. rewrite E1 in E'. injection E' as _ E'. lia. }
    intros j h k [[-> ->]|[Hne Hj]]%Hcase Hk Hkn; cbn [g_di g_nb g_data] in *; pose proof (div_bound k Hk) as Hkb; unfold file_byte.
    + rewrite Hslot by (unfold is_slot; lia). destruct (Z.eqb_spec (k / 512) s) as [E|Hss].
      * rewrite Hfree by lia. rewrite (iv_free _ _ _ _ I), byte_zero by lia. symmetry. apply Htail; [lia|]. Z.div_mod_to_equations. lia.
      * apply (Hsame i g); try done. lia.
    + rewrite (Hother j h _ Hne Hj) by (unfold is_slot; lia). by apply (Hsame j h).
Qed.

(** ** The block for a part of a file *)

Definition meta (d : dinode) : Z * Z * Z * Z * Z := (di_type d, di_major d, di_minor d, di_nlink d, di_size d).

Lemma addr_set d a v b : di_ok d -> 0 <= a < 13 -> 0 <= b -> addr (set_addr a v d) b = if b =? a then v else addr d b.
Proof.
  intros Hd Ha Hb. pose proof (ok_len d Hd) as Hl. unfold addr, set_addr. cbn [di_addrs]. rewrite !nth_lookup.
  destruct (Z.eqb_spec b a) as [->|Hne]; [by rewrite list_lookup_insert_eq by lia|by rewrite list_lookup_insert_ne by lia].
Qed.
Lemma set_addr_ok d a v : di_ok d -> uint_ok v -> di_ok (set_addr a v d).
Proof. intros [H1 H2 H3 H4 H5 H6 H7] Hv. split; try done; cbn; [by rewrite length_insert|by apply Forall_insert]. Qed.

(** A block for address [a] of the inode. *)
Lemma inv_take_addr im fb gs own i g a nb' :
  inv im fb gs own -> gs !! i = Some g -> fb < 1000 -> 0 <= a < 13 -> addr (g_di g) a = 0 ->
  (a = 12 /\ nb' = g_nb g \/ a < 12 /\ a = g_nb g /\ nb' = g_nb g + 1) ->
  (forall k, 0 <= k -> 512 * g_nb g <= k -> byte (g_data g) k = 0) ->
  exists own', inv im (fb + 1) (<[i := mkgi (set_addr a fb (g_di g)) nb' (g_data g)]> gs) own'.
Proof.
  intros I Hi Hfb Ha Hz Hnb Htail. set (d := g_di g) in *. pose proof (iv_di _ _ _ _ I i g Hi) as Hd. fold d in Hd.
  pose proof (iv_fb _ _ _ _ I) as Hr. exists (fun b => if b =? fb then Some (i, if a =? 12 then -1 else a) else own b).
  eapply inv_alloc; try done.
  - destruct (Z.eqb_spec a 12); unfold is_slot; lia.
  - fold d. unfold slot. change NDIRECT with 12. destruct (Z.eqb_spec a 12) as [->|Hne]; [done|].
    rewrite (proj2 (Z.eqb_neq a (-1))), (proj2 (Z.ltb_lt a 12)) by lia. done.
  - apply (iv_img _ _ _ _ I).
  - apply set_addr_ok; [done|]. unfold uint_ok. lia.
  - intros s' Hs'. fold d. unfold slot, is_slot in *. change NDIRECT with 12.
    destruct (Z.eqb_spec s' (-1)) as [->|Hs1].
    { rewrite (addr_set d) by (done || lia). destruct (Z.eqb_spec a 12) as [->|]; [done|].
      rewrite (proj2 (Z.eqb_neq 12 a)), (proj2 (Z.eqb_neq (-1) a)) by lia. done. }
    destruct (Z.ltb_spec s' 12) as [Hlt|Hge].
    { rewrite (addr_set d) by (done || lia). destruct (Z.eqb_spec a 12) as [->|]; [|done].
      rewrite (proj2 (Z.eqb_neq s' 12)), (proj2 (Z.eqb_neq s' (-1))) by lia. done. }
    rewrite !(addr_set d) by (done || lia). rewrite (Z.eqb_sym 12 a). destruct (Z.eqb_spec a 12) as [->|].
    + rewrite (proj2 (Z.eqb_neq fb 0)), (proj2 (Z.eqb_neq s' (-1))) by lia. rewrite Hz. cbn [Z.eqb].
      rewrite (iv_free _ _ _ _ I) by lia. rewrite word_at_zero by lia. done.
    + rewrite (proj2 (Z.eqb_neq s' a)) by lia. done.
  - destruct (Z.eqb_spec a 12); lia.
Qed.

(** A block for an entry of the indirect block. *)
Lemma inv_entry im fb gs own i g :
  let d := g_di g in let e := 4 * (g_nb g - 12) in
  inv im fb gs own -> gs !! i = Some g -> fb < 1000 -> 12 <= g_nb g < 140 -> addr d 12 <> 0 ->
  (forall k, 0 <= k -> 512 * g_nb g <= k -> byte (g_data g) k = 0) ->
  exists own', inv (put (addr d 12) (set_word (blk im (addr d 12)) e fb) im) (fb + 1) (<[i := mkgi d (g_nb g + 1) (g_data g)]> gs) own'.
Proof.
  intros d e I Hi Hfb Hnb Ha Htail. set (x := addr d 12) in *. pose proof (iv_di _ _ _ _ I i g Hi) as Hd. fold d in Hd.
  pose proof (iv_fb _ _ _ _ I) as Hr. pose proof (iv_img _ _ _ _ I) as Hok.
  destruct (iv_own _ _ _ _ I i g (-1) Hi ltac:(unfold is_slot; lia) Ha) as [Hown Hx]. change (slot im (g_di g) (-1)) with x in *.
  assert (on_disk x) as Hxd by (unfold on_disk; lia). pose proof (length_blk im x Hok Hxd) as Hlen.
  exists (fun b => if b =? fb then Some (i, g_nb g) else own b). eapply inv_alloc; try done.
  - unfold is_slot. lia.
  - destruct (decide (slot im (g_di g) (g_nb g) = 0)) as [E|E]; [done|].
    apply (iv_nb _ _ _ _ I i g _ Hi) in E; lia.
  - apply put_ok; [done|]. rewrite length_set_word; lia.
  - intros s' Hs'. unfold slot, is_slot in *. fold d. change NDIRECT with 12. fold x.
    destruct (Z.eqb_spec s' (-1)) as [->|Hs1]; [rewrite (proj2 (Z.eqb_neq (-1) (g_nb g))) by lia; done|].
    destruct (Z.ltb_spec s' 12) as [Hlt|Hge]; [rewrite (proj2 (Z.eqb_neq s' (g_nb g))) by lia; done|].
    rewrite (proj2 (Z.eqb_neq x 0)) by done. rewrite blk_put_eq by done.
    destruct (Z.eqb_spec s' (g_nb g)) as [->|Hne].
    + fold e. rewrite word_at_set_word by lia. apply u32_small. lia.
    + apply word_at_set_word_ne; lia.
  - intros j h s' Hne Hj Hs'. apply slot_put; [lia|apply addr_ok; [by apply (iv_di _ _ _ _ I j)|by cbn]|].
    intros E. destruct (iv_own _ _ _ _ I j h (-1) Hj ltac:(unfold is_slot; lia)) as [Hown' _].
    { change (slot im (g_di h) (-1)) with (addr (g_di h) NDIRECT). rewrite <- E. done. }
    change (slot im (g_di h) (-1)) with (addr (g_di h) NDIRECT) in Hown'. rewrite <- E in Hown'. congruence.
  - intros y Hy Hne. destruct (decide (x = y)) as [<-|Hxy]; [by exists i|]. by rewrite blk_put_ne in Hne by (lia || done).
  - intros b Hb. apply blk_put_ne; lia.
  - lia.
Qed.

Definition cost (nb : Z) : Z := nb + (if 12 <? nb then 1 else 0).
Definition ind_ok (g : gi) : Prop := addr (g_di g) 12 <> 0 <-> 12 < g_nb g.
(** The blocks of the super block, the log, the inodes and the bitmap. *)
Definition same_meta (im im' : list block) : Prop := forall b, 0 <= b < 59 -> blk im' b = blk im b.
Definition zero_tail (g : gi) : Prop := forall k, 0 <= k -> 512 * g_nb g <= k -> byte (g_data g) k = 0.

(** The result of [block_for]. *)
Record got (gs : list gi) (i : nat) (g : gi) (fbn : Z) (st : mkst) (d' : dinode) (st' : mkst) : Prop := {
  gt_inode : freeinode st' = freeinode st;
  gt_slot : slot (img st') d' fbn <> 0;
  gt_inv : exists own', inv (img st') (freeblock st') (<[i := mkgi d' (Z.max (g_nb g) (fbn + 1)) (g_data g)]> gs) own';
  gt_ind : ind_ok (mkgi d' (Z.max (g_nb g) (fbn + 1)) (g_data g));
  gt_meta : meta d' = meta (g_di g);
  gt_same : same_meta (img st) (img st');
  gt_fb : freeblock st' = freeblock st + cost (Z.max (g_nb g) (fbn + 1)) - cost (g_nb g);
}.

Lemma slot_direct im d bn : 0 <= bn < 12 -> slot im d bn = addr d bn.
Proof.
  intros H. unfold slot. change NDIRECT with 12. rewrite (proj2 (Z.eqb_neq bn (-1))), (proj2 (Z.ltb_lt bn 12)) by lia. done.
Qed.
Lemma slot_indirect im d bn : 12 <= bn -> addr d 12 <> 0 -> slot im d bn = word_at (blk im (addr d 12)) (4 * (bn - 12)).
Proof.
  intros H Ha. unfold slot. change NDIRECT with 12. rewrite (proj2 (Z.eqb_neq bn (-1))), (proj2 (Z.ltb_ge bn 12)), (proj2 (Z.eqb_neq _ _)) by (lia || done). done.
Qed.

Lemma slot_uint im fb gs own i g bn : inv im fb gs own -> gs !! i = Some g -> 0 <= bn < 140 -> bn < g_nb g ->
  slot im (g_di g) bn <> 0 /\ 59 <= slot im (g_di g) bn < 1000 /\ uint_ok (slot im (g_di g) bn).
Proof.
  intros I Hi Hbn Hn. pose proof (proj2 (iv_nb _ _ _ _ I i g bn Hi Hbn) Hn) as Hnz. split; [done|].
  destruct (iv_own _ _ _ _ I i g bn Hi ltac:(unfold is_slot; lia) Hnz) as [_ Hx]. pose proof (iv_fb _ _ _ _ I). unfold uint_ok. lia.
Qed.
Lemma slot_free im fb gs own i g bn : inv im fb gs own -> gs !! i = Some g -> 0 <= bn < 140 -> g_nb g <= bn -> slot im (g_di g) bn = 0.
Proof.
  intros I Hi Hbn Hn. destruct (decide (slot im (g_di g) bn = 0)) as [E|E]; [done|]. apply (iv_nb _ _ _ _ I i g bn Hi Hbn) in E. lia.
Qed.

Lemma next_block_run st : 59 <= freeblock st < 1000 -> next_block st = mkmkst (img st) (freeinode st) (freeblock st + 1).
Proof. intros H. unfold next_block. by rewrite u32_small by lia. Qed.

Lemma entry_run st gs own i g fbn :
  inv (img st) (freeblock st) gs own -> gs !! i = Some g -> addr (g_di g) 12 <> 0 -> 12 <= fbn < 140 -> fbn <= g_nb g ->
  zero_tail g -> (fbn = g_nb g -> freeblock st < 1000) ->
  exists st', entry_for fbn (g_di g) st = Some (slot (img st') (g_di g) fbn, st') /\
    freeinode st' = freeinode st /\ slot (img st') (g_di g) fbn <> 0 /\
    (exists own', inv (img st') (freeblock st') (<[i := mkgi (g_di g) (Z.max (g_nb g) (fbn + 1)) (g_data g)]> gs) own') /\
    same_meta (img st) (img st') /\ freeblock st' = freeblock st + (if fbn <? g_nb g then 0 else 1).
Proof.
  intros I Hi Ha Hfbn Hle Ht Hfb. pose proof (iv_di _ _ _ _ I i g Hi) as Hd. pose proof (iv_fb _ _ _ _ I) as Hr.
  pose proof (iv_img _ _ _ _ I) as Hok. set (d := g_di g) in *. set (x := addr d 12) in *.
  destruct (iv_own _ _ _ _ I i g (-1) Hi ltac:(unfold is_slot; lia) Ha) as [_ Hx]. change (slot (img st) (g_di g) (-1)) with x in *.
  assert (on_disk x) as Hxd by (unfold on_disk; lia). pose proof (length_blk _ x Hok Hxd) as Hlen.
  unfold entry_for. change NDIRECT with 12. fold x. rewrite (xint_ok x) by (unfold uint_ok; lia). rewrite rsect_run by done. cbn [mbind option_bind].
  pose proof (slot_indirect (img st) d fbn ltac:(lia) Ha) as Es. fold x in Es. rewrite <- Es.
  destruct (Z.ltb_spec fbn (g_nb g)) as [Hn|Hn].
  - destruct (slot_uint _ _ _ _ _ _ fbn I Hi ltac:(lia) Hn) as (Hnz & _ & Hu). fold d in Hnz, Hu.
    rewrite (proj2 (Z.eqb_neq _ _) Hnz). exists st. rewrite <- Es, xint_ok by done. split; [done|]. split; [done|]. split; [done|].
    split; [|split; [done|lia]]. exists own. rewrite Z.max_l by lia. rewrite list_insert_id; [done|]. rewrite Hi. unfold d. by destruct g.
  - assert (fbn = g_nb g) as -> by lia. specialize (Hfb eq_refl).
    pose proof (slot_free _ _ _ _ _ _ (g_nb g) I Hi ltac:(lia) ltac:(lia)) as Ez. fold d in Ez. rewrite Ez. cbn [Z.eqb].
    destruct (inv_entry _ _ _ _ _ _ I Hi Hfb ltac:(lia) Ha Ht) as [own' I']. fold d x in I'.
    rewrite next_block_run, (xint_ok (freeblock st)) by (unfold uint_ok; lia). rewrite wsect_run by done. unfold set_img. cbn [img freeinode freeblock].
    set (im' := put _ _ _) in *. exists (mkmkst im' (freeinode st) (freeblock st + 1)). cbn [img freeinode freeblock].
    assert (slot im' d (g_nb g) = freeblock st) as Es'.
    { rewrite slot_indirect by (lia || done). fold x. unfold im'. rewrite blk_put_eq by done. rewrite word_at_set_word by lia. apply u32_small. lia. }
    rewrite word_at_set_word by lia. rewrite u32_small, xint_ok by (unfold uint_ok; lia). rewrite Es'.
    split; [done|]. split; [done|]. split; [lia|]. split; [exists own'; by rewrite Z.max_r by lia|]. split; [|done].
    intros b Hb. unfold im'. apply blk_put_ne; lia.
Qed.

Section block_for.
Context (st : mkst) (gs : list gi) (own : Z -> option (nat * Z)) (i : nat) (g : gi) (fbn : Z).
Context (I : inv (img st) (freeblock st) gs own) (Hi : gs !! i = Some g) (Hind : ind_ok g) (Hfbn : 0 <= fbn < 140) (Hle : fbn <= g_nb g).
Context (Ht : zero_tail g) (Hfb : freeblock st + cost (Z.max (g_nb g) (fbn + 1)) - cost (g_nb g) <= 1000).

(** The block is there. *)
Lemma got_same : fbn < g_nb g -> got gs i g fbn st (g_di g) st.
Proof using I Hi Hind Hfbn.
  clear Ht Hle Hfb. intros Hn. 
  assert (Z.max (g_nb g) (fbn + 1) = g_nb g) as E by lia.
  split; rewrite ?E; try done; [by apply (slot_uint _ _ _ _ _ _ _ I Hi)| |lia].
  exists own. rewrite list_insert_id; [done|]. rewrite Hi. by destruct g.
Qed.

Lemma block_for_direct : fbn < 12 ->
  exists d' st', block_for fbn (g_di g) st = Some (slot (img st') d' fbn, d', st') /\ got gs i g fbn st d' st'.
Proof using I Hi Hind Hfbn Hle Ht Hfb.
  intros H12. unfold block_for, take_addr. change NDIRECT with 12. rewrite (proj2 (Z.ltb_lt fbn 12)) by lia.
  pose proof (iv_di _ _ _ _ I i g Hi) as Hd. rewrite (xint_ok (addr (g_di g) fbn)) by (apply addr_ok; [done|lia]).
  pose proof (slot_direct (img st) (g_di g) fbn ltac:(lia)) as E. pose proof (iv_fb _ _ _ _ I) as Hr.
  destruct (Z.eqb_spec (addr (g_di g) fbn) 0) as [Ez|Ez].
  - assert (g_nb g = fbn) as En. { destruct (Z.lt_trichotomy (g_nb g) fbn) as [|[|H]]; try lia. apply (slot_uint _ _ _ _ _ _ _ I Hi) in H; [|lia]. rewrite E in H. tauto. }
    assert (cost (Z.max (g_nb g) (fbn + 1)) - cost (g_nb g) = 1) as Ec.
    { unfold cost. rewrite En, Z.max_r by lia. rewrite !(proj2 (Z.ltb_ge 12 _)) by lia. lia. }
    destruct (inv_take_addr _ _ gs own i g fbn (Z.max (g_nb g) (fbn + 1)) I Hi) as [own' I']; try done; try lia.
    rewrite next_block_run, (xint_ok (freeblock st)) by (unfold uint_ok; lia).
    exists (set_addr fbn (freeblock st) (g_di g)), (mkmkst (img st) (freeinode st) (freeblock st + 1)). cbn [img].
    assert (addr (set_addr fbn (freeblock st) (g_di g)) fbn = freeblock st) as Ea by (rewrite addr_set, Z.eqb_refl by (done || lia); done).
    assert (slot (img st) (set_addr fbn (freeblock st) (g_di g)) fbn = freeblock st) as Es by (by rewrite slot_direct by lia).
    split; [by rewrite Ea, Es, xint_ok by (unfold uint_ok; lia)|].
    split; cbn [img freeblock freeinode]; try done; [lia|by exists own'| |lia].
    unfold ind_ok in *. cbn [g_di g_nb]. rewrite addr_set by (done || lia). rewrite (proj2 (Z.eqb_neq 12 fbn)) by lia. rewrite Hind. lia.
  - exists (g_di g), st. rewrite E, xint_ok by (apply addr_ok; [done|lia]). split; [done|]. apply got_same.
    apply (iv_nb _ _ _ _ I i g fbn Hi Hfbn). by rewrite E.
Qed.

Lemma block_for_indirect : 12 <= fbn ->
  exists d' st', block_for fbn (g_di g) st = Some (slot (img st') d' fbn, d', st') /\ got gs i g fbn st d' st'.
Proof using I Hi Hind Hfbn Hle Ht Hfb.
  intros H12. unfold block_for, take_addr. change NDIRECT with 12. rewrite (proj2 (Z.ltb_ge fbn 12)) by lia.
  pose proof (iv_di _ _ _ _ I i g Hi) as Hd. rewrite (xint_ok (addr (g_di g) 12)) by (apply addr_ok; [done|lia]).
  pose proof (iv_fb _ _ _ _ I) as Hr. unfold cost in Hfb. destruct (Z.eqb_spec (addr (g_di g) 12) 0) as [Ez|Ez].
  - assert (g_nb g = 12 /\ fbn = 12) as [En ->]. { destruct (Z.lt_ge_cases 12 (g_nb g)) as [H|H]; [by apply Hind in H|lia]. }
    rewrite En in Hfb. change (Z.max 12 (12 + 1)) with 13 in Hfb. change (12 <? 13) with true in Hfb. change (12 <? 12) with false in Hfb. cbv iota in Hfb.
    destruct (inv_take_addr _ _ gs own i g 12 (g_nb g) I Hi) as [own' I']; try done; try lia.
    rewrite next_block_run, (xint_ok (freeblock st)) by (unfold uint_ok; lia).
    set (d' := set_addr 12 (freeblock st) (g_di g)) in *. set (g' := mkgi d' (g_nb g) (g_data g)) in *.
    assert (addr d' 12 = freeblock st) as Ea by (unfold d'; rewrite addr_set, Z.eqb_refl by (done || lia); done).
    destruct (entry_run (mkmkst (img st) (freeinode st) (freeblock st + 1)) (<[i := g']> gs) own' i g' 12) as (st' & E & F1 & F2 & F3 & F4 & F5);
      cbn [img freeblock freeinode g_di g_nb g']; try done; try lia.
    { apply list_lookup_insert_eq. by eapply lookup_lt_Some. }
    exists d', st'. change (g_di g') with d' in E. rewrite E. split; [done|]. cbn [g_di g_nb g_data g' img freeinode freeblock] in *.
    split; try done; [by rewrite list_insert_insert_eq in F3| |].
    + unfold ind_ok. cbn [g_di g_nb]. rewrite En. lia.
    + rewrite F5, En. change (cost (Z.max 12 (12 + 1))) with 14. change (cost 12) with 12. change (12 <? 12) with false. cbv iota. lia.
  - destruct (entry_run st gs own i g fbn) as (st' & E & F1 & F2 & F3 & F4 & F5); try done; try lia.
    { intros ->. apply Hind in Ez. rewrite Z.max_r in Hfb by lia. rewrite !(proj2 (Z.ltb_lt 12 _)) in Hfb by lia. lia. }
    exists (g_di g), st'. rewrite E. split; [done|]. split; try done.
    + unfold ind_ok in *. cbn [g_di g_nb]. apply Hind in Ez as Hn. split; [lia|]. by intros _.
    + rewrite F5. apply Hind in Ez. unfold cost. rewrite !(proj2 (Z.ltb_lt 12 _)) by lia. destruct (Z.ltb_spec fbn (g_nb g)); lia.
Qed.

Lemma block_for_run :
  exists d' st', block_for fbn (g_di g) st = Some (slot (img st') d' fbn, d', st') /\ got gs i g fbn st d' st'.
Proof using I Hi Hind Hfbn Hle Ht Hfb. destruct (Z.lt_ge_cases fbn 12); [by apply block_for_direct|by apply block_for_indirect]. Qed.
End block_for.

(** ** Writing *)

Lemma byte_app a b k : 0 <= k -> byte (a ++ b) k = if k <? Z.of_nat (length a) then byte a k else byte b (k - Z.of_nat (length a)).
Proof.
  intros Hk. unfold byte. destruct (Z.ltb_spec k (Z.of_nat (length a))).
  - by rewrite app_nth1 by lia.
  - rewrite app_nth2 by lia. f_equal. lia.
Qed.
Lemma byte_over a k : Z.of_nat (length a) <= k -> byte a k = 0.
Proof. intros Hk. unfold byte. apply nth_overflow. lia. Qed.

Lemma inv_write im fb gs own i g bs :
  let off := Z.of_nat (length (g_data g)) in let x := slot im (g_di g) (off / 512) in
  inv im fb gs own -> gs !! i = Some g -> off < 140 * 512 -> g_nb g = off / 512 + 1 -> off mod 512 + Z.of_nat (length bs) <= 512 ->
  inv (put x (splice (blk im x) (off mod 512) bs) im) fb (<[i := mkgi (g_di g) (g_nb g) (g_data g ++ bs)]> gs) own.
Proof.
  intros off x I Hi Hoff Hnb Hfit. set (d := g_di g) in *. pose proof (iv_fb _ _ _ _ I) as Hr. pose proof (iv_img _ _ _ _ I) as Hok.
  pose proof (div_bound off ltac:(lia)) as Hbn. destruct (slot_uint _ _ _ _ _ _ _ I Hi Hbn ltac:(lia)) as (Hnz & Hx & _). fold d x in Hnz, Hx.
  destruct (iv_own _ _ _ _ I i g (off / 512) Hi ltac:(unfold is_slot; lia) Hnz) as [Hown Hxf]. fold d x in Hown, Hxf.
  assert (on_disk x) as Hxd by (unfold on_disk; lia). pose proof (length_blk im x Hok Hxd) as Hlen.
  assert (0 <= off mod 512) as Hom by (apply Z.mod_pos_bound; lia).
  set (im' := put x _ im).
  assert (forall j h s, gs !! j = Some h -> slot im' (g_di h) s = slot im (g_di h) s) as Hslot.
  { intros j h s Hj. apply slot_put; [lia|apply addr_ok; [by apply (iv_di _ _ _ _ I j)|by cbn]|]. intros E.
    destruct (iv_own _ _ _ _ I j h (-1) Hj ltac:(unfold is_slot; lia)) as [Hown' _]; change (slot im (g_di h) (-1)) with (addr (g_di h) NDIRECT) in *.
    - rewrite <- E. lia.
    - rewrite <- E, Hown in Hown'. injection Hown' as _ E'. lia. }
  assert (forall j h, <[i := mkgi d (g_nb g) (g_data g ++ bs)]> gs !! j = Some h ->
    exists h0, gs !! j = Some h0 /\ g_di h = g_di h0 /\ g_nb h = g_nb h0 /\ (j = i /\ h0 = g /\ g_data h = g_data g ++ bs \/ j <> i /\ h = h0)) as Hcase.
  { intros j h [(<- & <- & _)|[Hne Hj]]%list_lookup_insert_Some; [exists g|exists h]; auto 10. }
  split.
  - apply put_ok; [done|]. rewrite length_splice; lia.
  - done.
  - intros b Hb. unfold im'. rewrite blk_put_ne by lia. by apply (iv_free _ _ _ _ I).
  - intros j h (h0 & Hj & -> & _)%Hcase. by apply (iv_di _ _ _ _ I j).
  - intros j h s (h0 & Hj & -> & _)%Hcase. rewrite (Hslot j) by done. by apply (iv_own _ _ _ _ I j).
  - intros j h bn (h0 & Hj & -> & -> & _)%Hcase. rewrite (Hslot j) by done. by apply (iv_nb _ _ _ _ I j).
  - intros j h k (h0 & Hj & Ed & En & Hc)%Hcase Hk Hkn. rewrite En in Hkn. pose proof (div_bound k Hk) as Hkb.
    pose proof (iv_data _ _ _ _ I j h0 k Hj Hk Hkn) as Hold. unfold file_byte in *. rewrite Ed, (Hslot j) by done.
    destruct (slot_uint _ _ _ _ _ _ _ I Hj Hkb Hkn) as (Hnz' & Hy & _).
    destruct (iv_own _ _ _ _ I j h0 (k / 512) Hj ltac:(unfold is_slot; lia) Hnz') as [Hown' _].
    destruct (decide (slot im (g_di h0) (k / 512) = x)) as [Ey|Ey].
    + rewrite Ey in Hown', Hold |- *. rewrite Hown in Hown'. injection Hown' as <- E. destruct Hc as [(_ & -> & ->)|[? _]]; [|done].
      unfold im'. rewrite blk_put_eq by done. rewrite byte_splice by (try apply Z.mod_pos_bound; lia). rewrite byte_app by lia. fold off.
      rewrite Hold. destruct (Z.leb_spec (off mod 512) (k mod 512)), (Z.ltb_spec (k mod 512) (off mod 512 + Z.of_nat (length bs))),
        (Z.ltb_spec k off); cbn [andb]; try done; try (Z.div_mod_to_equations; lia).
      * f_equal. Z.div_mod_to_equations. lia.
      * rewrite !byte_over; [done|Z.div_mod_to_equations; lia|done].
    + unfold im'. rewrite blk_put_ne by lia. rewrite Hold. destruct Hc as [(-> & -> & ->)|[_ ->]]; [|done].
      rewrite byte_app by lia. fold off. rewrite (proj2 (Z.ltb_lt k off)); [done|].
      assert (k / 512 <> off / 512) as Hne by (intros E; apply Ey; unfold x; by rewrite E). Z.div_mod_to_equations. lia.
Qed.

Definition nb_for (len : Z) : Z := (len + 511) / 512.
Definition g_len (g : gi) : Z := Z.of_nat (length (g_data g)).
Record good (g : gi) : Prop := { gd_nb : g_nb g = nb_for (g_len g); gd_ind : ind_ok g }.

Lemma cost_mono a b : a <= b -> cost a <= cost b.
Proof. intros H. unfold cost. destruct (Z.ltb_spec 12 a), (Z.ltb_spec 12 b); lia. Qed.
Lemma good_tail g : good g -> zero_tail g.
Proof. intros [Hnb _] k Hk Hle. apply byte_over. fold (g_len g). unfold nb_for in Hnb. rewrite Hnb in Hle. Z.div_mod_to_equations. lia. Qed.
Lemma nb_for_step off n : 0 <= off -> 0 < n -> off + n <= (off / 512 + 1) * 512 -> nb_for (off + n) = off / 512 + 1.
Proof. unfold nb_for. intros. Z.div_mod_to_equations. lia. Qed.
Lemma nb_for_le off : 0 <= off -> nb_for off <= off / 512 + 1 /\ off / 512 <= nb_for off.
Proof. unfold nb_for. intros. Z.div_mod_to_equations. lia. Qed.
Lemma nb_for_mono a b : a <= b -> nb_for a <= nb_for b.
Proof. unfold nb_for. intros. Z.div_mod_to_equations. lia. Qed.

(** What has happened when [p] was appended to file [i]. *)
Record appended (gs : list gi) (i : nat) (g : gi) (p : list Z) (st : mkst) (d' : dinode) (st' : mkst) : Prop := {
  ap_inode : freeinode st' = freeinode st;
  ap_inv : exists own', inv (img st') (freeblock st') (<[i := mkgi d' (nb_for (g_len g + Z.of_nat (length p))) (g_data g ++ p)]> gs) own';
  ap_good : good (mkgi d' (nb_for (g_len g + Z.of_nat (length p))) (g_data g ++ p));
  ap_meta : meta d' = meta (g_di g);
  ap_same : same_meta (img st) (img st');
  ap_fb : freeblock st' = freeblock st + cost (nb_for (g_len g + Z.of_nat (length p))) - cost (nb_for (g_len g));
}.

Lemma append_run : forall fuel p st gs own i g,
  inv (img st) (freeblock st) gs own -> gs !! i = Some g -> good g -> (length p < fuel)%nat ->
  g_len g + Z.of_nat (length p) <= 140 * 512 ->
  freeblock st + cost (nb_for (g_len g + Z.of_nat (length p))) - cost (nb_for (g_len g)) <= 1000 ->
  exists d' st', append_loop fuel (g_di g) (g_len g) p st = Some (d', g_len g + Z.of_nat (length p), st') /\ appended gs i g p st d' st'.
Proof.
  induction fuel as [|f IH]; intros p st gs own i g I Hi Hg Hf Hlen Hfb; [lia|]. cbn [append_loop].
  destruct p as [|c p0] eqn:Ep.
  { exists (g_di g), st. cbn [length]. rewrite Z.add_0_r in *. split; [done|]. pose proof (gd_nb g Hg) as En.
    split; try done; cbn [length]; rewrite ?Z.add_0_r, ?app_nil_r, <- ?En; [|by destruct g|lia].
    exists own. rewrite list_insert_id; [done|]. by rewrite Hi; destruct g. }
  rewrite <- Ep in *. assert (0 < Z.of_nat (length p)) as Hp by (rewrite Ep; cbn; lia). clear Ep c p0.
  set (off := g_len g) in *. change BSIZE with 512. change MAXFILE with 140. pose proof (nb_for_le off ltac:(unfold off, g_len; lia)) as [N1 N2].
  assert (0 <= off) as Hoff by (unfold off, g_len; lia). assert (0 <= off / 512 < 140) as Hbn by (Z.div_mod_to_equations; lia).
  rewrite (proj2 (Z.leb_gt 140 _)) by lia. set (n1 := Z.min _ _).
  assert (0 < n1 /\ n1 <= Z.of_nat (length p) /\ off + n1 <= (off / 512 + 1) * 512) as (Hn0 & Hn1 & Hn2) by (unfold n1; Z.div_mod_to_equations; lia).
  pose proof (nb_for_step off n1 Hoff Hn0 Hn2) as Nn. pose proof (nb_for_mono (off + n1) (off + Z.of_nat (length p)) ltac:(lia)) as Nm.
  pose proof (gd_nb g Hg) as En. fold off in En. assert (Z.max (g_nb g) (off / 512 + 1) = off / 512 + 1) as Emax by lia.
  destruct (block_for_run st gs own i g (off / 512) I Hi (gd_ind g Hg) Hbn ltac:(lia) (good_tail g Hg)) as (d1 & st1 & -> & G).
  { rewrite Emax, En. pose proof (cost_mono (off / 512 + 1) (nb_for (off + Z.of_nat (length p))) ltac:(lia)). lia. }
  destruct G as [G1 G2 [own1 I1] G4 G5 G6 G7]. rewrite Emax in I1, G4, G7. rewrite En in G7. clear Emax.
  set (g1 := mkgi d1 (off / 512 + 1) (g_data g)) in *. set (gs1 := <[i := g1]> gs) in *.
  assert (gs1 !! i = Some g1) as Hi1 by (apply list_lookup_insert_eq; by eapply lookup_lt_Some).
  destruct (slot_uint _ _ _ _ _ _ (off / 512) I1 Hi1 Hbn ltac:(cbn; lia)) as (_ & Hx & _). cbn [g_di g1] in Hx.
  set (x := slot (img st1) d1 (off / 512)) in *. assert (on_disk x) as Hxd by (unfold on_disk; lia).
  cbn [mbind option_bind]. rewrite rsect_run by (apply I1 || done). cbn [mbind option_bind]. rewrite wsect_run by (apply I1 || done).
  replace (off - off / 512 * 512) with (off mod 512) by (Z.div_mod_to_equations; lia).
  assert (length (take (Z.to_nat n1) p) = Z.to_nat n1) as Ltk by (rewrite length_take; lia).
  pose proof (inv_write _ _ _ _ _ _ (take (Z.to_nat n1) p) I1 Hi1) as I2. cbn [g_data g_di g_nb g1] in I2.
  change (Z.of_nat (length (g_data g))) with off in I2. fold x in I2.
  specialize (I2 ltac:(lia) eq_refl ltac:(rewrite Ltk; Z.div_mod_to_equations; lia)).
  set (st2 := set_img _ st1). set (g2 := mkgi d1 (off / 512 + 1) (g_data g ++ take (Z.to_nat n1) p)) in *. set (gs2 := <[i := g2]> gs1) in *.
  assert (g_len g2 = off + n1) as L2 by (unfold g_len; cbn [g_data g2]; rewrite length_app, Ltk; unfold off, g_len; lia).
  assert (length (drop (Z.to_nat n1) p) = (length p - Z.to_nat n1)%nat) as Ldr by apply length_drop.
  assert (off + n1 + Z.of_nat (length p - Z.to_nat n1) = off + Z.of_nat (length p)) as Lsum by lia.
  destruct (IH (drop (Z.to_nat n1) p) st2 gs2 own1 i g2 I2) as (d' & st' & E & A).
  { apply list_lookup_insert_eq. unfold gs1. rewrite length_insert. by eapply lookup_lt_Some. }
  { split; [|exact G4]. rewrite L2. cbn [g_nb g2]. lia. }
  { lia. }
  { rewrite L2, Ldr. lia. }
  { rewrite L2, Ldr, Lsum, Nn. cbn [st2 set_img freeblock]. lia. }
  rewrite L2, Ldr, Lsum in E. cbn [g_di g2] in E. rewrite (u32_small (off + n1)) by lia. exists d', st'. rewrite E. split; [done|].
  destruct A as [A1 [own' A2] A3 A4 A5 A6]. rewrite L2, Ldr, Lsum in *. cbn [g_di g_data g2] in *. rewrite <- app_assoc, take_drop in A2, A3.
  unfold gs2, gs1 in A2. rewrite !list_insert_insert_eq in A2. fold off.
  split; fold off; try done; [by rewrite A1|by exists own'|by rewrite A4| |].
  - intros b Hb. rewrite A5, <- G6 by done. unfold st2, set_img. cbn [img]. apply blk_put_ne; lia.
  - rewrite A6, Nn. unfold st2, set_img. cbn [freeblock]. lia.
Qed.

(** ** The inode table *)

(** The block and the place of the inode at position [i] of a list; the first
    of them has number 1. *)
Definition inum_of (i : nat) : Z := Z.of_nat i + 1.
Definition iblock (inum : Z) : Z := 32 + inum / 8.

Lemma iblock_ok inum : 0 <= inum < 208 -> IBLOCK inum fs_sb = iblock inum /\ 32 <= iblock inum < 58 /\ 0 <= di_off inum /\ di_off inum + 64 <= 512.
Proof.
  intros H. unfold IBLOCK, iblock, di_off. change IPB with 8. change SIZEOF_DINODE with 64. change (sb_inodestart fs_sb) with 32.
  assert (0 <= inum / 8 < 26) by (Z.div_mod_to_equations; lia). rewrite u32_small by lia. Z.div_mod_to_equations. lia.
Qed.

Lemma rinode_run st inum : img_ok (img st) -> 0 <= inum < 208 -> rinode inum st = Some (di_at (blk (img st) (iblock inum)) (di_off inum)).
Proof.
  intros Hok Hi. destruct (iblock_ok inum Hi) as (E & Hb & _). unfold rinode. rewrite E, rsect_run by (done || unfold on_disk; lia). done.
Qed.
Definition with_inode (inum : Z) (d : dinode) (im : list block) : list block :=
  put (iblock inum) (splice (blk im (iblock inum)) (di_off inum) (di_bytes d)) im.
Lemma winode_run st inum d : img_ok (img st) -> 0 <= inum < 208 -> winode inum d st = Some (set_img (with_inode inum d) st).
Proof.
  intros Hok Hi. destruct (iblock_ok inum Hi) as (E & Hb & _). unfold winode, with_inode. rewrite E, rsect_run by (done || unfold on_disk; lia).
  cbn [mbind option_bind]. rewrite wsect_run by (done || unfold on_disk; lia). done.
Qed.

Definition inode_at (im : list block) (inum : Z) : dinode := di_at (blk im (iblock inum)) (di_off inum).
Lemma inode_at_same im inum d : img_ok im -> 0 <= inum < 208 -> di_ok d -> inode_at (with_inode inum d im) inum = d.
Proof.
  intros Hok Hi Hd. destruct (iblock_ok inum Hi) as (_ & Hb & Ho). assert (on_disk (iblock inum)) as Hx by (unfold on_disk; lia).
  unfold inode_at, with_inode. rewrite blk_put_eq by done. apply di_at_bytes; [done|lia|]. rewrite length_blk by done. lia.
Qed.
Lemma inode_at_other im inum inum' d : img_ok im -> 0 <= inum < 208 -> 0 <= inum' < 208 -> inum' <> inum -> di_ok d ->
  inode_at (with_inode inum d im) inum' = inode_at im inum'.
Proof.
  intros Hok Hi Hi' Hne Hd. destruct (iblock_ok inum Hi) as (_ & Hb & Ho). destruct (iblock_ok inum' Hi') as (_ & Hb' & Ho').
  assert (on_disk (iblock inum)) as Hx by (unfold on_disk; lia). unfold inode_at, with_inode.
  destruct (decide (iblock inum' = iblock inum)) as [E|E]; [|by rewrite blk_put_ne by lia].
  rewrite E, blk_put_eq by done. apply di_at_ext; [lia|]. intros k Hk.
  apply byte_splice_out; rewrite ?length_di_bytes, ?length_blk by done; try lia.
  unfold di_off, iblock in *. change IPB with 8 in *. change SIZEOF_DINODE with 64 in *. Z.div_mod_to_equations. lia.
Qed.
Lemma with_inode_ok im inum d : img_ok im -> 0 <= inum < 208 -> di_ok d -> img_ok (with_inode inum d im).
Proof.
  intros Hok Hi Hd. destruct (iblock_ok inum Hi) as (_ & Hb & Ho). apply put_ok; [done|].
  assert (on_disk (iblock inum)) as Hx by (unfold on_disk; lia). rewrite length_splice; rewrite ?length_di_bytes, ?length_blk by done; lia.
Qed.
Lemma blk_with_inode im inum d b : 0 <= inum < 208 -> 0 <= b -> b < 32 \/ 58 <= b -> blk (with_inode inum d im) b = blk im b.
Proof. intros Hi Hb Hr. destruct (iblock_ok inum Hi) as (_ & Hx & _). apply blk_put_ne; lia. Qed.

(** Neither these blocks nor the rest of an inode matter to the data. *)
Lemma inv_put im fb gs own x b : inv im fb gs own -> 0 <= x < 59 -> length b = 512%nat -> inv (put x b im) fb gs own.
Proof.
  intros I Hx Hb. pose proof (iv_fb _ _ _ _ I) as Hr.
  assert (forall j h s, gs !! j = Some h -> slot (put x b im) (g_di h) s = slot im (g_di h) s) as Hslot.
  { intros j h s Hj. unfold slot. destruct (Z.eqb_spec (addr (g_di h) NDIRECT) 0) as [E|E]; [done|]. rewrite blk_put_ne; [done|lia| |];
      destruct (iv_own _ _ _ _ I j h (-1) Hj ltac:(unfold is_slot; lia) E) as [_ H]; change (slot im (g_di h) (-1)) with (addr (g_di h) NDIRECT) in H; lia. }
  split.
  - by apply put_ok; [apply I|].
  - done.
  - intros y Hy. rewrite blk_put_ne by lia. by apply (iv_free _ _ _ _ I).
  - apply (iv_di _ _ _ _ I).
  - intros j h s Hj. rewrite (Hslot j) by done. by apply (iv_own _ _ _ _ I j).
  - intros j h bn Hj. rewrite (Hslot j) by done. by apply (iv_nb _ _ _ _ I j).
  - intros j h k Hj Hk Hkn. rewrite <- (iv_data _ _ _ _ I j h k Hj Hk Hkn). unfold file_byte. rewrite (Hslot j) by done. f_equal.
    destruct (slot_uint _ _ _ _ _ _ _ I Hj (div_bound k Hk) Hkn) as (_ & Hy & _). apply blk_put_ne; lia.
Qed.
Lemma inv_with_inode im fb gs own inum d : inv im fb gs own -> 0 <= inum < 208 -> di_ok d -> inv (with_inode inum d im) fb gs own.
Proof.
  intros I Hi Hd. destruct (iblock_ok inum Hi) as (_ & Hb & Ho). apply inv_put; [done|lia|].
  assert (on_disk (iblock inum)) as Hx by (unfold on_disk; lia).
  rewrite length_splice; rewrite ?length_di_bytes, ?length_blk by (done || apply I); lia.
Qed.
Lemma inv_redi im fb gs own i g d' : inv im fb gs own -> gs !! i = Some g -> di_addrs d' = di_addrs (g_di g) -> di_ok d' ->
  inv im fb (<[i := mkgi d' (g_nb g) (g_data g)]> gs) own.
Proof.
  intros I Hi Ha Hd.
  assert (forall s, slot im d' s = slot im (g_di g) s) as Hslot by (intros s; unfold slot, addr; by rewrite Ha).
  assert (forall j h, <[i := mkgi d' (g_nb g) (g_data g)]> gs !! j = Some h ->
    exists h0, gs !! j = Some h0 /\ g_nb h = g_nb h0 /\ g_data h = g_data h0 /\ di_ok (g_di h) /\ forall s, slot im (g_di h) s = slot im (g_di h0) s) as Hcase.
  { intros j h [(<- & <- & _)|[Hne Hj]]%list_lookup_insert_Some; [by exists g|]. exists h. pose proof (iv_di _ _ _ _ I j h Hj). done. }
  split; try apply I.
  - intros j h (h0 & _ & _ & _ & Hok & _)%Hcase. done.
  - intros j h s (h0 & Hj & _ & _ & _ & ->)%Hcase. by apply (iv_own _ _ _ _ I j).
  - intros j h bn (h0 & Hj & -> & _ & _ & ->)%Hcase. by apply (iv_nb _ _ _ _ I j).
  - intros j h k (h0 & Hj & -> & -> & _ & E)%Hcase Hk Hkn. unfold file_byte. rewrite E. by apply (iv_data _ _ _ _ I j).
Qed.
