(* ===== verification/Mkfsimg.v ===== *)
(** * mkfs.c, the whole image

    The operations of mkfs as operations on a list of files: [ialloc] adds an
    empty file, [iappend] adds bytes to one of them.  With them the theorem
    about [main] ([mkfs_builds]). *)

From stdpp Require Import base numbers list gmap strings.
From S2P Require Import Prelude Kernel Kalloc Umem Console Buf Log Logsafe Inode Dir Mkfs Mkfsok.

(** A file: its type and its bytes. *)
Notation file := (Z * list Z)%type.
Definition f_cost (f : file) : Z := cost (nb_for (Z.of_nat (length (snd f)))).
Fixpoint total (fs : list file) : Z := match fs with [] => 0 | f :: fs' => f_cost f + total fs' end.

(** The inode of a file, without the addresses. *)
Definition f_meta (f : file) : Z * Z * Z * Z * Z := (fst f, 0, 0, 1, Z.of_nat (length (snd f))).

Definition sb_block : block := splice zero_block 0 (sb_bytes fs_sb).

(** An inode that is not in use. *)
Definition di_zero : dinode := mkdi 0 0 0 0 0 (replicate 13 0).

(** The file system with these files, the first of which has inode 1. *)
Record fsys (st : mkst) (fs : list file) : Prop := {
  fy_len : (length fs <= 207)%nat;
  fy_inode : freeinode st = Z.of_nat (length fs) + 1;
  fy_fb : freeblock st = 59 + total fs;
  fy_base : forall b, 0 <= b < 32 -> blk (img st) b = if b =? 1 then sb_block else zero_block;
  fy_unused : forall inum, 0 <= inum < 208 -> inum = 0 \/ freeinode st <= inum -> inode_at (img st) inum = di_zero;
  fy_files : exists gs own, inv (img st) (freeblock st) gs own /\
    Forall2 (fun g f => good g /\ g_data g = snd f /\ meta (g_di g) = f_meta f) gs fs /\
    forall i g, gs !! i = Some g -> inode_at (img st) (inum_of i) = g_di g;
}.

Lemma cost_0 : cost (nb_for 0) = 0.
Proof. done. Qed.
Lemma f_cost_nonneg f : 0 <= f_cost f.
Proof. unfold f_cost. rewrite <- cost_0. apply cost_mono, nb_for_mono. lia. Qed.
Lemma total_app a b : total (a ++ b) = total a + total b.
Proof. induction a as [|f a IH]; cbn [total app]; [done|]. rewrite IH. lia. Qed.
Lemma total_insert fs : forall i f f', fs !! i = Some f -> total (<[i := f']> fs) = total fs - f_cost f + f_cost f'.
Proof.
  induction fs as [|x fs IH]; intros [|i] f f' Hi; cbn in Hi; [done|done| |].
  - injection Hi as ->. cbn [total insert list_insert]. lia.
  - change (f_cost x + total (<[i := f']> fs) = f_cost x + total fs - f_cost f + f_cost f'). rewrite (IH i f f' Hi). lia.
Qed.

Lemma meta_ok d d' : di_ok d -> short_ok (di_type d') -> short_ok (di_major d') -> short_ok (di_minor d') -> short_ok (di_nlink d') ->
  uint_ok (di_size d') -> di_addrs d' = di_addrs d -> di_ok d'.
Proof. intros [_ _ _ _ _ H6 H7] H1 H2 H3 H4 H5 E. split; rewrite ?E; done. Qed.

Lemma iappend_run st fs i f p :
  fsys st fs -> fs !! i = Some f -> Z.of_nat (length (snd f ++ p)) <= 140 * 512 ->
  59 + total (<[i := (fst f, snd f ++ p)]> fs) <= 1000 ->
  exists st', iappend (inum_of i) p st = Some st' /\ fsys st' (<[i := (fst f, snd f ++ p)]> fs).
Proof.
  intros [F1 F2 F3 F4 F5 (gs & own & I & HF & Ht)] Hf Hlen Hfb.
  destruct (Forall2_lookup_r _ _ _ _ _ HF Hf) as (g & Hi & Hg & Hdata & Hmeta).
  assert (0 <= inum_of i < 208) as Hin by (apply lookup_lt_Some in Hf; unfold inum_of; lia).
  rewrite (total_insert _ _ f) in Hfb by done.
  assert (g_len g = Z.of_nat (length (snd f))) as Lg by (unfold g_len; by rewrite Hdata).
  rewrite length_app, Nat2Z.inj_add in Hlen. unfold f_cost in *. cbn [snd] in *. rewrite length_app, Nat2Z.inj_add in *. rewrite <- Lg in *.
  assert (di_size (g_di g) = g_len g) as Esz by (unfold meta, f_meta in Hmeta; rewrite <- Lg in Hmeta; congruence).
  unfold iappend. rewrite rinode_run by (apply I || done). fold (inode_at (img st) (inum_of i)). rewrite (Ht i g Hi). cbn [mbind option_bind].
  rewrite Esz, xint_ok by (unfold uint_ok; unfold g_len in *; lia).
  destruct (append_run (S (length p)) p st gs own i g I Hi Hg ltac:(lia) ltac:(lia)) as (d1 & st1 & -> & [A1 [own1 A2] A3 A4 A5 A6]); [lia|].
  cbn [mbind option_bind]. rewrite xint_ok by (unfold uint_ok; unfold g_len in *; lia).
  set (n := g_len g + Z.of_nat (length p)) in *. set (g1 := mkgi d1 (nb_for n) (g_data g ++ p)) in *. set (gs1 := <[i := g1]> gs) in *.
  pose proof (lookup_lt_Some _ _ _ Hi) as Hlt.
  assert (gs1 !! i = Some g1) as Hi1 by (by apply list_lookup_insert_eq).
  pose proof (iv_di _ _ _ _ A2 i g1 Hi1) as Hd1. cbn [g_di g1] in Hd1.
  assert (di_ok (set_size n d1)) as Hd2.
  { destruct Hd1 as [? ? ? ? ? ? ?]. split; try done. unfold uint_ok, n, g_len in *. cbn. lia. }
  rewrite winode_run by (apply A2 || done). eexists. split; [done|]. unfold set_img. cbn [img freeblock freeinode].
  split; cbn [img freeblock freeinode].
  - by rewrite length_insert.
  - by rewrite length_insert, A1.
  - rewrite A6, (total_insert _ _ f) by done. unfold f_cost. cbn [snd]. rewrite length_app, Nat2Z.inj_add, <- Lg. fold n. lia.
  - intros b Hb. rewrite blk_with_inode by lia. rewrite A5 by lia. by apply F4.
  - intros x Hx Hu. rewrite A1 in Hu. apply lookup_lt_Some in Hf. rewrite inode_at_other; [|apply A2|done|done|unfold inum_of; lia|done].
    unfold inode_at. destruct (iblock_ok x Hx) as (_ & Hb & _). rewrite A5 by lia. by apply F5.
  - exists (<[i := mkgi (set_size n d1) (nb_for n) (g_data g ++ p)]> gs), own1. split; [|split].
    + apply inv_with_inode; [|done|done].
      pose proof (inv_redi _ _ _ _ i g1 (set_size n d1) A2 Hi1 eq_refl Hd2) as I2. unfold gs1 in I2. by rewrite list_insert_insert_eq in I2.
    + apply Forall2_insert; [done|]. cbn [g_data g_di fst snd]. split; [|split; [by rewrite Hdata|]].
      * destruct A3 as [B1 B2]. split; [exact B1|exact B2].
      * unfold meta, f_meta, set_size in *. cbn [di_type di_major di_minor di_nlink di_size fst snd]. rewrite length_app, Nat2Z.inj_add, <- Lg. fold n. congruence.
    + intros j h [(<- & <- & _)|[Hne Hj]]%list_lookup_insert_Some; cbn [g_di].
      * apply inode_at_same; [apply A2|done|done].
      * assert (0 <= inum_of j < 208) as Hjn.
        { apply lookup_lt_Some in Hj. apply Forall2_length in HF. unfold inum_of. lia. }
        rewrite inode_at_other; [|apply A2|done|done|unfold inum_of; lia|done]. rewrite <- (Ht j h Hj). unfold inode_at.
        destruct (iblock_ok _ Hjn) as (_ & Hb & _). by rewrite A5 by lia.
Qed.

Lemma slot_empty im ty s : slot im (mkdi ty 0 0 1 0 (replicate 13 0)) s = 0.
Proof.
  assert (forall k, addr (mkdi ty 0 0 1 0 (replicate 13 0)) k = 0) as Ha by (intros k; apply nth_repeat0).
  unfold slot. rewrite !Ha. by destruct (s =? -1), (s <? NDIRECT).
Qed.

Lemma inv_new im fb gs own ty : short_ok ty -> inv im fb gs own -> inv im fb (gs ++ [mkgi (mkdi ty 0 0 1 0 (replicate 13 0)) 0 []]) own.
Proof.
  intros Hty I. split; try apply I.
  - intros i g [[_ Hi]|[_ <-]]%lookup_snoc_Some; [by apply (iv_di _ _ _ _ I i)|].
    split; cbn; try done; unfold short_ok, uint_ok; try lia. repeat constructor; lia.
  - intros i g s [[_ Hi]|[_ <-]]%lookup_snoc_Some; [by apply (iv_own _ _ _ _ I i)|]. cbn [g_di]. by rewrite slot_empty.
  - intros i g bn [[_ Hi]|[_ <-]]%lookup_snoc_Some Hbn; [by apply (iv_nb _ _ _ _ I i)|]. cbn [g_di g_nb]. rewrite slot_empty. lia.
  - intros i g k [[_ Hi]|[_ <-]]%lookup_snoc_Some Hk Hn; [by apply (iv_data _ _ _ _ I i)|]. pose proof (div_bound k Hk). cbn in Hn. lia.
Qed.

Lemma ialloc_run st fs ty :
  fsys st fs -> (length fs <= 206)%nat -> 0 <= ty < 32768 ->
  exists st', ialloc ty st = Some (Z.of_nat (length fs) + 1, st') /\ fsys st' (fs ++ [(ty, [])]).
Proof.
  intros [F1 F2 F3 F4 F5 (gs & own & I & HF & Ht)] Hlen Hty. unfold ialloc. rewrite F2. rewrite u32_small by lia.
  assert (xshort ty = ty) as -> by (unfold xshort; cbn; unfold u8; Z.div_mod_to_equations; lia).
  change (xshort 1) with 1. change (xint 0) with 0. set (d := mkdi ty 0 0 1 0 (replicate 13 0)).
  assert (short_ok ty) as Hsh by (unfold short_ok; lia). pose proof (inv_new _ _ _ _ ty Hsh I) as I1. fold d in I1.
  pose proof (Forall2_length _ _ _ HF) as Lgs.
  assert ((gs ++ [mkgi d 0 []]) !! length gs = Some (mkgi d 0 [])) as Hnew by (apply lookup_snoc_Some; auto).
  pose proof (iv_di _ _ _ _ I1 _ _ Hnew) as Hd. cbn [g_di] in Hd.
  assert (0 <= Z.of_nat (length fs) + 1 < 208) as Hin by lia.
  rewrite winode_run by (apply I || done). cbn [mbind option_bind]. eexists. split; [done|]. unfold set_img. cbn [img freeblock freeinode].
  split; cbn [img freeblock freeinode].
  - rewrite length_app. cbn. lia.
  - rewrite length_app. cbn. lia.
  - rewrite total_app, F3. change (total [(ty, [])]) with 0. lia.
  - intros b Hb. rewrite blk_with_inode by lia. by apply F4.
  - intros x Hx Hu. rewrite inode_at_other; [apply F5; lia|apply I|done|done|lia|done].
  - exists (gs ++ [mkgi d 0 []]), own. split; [by apply inv_with_inode|]. split.
    + apply Forall2_app; [done|]. constructor; [|done]. split; [|done]. split; [done|]. split; [done|]. cbn. lia.
    + intros j h [[Hj0 Hj]|[-> <-]]%lookup_snoc_Some.
      * rewrite inode_at_other; [by apply Ht|apply I|done|unfold inum_of; lia|unfold inum_of; lia|done].
      * unfold inum_of. rewrite Lgs. apply inode_at_same; [apply I|done|done].
Qed.

Lemma f_cost_mono f f' : (length (snd f) <= length (snd f'))%nat -> f_cost f <= f_cost f'.
Proof. intros H. apply cost_mono, nb_for_mono. lia. Qed.

Lemma append_all_run ps : forall st fs i f,
  fsys st fs -> fs !! i = Some f -> Z.of_nat (length (snd f ++ concat ps)) <= 140 * 512 ->
  59 + total (<[i := (fst f, snd f ++ concat ps)]> fs) <= 1000 ->
  exists st', append_all (inum_of i) ps st = Some st' /\ fsys st' (<[i := (fst f, snd f ++ concat ps)]> fs).
Proof.
  induction ps as [|p ps IH]; intros st fs i f F Hf Hlen Hfb; cbn [append_all concat] in *.
  - rewrite app_nil_r. exists st. split; [done|]. rewrite list_insert_id; [done|]. by rewrite Hf; destruct f.
  - rewrite (app_assoc (snd f) p) in *. rewrite (total_insert _ _ f) in Hfb by done.
    pose proof (f_cost_mono (fst f, snd f ++ p) (fst f, (snd f ++ p) ++ concat ps)) as Hm. cbn [snd] in Hm. rewrite (length_app (snd f ++ p)) in *.
    destruct (iappend_run st fs i f p F Hf) as (st1 & -> & F1); [lia|rewrite (total_insert _ _ f) by done; lia|].
    cbn [mbind option_bind]. pose proof (lookup_lt_Some _ _ _ Hf) as Hlt.
    destruct (IH st1 _ i (fst f, snd f ++ p) F1) as (st2 & E2 & F2); cbn [fst snd].
    + by apply list_lookup_insert_eq.
    + rewrite length_app. lia.
    + rewrite list_insert_insert_eq, (total_insert _ _ f) by done. lia.
    + exists st2. rewrite E2. split; [done|]. cbn [fst snd] in F2. by rewrite list_insert_insert_eq in F2.
Qed.

(** ** The command line *)

(** A file that can be opened: its name and the pieces that are read. *)
Notation arg := (list Z * list (list Z))%type.
Definition host (a : arg) : hostfile := mkhost (fst a) (Some (snd a)).
Definition contents (a : arg) : file := (T_FILE, concat (snd a)).
Fixpoint entries (inum : Z) (args : list arg) : list Z :=
  match args with
  | [] => []
  | a :: args' => entry inum (strip (fst a)) ++ entries (inum + 1) args'
  end.
Definition dots : list Z := entry 1 (bytes_of ".") ++ entry 1 (bytes_of "..").
Definition root_dir (args : list arg) : file := (T_DIR, dots ++ entries 2 args).
Definition all_files (args : list arg) : list file := root_dir args :: (contents <$> args).

(** No slash in the names, no file too long, and room for the inodes and the
    blocks. *)
Record fits (args : list arg) : Prop := {
  ft_names : Forall (fun a => slash ∉ fst a) args;
  ft_sizes : Forall (fun a => Z.of_nat (length (concat (snd a))) <= 140 * 512) args;
  ft_inodes : Z.of_nat (length args) + 2 <= NINODES;
  ft_blocks : 59 + total (all_files args) <= FSSIZE;
}.

Lemma length_strncpy n : forall t, length (strncpy_l t n) = n.
Proof. induction n as [|n IH]; intros t; cbn [strncpy_l]; [done|]. destruct (hd 0 t =? 0); [apply length_replicate|]. cbn. by rewrite IH. Qed.
Lemma length_entry inum name : length (entry inum name) = 16%nat.
Proof. unfold entry, de_bytes. rewrite length_app. cbn [de_name]. by rewrite length_strncpy. Qed.
Lemma length_entries args : forall inum, length (entries inum args) = (16 * length args)%nat.
Proof. induction args as [|a args IH]; intros inum; cbn [entries length]; [done|]. rewrite length_app, length_entry, IH. lia. Qed.

Lemma add_file_run st r fl a :
  fsys st ((T_DIR, r) :: fl) -> slash ∉ fst a -> (length fl <= 205)%nat ->
  let r' := r ++ entry (Z.of_nat (length fl) + 2) (strip (fst a)) in
  Z.of_nat (length r') <= 140 * 512 -> Z.of_nat (length (concat (snd a))) <= 140 * 512 ->
  59 + total ((T_DIR, r') :: fl ++ [contents a]) <= 1000 ->
  exists st', add_file 1 (host a) st = Some st' /\ fsys st' ((T_DIR, r') :: fl ++ [contents a]).
Proof.
  intros F Hs Hl r' Hr Hc Hfb. cbn [total] in Hfb. rewrite total_app in Hfb. cbn [total] in Hfb.
  unfold add_file. cbn [host h_name h_pieces]. rewrite bool_decide_eq_false_2 by done. cbn [mbind option_bind].
  destruct (ialloc_run st _ T_FILE F) as (st1 & -> & F1); [cbn; lia|by cbn|]. cbn [mbind option_bind length].
  replace (Z.of_nat (S (length fl)) + 1) with (Z.of_nat (length fl) + 2) by lia.
  pose proof (f_cost_nonneg (contents a)) as Hca. change (((T_DIR, r) :: fl) ++ [(T_FILE, [])]) with ((T_DIR, r) :: fl ++ [(T_FILE, [])]) in F1.
  destruct (iappend_run st1 _ 0 (T_DIR, r) (entry (Z.of_nat (length fl) + 2) (strip (fst a))) F1) as (st2 & E2 & F2); [done|exact Hr| |].
  { cbn [fst snd insert list_insert total]. rewrite total_app. change (total [(T_FILE, [])]) with 0. fold r'. lia. }
  change (inum_of 0) with 1 in E2. rewrite E2. cbn [mbind option_bind].
  change (<[0%nat := _]> ((T_DIR, r) :: fl ++ [(T_FILE, [])])) with ((T_DIR, r') :: fl ++ [(T_FILE, [])]) in F2.
  assert (((T_DIR, r') :: fl ++ [(T_FILE, [])]) !! S (length fl) = Some (T_FILE, [])) as Hi.
  { cbn. apply lookup_snoc_Some. by right. }
  assert (<[S (length fl) := (T_FILE, [] ++ concat (snd a))]> ((T_DIR, r') :: fl ++ [(T_FILE, [])]) = (T_DIR, r') :: fl ++ [contents a]) as Eins.
  { change (((T_DIR, r') :: <[length fl := (T_FILE, concat (snd a))]> (fl ++ [(T_FILE, [])])) = (T_DIR, r') :: fl ++ [contents a]).
    f_equal. by rewrite insert_app_r_alt, Nat.sub_diag by lia. }
  destruct (append_all_run (snd a) st2 _ (S (length fl)) (T_FILE, []) F2 Hi) as (st3 & E3 & F3); cbn [fst snd]; [done| |].
  { rewrite Eins. cbn [total]. rewrite total_app. cbn [total]. lia. }
  cbn [fst snd] in F3. rewrite Eins in F3. exists st3. split; [|done].
  rewrite <- E3. f_equal. unfold inum_of. lia.
Qed.

Lemma total_nonneg fs : 0 <= total fs.
Proof. induction fs as [|f fs IH]; cbn [total]; [lia|]. pose proof (f_cost_nonneg f). lia. Qed.

Lemma add_files_run args : forall st r fl,
  fsys st ((T_DIR, r) :: fl) -> Forall (fun a => slash ∉ fst a) args ->
  Forall (fun a => Z.of_nat (length (concat (snd a))) <= 140 * 512) args ->
  Z.of_nat (length fl + length args) + 2 <= 208 -> length r = (16 * (length fl + 2))%nat ->
  let final := (T_DIR, r ++ entries (Z.of_nat (length fl) + 2) args) :: fl ++ (contents <$> args) in
  59 + total final <= 1000 ->
  exists st', add_files 1 (host <$> args) st = Some st' /\ fsys st' final.
Proof.
  induction args as [|a args IH]; intros st r fl F Hn Hs Hl Hr; cbn [entries fmap list_fmap add_files].
  - rewrite !app_nil_r. intros _. by exists st.
  - apply Forall_cons in Hn as [Hna Hn]. apply Forall_cons in Hs as [Hsa Hs]. cbn [length] in Hl. rewrite app_assoc.
    change (list_fmap _ _ contents args) with (contents <$> args). change (list_fmap _ _ host args) with (host <$> args).
    replace (fl ++ contents a :: (contents <$> args)) with ((fl ++ [contents a]) ++ (contents <$> args)) by (by rewrite <- app_assoc).
    set (r' := r ++ entry _ _). intros Hfb. cbn [total] in Hfb. rewrite total_app in Hfb.
    assert (length r' = (16 * (length fl + 3))%nat) as Lr by (unfold r'; rewrite length_app, length_entry; lia).
    pose proof (f_cost_mono (T_DIR, r') (T_DIR, r' ++ entries (Z.of_nat (length fl) + 2 + 1) args)) as Hm. cbn [snd] in Hm. rewrite length_app in Hm.
    pose proof (total_nonneg (contents <$> args)) as Hnn.
    destruct (add_file_run st r fl a F Hna ltac:(lia)) as (st1 & -> & F1); [fold r'; lia|done|fold r'; cbn [total]; lia|].
    cbn [mbind option_bind]. fold r' in F1.
    destruct (IH st1 r' (fl ++ [contents a]) F1 Hn Hs) as (st2 & E2 & F2); rewrite ?length_app; cbn [length]; [lia|lia| |].
    + replace (Z.of_nat (length fl + 1) + 2) with (Z.of_nat (length fl) + 2 + 1) by lia. cbn [total]. rewrite total_app. lia.
    + rewrite length_app in F2. cbn [length] in F2. replace (Z.of_nat (length fl + 1) + 2) with (Z.of_nat (length fl) + 2 + 1) in F2 by lia.
      by exists st2.
Qed.

(** ** The empty image *)

Lemma zero_loop n : forall m, (m + n <= 1000)%nat ->
  foldl (fun st i => wsect i zero_block st) (mkmkst (replicate m zero_block) 1 59) (seqZ (Z.of_nat m) (Z.of_nat n)) =
  mkmkst (replicate (m + n) zero_block) 1 59.
Proof.
  induction n as [|n IH]; intros m Hm; [by rewrite Nat.add_0_r|]. rewrite seqZ_cons by lia. cbn [foldl].
  unfold wsect at 2. rewrite sector_ok by (unfold on_disk; lia). unfold set_img. cbn [img freeinode freeblock].
  rewrite length_replicate, Nat2Z.id, Nat.ltb_irrefl, Nat.sub_diag. cbn [replicate app].
  replace (replicate m zero_block ++ [zero_block]) with (replicate (S m) zero_block) by (by rewrite replicate_S_end).
  replace (Z.succ (Z.of_nat m)) with (Z.of_nat (S m)) by lia. replace (Z.pred (Z.of_nat (S n))) with (Z.of_nat n) by lia.
  rewrite IH by lia. f_equal. f_equal. lia.
Qed.
Lemma zeroed_run : zeroed = mkmkst (replicate 1000 zero_block) 1 59.
Proof. apply (zero_loop 1000 0). lia. Qed.

Lemma length_zero_block : length zero_block = 512%nat.
Proof. apply length_replicate. Qed.
Lemma length_sb_block : length sb_block = 512%nat.
Proof. unfold sb_block. rewrite length_splice; [apply length_zero_block|lia|rewrite length_zero_block; cbn; lia]. Qed.

Lemma di_at_zero off : 0 <= off -> di_at zero_block off = di_zero.
Proof.
  intros Ho. unfold di_at. assert (forall k, short_at zero_block k = 0) as Hs.
  { intros k. unfold short_at. pose proof (byte_zero k) as E1. pose proof (byte_zero (k + 1)) as E2. unfold byte in E1, E2. by rewrite E1, E2. }
  rewrite !Hs, word_at_zero by lia. unfold di_zero. f_equal. change (replicate 13 0) with ((fun _ : Z => 0) <$> seqZ 0 (NDIRECT + 1)).
  apply list_fmap_ext. intros k x Hx. apply lookup_seqZ in Hx as [-> Hx]. apply word_at_zero. lia.
Qed.

Lemma start_run : fsys (wsect 1 sb_block zeroed) [].
Proof.
  assert (img_ok (replicate 1000 zero_block)) as Hok.
  { split; [apply length_replicate|]. apply Forall_replicate, length_zero_block. }
  assert (forall b, 0 <= b < 1000 -> blk (replicate 1000 zero_block) b = zero_block) as Hz.
  { intros b Hb. unfold blk. apply nth_lookup_Some, lookup_replicate_2. lia. }
  rewrite zeroed_run, wsect_run by (done || unfold on_disk; lia). unfold set_img. cbn [img freeinode freeblock].
  split; cbn [img freeinode freeblock length total]; try lia.
  - intros b Hb. destruct (Z.eqb_spec b 1) as [->|Hne]; [apply blk_put_eq; [done|unfold on_disk; lia]|].
    rewrite blk_put_ne by lia. apply Hz. lia.
  - intros x Hx _. destruct (iblock_ok x Hx) as (_ & Hb & Ho). unfold inode_at. rewrite blk_put_ne, Hz by lia. apply di_at_zero. lia.
  - exists [], (fun _ => None). split; [|split; [constructor|done]]. split; try done.
    + by apply put_ok; [|apply length_sb_block].
    + intros b Hb. rewrite blk_put_ne by lia. apply Hz. lia.
Qed.

(** ** The bitmap *)

Definition mark (buf : block) (i : Z) : block :=
  <[Z.to_nat (i / 8) := u8 (Z.lor (nth (Z.to_nat (i / 8)) buf 0) (Z.shiftl 1 (i mod 8)))]> buf.

Lemma bit_free_mark buf i b : length buf = 512%nat -> 0 <= i < 4096 -> 0 <= b < 4096 ->
  bit_free (mark buf i) b = if b =? i then false else bit_free buf b.
Proof.
  intros Hl Hi Hb. unfold bit_free, bit_mask, byte_of, mark. assert (0 <= b mod 8 < 8) as Hm by (apply Z.mod_pos_bound; lia).
  assert (0 <= i mod 8 < 8) as Hmi by (apply Z.mod_pos_bound; lia). rewrite !bit_test by lia.
  assert (0 <= i / 8 < 512) as Hd by (Z.div_mod_to_equations; lia). assert (0 <= b / 8 < 512) as Hdb by (Z.div_mod_to_equations; lia).
  destruct (decide (b / 8 = i / 8)) as [E|E].
  - rewrite E. rewrite (nth_lookup (<[_ := _]> buf)), list_lookup_insert_eq by lia. cbn [default from_option id].
    unfold u8, id. change 256 with (2 ^ 8). rewrite Z.mod_pow2_bits_low by lia. rewrite Z.lor_spec, Z.shiftl_1_l.
    destruct (Z.eqb_spec b i) as [->|Hne]; [by rewrite Z.pow2_bits_true, orb_true_r by lia|].
    rewrite Z.pow2_bits_false by (Z.div_mod_to_equations; lia). by rewrite orb_false_r.
  - rewrite (nth_lookup (<[_ := _]> buf)), list_lookup_insert_ne, <- nth_lookup by lia.
    rewrite (proj2 (Z.eqb_neq b i)) by (intros ->; done). done.
Qed.

Lemma marks n : (n <= 4096)%nat ->
  length (foldl mark zero_block (seqZ 0 (Z.of_nat n))) = 512%nat /\
  forall b, 0 <= b < 4096 -> bit_free (foldl mark zero_block (seqZ 0 (Z.of_nat n))) b = (Z.of_nat n <=? b).
Proof.
  induction n as [|n IH]; intros Hn.
  - split; [apply length_zero_block|]. intros b Hb. rewrite (proj2 (Z.leb_le _ _)) by lia. change (bit_free zero_block b = true).
    unfold bit_free. pose proof (byte_zero (b / 8)) as E. unfold byte in E. unfold byte_of. by rewrite E.
  - destruct IH as [L IH]; [lia|].
    replace (seqZ 0 (Z.of_nat (S n))) with (seqZ 0 (Z.of_nat n) ++ [Z.of_nat n]).
    2:{ replace (Z.of_nat (S n)) with (Z.of_nat n + 1) by lia. rewrite seqZ_app by lia. f_equal. }
    rewrite foldl_app. cbn [foldl]. split; [unfold mark at 1; by rewrite length_insert|]. intros b Hb.
    rewrite bit_free_mark by (done || lia). rewrite IH by lia.
    destruct (Z.eqb_spec b (Z.of_nat n)), (Z.leb_spec (Z.of_nat n) b), (Z.leb_spec (Z.of_nat (S n)) b); lia || done.
Qed.

Lemma balloc_run st used : img_ok (img st) -> 0 <= used <= 1000 ->
  balloc used st = Some (set_img (put 58 (foldl mark zero_block (seqZ 0 used))) st).
Proof.
  intros Hok Hu. unfold balloc. change (BSIZE * 8) with 4096. rewrite (proj2 (Z.leb_gt 4096 used)) by lia.
  change (sb_bmapstart fs_sb) with 58. rewrite wsect_run by (done || unfold on_disk; lia). done.
Qed.

(** ** What a kernel finds *)

(** The inode, where the super block says it is. *)
Definition kernel_inode (im : list block) (inum : Z) : dinode := di_at (blk im (IBLOCK inum (sb_of_block (blk im 1)))) (di_off inum).

Definition sb_built : superblock := mksb 1000 941 200 30 2 32 58.
Lemma sb_of_built : sb_of_block sb_block = sb_built.
Proof. vm_compute. reflexivity. Qed.

Lemma kernel_inode_at im inum : blk im 1 = sb_block -> 0 <= inum < 208 -> kernel_inode im inum = inode_at im inum.
Proof.
  intros E Hi. unfold kernel_inode, inode_at. rewrite E, sb_of_built.
  change (IBLOCK inum sb_built) with (IBLOCK inum fs_sb). by rewrite (proj1 (iblock_ok inum Hi)).
Qed.

(** The size mkfs leaves in an inode: that of the root directory is a number
    of whole blocks, at least one more than it fills. *)
Definition final_size (i : nat) (f : file) : Z :=
  let len := Z.of_nat (length (snd f)) in match i with O => (len / 512 + 1) * 512 | _ => len end.

(** File [i], as its inode and its blocks are in the image. *)
Record stored (im : list block) (i : nat) (f : file) : Prop := {
  sd_type : di_type (kernel_inode im (inum_of i)) = fst f;
  sd_ok : di_ok (kernel_inode im (inum_of i));
  sd_nlink : di_nlink (kernel_inode im (inum_of i)) = 1;
  sd_size : di_size (kernel_inode im (inum_of i)) = final_size i f;
  sd_blocks : forall bn, 0 <= bn < 140 -> slot im (kernel_inode im (inum_of i)) bn <> 0 <-> 512 * bn < Z.of_nat (length (snd f));
  sd_bytes : forall k, 0 <= k < 512 * nb_for (Z.of_nat (length (snd f))) -> file_byte im (kernel_inode im (inum_of i)) k = byte (snd f) k;
}.

Lemma nb_for_iff bn len : bn < nb_for len <-> 512 * bn < len.
Proof. unfold nb_for. Z.div_mod_to_equations. lia. Qed.

(** What mkfs knows of the files before the end is what a kernel finds. *)
Lemma stored_intro im fb gs own i g f :
  inv im fb gs own -> blk im 1 = sb_block -> gs !! i = Some g -> (i < 207)%nat -> inode_at im (inum_of i) = g_di g ->
  g_nb g = nb_for (Z.of_nat (length (snd f))) -> g_data g = snd f -> nb_for (Z.of_nat (length (snd f))) <= 140 ->
  meta (g_di g) = (fst f, 0, 0, 1, final_size i f) -> stored im i f.
Proof.
  intros I E1 Hi Hlt Hat Hnb Hdata Hle Hmeta.
  assert (kernel_inode im (inum_of i) = g_di g) as Ek by (rewrite kernel_inode_at; [done|done|unfold inum_of; lia]).
  unfold meta in Hmeta. split; rewrite ?Ek; try congruence.
  - by apply (iv_di _ _ _ _ I i).
  - intros bn Hbn. rewrite (iv_nb _ _ _ _ I i g bn Hi Hbn), Hnb. apply nb_for_iff.
  - intros k Hk. rewrite (iv_data _ _ _ _ I i g k Hi); [by rewrite Hdata|lia|rewrite Hnb; apply Z.div_lt_upper_bound; lia].
Qed.

(** The image with these files, and the blocks up to [fb] in use. *)
Record image (im : list block) (fb : Z) (fs : list file) : Prop := {
  ig_sectors : img_ok im;
  ig_sb : sb_of_block (blk im 1) = sb_built;
  ig_log : forall b, 2 <= b < 32 -> blk im b = zero_block;
  ig_files : forall i f, fs !! i = Some f -> stored im i f;
  ig_unused : forall inum, 0 <= inum < 208 -> inum = 0 \/ Z.of_nat (length fs) < inum -> kernel_inode im inum = di_zero;
  ig_own : exists own : Z -> option (nat * Z), forall i f s, fs !! i = Some f -> is_slot s ->
    slot im (kernel_inode im (inum_of i)) s <> 0 ->
    own (slot im (kernel_inode im (inum_of i)) s) = Some (i, s) /\ 59 <= slot im (kernel_inode im (inum_of i)) s < fb;
  ig_bits : forall b, 0 <= b < 1000 -> bit_free (blk im 58) b = (fb <=? b);
  ig_used : fb = 59 + total fs /\ fb <= 1000;
}.

Lemma image_intro im fb gs own fs :
  inv im fb gs own -> fb = 59 + total fs -> (length fs <= 207)%nat ->
  blk im 1 = sb_block -> (forall b, 2 <= b < 32 -> blk im b = zero_block) -> (forall b, 0 <= b < 1000 -> bit_free (blk im 58) b = (fb <=? b)) ->
  length gs = length fs ->
  (forall i g f, gs !! i = Some g -> fs !! i = Some f -> inode_at im (inum_of i) = g_di g /\ stored im i f) ->
  (forall inum, 0 <= inum < 208 -> inum = 0 \/ Z.of_nat (length fs) < inum -> inode_at im inum = di_zero) ->
  image im fb fs.
Proof.
  intros I Hfb Hlen E1 E2 E3 Hl Hf Hu.
  assert (forall i f, fs !! i = Some f -> exists g, gs !! i = Some g) as Hg.
  { intros i f Hi. apply lookup_lt_is_Some. rewrite Hl. by eapply lookup_lt_Some. }
  split; try done.
  - apply I.
  - by rewrite E1, sb_of_built.
  - intros i f Hi. destruct (Hg i f Hi) as [g Hgi]. by apply (Hf i g f).
  - intros x Hx Hux. rewrite kernel_inode_at by done. by apply Hu.
  - exists own. intros i f s Hi Hs. destruct (Hg i f Hi) as [g Hgi]. destruct (Hf i g f Hgi Hi) as [Hat _].
    rewrite kernel_inode_at; [|done|apply lookup_lt_Some in Hi; unfold inum_of; lia]. rewrite Hat. by apply (iv_own _ _ _ _ I i).
  - split; [done|]. apply (iv_fb _ _ _ _ I).
Qed.

Lemma finish_run st root fl :
  fsys st (root :: fl) -> (length fl < 206)%nat -> Forall (fun f => Z.of_nat (length (snd f)) <= 140 * 512) (root :: fl) ->
  exists st', (st1 ← fix_root 1 st; balloc (freeblock st1) st1) = Some st' /\ freeblock st' = freeblock st /\
    image (img st') (freeblock st') (root :: fl).
Proof.
  intros [F1 F2 F3 F4 F5 (gs & own & I & HF & Ht)] Hlen Hsz. pose proof (Forall2_length _ _ _ HF) as Lgs.
  inversion HF as [|g0 ? gs' ? (Hg0 & Hd0 & Hm0) _]; subst. change (inum_of 0) with 1 in *.
  pose proof (Ht 0%nat g0 eq_refl) as Hat0. change (inum_of 0) with 1 in Hat0. set (len := Z.of_nat (length (snd root))) in *.
  assert (0 <= len <= 140 * 512) as Hlenr by (apply Forall_cons in Hsz as [H _]; unfold len; lia).
  pose proof (iv_di _ _ _ _ I 0%nat g0 eq_refl) as Hok0. unfold f_meta, meta in Hm0. fold len in Hm0.
  set (sz := (len / 512 + 1) * 512). assert (0 <= sz <= 140 * 512 + 512) as Hszr by (unfold sz; Z.div_mod_to_equations; lia).
  assert (di_ok (set_size sz (g_di g0))) as Hok1.
  { destruct Hok0 as [? ? ? ? ? ? ?]. split; try done. unfold uint_ok. cbn. lia. }
  unfold fix_root. rewrite rinode_run by (apply I || lia). cbn [mbind option_bind]. fold (inode_at (img st) 1). rewrite Hat0.
  change BSIZE with 512. assert (di_size (g_di g0) = len) as -> by congruence.
  rewrite (xint_ok len), u32_small by (unfold uint_ok; Z.div_mod_to_equations; lia). fold sz. rewrite (xint_ok sz) by (unfold uint_ok; lia).
  rewrite winode_run by (apply I || lia). cbn [mbind option_bind]. unfold set_img at 1 2. cbn [img freeblock freeinode].
  pose proof (inv_redi _ _ _ _ 0 g0 (set_size sz (g_di g0)) I eq_refl eq_refl Hok1) as I1. cbn [insert list_insert] in I1.
  apply (inv_with_inode _ _ _ _ 1 (set_size sz (g_di g0))) in I1; [|lia|done]. set (im1 := with_inode 1 _ _) in *.
  pose proof (iv_fb _ _ _ _ I) as Hr. rewrite balloc_run by (cbn [img]; apply I1 || lia). eexists. split; [done|]. unfold set_img. cbn [img freeblock].
  split; [done|]. destruct (marks (Z.to_nat (freeblock st)) ltac:(lia)) as [Lb Hbits]. rewrite Z2Nat.id in Lb, Hbits by lia.
  set (bm := foldl mark zero_block _) in *. pose proof (inv_put _ _ _ _ 58 bm I1 ltac:(lia) Lb) as I2. set (im2 := put 58 bm im1) in *.
  assert (forall b, 0 <= b < 32 -> blk im2 b = if b =? 1 then sb_block else zero_block) as Hbase.
  { intros b Hb. unfold im2, im1. rewrite blk_put_ne, blk_with_inode by lia. by apply F4. }
  eapply (image_intro _ _ _ _ _ I2); try done.
  - by rewrite (Hbase 1).
  - intros b Hb. rewrite Hbase by lia. by rewrite (proj2 (Z.eqb_neq b 1)) by lia.
  - intros b Hb. unfold im2. rewrite blk_put_eq by (apply I1 || unfold on_disk; lia). apply Hbits. lia.
  - intros i g f Hi Hf. pose proof (lookup_lt_Some _ _ _ Hf) as Hil. cbn [length] in Hil.
    assert (0 <= inum_of i < 208) as Hin by (unfold inum_of; lia). destruct (iblock_ok _ Hin) as (_ & Hib & _).
    assert (inode_at im2 (inum_of i) = g_di g /\ g_nb g = nb_for (Z.of_nat (length (snd f))) /\ g_data g = snd f /\
      meta (g_di g) = (fst f, 0, 0, 1, final_size i f)) as (Hat & Hnb & Hdt & Hmt).
    { assert (inode_at im2 (inum_of i) = inode_at im1 (inum_of i)) as -> by (unfold inode_at, im2; by rewrite blk_put_ne by lia).
      destruct i as [|i].
      - injection Hi as <-. injection Hf as <-. cbn [g_di g_nb g_data]. split; [apply inode_at_same; [apply I|lia|done]|].
        split; [rewrite (gd_nb _ Hg0); unfold g_len; by rewrite Hd0|]. split; [done|].
        unfold meta, final_size, set_size. cbn [di_type di_major di_minor di_nlink di_size]. fold len. fold sz. congruence.
      - destruct (Forall2_lookup_lr _ _ _ (S i) _ _ HF Hi Hf) as (Hg & Hd & Hm). pose proof (Ht (S i) g Hi) as Hat.
        unfold im1. rewrite inode_at_other by (apply I || done || unfold inum_of; lia). split; [done|].
        split; [rewrite (gd_nb _ Hg); unfold g_len; by rewrite Hd|]. done. }
    split; [done|]. eapply (stored_intro _ _ _ _ _ g f I2); try done; [by apply Hbase|lia|].
    apply (Forall_lookup_1 _ _ _ _ Hsz) in Hf. unfold nb_for. Z.div_mod_to_equations. lia.
  - intros x Hx Hux. cbn [length] in Hux, F2. destruct (iblock_ok x Hx) as (_ & Hib & _).
    assert (inode_at im2 x = inode_at im1 x) as -> by (unfold inode_at, im2; by rewrite blk_put_ne by lia).
    unfold im1. rewrite inode_at_other by (apply I || done || lia). apply F5; [done|]. lia.
Qed.

Lemma all_sizes args : fits args -> Forall (fun f => Z.of_nat (length (snd f)) <= 140 * 512) (all_files args).
Proof.
  intros [_ Hs Hn _]. constructor.
  - unfold root_dir. cbn [snd]. unfold dots. rewrite !length_app, !length_entry, length_entries. unfold NINODES in Hn. lia.
  - apply Forall_fmap. eapply Forall_impl; [exact Hs|]. done.
Qed.

(** The whole run of [main]. *)
Lemma mkfs_image args :
  fits args -> exists st, main (host <$> args) = Some st /\ image (img st) (freeblock st) (all_files args).
Proof.
  intros Hfits. pose proof (all_sizes args Hfits) as Hsz. destruct Hfits as [Hn Hs Hi Hb]. unfold NINODES, FSSIZE in Hi, Hb.
  unfold all_files, root_dir in Hb. cbn [total] in Hb. pose proof (total_nonneg (contents <$> args)) as Hnn.
  assert (forall p q, (length p + q = length (dots ++ entries 2 args))%nat -> f_cost (T_DIR, p) <= f_cost (T_DIR, dots ++ entries 2 args)) as Hm.
  { intros p q E. apply f_cost_mono. cbn [snd]. lia. }
  assert (length (dots ++ entries 2 args) = (32 + 16 * length args)%nat) as Ld.
  { unfold dots. rewrite !length_app, !length_entry, length_entries. lia. }
  unfold main. fold sb_block. destruct (ialloc_run _ [] T_DIR start_run) as (st1 & -> & F1); [cbn; lia|by cbn|].
  cbn [mbind option_bind length app] in F1 |- *. change (Z.of_nat 0 + 1) with 1. change (negb (1 =? ROOTINO)) with false. cbv iota.
  destruct (iappend_run st1 _ 0 (T_DIR, []) (entry 1 (bytes_of ".")) F1) as (st2 & E2 & F2); [done|by rewrite length_app, length_entry; cbn| |].
  { cbn [fst snd insert list_insert total app]. specialize (Hm (entry 1 (bytes_of ".")) (16 + 16 * length args)%nat). rewrite length_entry in Hm. lia. }
  change (inum_of 0) with 1 in *. rewrite E2. cbn [mbind option_bind fst snd insert list_insert app] in F2 |- *.
  destruct (iappend_run st2 _ 0 (T_DIR, entry 1 (bytes_of ".")) (entry 1 (bytes_of "..")) F2) as (st3 & E3 & F3);
    [done|cbn [snd]; by rewrite length_app, !length_entry| |].
  { cbn [fst snd insert list_insert total]. fold dots. specialize (Hm dots (16 * length args)%nat). unfold dots in Hm at 1. rewrite length_app, !length_entry in Hm. lia. }
  change (inum_of 0) with 1 in *. rewrite E3. cbn [mbind option_bind fst snd insert list_insert] in F3 |- *. fold dots in F3.
  destruct (add_files_run args st3 dots [] F3 Hn Hs) as (st4 & E4 & F4); cbn [length]; [lia|done|change (Z.of_nat 0 + 2) with 2; cbn [app total]; lia|].
  rewrite E4. cbn [mbind option_bind]. cbn [length app] in F4. change (Z.of_nat 0 + 2) with 2 in F4.
  destruct (finish_run st4 _ _ F4) as (st5 & E5 & _ & Him); [rewrite length_fmap; lia|exact Hsz|]. exists st5. split; [exact E5|exact Him].
Qed.

(** C22: mkfs.c: for files that fit, mkfs succeeds, and the image is what the
    kernel expects: the super block of block 1 gives the layout, the log is
    empty, inodes that are not used are zero, inode 1 is the root directory with an entry for every file, each
    file has an inode with its size and one link, and reading it block by
    block through its addresses and its indirect block gives its bytes; no
    block is used twice or is one of the first 59, and the bitmap marks
    exactly the blocks that are used. *)
Theorem mkfs_builds args :
  fits args -> exists st, main (host <$> args) = Some st /\ image (img st) (freeblock st) (all_files args).
Proof. apply mkfs_image. Qed.

(** The root directory with thirty files: its 32 entries fill one block, the
    size in its inode is two, and the second has no address. *)
Lemma root_hole args im fb :
  image im fb (all_files args) -> length args = 30%nat ->
  di_size (kernel_inode im 1) = 1024 /\ slot im (kernel_inode im 1) 1 = 0.
Proof.
  intros Him Hn. assert (length (dots ++ entries 2 args) = 512%nat) as L.
  { unfold dots. rewrite !length_app, !length_entry, length_entries, Hn. done. }
  destruct (ig_files _ _ _ Him 0%nat _ eq_refl) as [_ _ _ Hs Hb _]. change (inum_of 0) with 1 in *. unfold root_dir in *. cbn [snd final_size] in *.
  rewrite L in Hs, Hb. split; [done|]. destruct (decide (slot im (kernel_inode im 1) 1 = 0)) as [E|E]; [done|]. apply Hb in E; lia.
Qed.

(** One file, _cat, of seven bytes read in two pieces. *)
Definition args_example : list arg := [(bytes_of "_cat", [bytes_of "hello"; bytes_of "!!"])].
Lemma args_example_fits : fits args_example.
Proof.
  split.
  - constructor; [|constructor]. apply (bool_decide_unpack (slash ∉ bytes_of "_cat")). vm_compute. exact I.
  - repeat constructor. cbn. lia.
  - vm_compute. discriminate.
  - vm_compute. discriminate.
Qed.
Lemma mkfs_builds_witness :
  exists st, main (host <$> args_example) = Some st /\
    image (img st) (freeblock st) [(T_DIR, dots ++ entry 2 (bytes_of "cat") ++ []); (T_FILE, bytes_of "hello!!")].
Proof. apply (mkfs_builds args_example), args_example_fits. Defined.
