(* ===== verification/Fsimage.v ===== *)
(** * From mkfs to the kernel

    The kernel's readers (Fsread.v) on the image that mkfs builds
    (Mkfsimg.v): an inode the kernel loads from the image gives the file's
    bytes, the root directory its names, and opening a file by its path and
    reading it gives what mkfs was given. *)

From stdpp Require Import base numbers list gmap strings.
From S2P Require Import Prelude Kernel Spinlock Sched Sleeplock Kalloc Console Umem Str Mkfs Mkfsok Mkfsimg.
From S2P Require Import Buf Memide Ring Bio Bcache Log Logsafe Crash Inode Consdev Dir Fsread.

(** ** The image on the disk *)

(** The disk on which the image was put. *)
Definition disk_of (im : list block) : gmap (Z * Z) block := list_to_map (imap (fun k b => ((1, Z.of_nat k), b)) im).

Lemma imap_keys (im : list block) : NoDup (fst <$> imap (fun k b => ((1, Z.of_nat k), b)) im).
Proof.
  apply NoDup_alt. intros i j x. rewrite !list_lookup_fmap, !list_lookup_imap.
  destruct (im !! i), (im !! j); cbn; try done. intros [= <-] [= E]. lia.
Qed.

Lemma block_of_disk im b : img_ok im -> 0 <= b < 1000 -> block_of (disk_of im) 1 b = blk im b.
Proof.
  intros Hok Hb. unfold block_of, disk_of. rewrite (proj1 (elem_of_list_to_map _ _ (blk im b) (imap_keys im))); [done|].
  apply list_elem_of_lookup. exists (Z.to_nat b). rewrite list_lookup_imap, (blk_lookup im b Hok Hb). cbn. by rewrite Z2Nat.id by lia.
Qed.

Lemma length_block_of_disk im b : img_ok im -> length (block_of (disk_of im) 1 b) = Z.to_nat BSIZE.
Proof.
  intros Hok. unfold block_of. destruct (disk_of im !! (1, b)) as [d|] eqn:E; [|done]. cbn.
  apply elem_of_list_to_map_2, list_elem_of_lookup in E as [k Hk]. rewrite list_lookup_imap in Hk.
  destruct (im !! k) as [x|] eqn:Hx; [|done]. injection Hk as _ <-. apply (Forall_lookup_1 _ _ _ _ (im_blocks _ Hok) Hx).
Qed.

(** ** The names in the root directory *)

Definition arg_name (a : arg) : list Z := strip (fst a).

Lemma entries_at args : forall n j a, args !! j = Some a ->
  slice (entries n args) (16 * Z.of_nat j) 16 = entry (n + Z.of_nat j) (arg_name a).
Proof.
  induction args as [|b args IH]; intros n [|j] a Hj; cbn in Hj; [done|done| |]; cbn [entries]; unfold slice.
  - injection Hj as ->. replace (Z.to_nat (16 * Z.of_nat 0)) with 0%nat by lia. rewrite drop_0, take_app_length' by (by rewrite length_entry). by rewrite Z.add_0_r.
  - rewrite drop_app_ge by (rewrite length_entry; lia). rewrite length_entry. specialize (IH (n + 1) j a Hj). unfold slice in IH.
    replace (Z.to_nat (16 * Z.of_nat (S j)) - 16)%nat with (Z.to_nat (16 * Z.of_nat j)) by lia. rewrite IH. f_equal. lia.
Qed.

(** Entry [k]: the two of the directory itself, then the files'. *)
Lemma root_at args k a : args !! k = Some a ->
  slice (dots ++ entries 2 args) (16 * Z.of_nat (k + 2)) 16 = entry (Z.of_nat k + 2) (arg_name a).
Proof.
  intros Hk. unfold slice. rewrite drop_app_ge; unfold dots; rewrite length_app, !length_entry; [|lia].
  rewrite <- (Z.add_comm 2). rewrite <- (entries_at args 2 k a Hk). unfold slice. do 2 f_equal. lia.
Qed.
Lemma root_at_dot args k : (k < 2)%nat ->
  slice (dots ++ entries 2 args) (16 * Z.of_nat k) 16 = entry 1 (if decide (k = 0%nat) then bytes_of "." else bytes_of "..").
Proof. intros Hk. destruct k as [|[|k]]; [done|done|lia]. Qed.

Lemma de_of_entry inum nm : 0 <= inum < 65536 -> de_of (entry inum nm) = mkde inum (strncpy_l nm DIRSIZ).
Proof.
  intros Hi. assert (xshort inum = inum) as E by (unfold xshort, u8; cbn [nth]; Z.div_mod_to_equations; lia).
  unfold de_of, entry, de_bytes, bytes16. rewrite E. cbn [de_inum de_name nth app drop]. f_equal; [Z.div_mod_to_equations; lia|].
  apply take_ge. by rewrite length_strncpy.
Qed.

Lemma names_entry e inum nm : 0 < inum < 65536 ->
  names e (de_of (entry inum nm)) = bool_decide (strncpy_l e DIRSIZ = strncpy_l nm DIRSIZ).
Proof.
  intros Hi. rewrite de_of_entry by lia. unfold names, namecmp. cbn [de_inum de_name]. rewrite (proj2 (Z.eqb_neq inum 0)) by lia. cbn [negb andb].
  pose proof (strncmp_padded DIRSIZ e (strncpy_l nm DIRSIZ)) as H. rewrite strncpy_strncpy in H.
  case_bool_decide as E; [apply Z.eqb_eq; tauto|apply Z.eqb_neq; tauto].
Qed.

(** The file [a], number [j], is the first with its name, of which the
    directory keeps DIRSIZ bytes. *)
Record named (args : list arg) (j : nat) (a : arg) : Prop := {
  na_arg : args !! j = Some a;
  na_some : arg_name a <> [];
  na_dot : strncpy_l (arg_name a) DIRSIZ <> strncpy_l (bytes_of ".") DIRSIZ;
  na_dots : strncpy_l (arg_name a) DIRSIZ <> strncpy_l (bytes_of "..") DIRSIZ;
  na_first : forall k b, (k < j)%nat -> args !! k = Some b -> strncpy_l (arg_name a) DIRSIZ <> strncpy_l (arg_name b) DIRSIZ;
}.

Lemma strip_slash nm : slash ∉ nm -> slash ∉ strip nm.
Proof. intros H. unfold strip. destruct nm as [|x nm]; [done|]. repeat (case_match; try done). all: apply not_elem_of_cons in H; tauto. Qed.

Section Fsimage.
Context {DR : Driver} (me : nat) (mp : proc) {may : Prop} {SD : SyncDisk 1000 may}.

Notation quiet := (quiet me mp 1000).
Notation stopped := (@stopped may).

(** The kernel after it has started on that disk: the super block is read,
    and no inode is in memory. *)
Record started (im : list block) (s : kst) : Prop := {
  sr_disk : disk s = disk_of im;
  sr_sb : sb s = sb_of_block (blk im 1);
  sr_icache : icache s = replicate NINODE inode_zero;
  sr_slocks : forall i, slocks s !! SLinode i = None;
}.

(** ** Files *)

(** An entry as [iget] leaves it, with [n] references. *)
Definition fresh (inum n : Z) : inode := mkinode 1 inum n 0 0 0 0 0 0 (replicate 13 0).
(** The inode numbered [inum], loaded into an entry that [iget] filled. *)
Definition in_memory (im : list block) (inum n : Z) : inode :=
  load_di (kernel_inode im inum) (mkinode 1 inum n I_VALID 0 0 0 0 0 (replicate 13 0)).

Lemma loaded_inode im fb fs inum n s :
  image im fb fs -> started im s -> 0 <= inum < 208 ->
  loaded (Bcache.contents ∅ s) (sb s) (fresh inum n) = in_memory im inum n.
Proof using.
  intros Him Hs Hi. unfold loaded, in_memory. cbn [i_inum fresh]. unfold Bcache.contents. rewrite lookup_empty. cbn [default].
  rewrite (sr_disk _ _ Hs), (sr_sb _ _ Hs), (ig_sb _ _ _ Him). change (IBLOCK inum sb_built) with (IBLOCK inum fs_sb).
  destruct (iblock_ok inum Hi) as (E & Hb & _). rewrite block_of_disk by (apply Him || lia). unfold kernel_inode. rewrite (ig_sb _ _ _ Him). done.
Qed.

Lemma contents_image im s b : img_ok im -> started im s -> 0 <= b < 1000 -> Bcache.contents ∅ s b = blk im b.
Proof using. intros Hok Hs Hb. unfold Bcache.contents. rewrite lookup_empty. cbn. rewrite (sr_disk _ _ Hs). by apply block_of_disk. Qed.

Section File.
Context (im : list block) (fb : Z) (fs : list file) (s : kst) (i : nat) (f : file) (n : Z).
Hypotheses (Him : image im fb fs) (Hs : started im s) (Hi : fs !! i = Some f).

Let D := Bcache.contents ∅ s.
Let ip := in_memory im (inum_of i) n.
Let len := Z.of_nat (length (snd f)).

Lemma slot_range b : is_slot b -> slot im (kernel_inode im (inum_of i)) b <> 0 -> 59 <= slot im (kernel_inode im (inum_of i)) b < 1000.
Proof using Him Hi.
  intros Hb Hn. destruct (ig_own _ _ _ Him) as [own Ho]. destruct (Ho i f b Hi Hb Hn) as [_ Hr]. pose proof (ig_used _ _ _ Him). lia.
Qed.

(** A block of the file is where the kernel looks. *)
Lemma file_mapped bn : 0 <= bn < 140 -> 512 * bn < len -> mapped 1000 D ip bn /\ fslot D ip bn = slot im (kernel_inode im (inum_of i)) bn.
Proof using Him Hs Hi.
  intros Hbn Hlt. pose proof (proj2 (sd_blocks _ _ _ (ig_files _ _ _ Him i f Hi) bn Hbn) Hlt) as Hn.
  pose proof (slot_range bn ltac:(unfold is_slot; lia) Hn) as Hr. set (d := kernel_inode im (inum_of i)) in *.
  assert (forall k, addr_at ip k = Mkfs.addr d k) as Ha by done. unfold mapped, fslot. rewrite !Ha. unfold slot in Hn, Hr |- *.
  rewrite (proj2 (Z.eqb_neq bn (-1))) in Hn, Hr |- * by lia. destruct (Z.ltb_spec bn NDIRECT) as [H|H].
  { unfold NDIRECT in *. split_and!; [lia..|done]. }
  destruct (Z.eqb_spec (Mkfs.addr d NDIRECT) 0) as [E|E]; [done|].
  assert (59 <= Mkfs.addr d NDIRECT < 1000) as Hd by (apply (slot_range (-1)); [unfold is_slot; lia|done]).
  unfold D. rewrite (contents_image im s) by (apply Him || done || lia). split_and!; lia || done.
Qed.

Lemma file_bytes off m : 0 <= off -> 0 <= m -> off + m <= len -> len <= 140 * 512 -> fbytes D ip off m = slice (snd f) off m.
Proof using Him Hs Hi.
  intros Ho Hm Hl Hmax. unfold fbytes, slice. apply list_eq. intros k. rewrite list_lookup_fmap, lookup_take, lookup_drop.
  case_decide as Hk; [|by rewrite lookup_seqZ_ge by lia]. rewrite lookup_seqZ_lt by lia. cbn. set (x := off + Z.of_nat k).
  assert (0 <= x / 512 < 140 /\ 512 * (x / 512) < len) as [Hq Hq2] by (unfold x; Z.div_mod_to_equations; lia).
  destruct (file_mapped (x / 512) Hq Hq2) as [[Hr _] E]. unfold fbyte, BSIZE. rewrite E in Hr |- *.
  unfold D. rewrite (contents_image im s) by (apply Him || done || lia).
  pose proof (sd_bytes _ _ _ (ig_files _ _ _ Him i f Hi) x) as Hb. unfold file_byte, byte, nb_for in Hb. fold len in Hb.
  rewrite Hb by (unfold x in *; Z.div_mod_to_equations; lia).
  destruct (lookup_lt_is_Some_2 (snd f) (Z.to_nat off + k)) as [y Hy]; [unfold len in *; lia|].
  rewrite Hy. f_equal. apply nth_lookup_Some. rewrite <- Hy. f_equal. unfold x. lia.
Qed.
End File.

(** ** Opening and reading a file *)

Lemma iget_first im s inum : started im s -> iget_to (icache s) 1 inum = Some (0%nat, fresh inum 1 :: replicate 49 inode_zero).
Proof using. intros Hs. rewrite (sr_icache _ _ Hs). reflexivity. Qed.

Lemma iget_second r inum :
  i_dev r = 1 -> i_inum r = 1 -> i_ref r = 1 -> inum <> 1 ->
  iget_to (r :: replicate 49 inode_zero) 1 inum = Some (1%nat, r :: fresh inum 1 :: replicate 48 inode_zero).
Proof using.
  intros H1 H2 H3 Hne. unfold iget_to. cbn [find_idx]. rewrite H1, H2, H3, (proj2 (Z.eqb_neq 1 inum)) by done. reflexivity.
Qed.

(** The root directory in memory. *)
Lemma root_directory im fb args s :
  image im fb (all_files args) -> started im s -> (length args <= 198)%nat ->
  let dir := in_memory im 1 1 in
  directory 1000 (Bcache.contents ∅ s) dir (length args + 2) /\
  forall k, (k < length args + 2)%nat ->
    dirent_at (Bcache.contents ∅ s) dir k = de_of (slice (dots ++ entries 2 args) (16 * Z.of_nat k) 16).
Proof using.
  intros Him Hs Hlen dir. assert (Z.of_nat (length (snd (root_dir args))) = 16 * (Z.of_nat (length args) + 2)) as Hl.
  { cbn [root_dir snd]. unfold dots. rewrite !length_app, !length_entry, length_entries. lia. }
  pose proof (ig_files _ _ _ Him 0%nat _ eq_refl) as Hsd. split.
  - split; [done|apply Hsd| |].
    + change (i_size dir) with (di_size (kernel_inode im (inum_of 0))). rewrite (sd_size _ _ _ Hsd). unfold final_size. rewrite Hl.
      change (MAXFILE * BSIZE) with 71680. Z.div_mod_to_equations. lia.
    + intros bn Hbn Hlt. unfold BSIZE in Hlt. apply (file_mapped im fb (all_files args) s 0 (root_dir args) 1 Him Hs eq_refl); rewrite ?Hl; lia.
  - intros k Hk. unfold dirent_at. f_equal. apply (file_bytes im fb (all_files args) s 0 (root_dir args) 1 Him Hs eq_refl); rewrite ?Hl; lia.
Qed.

(** The entries before that of the file do not have its name. *)
Lemma root_names im fb args s j a :
  image im fb (all_files args) -> started im s -> (length args <= 198)%nat -> named args j a ->
  let de k := dirent_at (Bcache.contents ∅ s) (in_memory im 1 1) k in
  (forall k, (k < j + 2)%nat -> names (arg_name a) (de k) = false) /\ names (arg_name a) (de (j + 2)%nat) = true /\
  de_inum (de (j + 2)%nat) = inum_of (j + 1).
Proof using.
  intros Him Hs Hlen [Ha _ Hd Hdd Hf] de. destruct (root_directory im fb args s Him Hs Hlen) as [_ Hde].
  pose proof (lookup_lt_Some _ _ _ Ha) as Hj. unfold de. split_and!.
  - intros k Hk. rewrite Hde by lia. destruct (decide (k < 2)%nat) as [H2|H2].
    + rewrite root_at_dot, names_entry by lia. apply bool_decide_eq_false. by case_decide.
    + destruct (lookup_lt_is_Some_2 args (k - 2)) as [b Hb]; [lia|]. replace k with (k - 2 + 2)%nat by lia.
      rewrite (root_at args _ b Hb), names_entry by lia. apply bool_decide_eq_false, (Hf (k - 2)%nat b); [lia|done].
  - rewrite Hde, (root_at args j a Ha), names_entry by lia. by apply bool_decide_eq_true.
  - rewrite Hde, (root_at args j a Ha), de_of_entry by lia. unfold inum_of. cbn. lia.
Qed.

(** The calls with which the kernel opens a file and reads it from the start. *)
Definition read_path (path : list Z) (n : Z) : M (Z * list Z) :=
  let! p := namei path in
  ilock p ;;
  let! i := deref p in
  readi i to_local 0 n.

Lemma readi_file im fb args s i f s' n env :
  image im fb (all_files args) -> started im s -> all_files args !! S i = Some f -> Z.of_nat (length (snd f)) <= 140 * 512 ->
  fst f <> T_DEV -> quiet ∅ s' -> disk s' = disk s -> icache s' !! 1%nat = Some (in_memory im (inum_of (S i)) 1) -> 0 <= n < 4294967296 ->
  rc (stopped s') env (readi 1 to_local 0 n env s')
    (fun r s2 => r = (Z.min n (Z.of_nat (length (snd f))), take (Z.to_nat n) (snd f)) /\ disk s2 = disk s').
Proof using SD.
  intros Him Hs Hi Hl Ht HQ Hd Hc Hn. pose proof (ig_files _ _ _ Him _ _ Hi) as Hsd. set (ip := in_memory im (inum_of (S i)) 1) in *.
  assert (i_size ip = Z.of_nat (length (snd f))) as Hsz by (apply (sd_size _ _ _ Hsd)).
  assert (Bcache.contents ∅ s' = Bcache.contents ∅ s) as Ec by by apply contents_same.
  eapply rc_mono; [apply (readi_reads me mp 1000 ∅ s' 1 ip 0 n env HQ Hc); rewrite ?Hsz, ?Ec; try done|done|].
  - change (i_type ip) with (di_type (kernel_inode im (inum_of (S i)))). by rewrite (sd_type _ _ _ Hsd).
  - lia.
  - lia.
  - lia.
  - lia.
  - change (MAXFILE * BSIZE) with 71680. lia.
  - intros bn Hbn Hlt. unfold BSIZE in *. apply (file_mapped im fb (all_files args) s (S i) f 1 Him Hs Hi); [|lia]. rewrite Z.div_0_l in Hbn; lia.
  - intros r s2 (-> & _ & E). rewrite Hsz, Ec, Z.sub_0_r. split; [|apply E]. f_equal.
    rewrite (file_bytes im fb (all_files args) s (S i) f 1 Him Hs Hi) by lia. unfold slice. cbn [Z.to_nat]. rewrite drop_0.
    destruct (Z.min_spec n (Z.of_nat (length (snd f)))) as [[H ->]|[H ->]]; [done|]. by rewrite !take_ge by lia.
Qed.

Lemma inode_block im fb fs s inum : image im fb fs -> started im s -> 0 <= inum < 208 -> 0 <= IBLOCK inum (sb s) < 1000.
Proof using.
  intros Him Hs Hi. rewrite (sr_sb _ _ Hs), (ig_sb _ _ _ Him). change (IBLOCK inum sb_built) with (IBLOCK inum fs_sb).
  destruct (iblock_ok inum Hi) as (-> & ? & _). lia.
Qed.

Lemma namei_file im fb args s j a env :
  image im fb (all_files args) -> started im s -> (length args <= 198)%nat -> named args j a -> slash ∉ arg_name a -> quiet ∅ s ->
  rc (stopped s) env (namei (slash :: arg_name a) env s)
    (fun x s' => x = Some 1%nat /\ quiet ∅ s' /\
      same (set_icache (set_i_ref 0 (in_memory im 1 1) :: fresh (inum_of (S j)) 1 :: replicate 48 inode_zero) s) s').
Proof using SD.
  intros Him Hs Hle Hna Hsl HQ. pose proof (lookup_lt_Some _ _ _ (na_arg _ _ _ Hna)) as Hj.
  destruct (root_directory im _ args s Him Hs Hle) as [Hdir _]. destruct (root_names im _ args s j a Him Hs Hle Hna) as (Hno & Hyes & Hinum).
  assert (fetched (Bcache.contents ∅ s) (sb s) (fresh 1 1) = in_memory im 1 1) as Hld by (by apply (loaded_inode im _ _ 1 1 s Him Hs)).
  pose proof (namei_child me mp 1000 ∅ s (arg_name a) 0 _ (fresh 1 1) (length args + 2) (j + 2) 1
    (in_memory im 1 1 :: fresh (inum_of (S j)) 1 :: replicate 48 inode_zero) env HQ (na_some _ _ _ Hna) Hsl (iget_first im s 1 Hs) eq_refl
    (sr_slocks _ _ Hs 0%nat) (inode_block _ _ _ _ 1 Him Hs ltac:(lia))) as H. cbv zeta in H. rewrite Hld in H.
  apply H; [done| |lia|done|done|].
  - change (i_nlink (in_memory im 1 1)) with (di_nlink (kernel_inode im (inum_of 0))). by rewrite (sd_nlink _ _ _ (ig_files _ _ _ Him 0%nat _ eq_refl)).
  - rewrite Hinum, Nat.add_1_r. cbn [insert list_insert]. apply iget_second; try done. unfold inum_of. lia.
Qed.

(** C23: fs.c, mkfs.c: mkfs and the kernel agree on the disk: on the image
    that mkfs builds, looking a file up by its path and reading it through
    the buffer cache gives the bytes mkfs was given, for every file that is
    the first with its name; the disk stays as it is.  This holds for any
    driver that serves its requests, and if the power may fail the disk is
    the same when it does. *)
Theorem mkfs_then_read args :
  fits args -> exists st, Mkfs.main (host <$> args) = Some st /\
  forall s j a n env, quiet ∅ s -> started (img st) s -> named args j a -> 0 <= n < 4294967296 ->
    let file := concat (snd a) in
    rc (stopped s) env (read_path (slash :: arg_name a) n env s)
      (fun r s' => r = (Z.min n (Z.of_nat (length file)), take (Z.to_nat n) file) /\ disk s' = disk s).
Proof using SD.
  intros Hfits. destruct (mkfs_image args Hfits) as (st & E & Him). exists st. split; [done|]. set (im := img st) in *.
  intros s j a n env HQ Hs Hna Hn file. pose proof (ft_inodes _ Hfits) as Hlen. unfold NINODES in Hlen. assert (length args <= 198)%nat as Hle by lia.
  pose proof (na_arg _ _ _ Hna) as Ha. pose proof (lookup_lt_Some _ _ _ Ha) as Hj. unfold read_path.
  assert (all_files args !! S j = Some (Mkfsimg.contents a)) as Hf.
  { change (all_files args !! S j) with ((Mkfsimg.contents <$> args) !! j). by rewrite list_lookup_fmap, Ha. }
  eapply rc_step; [apply (namei_file im _ args s j a env Him Hs Hle Hna); [|done]|done|].
  { apply strip_slash, (Forall_lookup_1 _ _ _ _ (ft_names _ Hfits) Ha). }
  intros p s1 (-> & HQ1 & E1). assert (disk s1 = disk s) as Ed by apply E1. apply (stopped_same s s1); [done|].
  assert (fetched (Bcache.contents ∅ s1) (sb s1) (fresh (inum_of (S j)) 1) = in_memory im (inum_of (S j)) 1) as Hld.
  { rewrite (contents_same ∅ s s1 Ed). destruct E1 as (_ & _ & _ & -> & _). apply (loaded_inode im _ _ _ 1 s Him Hs). unfold inum_of. lia. }
  eapply rc_step; [apply (ilock_fetches me mp 1000 ∅ s1 1 (fresh (inum_of (S j)) 1) env HQ1)|done|].
  - destruct E1 as (_ & _ & -> & _). done.
  - done.
  - done.
  - destruct E1 as (_ & _ & _ & _ & _ & _ & ->). apply (sr_slocks _ _ Hs).
  - destruct E1 as (_ & _ & _ & -> & _). apply (inode_block _ _ _ _ _ Him Hs). cbn. unfold inum_of. lia.
  - rewrite Hld. change (i_type _) with (di_type (kernel_inode im (inum_of (S j)))). by rewrite (sd_type _ _ _ (ig_files _ _ _ Him _ _ Hf)).
  - rewrite Hld. intros _ s2 (HQ2 & E2). assert (disk s2 = disk s1) as Ed2 by apply E2. unfold deref. rewrite bind_ret. apply (stopped_same s1 s2); [done|].
    eapply rc_mono; [apply (readi_file im _ args s j _ s2 n env Him Hs Hf); [| |exact HQ2|by rewrite Ed2| |exact Hn]|intros s3 Hst; exact Hst|].
    + apply (Forall_lookup_1 _ _ _ _ (ft_sizes _ Hfits) Ha).
    + discriminate.
    + destruct E2 as (_ & _ & -> & _). destruct E1 as (_ & _ & E1 & _). cbn [icache set_icache]. rewrite E1. reflexivity.
    + intros r s3 (-> & ->). split; [reflexivity|by rewrite Ed2].
Qed.
End Fsimage.

(** The kernel started on the image with the file _cat, and the file read
    back by its path. *)
Definition started_on (im : list block) : kst := after_binit (set_sb (sb_of_block (blk im 1)) (set_disk (disk_of im) kst_idle)).

Lemma started_on_quiet im : img_ok im -> quiet 0 proc_running 1000 ∅ (started_on im).
Proof.
  intros Hok. split; [|rewrite map_size_empty; unfold NBUF; lia]. apply after_binit_cache; [|reflexivity|by intros b; apply length_block_of_disk].
  by destruct kst_idle_calm.
Qed.
Lemma started_on_started im : started im (started_on im).
Proof. split; reflexivity. Qed.

Lemma args_example_named : named args_example 0 (bytes_of "_cat", [bytes_of "hello"; bytes_of "!!"]).
Proof. split; try (vm_compute; discriminate); [done|]. intros k b Hk. lia. Qed.

Lemma mkfs_then_read_witness :
  exists st s', Mkfs.main (host <$> args_example) = Some st /\
    @read_path (memide_driver 1000) (bytes_of "/cat") 100 [] (started_on (img st)) = Ok (7, bytes_of "hello!!") s' [].
Proof.
  destruct (mkfs_image args_example args_example_fits) as (st0 & E0 & Him).
  destruct (@mkfs_then_read _ 0 proc_running False (memide_sync 1000) args_example args_example_fits) as (st & E & H).
  rewrite E0 in E. injection E as <-. exists st0.
  specialize (H (started_on (img st0)) 0%nat _ 100 [] (started_on_quiet _ (ig_sectors _ _ _ Him)) (started_on_started _) args_example_named ltac:(lia)).
  cbv zeta in H. change (slash :: arg_name _) with (bytes_of "/cat") in H. change (concat _) with (bytes_of "hello!!") in H.
  change (100 `min` _) with 7 in H. change (take _ _) with (bytes_of "hello!!") in H. revert H. generalize (started_on (img st0)).
  intros s. generalize (@read_path (memide_driver 1000) (bytes_of "/cat") 100 [] s). intros o H.
  destruct o as [r s' e| |w]; [|destruct H|destruct w; first [destruct H as [[] _]|destruct H]]. destruct H as [[-> _] ->]. exists s'. exact (conj E0 eq_refl).
Defined.
