(* ===== verification/Fsview.v ===== *)
(** * Which block belongs to which file

    The allocation of blocks in terms of the blocks' contents [D] alone: the
    addresses in the inodes and in the indirect blocks ([aslot]), the bitmap,
    and the invariant that relates them ([fs_ok]): every block a file uses is
    a data block that the bitmap marks, and is used once.  [balloc_to] and
    [bmap_to] are what [balloc] and [bmap] of fs.c do to [D] and to the
    inode; they keep the invariant and all files' data. *)

From stdpp Require Import base numbers list gmap strings.
From S2P Require Import Prelude Kernel Kalloc Umem Mkfs Mkfsok.
From S2P Require Import Buf Log Logsafe Inode Dir Fstxn.

(** ** Slots *)

(** Slot [s] of the addresses [ad]: -1 is the indirect block, the others are
    the blocks of the file. *)
Definition aslot (D : Z -> list Z) (ad : list Z) (s : Z) : Z :=
  let a k := nth (Z.to_nat k) ad 0 in
  if s =? -1 then a NDIRECT
  else if s <? NDIRECT then a s
  else if a NDIRECT =? 0 then 0 else word_at (D (a NDIRECT)) (4 * (s - NDIRECT)).
(** Byte [k] of a file. *)
Definition abyte (D : Z -> list Z) (ad : list Z) (k : Z) : Z := byte (D (aslot D ad (k / 512))) (k mod 512).

(** The addresses of an inode, by its number. *)
Notation addrs := (Z -> list Z).
Definition with_addrs (i : Z) (ad : list Z) (ads : addrs) : addrs := fun j => if decide (j = i) then ad else ads j.

(** ** One bit of the bitmap *)
Lemma bit_free_set d i b : length d = 512%nat -> 0 <= i < 4096 -> 0 <= b < 4096 ->
  bit_free (bit_set i d) b = if b =? i then false else bit_free d b.
Proof.
  intros Hl Hi Hb. unfold bit_free, bit_set, bit_mask, byte_of. assert (0 <= b mod 8 < 8) as Hm by (apply Z.mod_pos_bound; lia).
  assert (0 <= i mod 8 < 8) as Hmi by (apply Z.mod_pos_bound; lia). rewrite !bit_test by lia.
  assert (0 <= i / 8 < 512) as Hd by (Z.div_mod_to_equations; lia). assert (0 <= b / 8 < 512) as Hdb by (Z.div_mod_to_equations; lia).
  destruct (decide (b / 8 = i / 8)) as [E|E].
  - rewrite E. rewrite (nth_lookup (<[_ := _]> d)), list_lookup_insert_eq by lia. cbn [default from_option id]. unfold id.
    rewrite Z.lor_spec, Z.shiftl_1_l. destruct (Z.eqb_spec b i) as [->|Hne]; [by rewrite Z.pow2_bits_true, orb_true_r by lia|].
    rewrite Z.pow2_bits_false by (Z.div_mod_to_equations; lia). by rewrite orb_false_r.
  - rewrite (nth_lookup (<[_ := _]> d)), list_lookup_insert_ne, <- nth_lookup by lia.
    rewrite (proj2 (Z.eqb_neq b i)) by (intros ->; done). done.
Qed.

Section Fsview.
Context (bm N NI : Z).

Definition geometry : Prop := 0 < bm /\ bm < N /\ N <= BPB.
Definition an_inode (i : Z) : Prop := 0 <= i < NI.

(** The bitmap's bits. *)
Definition is_free (D : Z -> list Z) (b : Z) : bool := bit_free (D bm) b.

Record fs_ok (D : Z -> list Z) (ads : addrs) : Prop := {
  fk_len : forall b, bm <= b -> length (D b) = 512%nat;
  fk_reserved : forall b, 0 <= b <= bm -> is_free D b = false;
  fk_addrs : forall i, an_inode i -> length (ads i) = 13%nat /\ Forall uint_ok (ads i);
  fk_slot : forall i s, an_inode i -> is_slot s -> aslot D (ads i) s <> 0 ->
    bm < aslot D (ads i) s < N /\ is_free D (aslot D (ads i) s) = false;
  fk_own : forall i i' s s', an_inode i -> an_inode i' -> is_slot s -> is_slot s' ->
    aslot D (ads i) s <> 0 -> aslot D (ads i) s = aslot D (ads i') s' -> i = i' /\ s = s';
}.

(** What every step keeps: the slots in use, the data in them, and the
    blocks below the bitmap. *)
Record keeps (D : Z -> list Z) (ads : addrs) (D' : Z -> list Z) (ads' : addrs) : Prop := {
  kp_slot : forall j s, an_inode j -> is_slot s -> aslot D (ads j) s <> 0 -> aslot D' (ads' j) s = aslot D (ads j) s;
  kp_data : forall j s, an_inode j -> 0 <= s < 140 -> aslot D (ads j) s <> 0 -> D' (aslot D (ads j) s) = D (aslot D (ads j) s);
  kp_meta : forall c, 0 <= c < bm -> D' c = D c;
}.

Lemma keeps_refl D ads : keeps D ads D ads.
Proof using. done. Qed.
Lemma keeps_trans D1 a1 D2 a2 D3 a3 : keeps D1 a1 D2 a2 -> keeps D2 a2 D3 a3 -> keeps D1 a1 D3 a3.
Proof using.
  intros [S1 T1 M1] [S2 T2 M2]. split.
  - intros j s Hj Hs Hn. rewrite <- (S1 j s) by done. apply S2; [done|done|]. by rewrite S1.
  - intros j s Hj Hs Hn. assert (is_slot s) as Hs' by (unfold is_slot; lia). rewrite <- (T1 j s) by done.
    rewrite <- (S1 j s) at 1 2 by done. apply T2; [done|done|]. by rewrite S1.
  - intros c Hc. by rewrite M2, M1.
Qed.

(** The bytes of the files are the same. *)
Lemma keeps_byte D ads D' ads' j k :
  keeps D ads D' ads' -> an_inode j -> 0 <= k < 140 * 512 -> aslot D (ads j) (k / 512) <> 0 -> abyte D' (ads' j) k = abyte D (ads j) k.
Proof using.
  intros [S T _] Hj Hk Hn. pose proof (div_bound k Hk) as Hb. unfold abyte. rewrite S by (done || unfold is_slot; lia). by rewrite T.
Qed.

(** ** Slots under changes *)

Lemma aslot_ext D D' ad s : D' (nth 12 ad 0) = D (nth 12 ad 0) -> aslot D' ad s = aslot D ad s.
Proof using. intros E. unfold aslot. change (Z.to_nat NDIRECT) with 12%nat. by rewrite E. Qed.

Lemma aslot_fput D b v ad s : nth 12 ad 0 <> b -> aslot (fput b v D) ad s = aslot D ad s.
Proof using. intros Hne. apply aslot_ext. by rewrite fput_ne. Qed.

Lemma aslot_indirect D ad : aslot D ad (-1) = nth 12 ad 0.
Proof using. done. Qed.
Lemma aslot_direct D ad s : 0 <= s < 12 -> aslot D ad s = nth (Z.to_nat s) ad 0.
Proof using. intros H. unfold aslot, NDIRECT. by rewrite (proj2 (Z.eqb_neq s (-1))), (proj2 (Z.ltb_lt s 12)) by lia. Qed.
Lemma aslot_entry D ad s : 12 <= s -> aslot D ad s = if nth 12 ad 0 =? 0 then 0 else word_at (D (nth 12 ad 0)) (4 * (s - 12)).
Proof using. intros H. unfold aslot, NDIRECT. by rewrite (proj2 (Z.eqb_neq s (-1))), (proj2 (Z.ltb_ge s 12)) by lia. Qed.

(** Every slot is an address, or an entry of the indirect block. *)
Lemma slot_cases s : is_slot s -> s = -1 \/ 0 <= s < 12 \/ 12 <= s < 140.
Proof using. unfold is_slot. lia. Qed.

Section Steps.
Context (Hg : geometry) (D : Z -> list Z) (ads : addrs) (Hok : fs_ok D ads).

Lemma indirect_used j : an_inode j -> nth 12 (ads j) 0 <> 0 -> bm < nth 12 (ads j) 0 < N.
Proof using Hok. intros Hj Hn. by apply (fk_slot _ _ Hok j (-1)). Qed.

(** A write to a block that is no indirect block. *)
Lemma slots_fput b v j s :
  (nth 12 (ads j) 0 <> 0 -> nth 12 (ads j) 0 <> b) -> aslot (fput b v D) (ads j) s = aslot D (ads j) s.
Proof using.
  intros Hb. destruct (decide (nth 12 (ads j) 0 = 0)) as [E|E]; [|by apply aslot_fput, Hb].
  unfold aslot. change (Z.to_nat NDIRECT) with 12%nat. by rewrite E.
Qed.

(** ** A write to a block of a file *)
Lemma data_write i bn v :
  an_inode i -> 0 <= bn < 140 -> aslot D (ads i) bn <> 0 -> length v = 512%nat ->
  let D' := fput (aslot D (ads i) bn) v D in
  fs_ok D' ads /\ (forall j s, an_inode j -> aslot D' (ads j) s = aslot D (ads j) s) /\
  (forall j s, an_inode j -> 0 <= s < 140 -> aslot D (ads j) s <> 0 -> D' (aslot D (ads j) s) = if decide (j = i /\ s = bn) then v else D (aslot D (ads j) s)) /\
  (forall c, 0 <= c <= bm -> D' c = D c).
Proof using Hok Hg.
  intros Hi Hbn Hn Hv D'. set (b := aslot D (ads i) bn) in *. assert (is_slot bn) as Hsl by (unfold is_slot; lia).
  destruct (fk_slot _ _ Hok i bn Hi Hsl Hn) as [Hr Hfr]. fold b in Hr, Hfr.
  assert (forall j s, an_inode j -> aslot D' (ads j) s = aslot D (ads j) s) as Hs.
  { intros j s Hj. apply slots_fput. intros Hkn E.
    destruct (fk_own _ _ Hok i j bn (-1) Hi Hj Hsl ltac:(unfold is_slot; lia) Hn) as [_ H]; [by rewrite aslot_indirect|]. lia. }
  assert (forall c, is_free D' c = is_free D c) as Hf by (intros c; unfold is_free, D'; by rewrite fput_ne by lia).
  split_and!; [|done| |].
  - split.
    + intros c Hc. unfold D', fput. case_decide; [done|]. by apply Hok.
    + intros c Hc. rewrite Hf. by apply Hok.
    + apply Hok.
    + intros j s Hj H1. rewrite Hs, Hf by done. by apply Hok.
    + intros j j' s s' Hj Hj' H1 H2. rewrite !Hs by done. by apply Hok.
  - intros j s Hj Hjs Hjn. unfold D', fput. destruct (decide (j = i /\ s = bn)) as [[-> ->]|Hne]; [by rewrite decide_True|].
    rewrite decide_False; [done|]. intros E. apply Hne. destruct (fk_own _ _ Hok j i s bn Hj Hi ltac:(unfold is_slot; lia) Hsl Hjn E); done.
  - intros c Hc. unfold D'. by rewrite fput_ne by lia.
Qed.

(** ** balloc *)

Definition balloc_to (D : Z -> list Z) : option (Z * (Z -> list Z)) :=
  b ← first_free (D bm) N; Some (b, fput b zero_block (fput bm (bit_set b (D bm)) D)).

Lemma first_free_Some d b : first_free d N = Some b -> 0 <= b < Z.min BPB N /\ bit_free d b = true.
Proof using.
  unfold first_free. intros (k & Hk & ->)%fmap_Some. apply find_idx_Some in Hk as [(x & Hx & Ex) _].
  apply lookup_seqZ in Hx as [-> Hx]. rewrite Z.add_0_l in Ex. split; [lia|done].
Qed.

(** The block it takes was free, and no file's. *)
Record taken_block (b : Z) (D1 : Z -> list Z) : Prop := {
  tk_range : bm < b < N;
  tk_new : forall j s, an_inode j -> is_slot s -> aslot D (ads j) s <> b;
  tk_free : forall c, 0 <= c < BPB -> is_free D1 c = if c =? b then false else is_free D c;
  tk_zero : D1 b = zero_block;
  tk_other : forall c, c <> b -> c <> bm -> D1 c = D c;
  tk_slots : forall j s, an_inode j -> aslot D1 (ads j) s = aslot D (ads j) s;
  tk_ok : fs_ok D1 ads;
}.

Lemma balloc_to_ok b D1 : balloc_to D = Some (b, D1) -> taken_block b D1.
Proof using Hok Hg.
  unfold balloc_to. destruct (first_free (D bm) N) as [x|] eqn:E; [|done]. cbn. intros [= <- <-].
  apply first_free_Some in E as [Hb Hf]. destruct Hg as (G1 & G2 & G3).
  assert (bm < x < N) as Hr.
  { split; [|lia]. destruct (decide (x <= bm)); [|lia]. pose proof (fk_reserved _ _ Hok x ltac:(lia)) as H. unfold is_free in H. congruence. }
  assert (forall j s, an_inode j -> is_slot s -> aslot D (ads j) s <> x) as Hnew.
  { intros j s Hj Hs Ex. destruct (fk_slot _ _ Hok j s Hj Hs) as [_ H]; [lia|]. unfold is_free in H. rewrite Ex in H. congruence. }
  set (D0 := fput bm (bit_set x (D bm)) D).
  assert (forall c, 0 <= c < BPB -> is_free (fput x zero_block D0) c = if c =? x then false else is_free D c) as Hfree.
  { intros c Hc. unfold is_free, D0. rewrite fput_ne, fput_eq by lia. change BPB with 4096 in *. apply bit_free_set; [by apply Hok|lia|lia]. }
  assert (forall c, c <> x -> c <> bm -> fput x zero_block D0 c = D c) as Hoth by (intros c H1 H2; unfold D0; by rewrite !fput_ne).
  assert (forall j s, an_inode j -> aslot (fput x zero_block D0) (ads j) s = aslot D (ads j) s) as Hs.
  { intros j s Hj. destruct (decide (nth 12 (ads j) 0 = 0)) as [E|E].
    - unfold aslot. change (Z.to_nat NDIRECT) with 12%nat. by rewrite E.
    - apply aslot_ext, Hoth; [apply (Hnew j (-1)); [done|unfold is_slot; lia]|]. pose proof (indirect_used j Hj E). lia. }
  split; try done; [by rewrite fput_eq|]. split.
  - intros c Hc. unfold D0, fput. repeat case_decide; [done| |by apply Hok]. unfold bit_set. rewrite length_insert. by apply Hok.
  - intros c Hc. rewrite Hfree by lia. destruct (Z.eqb_spec c x); [done|]. by apply Hok.
  - apply Hok.
  - intros j s Hj Hjs. rewrite Hs by done. intros Hn. destruct (fk_slot _ _ Hok j s Hj Hjs Hn) as [H1 H2]. split; [done|].
    rewrite Hfree by lia. by destruct (_ =? x).
  - intros j j' s s' Hj Hj' H1 H2. rewrite !Hs by done. by apply Hok.
Qed.
End Steps.

(** ** A block becomes part of a file *)

Section Attach.
Context (Hg : geometry) (D : Z -> list Z) (ads : addrs) (Hok : fs_ok D ads) (i s b : Z).
Hypotheses (Hi : an_inode i) (Hs : is_slot s) (Hz : aslot D (ads i) s = 0).
Hypotheses (Hb : bm < b < N) (Hm : is_free D b = false) (Hnew : forall j s, an_inode j -> is_slot s -> aslot D (ads j) s <> b).

Definition attached (D' : Z -> list Z) (ads' : addrs) : Prop :=
  forall j s', an_inode j -> is_slot s' -> aslot D' (ads' j) s' = if decide (j = i /\ s' = s) then b else aslot D (ads j) s'.

Lemma attach_ok D' ads' :
  attached D' ads' -> (forall c, bm <= c -> length (D' c) = 512%nat) -> D' bm = D bm ->
  (forall j, an_inode j -> length (ads' j) = 13%nat /\ Forall uint_ok (ads' j)) -> fs_ok D' ads'.
Proof using Hg Hok Hz Hb Hm Hnew.
  intros Ha Hl Hbm Had. assert (forall c, is_free D' c = is_free D c) as Hf by (intros c; unfold is_free; by rewrite Hbm). split.
  - done.
  - intros c Hc. rewrite Hf. by apply Hok.
  - done.
  - intros j s' Hj Hs'. rewrite (Ha j s') by done. rewrite Hf. case_decide; [done|]. by apply Hok.
  - intros j j' s1 s2 Hj Hj' H1 H2. rewrite !Ha by done. do 2 case_decide; intros Hn E.
    + destruct H as [-> ->], H0 as [-> ->]. done.
    + by destruct (Hnew j' s2 Hj' H2).
    + by destruct (Hnew j s1 Hj H1).
    + by apply (fk_own _ _ Hok).
Qed.

Lemma attach_keeps D' ads' :
  attached D' ads' -> (forall j s', an_inode j -> 0 <= s' < 140 -> aslot D (ads j) s' <> 0 -> D' (aslot D (ads j) s') = D (aslot D (ads j) s')) ->
  (forall c, 0 <= c < bm -> D' c = D c) -> keeps D ads D' ads'.
Proof using Hz.
  intros Ha Hd Hmt. split; [|done|done]. intros j s' Hj Hs' Hn. rewrite Ha by done. case_decide as E; [|done]. destruct E as [-> ->]. done.
Qed.

(** An address of the inode. *)
Lemma attach_addr :
  s < 12 -> (s = -1 -> D b = zero_block) ->
  let ads' := with_addrs i (<[Z.to_nat (if s =? -1 then 12 else s) := b]> (ads i)) ads in
  attached D ads' /\ fs_ok D ads' /\ keeps D ads D ads'.
Proof using Hg Hok Hi Hs Hz Hb Hm Hnew.
  intros Hlt Hzero ads'. destruct (fk_addrs _ _ Hok i Hi) as [Hlen Hu]. set (k := Z.to_nat _) in *.
  assert (k < 13)%nat as Hk by (unfold k, is_slot in *; destruct (Z.eqb_spec s (-1)); lia).
  assert (forall n, nth n (<[k := b]> (ads i)) 0 = if decide (n = k) then b else nth n (ads i) 0) as Hnth.
  { intros n. rewrite !nth_lookup. case_decide as E; [subst n; by rewrite list_lookup_insert_eq by lia|by rewrite list_lookup_insert_ne by congruence]. }
  assert (attached D ads') as Ha.
  { intros j s' Hj Hs'. unfold ads', with_addrs. destruct (decide (j = i)) as [->|Hne].
    2:{ rewrite decide_False; [done|]. by intros [? _]. }
    assert (s = -1 /\ k = 12%nat \/ 0 <= s < 12 /\ k = Z.to_nat s) as Hks.
    { unfold k, is_slot in *. destruct (Z.eqb_spec s (-1)); [left|right]; lia. }
    destruct (slot_cases s' Hs') as [->|[H|H]].
    - rewrite !aslot_indirect, Hnth. repeat case_decide; try done; lia.
    - rewrite !aslot_direct, Hnth by done. repeat case_decide; try done; lia.
    - rewrite !aslot_entry, Hnth by lia. rewrite (decide_False (P := i = i /\ s' = s)) by lia. case_decide as E; [|done].
      destruct Hks as [[Es _]|Hks]; [|lia]. rewrite Es, aslot_indirect in Hz. rewrite Hz, (Hzero Es). cbn [Z.eqb].
      rewrite word_at_zero by lia. by destruct (b =? 0). }
  split_and!; [done|apply attach_ok; try done; [apply Hok|]|by apply attach_keeps].
  intros j Hj. unfold ads', with_addrs. case_decide; [|by apply Hok]. split; [by rewrite length_insert|]. apply Forall_insert; [done|].
  unfold uint_ok. destruct Hg as (? & ? & ?). change BPB with 4096 in *. lia.
Qed.

(** An entry of the indirect block. *)
Lemma attach_entry :
  12 <= s -> let a := nth 12 (ads i) 0 in a <> 0 ->
  let D' := fput a (set_word (D a) (4 * (s - 12)) b) D in
  attached D' ads /\ fs_ok D' ads /\ keeps D ads D' ads.
Proof using Hg Hok Hi Hs Hz Hb Hm Hnew.
  intros Hge a Ha D'. pose proof (indirect_used D ads Hok i Hi Ha) as Hr. fold a in Hr. pose proof (fk_len _ _ Hok a ltac:(lia)) as Hl.
  assert (is_slot (-1)) as Hm1 by (unfold is_slot; lia). unfold is_slot in Hs.
  assert (attached D' ads) as Hat.
  { intros j s' Hj Hs'. destruct (decide (j = i)) as [->|Hne].
    - destruct (slot_cases s' Hs') as [->|[H|H]].
      + rewrite !aslot_indirect. by rewrite decide_False by lia.
      + rewrite !aslot_direct by done. by rewrite decide_False by lia.
      + rewrite !aslot_entry by lia. fold a. rewrite (proj2 (Z.eqb_neq a 0)) by done. unfold D'. rewrite fput_eq. case_decide as E.
        * destruct E as [_ ->]. rewrite word_at_set_word by lia. apply u32_small. destruct Hg as (? & ? & ?). change BPB with 4096 in *. lia.
        * rewrite word_at_set_word_ne; [done|lia|lia|lia|]. destruct (decide (s' < s)); [left|right]; lia.
    - rewrite decide_False by (by intros [? _]). apply slots_fput. intros Hn E.
      destruct (fk_own _ _ Hok j i (-1) (-1) Hj Hi Hm1 Hm1 Hn E). done. }
  split_and!; [done|apply attach_ok; try done|apply attach_keeps; try done].
  - intros c Hc. unfold D', fput. case_decide; [|by apply Hok]. rewrite length_set_word by lia. done.
  - unfold D'. by rewrite fput_ne by lia.
  - apply Hok.
  - intros j s' Hj Hs' Hn. unfold D'. rewrite fput_ne; [done|]. intros E.
    destruct (fk_own _ _ Hok j i s' (-1) Hj Hi ltac:(unfold is_slot; lia) Hm1 Hn E). lia.
  - intros c Hc. unfold D'. by rewrite fput_ne by lia.
Qed.
End Attach.

(** ** bmap *)

Definition addr_to (D : Z -> list Z) (ad : list Z) (k : Z) : option (Z * (Z -> list Z) * list Z) :=
  let a := nth (Z.to_nat k) ad 0 in
  if negb (a =? 0) then Some (a, D, ad) else
  '(b, D) ← balloc_to D; Some (b, D, <[Z.to_nat k := b]> ad).
Definition bmap_to (D : Z -> list Z) (ad : list Z) (bn : Z) : option (Z * (Z -> list Z) * list Z) :=
  if bn <? NDIRECT then addr_to D ad bn else
  '(a, D, ad) ← addr_to D ad NDIRECT;
  let e := 4 * (bn - NDIRECT) in
  if negb (word_at (D a) e =? 0) then Some (word_at (D a) e, D, ad) else
  '(b, D) ← balloc_to D; Some (b, fput a (set_word (D a) e b) D, ad).

(** Slot [s] of inode [i] is block [a] after the step, and only became it if
    it was empty. *)
Record mapped_to (D : Z -> list Z) (ads : addrs) (i s a : Z) (D' : Z -> list Z) (ad' : list Z) : Prop := {
  mt_ok : fs_ok D' (with_addrs i ad' ads);
  mt_keeps : keeps D ads D' (with_addrs i ad' ads);
  mt_slot : aslot D' ad' s = a;
  mt_used : a <> 0;
  mt_same : aslot D (ads i) s <> 0 -> D' = D /\ ad' = ads i;
}.

Lemma with_addrs_same i ads j : with_addrs i (ads i) ads j = ads j.
Proof using. unfold with_addrs. by case_decide; subst. Qed.
Lemma with_addrs_eq i ad ads : with_addrs i ad ads i = ad.
Proof using. unfold with_addrs. by rewrite decide_True. Qed.

Lemma fs_ok_ext D ads ads' : (forall j, an_inode j -> ads' j = ads j) -> fs_ok D ads -> fs_ok D ads'.
Proof using.
  intros E O. split; try by apply O.
  - intros i Hi. rewrite E by done. by apply O.
  - intros i s Hi Hs. rewrite E by done. by apply O.
  - intros i i' s s' Hi Hi' Hs Hs'. rewrite !E by done. by apply O.
Qed.
Lemma keeps_ext D ads ads1 D' ads' ads1' :
  (forall j, ads1 j = ads j) -> (forall j, ads1' j = ads' j) -> keeps D ads D' ads' -> keeps D ads1 D' ads1'.
Proof using. intros E E' [H1 H2 H3]. split; intros *; rewrite ?E, ?E'; eauto. Qed.

(** Nothing to do. *)
Lemma mapped_already D ads i s : fs_ok D ads -> aslot D (ads i) s <> 0 -> mapped_to D ads i s (aslot D (ads i) s) D (ads i).
Proof using.
  intros Hok Hn. split; [by apply (fs_ok_ext D ads), Hok; intros; apply with_addrs_same| |done|done|done].
  apply (keeps_ext D ads ads D ads); [done|apply with_addrs_same|apply keeps_refl].
Qed.

Lemma taken_keeps D ads b D1 : fs_ok D ads -> taken_block D ads b D1 -> keeps D ads D1 ads.
Proof using.
  intros Hok T. pose proof (tk_range _ _ _ _ T) as Hb. split.
  - intros j s Hj _ _. by apply T.
  - intros j s Hj Hs Hn. assert (is_slot s) as Hsl by (unfold is_slot; lia). apply (tk_other _ _ _ _ T); [by apply T|].
    destruct (fk_slot _ _ Hok j s Hj Hsl Hn). lia.
  - intros c Hc. apply (tk_other _ _ _ _ T); lia.
Qed.

(** A block that was just taken can become part of a file. *)
Lemma taken_ready D ads b D1 i s :
  geometry -> taken_block D ads b D1 -> an_inode i -> is_slot s -> aslot D (ads i) s = 0 ->
  aslot D1 (ads i) s = 0 /\ is_free D1 b = false /\ forall j s, an_inode j -> is_slot s -> aslot D1 (ads j) s <> b.
Proof using.
  intros (G1 & G2 & G3) T Hi Hs Hz. pose proof (tk_range _ _ _ _ T) as Hb. split_and!.
  - by rewrite (tk_slots _ _ _ _ T).
  - rewrite (tk_free _ _ _ _ T), Z.eqb_refl by lia. done.
  - intros j s' Hj Hs'. rewrite (tk_slots _ _ _ _ T) by done. by apply T.
Qed.

Lemma addr_to_ok D ads i k a D' ad' :
  geometry -> fs_ok D ads -> an_inode i -> 0 <= k <= 12 -> addr_to D (ads i) k = Some (a, D', ad') ->
  mapped_to D ads i (if k =? 12 then -1 else k) a D' ad'.
Proof using.
  intros Hg Hok Hi Hk E. set (s := if k =? 12 then -1 else k).
  assert (is_slot s /\ s < 12 /\ (if s =? -1 then 12 else s) = k) as (Hs & Hs12 & Ek).
  { unfold s, is_slot. destruct (Z.eqb_spec k 12) as [->|]; [done|]. split_and!; [lia..|]. by rewrite (proj2 (Z.eqb_neq k (-1))) by lia. }
  assert (aslot D (ads i) s = nth (Z.to_nat k) (ads i) 0) as Ea.
  { unfold s. destruct (Z.eqb_spec k 12) as [->|]; [done|]. apply aslot_direct. lia. }
  unfold addr_to in E. rewrite <- Ea in E. destruct (Z.eqb_spec (aslot D (ads i) s) 0) as [Hz|Hn]; cbn [negb] in E.
  2:{ injection E as <- <- <-. by apply mapped_already. }
  destruct (balloc_to D) as [[b D1]|] eqn:Eb; [|done]. cbn in E. injection E as <- <- <-.
  pose proof (balloc_to_ok Hg D ads Hok b D1 Eb) as T. destruct (taken_ready D ads b D1 i s Hg T Hi Hs Hz) as (Hz1 & Hm & Hnew).
  destruct (attach_addr Hg D1 ads (tk_ok _ _ _ _ T) i s b Hi Hs Hz1 (tk_range _ _ _ _ T) Hm Hnew Hs12) as (Ha & Hf & Hkp); [by intros _; apply T|].
  rewrite Ek in Ha, Hf, Hkp. split; [done|by eapply keeps_trans; [apply (taken_keeps D ads b D1)|]| |pose proof (tk_range _ _ _ _ T); destruct Hg; lia|done].
  specialize (Ha i s Hi Hs). rewrite with_addrs_eq in Ha. by rewrite decide_True in Ha.
Qed.

Lemma bmap_to_ok D ads i bn a D' ad' :
  geometry -> fs_ok D ads -> an_inode i -> 0 <= bn < 140 -> bmap_to D (ads i) bn = Some (a, D', ad') ->
  mapped_to D ads i bn a D' ad'.
Proof using.
  intros Hg Hok Hi Hbn E. unfold bmap_to in E. change NDIRECT with 12 in E. destruct (Z.ltb_spec bn 12) as [Hlt|Hge].
  { pose proof (addr_to_ok D ads i bn a D' ad' Hg Hok Hi ltac:(lia) E) as H. by rewrite (proj2 (Z.eqb_neq bn 12)) in H by lia. }
  destruct (addr_to D (ads i) 12) as [[[a1 D1] ad1]|] eqn:E1; [|done]. cbn [mbind option_bind] in E.
  destruct (addr_to_ok D ads i 12 a1 D1 ad1 Hg Hok Hi ltac:(lia) E1) as [O1 K1 S1 U1 M1]. cbn [Z.eqb Pos.eqb] in S1, M1.
  set (ads1 := with_addrs i ad1 ads) in *. assert (ads1 i = ad1) as Ei by apply with_addrs_eq.
  assert (is_slot bn) as Hs by (unfold is_slot; lia). rewrite aslot_indirect in S1, M1.
  assert (aslot D1 (ads1 i) bn = word_at (D1 a1) (4 * (bn - 12))) as Ew.
  { rewrite Ei, aslot_entry, S1 by lia. by rewrite (proj2 (Z.eqb_neq a1 0)). }
  assert (aslot D (ads i) bn <> 0 -> D1 = D /\ ad1 = ads i) as Hsame.
  { intros Hn. apply M1. intros E0. rewrite aslot_entry, E0 in Hn by lia. done. }
  rewrite <- Ew in E. destruct (Z.eqb_spec (aslot D1 (ads1 i) bn) 0) as [Hz|Hn]; cbn [negb] in E.
  - destruct (balloc_to D1) as [[b D2]|] eqn:Eb; [|done]. cbn in E. injection E as <- <- <-.
    pose proof (balloc_to_ok Hg D1 ads1 O1 b D2 Eb) as T. destruct (taken_ready D1 ads1 b D2 i bn Hg T Hi Hs Hz) as (Hz1 & Hm & Hnew).
    destruct (attach_entry Hg D2 ads1 (tk_ok _ _ _ _ T) i bn b Hi Hs Hz1 (tk_range _ _ _ _ T) Hm Hnew Hge) as (Ha & Hf & Hkp); [by rewrite Ei, S1|].
    rewrite Ei, S1 in Ha, Hf, Hkp. split; [done| | |pose proof (tk_range _ _ _ _ T); destruct Hg; lia|].
    + eapply keeps_trans; [exact K1|]. by eapply keeps_trans; [apply (taken_keeps D1 ads1 b D2)|].
    + specialize (Ha i bn Hi Hs). rewrite Ei in Ha. by rewrite decide_True in Ha.
    + intros Hn. destruct (Hsame Hn) as [-> ->]. by rewrite Ei in Hz.
  - injection E as <- <- <-. split; [done|done|by rewrite Ei|done|done].
Qed.

(** ** Free blocks *)

Definition free_count (D : Z -> list Z) : nat := length (filter (fun c => is_free D c = true) (seqZ 0 N)).

Lemma balloc_to_Some D : geometry -> (0 < free_count D)%nat -> exists r, balloc_to D = Some r.
Proof using.
  intros (G1 & G2 & G3) Hc. unfold balloc_to, first_free. rewrite Z.min_r by lia. fold (is_free D).
  destruct (find_idx (bit_free (D bm)) (seqZ 0 N)) as [k|] eqn:E; [cbn; by eexists|]. exfalso.
  unfold free_count in Hc. destruct (filter _ _) as [|c l] eqn:Ef; [cbn in Hc; lia|].
  assert (c ∈ filter (fun c => is_free D c = true) (seqZ 0 N)) as [H1 H2]%list_elem_of_filter by (rewrite Ef; apply list_elem_of_here).
  apply list_elem_of_lookup in H2 as [j Hj]. pose proof (proj1 (find_idx_None _ _) E j c Hj). unfold is_free in H1. congruence.
Qed.

Lemma taken_count D ads b D1 : geometry -> taken_block D ads b D1 -> (free_count D <= S (free_count D1))%nat.
Proof using.
  intros (G1 & G2 & G3) T. unfold free_count.
  change (S (length (filter (fun c => is_free D1 c = true) (seqZ 0 N)))) with (length (b :: filter (fun c => is_free D1 c = true) (seqZ 0 N))).
  apply submseteq_length, NoDup_submseteq; [apply NoDup_filter, NoDup_seqZ|]. intros c [Hf Hc]%list_elem_of_filter.
  apply elem_of_cons. destruct (decide (c = b)) as [|Hne]; [by left|right]. apply list_elem_of_filter. split; [|done].
  apply elem_of_seqZ in Hc. rewrite (tk_free _ _ _ _ T), (proj2 (Z.eqb_neq c b)) by (done || lia). done.
Qed.

Lemma free_count_ext D D' : D' bm = D bm -> free_count D' = free_count D.
Proof using. intros E. unfold free_count, is_free. by rewrite E. Qed.

(** [addr_to] and [bmap_to] succeed if there are blocks left, and take at
    most one and two. *)
Lemma addr_to_Some D ads i k :
  geometry -> fs_ok D ads -> (1 <= free_count D)%nat ->
  exists a D' ad', addr_to D (ads i) k = Some (a, D', ad') /\ (free_count D <= 1 + free_count D')%nat.
Proof using.
  intros Hg Hok Hc. unfold addr_to. destruct (_ =? 0); cbn [negb]; [|eexists _, _, _; split; [done|lia]].
  destruct (balloc_to_Some D Hg ltac:(lia)) as [[b D1] Eb]. rewrite Eb. cbn. eexists _, _, _. split; [done|].
  by apply (taken_count D ads b), (balloc_to_ok Hg D ads Hok).
Qed.

Lemma bmap_to_Some D ads i bn :
  geometry -> fs_ok D ads -> an_inode i -> 0 <= bn < 140 -> (2 <= free_count D)%nat ->
  exists a D' ad', bmap_to D (ads i) bn = Some (a, D', ad') /\ (free_count D <= 2 + free_count D')%nat.
Proof using.
  intros Hg Hok Hi Hbn Hc. unfold bmap_to. destruct (bn <? NDIRECT).
  { destruct (addr_to_Some D ads i bn Hg Hok ltac:(lia)) as (a & D' & ad' & E & H). exists a, D', ad'. split; [done|lia]. }
  destruct (addr_to_Some D ads i NDIRECT Hg Hok ltac:(lia)) as (a & D1 & ad1 & E & H). rewrite E. cbn [mbind option_bind].
  destruct (_ =? 0); cbn [negb]; [|eexists _, _, _; split; [done|lia]].
  destruct (balloc_to_Some D1 Hg ltac:(lia)) as [[b D2] Eb]. rewrite Eb. cbn. eexists _, _, _. split; [done|].
  destruct (addr_to_ok D ads i 12 a D1 ad1 Hg Hok Hi ltac:(lia) E) as [O1 _ S1 U1 _]. cbn [Z.eqb Pos.eqb] in S1.
  pose proof (balloc_to_ok Hg D1 _ O1 b D2 Eb) as T. pose proof (taken_count D1 _ b D2 Hg T).
  rewrite (free_count_ext D2 (fput a _ D2)); [lia|]. apply fput_ne. intros E0. rewrite aslot_indirect in S1.
  assert (nth 12 (with_addrs i ad1 (ads) i) 0 = a) as Ha by (by rewrite with_addrs_eq).
  pose proof (indirect_used D1 _ O1 i Hi) as H2. rewrite Ha in H2. specialize (H2 U1). lia.
Qed.

(** ** Writing to a file *)

(** [data] was written to inode [i] from offset [off] on. *)
Record wrote (D : Z -> list Z) (ads : addrs) (i off : Z) (data : list Z) (D' : Z -> list Z) (ad' : list Z) : Prop := {
  wr_ok : fs_ok D' (with_addrs i ad' ads);
  wr_slots : forall j s, an_inode j -> is_slot s -> aslot D (ads j) s <> 0 -> aslot D' (with_addrs i ad' ads j) s = aslot D (ads j) s;
  wr_other : forall j k, an_inode j -> j <> i -> 0 <= k < 140 * 512 -> aslot D (ads j) (k / 512) <> 0 -> abyte D' (ads j) k = abyte D (ads j) k;
  wr_in : forall k, off <= k < off + Z.of_nat (length data) -> aslot D' ad' (k / 512) <> 0 /\ abyte D' ad' k = byte data (k - off);
  wr_out : forall k, 0 <= k < 140 * 512 -> ~ off <= k < off + Z.of_nat (length data) -> aslot D (ads i) (k / 512) <> 0 ->
    abyte D' ad' k = abyte D (ads i) k;
  wr_meta : forall c, 0 <= c < bm -> D' c = D c;
  wr_same : (forall k, off <= k < off + Z.of_nat (length data) -> aslot D (ads i) (k / 512) <> 0) -> ad' = ads i;
}.

Lemma wrote_nil D ads i off : fs_ok D ads -> wrote D ads i off [] D (ads i).
Proof using.
  intros Hok. split; try done.
  - by apply (fs_ok_ext D ads), Hok; intros; apply with_addrs_same.
  - intros j s _ _ _. by rewrite with_addrs_same.
  - intros k Hk. cbn in Hk. lia.
Qed.

Lemma with_addrs_twice i a1 a2 ads j : with_addrs i a2 (with_addrs i a1 ads) j = with_addrs i a2 ads j.
Proof using. unfold with_addrs. by case_decide. Qed.
Lemma with_addrs_ne i ad ads j : j <> i -> with_addrs i ad ads j = ads j.
Proof using. intros H. unfold with_addrs. by rewrite decide_False. Qed.

Lemma wrote_app D ads i off x y D1 ad1 D2 ad2 :
  an_inode i -> 0 <= off -> off + Z.of_nat (length x) + Z.of_nat (length y) <= 140 * 512 ->
  wrote D ads i off x D1 ad1 -> wrote D1 (with_addrs i ad1 ads) i (off + Z.of_nat (length x)) y D2 ad2 -> wrote D ads i off (x ++ y) D2 ad2.
Proof using.
  intros Hi Ho Hmax W1 W2. assert (forall k, 0 <= k < 140 * 512 -> is_slot (k / 512)) as Hsl by (intros k Hk; apply div_bound in Hk; unfold is_slot; lia).
  split; rewrite ?length_app.
  - eapply fs_ok_ext; [|apply (wr_ok _ _ _ _ _ _ _ W2)]. intros j. by rewrite with_addrs_twice.
  - intros j s Hj Hs Hn. pose proof (wr_slots _ _ _ _ _ _ _ W1 j s Hj Hs Hn) as E. rewrite <- E.
    rewrite <- (with_addrs_twice i ad1). apply (wr_slots _ _ _ _ _ _ _ W2); [done|done|by rewrite E].
  - intros j k Hj Hne Hk Hn. rewrite <- (wr_other _ _ _ _ _ _ _ W1 j k) by done.
    pose proof (wr_other _ _ _ _ _ _ _ W2 j k Hj Hne Hk) as E. rewrite with_addrs_ne in E by done. apply E.
    pose proof (wr_slots _ _ _ _ _ _ _ W1 j _ Hj (Hsl k Hk) Hn) as Es. rewrite with_addrs_ne in Es by done. by rewrite Es.
  - intros k Hk. rewrite byte_app by lia. assert (0 <= k < 140 * 512) as Hkr by lia.
    destruct (decide (k < off + Z.of_nat (length x))) as [Hlt|Hge].
    + rewrite (proj2 (Z.ltb_lt _ _)) by lia. destruct (wr_in _ _ _ _ _ _ _ W1 k ltac:(lia)) as [Hn1 Hb1]. split.
      * pose proof (wr_slots _ _ _ _ _ _ _ W2 i _ Hi (Hsl k Hkr)) as E. rewrite !with_addrs_eq in E. by rewrite E.
      * rewrite <- Hb1. pose proof (wr_out _ _ _ _ _ _ _ W2 k Hkr ltac:(lia)) as E. rewrite with_addrs_eq in E. by apply E.
    + rewrite (proj2 (Z.ltb_ge _ _)) by lia. destruct (wr_in _ _ _ _ _ _ _ W2 k ltac:(lia)) as [Hn2 Hb2]. split; [done|].
      rewrite Hb2. f_equal. lia.
  - intros k Hk Hout Hn. rewrite <- (wr_out _ _ _ _ _ _ _ W1 k Hk ltac:(lia) Hn).
    pose proof (wr_out _ _ _ _ _ _ _ W2 k Hk ltac:(lia)) as E. rewrite with_addrs_eq in E. apply E.
    pose proof (wr_slots _ _ _ _ _ _ _ W1 i _ Hi (Hsl k Hk) Hn) as Es. rewrite with_addrs_eq in Es. by rewrite Es.
  - intros c Hc. rewrite (wr_meta _ _ _ _ _ _ _ W2), (wr_meta _ _ _ _ _ _ _ W1) by done. done.
  - intros Hall. assert (ad1 = ads i) as E1 by (apply (wr_same _ _ _ _ _ _ _ W1); intros k Hk; apply Hall; lia).
    rewrite <- E1. rewrite (wr_same _ _ _ _ _ _ _ W2); [by rewrite with_addrs_eq|].
    intros k Hk. assert (0 <= k < 140 * 512) as Hkr by lia. specialize (Hall k ltac:(lia)).
    pose proof (wr_slots _ _ _ _ _ _ _ W1 i _ Hi (Hsl k Hkr) Hall) as Es. by rewrite Es.
Qed.

(** One block's part of a write. *)
Lemma chunk_wrote D ads i off data a D1 ad1 :
  geometry -> fs_ok D ads -> an_inode i -> 0 <= off -> off + Z.of_nat (length data) <= 140 * 512 ->
  0 < Z.of_nat (length data) <= 512 - off mod 512 -> bmap_to D (ads i) (off / 512) = Some (a, D1, ad1) ->
  wrote D ads i off data (fput a (splice (D1 a) (off mod 512) data) D1) ad1.
Proof using.
  intros Hg Hok Hi Ho Hmax Hl E. assert (0 <= off / 512 < 140) as Hbn by (apply div_bound; lia). set (bn := off / 512) in *.
  destruct (bmap_to_ok D ads i bn a D1 ad1 Hg Hok Hi Hbn E) as [O1 [K1 K2 K3] S1 U1 M1]. set (ads1 := with_addrs i ad1 ads) in *.
  assert (ads1 i = ad1) as Ei by apply with_addrs_eq. assert (0 <= off mod 512 < 512) as Hr by (apply Z.mod_pos_bound; lia).
  assert (length (D1 a) = 512%nat) as Hla.
  { apply (fk_len _ _ O1). rewrite <- S1, <- Ei. destruct (fk_slot _ _ O1 i bn Hi ltac:(unfold is_slot; lia) ltac:(by rewrite Ei, S1)). lia. }
  set (v := splice (D1 a) (off mod 512) data).
  assert (length v = 512%nat) as Hv by (unfold v; rewrite length_splice; lia).
  destruct (data_write Hg D1 ads1 O1 i bn v Hi Hbn ltac:(by rewrite Ei, S1) Hv) as (O2 & S2 & T2 & M2). rewrite Ei, S1 in O2, S2, T2, M2.
  set (D2 := fput a v D1) in *. assert (forall k, 0 <= k < 140 * 512 -> is_slot (k / 512)) as Hsl by (intros k Hk; apply div_bound in Hk; unfold is_slot; lia).
  assert (aslot D2 ad1 bn = a) as Sa by (rewrite <- Ei, S2, Ei by done; exact S1).
  assert (forall j k, an_inode j -> 0 <= k < 140 * 512 -> aslot D (ads j) (k / 512) <> 0 -> ~ (j = i /\ k / 512 = bn) -> abyte D2 (ads1 j) k = abyte D (ads j) k) as Hby.
  { intros j k Hj Hk Hn Hne. pose proof (div_bound k Hk) as Hkb. unfold abyte. rewrite S2 by done. pose proof (K1 j _ Hj (Hsl k Hk) Hn) as Es.
    rewrite T2 by (done || by rewrite Es). rewrite decide_False by done. rewrite Es. by rewrite K2. }
  split.
  - done.
  - intros j s Hj Hs Hn. rewrite S2 by done. by apply K1.
  - intros j k Hj Hne Hk Hn. rewrite <- (Hby j k Hj Hk Hn) by (by intros [? _]). unfold ads1. by rewrite with_addrs_ne.
  - intros k Hk. assert (k / 512 = bn) as Ek by (unfold bn; Z.div_mod_to_equations; lia). rewrite Ek, Sa. split; [done|].
    unfold abyte. rewrite Ek, Sa. unfold D2. rewrite fput_eq. unfold v.
    replace (k mod 512) with (off mod 512 + (k - off)) by (unfold bn in Ek; Z.div_mod_to_equations; lia). apply byte_splice_in; lia.
  - intros k Hk Hout Hn. destruct (decide (k / 512 = bn)) as [Ek|Ek].
    + assert (a = aslot D (ads i) bn) as Ea by (rewrite <- S1, <- Ei; apply K1; [done|unfold is_slot; lia|by rewrite <- Ek]).
      unfold abyte. rewrite Ek, Sa, <- Ea. unfold D2. rewrite fput_eq. unfold v. rewrite byte_splice_out.
      * f_equal. rewrite Ea. apply K2; [done|done|by rewrite <- Ea].
      * lia.
      * lia.
      * apply Z.mod_pos_bound. lia.
      * unfold bn in Ek. Z.div_mod_to_equations. lia.
    + rewrite <- (Hby i k Hi Hk Hn) by (by intros [_ ?]). by rewrite Ei.
  - intros c Hc. rewrite M2 by lia. by apply K3.
  - intros Hall. apply M1. specialize (Hall off ltac:(lia)). done.
Qed.
End Fsview.
