(* ===== verification/Fswrite.v ===== *)
(** * Writing files within a transaction

    [balloc], [bmap], [iupdate] and [writei] of fs.c on the blocks of a
    transaction (Fstxn.v): they do to the blocks what the functions of
    Fsview.v say, so that a write changes the file's bytes, and no other
    file. *)

From stdpp Require Import base numbers list gmap strings.
From S2P Require Import Prelude Kernel Spinlock Sched Sleeplock Kalloc Console Umem Str Mkfs Mkfsok.
From S2P Require Import Buf Memide Ring Bio Bcache Log Logsafe Inode Consdev Dir Fsread Fstxn Fsview.

(** Membership in lists that are written out. *)
Ltac member := clear; intros; rewrite ?elem_of_cons, ?elem_of_nil in *; tauto.

Section Fswrite.
Context {DR : Driver} (me : nat) (mp : proc) (size L nlog : Z) {may : Prop} {SD : SyncDisk size may} (B : superblock) (NI : Z).
Implicit Types (H : held) (s : kst) (bs : list Z) (D : Z -> list Z).

Notation txn := (txn me mp size L nlog).
Notation cut_off := (@cut_off may).
Notation spare := (spare nlog).
Notation bm := (sb_bmapstart B).
Notation N := (sb_size B).

(** The layout of the disk that mkfs chose: the super block, the log, the
    inodes, one block of bitmap, the data. *)
Record laid_out : Prop := {
  lo_log : 1 < L /\ 0 <= nlog /\ L + nlog <= sb_inodestart B;
  lo_inodes : forall i, an_inode NI i -> sb_inodestart B <= sb_inodestart B + i / IPB < bm;
  lo_start : sb_inodestart B < bm;
  lo_data : geometry bm N;
  lo_disk : N <= size;
}.
Hypothesis Hlo : laid_out.

Lemma block_ok b : sb_inodestart B <= b < N -> 0 <= b < size /\ ~ in_log L nlog b.
Proof using Hlo. destruct Hlo as [(? & ? & ?) _ _ _ ?]. unfold in_log. lia. Qed.

Lemma spare_le n m bs : spare n bs -> (m <= n)%nat -> spare m bs.
Proof using. intros [? ?] ?. split; lia. Qed.
Lemma spare_add n b bs : spare (S n) bs -> spare n (add_block b bs).
Proof using. intros [? ?]. pose proof (length_add_block b bs). split; lia. Qed.

(** ** balloc *)

Lemma bzero_refines {A} H d0 bs D s b (k : M A) R env :
  txn H d0 bs D s -> sb_inodestart B <= b < N -> not_held H b -> (base.size H <= 1)%nat -> spare 1 bs ->
  (forall s', txn H d0 (add_block b bs) (fput b zero_block D) s' -> rest s s' -> rc (cut_off d0) env (k env s') R) ->
  rc (cut_off d0) env ((bzero 1 b ;; k) env s) R.
Proof using Hlo SD.
  intros Ht Hb Hn Hs Hsp Hk. destruct (block_ok b Hb) as [Hr Hl]. unfold bzero. rewrite bind_assoc.
  pose proof (lo_data Hlo) as (_ & _ & HN). change BPB with 4096 in HN. change (u32 1) with 1. rewrite (u32_small b) by lia.
  eapply (txn_update me mp size L nlog H d0 bs D s b env Ht Hr Hn Hs (fun _ => zero_block)); [done|done|done| |done].
  intros j x s' _ _ _. unfold bind. by repeat case_match; simplify_eq.
Qed.

Lemma balloc_refines H d0 bs D ads s b D' env :
  txn H d0 bs D s -> sb s = B -> fs_ok bm N NI D ads -> not_held H bm -> not_held H b -> (base.size H <= 1)%nat -> spare 2 bs ->
  balloc_to bm N D = Some (b, D') ->
  rc (cut_off d0) env (balloc 1 env s) (fun a s' => a = b /\ txn H d0 (add_block b (add_block bm bs)) D' s' /\ rest s s').
Proof using Hlo SD.
  intros Ht Hsb Hok Hnb Hn Hs Hsp E. pose proof (balloc_to_ok bm N NI (lo_data Hlo) D ads Hok b D' E) as T.
  pose proof (tk_range _ _ _ _ _ _ _ T) as Hr. pose proof (lo_start Hlo) as Hst. destruct (lo_data Hlo) as (G1 & G2 & G3). change BPB with 4096 in G3.
  unfold balloc. rewrite bind_gets, Hsb.
  assert (exists n, Z.to_nat (N / BPB + 2) = S n) as [n ->].
  { exists (Z.to_nat (N / BPB + 1)). change BPB with 4096. assert (0 <= N / 4096) by (apply Z.div_pos; lia). lia. }
  cbn [balloc_loop]. rewrite bind_gets, Hsb, (proj2 (Z.leb_gt _ _)) by lia.
  assert (BBLOCK 0 B = bm) as -> by (unfold BBLOCK; change (0 / BPB) with 0; rewrite u32_small by lia; lia).
  unfold balloc_to in E. destruct (first_free (D bm) N) as [x|] eqn:Ef; [|done]. cbn in E. injection E as -> <-.
  destruct (block_ok bm ltac:(lia)) as [Hbr Hbl].
  eapply (txn_update me mp size L nlog H d0 bs D s bm env Ht Hbr Hnb Hs (bit_set b) _ (bzero 1 (0 + b) ;; ret (0 + b))).
  - apply (spare_le 2); [done|lia].
  - done.
  - unfold bit_set. rewrite length_insert. by apply Hok.
  - intros j y s' Hy Ey R'. rewrite (bind_get_buf _ _ _ _ _ Hy), bind_gets. destruct R' as (_ & -> & _). rewrite Hsb, Ey, Z.sub_0_r, Ef. done.
  - intros s1 Ht1 R1. eapply bzero_refines; [exact Ht1|rewrite Z.add_0_l; lia|done|done|by apply spare_add|].
    rewrite Z.add_0_l. intros s2 Ht2 R2. split; [|done]. split_and!; [done|done|by eapply rest_trans].
Qed.

(** ** bmap *)

(** The blocks of [W] were recorded at most, the blocks are [D'], and inode
    [i] in memory is [ip']. *)
Definition within (W bs bs' : list Z) : Prop := forall x, x ∈ bs' -> x ∈ bs \/ x ∈ W.
Definition steps (W : list Z) (d0 : gmap (Z * Z) (list Z)) bs D' (i : nat) (ip' : inode) s s' : Prop :=
  (exists bs', txn ∅ d0 bs' D' s' /\ within W bs bs') /\ rest (set_icache (<[i := ip']> (icache s)) s) s'.

Lemma within_refl W bs : within W bs bs.
Proof using. intros x Hx. by left. Qed.
Lemma within_add W b bs bs' : b ∈ W -> within W bs bs' -> within W bs (add_block b bs').
Proof using. intros Hb Hw x [->|Hx]%elem_of_add_block; [by right|by apply Hw]. Qed.
Lemma within_trans W bs bs1 bs2 : within W bs bs1 -> within W bs1 bs2 -> within W bs bs2.
Proof using. intros H1 H2 x Hx. destruct (H2 x Hx); [by apply H1|by right]. Qed.
Lemma within_mono W W' bs bs' : (forall x, x ∈ W -> x ∈ W') -> within W bs bs' -> within W' bs bs'.
Proof using. intros HW H x Hx. destruct (H x Hx); [by left|right; by apply HW]. Qed.
Lemma within_length W H d0 bs D s bs0 : txn H d0 bs D s -> within W bs0 bs -> (length bs <= length bs0 + length W)%nat.
Proof using.
  intros Ht Hw. rewrite <- length_app. apply submseteq_length, NoDup_submseteq; [apply Ht|]. intros x Hx. apply elem_of_app. by apply Hw.
Qed.

Lemma rest_icache s s' c : rest s s' -> rest (set_icache c s) (set_icache c s').
Proof using. intros (? & ? & ? & ? & ?). by repeat split. Qed.
Lemma rest_refl s : rest s s.
Proof using. by repeat split. Qed.
Lemma rest_id s i ip : icache s !! i = Some ip -> rest (set_icache (<[i := ip]> (icache s)) s) s.
Proof using. intros Hi. rewrite list_insert_id by done. by repeat split. Qed.
Lemma rest_inode s s' i ip : (i < length (icache s))%nat -> rest (set_icache (<[i := ip]> (icache s)) s) s' -> icache s' !! i = Some ip.
Proof using. intros Hi (E & _). rewrite E. by apply list_lookup_insert_eq. Qed.
Lemma length_icache s s' i ip : rest (set_icache (<[i := ip]> (icache s)) s) s' -> length (icache s') = length (icache s).
Proof using. intros (E & _). rewrite E. apply length_insert. Qed.

(** Two steps make one. *)
Lemma rest_steps s s1 s2 i ip1 ip2 :
  rest (set_icache (<[i := ip1]> (icache s)) s) s1 -> rest (set_icache (<[i := ip2]> (icache s1)) s1) s2 ->
  rest (set_icache (<[i := ip2]> (icache s)) s) s2.
Proof using.
  intros (A1 & A2 & A3 & A4 & A5). apply rest_trans. cbn in *. repeat split; cbn; try done. by rewrite A1, list_insert_insert_eq.
Qed.
Lemma rest_then s s1 s2 i ip : rest (set_icache (<[i := ip]> (icache s)) s) s1 -> rest s1 s2 -> rest (set_icache (<[i := ip]> (icache s)) s) s2.
Proof using. apply rest_trans. Qed.

Section Inode.
Context (d0 : gmap (Z * Z) (list Z)) (bs : list Z) (D : Z -> list Z) (ads : addrs) (s : kst) (i : nat) (ip : inode) (env : list (kst -> kst)).
Hypotheses (Ht : txn ∅ d0 bs D s) (Hsb : sb s = B) (Hok : fs_ok bm N NI D ads) (Hi : icache s !! i = Some ip) (Hdev : i_dev ip = 1).
Hypotheses (Had : i_addrs ip = ads (i_inum ip)) (Hin : an_inode NI (i_inum ip)).

Lemma addr_alloc_refines k a D' ad' :
  spare 2 bs -> addr_to bm N D (i_addrs ip) k = Some (a, D', ad') ->
  rc (cut_off d0) env (addr_alloc i k env s) (fun r s' => r = a /\ steps [bm; a] d0 bs D' i (set_i_addrs ad' ip) s s').
Proof using Hlo SD Ht Hsb Hok Hi Hdev Had Hin.
  intros Hsp E. assert (i < length (icache s))%nat as Hlt by (by eapply lookup_lt_Some).
  unfold addr_alloc. rewrite (bind_get_inode _ _ _ _ _ Hi). unfold addr_to, addr_at in *. destruct (negb _).
  - injection E as <- <- <-. split; [|done]. split; [done|]. split; [exists bs; split; [done|apply within_refl]|].
    assert (set_i_addrs (i_addrs ip) ip = ip) as -> by (by destruct ip). by apply rest_id.
  - destruct (balloc_to bm N D) as [[b D1]|] eqn:Eb; [|done]. cbn in E. injection E as <- <- <-. rewrite Hdev.
    eapply rc_step; [apply (balloc_refines ∅ d0 bs D ads s b D1 env Ht Hsb Hok); try done; [apply not_held_empty..|rewrite map_size_empty; lia]|done|].
    intros r s1 (-> & Ht1 & R1). unfold set_addr, mod_inode. rewrite bind_modify. split; [|done]. split; [done|]. split.
    + exists (add_block b (add_block bm bs)). split; [by apply txn_icache|].
      apply within_add; [member|]. apply within_add; [member|apply within_refl].
    + assert (icache s1 = icache s) as Ei by apply R1. rewrite Ei, (upd_insert _ _ _ _ Hi). by apply rest_icache.
Qed.

Lemma bind_regroup {A} (m n : M unit) (a : Z) (k : Z -> M A) e t :
  bind (bind m (fun _ => bind n (fun _ => ret a))) k e t = bind (bind m (fun _ => n)) (fun _ => k a) e t.
Proof using. unfold bind, ret. destruct (m e t) as [? t' e'| |]; [|done..]. by destruct (n e' t'). Qed.

(** The part of [bmap] with the indirect block. *)
Lemma entry_refines a bn b D1 :
  spare 3 bs -> 12 <= bn < 140 -> a = nth 12 (i_addrs ip) 0 -> a <> 0 -> word_at (D a) (4 * (bn - NDIRECT)) = 0 ->
  balloc_to bm N D = Some (b, D1) ->
  rc (cut_off d0) env
    ((let! bp := bread 1 a in
      let! x := get_buf bp in
      let! addr :=
        (if negb (word_at (b_data x) (4 * (bn - NDIRECT)) =? 0) then ret (word_at (b_data x) (4 * (bn - NDIRECT))) else
         let! a := balloc 1 in
         mod_data bp (fun d => set_word d (4 * (bn - NDIRECT)) a) ;;
         log_write bp ;;
         ret a) in
      brelse bp ;;
      ret addr) env s)
    (fun r s' => r = b /\ exists bs', txn ∅ d0 bs' (fput a (set_word (D1 a) (4 * (bn - NDIRECT)) b) D1) s' /\ within [bm; b; a] bs bs' /\ rest s s').
Proof using Hlo SD Ht Hsb Hok Had Hin.
  intros Hsp Hbn Ea Hn Hz Eb. pose proof (balloc_to_ok bm N NI (lo_data Hlo) D ads Hok b D1 Eb) as T.
  assert (bm < a < N) as Hr by (rewrite Ea, Had; apply (indirect_used bm N NI D ads Hok _ Hin); by rewrite <- Had, <- Ea).
  assert (a <> b) as Hab.
  { rewrite Ea, Had. apply (tk_new _ _ _ _ _ _ _ T (i_inum ip) (-1) Hin). unfold is_slot. lia. }
  assert (D1 a = D a) as EDa by (apply T; [done|lia]). pose proof (lo_start Hlo) as Hst. destruct (block_ok a ltac:(lia)) as [Har Hal].
  eapply rc_step; [apply (txn_bread me mp size L nlog ∅ d0 bs D s a env Ht Har (not_held_empty _)); [rewrite map_size_empty; lia|apply (spare_le 3); [done|lia]]|done|].
  intros j s1 (_ & Ht1 & R1 & x & Hx & Ex). rewrite (bind_get_buf _ _ _ _ _ Hx), Ex, Hz. cbn [Z.eqb negb]. rewrite bind_assoc.
  eapply rc_step; [apply (balloc_refines _ d0 bs D ads s1 b D1 env Ht1)|done|]; try done.
  - destruct R1 as (_ & -> & _). done.
  - apply not_held_one. lia.
  - by apply not_held_one.
  - rewrite insert_empty, map_size_singleton. lia.
  - apply (spare_le 3); [done|lia].
  - intros r s2 (-> & Ht2 & R2). rewrite bind_regroup.
    eapply rc_step; [apply (txn_write me mp size L nlog _ d0 _ D1 s2 j a (D a) (fun d => set_word d (4 * (bn - NDIRECT)) b) env Ht2)|done|].
    + apply lookup_insert_eq.
    + done.
    + done.
    + pose proof (fk_len _ _ _ _ _ Hok a ltac:(lia)) as Hl. unfold NDIRECT. rewrite length_set_word by lia. done.
    + by apply spare_add, spare_add.
    + intros _ s3 [Ht3 R3]. rewrite insert_insert_eq in Ht3. set (bs3 := add_block a _) in *.
      eapply rc_step; [apply (txn_brelse me mp size L nlog _ d0 bs3 _ s3 j a env Ht3); by rewrite lookup_insert_eq, fput_eq|done|].
      intros _ s4 [Ht4 R4]. rewrite delete_insert_id in Ht4 by apply lookup_empty. split; [|done]. split; [done|]. exists bs3.
      rewrite EDa. split_and!; [done| |by eapply rest_trans; [|eapply rest_trans; [|eapply rest_trans]]].
      do 3 (apply within_add; [member|]). apply within_refl.
Qed.
End Inode.

Lemma bmap_refines d0 bs D ads s i ip bn a D' ad' env :
  txn ∅ d0 bs D s -> sb s = B -> fs_ok bm N NI D ads -> icache s !! i = Some ip -> i_dev ip = 1 ->
  i_addrs ip = ads (i_inum ip) -> an_inode NI (i_inum ip) -> 0 <= bn < 140 -> spare 5 bs ->
  bmap_to bm N D (i_addrs ip) bn = Some (a, D', ad') ->
  rc (cut_off d0) env (bmap i bn env s) (fun r s' => r = a /\ steps [bm; nth 12 ad' 0; a] d0 bs D' i (set_i_addrs ad' ip) s s').
Proof using Hlo SD.
  intros Ht Hsb Hok Hi Hdev Had Hin Hbn Hsp E. assert (i < length (icache s))%nat as Hlt by (by eapply lookup_lt_Some).
  unfold bmap, bmap_to in *. destruct (Z.ltb_spec bn NDIRECT) as [Hd|Hd].
  { eapply rc_mono; [apply (addr_alloc_refines d0 bs D ads s i ip env Ht Hsb Hok Hi Hdev Had Hin bn a D' ad'); [apply (spare_le 5); [done|lia]|done]|done|].
    intros r s' [-> [(bs' & Ht' & Hw) R]]. split; [done|]. split; [|done]. exists bs'. split; [done|].
    eapply within_mono; [|exact Hw]. member. }
  change NINDIRECT with 128. unfold NDIRECT in Hd. rewrite (proj2 (Z.ltb_lt (bn - NDIRECT) 128)) by (unfold NDIRECT; lia).
  destruct (addr_to bm N D (i_addrs ip) NDIRECT) as [[[a1 D1] ad1]|] eqn:E1; [|done]. cbn [mbind option_bind] in E.
  eapply rc_step; [apply (addr_alloc_refines d0 bs D ads s i ip env Ht Hsb Hok Hi Hdev Had Hin NDIRECT a1 D1 ad1); [apply (spare_le 5); [done|lia]|done]|done|].
  intros r s1 (-> & (bs1 & Ht1 & Hw1) & R1). pose proof (within_length _ _ _ _ _ _ _ Ht1 Hw1) as Hl1. cbn [length] in Hl1. set (ip1 := set_i_addrs ad1 ip) in *.
  assert (icache s1 !! i = Some ip1) as Hi1 by (by eapply rest_inode). assert (sb s1 = B) as Hsb1 by (by destruct R1 as (_ & -> & _)).
  rewrite (bind_get_inode _ _ _ _ _ Hi1). change (i_dev ip1) with (i_dev ip). rewrite Hdev.
  rewrite Had in E1. destruct (addr_to_ok bm N NI D ads (i_inum ip) 12 a1 D1 ad1 (lo_data Hlo) Hok Hin ltac:(lia) E1) as [O1 _ S1 U1 _].
  cbn [Z.eqb Pos.eqb] in S1. rewrite aslot_indirect in S1. assert (spare 3 bs1) as Hsp1 by (destruct Hsp; split; lia).
  assert (i_addrs ip1 = with_addrs (i_inum ip1) ad1 ads (i_inum ip1)) as Had1 by (by rewrite with_addrs_eq).
  destruct (Z.eqb_spec (word_at (D1 a1) (4 * (bn - NDIRECT))) 0) as [Hz|Hn]; cbn [negb] in E.
  - destruct (balloc_to bm N D1) as [[b D2]|] eqn:Eb; [|done]. cbn in E. injection E as <- <- <-.
    eapply rc_mono; [apply (entry_refines d0 bs1 D1 (with_addrs (i_inum ip) ad1 ads) s1 ip1 env Ht1 Hsb1 O1 Had1 Hin a1 bn b D2 Hsp1); [lia|by rewrite <- S1|done|done|done]|done|].
    intros r s2 (-> & bs2 & Ht2 & Hw2 & R2). split; [done|]. split; [|by eapply rest_then]. exists bs2. split; [done|]. rewrite S1.
    eapply within_trans; [eapply within_mono; [|exact Hw1]; member|eapply within_mono; [|exact Hw2]; member].
  - injection E as <- <- <-. assert (bm < a1 < N) as Hr.
    { pose proof (indirect_used bm N NI D1 _ O1 (i_inum ip) Hin) as H. rewrite with_addrs_eq, S1 in H. by apply H. }
    pose proof (lo_start Hlo) as Hst. destruct (block_ok a1 ltac:(lia)) as [Har Hal].
    eapply (txn_read me mp size L nlog ∅ d0 bs1 D1 s1 a1 env Ht1 Har (not_held_empty _) ltac:(rewrite map_size_empty; lia) _ (ret (word_at (D1 a1) (4 * (bn - NDIRECT))))).
    + apply (spare_le 3); [done|lia].
    + intros j x s' Hx Ex _. rewrite (bind_get_buf _ _ _ _ _ Hx), Ex, (proj2 (Z.eqb_neq _ _)) by done. done.
    + intros s2 Ht2 R2. split; [|done]. split; [done|]. split; [|by eapply rest_then]. exists bs1. split; [done|]. rewrite S1.
      eapply within_mono; [|exact Hw1]. member.
Qed.

(** ** writei *)

(** The blocks a write may record: the bitmap, the indirect block, and its
    own. *)
Definition recorded_by (ad : list Z) (ds : list Z) : list Z := bm :: 0 :: nth 12 ad 0 :: ds.

Lemma recorded_mono ad ad' ds ds' :
  (nth 12 ad 0 <> 0 -> nth 12 ad' 0 = nth 12 ad 0) -> (forall x, x ∈ ds -> x ∈ ds') ->
  forall x, x ∈ recorded_by ad ds -> x ∈ recorded_by ad' ds'.
Proof using.
  intros Hi Hd x. unfold recorded_by. rewrite !elem_of_cons. intros [->|[->|[->|Hx]]]; [tauto|tauto| |by auto].
  destruct (decide (nth 12 ad 0 = 0)) as [E|E]; [rewrite E; tauto|rewrite (Hi E); tauto].
Qed.

(** Part of a write was done. *)
Record written (d0 : gmap (Z * Z) (list Z)) (bs0 ds : list Z) D (ads : addrs) (i : nat) (ip : inode) s : Prop := {
  wn_txn : exists bs, txn ∅ d0 bs D s /\ within (recorded_by (i_addrs ip) ds) bs0 bs;
  wn_sb : sb s = B;
  wn_ok : fs_ok bm N NI D ads;
  wn_inode : icache s !! i = Some ip;
  wn_dev : i_dev ip = 1;
  wn_addrs : i_addrs ip = ads (i_inum ip);
  wn_inum : an_inode NI (i_inum ip);
}.

(** One turn of the loop: [data] goes to the block of offset [off]. *)
Lemma chunk_step {A} d0 bs0 ds D ads i ip s off data (src : M (list Z)) (k : M A) R env :
  (forall t, umem t = umem s -> src env t = Ok data t env) -> written d0 bs0 ds D ads i ip s -> 0 <= off -> off + Z.of_nat (length data) <= 140 * 512 -> 0 < Z.of_nat (length data) <= 512 - off mod 512 ->
  (2 <= free_count bm N D)%nat -> spare (9 + length ds) bs0 ->
  (forall a D' ad' s', let ip' := set_i_addrs ad' ip in
     wrote bm N NI D ads (i_inum ip) off data D' ad' -> (free_count bm N D <= 2 + free_count bm N D')%nat ->
     written d0 bs0 (a :: ds) D' (with_addrs (i_inum ip) ad' ads) i ip' s' -> rest (set_icache (<[i := ip']> (icache s)) s) s' ->
     rc (cut_off d0) env (k env s') R) ->
  rc (cut_off d0) env
    ((let! a := bmap i (off / BSIZE) in
      let! ip := get_inode i in
      let! bp := bread (i_dev ip) a in
      let! bs := src in
      mod_data bp (fun d => splice d (off mod BSIZE) bs) ;;
      log_write bp ;;
      brelse bp ;;
      k) env s) R.
Proof using Hlo SD.
  intros Hsrc [(bs & Ht & Hw) Hsb Hok Hi Hdev Had Hin] Ho Hmax Hlen Hfc Hsp Hk. change BSIZE with 512.
  assert (0 <= off / 512 < 140) as Hbn by (apply div_bound; lia). assert (i < length (icache s))%nat as Hlt by (by eapply lookup_lt_Some).
  destruct (bmap_to_Some bm N NI D ads (i_inum ip) (off / 512) (lo_data Hlo) Hok Hin Hbn Hfc) as (a & D1 & ad1 & E & Hfc1).
  pose proof (within_length _ _ _ _ _ _ _ Ht Hw) as Hl. unfold recorded_by in Hl. cbn [length] in Hl.
  assert (spare 6 bs) as Hsp6 by (destruct Hsp; split; lia).
  eapply rc_step; [apply (bmap_refines d0 bs D ads s i ip (off / 512) a D1 ad1 env Ht Hsb Hok Hi Hdev Had Hin Hbn)|done|]; [apply (spare_le 6); [done|lia]|by rewrite Had|].
  intros r s1 (-> & (bs1 & Ht1 & Hw1) & R1). set (ip1 := set_i_addrs ad1 ip) in *.
  assert (icache s1 !! i = Some ip1) as Hi1 by (by eapply rest_inode). assert (sb s1 = B) as Hsb1 by (by destruct R1 as (_ & -> & _)).
  rewrite (bind_get_inode _ _ _ _ _ Hi1). change (i_dev ip1) with (i_dev ip). rewrite Hdev.
  pose proof (bmap_to_ok bm N NI D ads (i_inum ip) (off / 512) a D1 ad1 (lo_data Hlo) Hok Hin Hbn E) as [O1 K1 S1 U1 M1].
  assert (bm < a < N) as Hr.
  { rewrite <- S1, <- (with_addrs_eq (i_inum ip) ad1 ads). apply (fk_slot _ _ _ _ _ O1); [done|unfold is_slot; lia|by rewrite with_addrs_eq, S1]. }
  pose proof (lo_start Hlo) as Hst. destruct (block_ok a ltac:(lia)) as [Har Hal].
  assert (within (recorded_by ad1 (a :: ds)) bs0 bs1) as Hw01.
  { eapply within_trans; [eapply within_mono; [|exact Hw]|eapply within_mono; [|exact Hw1]].
    - apply recorded_mono; [|member]. intros Hn. rewrite Had in *. pose proof (kp_slot _ _ _ _ _ _ K1 (i_inum ip) (-1) Hin) as Es.
      rewrite with_addrs_eq, !aslot_indirect in Es. apply Es; [unfold is_slot; lia|done].
    - unfold recorded_by. member. }
  pose proof (within_length _ _ _ _ _ _ _ Ht1 Hw01) as Hl1. unfold recorded_by in Hl1. cbn [length] in Hl1.
  pose proof (chunk_wrote bm N NI D ads (i_inum ip) off data a D1 ad1 (lo_data Hlo) Hok Hin Ho Hmax Hlen E) as W.
  eapply (txn_update me mp size L nlog ∅ d0 bs1 D1 s1 a env Ht1 Har (not_held_empty _) ltac:(rewrite map_size_empty; lia) (fun d => splice d (off mod 512) data)).
  - destruct Hsp. split; lia.
  - done.
  - pose proof (fk_len _ _ _ _ _ O1 a ltac:(lia)). rewrite length_splice; [done| |lia]. apply Z.mod_pos_bound. lia.
  - intros j x s' _ _ R'. erewrite bind_ok; [done|]. apply Hsrc. destruct R' as (_ & _ & -> & _). by destruct R1 as (_ & _ & -> & _).
  - intros s2 Ht2 R2. apply (Hk a _ ad1 s2 W); [|split|by eapply rest_then]; try done.
    + rewrite (free_count_ext bm N D1 (fput a _ D1)); [done|]. by rewrite fput_ne by lia.
    + exists (add_block a bs1). split; [done|]. apply within_add; [|done]. unfold recorded_by. member.
    + by destruct R2 as (_ & -> & _).
    + apply W.
    + by destruct R2 as (-> & _).
    + by rewrite with_addrs_eq.
Qed.

(** [c] blocks are enough for the rest of the data. *)
Definition room_for (c : nat) (off rest : Z) : Prop := rest = 0 \/ off + rest <= (off / 512 + Z.of_nat c) * 512.

Lemma set_addrs_twice a b ip : set_i_addrs a (set_i_addrs b ip) = set_i_addrs a ip.
Proof using. by destruct ip. Qed.
Lemma set_addrs_id ip : set_i_addrs (i_addrs ip) ip = ip.
Proof using. by destruct ip. Qed.

(** The state after the write of [data] from [off] on. *)
Definition after_write d0 bs0 (ds : list Z) D (ads : addrs) (i : nat) (ip : inode) (off : Z) (data : list Z) (c : nat) s s' : Prop :=
  exists D' ad' ds',
    wrote bm N NI D ads (i_inum ip) off data D' ad' /\
    written d0 bs0 ds' D' (with_addrs (i_inum ip) ad' ads) i (set_i_addrs ad' ip) s' /\ (length ds' <= length ds + c)%nat /\
    (free_count bm N D <= free_count bm N D' + 2 * c)%nat /\
    rest (set_icache (<[i := set_i_addrs ad' ip]> (icache s)) s) s'.

Lemma after_nothing d0 bs0 ds D ads i ip off c s :
  written d0 bs0 ds D ads i ip s -> after_write d0 bs0 ds D ads i ip off [] c s s.
Proof using.
  intros [Hw1 Hw2 Hw3 Hw4 Hw5 Hw6 Hw7]. exists D, (ads (i_inum ip)), ds. rewrite <- Hw6, set_addrs_id.
  split_and!; [rewrite Hw6; by apply wrote_nil| |lia|lia|by apply rest_id]. split; try done; [|by rewrite with_addrs_eq].
  apply (fs_ok_ext bm N NI D ads); [|done]. intros. rewrite Hw6. apply with_addrs_same.
Qed.

(** A chunk and the rest. *)
Lemma after_app d0 bs0 ds D ads i ip off x y c s D1 ad1 s1 a s2 :
  an_inode NI (i_inum ip) -> 0 <= off -> off + Z.of_nat (length x) + Z.of_nat (length y) <= 140 * 512 ->
  wrote bm N NI D ads (i_inum ip) off x D1 ad1 -> (free_count bm N D <= 2 + free_count bm N D1)%nat -> rest (set_icache (<[i := set_i_addrs ad1 ip]> (icache s)) s) s1 ->
  after_write d0 bs0 (a :: ds) D1 (with_addrs (i_inum ip) ad1 ads) i (set_i_addrs ad1 ip) (off + Z.of_nat (length x)) y c s1 s2 ->
  after_write d0 bs0 ds D ads i ip off (x ++ y) (S c) s s2.
Proof using.
  intros Hin Ho Hmax W Hfc R (D2 & ad2 & ds2 & W2 & Hwn & Hl & Hfc2 & R2). change (i_inum (set_i_addrs ad1 ip)) with (i_inum ip) in *.
  rewrite set_addrs_twice in Hwn, R2. exists D2, ad2, ds2. split_and!; [by eapply wrote_app| |cbn in Hl; lia|lia|by eapply rest_steps].
  destruct Hwn as [Hw1 Hw2 Hw3 Hw4 Hw5 Hw6 Hw7]. split; try done; [|by rewrite with_addrs_eq].
  eapply fs_ok_ext; [|exact Hw3]. intros j. by rewrite with_addrs_twice.
Qed.

(** The source of a write has the bytes [data], as long as the memory that
    user addresses lead to is [u]. *)
Definition gives (u : gmap Z Z * Z) (src : Z -> nat -> M (list Z)) (data : list Z) : Prop := forall env t tot m,
  umem t = u -> 0 <= tot -> tot + Z.of_nat m <= Z.of_nat (length data) -> src tot m env t = Ok (slice data tot (Z.of_nat m)) t env.

Lemma local_gives u data : gives u (from_local data) data.
Proof using. by intros env t tot m _ _ _. Qed.

Lemma writei_loop_writes d0 bs0 u src data i : gives u src data -> forall fuel D ads s ip ds off tot c env,
  let n := Z.of_nat (length data) in
  written d0 bs0 ds D ads i ip s -> umem s = u -> 0 <= off -> 0 <= tot <= n -> off + (n - tot) <= 140 * 512 -> n - tot <= Z.of_nat fuel ->
  room_for c off (n - tot) -> (2 * c <= free_count bm N D)%nat -> spare (9 + length ds + c) bs0 ->
  rc (cut_off d0) env (writei_loop fuel i src off n tot env s)
    (fun r s' => r = off + (n - tot) /\ after_write d0 bs0 ds D ads i ip off (drop (Z.to_nat tot) data) c s s').
Proof using Hlo SD.
  intros Hsrc. induction fuel as [|fuel IH]; intros D ads s ip ds off tot c env n Hwn Hu Ho Htot Hmax Hf Hc Hfc Hsp; cbn [writei_loop].
  all: destruct (Z.leb_spec n tot) as [Hle|Hgt]; [|try lia].
  1, 2: assert (tot = n) as -> by lia; rewrite Z.sub_diag, Z.add_0_r; unfold n; rewrite Nat2Z.id, drop_all;
    (split; [|done]); (split; [done|by apply after_nothing]).
  assert (0 <= off mod 512 < 512) as Hr by (apply Z.mod_pos_bound; lia).
  set (m := Z.min (n - tot) (BSIZE - off mod BSIZE)). assert (m = Z.min (n - tot) (512 - off mod 512)) as Em by done. clearbody m.
  assert (0 < m <= n - tot /\ m <= 512 - off mod 512) as Hm by lia.
  set (rem := drop (Z.to_nat tot) data). assert (Z.of_nat (length rem) = n - tot) as Hrem by (unfold rem, n; rewrite length_drop; lia).
  set (x := take (Z.to_nat m) rem). assert (Z.of_nat (length x) = m) as Hx by (unfold x; rewrite length_take; lia).
  assert (c <> 0%nat) as Hc0 by (intros ->; destruct Hc as [?|Hc]; [lia|]; Z.div_mod_to_equations; lia).
  destruct c as [|c]; [done|]. pose proof Hwn as [_ _ _ _ _ _ Hin].
  apply (chunk_step d0 bs0 ds D ads i ip s off x (src tot (Z.to_nat m)) (writei_loop fuel i src (off + m) n (tot + m))).
  { intros t Et. rewrite Hsrc by (congruence || fold n; lia). unfold slice. by rewrite Nat2Z.id. }
  { done. } { done. } { lia. } { lia. } { lia. } { destruct Hsp. split; lia. }
  intros a D1 ad1 s1 ip1 W Hfc1 Hwn1 R1.
  eapply rc_mono; [apply (IH D1 (with_addrs (i_inum ip) ad1 ads) s1 ip1 (a :: ds) (off + m) (tot + m) c env Hwn1); try lia|done|].
  - destruct R1 as (_ & _ & -> & _). done.
  - destruct Hc as [?|Hc]; [lia|]. destruct (decide (m = n - tot)); [left; lia|right].
    assert ((off + m) / 512 = off / 512 + 1) as -> by (clear - Em n0 Hm Ho; Z.div_mod_to_equations; lia). fold n. lia.
  - destruct Hsp. split; cbn [length]; lia.
  - intros r s2 (-> & Ha). split; [fold n; lia|]. rewrite <- (take_drop (Z.to_nat m) rem). fold x.
    apply (after_app d0 bs0 ds D ads i ip off x _ c s D1 ad1 s1 a s2); [done|done|rewrite length_drop; lia|done|done|done|].
    rewrite Hx. unfold rem. rewrite drop_drop, <- Z2Nat.inj_add by lia. exact Ha.
Qed.
End Fswrite.
