(* ===== verification/Fsfile.v ===== *)
(** * Files on the disk, and atomic writes to them

    [file_at D inum] is the contents of a file as the blocks [D] of the disk
    have it, by the inode and its addresses.  [writei] replaces a part of it
    (or extends it), and changes no other file; within [begin_op] and
    [end_op] it does so atomically, whenever the power fails. *)

From stdpp Require Import base numbers list gmap strings.
From S2P Require Import Prelude Kernel Spinlock Sched Sleeplock Kalloc Console Umem Str Mkfs Mkfsok.
From S2P Require Import Buf Memide Ring Bio Bcache Log Logsafe Crash Inode Consdev Dir Fsread Fstxn Fsview Fswrite.

(** ** Files *)

Section Files.
Context (B : superblock) (NI : Z).
Notation bm := (sb_bmapstart B).
Notation N := (sb_size B).

Definition disk_inode (D : Z -> list Z) (inum : Z) : dinode := di_at (D (IBLOCK inum B)) (di_off inum).
Definition disk_addrs (D : Z -> list Z) (inum : Z) : list Z := di_addrs (disk_inode D inum).
Definition file_size (D : Z -> list Z) (inum : Z) : Z := di_size (disk_inode D inum).
Definition file_at (D : Z -> list Z) (inum : Z) : list Z := abyte D (disk_addrs D inum) <$> seqZ 0 (file_size D inum).

(** All of the file's blocks are there. *)
Definition whole (D : Z -> list Z) (inum : Z) : Prop :=
  0 <= file_size D inum <= 140 * 512 /\ forall k, 0 <= k < file_size D inum -> aslot D (disk_addrs D inum) (k / 512) <> 0.

(** A file system: blocks are used once and marked, and inodes hold numbers
    of their width. *)
Record fs_wf (D : Z -> list Z) : Prop := {
  fw_ok : fs_ok bm N NI D (disk_addrs D);
  fw_len : forall b, sb_inodestart B <= b -> length (D b) = 512%nat;
  fw_di : forall i, an_inode NI i -> di_ok (disk_inode D i);
}.

(** What a write to inode [inum] leaves alone. *)
Definition others_kept (inum : Z) (D D' : Z -> list Z) : Prop :=
  forall j, an_inode NI j -> j <> inum -> disk_inode D' j = disk_inode D j /\ (whole D j -> whole D' j /\ file_at D' j = file_at D j).

Lemma length_file_at D inum : 0 <= file_size D inum -> Z.of_nat (length (file_at D inum)) = file_size D inum.
Proof using. intros H. unfold file_at. rewrite length_fmap, length_seqZ. lia. Qed.

Lemma byte_file_at D inum k : 0 <= k < file_size D inum -> byte (file_at D inum) k = abyte D (disk_addrs D inum) k.
Proof using.
  intros Hk. unfold byte, file_at. apply nth_lookup_Some. rewrite list_lookup_fmap, lookup_seqZ_lt by lia. cbn. do 2 f_equal. lia.
Qed.

(** Two lists of the same bytes. *)
Lemma bytes_eq a b : length a = length b -> (forall k, 0 <= k < Z.of_nat (length a) -> byte a k = byte b k) -> a = b.
Proof using.
  intros Hl Hb. apply list_eq. intros k. destruct (decide (k < length a)%nat) as [Hk|Hk].
  - destruct (lookup_lt_is_Some_2 a k Hk) as [x Hx]. destruct (lookup_lt_is_Some_2 b k ltac:(lia)) as [y Hy]. rewrite Hx, Hy.
    specialize (Hb (Z.of_nat k) ltac:(lia)). unfold byte in Hb. rewrite Nat2Z.id, (nth_lookup_Some _ _ _ _ Hx), (nth_lookup_Some _ _ _ _ Hy) in Hb. by rewrite Hb.
  - by rewrite !lookup_ge_None_2 by lia.
Qed.

(** [splice] may extend the list. *)
Lemma byte_splice_ext d off bs k : 0 <= off <= Z.of_nat (length d) -> 0 <= k ->
  byte (splice d off bs) k = if (off <=? k) && (k <? off + Z.of_nat (length bs)) then byte bs (k - off) else byte d k.
Proof using.
  intros Ho Hk. unfold splice. rewrite byte_app by done. rewrite length_take.
  destruct (Z.leb_spec off k) as [H1|H1]; cbn [andb].
  - rewrite (proj2 (Z.ltb_ge _ _)) by lia. rewrite byte_app by lia. replace (k - Z.of_nat (Z.to_nat off `min` length d)) with (k - off) by lia.
    destruct (Z.ltb_spec k (off + Z.of_nat (length bs))) as [H2|H2]; [by rewrite (proj2 (Z.ltb_lt _ _)) by lia|].
    rewrite (proj2 (Z.ltb_ge _ _)) by lia. unfold byte. rewrite nth_skipn. f_equal. lia.
  - rewrite (proj2 (Z.ltb_lt _ _)) by lia. unfold byte. rewrite nth_firstn. by rewrite (proj2 (Nat.ltb_lt _ _)) by lia.
Qed.
Lemma length_splice_ext d off bs : 0 <= off <= Z.of_nat (length d) ->
  Z.of_nat (length (splice d off bs)) = Z.max (Z.of_nat (length d)) (off + Z.of_nat (length bs)).
Proof using. intros Ho. unfold splice. rewrite !length_app, length_take, length_drop. lia. Qed.

(** ** The inode block *)

(** The inodes are in blocks below the bitmap. *)
Hypothesis Hinodes : forall i, an_inode NI i -> 0 <= sb_inodestart B <= sb_inodestart B + i / IPB /\ sb_inodestart B + i / IPB < bm.
Hypothesis Hgeo : geometry bm N.

Lemma inode_block_ok i : an_inode NI i -> IBLOCK i B = sb_inodestart B + i / 8 /\ 0 <= sb_inodestart B <= IBLOCK i B /\ IBLOCK i B < bm /\ 0 <= di_off i /\ di_off i + 64 <= 512.
Proof using Hinodes Hgeo.
  intros Hi. specialize (Hinodes i Hi). destruct Hgeo as (G1 & G2 & G3). change BPB with 4096 in G3. unfold IBLOCK, di_off.
  change IPB with 8 in *. change SIZEOF_DINODE with 64. rewrite Z.add_comm, u32_small by lia. split_and!; try lia; Z.div_mod_to_equations; lia.
Qed.

(** What [iupdate] does to the blocks. *)
Definition put_inode (inum : Z) (d : dinode) (D : Z -> list Z) : Z -> list Z :=
  fput (IBLOCK inum B) (splice (D (IBLOCK inum B)) (di_off inum) (di_bytes d)) D.

Lemma length_put_inode inum d D : an_inode NI inum -> di_ok d -> length (D (IBLOCK inum B)) = 512%nat ->
  length (splice (D (IBLOCK inum B)) (di_off inum) (di_bytes d)) = 512%nat.
Proof using Hinodes Hgeo.
  intros Hi Hd Hl. destruct (inode_block_ok inum Hi) as (_ & _ & _ & H1 & H2). rewrite length_splice; rewrite ?length_di_bytes by done; lia.
Qed.

Lemma disk_inode_put inum d D j :
  an_inode NI inum -> an_inode NI j -> di_ok d -> length (D (IBLOCK inum B)) = 512%nat ->
  disk_inode (put_inode inum d D) j = if decide (j = inum) then d else disk_inode D j.
Proof using Hinodes Hgeo.
  intros Hi Hj Hd Hl. destruct (inode_block_ok inum Hi) as (E1 & _ & _ & H1 & H2). destruct (inode_block_ok j Hj) as (E2 & _ & _ & H3 & H4).
  unfold disk_inode, put_inode. destruct (decide (j = inum)) as [->|Hne].
  { rewrite fput_eq. apply di_at_bytes; [done|done|]. rewrite Hl. lia. }
  destruct (decide (IBLOCK j B = IBLOCK inum B)) as [E|E]; [|by rewrite fput_ne].
  rewrite E, fput_eq. apply di_at_ext; [lia|]. intros k Hk.
  apply byte_splice_out; rewrite ?length_di_bytes, ?Hl by done; try lia.
  rewrite E1, E2 in E. unfold di_off in *. change IPB with 8 in *. change SIZEOF_DINODE with 64 in *. Z.div_mod_to_equations. lia.
Qed.

(** ** A write and its inode *)

Section Written.
Context (D : Z -> list Z) (inum off : Z) (data : list Z) (D1 : Z -> list Z) (ad1 : list Z).
Hypotheses (Hwf : fs_wf D) (Hin : an_inode NI inum) (Hwh : whole D inum) (Hoff : 0 <= off <= file_size D inum).
Hypotheses (Hmax : off + Z.of_nat (length data) <= 140 * 512) (W : wrote bm N NI D (disk_addrs D) inum off data D1 ad1).

Let size' := Z.max (file_size D inum) (off + Z.of_nat (length data)).
Let d := disk_inode D inum.
Let d' := mkdi (di_type d) (di_major d) (di_minor d) (di_nlink d) size' ad1.

(** The blocks after the write, with the inode as it should be. *)
Context (D2 : Z -> list Z).
Hypotheses (Hdata : forall c, bm <= c -> D2 c = D1 c) (Hlen : forall c, sb_inodestart B <= c -> length (D2 c) = 512%nat) (Hst : sb_inodestart B <= bm).
Hypothesis (Hino : forall j, an_inode NI j -> disk_inode D2 j = if decide (j = inum) then d' else disk_inode D j).

Lemma new_inode_ok : di_ok d'.
Proof using Hwf Hin W Hwh Hoff Hmax.
  destruct (fw_di _ Hwf inum Hin) as [? ? ? ? ? ? ?]. destruct (fk_addrs _ _ _ _ _ (wr_ok _ _ _ _ _ _ _ _ _ _ W) inum Hin) as [Hl Hu].
  rewrite with_addrs_eq in Hl, Hu. destruct Hwh as [Hs _]. split; try done. unfold uint_ok, size'. cbn [di_size d']. lia.
Qed.

Lemma new_addrs j : an_inode NI j -> disk_addrs D2 j = with_addrs inum ad1 (disk_addrs D) j.
Proof using Hino. intros Hj. unfold disk_addrs at 1, with_addrs. rewrite Hino by done. by case_decide. Qed.

Lemma new_slot j s : an_inode NI j -> aslot D2 (disk_addrs D2 j) s = aslot D1 (with_addrs inum ad1 (disk_addrs D) j) s.
Proof using Hino Hdata W.
  intros Hj. rewrite new_addrs by done. set (ad := with_addrs inum ad1 (disk_addrs D) j).
  destruct (decide (nth 12 ad 0 = 0)) as [E|E].
  - unfold aslot. change (Z.to_nat NDIRECT) with 12%nat. by rewrite E.
  - apply aslot_ext, Hdata. pose proof (indirect_used bm N NI D1 _ (wr_ok _ _ _ _ _ _ _ _ _ _ W) j Hj E) as Hu. fold ad in Hu. lia.
Qed.

Lemma new_byte j k : an_inode NI j -> 0 <= k < 140 * 512 -> aslot D2 (disk_addrs D2 j) (k / 512) <> 0 ->
  abyte D2 (disk_addrs D2 j) k = abyte D1 (with_addrs inum ad1 (disk_addrs D) j) k.
Proof using Hino Hdata W.
  intros Hj Hk Hn. pose proof (div_bound k Hk) as Hb. unfold abyte. rewrite new_slot in Hn |- * by done. f_equal. apply Hdata.
  destruct (fk_slot _ _ _ _ _ (wr_ok _ _ _ _ _ _ _ _ _ _ W) j (k / 512) Hj ltac:(unfold is_slot; lia) Hn). lia.
Qed.

Lemma new_wf : fs_wf D2.
Proof using Hwf Hin W Hwh Hoff Hmax Hino Hdata Hlen Hgeo Hst.
  pose proof (wr_ok _ _ _ _ _ _ _ _ _ _ W) as O1. assert (forall b, is_free bm D2 b = is_free bm D1 b) as Hf by (intros b; unfold is_free; by rewrite Hdata).
  split; [split|done|].
  - intros b Hb. apply Hlen. lia.
  - intros b Hb. rewrite Hf. by apply O1.
  - intros i Hi. rewrite new_addrs by done. by apply O1.
  - intros i s Hi Hs. rewrite new_slot, Hf by done. by apply O1.
  - intros i i' s s' Hi Hi' Hs Hs'. rewrite !new_slot by done. by apply O1.
  - intros i Hi. rewrite Hino by done. case_decide; [apply new_inode_ok|by apply Hwf].
Qed.

Lemma new_size : file_size D2 inum = size'.
Proof using Hino Hin. unfold file_size. by rewrite Hino, decide_True by done. Qed.

(** The bytes of the file: the new ones, and the old ones elsewhere. *)
Lemma new_file_byte k : 0 <= k < size' ->
  aslot D2 (disk_addrs D2 inum) (k / 512) <> 0 /\ abyte D2 (disk_addrs D2 inum) k = byte (splice (file_at D inum) off data) k.
Proof using Hwh Hoff Hmax W Hino Hdata Hin.
  intros Hk. destruct Hwh as [Hs Hw]. unfold size' in Hk. assert (0 <= k < 140 * 512) as Hkr by lia. pose proof (div_bound k Hkr) as Hb.
  assert (is_slot (k / 512)) as Hsl by (unfold is_slot; lia).
  assert (aslot D2 (disk_addrs D2 inum) (k / 512) <> 0 /\ abyte D1 ad1 k = byte (splice (file_at D inum) off data) k) as [Hn Hby].
  - rewrite new_slot, with_addrs_eq, byte_splice_ext by (rewrite ?length_file_at; done || lia).
    destruct (Z.leb_spec off k) as [H1|H1], (Z.ltb_spec k (off + Z.of_nat (length data))) as [H2|H2]; cbn [andb].
    1: exact (wr_in _ _ _ _ _ _ _ _ _ _ W k ltac:(lia)).
    all: assert (0 <= k < file_size D inum) as Hks by lia; specialize (Hw k Hks);
      pose proof (wr_slots _ _ _ _ _ _ _ _ _ _ W inum _ Hin Hsl Hw) as Es; rewrite with_addrs_eq in Es; rewrite Es;
      (split; [done|]); rewrite byte_file_at by done; apply (wr_out _ _ _ _ _ _ _ _ _ _ W); [done|lia|done].
  - split; [done|]. rewrite new_byte, with_addrs_eq by done. done.
Qed.

Lemma new_whole : whole D2 inum.
Proof using Hwh Hoff Hmax W Hino Hdata Hin.
  split; rewrite new_size; [unfold size'; destruct Hwh; lia|]. intros k Hk. by apply new_file_byte.
Qed.

Lemma new_file : file_at D2 inum = splice (file_at D inum) off data.
Proof using Hwh Hoff Hmax W Hino Hdata Hin.
  destruct Hwh as [Hs _]. assert (0 <= size') as H0 by (unfold size'; lia). apply bytes_eq.
  - apply Nat2Z.inj. rewrite length_file_at, length_splice_ext, length_file_at, new_size by (rewrite ?length_file_at, ?new_size; lia). done.
  - intros k Hk. rewrite length_file_at, new_size in Hk by (by rewrite new_size). rewrite byte_file_at by (by rewrite new_size). by apply new_file_byte.
Qed.

Lemma new_others : others_kept inum D D2.
Proof using Hino Hdata W.
  intros j Hj Hne. assert (disk_inode D2 j = disk_inode D j) as Ei by (by rewrite Hino, decide_False by done). split; [done|]. intros [Hs Hw].
  assert (file_size D2 j = file_size D j) as Esz by (unfold file_size; by rewrite Ei).
  assert (forall k, 0 <= k < file_size D j -> aslot D2 (disk_addrs D2 j) (k / 512) <> 0 /\ abyte D2 (disk_addrs D2 j) k = abyte D (disk_addrs D j) k) as Hk.
  { intros k Hk. assert (0 <= k < 140 * 512) as Hkr by lia. pose proof (div_bound k Hkr) as Hb. specialize (Hw k Hk).
    pose proof (wr_slots _ _ _ _ _ _ _ _ _ _ W j (k / 512) Hj ltac:(unfold is_slot; lia) Hw) as Es.
    assert (aslot D2 (disk_addrs D2 j) (k / 512) <> 0) as Hn by (by rewrite new_slot, Es).
    split; [done|]. rewrite new_byte, with_addrs_ne by done. by apply (wr_other _ _ _ _ _ _ _ _ _ _ W). }
  split.
  - split; rewrite Esz; [done|]. intros k Hk'. by apply Hk.
  - unfold file_at. rewrite Esz. apply list_fmap_ext. intros n x Hx. apply lookup_seqZ in Hx as [-> Hx]. apply Hk. lia.
Qed.
End Written.
End Files.

(** ** writei *)

Section Writei.
Context {DR : Driver} (me : nat) (mp : proc) (size L nlog : Z) {may : Prop} {SD : SyncDisk size may} (B : superblock) (NI : Z).
Context (Hlo : laid_out size L nlog B NI).
Implicit Types (s : kst) (bs : list Z) (D : Z -> list Z).

Notation txn := (txn me mp size L nlog).
Notation cut_off := (@cut_off may).
Notation spare := (spare nlog).
Notation bm := (sb_bmapstart B).
Notation N := (sb_size B).

Lemma lo_inode_blocks i : an_inode NI i -> 0 <= sb_inodestart B <= sb_inodestart B + i / IPB /\ sb_inodestart B + i / IPB < bm.
Proof using Hlo. intros Hi. pose proof (lo_inodes _ _ _ _ _ Hlo i Hi). destruct (lo_log _ _ _ _ _ Hlo). lia. Qed.

Lemma iupdate_refines d0 bs D s i ip env :
  txn ∅ d0 bs D s -> sb s = B -> icache s !! i = Some ip -> i_dev ip = 1 -> an_inode NI (i_inum ip) -> di_ok (di_of ip) ->
  length (D (IBLOCK (i_inum ip) B)) = 512%nat -> spare 1 bs ->
  rc (cut_off d0) env (iupdate i env s)
    (fun _ s' => txn ∅ d0 (add_block (IBLOCK (i_inum ip) B) bs) (put_inode B (i_inum ip) (di_of ip) D) s' /\ rest s s').
Proof using SD Hlo.
  intros Ht Hsb Hi Hdev Hin Hd Hl Hsp. unfold iupdate. rewrite (bind_get_inode _ _ _ _ _ Hi), bind_gets, Hsb, Hdev.
  destruct (inode_block_ok B NI lo_inode_blocks (lo_data _ _ _ _ _ Hlo) _ Hin) as (E & Hb & Hb2 & _).
  pose proof (lo_inodes _ _ _ _ _ Hlo _ Hin) as Hib. change IPB with 8 in Hib. destruct (lo_data _ _ _ _ _ Hlo) as (G1 & G2 & G3).
  destruct (block_ok size L nlog B NI Hlo (IBLOCK (i_inum ip) B) ltac:(lia)) as [Hr Hlg].
  eapply (txn_update me mp size L nlog ∅ d0 bs D s _ env Ht Hr (not_held_empty _) ltac:(rewrite map_size_empty; lia)
    (fun d => splice d (di_off (i_inum ip)) (di_bytes (di_of ip))) _ (ret tt)); [done|done| | |].
  - by apply (length_put_inode B NI lo_inode_blocks (lo_data _ _ _ _ _ Hlo)).
  - intros j x s' _ _ R'. rewrite (bind_get_inode _ i ip) by (by destruct R' as (-> & _)).
    unfold bind. repeat case_match; try done. by destruct a1.
  - intros s' Ht' R'. by split.
Qed.

(** The file has the new contents, and the others have their old ones. *)
Record saved (inum off : Z) (data : list Z) D D' : Prop := {
  sv_wf : fs_wf B NI D';
  sv_whole : whole B D' inum;
  sv_file : file_at B D' inum = splice (file_at B D inum) off data;
  sv_others : others_kept B NI inum D D';
  sv_meta : let d := disk_inode B D inum in let d' := disk_inode B D' inum in
    di_type d' = di_type d /\ di_major d' = di_major d /\ di_minor d' = di_minor d /\ di_nlink d' = di_nlink d;
}.

(** No file loses a block, and the blocks below the inodes stay. *)
Record carried D D' : Prop := {
  cd_slots : forall j sl, an_inode NI j -> is_slot sl -> aslot D (disk_addrs B D j) sl <> 0 -> aslot D' (disk_addrs B D' j) sl = aslot D (disk_addrs B D j) sl;
  cd_low : forall c, 0 <= c < sb_inodestart B -> D' c = D c;
}.

(** The slot of the cache is for the same inode, and as many refer to it. *)
Record same_id (ip ip' : inode) : Prop := {
  id_ref : i_ref ip' = i_ref ip;
  id_dev : i_dev ip' = i_dev ip;
  id_inum : i_inum ip' = i_inum ip;
}.

(** The inode after the write. *)
Definition grown (d : dinode) (sz : Z) (ad : list Z) : dinode := mkdi (di_type d) (di_major d) (di_minor d) (di_nlink d) sz ad.

Lemma saved_intro D inum off data D1 ad1 D2 :
  fs_wf B NI D -> an_inode NI inum -> whole B D inum -> 0 <= off <= file_size B D inum -> off + Z.of_nat (length data) <= 140 * 512 ->
  wrote bm N NI D (disk_addrs B D) inum off data D1 ad1 ->
  (forall c, bm <= c -> D2 c = D1 c) -> (forall c, sb_inodestart B <= c -> length (D2 c) = 512%nat) ->
  (forall j, an_inode NI j -> disk_inode B D2 j = if decide (j = inum)
     then grown (disk_inode B D inum) (Z.max (file_size B D inum) (off + Z.of_nat (length data))) ad1 else disk_inode B D j) ->
  saved inum off data D D2.
Proof using Hlo.
  intros Hwf Hin Hwh Hoff Hmax W Hd Hl Hi. split.
  - pose proof (lo_start _ _ _ _ _ Hlo). apply (new_wf B NI (lo_data _ _ _ _ _ Hlo) D inum off data D1 ad1); done || lia.
  - by apply (new_whole B NI D inum off data D1 ad1).
  - by apply (new_file B NI D inum off data D1 ad1).
  - by apply (new_others B NI D inum off data D1 ad1).
  - by rewrite Hi, decide_True by done.
Qed.

Lemma disk_inode_meta D D1 j : an_inode NI j -> (forall c, 0 <= c < bm -> D1 c = D c) -> disk_inode B D1 j = disk_inode B D j.
Proof using Hlo.
  intros Hj Hm. unfold disk_inode. rewrite Hm; [done|].
  destruct (inode_block_ok B NI lo_inode_blocks (lo_data _ _ _ _ _ Hlo) j Hj) as (_ & ? & ? & _). lia.
Qed.

(** No block changes its length. *)
Lemma wrote_len D inum off data D1 ad1 b :
  fs_wf B NI D -> 0 <= sb_inodestart B <= b -> wrote bm N NI D (disk_addrs B D) inum off data D1 ad1 -> length (D1 b) = 512%nat.
Proof using.
  intros Hwf Hb W. destruct (decide (bm <= b)) as [H|H]; [by apply (fk_len _ _ _ _ _ (wr_ok _ _ _ _ _ _ _ _ _ _ W))|].
  rewrite (wr_meta _ _ _ _ _ _ _ _ _ _ W) by lia. apply (fw_len _ _ _ Hwf). lia.
Qed.

Lemma carried_intro D inum off data D1 ad1 d D2 :
  wrote bm N NI D (disk_addrs B D) inum off data D1 ad1 -> di_addrs d = ad1 ->
  (forall c, bm <= c -> D2 c = D1 c) -> (forall c, 0 <= c < sb_inodestart B -> D2 c = D1 c) ->
  (forall j, an_inode NI j -> disk_inode B D2 j = if decide (j = inum) then d else disk_inode B D j) -> carried D D2.
Proof using Hlo.
  intros W Hd Hc Hlow Hi. split.
  - intros j sl Hj Hsl Hn. rewrite <- (wr_slots _ _ _ _ _ _ _ _ _ _ W j sl Hj Hsl Hn). assert (disk_addrs B D2 j = with_addrs inum ad1 (disk_addrs B D) j) as ->.
    { unfold disk_addrs at 1, with_addrs. rewrite Hi by done. by case_decide. }
    set (ad := with_addrs inum ad1 (disk_addrs B D) j). destruct (decide (nth 12 ad 0 = 0)) as [E|E].
    + unfold aslot. change (Z.to_nat NDIRECT) with 12%nat. by rewrite E.
    + apply aslot_ext, Hc. pose proof (indirect_used bm N NI D1 _ (wr_ok _ _ _ _ _ _ _ _ _ _ W) j Hj E) as Hu. fold ad in Hu. lia.
  - intros c Hcr. rewrite Hlow by done. apply (wr_meta _ _ _ _ _ _ _ _ _ _ W). pose proof (lo_start _ _ _ _ _ Hlo). lia.
Qed.

(** With the inode written, and without if the file keeps its size. *)
Lemma saved_put D inum off data D1 ad1 :
  fs_wf B NI D -> an_inode NI inum -> whole B D inum -> 0 <= off <= file_size B D inum -> off + Z.of_nat (length data) <= 140 * 512 ->
  wrote bm N NI D (disk_addrs B D) inum off data D1 ad1 ->
  let d := grown (disk_inode B D inum) (Z.max (file_size B D inum) (off + Z.of_nat (length data))) ad1 in
  let D2 := put_inode B inum d D1 in
  di_ok d /\ saved inum off data D D2 /\ carried D D2 /\ disk_inode B D2 inum = d.
Proof using Hlo.
  intros Hwf Hin Hwh Hoff Hmax W d D2. pose proof (new_inode_ok B NI D inum off data D1 ad1 Hwf Hin Hwh Hoff Hmax W) as Hd.
  pose proof (wr_ok _ _ _ _ _ _ _ _ _ _ W) as O1. destruct (inode_block_ok B NI lo_inode_blocks (lo_data _ _ _ _ _ Hlo) inum Hin) as (_ & Hib & Hib2 & _).
  pose proof (fun b Hb => wrote_len D inum off data D1 ad1 b Hwf Hb W) as Hlen.
  assert (forall j, an_inode NI j -> disk_inode B D2 j = if decide (j = inum) then d else disk_inode B D j) as Hino.
  { intros j Hj. unfold D2. rewrite (disk_inode_put B NI lo_inode_blocks (lo_data _ _ _ _ _ Hlo) inum d D1 j Hin Hj Hd) by (by apply Hlen).
    case_decide; [done|]. apply disk_inode_meta; [done|]. apply W. }
  split; [done|]. split; [|split; [|by rewrite Hino, decide_True by done]].
  2: { apply (carried_intro D inum off data D1 ad1 d); try done; intros c Hc; unfold D2, put_inode; by rewrite fput_ne by lia. }
  apply (saved_intro D inum off data D1 ad1); try done.
  - intros c Hc. unfold D2, put_inode. by rewrite fput_ne by lia.
  - intros c Hc. unfold D2, put_inode, fput. case_decide; [|apply Hlen; lia].
    apply (length_put_inode B NI lo_inode_blocks (lo_data _ _ _ _ _ Hlo)); [done|done|by apply Hlen].
Qed.

Lemma saved_keep D inum off data D1 ad1 :
  fs_wf B NI D -> an_inode NI inum -> whole B D inum -> 0 <= off -> off + Z.of_nat (length data) <= file_size B D inum ->
  wrote bm N NI D (disk_addrs B D) inum off data D1 ad1 ->
  ad1 = disk_addrs B D inum /\ saved inum off data D D1 /\ carried D D1 /\ disk_inode B D1 inum = disk_inode B D inum.
Proof using Hlo.
  intros Hwf Hin Hwh Hoff Hle W. pose proof (wr_ok _ _ _ _ _ _ _ _ _ _ W) as O1.
  assert (ad1 = disk_addrs B D inum) as Ead by (apply (wr_same _ _ _ _ _ _ _ _ _ _ W); intros k Hk; apply Hwh; lia).
  assert (forall j, an_inode NI j -> disk_inode B D1 j = disk_inode B D j) as Hm by (intros j Hj; apply disk_inode_meta; [done|apply W]).
  split; [done|]. split; [|split; [|by apply Hm]].
  2: { apply (carried_intro D inum off data D1 ad1 (disk_inode B D inum)); try done. intros j Hj. rewrite (Hm j Hj). by case_decide; subst. }
  destruct Hwh as [Hs Hw]. apply (saved_intro D inum off data D1 ad1); try done; [lia|lia| |].
  { intros c Hc. apply (wrote_len D inum off data D1 ad1); [done| |done]. pose proof (lo_log _ _ _ _ _ Hlo). lia. }
  intros j Hj. rewrite (Hm j Hj). case_decide as E; [|done]. subst j. rewrite Z.max_l, Ead by lia. unfold disk_addrs, file_size. by destruct (disk_inode B D inum).
Qed.

(** The end of [writei]: the inode is written if the file has grown. *)
Lemma writei_ends {A} d0 bs0 D s i ip off data c s1 (r : A) env :
  sb s = B -> fs_wf B NI D -> icache s !! i = Some ip -> an_inode NI (i_inum ip) -> di_of ip = disk_inode B D (i_inum ip) ->
  whole B D (i_inum ip) -> 0 <= off <= file_size B D (i_inum ip) -> off + Z.of_nat (length data) <= 140 * 512 -> spare (10 + c) bs0 ->
  after_write me mp size L nlog B NI d0 bs0 [] D (disk_addrs B D) i ip off data c s s1 ->
  let n := Z.of_nat (length data) in
  rc (cut_off d0) env
    ((let! ip := get_inode i in
      when ((0 <? n) && (i_size ip <? off + n)) (mod_inode i (set_i_size (off + n)) ;; iupdate i) ;;
      ret r) env s1)
    (fun x s' => x = r /\ exists bs' D' ip', txn ∅ d0 bs' D' s' /\ spare 5 bs' /\ saved (i_inum ip) off data D D' /\ carried D D' /\
      di_of ip' = disk_inode B D' (i_inum ip) /\ same_id ip ip' /\ (free_count bm N D <= free_count bm N D' + 2 * c)%nat /\
      rest (set_icache (<[i := ip']> (icache s)) s) s').
Proof using SD Hlo.
  intros Hsb Hwf Hi Hin Hdi Hwh Hoff Hmax Hsp (D1 & ad1 & ds & W & [(bs1 & Ht1 & Hw1) Hsb1 _ Hi1 Hdev1 _ _] & Hds & Hfc1 & R1) n.
  set (ip1 := set_i_addrs ad1 ip) in *. rewrite (bind_get_inode _ _ _ _ _ Hi1). change (i_size ip1) with (i_size ip).
  assert (i_size ip = file_size B D (i_inum ip)) as Esz by (unfold file_size; by rewrite <- Hdi).
  pose proof (within_length me mp size L nlog _ _ _ _ _ _ _ Ht1 Hw1) as Hl. unfold recorded_by in Hl. cbn [length] in Hl, Hds.
  pose proof (wr_ok _ _ _ _ _ _ _ _ _ _ W) as O1. assert (spare 6 bs1) as Hsp1 by (destruct Hsp; split; lia).
  destruct (Z.ltb_spec (i_size ip) (off + n)) as [Hg|Hg].
  - rewrite (proj2 (Z.ltb_lt 0 n)) by lia. cbn [andb when]. rewrite bind_assoc. unfold mod_inode at 1. rewrite bind_modify.
    rewrite (upd_insert _ _ _ _ Hi1). set (ip2 := set_i_size (off + n) ip1). set (s2 := set_icache _ s1).
    assert (icache s2 !! i = Some ip2) as Hi2 by (apply list_lookup_insert_eq; by eapply lookup_lt_Some).
    destruct (saved_put D (i_inum ip) off data D1 ad1 Hwf Hin Hwh Hoff Hmax W) as (Hdok & Hsv & Hcd & Hd2).
    assert (di_of ip2 = grown (disk_inode B D (i_inum ip)) (Z.max (file_size B D (i_inum ip)) (off + n)) ad1) as Ed2.
    { rewrite <- Hdi, <- Esz, Z.max_r by lia. done. }
    fold n in Hdok, Hsv, Hcd, Hd2. rewrite <- Ed2 in Hdok, Hsv, Hcd, Hd2.
    eapply rc_step; [apply (iupdate_refines d0 bs1 D1 s2 i ip2 env (txn_icache _ _ _ _ _ _ _ _ _ _ _ Ht1) Hsb1 Hi2 Hdev1 Hin Hdok)|done|].
    { apply (wrote_len D (i_inum ip) off data D1 ad1); [done| |done]. by apply (inode_block_ok B NI lo_inode_blocks (lo_data _ _ _ _ _ Hlo)). }
    { apply (spare_le nlog 6); [done|lia]. }
    intros _ s3 [Ht3 R3]. split; [|done]. split; [done|]. eexists _, _, ip2. split; [exact Ht3|]. split; [|split; [exact Hsv|split; [exact Hcd|split; [symmetry; exact Hd2|split; [done|split]]]]].
    + pose proof (length_add_block (IBLOCK (i_inum ip2) B) bs1). destruct Hsp1. split; lia.
    + rewrite (free_count_ext bm N D1 (put_inode B _ _ D1)); [done|]. unfold put_inode. apply fput_ne. change (i_inum ip2) with (i_inum ip).
      pose proof (inode_block_ok B NI lo_inode_blocks (lo_data _ _ _ _ _ Hlo) _ Hin). lia.
    + eapply rest_steps; [exact R1|exact R3].
  - destruct (saved_keep D (i_inum ip) off data D1 ad1 Hwf Hin Hwh ltac:(lia) ltac:(fold n; lia) W) as (Ead & Hsv & Hcd & Hd2).
    rewrite andb_false_r. cbn [when]. rewrite bind_ret. split; [|done]. split; [done|].
    exists bs1, D1, ip1. split; [done|]. split; [destruct Hsp1; split; lia|]. split; [done|]. split; [done|]. split; [|done].
    rewrite Hd2, <- Hdi. unfold ip1, disk_addrs in *. rewrite Ead, <- Hdi. by destruct ip.
Qed.

Lemma writei_writes d0 bs D s i ip off u src data c env :
  gives u src data -> umem s = u -> txn ∅ d0 bs D s -> sb s = B -> fs_wf B NI D ->
  icache s !! i = Some ip -> i_dev ip = 1 -> an_inode NI (i_inum ip) -> di_of ip = disk_inode B D (i_inum ip) -> i_type ip <> T_DEV ->
  whole B D (i_inum ip) -> 0 <= off <= file_size B D (i_inum ip) ->
  let n := Z.of_nat (length data) in
  off + n <= 140 * 512 -> room_for c off n -> (2 * c <= free_count bm N D)%nat -> spare (10 + c) bs ->
  rc (cut_off d0) env (writei i src off n env s)
    (fun r s' => r = n /\ exists bs' D' ip', txn ∅ d0 bs' D' s' /\ spare 5 bs' /\ saved (i_inum ip) off data D D' /\ carried D D' /\
      di_of ip' = disk_inode B D' (i_inum ip) /\ same_id ip ip' /\ (free_count bm N D <= free_count bm N D' + 2 * c)%nat /\
      rest (set_icache (<[i := ip']> (icache s)) s) s').
Proof using SD Hlo.
  intros Hsrc Hu Ht Hsb Hwf Hi Hdev Hin Hdi Hty Hwh Hoff n Hmax Hc Hfc Hsp. unfold writei. rewrite (bind_get_inode _ _ _ _ _ Hi).
  assert (i_size ip = file_size B D (i_inum ip)) as Esz by (unfold file_size; by rewrite <- Hdi).
  assert (i_addrs ip = disk_addrs B D (i_inum ip)) as Ead by (unfold disk_addrs; by rewrite <- Hdi).
  rewrite (proj2 (Z.eqb_neq _ _)) by done. rewrite u32_small, Esz, (proj2 (Z.ltb_ge _ _)), (proj2 (Z.ltb_ge (off + n) off)) by lia. cbn [orb].
  change (MAXFILE * BSIZE) with 71680. rewrite (proj2 (Z.ltb_ge 71680 _)) by lia.
  assert (written me mp size L nlog B NI d0 bs [] D (disk_addrs B D) i ip s) as Hwn.
  { split; try done; [|apply Hwf]. exists bs. split; [done|apply within_refl]. }
  eapply rc_step; [apply (writei_loop_writes me mp size L nlog B NI Hlo d0 bs u src data i Hsrc (Z.to_nat n) D _ s ip [] off 0 c env Hwn Hu); try lia|done|].
  - by rewrite Z.sub_0_r.
  - destruct Hsp. split; cbn [length]; lia.
  - intros r s1 (-> & Ha). rewrite Z.sub_0_r. cbn [Z.to_nat] in Ha. rewrite drop_0 in Ha. by apply (writei_ends d0 bs D s i ip off data c s1 n env).
Qed.
End Writei.
