(* ===== verification/Fstrunc.v ===== *)
(** * Giving the blocks of a file back

    [bfree], [itrunc] and the part of [iput] that drops a file nobody links
    to or has open, of fs.c: the blocks of the file, and no others, are free
    afterwards, the inode is empty or unused, and all other files are as
    before.  In [fileclose] this is a transaction. *)

From stdpp Require Import base numbers list gmap strings.
From S2P Require Import Prelude Kernel Spinlock Sched Sleeplock Kalloc Console Umem Str Mkfs Mkfsok.
From S2P Require Import Buf Memide Ring Bio Bcache Log Logsafe Inode Consdev Dir Fsread Fstxn Fsview Fswrite Fsfile.

(** ** Bits *)

Lemma bit_free_clear d i b : length d = 512%nat -> 0 <= i < 4096 -> 0 <= b < 4096 ->
  bit_free (bit_clear i d) b = if b =? i then true else bit_free d b.
Proof.
  intros Hl Hi Hb. unfold bit_free, bit_clear, bit_mask, byte_of. assert (0 <= b mod 8 < 8) as Hm by (apply Z.mod_pos_bound; lia).
  assert (0 <= i mod 8 < 8) as Hmi by (apply Z.mod_pos_bound; lia). rewrite !bit_test by lia.
  assert (0 <= i / 8 < 512) as Hd by (Z.div_mod_to_equations; lia). assert (0 <= b / 8 < 512) as Hdb by (Z.div_mod_to_equations; lia).
  destruct (decide (b / 8 = i / 8)) as [E|E].
  - rewrite E. rewrite (nth_lookup (<[_ := _]> d)), list_lookup_insert_eq by lia. cbn [default from_option id]. unfold id, u8.
    change 256 with (2 ^ 8). rewrite Z.mod_pow2_bits_low by lia. rewrite Z.land_spec, Z.lnot_spec, Z.shiftl_1_l by lia.
    destruct (Z.eqb_spec b i) as [->|Hne]; [by rewrite Z.pow2_bits_true, andb_false_r by lia|].
    rewrite Z.pow2_bits_false by (Z.div_mod_to_equations; lia). by rewrite andb_true_r.
  - rewrite (nth_lookup (<[_ := _]> d)), list_lookup_insert_ne, <- nth_lookup by lia.
    rewrite (proj2 (Z.eqb_neq b i)) by (intros ->; done). done.
Qed.

(** The bitmap with the bits of all of [fs] cleared. *)
Definition clear_all (fs : list Z) (d : list Z) : list Z := foldl (fun d b => bit_clear b d) d fs.

Lemma length_clear_all fs : forall d, length (clear_all fs d) = length d.
Proof. induction fs as [|b fs IH]; intros d; cbn; [done|]. unfold clear_all in IH. rewrite IH. apply length_insert. Qed.

Lemma bit_free_clear_all fs : forall d b, length d = 512%nat -> Forall (fun b => 0 <= b < 4096) fs -> 0 <= b < 4096 ->
  bit_free (clear_all fs d) b = bit_free d b || bool_decide (b ∈ fs).
Proof.
  induction fs as [|f fs IH]; intros d b Hl Hf Hb; cbn.
  { rewrite bool_decide_eq_false_2; [by rewrite orb_false_r|apply not_elem_of_nil]. }
  apply Forall_cons in Hf as [Hf0 Hf]. unfold clear_all in IH. rewrite IH by (done || (unfold bit_clear; by rewrite length_insert)). rewrite bit_free_clear by done.
  destruct (Z.eqb_spec b f) as [->|Hne].
  - rewrite (bool_decide_eq_true_2 (f ∈ f :: fs)) by by left. by rewrite orb_true_r.
  - f_equal. apply bool_decide_ext. rewrite elem_of_cons. tauto.
Qed.

(** ** The blocks of a file *)

Section View.
Context (bm N NI : Z) (Hg : geometry bm N) (D : Z -> list Z) (ads : addrs) (Hok : fs_ok bm N NI D ads) (i : Z) (Hi : an_inode NI i).

(** The blocks in the slots [p], and all of them, in the order in which
    [itrunc] frees them. *)
Definition blocks_in (p : list Z) : list Z := filter (fun b => b <> 0) (aslot D (ads i) <$> p).
Definition file_blocks : list Z := blocks_in (seqZ 0 140 ++ [-1]).

Lemma elem_of_blocks p b : b ∈ blocks_in p <-> b <> 0 /\ exists s, s ∈ p /\ aslot D (ads i) s = b.
Proof using. unfold blocks_in. rewrite list_elem_of_filter, list_elem_of_fmap. split; intros [Hb (s & H1 & H2)]; (split; [done|]); by exists s. Qed.
Lemma blocks_app p q : blocks_in (p ++ q) = blocks_in p ++ blocks_in q.
Proof using. unfold blocks_in. by rewrite fmap_app, filter_app. Qed.
Lemma blocks_one s : blocks_in [s] = if decide (aslot D (ads i) s <> 0) then [aslot D (ads i) s] else [].
Proof using. done. Qed.

Lemma elem_of_file_blocks b : b ∈ file_blocks <-> b <> 0 /\ exists s, is_slot s /\ aslot D (ads i) s = b.
Proof using.
  unfold file_blocks. rewrite elem_of_blocks. split; intros [Hb (s & Hs & E)]; (split; [done|]); exists s; (split; [|done]).
  - apply elem_of_app in Hs as [Hs%elem_of_seqZ|Hs%list_elem_of_singleton]; unfold is_slot; lia.
  - apply elem_of_app. destruct (decide (s = -1)) as [->|]; [right; by left|left; apply elem_of_seqZ; unfold is_slot in Hs; lia].
Qed.

Lemma blocks_range p : Forall is_slot p -> Forall (fun b => bm < b < N /\ is_free bm D b = false) (blocks_in p).
Proof using Hok Hi.
  intros Hp. apply Forall_forall. intros b (Hb & s & Hs & <-)%elem_of_blocks. apply (fk_slot _ _ _ _ _ Hok i s Hi); [|done].
  by apply (proj1 (Forall_forall _ _) Hp).
Qed.
Lemma blocks_small p : Forall is_slot p -> Forall (fun b => 0 <= b < 4096) (blocks_in p).
Proof using Hok Hi Hg.
  intros Hp. destruct Hg as (G1 & G2 & G3). change BPB with 4096 in G3. eapply Forall_impl; [by apply blocks_range|]. intros b [? _]. lia.
Qed.

(** No block is in two slots. *)
Lemma fresh_block p s : Forall is_slot p -> is_slot s -> s ∉ p -> aslot D (ads i) s <> 0 -> aslot D (ads i) s ∉ blocks_in p.
Proof using Hok Hi.
  intros Hp Hs Hn Hb (_ & s' & Hs' & E)%elem_of_blocks. pose proof (proj1 (Forall_forall _ _) Hp s' Hs') as Hsl.
  destruct (fk_own _ _ _ _ _ Hok i i s s' Hi Hi Hs Hsl Hb) as [_ ->]; [by symmetry|done].
Qed.

(** ** The blocks after they are freed *)
Context (D' : Z -> list Z) (Hbm : D' bm = clear_all file_blocks (D bm)) (Hother : forall c, bm < c -> D' c = D c).

Lemma all_slots : Forall is_slot (seqZ 0 140 ++ [-1]).
Proof using. apply Forall_app. split; [|by repeat constructor]. apply Forall_forall. intros x Hx%elem_of_seqZ. unfold is_slot. lia. Qed.

Lemma freed_bit b : 0 <= b < N -> is_free bm D' b = is_free bm D b || bool_decide (b ∈ file_blocks).
Proof using Hok Hi Hg Hbm.
  intros Hb. destruct Hg as (G1 & G2 & G3). change BPB with 4096 in G3. unfold is_free. rewrite Hbm.
  apply bit_free_clear_all; [by apply Hok|apply blocks_small, all_slots|lia].
Qed.

Lemma freed_slot j s : an_inode NI j -> aslot D' (with_addrs i (replicate 13 0) ads j) s = if decide (j = i) then 0 else aslot D (ads j) s.
Proof using Hok Hother.
  intros Hj. unfold with_addrs. case_decide as E.
  - assert (forall n, nth n (replicate 13 0) 0 = 0) as H by (intros n; apply nth_repeat0). unfold aslot. rewrite !H. by destruct (s =? -1), (s <? NDIRECT).
  - destruct (decide (nth 12 (ads j) 0 = 0)) as [E0|E0].
    + unfold aslot. change (Z.to_nat NDIRECT) with 12%nat. by rewrite E0.
    + apply aslot_ext, Hother. apply (indirect_used bm N NI D ads Hok j Hj E0).
Qed.

Lemma freed_ok : fs_ok bm N NI D' (with_addrs i (replicate 13 0) ads).
Proof using Hok Hi Hg Hbm Hother.
  destruct Hg as (G1 & G2 & G3). split.
  - intros b Hb. destruct (decide (b = bm)) as [->|]; [rewrite Hbm, length_clear_all|rewrite Hother by lia]; by apply Hok.
  - intros b Hb. rewrite freed_bit, (fk_reserved _ _ _ _ _ Hok b Hb) by lia. apply bool_decide_eq_false_2. intros Hin.
    pose proof (proj1 (Forall_forall _ _) (blocks_range _ all_slots) b Hin) as [? _]. lia.
  - intros j Hj. unfold with_addrs. case_decide; [|by apply Hok]. split; [done|]. apply Forall_replicate. unfold uint_ok. lia.
  - intros j s Hj Hs. rewrite freed_slot by done. case_decide as E; [done|]. intros Hn. destruct (fk_slot _ _ _ _ _ Hok j s Hj Hs Hn) as [Hr Hf].
    split; [done|]. rewrite freed_bit, Hf by lia. apply bool_decide_eq_false_2. intros (_ & s' & Hs' & Es)%elem_of_file_blocks.
    destruct (fk_own _ _ _ _ _ Hok j i s s' Hj Hi Hs Hs' Hn (eq_sym Es)). done.
  - intros j j' s s' Hj Hj' Hs Hs'. rewrite !freed_slot by done. repeat case_decide; try done. by apply (fk_own _ _ _ _ _ Hok).
Qed.
End View.

(** ** itrunc *)

(** [for] over the elements of a list. *)
Lemma rc_for_each {X} C env (f : X -> M unit) (Inv : list X -> kst -> Prop) q : forall p s,
  (forall p1 x q1 s, p ++ q = p1 ++ x :: q1 -> Inv p1 s -> rc C env (f x env s) (fun _ s' => Inv (p1 ++ [x]) s')) ->
  Inv p s -> rc C env (for_each q f env s) (fun _ s' => Inv (p ++ q) s').
Proof.
  induction q as [|x q IH]; intros p s Hf Hp; cbn [for_each]; [by rewrite app_nil_r|].
  eapply rc_bind; [by apply (Hf p x q)|]. intros a s' Hs'. cbv beta in Hs'. rewrite (app_assoc p [x] q : p ++ x :: q = (p ++ [x]) ++ q).
  apply IH; [|done]. intros p1 y q1 s1 E. apply Hf with q1. by rewrite <- E, <- app_assoc.
Qed.

Section Itrunc.
Context {DR : Driver} (me : nat) (mp : proc) (size L nlog : Z) {may : Prop} {SD : SyncDisk size may} (B : superblock) (NI : Z).
Context (Hlo : laid_out size L nlog B NI).
Implicit Types (H : held) (s : kst) (bs : list Z) (D : Z -> list Z).

Notation txn := (txn me mp size L nlog).
Notation cut_off := (@cut_off may).
Notation spare := (spare nlog).
Notation bm := (sb_bmapstart B).
Notation N := (sb_size B).

Lemma txn_ext H d0 bs D D' s : (forall c, D c = D' c) -> txn H d0 bs D s -> txn H d0 bs D' s.
Proof using. intros E [(P & HC & Hp & HD) ? ? ? ? ?]. split; try done. exists P. split_and!; [done|done|]. intros c. by rewrite HD. Qed.

Lemma txn_held H d0 bs D s j b d : txn H d0 bs D s -> H !! j = Some (b, Some d) -> exists x, bcache s !! j = Some x /\ b_data x = d.
Proof using.
  intros [(P & HC & _) _ _ _ _ _] Hj. destruct (held_buf me mp size _ _ _ _ _ _ HC Hj) as (x & _ & Hx & _ & _ & _ & _ & _ & _ & L6 & _). by exists x.
Qed.

Lemma bind_ret_tt (m : M unit) env s : (m ;; ret tt) env s = m env s.
Proof using. unfold bind. destruct (m env s) as [[] s' e| |]; done. Qed.

Lemma bfree_refines {A} H d0 bs D s b (k : M A) R env :
  txn H d0 bs D s -> sb s = B -> sb_of_block (D 1) = B -> length (D bm) = 512%nat -> bm < b < N -> bit_free (D bm) b = false ->
  not_held H bm -> not_held H 1 -> (base.size H <= 1)%nat -> spare 1 bs ->
  (forall s', txn H d0 (add_block bm bs) (fput bm (bit_clear b (D bm)) D) s' -> rest s s' -> rc (cut_off d0) env (k env s') R) ->
  rc (cut_off d0) env ((bfree 1 b ;; k) env s) R.
Proof using Hlo SD.
  intros Ht Hsb Hsb1 Hl Hb Hf Hn Hn1 Hs Hsp Hk. pose proof (lo_start _ _ _ _ _ Hlo) as Hst. destruct (lo_data _ _ _ _ _ Hlo) as (G1 & G2 & G3). change BPB with 4096 in G3.
  pose proof (lo_disk _ _ _ _ _ Hlo) as Hds. destruct (block_ok size L nlog B NI Hlo bm ltac:(lia)) as [Hbr Hbl].
  unfold bfree, readsb. rewrite !bind_assoc. change (u32 1) with 1.
  eapply (txn_read me mp size L nlog H d0 bs D s 1 env Ht ltac:(lia) Hn1 Hs); [apply (spare_le nlog 1); [done|lia]| |].
  { intros j x s' Hx Ex R'. rewrite bind_assoc, (bind_get_buf _ _ _ _ _ Hx), bind_assoc, Ex. reflexivity. }
  intros s1 Ht1 R1. rewrite bind_ret, bind_assoc, bind_modify, Hsb1.
  assert (set_sb B s1 = s1) as -> by (destruct R1 as (_ & E & _); rewrite <- Hsb, <- E; by destruct s1).
  assert (BBLOCK b B = bm) as -> by (unfold BBLOCK; change BPB with 4096; rewrite Z.div_small, u32_small by lia; lia).
  assert (b mod BPB = b) as -> by (change BPB with 4096; apply Z.mod_small; lia). rewrite bind_assoc.
  eapply (txn_update me mp size L nlog H d0 bs D s1 bm env Ht1 Hbr Hn Hs (bit_clear b) _ k _ Hsp Hbl).
  - unfold bit_clear. by rewrite length_insert.
  - intros j x s' Hx Ex R'. rewrite bind_assoc, (bind_get_buf _ _ _ _ _ Hx), Ex, Hf. unfold bind. by repeat case_match; simplify_eq.
  - intros s2 Ht2 R2. apply Hk; [done|by eapply rest_trans].
Qed.

Section Loops.
Context (d0 : gmap (Z * Z) (list Z)) (bs0 : list Z) (D : Z -> list Z) (ads : addrs) (inum : Z) (env : list (kst -> kst)).
Hypotheses (Hok : fs_ok bm N NI D ads) (Hin : an_inode NI inum) (Hsb1 : sb_of_block (D 1) = B) (Hsp : spare 2 bs0).
Notation blocks_in := (blocks_in D ads inum).
Notation slot := (aslot D (ads inum)).

(** The blocks in the slots [p] have been freed. *)
Definition freed_to (p : list Z) : Z -> list Z := fput bm (clear_all (blocks_in p) (D bm)) D.
Definition freeing H (p : list Z) s : Prop := (exists bs, txn H d0 bs (freed_to p) s /\ within [bm] bs0 bs) /\ Forall is_slot p.

Lemma freed_to_ne p c : c <> bm -> freed_to p c = D c.
Proof using. apply fput_ne. Qed.
Lemma freed_to_bit p b : Forall is_slot p -> 0 <= b < N -> bit_free (freed_to p bm) b = is_free bm D b || bool_decide (b ∈ blocks_in p).
Proof using Hok Hin Hlo.
  intros Hp Hb. destruct (lo_data _ _ _ _ _ Hlo) as (G1 & G2 & G3). change BPB with 4096 in G3. unfold freed_to. rewrite fput_eq.
  apply bit_free_clear_all; [by apply Hok| |lia]. by apply (blocks_small bm N NI (lo_data _ _ _ _ _ Hlo) D ads Hok inum Hin).
Qed.

Lemma skip_slot H p s x : freeing H p s -> is_slot x -> slot x = 0 -> freeing H (p ++ [x]) s.
Proof using.
  intros [(bs & Ht & Hw) Hp] Hx E. split; [|by apply Forall_app; split; [|by constructor]]. exists bs. split; [|done].
  eapply txn_ext; [|exact Ht]. intros c. unfold freed_to. by rewrite blocks_app, blocks_one, E, app_nil_r.
Qed.

Lemma free_slot {A} H p s x (k : M A) R :
  freeing H p s -> sb s = B -> is_slot x -> x ∉ p -> slot x <> 0 -> not_held H bm -> not_held H 1 -> (base.size H <= 1)%nat ->
  (forall s', freeing H (p ++ [x]) s' -> rest s s' -> rc (cut_off d0) env (k env s') R) ->
  rc (cut_off d0) env ((bfree 1 (slot x) ;; k) env s) R.
Proof using Hlo SD Hok Hin Hsb1 Hsp.
  intros [(bs & Ht & Hw) Hp] Hsb Hx Hxp Hn Hh Hh1 Hs Hk. destruct (lo_log _ _ _ _ _ Hlo) as (L1 & L2 & L3). pose proof (lo_start _ _ _ _ _ Hlo) as L4.
  destruct (fk_slot _ _ _ _ _ Hok inum x Hin Hx Hn) as [Hr Hf]. pose proof (within_length me mp size L nlog _ _ _ _ _ _ _ Ht Hw) as Hl. cbn [length] in Hl.
  apply (bfree_refines H d0 bs (freed_to p) s (slot x) k R env Ht Hsb); try done.
  - by rewrite freed_to_ne by lia.
  - unfold freed_to. rewrite fput_eq, length_clear_all. by apply Hok.
  - rewrite freed_to_bit, Hf by (done || lia). apply bool_decide_eq_false_2. by apply (fresh_block bm N NI D ads Hok inum Hin).
  - destruct Hsp. split; lia.
  - intros s' Ht' R'. apply Hk; [|done]. split; [|by apply Forall_app; split; [|by constructor]].
    exists (add_block bm bs). split; [|apply within_add; [member|done]]. eapply txn_ext; [|exact Ht']. intros c. unfold freed_to, fput.
    case_decide; [|done]. rewrite decide_True, blocks_app, blocks_one, decide_True by done. unfold clear_all. by rewrite foldl_app.
Qed.
(** The addresses with the first [k] cleared. *)
Definition zeroed (k : nat) : list Z := replicate k 0 ++ drop k (ads inum).
Lemma zeroed_nth k : nth k (zeroed k) 0 = nth k (ads inum) 0.
Proof using. unfold zeroed. rewrite app_nth2, length_replicate, Nat.sub_diag, nth_skipn, Nat.add_0_r by (rewrite length_replicate; lia). done. Qed.
Lemma zeroed_S k : (k < length (ads inum))%nat -> <[k := 0]> (zeroed k) = zeroed (S k).
Proof using.
  intros Hk. destruct (lookup_lt_is_Some_2 _ _ Hk) as [x Hx]. unfold zeroed. rewrite (drop_S _ _ _ Hx).
  rewrite insert_app_r_alt, length_replicate, Nat.sub_diag by (rewrite length_replicate; lia). cbn [insert list_insert]. by rewrite replicate_S_end, <- app_assoc.
Qed.

(** The elements of [seqZ]. *)
Lemma seqZ_around m n p x q : seqZ m n = p ++ x :: q -> x = m + Z.of_nat (length p) /\ Z.of_nat (length p) < n /\ x ∉ p.
Proof using.
  intros E. assert (seqZ m n !! length p = Some x) as Hx by (rewrite E; by apply list_lookup_middle).
  apply lookup_seqZ in Hx as [-> Hx]. split_and!; [done|done|]. pose proof (NoDup_seqZ m n) as Hnd. rewrite E in Hnd.
  apply NoDup_app in Hnd as (_ & Hd & _). intros Hp. apply (Hd _ Hp). by left.
Qed.

Section Inode.
Context (i : nat) (ip : inode) (s0 : kst).
Hypotheses (Hi : icache s0 !! i = Some ip) (Hdev : i_dev ip = 1) (Had : i_addrs ip = ads inum) (Hsb : sb s0 = B).

(** The state with other addresses in the inode. *)
Definition with_inode (ad : list Z) s : Prop := rest (set_icache (<[i := set_i_addrs ad ip]> (icache s0)) s0) s.

Lemma with_inode_get ad s : with_inode ad s -> icache s !! i = Some (set_i_addrs ad ip) /\ sb s = B.
Proof using Hi Hsb.
  intros Hs. split; [|destruct Hs as (_ & -> & _); done]. apply (rest_inode s0); [by eapply lookup_lt_Some|done].
Qed.
Lemma with_inode_set f ad ad' s s' : with_inode ad s -> rest s s' -> f (set_i_addrs ad ip) = set_i_addrs ad' ip ->
  with_inode ad' (set_icache (upd i f (icache s')) s').
Proof using Hi Hsb.
  intros Hs R E. assert (with_inode ad s') as Hs' by (by eapply rest_trans). destruct (with_inode_get ad s' Hs') as [Hi' _].
  rewrite (upd_insert _ _ _ _ Hi'), E. apply (rest_steps s0 s' _ i (set_i_addrs ad ip)); [exact Hs'|]. by repeat split.
Qed.

Lemma freeing_icache H p s c : freeing H p s -> freeing H p (set_icache c s).
Proof using. intros [(bs & Ht & Hw) Hp]. split; [|done]. exists bs. split; [by apply txn_icache|done]. Qed.

Lemma direct_turn p x s : freeing ∅ p s -> with_inode (zeroed (length p)) s -> x = Z.of_nat (length p) -> x < 12 -> x ∉ p ->
  rc (cut_off d0) env
    ((let! ip := get_inode i in
      when (negb (addr_at ip x =? 0)) (bfree (i_dev ip) (addr_at ip x) ;; set_addr i x 0)) env s)
    (fun _ s' => freeing ∅ (p ++ [x]) s' /\ with_inode (zeroed (length (p ++ [x]))) s').
Proof using Hlo SD Hok Hin Hsb1 Hsp Hi Hdev Hsb Had.
  intros Hf Hs Hx Hlt Hxp. destruct (with_inode_get _ s Hs) as [Hi1 Hsb']. rewrite (bind_get_inode _ _ _ _ _ Hi1). cbn [i_dev set_i_addrs].
  change (i_dev (set_i_addrs (zeroed (length p)) ip)) with (i_dev ip). rewrite Hdev. unfold addr_at. change (i_addrs (set_i_addrs ?a ip)) with a.
  assert (Z.to_nat x = length p) as Ex by lia. rewrite Ex, zeroed_nth, <- Ex, <- (aslot_direct D) by lia. rewrite length_app. cbn [length]. rewrite Nat.add_1_r.
  assert (is_slot x) as Hsl by (unfold is_slot; lia). destruct (fk_addrs _ _ _ _ _ Hok inum Hin) as [Hl13 _].
  destruct (Z.eqb_spec (slot x) 0) as [E|E]; cbn [negb when].
  - split; [|done]. split; [by apply skip_slot|]. rewrite <- zeroed_S by lia. rewrite list_insert_id; [done|].
    rewrite aslot_direct, Ex in E by lia. unfold zeroed. rewrite lookup_app_r, length_replicate, Nat.sub_diag, lookup_drop, Nat.add_0_r by (rewrite length_replicate; lia).
    destruct (lookup_lt_is_Some_2 (ads inum) (length p) ltac:(lia)) as [y Hy]. rewrite Hy. rewrite (nth_lookup_Some _ _ _ _ Hy) in E. by rewrite E.
  - apply (free_slot ∅ p s x); try done; [apply not_held_empty..|rewrite map_size_empty; lia|].
    intros s' Hf' R'. unfold set_addr, mod_inode, modify. split; [|done]. split; [by apply freeing_icache|].
    eapply with_inode_set; [exact Hs|done|]. rewrite <- zeroed_S, Ex by lia. by destruct ip.
Qed.

Lemma direct_loop s : freeing ∅ [] s -> rest s0 s ->
  rc (cut_off d0) env
    (for_each (seqZ 0 NDIRECT) (fun k =>
       let! ip := get_inode i in
       when (negb (addr_at ip k =? 0)) (bfree (i_dev ip) (addr_at ip k) ;; set_addr i k 0)) env s)
    (fun _ s' => freeing ∅ (seqZ 0 12) s' /\ with_inode (zeroed 12) s').
Proof using Hlo SD Hok Hin Hsb1 Hsp Hi Hdev Hsb Had.
  intros Hf R. eapply rc_mono; [apply (rc_for_each _ env _ (fun p s => freeing ∅ p s /\ with_inode (zeroed (length p)) s) (seqZ 0 NDIRECT) [])| |]; [| |done|].
  - intros p x q s1 E [Hf1 Hs1]. apply seqZ_around in E as (-> & Hlt & Hn). by apply direct_turn.
  - split; [done|]. unfold with_inode. change (zeroed (length [])) with (ads inum). rewrite <- Had, set_addrs_id, list_insert_id by done. by destruct s0.
  - done.
Qed.
End Inode.

(** The loop over the indirect block, which is locked. *)
Section Entries.
Context (j : nat).
Let ind := nth 12 (ads inum) 0.
Let H := <[j := (ind, Some (D ind))]> (∅ : held).
Hypothesis (Hind : ind <> 0).

Lemma indirect_range : bm < ind < N.
Proof using Hok Hin Hind. by apply (indirect_used bm N NI D ads Hok inum Hin). Qed.

Lemma entry_turn p x s : freeing H (seqZ 0 12 ++ (Z.add 12 <$> p)) s -> sb s = B -> 0 <= x < 128 -> x ∉ p ->
  rc (cut_off d0) env
    ((let! y := get_buf j in
      let a := word_at (b_data y) (4 * x) in
      when (negb (a =? 0)) (bfree 1 a)) env s)
    (fun _ s' => freeing H (seqZ 0 12 ++ (Z.add 12 <$> (p ++ [x]))) s' /\ rest s s').
Proof using Hlo SD Hok Hin Hsb1 Hsp Hind.
  intros Hf Hsb Hx Hxp. pose proof indirect_range as Hr. pose proof Hf as [(bs & Ht & _) _].
  destruct (txn_held H d0 bs _ s j ind (D ind) Ht (lookup_insert_eq _ _ _)) as (y & Hy & Ey). rewrite (bind_get_buf _ _ _ _ _ Hy), Ey. cbv zeta.
  assert (word_at (D ind) (4 * x) = slot (12 + x)) as ->.
  { rewrite aslot_entry by lia. fold ind. rewrite (proj2 (Z.eqb_neq ind 0)) by done. do 2 f_equal. lia. }
  rewrite fmap_app, app_assoc. cbn [fmap list_fmap]. assert (is_slot (12 + x)) as Hsl by (unfold is_slot; lia).
  destruct (Z.eqb_spec (slot (12 + x)) 0) as [E|E]; cbn [negb when].
  - split; [|done]. split; [by apply skip_slot|apply rest_refl].
  - rewrite <- bind_ret_tt. apply (free_slot H (seqZ 0 12 ++ (Z.add 12 <$> p)) s (12 + x) (ret tt)); try done.
    + intros [H1%elem_of_seqZ|(z & Hz & Hzp)%list_elem_of_fmap]%elem_of_app; [lia|]. assert (z = x) as -> by lia. done.
    + apply not_held_one. lia.
    + apply not_held_one. destruct (lo_log _ _ _ _ _ Hlo). pose proof (lo_start _ _ _ _ _ Hlo). lia.
    + unfold H. rewrite insert_empty, map_size_singleton. lia.
Qed.

Lemma entries_loop s : freeing H (seqZ 0 12) s -> sb s = B ->
  rc (cut_off d0) env
    (for_each (seqZ 0 NINDIRECT) (fun x =>
       let! y := get_buf j in
       let a := word_at (b_data y) (4 * x) in
       when (negb (a =? 0)) (bfree 1 a)) env s)
    (fun _ s' => freeing H (seqZ 0 140) s' /\ rest s s').
Proof using Hlo SD Hok Hin Hsb1 Hsp Hind.
  intros Hf Hsb. eapply rc_mono; [apply (rc_for_each _ env _ (fun p s' => freeing H (seqZ 0 12 ++ (Z.add 12 <$> p)) s' /\ rest s s') (seqZ 0 NINDIRECT) [])| |]; [| |done|].
  - intros p x q s1 E [Hf1 R1]. apply seqZ_around in E as (Ex & Hlt & Hn). change NINDIRECT with 128 in Hlt. assert (sb s1 = B) as Hs1 by (by destruct R1 as (_ & -> & _)).
    eapply rc_mono; [apply (entry_turn p x s1 Hf1 Hs1); [lia|done]|done|]. intros a s2 [Hf2 R2]. split; [done|by eapply rest_trans].
  - split; [by rewrite app_nil_r|apply rest_refl].
  - done.
Qed.
End Entries.
Lemma skip_slots H q : forall p s, freeing H p s -> Forall (fun x => is_slot x /\ slot x = 0) q -> freeing H (p ++ q) s.
Proof using.
  induction q as [|x q IH]; intros p s Hf Hq; [by rewrite app_nil_r|]. apply Forall_cons in Hq as [[H1 H2] Hq].
  rewrite (app_assoc p [x] q : p ++ x :: q = (p ++ [x]) ++ q). apply IH; [|done]. by apply skip_slot.
Qed.

(** The second half of [itrunc]. *)
Section Indirect.
Context (i : nat) (ip : inode) (s0 : kst).
Hypotheses (Hi : icache s0 !! i = Some ip) (Hdev : i_dev ip = 1) (Had : i_addrs ip = ads inum) (Hsb : sb s0 = B).

(** The indirect block and its entries. *)
Lemma indirect_frees s : freeing ∅ (seqZ 0 12) s -> with_inode i ip s0 (zeroed 12) s -> sb s = B -> nth 12 (ads inum) 0 <> 0 ->
  rc (cut_off d0) env
    ((let! bp := bread 1 (nth 12 (ads inum) 0) in
      for_each (seqZ 0 NINDIRECT) (fun j =>
        let! x := get_buf bp in
        let a := word_at (b_data x) (4 * j) in
        when (negb (a =? 0)) (bfree 1 a)) ;;
      brelse bp ;;
      bfree 1 (nth 12 (ads inum) 0) ;;
      set_addr i NDIRECT 0) env s)
    (fun _ s' => freeing ∅ (seqZ 0 140 ++ [-1]) s' /\ with_inode i ip s0 (<[12%nat := 0]> (zeroed 12)) s').
Proof using Hlo SD Hok Hin Hsb1 Hsp Hi Hsb.
  intros Hf Hs Hsb' E. pose proof (indirect_used bm N NI D ads Hok inum Hin E) as Hr. pose proof (lo_start _ _ _ _ _ Hlo) as Hst.
  destruct (block_ok size L nlog B NI Hlo _ ltac:(split; [|apply Hr]; lia)) as [Hbr _].
  pose proof Hf as [(bs & Ht & Hw) Hsl]. pose proof (within_length me mp size L nlog _ _ _ _ _ _ _ Ht Hw) as Hl. cbn [length] in Hl.
  eapply rc_step; [apply (txn_bread me mp size L nlog ∅ d0 bs _ s _ env Ht Hbr (not_held_empty _)); [rewrite map_size_empty; lia|destruct Hsp; split; lia]|done|].
  intros j s1 (_ & Ht1 & R1 & _). rewrite freed_to_ne in Ht1 by lia. assert (sb s1 = B) as Hs1 by (by destruct R1 as (_ & -> & _)).
  eapply rc_step; [apply (entries_loop j E s1); [|done]|done|]; [split; [by exists bs|done]|].
  intros a s2 [[(bs2 & Ht2 & Hw2) Hp2] R2]. rewrite <- (freed_to_ne (seqZ 0 140)) in Ht2 by lia.
  eapply rc_step; [apply (txn_brelse me mp size L nlog _ d0 bs2 _ s2 j _ env Ht2 (lookup_insert_eq _ _ _))|done|].
  intros b s3 [Ht3 R3]. rewrite delete_insert_id in Ht3 by apply lookup_empty.
  assert (rest s s3) as R by (by eapply rest_trans; [|eapply rest_trans]).
  change (nth 12 (ads inum) 0) with (slot (-1)). apply (free_slot ∅ (seqZ 0 140) s3 (-1)); try done.
  - split; [by exists bs2|done].
  - by destruct R as (_ & -> & _).
  - intros H%elem_of_seqZ. lia.
  - rewrite map_size_empty. lia.
  - intros s4 Hf4 R4. unfold set_addr, mod_inode, modify. split; [|done]. split; [by apply freeing_icache|].
    eapply with_inode_set; [done|done|exact Hs|by eapply rest_trans|done].
Qed.

Lemma indirect_part s : freeing ∅ (seqZ 0 12) s -> with_inode i ip s0 (zeroed 12) s ->
  rc (cut_off d0) env
    ((let! ip := get_inode i in
      when (negb (addr_at ip NDIRECT =? 0))
        (let! bp := bread (i_dev ip) (addr_at ip NDIRECT) in
         for_each (seqZ 0 NINDIRECT) (fun j =>
           let! x := get_buf bp in
           let a := word_at (b_data x) (4 * j) in
           when (negb (a =? 0)) (bfree (i_dev ip) a)) ;;
         brelse bp ;;
         bfree (i_dev ip) (addr_at ip NDIRECT) ;;
         set_addr i NDIRECT 0)) env s)
    (fun _ s' => freeing ∅ (seqZ 0 140 ++ [-1]) s' /\ with_inode i ip s0 (replicate 13 0) s').
Proof using Hlo SD Hok Hin Hsb1 Hsp Hi Hdev Hsb.
  intros Hf Hs. destruct (with_inode_get i ip s0 Hi Hsb _ s Hs) as [Hi1 Hsb']. rewrite (bind_get_inode _ _ _ _ _ Hi1).
  change (i_dev (set_i_addrs (zeroed 12) ip)) with (i_dev ip). rewrite Hdev. unfold addr_at. change (i_addrs (set_i_addrs ?a ip)) with a.
  change (Z.to_nat NDIRECT) with 12%nat. rewrite (zeroed_nth 12). destruct (fk_addrs _ _ _ _ _ Hok inum Hin) as [Hl13 _].
  assert (zeroed 13 = replicate 13 0) as E13 by (unfold zeroed; rewrite drop_ge, app_nil_r by lia; done). rewrite <- E13, <- zeroed_S by lia.
  destruct (Z.eqb_spec (nth 12 (ads inum) 0) 0) as [E|E]; cbn [negb when]; [|by apply indirect_frees].
  split; [|done]. split.
  - apply skip_slot; [|by unfold is_slot|by rewrite aslot_indirect]. change (seqZ 0 140) with (seqZ 0 12 ++ seqZ 12 128). apply skip_slots; [done|].
    apply Forall_forall. intros x Hx%elem_of_seqZ. split; [unfold is_slot; lia|]. rewrite aslot_entry by lia. by rewrite E.
  - rewrite list_insert_id; [done|]. unfold zeroed. rewrite lookup_app_r, length_replicate, Nat.sub_diag, lookup_drop, Nat.add_0_r by (rewrite length_replicate; lia).
    destruct (lookup_lt_is_Some_2 (ads inum) 12 ltac:(lia)) as [y Hy]. rewrite Hy. by rewrite (nth_lookup_Some _ _ _ _ Hy) in E; rewrite E.
Qed.
End Indirect.
End Loops.

(** ** Changes of an inode *)

Lemma others_data D D2 inum :
  fs_wf B NI D -> (forall c, bm < c -> D2 c = D c) -> (forall j, an_inode NI j -> j <> inum -> disk_inode B D2 j = disk_inode B D j) ->
  others_kept B NI inum D D2.
Proof using.
  intros Hwf Hd Hi j Hj Hne. specialize (Hi j Hj Hne). split; [done|]. intros [Hs Hw].
  assert (file_size B D2 j = file_size B D j) as Es by (unfold file_size; by rewrite Hi).
  assert (forall sl, aslot D2 (disk_addrs B D2 j) sl = aslot D (disk_addrs B D j) sl) as Hsl.
  { intros sl. assert (disk_addrs B D2 j = disk_addrs B D j) as -> by (unfold disk_addrs; by rewrite Hi).
    destruct (decide (nth 12 (disk_addrs B D j) 0 = 0)) as [E|E].
    - unfold aslot. change (Z.to_nat NDIRECT) with 12%nat. by rewrite E.
    - apply aslot_ext, Hd. apply (indirect_used bm N NI D _ (fw_ok _ _ _ Hwf) j Hj E). }
  split.
  - split; rewrite Es; [done|]. intros k Hk. rewrite Hsl. by apply Hw.
  - unfold file_at. rewrite Es. apply list_fmap_ext. intros n x Hx. apply lookup_seqZ in Hx as [-> Hx].
    assert (0 <= 0 + Z.of_nat n < file_size B D j) as Hk by lia. assert (0 <= 0 + Z.of_nat n < 140 * 512) as Hb%div_bound by lia.
    unfold abyte. rewrite Hsl. f_equal. apply Hd.
    apply (fk_slot _ _ _ _ _ (fw_ok _ _ _ Hwf) j ((0 + Z.of_nat n) / 512) Hj ltac:(unfold is_slot; lia) (Hw _ Hk)).
Qed.

(** An inode is written, over blocks in which its addresses [di_addrs d] and
    the others' are in order. *)
Lemma put_inode_wf D1 inum d :
  an_inode NI inum -> di_ok d -> fs_ok bm N NI D1 (with_addrs inum (di_addrs d) (disk_addrs B D1)) ->
  (forall b, sb_inodestart B <= b -> length (D1 b) = 512%nat) -> (forall j, an_inode NI j -> di_ok (disk_inode B D1 j)) ->
  let D2 := put_inode B inum d D1 in
  fs_wf B NI D2 /\ (forall j, an_inode NI j -> disk_inode B D2 j = if decide (j = inum) then d else disk_inode B D1 j) /\
  (forall c, bm <= c \/ c < sb_inodestart B -> D2 c = D1 c).
Proof using Hlo.
  intros Hi Hd O Hl Hdi D2. pose proof (lo_inode_blocks size L nlog B NI Hlo) as Hlb. pose proof (lo_data _ _ _ _ _ Hlo) as Hg.
  destruct (inode_block_ok B NI Hlb Hg inum Hi) as (_ & Hib & Hib2 & _).
  assert (forall j, an_inode NI j -> disk_inode B D2 j = if decide (j = inum) then d else disk_inode B D1 j) as Hino.
  { intros j Hj. apply (disk_inode_put B NI Hlb Hg); try done. apply Hl. lia. }
  assert (forall c, bm <= c \/ c < sb_inodestart B -> D2 c = D1 c) as Hc by (intros c Hc; unfold D2, put_inode; apply fput_ne; lia).
  assert (forall j, an_inode NI j -> disk_addrs B D2 j = with_addrs inum (di_addrs d) (disk_addrs B D1) j) as Ha.
  { intros j Hj. unfold disk_addrs at 1, with_addrs. rewrite Hino by done. by case_decide. }
  split_and!; [|done|done]. assert (forall b, is_free bm D2 b = is_free bm D1 b) as Hf by (intros b; unfold is_free; rewrite Hc by lia; done).
  assert (forall j sl, an_inode NI j -> aslot D2 (disk_addrs B D2 j) sl = aslot D1 (with_addrs inum (di_addrs d) (disk_addrs B D1) j) sl) as Hs.
  { intros j sl Hj. rewrite Ha by done. destruct (decide (nth 12 (with_addrs inum (di_addrs d) (disk_addrs B D1) j) 0 = 0)) as [E|E].
    - unfold aslot. change (Z.to_nat NDIRECT) with 12%nat. by rewrite E.
    - apply aslot_ext, Hc. left. pose proof (indirect_used bm N NI D1 _ O j Hj E). lia. }
  assert (forall b, sb_inodestart B <= b -> length (D2 b) = 512%nat) as Hl2.
  { intros b Hb. unfold D2, put_inode, fput. case_decide; [|by apply Hl]. apply (length_put_inode B NI Hlb Hg); try done. apply Hl. lia. }
  split; [split|done|].
  - intros b Hb. apply Hl2. pose proof (lo_start _ _ _ _ _ Hlo). lia.
  - intros b Hb. rewrite Hf. by apply O.
  - intros j Hj. rewrite Ha by done. by apply O.
  - intros j s Hj Hsl. rewrite Hs, Hf by done. by apply O.
  - intros j j' s s' Hj Hj' Hsl Hsl'. rewrite !Hs by done. by apply O.
  - intros j Hj. rewrite Hino by done. case_decide; [done|by apply Hdi].
Qed.

(** [iupdate] with other fields than the addresses. *)
Record inode_set (inum : Z) (d : dinode) D D' : Prop := {
  is_wf : fs_wf B NI D';
  is_inode : forall j, an_inode NI j -> disk_inode B D' j = if decide (j = inum) then d else disk_inode B D j;
  is_others : others_kept B NI inum D D';
  is_rest : forall c, bm <= c \/ c < sb_inodestart B -> D' c = D c;
}.
Lemma put_inode_set D inum d :
  fs_wf B NI D -> an_inode NI inum -> di_ok d -> di_addrs d = disk_addrs B D inum -> inode_set inum d D (put_inode B inum d D).
Proof using Hlo.
  intros Hwf Hi Hd Ea. destruct (put_inode_wf D inum d Hi Hd) as (H1 & H2 & H3).
  - rewrite Ea. eapply fs_ok_ext; [|apply Hwf]. intros j _. apply with_addrs_same.
  - apply Hwf.
  - apply Hwf.
  - split; try done. apply others_data; [done|intros c Hc; apply H3; lia|]. intros j Hj Hne. by rewrite H2, decide_False by done.
Qed.

(** The file [inum] is gone from the blocks: its inode is [d], and its
    blocks are free. *)
Record emptied (inum : Z) (d : dinode) D D' : Prop := {
  em_wf : fs_wf B NI D';
  em_inode : disk_inode B D' inum = d;
  em_others : others_kept B NI inum D D';
  em_free : forall b, 0 <= b < N -> is_free bm D' b = is_free bm D b || bool_decide (b ∈ file_blocks D (disk_addrs B D) inum);
  em_low : forall c, 0 <= c < L -> D' c = D c;
}.

Definition empty_inode (ip : inode) : inode := set_i_size 0 (set_i_addrs (replicate 13 0) ip).

Lemma freed_emptied D inum d :
  fs_wf B NI D -> an_inode NI inum -> di_ok d -> di_addrs d = replicate 13 0 ->
  emptied inum d D (put_inode B inum d (freed_to D (disk_addrs B D) inum (seqZ 0 140 ++ [-1]))).
Proof using Hlo.
  intros Hwf Hi Hd Ea. set (D1 := freed_to _ _ _ _). pose proof (lo_data _ _ _ _ _ Hlo) as Hg. pose proof (fw_ok _ _ _ Hwf) as O.
  assert (forall c, c <> bm -> D1 c = D c) as Hne by (intros c Hc; by apply freed_to_ne).
  assert (D1 bm = clear_all (file_blocks D (disk_addrs B D) inum) (D bm)) as Hbm by apply fput_eq.
  assert (forall j, an_inode NI j -> disk_inode B D1 j = disk_inode B D j) as Hdi.
  { intros j Hj. apply (disk_inode_meta size L nlog B NI Hlo); [done|]. intros c Hc. apply Hne. lia. }
  destruct (put_inode_wf D1 inum d Hi Hd) as (H1 & H2 & H3).
  - rewrite Ea. eapply fs_ok_ext; [|apply (freed_ok bm N NI Hg D (disk_addrs B D) O inum Hi D1 Hbm); intros c Hc; apply Hne; lia].
    intros j Hj. unfold with_addrs. case_decide; [done|]. unfold disk_addrs. by rewrite Hdi.
  - intros b Hb. destruct (decide (b = bm)) as [->|Hb']; [rewrite Hbm, length_clear_all|rewrite Hne by done]; by apply (fw_len _ _ _ Hwf).
  - intros j Hj. rewrite Hdi by done. by apply Hwf.
  - split.
    + done.
    + by rewrite H2, decide_True by done.
    + apply others_data; [done| |].
      * intros c Hc. rewrite H3, Hne by lia. done.
      * intros j Hj Hjn. rewrite H2, decide_False by done. by apply Hdi.
    + intros b Hb. unfold is_free at 1. rewrite H3 by lia. apply (freed_bit bm N NI Hg D _ O inum Hi D1 Hbm b Hb).
    + intros c Hc. pose proof (lo_start _ _ _ _ _ Hlo). destruct (lo_log _ _ _ _ _ Hlo) as (? & ? & ?). rewrite H3 by lia. apply Hne. lia.
Qed.

Lemma empty_inode_ok ip : di_ok (di_of ip) -> di_ok (di_of (empty_inode ip)).
Proof using. intros [? ? ? ? ? ? ?]. split; try done. apply Forall_replicate. unfold uint_ok. lia. Qed.

Lemma itrunc_refines d0 bs D s i ip env :
  txn ∅ d0 bs D s -> sb s = B -> sb_of_block (D 1) = B -> fs_wf B NI D -> icache s !! i = Some ip -> i_dev ip = 1 -> an_inode NI (i_inum ip) ->
  di_of ip = disk_inode B D (i_inum ip) -> spare 3 bs ->
  rc (cut_off d0) env (itrunc i env s)
    (fun _ s' => (exists bs' D', txn ∅ d0 bs' D' s' /\ within [bm; IBLOCK (i_inum ip) B] bs bs' /\ emptied (i_inum ip) (di_of (empty_inode ip)) D D') /\
       rest (set_icache (<[i := empty_inode ip]> (icache s)) s) s').
Proof using Hlo SD.
  intros Ht Hsb Hsb1 Hwf Hi Hdev Hin Hdi Hsp. assert (i_addrs ip = disk_addrs B D (i_inum ip)) as Ea by (unfold disk_addrs; by rewrite <- Hdi).
  assert (i < length (icache s))%nat as Hlt by by eapply lookup_lt_Some. set (inum := i_inum ip) in *. pose proof (fw_ok _ _ _ Hwf) as O.
  assert (spare 2 bs) as Hsp2 by (apply (spare_le nlog 3); [done|lia]).
  assert (freeing d0 bs D (disk_addrs B D) inum ∅ [] s) as Hf0.
  { split; [|constructor]. exists bs. split; [|apply within_refl]. eapply txn_ext; [|exact Ht]. intros c. unfold freed_to, fput. by case_decide; subst. }
  unfold itrunc. eapply rc_step; [apply (direct_loop d0 bs D (disk_addrs B D) inum env O Hin Hsb1 Hsp2 i ip s Hi Hdev Ea Hsb s Hf0 (rest_refl s))|done|].
  intros a s1 [Hf1 Hs1]. rewrite <- bind_assoc.
  eapply rc_step; [apply (indirect_part d0 bs D (disk_addrs B D) inum env O Hin Hsb1 Hsp2 i ip s Hi Hdev Hsb s1 Hf1 Hs1)|done|].
  intros b s2 [[(bs2 & Ht2 & Hw2) _] Hs2]. destruct (with_inode_get i ip s Hi Hsb _ s2 Hs2) as [Hi2 Hsb2].
  unfold mod_inode. rewrite bind_modify, (upd_insert _ _ _ _ Hi2). set (s3 := set_icache _ s2).
  assert (icache s3 !! i = Some (empty_inode ip)) as Hi3 by (apply list_lookup_insert_eq; by eapply lookup_lt_Some).
  assert (di_ok (di_of (empty_inode ip))) as Hd by (apply empty_inode_ok; rewrite Hdi; by apply Hwf).
  pose proof (freed_emptied D inum (di_of (empty_inode ip)) Hwf Hin Hd eq_refl) as He.
  destruct (inode_block_ok B NI (lo_inode_blocks size L nlog B NI Hlo) (lo_data _ _ _ _ _ Hlo) _ Hin) as (_ & Hb1 & Hb2 & _).
  pose proof (within_length me mp size L nlog _ _ _ _ _ _ _ Ht2 Hw2) as Hl. cbn [length] in Hl.
  eapply rc_mono; [apply (iupdate_refines me mp size L nlog B NI Hlo d0 bs2 _ s3 i (empty_inode ip) env (txn_icache _ _ _ _ _ _ _ _ _ _ _ Ht2) Hsb2 Hi3 Hdev Hin Hd)|done|].
  - rewrite freed_to_ne by (change (i_inum (empty_inode ip)) with inum; lia). apply (fw_len _ _ _ Hwf). apply Hb1.
  - destruct Hsp. split; lia.
  - intros c s4 [Ht4 R4]. split; [|by eapply rest_steps; [exact Hs2|exact R4]]. eexists _, _. split_and!; [exact Ht4| |exact He].
    apply within_add; [member|]. eapply within_mono; [|exact Hw2]. member.
Qed.

(** ** iput *)

Lemma others_trans inum D D1 D2 : others_kept B NI inum D D1 -> others_kept B NI inum D1 D2 -> others_kept B NI inum D D2.
Proof using.
  intros H1 H2 j Hj Hne. destruct (H1 j Hj Hne) as [E1 F1]. destruct (H2 j Hj Hne) as [E2 F2]. split; [congruence|].
  intros Hw. destruct (F1 Hw) as [Hw1 Ef1]. destruct (F2 Hw1) as [Hw2 Ef2]. split; [done|congruence].
Qed.

Lemma emptied_set inum d d' D D1 D2 : an_inode NI inum -> emptied inum d D D1 -> inode_set inum d' D1 D2 -> emptied inum d' D D2.
Proof using Hlo.
  intros Hi [E1 E2 E3 E4 E5] [I1 I2 I3 I4]. split.
  - done.
  - by rewrite I2, decide_True by done.
  - by eapply others_trans.
  - intros b Hb. rewrite <- E4 by done. unfold is_free. by rewrite I4 by lia.
  - intros c Hc. destruct (lo_log _ _ _ _ _ Hlo) as (? & ? & ?). rewrite I4 by lia. by apply E5.
Qed.

(** The two critical sections of [iput]. *)
Lemma iput_enters H P s i ip env :
  Cache me mp size H P s -> icache s !! i = Some ip -> i_ref ip = 1 -> is_loaded ip = true -> i_nlink ip = 0 ->
  iput i env s =
  (itrunc i ;; mod_inode i (set_i_type 0) ;; iupdate i ;; acquire LIcache ;; mod_inode i (set_i_flags 0) ;;
   mod_inode i (fun ip => set_i_ref (i_ref ip - 1) ip) ;; release LIcache) env s.
Proof using.
  intros HC Hi Hr Hv Hn. pose proof (ca_calm _ _ _ _ _ _ HC) as [C1 C2 C3 C4 C5]. assert (locks s !! LIcache = None) as Hl by (by rewrite C1).
  unfold iput. rewrite (bind_ok _ _ _ _ _ _ _ (acquire_free LIcache env s Hl)), (bind_get_inode _ i ip) by done.
  unfold is_loaded in Hv. rewrite Hr, Hv, Hn. cbn [Z.eqb Pos.eqb andb when].
  rewrite bind_assoc, (bind_ok _ _ _ _ _ _ _ (release_crit LIcache env s (acquired LIcache s) Hl C4 eq_refl eq_refl)).
  assert (set_locks (locks s) (set_kcpu (crit (kcpu s)) (acquired LIcache s)) = s) as -> by (rewrite C5; by destruct s).
  unfold bind. cbn. destruct (itrunc i env s) as [[] s1 e1| |]; [|done..]. cbn. destruct (iupdate i e1 _) as [[] s2 e2| |]; [|done..].
  destruct (acquire LIcache e2 s2) as [[] s3 e3| |]; done.
Qed.
Lemma iput_leaves H P s i ip env :
  Cache me mp size H P s -> icache s !! i = Some ip ->
  (acquire LIcache ;; mod_inode i (set_i_flags 0) ;; mod_inode i (fun ip => set_i_ref (i_ref ip - 1) ip) ;; release LIcache) env s =
  Ok tt (set_icache (<[i := set_i_ref (i_ref ip - 1) (set_i_flags 0 ip)]> (icache s)) s) env.
Proof using.
  intros HC Hi. pose proof (ca_calm _ _ _ _ _ _ HC) as [C1 C2 C3 C4 C5]. assert (locks s !! LIcache = None) as Hl by (by rewrite C1).
  rewrite (bind_ok _ _ _ _ _ _ _ (acquire_free LIcache env s Hl)). unfold mod_inode. rewrite !bind_modify.
  erewrite (release_crit LIcache env s _ Hl C4) by reflexivity. cbn [icache acquired set_locks set_kcpu set_icache].
  rewrite upd_upd, (upd_insert _ _ _ _ Hi), C5. by destruct s.
Qed.

(** The inode of a dropped file, on the disk and in memory. *)
Definition dropped (ip : inode) : inode := set_i_type 0 (empty_inode ip).
Definition slot_freed (ip : inode) : inode := set_i_ref (i_ref ip - 1) (set_i_flags 0 (dropped ip)).

Lemma iput_drops d0 bs D s i ip env :
  txn ∅ d0 bs D s -> sb s = B -> sb_of_block (D 1) = B -> fs_wf B NI D -> icache s !! i = Some ip -> i_dev ip = 1 -> an_inode NI (i_inum ip) ->
  di_of ip = disk_inode B D (i_inum ip) -> i_ref ip = 1 -> is_loaded ip = true -> i_nlink ip = 0 -> spare 3 bs ->
  rc (cut_off d0) env (iput i env s)
    (fun _ s' => (exists bs' D', txn ∅ d0 bs' D' s' /\ within [bm; IBLOCK (i_inum ip) B] bs bs' /\ emptied (i_inum ip) (di_of (dropped ip)) D D') /\
       rest (set_icache (<[i := slot_freed ip]> (icache s)) s) s').
Proof using Hlo SD.
  intros Ht Hsb Hsb1 Hwf Hi Hdev Hin Hdi Hr Hv Hn Hsp. pose proof (tx_cache _ _ _ _ _ _ _ _ _ _ Ht) as (P & HC & _).
  rewrite (iput_enters ∅ P s i ip env HC Hi Hr Hv Hn). assert (i < length (icache s))%nat as Hlt by by eapply lookup_lt_Some.
  eapply rc_step; [apply (itrunc_refines d0 bs D s i ip env Ht Hsb Hsb1 Hwf Hi Hdev Hin Hdi Hsp)|done|].
  intros a s1 [(bs1 & D1 & Ht1 & Hw1 & He) R1]. pose proof (rest_inode s s1 i _ Hlt R1) as Hi1. unfold mod_inode at 1. rewrite bind_modify, (upd_insert _ _ _ _ Hi1).
  fold (dropped ip). set (s2 := set_icache _ s1). assert (icache s2 !! i = Some (dropped ip)) as Hi2 by (apply list_lookup_insert_eq; by eapply lookup_lt_Some).
  assert (sb s2 = B) as Hsb2 by (destruct R1 as (_ & E & _); by rewrite <- Hsb). destruct He as [E1 E2 E3 E4 E5] eqn:HE; clear HE.
  assert (di_ok (di_of (dropped ip))) as Hd.
  { pose proof (empty_inode_ok ip ltac:(rewrite Hdi; by apply Hwf)) as [? ? ? ? ? ? ?]. split; try done. }
  pose proof (put_inode_set D1 (i_inum ip) (di_of (dropped ip)) E1 Hin Hd ltac:(unfold disk_addrs; by rewrite E2)) as Hset.
  destruct (inode_block_ok B NI (lo_inode_blocks size L nlog B NI Hlo) (lo_data _ _ _ _ _ Hlo) _ Hin) as (_ & Hb1 & Hb2 & _).
  pose proof (within_length me mp size L nlog _ _ _ _ _ _ _ Ht1 Hw1) as Hl. cbn [length] in Hl.
  eapply rc_step; [apply (iupdate_refines me mp size L nlog B NI Hlo d0 bs1 D1 s2 i (dropped ip) env (txn_icache _ _ _ _ _ _ _ _ _ _ _ Ht1) Hsb2 Hi2 Hdev Hin Hd)|done|].
  - apply (fw_len _ _ _ E1). apply Hb1.
  - destruct Hsp. split; lia.
  - intros b s3 [Ht3 R3]. pose proof (tx_cache _ _ _ _ _ _ _ _ _ _ Ht3) as (P3 & HC3 & _).
    assert (icache s3 !! i = Some (dropped ip)) as Hi3 by (by destruct R3 as (-> & _)).
    rewrite (iput_leaves ∅ P3 s3 i (dropped ip) env HC3 Hi3). split; [|done]. split.
    + eexists _, _. split_and!; [by apply txn_icache; exact Ht3|apply within_add; [member|done]|]. by eapply emptied_set.
    + eapply rest_steps; [eapply rest_steps; [exact R1|exact R3]|apply rest_refl].
Qed.
End Itrunc.
