(* ===== verification/Fsdir.v ===== *)
(** * Directories within a transaction

    [dirlookup], [dirlink] and [ialloc] of fs.c on the blocks of a
    transaction: a directory is the list of its entries, a name that is not
    in it is entered in the first free place, and a free inode is taken. *)

From stdpp Require Import base numbers list gmap strings.
From S2P Require Import Prelude Kernel Spinlock Sched Sleeplock Kalloc Console Umem Str Mkfs Mkfsok.
From S2P Require Import Buf Memide Ring Bio Bcache Log Logsafe Inode Consdev Dir Fsread Fstxn Fsview Fswrite Fsfile Fstrunc.

Section Fsdir.
Context {DR : Driver} (me : nat) (mp : proc) (size L nlog : Z) {may : Prop} {SD : SyncDisk size may} (B : superblock) (NI : Z).
Context (Hlo : laid_out size L nlog B NI).
Implicit Types (s : kst) (bs : list Z) (D : Z -> list Z).

Notation txn := (txn me mp size L nlog).
Notation quiet := (quiet me mp size).
Notation cut_off := (@cut_off may).
Notation spare := (spare nlog).
Notation bm := (sb_bmapstart B).
Notation N := (sb_size B).

(** Between its parts, a transaction leaves the cache quiet. *)
Lemma txn_quiet d0 bs D s : txn ∅ d0 bs D s -> (length bs <= 28)%nat ->
  exists P, quiet P s /\ (forall c, contents P s c = D c) /\
    forall s', quiet P s' -> disk s' = disk s -> log s' = log s -> txn ∅ d0 bs D s'.
Proof using.
  intros [(P & HC & Hp & HD) Hh Hy Hd Hsz Hct] Hl. exists P. split_and!; [|done|].
  - split; [done|]. apply pins_size in Hp. unfold NBUF. lia.
  - intros s' [HC' _] E1 E2. split; rewrite ?E2; try done; [|by eapply header_same|congruence].
    exists P. split_and!; [done|done|]. intros c. by rewrite (contents_same P s s').
Qed.

Lemma fetched_ext D D' b ip : D (IBLOCK (i_inum ip) b) = D' (IBLOCK (i_inum ip) b) -> fetched D b ip = fetched D' b ip.
Proof using. intros E. unfold fetched, loaded. by rewrite E. Qed.

Lemma txn_ilock d0 bs D s i ip env :
  txn ∅ d0 bs D s -> (length bs <= 28)%nat -> icache s !! i = Some ip -> 1 <= i_ref ip -> i_dev ip = 1 ->
  slocks s !! SLinode i = None -> 0 <= IBLOCK (i_inum ip) (sb s) < size -> i_type (fetched D (sb s) ip) <> 0 ->
  rc (cut_off d0) env (ilock (Some i) env s)
    (fun _ s' => txn ∅ d0 bs D s' /\ rest (set_icache (<[i := fetched D (sb s) ip]> (icache s)) (locked_inode mp i s)) s').
Proof using SD.
  intros Ht Hl Hi Hr Hd Hs Hb Hty. pose proof (tx_disk _ _ _ _ _ _ _ _ _ _ Ht) as Hdk. destruct (txn_quiet _ _ _ _ Ht Hl) as (P & HQ & HD & Hback).
  rewrite <- (fetched_ext (contents P s)) in Hty |- * by apply HD.
  eapply rc_mono; [apply (ilock_fetches me mp size P s i ip env HQ Hi Hr Hd Hs Hb Hty)| |].
  - intros s' [Hm E]. split; [done|congruence].
  - intros _ s' (HQ' & E1 & E2 & E3). split; [|done]. by apply Hback.
Qed.

Lemma txn_iunlock d0 bs D s i ip env :
  txn ∅ d0 bs D s -> (length bs <= 28)%nat -> icache s !! i = Some ip -> 1 <= i_ref ip -> is_Some (slocks s !! SLinode i) ->
  rc (fun _ => False) env (iunlock (Some i) env s) (fun _ s' => txn ∅ d0 bs D s' /\ rest (unlocked_inode i s) s').
Proof using.
  intros Ht Hl Hi Hr Hs. destruct (txn_quiet _ _ _ _ Ht Hl) as (P & HQ & HD & Hback).
  destruct (iunlock_run me mp size P s i ip env HQ Hi Hr Hs) as (s' & E & HQ' & E1 & E2 & E3). rewrite E. split; [|done]. split; [by apply Hback|done].
Qed.

Lemma txn_iunlockput d0 bs D s i ip env :
  txn ∅ d0 bs D s -> (length bs <= 28)%nat -> icache s !! i = Some ip -> 1 <= i_ref ip -> is_Some (slocks s !! SLinode i) -> i_nlink ip <> 0 ->
  rc (fun _ => False) env (iunlockput i env s)
    (fun _ s' => txn ∅ d0 bs D s' /\ rest (set_icache (<[i := set_i_ref (i_ref ip - 1) ip]> (icache s)) (unlocked_inode i s)) s').
Proof using.
  intros Ht Hl Hi Hr Hs Hn. destruct (txn_quiet _ _ _ _ Ht Hl) as (P & HQ & HD & Hback).
  destruct (iunlockput_run me mp size P s i ip env HQ Hi Hr Hs Hn) as (s' & E & HQ' & E1 & E2 & E3). rewrite E. split; [|done].
  rewrite (upd_insert _ _ _ _ Hi) in E3. split; [by apply Hback|done].
Qed.

(** ** A file in memory and on the disk *)

Section View.
Context (D : Z -> list Z) (Hwf : fs_wf B NI D) (inum : Z) (Hin : an_inode NI inum) (Hwh : whole B D inum).
Context (ip : inode) (Hdi : di_of ip = disk_inode B D inum) (C : Z -> list Z) (HC : forall c, C c = D c).

Lemma view_slot bn : 0 <= bn < 140 -> aslot D (disk_addrs B D inum) bn <> 0 ->
  fslot C ip bn = aslot D (disk_addrs B D inum) bn /\ (12 <= bn -> nth 12 (i_addrs ip) 0 <> 0).
Proof using HC Hdi.
  intros Hb Hn. assert (i_addrs ip = disk_addrs B D inum) as Ea by (unfold disk_addrs; by rewrite <- Hdi). unfold fslot, addr_at. rewrite Ea.
  destruct (Z.ltb_spec bn NDIRECT) as [H|H]; unfold NDIRECT in H.
  - rewrite aslot_direct by lia. split; [done|lia].
  - rewrite aslot_entry in Hn |- * by lia. change (Z.to_nat NDIRECT) with 12%nat. destruct (Z.eqb_spec (nth 12 (disk_addrs B D inum) 0) 0) as [E|E]; [done|].
    by rewrite HC.
Qed.

Lemma view_mapped bn : 0 <= bn -> bn * 512 < file_size B D inum -> mapped size C ip bn.
Proof using Hwf Hin Hwh Hdi HC Hlo.
  intros H0 Hlt. destruct Hwh as [Hs Hw]. assert (0 <= bn < 140) as Hbn by lia. specialize (Hw (bn * 512) ltac:(lia)). rewrite Z.div_mul in Hw by done.
  destruct (view_slot bn Hbn Hw) as [E Hi]. pose proof (lo_data _ _ _ _ _ Hlo) as (G1 & G2 & G3). pose proof (lo_disk _ _ _ _ _ Hlo) as G4.
  destruct (fk_slot _ _ _ _ _ (fw_ok _ _ _ Hwf) inum bn Hin ltac:(unfold is_slot; lia) Hw) as [Hr _]. split; [rewrite E; lia|].
  intros H12. unfold NDIRECT in H12. specialize (Hi H12). assert (i_addrs ip = disk_addrs B D inum) as Ea by (unfold disk_addrs; by rewrite <- Hdi).
  unfold addr_at. change (Z.to_nat NDIRECT) with 12%nat. rewrite Ea in Hi |- *.
  pose proof (indirect_used bm N NI D _ (fw_ok _ _ _ Hwf) inum Hin Hi). lia.
Qed.

Lemma view_bytes off n : 0 <= off -> 0 <= n -> off + n <= file_size B D inum -> fbytes C ip off n = slice (file_at B D inum) off n.
Proof using Hwh Hdi HC.
  intros Ho Hn Hl. destruct Hwh as [Hs Hw]. unfold fbytes, slice. apply list_eq. intros k. rewrite list_lookup_fmap, lookup_take, lookup_drop.
  case_decide as Hk; [|by rewrite lookup_seqZ_ge by lia]. rewrite lookup_seqZ_lt by lia. unfold file_at. rewrite list_lookup_fmap, lookup_seqZ_lt by lia.
  cbn. f_equal. set (x := off + Z.of_nat k). replace (0 + Z.of_nat (Z.to_nat off + k)) with x by (unfold x; lia).
  assert (0 <= x < file_size B D inum) as Hx by (unfold x; lia). assert (0 <= x / 512 < 140) as Hb by (apply div_bound; lia).
  destruct (view_slot (x / 512) Hb (Hw x Hx)) as [E _]. unfold fbyte, abyte, byte. change BSIZE with 512. by rewrite E, HC.
Qed.
End View.

(** ** Directories *)

(** Entry [k] of a directory. *)
Definition entry_of D (inum : Z) (k : nat) : dirent := de_of (slice (file_at B D inum) (16 * Z.of_nat k) 16).

(** Inode [inum] is a directory with [n] entries. *)
Record dir_ok D (inum : Z) (n : nat) : Prop := {
  do_inode : an_inode NI inum;
  do_type : di_type (disk_inode B D inum) = T_DIR;
  do_size : file_size B D inum = 16 * Z.of_nat n;
  do_whole : whole B D inum;
}.
(** It has no entry for [nm]. *)
Definition no_entry D (inum : Z) (n : nat) (nm : list Z) : Prop := forall k, (k < n)%nat -> names nm (entry_of D inum k) = false.

(** A directory, locked and in memory. *)
Record open_dir D (inum : Z) (n : nat) (dp : nat) (ip : inode) s : Prop := {
  od_dir : dir_ok D inum n;
  od_inode : icache s !! dp = Some ip;
  od_dev : i_dev ip = 1;
  od_inum : i_inum ip = inum;
  od_di : di_of ip = disk_inode B D inum;
}.

Lemma open_dir_rest D inum n dp ip s s' : open_dir D inum n dp ip s -> icache s' = icache s -> open_dir D inum n dp ip s'.
Proof using. intros [? ? ? ? ?] E. split; try done. by rewrite E. Qed.

Section Open.
Context (D : Z -> list Z) (Hwf : fs_wf B NI D) (inum : Z) (n dp : nat) (ip : inode) (s : kst) (Hod : open_dir D inum n dp ip s).
Context (P : pinned) (HP : forall c, contents P s c = D c).

Lemma view_directory : directory size (contents P s) ip n.
Proof using Hwf Hod HP Hlo.
  destruct Hod as [[O1 O2 O3 O4] Hi Hd _ Hdi]. pose proof O4 as [Hs _]. split.
  - done.
  - change (i_type ip) with (di_type (di_of ip)). by rewrite Hdi.
  - change (i_size ip) with (di_size (di_of ip)). rewrite Hdi. fold (file_size B D inum). change (MAXFILE * BSIZE) with 71680. lia.
  - intros bn H0 Hb. apply (view_mapped D Hwf inum O1 O4 ip Hdi _ HP); [done|]. unfold BSIZE in Hb. lia.
Qed.
Lemma view_entry k : (k < n)%nat -> dirent_at (contents P s) ip k = entry_of D inum k.
Proof using Hod HP.
  intros Hk. destruct Hod as [[O1 O2 O3 O4] Hi Hd _ Hdi]. unfold dirent_at, entry_of. f_equal. apply (view_bytes D inum O4 ip Hdi _ HP); lia.
Qed.
End Open.

Lemma dirlookup_misses d0 bs D s inum n dp ip nm env :
  txn ∅ d0 bs D s -> (length bs <= 28)%nat -> fs_wf B NI D -> open_dir D inum n dp ip s -> no_entry D inum n nm ->
  rc (cut_off d0) env (dirlookup dp nm env s) (fun r s' => r = None /\ txn ∅ d0 bs D s' /\ rest s s').
Proof using Hlo SD.
  intros Ht Hl Hwf Hod Hno. pose proof (tx_disk _ _ _ _ _ _ _ _ _ _ Ht) as Hdk. destruct (txn_quiet _ _ _ _ Ht Hl) as (P & HQ & HD & Hback).
  eapply rc_mono; [apply (dirlookup_missing me mp size P s dp ip nm n env HQ)| |].
  - apply Hod.
  - by apply (view_directory D Hwf inum n dp ip s Hod P HD).
  - change (i_size ip) with (di_size (di_of ip)). rewrite (od_di _ _ _ _ _ _ Hod). apply Hod.
  - intros j Hj. rewrite (view_entry D inum n dp ip s Hod P HD) by done. by apply Hno.
  - intros s' [Hm E]. split; [done|congruence].
  - intros r s' (-> & HQ' & E1 & E2 & E3). split_and!; [done|by apply Hback|done].
Qed.

Lemma dirlookup_finds d0 bs D s inum n dp ip nm k q c env :
  txn ∅ d0 bs D s -> (length bs <= 28)%nat -> fs_wf B NI D -> open_dir D inum n dp ip s -> (k < n)%nat ->
  (forall j, (j < k)%nat -> names nm (entry_of D inum j) = false) -> names nm (entry_of D inum k) = true ->
  iget_to (icache s) 1 (de_inum (entry_of D inum k)) = Some (q, c) ->
  rc (cut_off d0) env (dirlookup dp nm env s) (fun r s' => r = Some (q, 16 * Z.of_nat k) /\ txn ∅ d0 bs D s' /\ rest (set_icache c s) s').
Proof using Hlo SD.
  intros Ht Hl Hwf Hod Hk Hno Hyes Hget. pose proof (tx_disk _ _ _ _ _ _ _ _ _ _ Ht) as Hdk. destruct (txn_quiet _ _ _ _ Ht Hl) as (P & HQ & HD & Hback).
  pose proof (fun j Hj => view_entry D inum n dp ip s Hod P HD j Hj) as Hv.
  eapply rc_mono; [apply (dirlookup_found me mp size P s dp ip nm n k q c env HQ)| |].
  - apply Hod.
  - by apply (view_directory D Hwf inum n dp ip s Hod P HD).
  - done.
  - intros j Hj. rewrite Hv by lia. by apply Hno.
  - by rewrite Hv.
  - by rewrite Hv.
  - intros s' [Hm E]. split; [done|congruence].
  - intros r s' (-> & HQ' & E1 & E2 & E3). split_and!; [done|by apply Hback|done].
Qed.

(** The first free entry from [k] on, of [m]; the end if there is none. *)
Fixpoint free_from D (inum : Z) (k m : nat) : nat :=
  match m with
  | O => k
  | S m' => if de_inum (entry_of D inum k) =? 0 then k else free_from D inum (S k) m'
  end.
Lemma free_from_range D inum m : forall k, (k <= free_from D inum k m <= k + m)%nat.
Proof using. induction m as [|m IH]; intros k; cbn [free_from]; [lia|]. destruct (_ =? 0); [lia|]. specialize (IH (S k)). lia. Qed.

Lemma free_from_ext D D' inum m : (forall k, entry_of D' inum k = entry_of D inum k) -> forall k, free_from D' inum k m = free_from D inum k m.
Proof using. intros E. induction m as [|m IH]; intros k; cbn [free_from]; [done|]. by rewrite E, IH. Qed.

Lemma free_entry_finds D inum n dp ip P env : fs_wf B NI D -> forall m fuel s,
  (m <= n)%nat -> (m <= fuel)%nat -> quiet P s -> (forall c, contents P s c = D c) -> open_dir D inum n dp ip s ->
  rc (@stopped may s) env (free_entry fuel dp (16 * Z.of_nat (n - m)) env s)
    (fun r s' => r = 16 * Z.of_nat (free_from D inum (n - m) m) /\ quiet P s' /\ same s s').
Proof using Hlo SD.
  intros Hwf. induction m as [|m IH]; intros fuel s Hm Hfu HQ HD Hod.
  all: assert (i_size ip = 16 * Z.of_nat n) as Hsz by (change (i_size ip) with (di_size (di_of ip)); rewrite (od_di _ _ _ _ _ _ Hod); apply Hod).
  - destruct fuel; cbn [free_entry free_from]; rewrite (bind_get_inode _ _ _ _ _ (od_inode _ _ _ _ _ _ Hod)), Hsz, (proj2 (Z.leb_le _ _)) by lia; by split; [split_and!|].
  - destruct fuel as [|fuel]; [lia|]. cbn [free_entry free_from]. rewrite (bind_get_inode _ _ _ _ _ (od_inode _ _ _ _ _ _ Hod)), Hsz, (proj2 (Z.leb_gt _ _)) by lia.
    eapply rc_step; [apply (read_de_reads me mp size P s dp ip n (n - S m) _ env HQ (od_inode _ _ _ _ _ _ Hod))|done|].
    { by apply (view_directory D Hwf inum n dp ip s Hod P HD). } { lia. }
    intros de s1 (-> & HQ1 & E1). rewrite (view_entry D inum n dp ip s Hod P HD) by lia. destruct (_ =? 0); [by split; [split_and!|]|].
    replace (16 * Z.of_nat (n - S m) + SIZEOF_DIRENT) with (16 * Z.of_nat (n - m)) by (unfold SIZEOF_DIRENT; lia).
    replace (S (n - S m)) with (n - m)%nat by lia. apply (stopped_same s s1); [apply E1|].
    eapply rc_mono; [apply (IH fuel s1); [lia|lia|done| |by apply (open_dir_rest _ _ _ _ _ s); [|apply E1]]|done|].
    + intros c. rewrite (contents_same P s s1); [done|apply E1].
    + intros r s2 (-> & HQ2 & E2). split_and!; [done|done|by eapply same_trans].
Qed.

Lemma dir_free_entry d0 bs D s inum n dp ip env :
  txn ∅ d0 bs D s -> (length bs <= 28)%nat -> fs_wf B NI D -> open_dir D inum n dp ip s ->
  rc (cut_off d0) env ((let! f := dir_fuel dp in free_entry f dp 0) env s)
    (fun r s' => r = 16 * Z.of_nat (free_from D inum 0 n) /\ txn ∅ d0 bs D s' /\ rest s s').
Proof using Hlo SD.
  intros Ht Hl Hwf Hod. pose proof (tx_disk _ _ _ _ _ _ _ _ _ _ Ht) as Hdk. destruct (txn_quiet _ _ _ _ Ht Hl) as (P & HQ & HD & Hback).
  unfold dir_fuel. rewrite bind_assoc, (bind_get_inode _ _ _ _ _ (od_inode _ _ _ _ _ _ Hod)), bind_ret.
  assert (i_size ip = 16 * Z.of_nat n) as Hsz by (change (i_size ip) with (di_size (di_of ip)); rewrite (od_di _ _ _ _ _ _ Hod); apply Hod).
  pose proof (free_entry_finds D inum n dp ip P env Hwf n (Z.to_nat (i_size ip / SIZEOF_DIRENT + 2)) s) as H. rewrite Nat.sub_diag in H.
  eapply rc_mono; [apply H; try done; unfold SIZEOF_DIRENT; Z.div_mod_to_equations; lia| |].
  - intros s' [Hm E]. split; [done|congruence].
  - intros r s' (-> & HQ' & E1 & E2 & E3). split_and!; [done|by apply Hback|done].
Qed.

(** ** dirlink *)

(** The bytes of the new entry, and where it goes. *)
Definition new_entry (nm : list Z) (inum : Z) : list Z := de_bytes (mkde (u16 inum) (strncpy_l nm DIRSIZ)).
Definition entry_off D (dinum : Z) (n : nat) : Z := 16 * Z.of_nat (free_from D dinum 0 n).

Lemma length_new_entry nm inum : length (new_entry nm inum) = 16%nat.
Proof using.
  unfold new_entry, de_bytes. cbn [de_inum de_name]. rewrite length_app.
  assert (forall k t, length (strncpy_l t k) = k) as ->; [|done].
  induction k as [|k IH]; intros u; cbn [strncpy_l]; [done|]. destruct (_ =? 0); [apply length_replicate|]. cbn. by rewrite IH.
Qed.

Lemma dirlink_refines d0 bs D s dinum n dp ip nm inum env :
  txn ∅ d0 bs D s -> sb s = B -> fs_wf B NI D -> open_dir D dinum n dp ip s -> no_entry D dinum n nm ->
  16 * (Z.of_nat n + 1) <= 140 * 512 -> (2 <= free_count bm N D)%nat -> spare 11 bs ->
  rc (cut_off d0) env (dirlink dp nm inum env s)
    (fun r s' => r = 0 /\ exists bs' D' ip', txn ∅ d0 bs' D' s' /\ (length bs' <= 28)%nat /\
       saved B NI dinum (entry_off D dinum n) (new_entry nm inum) D D' /\
       (free_count bm N D <= free_count bm N D' + 2)%nat /\
       di_of ip' = disk_inode B D' dinum /\ i_ref ip' = i_ref ip /\ rest (set_icache (<[dp := ip']> (icache s)) s) s').
Proof using Hlo SD.
  intros Ht Hsb Hwf Hod Hno Hmax Hfc Hsp. assert (length bs <= 28)%nat as Hl by (destruct Hsp; lia).
  unfold dirlink. eapply rc_step; [apply (dirlookup_misses d0 bs D s dinum n dp ip nm env Ht Hl Hwf Hod Hno)|done|].
  intros r s1 (-> & Ht1 & R1). assert (open_dir D dinum n dp ip s1) as Hod1 by (apply (open_dir_rest _ _ _ _ _ s); [done|apply R1]).
  rewrite <- bind_assoc. eapply rc_step; [apply (dir_free_entry d0 bs D s1 dinum n dp ip env Ht1 Hl Hwf Hod1)|done|].
  intros r s2 (-> & Ht2 & R2). assert (open_dir D dinum n dp ip s2) as Hod2 by (apply (open_dir_rest _ _ _ _ _ s1); [done|apply R2]).
  fold (new_entry nm inum). fold (entry_off D dinum n). pose proof (free_from_range D dinum n 0) as Hff. pose proof (length_new_entry nm inum) as Hln.
  assert (SIZEOF_DIRENT = Z.of_nat (length (new_entry nm inum))) as -> by (by rewrite Hln).
  assert (rest s s2) as R by (by eapply rest_trans). destruct Hod2 as [[O1 O2 O3 O4] Hi Hd Hn Hdi]. rewrite <- Hn in O1, O2, O3, O4, Hdi.
  eapply rc_step; [apply (writei_writes me mp size L nlog B NI Hlo d0 bs D s2 dp ip (entry_off D dinum n) (umem s2) (from_local (new_entry nm inum)) (new_entry nm inum) 1 env)|done|].
  all: try done.
  - by destruct R as (_ & -> & _).
  - change (i_type ip) with (di_type (di_of ip)). by rewrite Hdi, O2.
  - unfold entry_off. lia.
  - rewrite Hln. unfold entry_off. lia.
  - right. rewrite Hln. unfold entry_off. Z.div_mod_to_equations. lia.
  - intros x s3 (-> & bs' & D' & ip' & Ht3 & [Hl3 _] & Hsv & _ & Hdi3 & [Hr3 _ _] & Hf3 & R3). rewrite Z.eqb_refl. split; [|done]. split; [done|].
    rewrite Hn in Hsv, Hdi3. exists bs', D', ip'. split_and!; try done; [lia|]. eapply rest_trans; [|exact R3].
    assert (icache s2 = icache s) as -> by apply R. by apply rest_icache.
Qed.

(** ** ialloc *)

Definition new_dinode (type : Z) : dinode := mkdi type 0 0 0 0 (replicate 13 0).

Lemma new_dinode_bytes d off type : 0 <= off -> (Z.to_nat off <= length d)%nat ->
  splice (splice d off (replicate (Z.to_nat SIZEOF_DINODE) 0)) off (bytes16 type) = splice d off (di_bytes (new_dinode type)).
Proof using.
  intros Ho Hl. unfold splice. assert (di_bytes (new_dinode type) = bytes16 type ++ replicate 62 0) as -> by reflexivity.
  assert (length (bytes16 type) = 2%nat) as E2 by done. change (Z.to_nat SIZEOF_DINODE) with 64%nat. rewrite !length_app, !length_replicate, E2.
  assert (length (take (Z.to_nat off) d) = Z.to_nat off) as Et by (rewrite length_take; lia).
  rewrite take_app_length' by done. f_equal. rewrite <- app_assoc. f_equal. rewrite (drop_app_ge (take (Z.to_nat off) d)), Et by lia.
  replace (Z.to_nat off + 2 - Z.to_nat off)%nat with 2%nat by lia. done.
Qed.

Lemma mod_data_twice {A} j g1 g2 (k : M A) env s : (mod_data j g1 ;; mod_data j g2 ;; k) env s = (mod_data j (fun d => g2 (g1 d)) ;; k) env s.
Proof using. unfold mod_data, mod_buf. rewrite !bind_modify. cbn [bcache set_bcache]. rewrite upd_upd. done. Qed.

Lemma ialloc_loop_takes type t d0 i c env : forall m fuel bs D s,
  (m < fuel)%nat -> txn ∅ d0 bs D s -> sb s = B -> fs_wf B NI D -> spare 1 bs -> Z.of_nat m <= t < sb_ninodes B -> sb_ninodes B <= NI ->
  (forall k, t - Z.of_nat m <= k < t -> di_type (disk_inode B D k) <> 0) -> di_type (disk_inode B D t) = 0 ->
  iget_to (icache s) 1 t = Some (i, c) ->
  rc (cut_off d0) env (ialloc_loop fuel 1 type (t - Z.of_nat m) env s)
    (fun r s' => r = i /\ txn ∅ d0 (add_block (IBLOCK t B) bs) (put_inode B t (new_dinode type) D) s' /\ rest (set_icache c s) s').
Proof using Hlo SD.
  induction m as [|m IH]; intros [|fuel] bs D s Hf Ht Hsb Hwf Hsp Hr Hni Hused Hfree Hget; try lia; cbn [ialloc_loop]; rewrite bind_gets, Hsb, (proj2 (Z.leb_gt _ _)) by lia.
  all: set (x := t - Z.of_nat _); assert (an_inode NI x) as Hx by (unfold an_inode, x; lia).
  all: destruct (inode_block_ok B NI (lo_inode_blocks size L nlog B NI Hlo) (lo_data _ _ _ _ _ Hlo) x Hx) as (_ & Hb1 & Hb2 & Hb3 & Hb4).
  all: destruct (lo_data _ _ _ _ _ Hlo) as (G1 & G2 & G3); destruct (block_ok size L nlog B NI Hlo (IBLOCK x B) ltac:(lia)) as [Hbr Hbl].
  all: assert (short_at (D (IBLOCK x B)) (di_off x) = di_type (disk_inode B D x)) as Ety by done; pose proof (fw_len _ _ _ Hwf (IBLOCK x B) ltac:(lia)) as Hln.
  - assert (x = t) as Ext by (unfold x; lia). rewrite Ext in *.
    eapply (txn_update me mp size L nlog ∅ d0 bs D s _ env Ht Hbr (not_held_empty _) ltac:(rewrite map_size_empty; lia)
      (fun d => splice (splice d (di_off t) (replicate (Z.to_nat SIZEOF_DINODE) 0)) (di_off t) (bytes16 type)) _ (iget 1 t)); [done|done| | |].
    + rewrite new_dinode_bytes, length_splice; rewrite ?Hln; change (length (di_bytes (new_dinode type))) with 64%nat; done || lia.
    + intros j y s' Hy Ey R'. rewrite (bind_get_buf _ _ _ _ _ Hy), Ey, Ety, Hfree. cbn [Z.eqb]. rewrite mod_data_twice. done.
    + intros s' Ht' R'. rewrite new_dinode_bytes in Ht' by (rewrite ?Hln; lia). pose proof (tx_cache _ _ _ _ _ _ _ _ _ _ Ht') as (P & HC & Hp & _).
      rewrite (iget_run me mp size P s' 1 t i c env); [|split; [done|]|by destruct R' as (-> & _)].
      * split; [|done]. split_and!; [done|by apply txn_icache|by apply rest_icache].
      * apply pins_size in Hp. pose proof (length_add_block (IBLOCK t B) bs). destruct Hsp. unfold NBUF. lia.
  - eapply (txn_read me mp size L nlog ∅ d0 bs D s _ env Ht Hbr (not_held_empty _) ltac:(rewrite map_size_empty; lia) _ (ialloc_loop fuel 1 type (x + 1))).
    + apply (spare_le nlog 1); [done|lia].
    + intros j y s' Hy Ey R'. rewrite (bind_get_buf _ _ _ _ _ Hy), Ey, Ety, (proj2 (Z.eqb_neq _ _)); [done|]. apply Hused. unfold x. lia.
    + intros s' Ht' R'. replace (x + 1) with (t - Z.of_nat m) by (unfold x; lia).
      eapply rc_mono; [apply (IH fuel bs D s'); try done; [lia|by destruct R' as (_ & -> & _)|lia| |by destruct R' as (-> & _)]|done|].
      * intros k Hk. apply Hused. lia.
      * intros r s2 (-> & Ht2 & R2). split_and!; [done|done|]. eapply rest_trans; [by apply rest_icache|exact R2].
Qed.

(** An inode that loses its addresses. *)
Lemma drop_ok D ads i : fs_ok bm N NI D ads -> fs_ok bm N NI D (with_addrs i (replicate 13 0) ads).
Proof using.
  intros O. assert (forall j sl, aslot D (with_addrs i (replicate 13 0) ads j) sl = if decide (j = i) then 0 else aslot D (ads j) sl) as Hs.
  { intros j sl. unfold with_addrs. case_decide; [|done]. assert (forall n, nth n (replicate 13 0) 0 = 0) as H0 by (intros n; apply nth_repeat0).
    unfold aslot. rewrite !H0. by destruct (sl =? -1), (sl <? NDIRECT). }
  split; try by apply O.
  - intros j Hj. unfold with_addrs. case_decide; [|by apply O]. split; [done|]. apply Forall_replicate. unfold uint_ok. lia.
  - intros j sl Hj Hsl. rewrite Hs. case_decide; [done|]. by apply O.
  - intros j j' sl sl' Hj Hj' Hsl Hsl'. rewrite !Hs. repeat case_decide; try done. by apply (fk_own _ _ _ _ _ O).
Qed.

Lemma new_inode_set D t type : fs_wf B NI D -> an_inode NI t -> short_ok type ->
  inode_set B NI t (new_dinode type) D (put_inode B t (new_dinode type) D).
Proof using Hlo.
  intros Hwf Hi Hty. destruct (put_inode_wf size L nlog B NI Hlo D t (new_dinode type) Hi) as (H1 & H2 & H3).
  - split; try done; cbn; unfold short_ok, uint_ok; try lia. repeat constructor; lia.
  - apply drop_ok, Hwf.
  - apply Hwf.
  - apply Hwf.
  - split; try done. apply (others_data B NI); [done|intros c Hc; apply H3; lia|]. intros j Hj Hne. by rewrite H2, decide_False by done.
Qed.

Lemma ialloc_takes d0 bs D s type t i c env :
  txn ∅ d0 bs D s -> sb s = B -> fs_wf B NI D -> spare 1 bs -> 1 <= t < sb_ninodes B -> sb_ninodes B <= NI ->
  (forall k, 1 <= k < t -> di_type (disk_inode B D k) <> 0) -> di_type (disk_inode B D t) = 0 ->
  iget_to (icache s) 1 t = Some (i, c) ->
  rc (cut_off d0) env (ialloc 1 type env s)
    (fun r s' => r = i /\ txn ∅ d0 (add_block (IBLOCK t B) bs) (put_inode B t (new_dinode type) D) s' /\ rest (set_icache c s) s').
Proof using Hlo SD.
  intros Ht Hsb Hwf Hsp Hr Hni Hu Hf Hg. unfold ialloc. rewrite bind_gets, Hsb.
  pose proof (ialloc_loop_takes type t d0 i c env (Z.to_nat (t - 1)) (Z.to_nat (sb_ninodes B + 1)) bs D s) as H.
  replace (t - Z.of_nat (Z.to_nat (t - 1))) with 1 in H by lia. apply H; try done; lia.
Qed.

(** ** nameiparent of a path in the root directory *)

Lemma root_block : an_inode NI ROOTINO -> 0 <= IBLOCK ROOTINO B < size.
Proof using Hlo.
  intros Hi. destruct (inode_block_ok B NI (lo_inode_blocks size L nlog B NI Hlo) (lo_data _ _ _ _ _ Hlo) _ Hi) as (_ & H1 & H2 & _).
  destruct (lo_data _ _ _ _ _ Hlo) as (G1 & G2 & G3). pose proof (lo_disk _ _ _ _ _ Hlo). lia.
Qed.

(** A lock that was taken and given back. *)
Lemma rest_relock s s1 s2 i c : slocks s !! SLinode i = None -> rest (set_icache c (locked_inode mp i s)) s1 -> rest (unlocked_inode i s1) s2 -> rest (set_icache c s) s2.
Proof using.
  intros Hs (A1 & A2 & A3 & A4 & A5). apply rest_trans. repeat split; unfold umem in *; cbn in *; try done.
  intros j. destruct (decide (j = i)) as [->|Hne]; [by rewrite lookup_delete_eq, Hs|]. rewrite lookup_delete_ne by congruence. rewrite A5, lookup_insert_ne by congruence. done.
Qed.

Lemma nameiparent_root d0 bs D s e nm r c ip env :
  txn ∅ d0 bs D s -> (length bs <= 28)%nat -> sb s = B -> an_inode NI ROOTINO -> e <> [] -> slash ∉ e ->
  iget_to (icache s) ROOTDEV ROOTINO = Some (r, c) -> c !! r = Some ip -> slocks s !! SLinode r = None ->
  let dir := fetched D B ip in
  i_type dir = T_DIR ->
  rc (cut_off d0) env (nameiparent (slash :: e) nm env s)
    (fun x s' => x = (Some r, set_elem e nm) /\ txn ∅ d0 bs D s' /\ rest (set_icache (<[r := dir]> c) s) s').
Proof using Hlo SD.
  intros Ht Hl Hsb Hroot He Hsl Hget Hr Hlk dir Hty. unfold nameiparent, namex. cbn [hd]. rewrite Z.eqb_refl.
  destruct (txn_quiet _ _ _ _ Ht Hl) as (P & HQ & HD & Hback). rewrite (bind_ok _ _ _ _ _ _ _ (iget_run me mp size P s _ _ r c env HQ Hget)).
  destruct (iget_to_got _ _ _ _ _ Hget) as (ip' & Hr' & Hp & Hd & Hn). rewrite Hr in Hr'. injection Hr' as <-. cbn [length namex_loop].
  rewrite skipelem_child by done. set (s1 := set_icache c s). assert (txn ∅ d0 bs D s1) as Ht1 by by apply txn_icache.
  eapply rc_step; [apply (txn_ilock d0 bs D s1 r ip env Ht1 Hl Hr Hp Hd Hlk)|done|]; change (sb s1) with (sb s); rewrite ?Hsb.
  { rewrite Hn. by apply root_block. } { fold dir. by rewrite Hty. }
  intros a s2 [Ht2 R2]. fold dir in R2. change (icache s1) with c in R2.
  assert (icache s2 !! r = Some dir) as Hi2 by (destruct R2 as (-> & _); cbn; apply list_lookup_insert_eq; by eapply lookup_lt_Some).
  rewrite (bind_get_inode _ _ _ _ _ Hi2), Hty. cbn [Z.eqb negb T_DIR Pos.eqb andb]. rewrite bool_decide_eq_true_2 by done.
  eapply rc_step; [apply (txn_iunlock d0 bs D s2 r dir env Ht2 Hl Hi2)|done|].
  - unfold dir. rewrite fetched_keeps. done.
  - destruct R2 as (_ & _ & _ & _ & ->). cbn. rewrite lookup_insert_eq. by eexists.
  - intros b s3 [Ht3 R3]. split; [|done]. split_and!; [done|done|]. by apply (rest_relock s s2 s3 r).
Qed.
End Fsdir.
