(* ===== verification/Path.v ===== *)
(** * Path names are split at slashes

    [skipelem] of fs.c takes a path apart from the left, and [namecmp]
    compares what it finds with the names that [dirlink] stored: together
    they compare the elements of the path, cut to DIRSIZ characters. *)

From stdpp Require Import base numbers list gmap strings.
From S2P Require Import Prelude Kernel Console Buf Dir.

(** ** The reference: split at every slash, drop the empty parts *)

Fixpoint split_slash (path : list Z) : list (list Z) :=
  match path with
  | [] => [[]]
  | c :: path' =>
      if c =? slash then [] :: split_slash path'
      else match split_slash path' with
           | e :: es => (c :: e) :: es
           | [] => [[c]]
           end
  end.
Definition elements_of (path : list Z) : list (list Z) := filter (fun e => e <> []) (split_slash path).

(** The C string in a buffer. *)
Fixpoint c_string (nm : list Z) : list Z :=
  match nm with
  | [] => []
  | c :: nm' => if c =? 0 then [] else c :: c_string nm'
  end.

(** The names that the loop [while((path = skipelem(path, name)) != 0)] sees. *)
Fixpoint names_seen (fuel : nat) (path nm : list Z) : option (list (list Z)) :=
  match skipelem path nm with
  | None => Some []
  | Some (path', nm') =>
      match fuel with
      | O => None
      | S f => cons (c_string nm') <$> names_seen f path' nm'
      end
  end.

Definition no_nul (l : list Z) : Prop := Forall (fun c => c <> 0) l.

(** ** [skipelem] *)

Lemma elements_skip path : elements_of (skip_slashes path) = elements_of path.
Proof.
  induction path as [|c path IH]; [done|]. cbn [skip_slashes]. destruct (c =? slash) eqn:E; [|done].
  rewrite IH. unfold elements_of. cbn [split_slash]. rewrite E. by rewrite filter_cons_False by (intros Hx; by apply Hx).
Qed.

Lemma element_split path e rest :
  element path = (e, rest) ->
  split_slash path = e :: match rest with [] => [] | _ :: r => split_slash r end /\
  path = e ++ rest /\ (forall c r, rest = c :: r -> c = slash).
Proof.
  revert e rest. induction path as [|c path IH]; intros e rest; cbn [element split_slash].
  - intros [= <- <-]. done.
  - destruct (Z.eqb_spec c slash) as [->|Hc].
    + intros [= <- <-]. split_and!; [done|done|]. by intros ? ? [= <-].
    + destruct (element path) as [e0 r0] eqn:E. intros [= <- <-].
      destruct (IH e0 r0 eq_refl) as (-> & -> & Hr). done.
Qed.

Lemma skip_slashes_first path c p : skip_slashes path = c :: p -> c <> slash.
Proof.
  induction path as [|a path IH]; cbn; [done|]. destruct (Z.eqb_spec a slash); [done|]. by intros [= <- <-].
Qed.

Lemma skip_slashes_suffix path : exists l, path = l ++ skip_slashes path.
Proof.
  induction path as [|c path [l IH]]; [by exists []|]. cbn [skip_slashes]. destruct (c =? slash).
  - exists (c :: l). cbn. by rewrite <- IH.
  - by exists [].
Qed.

(** The element that [skipelem] finds is the first one, and the path that
    is left has the others and is shorter. *)
Lemma skipelem_first path nm :
  match skipelem path nm with
  | None => elements_of path = []
  | Some (path', nm') =>
      exists e, nm' = set_elem e nm /\ elements_of path = e :: elements_of path' /\
        (length path' < length path)%nat /\ exists l r, path = l ++ e ++ r ++ path'
  end.
Proof.
  unfold skipelem. rewrite <- (elements_skip path). destruct (skip_slashes_suffix path) as [l Hl].
  destruct (skip_slashes path) as [|c p] eqn:E; [done|].
  destruct (element (c :: p)) as [e rest] eqn:Ee. destruct (element_split _ _ _ Ee) as (Hs & Hp & Hr).
  assert (e <> []) as Hne.
  { intros ->. cbn in Hp. destruct (skip_slashes_first _ _ _ E). by eapply Hr. }
  destruct (skip_slashes_suffix rest) as [r Hrest]. exists e. split_and!; [done| | |].
  - unfold elements_of at 1. rewrite Hs, filter_cons_True by done. f_equal. rewrite elements_skip.
    destruct rest as [|c' r']; [done|]. rewrite (Hr c' r' eq_refl). unfold elements_of. cbn [split_slash].
    rewrite Z.eqb_refl. by rewrite filter_cons_False by (intros Hx; by apply Hx).
  - assert (0 < length e)%nat by (destruct e; [done|cbn; lia]).
    apply (f_equal length) in Hl, Hp, Hrest. rewrite !length_app in *. lia.
  - exists l, r. by rewrite <- Hrest, <- Hp.
Qed.

(** ** Names *)

Lemma c_string_app e l : no_nul e -> c_string (e ++ 0 :: l) = e.
Proof.
  induction 1 as [|c e Hc _ IH]; cbn; [done|]. rewrite (proj2 (Z.eqb_neq c 0)) by done. by rewrite IH.
Qed.
Lemma c_string_all e : no_nul e -> c_string e = e.
Proof. induction 1 as [|c e Hc _ IH]; cbn; [done|]. rewrite (proj2 (Z.eqb_neq c 0)) by done. by rewrite IH. Qed.

Lemma c_string_elem e nm : no_nul e -> c_string (set_elem e nm) = take DIRSIZ e.
Proof.
  intros He. unfold set_elem. destruct (Nat.leb_spec DIRSIZ (length e)).
  - by apply c_string_all, Forall_take.
  - rewrite c_string_app by done. by rewrite take_ge by lia.
Qed.

Lemma names_seen_elements fuel : forall path nm,
  no_nul path -> (length path <= fuel)%nat -> names_seen fuel path nm = Some (take DIRSIZ <$> elements_of path).
Proof.
  induction fuel as [|fuel IH]; intros path nm Hn Hf; cbn [names_seen]; pose proof (skipelem_first path nm) as Hs;
    (destruct (skipelem path nm) as [[path' nm']|]; [|by rewrite Hs]); destruct Hs as (e & -> & -> & Hlt & l & r & Hp).
  - lia.
  - unfold no_nul in Hn. rewrite Hp in Hn. apply Forall_app in Hn as [_ Hn]. apply Forall_app in Hn as [He Hn].
    apply Forall_app in Hn as [_ Hn]. rewrite IH by (done || lia). cbn. by rewrite c_string_elem.
Qed.

(** Comparing a name with one that was stored. *)
Lemma strncmp_strncpy n : forall s t,
  strncmp_l s (strncpy_l t n) n = 0 <-> take n (c_string s) = take n (c_string t).
Proof.
  assert (forall n s, strncmp_l s (replicate n 0) n = 0 <-> take n (c_string s) = []) as Hz.
  { intros m s. destruct m as [|m]; [done|]. cbn. destruct s as [|p s]; cbn; [done|].
    destruct (Z.eqb_spec p 0) as [->|Hp]; cbn; [done|]. split; [lia|done]. }
  induction n as [|n IH]; intros s t; [done|]. cbn [strncpy_l]. destruct t as [|q t]; cbn [hd tail c_string].
  { rewrite Z.eqb_refl. by rewrite Hz. }
  destruct (Z.eqb_spec q 0) as [->|Hq]; [by rewrite Hz|]. cbn [strncmp_l hd tail].
  destruct s as [|p s]; cbn [hd tail c_string].
  { cbn. split; [lia|done]. }
  destruct (Z.eqb_spec p 0) as [->|Hp]; cbn [negb andb take].
  { split; [lia|done]. }
  destruct (Z.eqb_spec p q) as [->|Hpq].
  - rewrite IH. split; [by intros ->|by intros [= ->]].
  - split; [lia|]. by intros [= ? _].
Qed.

Lemma namecmp_elem e nm e' :
  no_nul e -> no_nul e' ->
  namecmp (set_elem e nm) (strncpy_l e' DIRSIZ) = 0 <-> take DIRSIZ e = take DIRSIZ e'.
Proof.
  intros He He'. unfold namecmp. rewrite strncmp_strncpy, c_string_elem, (c_string_all e') by done.
  by rewrite take_take, Nat.min_id.
Qed.

(** C33: for any path, the calls of [skipelem] in [namex] end and see
    exactly the non-empty parts between the slashes, from left to right, each
    cut to DIRSIZ characters; and [namecmp] finds a name seen this way equal
    to a name stored by [dirlink] exactly if the first DIRSIZ characters are
    the same. *)
Theorem path_elements path nm :
  no_nul path ->
  names_seen (length path) path nm = Some (take DIRSIZ <$> elements_of path) /\
  forall path' nm' e', skipelem path nm = Some (path', nm') -> no_nul e' ->
    exists e, head (elements_of path) = Some e /\
      (namecmp nm' (strncpy_l e' DIRSIZ) = 0 <-> take DIRSIZ e = take DIRSIZ e').
Proof.
  intros Hn. split; [by apply names_seen_elements|]. intros path' nm' e' E He'.
  pose proof (skipelem_first path nm) as Hs. rewrite E in Hs. destruct Hs as (e & -> & -> & _ & l & r & Hp).
  exists e. split; [done|]. apply namecmp_elem; [|done]. unfold no_nul in *. rewrite Hp in Hn.
  apply Forall_app in Hn as [_ Hn]. by apply Forall_app in Hn as [He _].
Qed.

Lemma path_elements_witness :
  let path := bytes_of "//usr///a_rather_long_name/x" in
  names_seen (length path) path (replicate DIRSIZ 0) = Some (map bytes_of ["usr"; "a_rather_long_"; "x"]%string) /\
  exists e, head (elements_of path) = Some e /\ e = bytes_of "usr".
Proof.
  intros path. assert (no_nul path) as Hn by (vm_compute; repeat constructor; discriminate).
  destruct (path_elements path (replicate DIRSIZ 0) Hn) as [E1 E2]. rewrite E1. split; [reflexivity|].
  destruct (skipelem path (replicate DIRSIZ 0)) as [[path' nm']|] eqn:E; [|discriminate E].
  destruct (E2 path' nm' [] eq_refl (Forall_nil_2 _)) as (e & He & _). exists e. split; [exact He|].
  vm_compute in He. injection He as <-. reflexivity.
Defined.
