(* ===== verification/File.v ===== *)
(** * file.c and pipealloc: the table of open files *)

From stdpp Require Import base numbers list gmap strings.
From S2P Require Import Prelude Kernel Spinlock Sched Kalloc Console Umem Str Vm Pipe Intr Kbd Sleeplock Buf Bio Log Inode Consdev Dir.

Section File.
Context `{Driver}.

Definition get_file (f : nat) : M file := fun env s =>
  match files s !! f with Some x => Ok x s env | None => Panic "trap" end.
Definition mod_file (f : nat) (g : file -> file) : M unit :=
  modify (fun s => set_files (upd f g (files s)) s).

Definition fileinit : M unit := initlock LFtable.

Definition filealloc : M (option nat) :=
  acquire LFtable ;;
  let! t := gets files in
  match find_idx (fun f => f_ref f =? 0) t with
  | Some i =>
      mod_file i (set_f_ref 1) ;;
      release LFtable ;;
      ret (Some i)
  | None => release LFtable ;; ret None
  end.

Definition filedup (f : nat) : M nat :=
  acquire LFtable ;;
  let! x := get_file f in
  if f_ref x <? 1 then panic "filedup" else
  mod_file f (fun x => set_f_ref (f_ref x + 1) x) ;;
  release LFtable ;;
  ret f.

Definition fileclose `{Link} (f : nat) : M unit :=
  acquire LFtable ;;
  let! x := get_file f in
  if f_ref x <? 1 then panic "fileclose" else
  mod_file f (fun x => set_f_ref (f_ref x - 1) x) ;;
  let! ff := get_file f in
  if 0 <? f_ref ff then release LFtable else
  mod_file f (set_f_ref 0) ;;
  mod_file f (set_f_type FD_NONE) ;;
  release LFtable ;;
  match f_type ff with
  | FD_PIPE => pipeclose (f_pipe ff) (f_writable ff)
  | FD_INODE =>
      begin_op ;;
      let! ip := deref (f_ip ff) in
      iput ip ;;
      end_op
  | FD_NONE => ret tt
  end.

(** stat.h: the fields of the struct at [st]. *)
Definition put_stat (st : Z) (x : stat) : M unit :=
  ustore32 (st + 4) (st_dev x) ;;
  ustore32 (st + 8) (st_ino x) ;;
  ustore st (bytes16 (st_type x)) ;;
  ustore (st + 12) (bytes16 (st_nlink x)) ;;
  ustore32 (st + 16) (st_size x).

Definition filestat (f : nat) (st : Z) : M Z :=
  let! x := get_file f in
  match f_type x with
  | FD_INODE =>
      ilock (f_ip x) ;;
      let! i := deref (f_ip x) in
      let! v := stati i in
      put_stat st v ;;
      iunlock (f_ip x) ;;
      ret 0
  | _ => ret (-1)
  end.

(** [if(r > 0) f->off += r]. *)
Definition advance (f : nat) (r : Z) : M unit :=
  when (0 <? r) (mod_file f (fun x => set_f_off (u32 (f_off x + r)) x)).

Definition fileread (f : nat) (addr n : Z) : M Z :=
  let! x := get_file f in
  if negb (f_readable x) then ret (-1) else
  match f_type x with
  | FD_PIPE => piperead (f_pipe x) addr n
  | FD_INODE =>
      ilock (f_ip x) ;;
      let! i := deref (f_ip x) in
      let! x := get_file f in
      let! (r, _) := readi i (to_user addr) (f_off x) (u32 n) in
      advance f r ;;
      iunlock (f_ip x) ;;
      ret r
  | FD_NONE => panic "fileread"
  end.

(** A transaction of the write, and the loop over them: every one but the
    last writes [max] bytes.  Returns [i]. *)
Definition write_max : Z := (LOGSIZE - 1 - 1 - 2) / 2 * 512.

Definition write_chunk (f : nat) (addr i n1 : Z) : M Z :=
  begin_op ;;
  let! x := get_file f in
  ilock (f_ip x) ;;
  let! ip := deref (f_ip x) in
  let! x := get_file f in
  let! r := writei ip (from_user (u32 (addr + i))) (f_off x) (u32 n1) in
  advance f r ;;
  iunlock (f_ip x) ;;
  end_op ;;
  ret r.

Fixpoint filewrite_loop (fuel : nat) (f : nat) (addr n i : Z) : M Z :=
  if n <=? i then ret i else
  match fuel with
  | O => halt WFuel
  | S k =>
      let n1 := Z.min (n - i) write_max in
      let! r := write_chunk f addr i n1 in
      if r <? 0 then ret i else
      if negb (r =? n1) then panic "short filewrite" else
      filewrite_loop k f addr n (i + r)
  end.

Definition filewrite (f : nat) (addr n : Z) : M Z :=
  let! x := get_file f in
  if negb (f_writable x) then ret (-1) else
  match f_type x with
  | FD_PIPE => pipewrite (f_pipe x) addr n
  | FD_INODE =>
      let! i := filewrite_loop (Z.to_nat (n / write_max + 1)) f addr n 0 in
      ret (if i =? n then n else -1)
  | FD_NONE => panic "filewrite"
  end.

(** ** pipe.c: pipealloc *)

(** The [goto bad] part. *)
Definition pipe_bad `{Link} (f0 f1 : option nat) : M (option (nat * nat)) :=
  (match f0 with Some f => fileclose f | None => ret tt end) ;;
  (match f1 with Some f => fileclose f | None => ret tt end) ;;
  ret None.

Definition pipe_end (a : Z) (r : bool) (x : file) : file :=
  set_f_pipe a (set_f_writable (negb r) (set_f_readable r (set_f_type FD_PIPE x))).

(** What [kalloc] left in the page is in the buffer of the new pipe. *)
Definition new_pipe (m : gmap Z Z) (a : Z) : pipe :=
  mkpipe ((fun k => mget m (V2P a + 52 + k)) <$> seqZ 0 PIPESIZE) 0 0 true true.

Definition pipealloc `{Link} : M (option (nat * nat)) :=
  let! f0 := filealloc in
  match f0 with
  | None => pipe_bad None None
  | Some a0 =>
      let! f1 := filealloc in
      match f1 with
      | None => pipe_bad f0 None
      | Some a1 =>
          let! p := kalloc in
          if p =? 0 then pipe_bad f0 f1 else
          modify (fun s => set_pipes (<[p := new_pipe (phys s) p]> (pipes s)) s) ;;
          initlock (LPipe p) ;;
          mod_file a0 (pipe_end p true) ;;
          mod_file a1 (pipe_end p false) ;;
          ret (Some (a0, a1))
      end
  end.
End File.
