(* ===== verification/Fsatomic.v ===== *)
(** * Writes to files survive power failures

    The file system that mkfs builds satisfies the invariant of Fsview.v;
    [filewrite] of file.c, one transaction of the log, replaces a part of a
    file on the disk or leaves the disk as it was, whenever the power
    fails, and never touches another file. *)

From stdpp Require Import base numbers list gmap strings.
From S2P Require Import Prelude Kernel Spinlock Sched Sleeplock Kalloc Console Umem Signal Str Mkfs Mkfsok Mkfsimg.
From S2P Require Import Buf Memide Ring Bio Bcache Log Logsafe Crash Inode Consdev Dir Pipe Fsread Fsimage Fstxn Fsview Fswrite Fsfile Fstrunc Fsdir File.

(** ** Blocks that agree outside of the log *)

Section Agree.
Context (B : superblock) (NI : Z).
Notation bm := (sb_bmapstart B).
Notation N := (sb_size B).
Hypothesis Hinodes : forall i, an_inode NI i -> 0 <= sb_inodestart B <= sb_inodestart B + i / IPB /\ sb_inodestart B + i / IPB < bm.
Hypothesis Hgeo : geometry bm N.
Hypothesis Hst : sb_inodestart B <= bm.
Context (D D2 : Z -> list Z).
Hypothesis Hag : forall c, sb_inodestart B <= c -> D2 c = D c.

Lemma agree_inode j : an_inode NI j -> disk_inode B D2 j = disk_inode B D j.
Proof using Hinodes Hgeo Hag.
  intros Hj. unfold disk_inode. rewrite Hag; [done|]. by apply (inode_block_ok B NI Hinodes Hgeo).
Qed.
Lemma agree_addrs j : an_inode NI j -> disk_addrs B D2 j = disk_addrs B D j.
Proof using Hinodes Hgeo Hag. intros Hj. unfold disk_addrs. by rewrite agree_inode. Qed.

Hypothesis Hwf : fs_wf B NI D.

Lemma agree_slot j s : an_inode NI j -> aslot D2 (disk_addrs B D2 j) s = aslot D (disk_addrs B D j) s.
Proof using Hinodes Hgeo Hag Hwf Hst.
  intros Hj. rewrite agree_addrs by done. destruct (decide (nth 12 (disk_addrs B D j) 0 = 0)) as [E|E].
  - unfold aslot. change (Z.to_nat NDIRECT) with 12%nat. by rewrite E.
  - apply aslot_ext, Hag. pose proof (indirect_used bm N NI D _ (fw_ok _ _ _ Hwf) j Hj E). lia.
Qed.

Lemma agree_wf : fs_wf B NI D2.
Proof using Hinodes Hgeo Hag Hwf Hst.
  pose proof (fw_ok _ _ _ Hwf) as O. assert (forall b, is_free bm D2 b = is_free bm D b) as Hf by (intros b; unfold is_free; by rewrite Hag).
  split; [split| |].
  - intros b Hb. rewrite Hag by lia. by apply O.
  - intros b Hb. rewrite Hf. by apply O.
  - intros i Hi. rewrite agree_addrs by done. by apply O.
  - intros i s Hi Hs. rewrite agree_slot, Hf by done. by apply O.
  - intros i i' s s' Hi Hi' Hs Hs'. rewrite !agree_slot by done. by apply O.
  - intros b Hb. rewrite Hag by done. by apply (fw_len _ _ _ Hwf).
  - intros i Hi. rewrite agree_inode by done. by apply Hwf.
Qed.

Lemma agree_file j : an_inode NI j -> whole B D j -> whole B D2 j /\ file_at B D2 j = file_at B D j.
Proof using Hinodes Hgeo Hag Hwf Hst.
  intros Hj [Hs Hw]. assert (file_size B D2 j = file_size B D j) as Es by (unfold file_size; by rewrite agree_inode).
  assert (forall k, 0 <= k < file_size B D j -> aslot D2 (disk_addrs B D2 j) (k / 512) = aslot D (disk_addrs B D j) (k / 512)) as Hsl by (intros k Hk; by apply agree_slot).
  split.
  - split; rewrite Es; [done|]. intros k Hk. rewrite Hsl by done. by apply Hw.
  - unfold file_at. rewrite Es. apply list_fmap_ext. intros n x Hx. apply lookup_seqZ in Hx as [-> Hx]. assert (0 <= 0 + Z.of_nat n < file_size B D j) as Hk by lia.
    unfold abyte. rewrite Hsl by done. f_equal. apply Hag. assert (0 <= 0 + Z.of_nat n < 140 * 512) as Hb%div_bound by lia.
    destruct (fk_slot _ _ _ _ _ (fw_ok _ _ _ Hwf) j ((0 + Z.of_nat n) / 512) Hj ltac:(unfold is_slot; lia) (Hw _ Hk)). lia.
Qed.

Lemma saved_agree D0 inum off data : an_inode NI inum -> saved B NI inum off data D0 D -> saved B NI inum off data D0 D2.
Proof using Hinodes Hgeo Hag Hwf Hst.
  intros Hi [S1 S2 S3 S4 S5]. destruct (agree_file inum Hi S2) as [H1 H2]. split; [apply agree_wf|done|congruence| |by rewrite agree_inode].
  intros j Hj Hne. destruct (S4 j Hj Hne) as [E1 E2]. split; [by rewrite agree_inode|]. intros Hw. destruct (E2 Hw) as [Hw1 Hf1].
  destruct (agree_file j Hj Hw1) as [Hw2 Hf2]. split; [done|congruence].
Qed.
End Agree.

(** ** The file system that mkfs builds *)

Section Image.
Context (im : list block) (fb : Z) (fs : list Mkfsimg.file) (Him : image im fb fs) (Hlen : (length fs <= 207)%nat).
Let D := block_of (disk_of im) 1.

Lemma image_block b : 0 <= b < 1000 -> D b = blk im b.
Proof using Him. apply block_of_disk, Him. Qed.

Lemma image_inode i : 0 <= i < 208 -> disk_inode sb_built D i = kernel_inode im i.
Proof using Him Hlen.
  intros Hi. unfold disk_inode, kernel_inode. rewrite (ig_sb _ _ _ Him). change (IBLOCK i sb_built) with (IBLOCK i fs_sb).
  destruct (iblock_ok i Hi) as (E & Hb & _). rewrite image_block by lia. done.
Qed.

(** An inode is that of a file, or not in use. *)
Lemma inode_cases i : 0 <= i < 208 -> (exists k f, i = inum_of k /\ fs !! k = Some f) \/ kernel_inode im i = di_zero.
Proof using Him Hlen.
  intros Hi. destruct (decide (i = 0 \/ Z.of_nat (length fs) < i)) as [H|H]; [right; by apply (ig_unused _ _ _ Him)|left].
  destruct (lookup_lt_is_Some_2 fs (Z.to_nat (i - 1))) as [f Hf]; [lia|]. exists (Z.to_nat (i - 1)), f. split; [unfold inum_of; lia|done].
Qed.

Lemma unused_slot s : aslot D (di_addrs di_zero) s = 0.
Proof using.
  assert (forall n, nth n (replicate 13 0) 0 = 0) as H by (intros n; apply nth_repeat0). unfold aslot, di_zero. cbn [di_addrs].
  rewrite !H. by destruct (s =? -1), (s <? NDIRECT).
Qed.

Lemma image_slot k f s : fs !! k = Some f -> is_slot s ->
  aslot D (disk_addrs sb_built D (inum_of k)) s = slot im (kernel_inode im (inum_of k)) s.
Proof using Him Hlen.
  intros Hk Hs. assert (0 <= inum_of k < 208) as Hi by (apply lookup_lt_Some in Hk; unfold inum_of; lia).
  unfold disk_addrs. rewrite image_inode by done. set (d := kernel_inode im (inum_of k)). unfold aslot, slot, addr.
  destruct (s =? -1); [done|]. destruct (s <? NDIRECT); [done|]. destruct (Z.eqb_spec (nth (Z.to_nat NDIRECT) (di_addrs d) 0) 0) as [E|E]; [done|].
  rewrite image_block; [done|]. destruct (ig_own _ _ _ Him) as [own Ho]. pose proof (ig_used _ _ _ Him) as Hu.
  destruct (Ho k f (-1) Hk ltac:(unfold is_slot; lia) E) as [_ Hr]. change (slot im (kernel_inode im (inum_of k)) (-1)) with (nth (Z.to_nat NDIRECT) (di_addrs d) 0) in Hr. lia.
Qed.

Lemma image_own : exists own : Z -> option (nat * Z), forall i s, 0 <= i < 208 -> is_slot s -> aslot D (disk_addrs sb_built D i) s <> 0 ->
  (exists k, i = inum_of k /\ own (aslot D (disk_addrs sb_built D i) s) = Some (k, s)) /\ 59 <= aslot D (disk_addrs sb_built D i) s < fb.
Proof using Him Hlen.
  destruct (ig_own _ _ _ Him) as [own Ho]. exists own. intros i s Hi Hs Hn. destruct (inode_cases i Hi) as [(k & f & -> & Hk)|E].
  - rewrite (image_slot k f) in Hn |- * by done. destruct (Ho k f s Hk Hs Hn) as [H1 H2]. split; [by exists k|done].
  - unfold disk_addrs in Hn. rewrite image_inode, E, unused_slot in Hn by done. done.
Qed.

Lemma image_wf : fs_wf sb_built 208 D.
Proof using Him Hlen.
  pose proof (ig_used _ _ _ Him) as [Hu1 Hu2]. pose proof (total_nonneg fs) as Hn. destruct image_own as [own Ho].
  assert (forall b, 0 <= b < 1000 -> is_free 58 D b = (fb <=? b)) as Hf by (intros b Hb; unfold is_free; rewrite image_block by lia; by apply Him).
  split; [split|..]; change (sb_bmapstart sb_built) with 58; change (sb_size sb_built) with 1000; unfold an_inode.
  - intros b _. apply length_block_of_disk, Him.
  - intros b Hb. rewrite Hf by lia. apply Z.leb_gt. lia.
  - intros i Hi. unfold disk_addrs. rewrite image_inode by done. destruct (inode_cases i Hi) as [(k & f & -> & Hk)| -> ].
    + destruct (sd_ok _ _ _ (ig_files _ _ _ Him k f Hk)). done.
    + split; [done|]. apply Forall_replicate. unfold uint_ok. lia.
  - intros i s Hi Hs Hnz. destruct (Ho i s Hi Hs Hnz) as [_ Hr]. split; [lia|]. rewrite Hf by lia. apply Z.leb_gt. lia.
  - intros i i' s s' Hi Hi' Hs Hs' Hnz E. destruct (Ho i s Hi Hs Hnz) as [(k & -> & E1) _].
    destruct (Ho i' s' Hi' Hs' ltac:(by rewrite <- E)) as [(k' & -> & E2) _]. rewrite <- E, E1 in E2. by injection E2 as -> ->.
  - intros b _. apply length_block_of_disk, Him.
  - intros i Hi. rewrite image_inode by done. destruct (inode_cases i Hi) as [(k & f & -> & Hk)| -> ]; [apply (ig_files _ _ _ Him k f Hk)|].
    split; cbn; try done; unfold short_ok, uint_ok; try lia. repeat constructor; lia.
Qed.

(** A file has all of its blocks if its size is within them, as it is unless
    the root directory fills its blocks. *)
Lemma image_padded k f : fs !! k = Some f -> let len := Z.of_nat (length (snd f)) in len <= 140 * 512 -> final_size k f <= 512 * nb_for len ->
  whole sb_built D (inum_of k) /\ file_at sb_built D (inum_of k) = snd f ++ replicate (Z.to_nat (final_size k f - len)) 0.
Proof using Him Hlen.
  intros Hk len Hl Hfs. assert (0 <= inum_of k < 208) as Hi by (apply lookup_lt_Some in Hk; unfold inum_of; lia).
  pose proof (ig_files _ _ _ Him _ _ Hk) as Hsd. set (i := inum_of k) in *.
  assert (0 <= len <= final_size k f) as Hle by (unfold final_size; destruct k; fold len; Z.div_mod_to_equations; lia).
  assert (512 * nb_for len <= 140 * 512) as Hnb by (unfold nb_for; Z.div_mod_to_equations; lia).
  assert (file_size sb_built D i = final_size k f) as Es by (unfold file_size; rewrite image_inode by done; apply (sd_size _ _ _ Hsd)).
  assert (forall x, 0 <= x < final_size k f -> aslot D (disk_addrs sb_built D i) (x / 512) <> 0 /\ abyte D (disk_addrs sb_built D i) x = byte (snd f) x) as Hx.
  { intros x Hx. assert (0 <= x / 512 < 140) as Hb by (apply div_bound; lia). rewrite (image_slot k f) by (done || unfold is_slot; lia).
    assert (slot im (kernel_inode im i) (x / 512) <> 0) as Hn by (apply (sd_blocks _ _ _ Hsd); [done|apply nb_for_iff; fold len; Z.div_mod_to_equations; lia]).
    split; [done|]. rewrite <- (sd_bytes _ _ _ Hsd x) by (fold len; lia). unfold abyte, file_byte.
    rewrite (image_slot k f) by (done || unfold is_slot; lia). f_equal. apply image_block.
    destruct (ig_own _ _ _ Him) as [own Ho]. pose proof (ig_used _ _ _ Him). destruct (Ho k f (x / 512) Hk ltac:(unfold is_slot; lia) Hn) as [_ Hr].
    unfold i in *. lia. }
  split.
  - split; rewrite Es; [lia|]. intros x Hxr. by apply Hx.
  - apply bytes_eq; [rewrite length_app, length_replicate; apply Nat2Z.inj; rewrite length_file_at; lia|]. intros x Hxr. rewrite length_file_at in Hxr by lia.
    rewrite byte_file_at by done. rewrite (proj2 (Hx x ltac:(lia))), byte_app by lia. fold len.
    destruct (Z.ltb_spec x len); [done|]. rewrite byte_over by (fold len; lia). symmetry. apply nth_repeat0.
Qed.

(** The others do have. *)
Lemma image_file k f : fs !! S k = Some f -> Z.of_nat (length (snd f)) <= 140 * 512 ->
  whole sb_built D (inum_of (S k)) /\ file_at sb_built D (inum_of (S k)) = snd f.
Proof using Him Hlen.
  intros Hk Hl. destruct (image_padded (S k) f Hk Hl) as [Hw ->]; [unfold nb_for; cbn [final_size]; Z.div_mod_to_equations; lia|].
  split; [done|]. cbn [final_size]. by rewrite Z.sub_diag, app_nil_r.
Qed.
(** The blocks from [fb] on are free. *)
Lemma image_free : (Z.to_nat (1000 - fb) <= free_count 58 1000 D)%nat.
Proof using Him.
  clear Hlen. pose proof (ig_used _ _ _ Him) as [Hu1 Hu2]. pose proof (total_nonneg fs) as Hn. rewrite <- (length_seqZ fb). unfold free_count.
  apply submseteq_length, NoDup_submseteq; [apply NoDup_seqZ|]. intros b Hb%elem_of_seqZ. apply list_elem_of_filter. split; [|apply elem_of_seqZ; lia].
  unfold is_free. rewrite image_block by lia. rewrite (ig_bits _ _ _ Him) by lia. apply Z.leb_le. lia.
Qed.
End Image.

(** ** A write to a file, within its transaction *)

(** The bytes a process gives to [write], as the source of [writei]. *)
Lemma ubytes_user m c3 n : forall va data,
  length data = n -> (forall k b, data !! k = Some b -> uget8 m c3 (u32 (va + Z.of_nat k)) = Some b) -> ubytes m c3 va n = Some data.
Proof.
  induction n as [|n IH]; intros va [|b data] Hl Hb; try done. cbn [ubytes].
  pose proof (Hb 0%nat b eq_refl) as H0. rewrite Z.add_0_r in H0. rewrite H0. cbn [mbind option_bind].
  rewrite (IH (va + 1) data); [done|by injection Hl|]. intros k c Hk. rewrite <- (Hb (S k) c Hk). do 2 f_equal. lia.
Qed.

Lemma user_gives s addr data : user_bytes s addr data -> gives (umem s) (from_user (u32 addr)) data.
Proof.
  intros Hu env t tot m Hm Ht Hl. unfold umem in Hm. injection Hm as Hm1 Hm2. unfold from_user, uload. rewrite Hm1, Hm2.
  rewrite (ubytes_user _ _ m _ (slice data tot (Z.of_nat m))); [done| |].
  - unfold slice. rewrite length_take, length_drop. lia.
  - intros k b Hk. unfold slice in Hk. apply lookup_take_Some in Hk as [Hk _]. rewrite lookup_drop in Hk.
    rewrite <- (Hu _ _ Hk). f_equal. unfold u32. rewrite Zplus_mod_idemp_l, <- Z.add_assoc, Zplus_mod_idemp_l. f_equal. lia.
Qed.

Lemma splice_app d off x y : 0 <= off <= Z.of_nat (length d) -> splice (splice d off x) (off + Z.of_nat (length x)) y = splice d off (x ++ y).
Proof.
  intros Ho. unfold splice. rewrite length_app. replace (Z.to_nat (off + Z.of_nat (length x))) with (length (take (Z.to_nat off) d ++ x)) by (rewrite length_app, length_take; lia).
  rewrite !app_assoc, <- (app_assoc _ x (drop _ d)), (app_assoc _ x (drop _ d)), take_app_length, drop_app_add, drop_drop. do 2 f_equal. lia.
Qed.

Lemma bind_get_file {A} s f x (k : Kernel.file -> M A) env : files s !! f = Some x -> bind (get_file f) k env s = k x env s.
Proof. intros E. unfold bind, get_file. by rewrite E. Qed.

Lemma survives_mono (size L : Z) (Q R : gmap (Z * Z) (list Z) -> Prop) d : (forall d', Q d' -> R d') -> survives size L Q d -> survives size L R d.
Proof. intros H Hs d1 s env Hi Hb Hd. destruct (Hs d1 s env Hi Hb Hd) as (s' & E & HQ). exists s'. auto. Qed.

Section Write.
Context {DR : Driver} (me : nat) (mp : proc) (size L nlog : Z) {may : Prop} {SD : SyncDisk size may}.
Notation txn := (txn me mp size L nlog).
Notation cut_off := (@cut_off may).

Lemma txn_files d0 bs D s fs : txn ∅ d0 bs D s -> (length bs <= 28)%nat -> txn ∅ d0 bs D (set_files fs s).
Proof using.
  intros Ht Hl. destruct (txn_quiet me mp size L nlog _ _ _ _ Ht Hl) as (P & HQ & HD & Hback). apply Hback; [|done|done].
  apply (quiet_frame me mp size P s); try done. by destruct (ca_calm _ _ _ _ _ _ (qu_cache _ _ _ _ _ HQ)).
Qed.

(** The end of a write: the transaction commits. *)
Lemma write_chunk_ends d0 bs D s f i ip n env :
  txn ∅ d0 bs D s -> (length bs <= 28)%nat -> icache s !! i = Some ip -> 1 <= i_ref ip -> is_Some (slocks s !! SLinode i) ->
  0 < n -> hdr (block_of d0 1 L) [] ->
  rc (fun s' => confined size L nlog D d0 bs /\ crash_point L nlog D bs d0 (disk s')) env
    ((advance f n ;; iunlock (Some i) ;; end_op ;; ret n) env s)
    (fun r s' => r = n /\ confined size L nlog D d0 bs /\ complete L nlog D bs d0 (disk s') /\ Logsafe.idle me mp size L nlog s' /\
      rest (unlocked_inode i (set_files (upd f (fun x => set_f_off (u32 (f_off x + n)) x) (files s)) s)) s').
Proof using SD.
  intros Ht Hbs Hi Hr Hs Hn Hlog. unfold advance. rewrite (proj2 (Z.ltb_lt 0 n)) by lia. cbn [when]. unfold mod_file. rewrite bind_modify.
  set (s1 := set_files _ s). assert (txn ∅ d0 bs D s1) as Ht1 by by apply txn_files.
  eapply rc_step; [apply (txn_iunlock me mp size L nlog d0 bs D s1 i ip env Ht1 Hbs Hi Hr Hs)|done|].
  intros a s2 [Ht2 R2]. pose proof (in_txn_of_txn _ _ _ _ _ _ _ _ _ Ht2 Hbs) as Hx. pose proof (in_txn_confined _ _ _ _ _ _ _ _ _ Hx) as Hcf.
  eapply rc_step; [apply (end_op_spec me mp size L nlog d0 bs D s2 env Hx Hlog)| |].
  - by intros s' [_ Hcp].
  - intros b s3 (Hcm & Hid & R3). split; [|done]. split; [done|]. split; [done|]. split; [done|]. split; [done|]. by eapply rest_trans.
Qed.

Context (B : superblock) (NI : Z) (Hlo : laid_out size L nlog B NI).
Notation bm := (sb_bmapstart B).
Notation N := (sb_size B).

(** File [f] is open for writing, on the inode in slot [i] of the cache,
    which is not locked, and as the disk has it if it was read.  The file
    has no holes up to its offset, there is a free block for every block
    that [m] transactions may need, and the log is as large as LOGSIZE. *)
Record can_write (m : nat) (s : kst) (f : nat) (x : Kernel.file) (i : nat) (ip : inode) : Prop := {
  cw_sb : sb s = B;
  cw_file : files s !! f = Some x;
  cw_mode : f_writable x = true /\ f_type x = FD_INODE /\ f_ip x = Some i;
  cw_inode : icache s !! i = Some ip /\ 1 <= i_ref ip /\ i_dev ip = 1 /\ an_inode NI (i_inum ip);
  cw_free : slocks s !! SLinode i = None;
  cw_disk : fs_wf B NI (block_of (disk s) 1);
  cw_whole : whole B (block_of (disk s) 1) (i_inum ip);
  cw_loaded : is_loaded ip = true -> di_of ip = disk_inode B (block_of (disk s) 1) (i_inum ip);
  cw_type : di_type (disk_inode B (block_of (disk s) 1) (i_inum ip)) <> 0 /\ di_type (disk_inode B (block_of (disk s) 1) (i_inum ip)) <> T_DEV;
  cw_off : 0 <= f_off x <= file_size B (block_of (disk s) 1) (i_inum ip);
  cw_room : (28 * m <= free_count bm N (block_of (disk s) 1))%nat;
  cw_log : LOGSIZE <= nlog;
}.

(** The inode that [ilock] leaves. *)
Lemma fetched_inode m s f x i ip : can_write m s f x i ip -> let ip1 := fetched (block_of (disk s) 1) B ip in
  di_of ip1 = disk_inode B (block_of (disk s) 1) (i_inum ip) /\ i_ref ip1 = i_ref ip /\ i_dev ip1 = i_dev ip /\ i_inum ip1 = i_inum ip.
Proof using.
  intros Hw ip1. subst ip1. unfold fetched. destruct (is_loaded ip) eqn:E; [by split; [apply Hw|]|].
  unfold loaded, disk_inode. by destruct (di_at _ _).
Qed.

(** A write of at most [write_max] bytes touches few blocks. *)
Lemma write_max_room off n : 0 <= off -> 0 < n <= write_max -> room_for 14 off n.
Proof using. intros Ho Hn. right. change write_max with 6656 in Hn. Z.div_mod_to_equations. lia. Qed.

(** The log's own blocks do not matter. *)
Lemma saved_outside_log inum off data D0 D D' :
  an_inode NI inum -> saved B NI inum off data D0 D -> (forall c, ~ in_log L nlog c -> D' c = D c) -> saved B NI inum off data D0 D'.
Proof using Hlo.
  intros Hi Hs Hd. destruct Hlo as [(L1 & L2 & L3) _ L4 L5 _].
  apply (saved_agree B NI (lo_inode_blocks size L nlog B NI Hlo) L5 ltac:(lia) D); [|apply Hs|done|done].
  intros c Hcs. apply Hd. unfold in_log. lia.
Qed.

(** Two writes, one behind the other. *)
Lemma saved_app inum off x y D0 D1 D2 :
  0 <= off <= file_size B D0 inum ->
  saved B NI inum off x D0 D1 -> saved B NI inum (off + Z.of_nat (length x)) y D1 D2 -> saved B NI inum off (x ++ y) D0 D2.
Proof using.
  intros Ho [S1 S2 S3 S4 S5] [T1 T2 T3 T4 T5]. split; [done|done| | |].
  - rewrite T3, S3. apply splice_app. rewrite length_file_at; lia.
  - intros j Hj Hne. destruct (S4 j Hj Hne) as [E1 F1]. destruct (T4 j Hj Hne) as [E2 F2]. split; [congruence|].
    intros Hw. destruct (F1 Hw) as [Hw1 E3]. destruct (F2 Hw1) as [Hw2 E4]. split; [done|congruence].
  - cbv zeta in *. destruct S5 as (? & ? & ? & ?), T5 as (? & ? & ? & ?). split_and!; congruence.
Qed.

(** What a write makes of the blocks. *)
Notation writes s x ip data := (saved B NI (i_inum ip) (f_off x) data (block_of (disk s) 1)).

(** After a write of [data] the file can be written again, behind it. *)
Definition behind (x : Kernel.file) (n : Z) : Kernel.file := set_f_off (u32 (f_off x + n)) x.

Lemma can_write_next m s f x i ip data s' D' ip2 :
  can_write (S m) s f x i ip -> f_off x + Z.of_nat (length data) <= MAXFILE * BSIZE ->
  writes s x ip data D' -> (forall c, ~ in_log L nlog c -> block_of (disk s') 1 c = D' c) ->
  di_of ip2 = disk_inode B D' (i_inum ip) -> same_id ip ip2 ->
  (free_count bm N (block_of (disk s) 1) <= free_count bm N D' + 28)%nat ->
  rest (set_icache (<[i := ip2]> (icache s)) (set_files (<[f := behind x (Z.of_nat (length data))]> (files s)) s)) s' ->
  can_write m s' f (behind x (Z.of_nat (length data))) i ip2.
Proof using Hlo.
  intros [W1 W2 (W3 & W4 & W5) (W6 & W7 & W8 & W9) W10 W11 W12 W13 [W14 W15] W16 W17 W18] Hmax Hsv Hd Hdi [I1 I2 I3] Hfc (R1 & R2 & R3 & R4 & R5).
  cbn in R1, R2, R4, R5. change (MAXFILE * BSIZE) with 71680 in Hmax. pose proof (saved_outside_log _ _ _ _ _ _ W9 Hsv Hd) as [T1 T2 T3 T4 (T5 & _)].
  assert (forall c, sb_inodestart B <= c -> block_of (disk s') 1 c = D' c) as Hag.
  { intros c Hc. apply Hd. destruct Hlo as [(L1 & L2 & L3) _ _ _ _]. unfold in_log. lia. }
  assert (disk_inode B (block_of (disk s') 1) (i_inum ip) = disk_inode B D' (i_inum ip)) as Edi.
  { pose proof Hlo as [_ _ _ L5 _]. by apply (agree_inode B NI (lo_inode_blocks size L nlog B NI Hlo) L5 D' _ Hag). }
  assert (Z.max (file_size B (block_of (disk s) 1) (i_inum ip)) (f_off x + Z.of_nat (length data)) = file_size B (block_of (disk s') 1) (i_inum ip)) as Es.
  { destruct W12 as [W12 _], T2 as [T2 _]. rewrite <- (length_file_at B (block_of (disk s') 1)), T3, length_splice_ext, length_file_at by (rewrite ?length_file_at; lia). done. }
  constructor; rewrite ?I3; try done.
  - congruence.
  - rewrite R4. apply list_lookup_insert_eq. by eapply lookup_lt_Some.
  - rewrite R1, I1, I2. split_and!; try done. apply list_lookup_insert_eq. by eapply lookup_lt_Some.
  - by rewrite R5.
  - intros _. congruence.
  - cbv zeta in T5. by rewrite T5.
  - unfold behind. cbn [f_off set_f_off]. rewrite u32_small by lia. lia.
  - rewrite (free_count_ext bm N D'); [lia|]. apply Hag. apply Z.lt_le_incl, Hlo.
Qed.

(** From the end of [writei] on. *)
Lemma write_chunk_saves m s f x i ip data bs D' ip2 s3 env :
  Logsafe.idle me mp size L nlog s -> can_write (S m) s f x i ip ->
  let n := Z.of_nat (length data) in
  0 < n -> f_off x + n <= MAXFILE * BSIZE ->
  txn ∅ (disk s) bs D' s3 -> (length bs <= 28)%nat -> writes s x ip data D' -> di_of ip2 = disk_inode B D' (i_inum ip) -> same_id ip ip2 ->
  (free_count bm N (block_of (disk s) 1) <= free_count bm N D' + 28)%nat -> rest (set_icache (<[i := ip2]> (icache s)) (locked_inode mp i s)) s3 ->
  rc (fun s' => cut_with size L nlog (writes s x ip data) (disk s) (disk s')) env ((advance f n ;; iunlock (Some i) ;; end_op ;; ret n) env s3)
    (fun r s' => r = n /\ done_with size L nlog (writes s x ip data) (disk s) (disk s') /\ Logsafe.idle me mp size L nlog s' /\ umem s' = umem s /\
      exists ip', i_inum ip' = i_inum ip /\ can_write m s' f (behind x n) i ip').
Proof using SD Hlo.
  intros Hid Hw n Hn Hmax Ht3 Hbs Hsv Hdi Hsi Hfc (P1 & P2 & P3 & P4 & P5). cbn in P1, P2, P4, P5. change (umem s3 = umem s) in P3.
  destruct (cw_inode _ _ _ _ _ _ Hw) as (W6 & W7 & _). pose proof (id_ref _ _ Hsi) as Hr.
  eapply rc_mono; [apply (write_chunk_ends (disk s) bs D' s3 f i ip2 n env Ht3 Hbs); [|lia| |lia|apply (id_log _ _ _ _ _ _ Hid)]| |].
  - rewrite P1. apply list_lookup_insert_eq. by eapply lookup_lt_Some.
  - rewrite P5, lookup_insert_eq. by eexists.
  - intros s' [Hcf Hcp]. right. by exists D', bs.
  - intros r s' (-> & Hcf & Hcm & Hid' & (O1 & O2 & O3 & O4 & O5)). cbn in O1, O2, O4, O5. change (umem s' = umem s3) in O3.
    split; [done|]. split; [by exists D', bs|]. split; [done|]. split; [congruence|]. exists ip2. split; [apply Hsi|].
    apply (can_write_next m s f x i ip data s' D'); try done.
    + intros c Hc. by apply (confined_complete size L nlog D' (disk s) bs).
    + split; cbn; [congruence|]. split; [congruence|]. split; [change (umem s' = umem s); congruence|].
      split. { rewrite O4, P4. by rewrite (upd_insert _ _ _ _ (cw_file _ _ _ _ _ _ Hw)). }
      intros j. rewrite O5. destruct (decide (j = i)) as [->|Hne]; [rewrite lookup_delete_eq; symmetry; apply Hw|].
      by rewrite lookup_delete_ne, P5, lookup_insert_ne by congruence.
Qed.

Lemma write_chunk_run m s f x i ip addr k data env :
  Logsafe.idle me mp size L nlog s -> can_write (S m) s f x i ip -> user_bytes s (addr + k) data ->
  let n := Z.of_nat (length data) in
  0 < n <= write_max -> f_off x + n <= MAXFILE * BSIZE ->
  rc (fun s' => cut_with size L nlog (writes s x ip data) (disk s) (disk s')) env (write_chunk f addr k n env s)
    (fun r s' => r = n /\ done_with size L nlog (writes s x ip data) (disk s) (disk s') /\ Logsafe.idle me mp size L nlog s' /\ umem s' = umem s /\
      exists ip', i_inum ip' = i_inum ip /\ can_write m s' f (behind x n) i ip').
Proof using SD Hlo.
  intros Hid Hw Hu n Hn Hmax. pose proof (id_log _ _ _ _ _ _ Hid) as Hlog. pose proof (fetched_inode _ _ _ _ _ _ Hw) as (F1 & F2 & F3 & F4).
  set (D := block_of (disk s) 1) in *. set (ip1 := fetched D B ip) in *.
  pose proof Hw as [W1 W2 (W3 & W4 & W5) (W6 & W7 & W8 & W9) W10 W11 W12 W13 [W14 W15] W16 W17 W18].
  fold D in W11, W12, W13, W14, W15, W16, W17.
  assert (forall s', cut_off (disk s) s' -> cut_with size L nlog (writes s x ip data) (disk s) (disk s')) as Hcut.
  { intros s' [_ ->]. by left. }
  unfold write_chunk. eapply rc_step; [apply (begin_op_spec me mp size L nlog s env Hid)|done|].
  intros _ s1 [Ht1%txn_of_in_txn (R1 & R2 & R3 & R4 & R5)].
  rewrite (bind_get_file s1 f x) by (by rewrite R4). rewrite W5.
  assert (0 <= IBLOCK (i_inum ip) B < size) as Hib.
  { destruct Hlo as [(? & ? & ?) _ ? (? & ? & ?) ?]. pose proof (inode_block_ok B NI (lo_inode_blocks size L nlog B NI Hlo) (lo_data _ _ _ _ _ Hlo) _ W9). lia. }
  eapply rc_step; [apply (txn_ilock me mp size L nlog (disk s) [] D s1 i ip env Ht1); rewrite ?R1, ?R2, ?R5, ?W1; try done; [cbn; lia|fold ip1]|exact Hcut|].
  { change (i_type ip1) with (di_type (di_of ip1)). by rewrite F1. }
  intros _ s2 [Ht2 (Q1 & Q2 & Q3 & Q4 & Q5)]. cbn in Q1, Q2, Q4, Q5. change (umem s2 = umem s1) in Q3. rewrite R2, W1, R1 in Q1. fold ip1 in Q1.
  unfold deref. rewrite bind_ret, (bind_get_file s2 f x) by (by rewrite Q4, R4).
  assert (i < length (icache s))%nat as Hlt by by eapply lookup_lt_Some.
  assert (icache s2 !! i = Some ip1) as Hi2 by (rewrite Q1; by apply list_lookup_insert_eq).
  pose proof Hn as Hn0. change write_max with 6656 in Hn. rewrite (u32_small n) by lia. pose proof Hmax as Hmax0. change (MAXFILE * BSIZE) with 71680 in Hmax.
  eapply rc_step; [apply (writei_writes me mp size L nlog B NI Hlo (disk s) [] D s2 i ip1 (f_off x) (umem s) (from_user (u32 (addr + k))) data 14 env)|exact Hcut|].
  all: rewrite ?F4; try done; try lia.
  - by apply user_gives.
  - congruence.
  - congruence.
  - change (i_type ip1) with (di_type (di_of ip1)). by rewrite F1.
  - apply write_max_room; [lia|exact Hn].
  - change LOGSIZE with 30 in W18. split; cbn [length]; lia.
  - intros r s3 (-> & bs & D' & ip2 & Ht3 & [Hbs _] & Hsv & _ & Hdi & [I1 I2 I3] & Hfc & (P1 & P2 & P3 & P4 & P5)). cbn in P1, P2, P4, P5. change (umem s3 = umem s2) in P3. rewrite W5. fold n.
    apply (write_chunk_saves m s f x i ip data bs D' ip2 s3 env); try done; [lia|lia|split; congruence|].
    split; [cbn; rewrite P1, Q1; apply list_insert_insert_eq|]. split; [cbn; congruence|]. split; [change (umem s3 = umem s); congruence|].
    split; [cbn; congruence|]. intros j. cbn. rewrite P5, Q5. destruct (decide (j = i)) as [->|Hne]; [by rewrite !lookup_insert_eq|].
    rewrite !lookup_insert_ne by congruence. apply R5.
Qed.

(** ** The whole write *)

(** How far the write has come, with the disk in the beginning: nothing was
    written, or the first [k] bytes, behind the transactions that ended. *)
Definition written_to (d0 : gmap (Z * Z) (list Z)) (inum off : Z) (data : list Z) (k : Z) (d : gmap (Z * Z) (list Z)) : Prop :=
  if decide (k = 0) then forall c, ~ in_log L nlog c -> block_of d 1 c = block_of d0 1 c
  else saved B NI inum off (take (Z.to_nat k) data) (block_of d0 1) (block_of d 1).

(** What a power failure may leave of it, after the recovery: the bytes of
    some of the transactions. *)
Definition left_of (d0 : gmap (Z * Z) (list Z)) (inum off : Z) (data : list Z) (d : gmap (Z * Z) (list Z)) : Prop :=
  exists j, 0 <= j /\ (j - 1) * write_max < Z.of_nat (length data) /\ written_to d0 inum off data (j * write_max) d.

Lemma written_step d0 inum off data k d n1 d' :
  an_inode NI inum -> 0 <= off <= file_size B (block_of d0 1) inum -> 0 <= k -> 0 < n1 -> k <= Z.of_nat (length data) ->
  written_to d0 inum off data k d -> (k = 0 -> d = d0) ->
  saved B NI inum (off + k) (slice data k n1) (block_of d 1) (block_of d' 1) -> written_to d0 inum off data (k + n1) d'.
Proof using.
  intros Hin Ho Hk Hn Hl Hw H0 Hs. unfold written_to in *. rewrite decide_False by lia. case_decide as E.
  - subst k. rewrite (H0 eq_refl), Z.add_0_r in Hs. done.
  - assert (take (Z.to_nat (k + n1)) data = take (Z.to_nat k) data ++ slice data k n1) as ->.
    { unfold slice. rewrite take_take_drop. f_equal. lia. }
    eapply saved_app; [done|exact Hw|]. rewrite length_take, Nat.min_l, Z2Nat.id by lia. done.
Qed.

Lemma written_max d0 inum off data k k' d :
  0 < k -> 0 < k' -> Z.of_nat (length data) <= k -> Z.of_nat (length data) <= k' -> written_to d0 inum off data k d -> written_to d0 inum off data k' d.
Proof using.
  intros Hk Hk' H H'. unfold written_to. rewrite !decide_False by lia. by rewrite !take_ge by lia.
Qed.

Lemma written_agree d0 inum off data k d d' :
  an_inode NI inum -> written_to d0 inum off data k d -> (forall c, ~ in_log L nlog c -> block_of d' 1 c = block_of d 1 c) -> written_to d0 inum off data k d'.
Proof using Hlo.
  intros Hi Hw Hd. unfold written_to in *. case_decide.
  - intros c Hc. rewrite Hd by done. by apply Hw.
  - by eapply saved_outside_log.
Qed.

Section Loop.
Context (s0 : kst) (f i : nat) (inum off addr : Z) (data : list Z).
Context (Hin : an_inode NI inum) (Hoff : 0 <= off <= file_size B (block_of (disk s0) 1) inum) (Hu : user_bytes s0 addr data).
Let n := Z.of_nat (length data).
Context (Hmax : off + n <= MAXFILE * BSIZE).

Lemma slice_bytes s k n1 : 0 <= k -> umem s = umem s0 -> user_bytes s (addr + k) (slice data k n1).
Proof using Hu.
  intros Hk Hm a b Ha. unfold umem in Hm. injection Hm as Hm1 Hm2. unfold slice in Ha. apply lookup_take_Some in Ha as [Ha _]. rewrite lookup_drop in Ha.
  rewrite Hm1, Hm2, <- (Hu _ _ Ha). do 2 f_equal. lia.
Qed.

(** The loop of [filewrite] has written [k] bytes, in [k / write_max]
    transactions, and may do [m] more. *)
Record writing (m : nat) (k : Z) (s : kst) (x : Kernel.file) (ip : inode) : Prop := {
  wg_idle : Logsafe.idle me mp size L nlog s;
  wg_can : can_write m s f x i ip;
  wg_file : i_inum ip = inum /\ f_off x = off + k;
  wg_mem : umem s = umem s0;
  wg_whole : exists j, 0 <= j /\ k = j * write_max;
  wg_more : k < n <= k + Z.of_nat m * write_max;
  wg_disk : written_to (disk s0) inum off data k (disk s) /\ (k = 0 -> disk s = disk s0);
}.

(** What is left if the power fails in the transaction that writes [n1] bytes. *)
Lemma writing_cut m k s x ip n1 d :
  writing m k s x ip -> n1 = Z.min (n - k) write_max ->
  cut_with size L nlog (writes s x ip (slice data k n1)) (disk s) d -> survives size L (left_of (disk s0) inum off data) d.
Proof using Hlo Hin Hoff.
  intros [G1 G2 [G3 G4] G5 (j & Hj & G6) G7 [G8 G9]] En Hc. change write_max with 6656 in *. fold n.
  apply (cut_survives size L nlog) in Hc; [|apply (id_layout _ _ _ _ _ _ G1)|intros D D'; apply saved_outside_log; by rewrite G3].
  eapply survives_mono; [|exact Hc]. cbv beta zeta. rewrite G3, G4. unfold left_of. change write_max with 6656. intros d' [Hd|Hd].
  - exists j. split; [done|]. split; [fold n; lia|]. rewrite <- G6. by eapply written_agree.
  - exists (j + 1). split; [lia|]. split; [fold n; lia|]. pose proof (written_step (disk s0) inum off data k (disk s) n1 d' Hin Hoff ltac:(lia) ltac:(lia) ltac:(lia) G8 G9 Hd) as Hw.
    destruct (Z.min_spec (n - k) 6656) as [[? E]|[? E]]; rewrite E in En; subst n1.
    + eapply written_max; [| | | |exact Hw]; lia.
    + replace ((j + 1) * 6656) with (k + 6656) by lia. done.
Qed.

Notation saves d := (saved B NI inum off data (block_of (disk s0) 1) (block_of d 1)).

Lemma filewrite_loop_run m : forall fuel k s x ip env,
  (m <= fuel)%nat -> writing m k s x ip ->
  rc (fun s' => survives size L (left_of (disk s0) inum off data) (disk s')) env (filewrite_loop fuel f addr n k env s)
    (fun r s' => r = n /\ saves (disk s') /\ survives size L (fun d => saves d) (disk s')).
Proof using SD Hlo Hin Hoff Hu Hmax.
  induction m as [|m IH]; intros [|fuel] k s x ip env Hf Hg; try lia; try (by destruct Hg as [_ _ _ _ _ G7 _]; lia).
  pose proof Hg as [G1 G2 [G3 G4] G5 (j & Hj & G6) G7 [G8 G9]].
  assert (0 <= k) as Hk by (change write_max with 6656 in G6; lia).
  cbn [filewrite_loop]. rewrite (proj2 (Z.leb_gt n k)) by lia. set (n1 := Z.min (n - k) write_max).
  assert (0 < n1 <= write_max) as Hn1 by (unfold n1; change write_max with 6656 in *; lia).
  assert (Z.of_nat (length (slice data k n1)) = n1) as El.
  { unfold slice. rewrite length_take, length_drop. change write_max with 6656 in *. lia. }
  pose proof (write_chunk_run m s f x i ip addr k (slice data k n1) env G1 G2 (slice_bytes s k n1 Hk G5)) as Hr.
  rewrite El in Hr. eapply rc_step; [apply Hr; [done|rewrite G4; lia]| |].
  { intros s'. by apply (writing_cut (S m) k s x ip n1). }
  intros r s1 (-> & Hd & Hid & Hum & ip' & Hi' & Hw'). rewrite (proj2 (Z.ltb_ge n1 0)), Z.eqb_refl by lia. cbn [negb].
  apply done_survives in Hd as [Hd1 Hd2]; [|intros D D'; apply saved_outside_log; by rewrite G3].
  assert (forall d, writes s x ip (slice data k n1) (block_of d 1) -> written_to (disk s0) inum off data (k + n1) d) as Hst.
  { intros d. rewrite G3, G4. apply written_step; try done; change write_max with 6656 in *; lia. }
  destruct (decide (k + n1 < n)) as [Hlt|Hge].
  - assert (n1 = write_max) as E1 by lia. rewrite E1 in Hw' |- *. apply (IH fuel (k + write_max) s1 (behind x write_max) ip'); [lia|].
    split; try done.
    + split; [congruence|]. unfold behind. cbn [f_off set_f_off]. change write_max with 6656 in *. change (MAXFILE * BSIZE) with 71680 in Hmax. rewrite u32_small; lia.
    + congruence.
    + exists (j + 1). lia.
    + lia.
    + split; [rewrite <- E1; by apply Hst|]. change write_max with 6656 in *. lia.
  - assert (k + n1 = n) as E1 by lia. rewrite E1 in Hst |- *.
    assert (filewrite_loop fuel f addr n n env s1 = Ok n s1 env) as -> by (by destruct fuel; cbn [filewrite_loop]; rewrite Z.leb_refl).
    assert (forall d, writes s x ip (slice data k n1) (block_of d 1) -> saves d) as Hsv.
    { intros d Hd. specialize (Hst d Hd). unfold written_to in Hst. rewrite decide_False in Hst by lia. unfold n in Hst. by rewrite Nat2Z.id, firstn_all in Hst. }
    split; [|done]. split; [done|]. split; [by apply Hsv|]. eapply survives_mono; [exact Hsv|exact Hd2].
Qed.
End Loop.

(** The write, of up to [m] transactions. *)
Lemma filewrite_run m s f x i ip addr data env :
  Logsafe.idle me mp size L nlog s -> can_write m s f x i ip -> user_bytes s addr data ->
  let n := Z.of_nat (length data) in
  0 < n <= Z.of_nat m * write_max -> f_off x + n <= MAXFILE * BSIZE ->
  rc (fun s' => survives size L (left_of (disk s) (i_inum ip) (f_off x) data) (disk s')) env (filewrite f addr n env s)
    (fun r s' => r = n /\ writes s x ip data (block_of (disk s') 1) /\ survives size L (fun d => writes s x ip data (block_of d 1)) (disk s')).
Proof using SD Hlo.
  intros Hid Hw Hu n Hn Hmax. destruct (cw_mode _ _ _ _ _ _ Hw) as (M1 & M2 & M3). unfold filewrite.
  rewrite (bind_get_file s f x) by apply Hw. rewrite M1, M2. cbn [negb].
  set (K := Z.to_nat (n / write_max + 1)). assert (exists m', (m' <= K)%nat /\ (m' <= m)%nat /\ n <= Z.of_nat m' * write_max) as (m' & Hm1 & Hm2 & Hm3).
  { exists (Nat.min K m). change write_max with 6656 in *. unfold K. split; [lia|]. split; [lia|]. destruct (Nat.min_spec (Z.to_nat (n / 6656 + 1)) m) as [[_ ->]|[_ ->]]; [|lia].
    Z.div_mod_to_equations. lia. }
  destruct (cw_inode _ _ _ _ _ _ Hw) as (_ & _ & _ & Hin).
  eapply rc_step; [apply (filewrite_loop_run s f i (i_inum ip) (f_off x) addr data Hin (cw_off _ _ _ _ _ _ Hw) Hu Hmax m' K 0 s x ip env Hm1)|done|].
  - split; try done.
    + destruct Hw. split; try done. lia.
    + split; [done|lia].
    + by exists 0.
    + fold n. lia.
  - intros r s1 (-> & Hs). cbv beta. fold n. rewrite Z.eqb_refl. by split.
Qed.
End Write.

(** C3: a write to a file is atomic and durable, and touches no other file.
    [filewrite], to a file of a well-formed file system, on a disk whose
    power may fail at any request; [m] transactions of [write_max] bytes are
    enough for it.  If it returns, it returns the number of bytes, and the
    disk is again a well-formed file system in which the file has the
    process's bytes spliced in at the file's offset, while every other inode
    and the contents of every other file are as before; all of this survives
    every later reboot.  If the power fails, then after any number of
    interrupted recoveries the blocks outside of the log are as before the
    write, or the disk is such a file system, with the bytes of the first
    transactions; a write of at most [write_max] bytes is there as a whole or
    not at all. *)
Theorem filewrite_atomic fails me mp size L nlog B NI m s f x i ip addr data env :
  laid_out size L nlog B NI -> Logsafe.idle me mp size L nlog s -> can_write nlog B NI m s f x i ip -> user_bytes s addr data ->
  let n := Z.of_nat (length data) in
  0 < n <= Z.of_nat m * write_max -> f_off x + n <= MAXFILE * BSIZE ->
  let old d := forall c, ~ in_log L nlog c -> block_of d 1 c = block_of (disk s) 1 c in
  let part k d := saved B NI (i_inum ip) (f_off x) (take k data) (block_of (disk s) 1) (block_of d 1) in
  let new d := saved B NI (i_inum ip) (f_off x) data (block_of (disk s) 1) (block_of d 1) in
  match @filewrite (failing fails (memide_driver size)) f addr n env s with
  | Ok r s' _ => r = n /\ new (disk s') /\ survives size L new (disk s')
  | Blocked WHalt s' =>
      survives size L (fun d => old d \/ new d \/ exists j, 0 < j /\ j * write_max < n /\ part (Z.to_nat (j * write_max)) d) (disk s')
  | _ => False
  end.
Proof.
  intros Hlo Hid Hw Hu n Hn Hmax old part new.
  pose proof (@filewrite_run _ me mp size L nlog True (failing_sync fails size) B NI Hlo m s f x i ip addr data env Hid Hw Hu Hn Hmax) as Hr.
  fold n in Hr. destruct (filewrite f addr n env s) as [r s' e| |[]]; cbn in Hr; try done; [by destruct Hr|].
  eapply survives_mono; [|exact Hr]. intros d (j & Hj & Hjn & Hd). fold n in Hjn. unfold written_to in Hd. change write_max with 6656 in *.
  case_decide; [by left|]. right. destruct (decide (j * 6656 < n)); [right; exists j; split; [lia|done]|].
  left. by rewrite take_ge in Hd by lia.
Qed.

(** ** A write to the file that mkfs stored *)

Lemma image_laid_out : laid_out 1000 2 30 sb_built 208.
Proof.
  split; [cbn; lia| |cbn; lia| |done].
  - intros i Hi. unfold an_inode in Hi. change (sb_inodestart sb_built) with 32. change (sb_bmapstart sb_built) with 58. change IPB with 8.
    Z.div_mod_to_equations. lia.
  - split; [done|]. split; [done|]. vm_compute. discriminate.
Qed.

Lemma example_image : exists st, Mkfs.main (host <$> args_example) = Some st /\
  image (img st) (59 + total (all_files args_example)) (all_files args_example).
Proof.
  destruct (mkfs_image args_example args_example_fits) as (st & E & Him). exists st. split; [exact E|].
  pose proof (ig_used _ _ _ Him) as [Hfb _]. by rewrite Hfb in Him.
Qed.

(** The file cat is open for writing behind its seven bytes, its inode was
    not read yet, and the process has bytes at address 100. *)
Definition text : list Z := bytes_of " and more".
Definition phys_text : gmap Z Z := default ∅ (uput phys_user 4096 100 text).
Definition cat_open : Kernel.file := mkfile FD_INODE 1 true true 0 (Some 0%nat) 7.
Definition cat_inode : inode := mkinode 1 2 1 0 0 0 0 0 0 (replicate 13 0).
Definition writing_on (im : list block) : kst :=
  after_binit (set_phys phys_text (set_kcpu (set_cr3 4096 (kcpu kst_idle))
    (set_files (<[0%nat := cat_open]> (files kst_idle)) (set_icache (<[0%nat := cat_inode]> (icache kst_idle))
      (set_sb (sb_of_block (blk im 1)) (set_disk (disk_of im) kst_idle)))))).

Lemma writing_text im : user_bytes (writing_on im) 100 text.
Proof.
  assert (Forall (fun k => uget8 phys_text 4096 (u32 (100 + Z.of_nat k)) = text !! k) (seq 0 (length text))) as H.
  { cbn [seq length text bytes_of]. repeat constructor. }
  intros k b Hk. rewrite Forall_forall in H. change (uget8 phys_text 4096 (u32 (100 + Z.of_nat k)) = Some b).
  rewrite H; [done|]. apply elem_of_seq. apply lookup_lt_Some in Hk. lia.
Qed.

Section Writing.
Context (im : list block) (Him : image im (59 + total (all_files args_example)) (all_files args_example)).

Lemma writing_idle : Logsafe.idle 0 proc_running 1000 2 30 (writing_on im).
Proof using Him.
  constructor; [|by constructor| | |reflexivity|split; reflexivity].
  - apply after_binit_cache; [by destruct kst_idle_calm|reflexivity|]. intros b. apply length_block_of_disk, Him.
  - change (disk (writing_on im)) with (disk_of im). rewrite (image_block im _ _ Him), (ig_log _ _ _ Him) by lia.
    split; [reflexivity|]. intros k b Hb. by rewrite lookup_nil in Hb.
  - constructor; [lia|apply NoDup_nil_2|intros b Hb; by apply elem_of_nil in Hb|cbn; lia|cbn; lia].
Qed.

Lemma writing_can : can_write 30 sb_built 208 1 (writing_on im) 0 cat_open 0 cat_inode.
Proof using Him.
  pose proof (ig_files _ _ _ Him 1%nat (T_FILE, bytes_of "hello!!") eq_refl) as Hf.
  destruct (image_file im _ _ Him ltac:(cbn; lia) 0 (T_FILE, bytes_of "hello!!") eq_refl ltac:(cbn; lia)) as [Hw Hc].
  pose proof (sd_type _ _ _ Hf : di_type (kernel_inode im 2) = T_FILE) as Ht. pose proof (sd_size _ _ _ Hf : di_size (kernel_inode im 2) = 7) as Hs.
  constructor; change (disk (writing_on im)) with (disk_of im); change (i_inum cat_inode) with 2; try done.
  - apply Him.
  - apply (image_wf im _ _ Him). cbn. lia.
  - rewrite (image_inode im _ _ Him) by (cbn; lia). rewrite Ht. by split.
  - unfold file_size. rewrite (image_inode im _ _ Him) by (cbn; lia). rewrite Hs. cbn. lia.
  - pose proof (image_free im _ _ Him) as Hn. change (59 + total _) with 61 in Hn.
    change (sb_bmapstart sb_built) with 58. change (sb_size sb_built) with 1000. lia.
Qed.
Lemma cat_was d : (forall c, ~ in_log 2 30 c -> block_of d 1 c = block_of (disk_of im) 1 c) ->
  file_at sb_built (block_of d 1) 2 = bytes_of "hello!!".
Proof using Him.
  intros Hd. destruct (image_file im _ _ Him ltac:(cbn; lia) 0 (T_FILE, bytes_of "hello!!") eq_refl ltac:(cbn; lia)) as [Hw Hc].
  change (bytes_of "hello!!") with (snd (T_FILE, bytes_of "hello!!")). rewrite <- Hc. change (inum_of 1) with 2 in *. destruct image_laid_out as [_ _ L4 L5 _].
  apply (agree_file sb_built 208 (lo_inode_blocks 1000 2 30 _ _ image_laid_out) L5 ltac:(lia) (block_of (disk_of im) 1)); [| |unfold an_inode; lia|done].
  - intros c Hlc. apply Hd. change (32 <= c) in Hlc. unfold in_log. lia.
  - apply (image_wf im _ _ Him). cbn. lia.
Qed.
Lemma cat_now d : saved sb_built 208 2 7 text (block_of (disk_of im) 1) (block_of d 1) ->
  file_at sb_built (block_of d 1) 2 = bytes_of "hello!! and more".
Proof using Him. intros [_ _ -> _ _]. by rewrite (cat_was (disk_of im)). Qed.
End Writing.

Lemma filewrite_atomic_witness :
  let was := bytes_of "hello!!" in let now := bytes_of "hello!! and more" in
  let cat d := file_at sb_built (block_of d 1) 2 in
  exists st, Mkfs.main (host <$> args_example) = Some st /\
    match @filewrite (failing (fun s => 2 <? lh_n (log s)) (memide_driver 1000)) 0 100 9 [] (writing_on (img st)) with
    | Ok r s' _ => r = 9 /\ cat (disk s') = now /\ survives 1000 2 (fun d => cat d = now) (disk s')
    | Blocked WHalt s' => survives 1000 2 (fun d => cat d = was \/ cat d = now) (disk s')
    | _ => False
    end.
Proof.
  intros was now cat. destruct example_image as (st & E & Him). exists st. split; [exact E|]. clear E. revert Him. generalize (img st). clear st. intros im Him.
  pose proof (writing_idle im Him) as Hid. pose proof (writing_can im Him) as Hw.
  pose proof (filewrite_atomic (fun s => 2 <? lh_n (log s)) 0 proc_running 1000 2 30 sb_built 208 1 (writing_on im) 0 cat_open 0 cat_inode 100 text []
    image_laid_out Hid Hw (writing_text im) ltac:(vm_compute; split; [reflexivity|discriminate]) ltac:(vm_compute; discriminate)) as H.
  cbv zeta in H. change (Z.of_nat (length text)) with 9 in H. change (i_inum cat_inode) with 2 in H. change (f_off cat_open) with 7 in H.
  change (disk (writing_on im)) with (disk_of im) in H. revert H. generalize (@filewrite (failing (fun s => 2 <? lh_n (log s)) (memide_driver 1000)) 0 100 9 [] (writing_on im)).
  intros o H. destruct o as [r s' e| |w]; [|exact H|destruct w; try exact H].
  - destruct H as (H1 & H2 & H3). split; [exact H1|]. split; [exact (cat_now im Him _ H2)|].
    eapply survives_mono; [|exact H3]. intros d Hd. exact (cat_now im Him d Hd).
  - eapply survives_mono; [|exact H]. intros d [Hd|[Hd|(j & Hj & Hj9 & _)]]; [left; exact (cat_was im Him d Hd)|right; exact (cat_now im Him d Hd)|].
    change write_max with 6656 in Hj9. lia.
Defined.
