(* ===== verification/Fsdrop.v ===== *)
(** * The last close of a file that was removed

    [fileclose] of file.c drops the last reference to an inode without
    links: a transaction that frees the file's blocks and its inode. *)

From stdpp Require Import base numbers list gmap strings.
From S2P Require Import Prelude Kernel Spinlock Sched Sleeplock Kalloc Console Umem Str Mkfs Mkfsok Mkfsimg.
From S2P Require Import Buf Memide Ring Bio Bcache Log Logsafe Crash Inode Consdev Dir Fsread Fsimage Fstxn Fsview Fswrite Fsfile Fstrunc File Fsatomic.

Section Drop.
Context `{Link} {DR : Driver} (me : nat) (mp : proc) (size L nlog : Z) {may : Prop} {SD : SyncDisk size may}.
Context (B : superblock) (NI : Z) (Hlo : laid_out size L nlog B NI).

Notation txn := (txn me mp size L nlog).
Notation cut_off := (@cut_off may).
Notation bm := (sb_bmapstart B).
Notation N := (sb_size B).

(** File [f] is the last reference to the inode in slot [i], which no
    directory names any more. *)
Record last_close (s : kst) (f : nat) (x : Kernel.file) (i : nat) (ip : inode) : Prop := {
  lc_sb : sb s = B /\ sb_of_block (block_of (disk s) 1 1) = B;
  lc_file : files s !! f = Some x /\ f_ref x = 1 /\ f_type x = FD_INODE /\ f_ip x = Some i;
  lc_inode : icache s !! i = Some ip /\ i_ref ip = 1 /\ i_dev ip = 1 /\ an_inode NI (i_inum ip);
  lc_loaded : is_loaded ip = true /\ di_of ip = disk_inode B (block_of (disk s) 1) (i_inum ip);
  lc_nlink : i_nlink ip = 0;
  lc_disk : fs_wf B NI (block_of (disk s) 1);
  lc_log : LOGSIZE <= nlog;
}.

Lemma idle_files s fs : idle me mp size L nlog s -> idle me mp size L nlog (set_files fs s).
Proof using.
  intros [HC ? ? ? ? ?]. split; try done; [|by eapply header_same]. apply (cache_frame me mp size ∅ ∅ s); try done.
  by destruct (ca_calm _ _ _ _ _ _ HC).
Qed.

(** The critical section of [fileclose]. *)
Lemma fileclose_enters s f x env :
  idle me mp size L nlog s -> files s !! f = Some x -> f_ref x = 1 -> f_type x = FD_INODE ->
  fileclose f env s =
  (begin_op ;; let! ip := deref (f_ip x) in iput ip ;; end_op) env
    (set_files (<[f := set_f_type FD_NONE (set_f_ref 0 (set_f_ref 0 x))]> (files s)) s).
Proof using.
  intros Hid Hf Hr Ht. pose proof (ca_calm _ _ _ _ _ _ (id_cache _ _ _ _ _ _ Hid)) as [C1 C2 C3 C4 C5].
  assert (locks s !! LFtable = None) as Hl by (by rewrite C1). unfold fileclose.
  rewrite (bind_ok _ _ _ _ _ _ _ (acquire_free LFtable env s Hl)), (bind_get_file _ f x) by done. rewrite Hr. cbn [Z.ltb Z.compare Pos.compare Pos.compare_cont].
  unfold mod_file. rewrite bind_modify. cbn [files acquired set_locks set_kcpu]. rewrite (upd_insert _ _ _ _ Hf), Hr.
  assert (f < length (files s))%nat as Hlt by by eapply lookup_lt_Some. set (x0 := set_f_ref (1 - 1) x).
  rewrite (bind_get_file _ f x0) by (by apply list_lookup_insert_eq). change (f_ref x0) with 0. change (f_type x0) with (f_type x). change (f_ip x0) with (f_ip x).
  cbn [Z.ltb Z.compare]. rewrite Ht, !bind_modify. cbn [files acquired set_locks set_kcpu set_files]. rewrite upd_upd.
  rewrite (upd_insert _ _ _ x0) by (by apply list_lookup_insert_eq). rewrite list_insert_insert_eq.
  crit_release LFtable s Hl C4.
  f_equal. rewrite C5. by destruct s.
Qed.

Lemma fileclose_run s f x i ip env :
  idle me mp size L nlog s -> last_close s f x i ip ->
  let Q := emptied L B NI (i_inum ip) (di_of (dropped ip)) (block_of (disk s) 1) in
  rc (fun s' => cut_with size L nlog Q (disk s) (disk s')) env (fileclose f env s)
    (fun _ s' => True /\ done_with size L nlog Q (disk s) (disk s')).
Proof using SD Hlo.
  intros Hid [[W1 W2] (W3 & W4 & W5 & W6) (W7 & W8 & W9 & W10) [W11 W12] W13 W14 W15] Q. pose proof (id_log _ _ _ _ _ _ Hid) as Hlog.
  rewrite (fileclose_enters s f x env Hid W3 W4 W5), W6. set (s1 := set_files _ s).
  eapply rc_step; [apply (begin_op_spec me mp size L nlog s1 env (idle_files _ _ Hid))|done|].
  intros a s2 [Ht2%txn_of_in_txn (R1 & R2 & R3 & R4 & R5)]. unfold deref. rewrite bind_ret. change LOGSIZE with 30 in W15.
  eapply rc_step; [apply (iput_drops me mp size L nlog B NI Hlo (disk s) [] (block_of (disk s) 1) s2 i ip env Ht2); try done|..].
  - by rewrite R2.
  - by rewrite R1.
  - split; cbn [length]; lia.
  - intros s' [_ ->]. by left.
  - intros b s3 [(bs & D & Ht3 & Hw & He) _]. pose proof (within_length me mp size L nlog _ _ _ _ _ _ _ Ht3 Hw) as Hl. cbn [length] in Hl.
    pose proof (in_txn_of_txn _ _ _ _ _ _ _ _ _ Ht3 ltac:(lia)) as Hx. pose proof (in_txn_confined _ _ _ _ _ _ _ _ _ Hx) as Hcf.
    eapply rc_mono; [apply (end_op_spec me mp size L nlog (disk s) bs D s3 env Hx Hlog)| |].
    + intros s' [_ Hcp]. right. by exists D, bs.
    + intros c s4 [Hcm _]. split; [done|]. by exists D, bs.
Qed.
Lemma emptied_outside_log inum d D0 D D' :
  an_inode NI inum -> emptied L B NI inum d D0 D -> (forall c, ~ in_log L nlog c -> D' c = D c) -> emptied L B NI inum d D0 D'.
Proof using Hlo.
  intros Hi [E1 E2 E3 E4 E5] Hd. pose proof (lo_inode_blocks size L nlog B NI Hlo) as Hb. pose proof Hlo as [(L1 & L2 & L3) _ L4 L5 _].
  assert (forall c, sb_inodestart B <= c -> D' c = D c) as Hag by (intros c Hc; apply Hd; unfold in_log; lia). split.
  - apply (agree_wf B NI Hb L5 ltac:(lia) D D' Hag E1).
  - by rewrite (agree_inode B NI Hb L5 D D' Hag).
  - intros j Hj Hne. destruct (E3 j Hj Hne) as [F1 F2]. split; [by rewrite (agree_inode B NI Hb L5 D D' Hag)|]. intros Hw. destruct (F2 Hw) as [Hw1 Ef1].
    destruct (agree_file B NI Hb L5 ltac:(lia) D D' Hag E1 j Hj Hw1) as [Hw2 Ef2]. split; [done|congruence].
  - intros b Hb'. rewrite <- E4 by done. unfold is_free. by rewrite Hag by lia.
  - intros c Hc. rewrite <- E5 by done. apply Hd. unfold in_log. lia.
Qed.
End Drop.

(** C6: a file that was removed is dropped atomically when its last reference
    is closed.  [fileclose], for the last open file of an inode without
    links, on a disk whose power may fail at any request: when it returns,
    the inode is unused, the blocks that are free are those that were and the
    file's own, direct, indirect and the indirect block itself, every other
    inode and file is as before, the file system is well-formed, and this
    survives reboots; if the power fails, recovery gives this or the blocks
    as they were. *)
Theorem fileclose_drops `{Link} fails me mp size L nlog B NI s f x i ip env :
  laid_out size L nlog B NI -> idle me mp size L nlog s -> last_close nlog B NI s f x i ip ->
  let old d := forall c, ~ in_log L nlog c -> block_of d 1 c = block_of (disk s) 1 c in
  let new d := emptied L B NI (i_inum ip) (di_of (dropped ip)) (block_of (disk s) 1) (block_of d 1) in
  match @fileclose (failing fails (memide_driver size)) _ f env s with
  | Ok _ s' _ => new (disk s') /\ survives size L new (disk s')
  | Blocked WHalt s' => survives size L (fun d => old d \/ new d) (disk s')
  | _ => False
  end.
Proof.
  intros Hlo Hid Hc. destruct (lc_inode _ _ _ _ _ _ _ _ Hc) as (_ & _ & _ & Hin).
  pose proof (atomic_outcome size L nlog (emptied L B NI (i_inum ip) (di_of (dropped ip)) (block_of (disk s) 1)) (fun _ _ => True) (disk s) env
    _ (id_layout _ _ _ _ _ _ Hid) (fun D D' => emptied_outside_log size L nlog B NI Hlo _ _ _ D D' Hin)
    (@fileclose_run _ _ me mp size L nlog True (failing_sync fails size) B NI Hlo s f x i ip env Hid Hc)) as Hr.
  intros old new. destruct (fileclose f env s) as [r s' e| |]; [exact (proj2 Hr)|exact Hr..].
Qed.

(** ** The file of the image, after its name is gone *)

(** The image with no link to the file cat, which is open. *)
Definition no_link (d : dinode) : dinode := mkdi (di_type d) (di_major d) (di_minor d) 0 (di_size d) (di_addrs d).
Definition disk_nolink (im : list block) : gmap (Z * Z) (list Z) :=
  <[(1, 32) := splice (blk im 32) 128 (di_bytes (no_link (kernel_inode im 2)))]> (disk_of im).
Definition cat_file : Kernel.file := mkfile FD_INODE 1 true false 0 (Some 0%nat) 0.
Definition cat_unlinked (im : list block) : inode := set_i_flags I_VALID (load_di (no_link (kernel_inode im 2)) cat_inode).
Definition closing (im : list block) : kst :=
  after_binit (set_files (<[0%nat := cat_file]> (files kst_idle)) (set_icache (<[0%nat := cat_unlinked im]> (icache kst_idle))
    (set_sb sb_built (set_disk (disk_nolink im) kst_idle)))).

Section Closing.
Context (im : list block) (Him : image im (59 + total (all_files args_example)) (all_files args_example)).
Let D := block_of (disk_of im) 1.

Lemma closing_block c : block_of (disk_nolink im) 1 c = put_inode sb_built 2 (no_link (kernel_inode im 2)) D c.
Proof using Him.
  unfold put_inode, fput, block_of at 1, disk_nolink. change (IBLOCK 2 sb_built) with 32.
  case_decide as E.
  - subst c. rewrite lookup_insert_eq. unfold D. rewrite (image_block im _ _ Him) by lia. done.
  - rewrite lookup_insert_ne by congruence. done.
Qed.
Lemma no_link_ok : di_ok (no_link (kernel_inode im 2)).
Proof using Him.
  destruct (sd_ok _ _ _ (ig_files _ _ _ Him 1%nat (T_FILE, bytes_of "hello!!") eq_refl)) as [? ? ? ? ? ? ?]. split; try done.
Qed.

Lemma closing_set : inode_set sb_built 208 2 (no_link (kernel_inode im 2)) D (put_inode sb_built 2 (no_link (kernel_inode im 2)) D).
Proof using Him.
  apply (put_inode_set 1000 2 30 sb_built 208 image_laid_out); [apply (image_wf im _ _ Him); cbn; lia|unfold an_inode; lia|apply no_link_ok|].
  unfold disk_addrs, D. rewrite (image_inode im _ _ Him) by (cbn; lia). done.
Qed.

Lemma closing_length b : length (block_of (disk_nolink im) 1 b) = Z.to_nat BSIZE.
Proof using Him.
  rewrite closing_block. unfold put_inode, fput. case_decide; [|apply length_block_of_disk, Him].
  apply (length_put_inode sb_built 208 (lo_inode_blocks 1000 2 30 _ _ image_laid_out) (lo_data _ _ _ _ _ image_laid_out)); [unfold an_inode; lia|apply no_link_ok|].
  apply length_block_of_disk, Him.
Qed.

Lemma closing_idle : idle 0 proc_running 1000 2 30 (closing im).
Proof using Him.
  constructor; [|by constructor| | |reflexivity|split; reflexivity].
  - apply after_binit_cache; [by destruct kst_idle_calm|reflexivity|exact closing_length].
  - change (disk (closing im)) with (disk_nolink im). rewrite closing_block. unfold put_inode, fput. change (IBLOCK 2 sb_built) with 32. rewrite decide_False by lia. unfold D.
    rewrite (image_block im _ _ Him), (ig_log _ _ _ Him) by lia. split; [reflexivity|]. intros k b Hb. by rewrite lookup_nil in Hb.
  - apply (id_layout _ _ _ _ _ _ (writing_idle im Him)).
Qed.

Lemma closing_last : last_close 30 sb_built 208 (closing im) 0 cat_file 0 (cat_unlinked im).
Proof using Him.
  pose proof closing_set as [I1 I2 _ I4]. pose proof (lo_inode_blocks 1000 2 30 _ _ image_laid_out) as Hb. pose proof (lo_data _ _ _ _ _ image_laid_out) as Hg.
  assert (forall c, sb_inodestart sb_built <= c -> block_of (disk_nolink im) 1 c = put_inode sb_built 2 (no_link (kernel_inode im 2)) D c) as Hag by (intros; apply closing_block).
  constructor; change (disk (closing im)) with (disk_nolink im); try done.
  - split; [done|]. rewrite closing_block, I4 by (cbn; lia). unfold D. rewrite (image_block im _ _ Him) by lia. apply Him.
  - split; [done|]. change (i_inum (cat_unlinked im)) with 2. rewrite (agree_inode sb_built 208 Hb Hg _ _ Hag) by (unfold an_inode; lia).
    rewrite I2, decide_True by (done || unfold an_inode; lia). reflexivity.
  - apply (agree_wf sb_built 208 Hb Hg ltac:(cbn; lia) _ _ Hag I1).
Qed.
End Closing.

Lemma fileclose_drops_witness :
  exists st, Mkfs.main (host <$> args_example) = Some st /\
    let s := closing (img st) in
    let old d := forall c, ~ in_log 2 30 c -> block_of d 1 c = block_of (disk s) 1 c in
    let new d := emptied 2 sb_built 208 2 (di_of (dropped (cat_unlinked (img st)))) (block_of (disk s) 1) (block_of d 1) in
    match @fileclose (failing (fun s => 1 <? lh_n (log s)) (memide_driver 1000)) link_example 0 [] s with
    | Ok _ s' _ => new (disk s') /\ survives 1000 2 new (disk s')
    | Blocked WHalt s' => survives 1000 2 (fun d => old d \/ new d) (disk s')
    | _ => False
    end.
Proof.
  destruct example_image as (st & E & Him). exists st. split; [exact E|]. clear E. revert Him. generalize (img st). clear st. intros im Him.
  exact (@fileclose_drops link_example (fun s => 1 <? lh_n (log s)) 0 proc_running 1000 2 30 sb_built 208 (closing im) 0 cat_file 0 (cat_unlinked im) []
    image_laid_out (closing_idle im Him) (closing_last im Him)).
Defined.
