(* ===== verification/Sysarg.v ===== *)
(** * syscall.c: fetching the arguments of a system call

    An argument that cannot be fetched is [None] (the C functions return
    -1).  [fetchstr] gives the address of the string and its length; the
    bytes are read where the string is used. *)

From stdpp Require Import base numbers list gmap strings.
From S2P Require Import Prelude Kernel Spinlock Sched Kalloc Umem Signal Vmspace.

Definition fetchint (addr : Z) : M (option Z) :=
  let! (_, p) := myproc_get in
  if (sz p <=? addr) || (sz p <? u32 (addr + 4)) then ret None else
  let! v := uload32 addr in
  ret (Some (s32 v)).

(** [for(s = *pp; s < ep; s++) if( *s == 0) return s - *pp], [n] bytes
    from [s] on being below [ep]. *)
Fixpoint find_nul (n : nat) (s len : Z) : M (option Z) :=
  match n with
  | O => ret None
  | S n' =>
      let! c := uload s 1 in
      if hd 0 c =? 0 then ret (Some len) else find_nul n' (s + 1) (len + 1)
  end.

Definition fetchstr (addr : Z) : M (option (Z * Z)) :=
  let! (_, p) := myproc_get in
  if sz p <=? addr then ret None else
  let! r := find_nul (Z.to_nat (sz p - addr)) addr 0 in
  ret (match r with Some len => Some (addr, len) | None => None end).

Definition argint (n : Z) : M (option Z) :=
  let! (_, p) := myproc_get in fetchint (u32 (tf_esp (tf p) + 4 + 4 * n)).

Definition argptr (n size : Z) : M (option Z) :=
  let! r := argint n in
  match r with
  | None => ret None
  | Some i =>
      let! (_, p) := myproc_get in
      if (size <? 0) || (sz p <=? u32 i) || (sz p <? u32 (u32 i + size)) then ret None
      else ret (Some (u32 i))
  end.

Definition argstr (n : Z) : M (option (Z * Z)) :=
  let! r := argint n in
  match r with
  | None => ret None
  | Some addr => fetchstr (u32 addr)
  end.

(** The bytes of a fetched string. *)
Definition str_at (p : Z * Z) : M (list Z) := uload (fst p) (Z.to_nat (snd p)).

(** ** Arguments are checked before they are used *)

Section Checked.
Context (s : kst) (i : nat) (p : proc) (env : list (kst -> kst)).

(** Every byte below the process's size can be read by the kernel. *)
Definition readable (s : kst) (p : proc) : Prop :=
  0 <= sz p <= KERNBASE /\
  forall va, 0 <= va < sz p -> is_Some (uget8 (phys s) (cr3 (kcpu s)) va).

Context (Hc : cur s i p) (Hr : readable s p).

Lemma ubytes_readable n : forall va, 0 <= va -> va + Z.of_nat n <= sz p ->
  exists bs, ubytes (phys s) (cr3 (kcpu s)) va n = Some bs /\ length bs = n.
Proof using Hr.
  destruct Hr as [Hsz Hb]. unfold KERNBASE in Hsz.
  induction n as [|n IH]; intros va H0 H1; cbn [ubytes]; [by exists []|].
  rewrite u32_small by lia. destruct (Hb va ltac:(lia)) as [b ->].
  destruct (IH (va + 1)) as (bs & -> & Hl); [lia..|]. exists (b :: bs). cbn. by rewrite Hl.
Qed.

Lemma uload_readable n va : 0 <= va -> va + Z.of_nat n <= sz p ->
  exists bs, uload va n env s = Ok bs s env /\ length bs = n.
Proof using Hr.
  intros H0 H1. destruct (ubytes_readable n va H0 H1) as (bs & E & Hl).
  exists bs. unfold uload. by rewrite E.
Qed.

Lemma fetchint_run addr : 0 <= addr ->
  exists r, fetchint addr env s = Ok r s env.
Proof using Hc Hr.
  intros H0. destruct Hr as [Hsz _]. unfold KERNBASE in Hsz. unfold fetchint.
  rewrite (bind_ok _ _ _ _ _ _ _ (myproc_get_run env s i p Hc)).
  destruct (Z.leb_spec (sz p) addr); [by exists None|]. cbn [orb].
  rewrite u32_small by lia. destruct (Z.ltb_spec (sz p) (addr + 4)); [by exists None|].
  unfold uload32. destruct (uload_readable 4 addr) as (bs & E & _); [lia..|].
  rewrite bind_assoc, (bind_ok _ _ _ _ _ _ _ E). eauto.
Qed.

Lemma argint_run n : exists r, argint n env s = Ok r s env.
Proof using Hc Hr.
  unfold argint. rewrite (bind_ok _ _ _ _ _ _ _ (myproc_get_run env s i p Hc)).
  apply fetchint_run. apply u32_range.
Qed.

Lemma find_nul_run n : forall a len, 0 <= a -> a + Z.of_nat n <= sz p ->
  exists r, find_nul n a len env s = Ok r s env /\
    forall k, r = Some k -> len <= k < len + Z.of_nat n /\
      uget8 (phys s) (cr3 (kcpu s)) (a + (k - len)) = Some 0 /\
      forall j, len <= j < k -> uget8 (phys s) (cr3 (kcpu s)) (a + (j - len)) <> Some 0.
Proof using Hr.
  pose proof Hr as [Hsz Hb]. unfold KERNBASE in Hsz.
  induction n as [|n IH]; intros a len H0 H1; cbn [find_nul]; [by exists None|].
  destruct (Hb a ltac:(lia)) as [b Eb].
  assert (uload a 1 env s = Ok [b] s env) as EL.
  { unfold uload. cbn [ubytes]. rewrite u32_small by lia. by rewrite Eb. }
  rewrite (bind_ok _ _ _ _ _ _ _ EL). cbn [hd]. destruct (Z.eqb_spec b 0) as [->|Hb0].
  - exists (Some len). split; [done|]. intros k [= <-]. split_and!; [lia|lia| |lia].
    by replace (a + (len - len)) with a by lia.
  - destruct (IH (a + 1) (len + 1)) as (r & E & Hk); [lia..|]. exists r. split; [exact E|].
    intros k Hrk. destruct (Hk k Hrk) as (K1 & K2 & K3). split_and!; [lia|lia| |].
    + by replace (a + (k - len)) with (a + 1 + (k - (len + 1))) by lia.
    + intros j Hj. destruct (decide (j = len)) as [->|Hne].
      * replace (a + (len - len)) with a by lia. rewrite Eb. congruence.
      * specialize (K3 j ltac:(lia)). by replace (a + (j - len)) with (a + 1 + (j - (len + 1))) by lia.
Qed.

(** C35: syscall.c [argint], [argptr], [argstr], [fetchint], [fetchstr].
    Whatever a process passes to a system call, as long as the kernel can
    read the process's own memory, fetching an argument neither faults nor
    changes anything; a buffer that is accepted lies, with the size asked
    for, inside the process's memory; and a string that is accepted ends
    inside it, the length being that up to its first 0. *)
Theorem arguments_in_process n size :
  -2147483648 <= size < 2147483648 ->
  (exists r, argint n env s = Ok r s env) /\
  (exists r, argptr n size env s = Ok r s env /\
     forall a, r = Some a -> 0 <= a < sz p /\ 0 <= size /\ a + size <= sz p) /\
  (exists r, argstr n env s = Ok r s env /\
     forall a len, r = Some (a, len) -> 0 <= a /\ 0 <= len /\ a + len < sz p /\
       uget8 (phys s) (cr3 (kcpu s)) (a + len) = Some 0 /\
       forall j, 0 <= j < len -> uget8 (phys s) (cr3 (kcpu s)) (a + j) <> Some 0).
Proof using Hc Hr.
  intros Hsize. pose proof Hr as [Hsz _]. unfold KERNBASE in Hsz. destruct (argint_run n) as [r Er]. split_and!.
  - eauto.
  - unfold argptr. rewrite (bind_ok _ _ _ _ _ _ _ Er). destruct r as [x|]; [|by exists None].
    rewrite (bind_ok _ _ _ _ _ _ _ (myproc_get_run env s i p Hc)). pose proof (u32_range x) as Hx.
    destruct (Z.ltb_spec size 0); [by exists None|]. cbn [orb].
    destruct (Z.leb_spec (sz p) (u32 x)); [by exists None|]. cbn [orb].
    rewrite (u32_small (u32 x + size)) by lia.
    destruct (Z.ltb_spec (sz p) (u32 x + size)); [by exists None|].
    exists (Some (u32 x)). split; [done|]. intros a [= <-]. lia.
  - unfold argstr. rewrite (bind_ok _ _ _ _ _ _ _ Er). destruct r as [x|]; [|by exists None].
    unfold fetchstr. rewrite (bind_ok _ _ _ _ _ _ _ (myproc_get_run env s i p Hc)).
    pose proof (u32_range x) as Hx. destruct (Z.leb_spec (sz p) (u32 x)); [by exists None|].
    destruct (find_nul_run (Z.to_nat (sz p - u32 x)) (u32 x) 0) as (r & E & Hk); [lia..|].
    rewrite (bind_ok _ _ _ _ _ _ _ E). destruct r as [k|]; [|by exists None].
    exists (Some (u32 x, k)). split; [done|]. intros a len [= <- <-].
    destruct (Hk k eq_refl) as (K1 & K2 & K3). rewrite Z.sub_0_r in K2. split_and!; try lia; [done|].
    intros j Hj. specialize (K3 j Hj). by rewrite Z.sub_0_r in K3.
Qed.
End Checked.

(** The process of Signal.v's example: its one page can be read. *)
Lemma readable_example : readable (kst_user proc_example) proc_example.
Proof.
  split; [by vm_compute|]. intros va Hva. change (sz proc_example) with 4096 in Hva.
  exists (mget phys_user (12288 + va)). unfold uget8, walk, pte_at, pde_at.
  change (cr3 (kcpu (kst_user proc_example))) with 4096. change (phys (kst_user proc_example)) with phys_user.
  rewrite PDX_vpn, PTX_vpn by lia. rewrite (Z.div_small va 4096), (Z.mod_small va PGSIZE) by (unfold PGSIZE; lia).
  reflexivity.
Qed.

Lemma arguments_in_process_witness :
  exists r, argptr 1 64 [] (kst_user proc_example) = Ok r (kst_user proc_example) [].
Proof.
  destruct (arguments_in_process (kst_user proc_example) 0 proc_example []) with (n := 1) (size := 64)
    as (_ & (r & E & _) & _).
  - split; reflexivity.
  - apply readable_example.
  - lia.
  - exists r. exact E.
Defined.
