(* ===== verification/Sysfile.v ===== *)
(** * sysfile.c: the system calls on files *)

From stdpp Require Import base numbers list gmap strings.
From S2P Require Import Prelude Kernel Spinlock Sched Kalloc Console Umem Str Vm Pipe Intr Kbd Sleeplock Buf Bio Log Inode Consdev Dir File Sysarg.

Definition O_RDONLY : Z := 0.
Definition O_WRONLY : Z := 1.
Definition O_RDWR : Z := 2.
Definition O_CREATE : Z := 512.
Definition SIZEOF_STAT : Z := 20.

(** Going on with an argument, or failing with -1. *)
Definition arg {A} (m : M (option A)) (k : A -> M Z) : M Z :=
  let! r := m in match r with None => ret (-1) | Some a => k a end.
Notation "'arg!' x := m 'in' k" := (arg m (fun x => k))
  (at level 200, x name, right associativity) : kernel_scope.
Notation "'arg!' ( x , y ) := m 'in' k" := (arg m (fun p => let (x, y) := p in k))
  (at level 200, x name, y name, right associativity) : kernel_scope.

Section Sysfile.
Context `{Driver}.

(** The descriptor and the file. *)
Definition argfd (n : Z) : M (option (Z * nat)) :=
  let! r := argint n in
  match r with
  | None => ret None
  | Some fd =>
      let! (_, p) := myproc_get in
      if (fd <? 0) || (Z.of_nat NOFILE <=? fd) then ret None else
      match nth (Z.to_nat fd) (ofile p) None with
      | None => ret None
      | Some f => ret (Some (fd, f))
      end
  end.

Definition set_fd (i : nat) (fd : nat) (f : option nat) : M unit :=
  mod_proc i (fun p => set_ofile (<[fd := f]> (ofile p)) p).

Definition fdalloc (f : nat) : M Z :=
  let! (i, p) := myproc_get in
  match find_idx (fun o => bool_decide (o = None)) (ofile p) with
  | Some fd => set_fd i fd (Some f) ;; ret (Z.of_nat fd)
  | None => ret (-1)
  end.

Definition sys_dup : M Z :=
  arg! (_, f) := argfd 0 in
  let! fd := fdalloc f in
  if fd <? 0 then ret (-1) else
  let! _ := filedup f in
  ret fd.

Definition sys_read : M Z :=
  arg! (_, f) := argfd 0 in
  arg! n := argint 2 in
  arg! p := argptr 1 n in
  fileread f p n.

Definition sys_write : M Z :=
  arg! (_, f) := argfd 0 in
  arg! n := argint 2 in
  arg! p := argptr 1 n in
  filewrite f p n.

Definition sys_close `{Link} : M Z :=
  arg! (fd, f) := argfd 0 in
  let! (i, _) := myproc_get in
  set_fd i (Z.to_nat fd) None ;;
  fileclose f ;;
  ret 0.

Definition sys_fstat : M Z :=
  arg! (_, f) := argfd 0 in
  arg! st := argptr 1 SIZEOF_STAT in
  filestat f st.

(** [ip->nlink += d; iupdate(ip)]. *)
Definition add_nlink (i : nat) (d : Z) : M unit :=
  mod_inode i (fun ip => set_i_nlink (s16 (i_nlink ip + d)) ip) ;; iupdate i.

(** An empty buffer for [name]: it is an uninitialised local variable. *)
Definition name_buf : list Z := replicate DIRSIZ 0.

Definition link_bad (ip : nat) : M Z :=
  ilock (Some ip) ;;
  add_nlink ip (-1) ;;
  iunlockput ip ;;
  end_op ;;
  ret (-1).

Definition sys_link : M Z :=
  arg! old := argstr 0 in
  arg! new := argstr 1 in
  begin_op ;;
  let! old := str_at old in
  let! r := namei old in
  match r with
  | None => end_op ;; ret (-1)
  | Some ip =>
      ilock (Some ip) ;;
      let! x := get_inode ip in
      if i_type x =? T_DIR then iunlockput ip ;; end_op ;; ret (-1) else
      add_nlink ip 1 ;;
      iunlock (Some ip) ;;
      let! new := str_at new in
      let! (d, nm) := nameiparent new name_buf in
      match d with
      | None => link_bad ip
      | Some dp =>
          ilock (Some dp) ;;
          let! y := get_inode dp in
          let! x := get_inode ip in
          let! r := (if negb (i_dev y =? i_dev x) then ret (-1) else dirlink dp nm (i_inum x)) in
          if r <? 0 then iunlockput dp ;; link_bad ip else
          iunlockput dp ;;
          iput ip ;;
          end_op ;;
          ret 0
      end
  end.

(** There is a turn for every entry of the directory. *)
Fixpoint isdirempty_loop (fuel : nat) (dp : nat) (off : Z) : M bool :=
  let! d := get_inode dp in
  if i_size d <=? off then ret true else
  match fuel with
  | O => halt WFuel
  | S f =>
      let! de := read_de "isdirempty: readi" dp off in
      if negb (de_inum de =? 0) then ret false else isdirempty_loop f dp (off + SIZEOF_DIRENT)
  end.
Definition isdirempty (dp : nat) : M bool :=
  let! n := dir_fuel dp in isdirempty_loop n dp (2 * SIZEOF_DIRENT).

Definition unlink_bad (dp : nat) : M Z :=
  iunlockput dp ;; end_op ;; ret (-1).

Definition sys_unlink : M Z :=
  arg! path := argstr 0 in
  begin_op ;;
  let! path := str_at path in
  let! (d, nm) := nameiparent path name_buf in
  match d with
  | None => end_op ;; ret (-1)
  | Some dp =>
      ilock (Some dp) ;;
      if (namecmp nm (bytes_of ".") =? 0) || (namecmp nm (bytes_of "..") =? 0) then unlink_bad dp else
      let! r := dirlookup dp nm in
      match r with
      | None => unlink_bad dp
      | Some (ip, off) =>
          ilock (Some ip) ;;
          let! x := get_inode ip in
          if i_nlink x <? 1 then panic "unlink: nlink < 1" else
          let! full := (if i_type x =? T_DIR then let! e := isdirempty ip in ret (negb e) else ret false) in
          if (full : bool) then iunlockput ip ;; unlink_bad dp else
          let! r := writei dp (from_local de_zero) off SIZEOF_DIRENT in
          if negb (r =? SIZEOF_DIRENT) then panic "unlink: writei" else
          let! x := get_inode ip in
          when (i_type x =? T_DIR) (add_nlink dp (-1)) ;;
          iunlockput dp ;;
          add_nlink ip (-1) ;;
          iunlockput ip ;;
          end_op ;;
          ret 0
      end
  end.

(** The inode, locked; [None] if the path cannot be created. *)
Definition create (path : list Z) (type major minor : Z) : M (option nat) :=
  let! (d, nm) := nameiparent path name_buf in
  match d with
  | None => ret None
  | Some dp =>
      ilock (Some dp) ;;
      let! r := dirlookup dp nm in
      match r with
      | Some (ip, _) =>
          iunlockput dp ;;
          ilock (Some ip) ;;
          let! x := get_inode ip in
          if (type =? T_FILE) && (i_type x =? T_FILE) then ret (Some ip) else
          iunlockput ip ;;
          ret None
      | None =>
          let! y := get_inode dp in
          let! ip := ialloc (i_dev y) type in
          ilock (Some ip) ;;
          mod_inode ip (set_i_major major) ;;
          mod_inode ip (set_i_minor minor) ;;
          mod_inode ip (set_i_nlink 1) ;;
          iupdate ip ;;
          when (type =? T_DIR)
            (add_nlink dp 1 ;;
             let! x := get_inode ip in
             let! r := dirlink ip (bytes_of ".") (i_inum x) in
             if r <? 0 then panic "create dots" else
             let! y := get_inode dp in
             let! r := dirlink ip (bytes_of "..") (i_inum y) in
             if r <? 0 then panic "create dots" else ret tt) ;;
          let! x := get_inode ip in
          let! r := dirlink dp nm (i_inum x) in
          if r <? 0 then panic "create: dirlink" else
          iunlockput dp ;;
          ret (Some ip)
      end
  end.

Definition has_flag (omode f : Z) : bool := negb (Z.land omode f =? 0).

(** The inode to open, locked. *)
Definition open_inode (path : list Z) (omode : Z) : M (option nat) :=
  if has_flag omode O_CREATE then
    let! ip := create path T_FILE 0 0 in
    match ip with
    | None => end_op ;; ret None
    | Some ip => ret (Some ip)
    end
  else
    let! r := namei path in
    match r with
    | None => end_op ;; ret None
    | Some ip =>
        ilock (Some ip) ;;
        let! x := get_inode ip in
        if (i_type x =? T_DIR) && negb (omode =? O_RDONLY) then
          iunlockput ip ;; end_op ;; ret None
        else ret (Some ip)
    end.

(** A new file and a descriptor for it. *)
Definition open_file `{Link} : M (option (nat * Z)) :=
  let! f := filealloc in
  match f with
  | None => ret None
  | Some f =>
      let! fd := fdalloc f in
      if fd <? 0 then fileclose f ;; ret None else ret (Some (f, fd))
  end.

Definition sys_open `{Link} : M Z :=
  arg! path := argstr 0 in
  arg! omode := argint 1 in
  begin_op ;;
  let! path := str_at path in
  arg! ip := open_inode path omode in
  let! r := open_file in
  match r with
  | None => iunlockput ip ;; end_op ;; ret (-1)
  | Some (f, fd) =>
      iunlock (Some ip) ;;
      end_op ;;
      mod_file f (set_f_type FD_INODE) ;;
      mod_file f (set_f_ip (Some ip)) ;;
      mod_file f (set_f_off 0) ;;
      mod_file f (set_f_readable (negb (has_flag omode O_WRONLY))) ;;
      mod_file f (set_f_writable (has_flag omode O_WRONLY || has_flag omode O_RDWR)) ;;
      ret fd
  end.

(** [if((r = m) fails){ end_op(); return -1; }], then [k]. *)
Definition or_end {A} (m : M (option A)) (k : A -> M Z) : M Z :=
  let! r := m in match r with None => end_op ;; ret (-1) | Some a => k a end.

Definition sys_mkdir : M Z :=
  begin_op ;;
  or_end (argstr 0) (fun path =>
  let! path := str_at path in
  or_end (create path T_DIR 0 0) (fun ip =>
  iunlockput ip ;;
  end_op ;;
  ret 0)).

Definition sys_mknod : M Z :=
  begin_op ;;
  or_end (argstr 0) (fun path =>
  or_end (argint 1) (fun major =>
  or_end (argint 2) (fun minor =>
  let! path := str_at path in
  or_end (create path T_DEV (s16 major) (s16 minor)) (fun ip =>
  iunlockput ip ;;
  end_op ;;
  ret 0)))).

Definition sys_chdir : M Z :=
  begin_op ;;
  or_end (argstr 0) (fun path =>
  let! path := str_at path in
  or_end (namei path) (fun ip =>
  ilock (Some ip) ;;
  let! x := get_inode ip in
  if negb (i_type x =? T_DIR) then iunlockput ip ;; end_op ;; ret (-1) else
  iunlock (Some ip) ;;
  let! (i, p) := myproc_get in
  let! c := deref (cwd p) in
  iput c ;;
  end_op ;;
  mod_proc i (set_cwd (Some ip)) ;;
  ret 0)).

Definition sys_pipe `{Link} : M Z :=
  arg! fd := argptr 0 8 in
  arg! (rf, wf) := pipealloc in
  let! fd0 := fdalloc rf in
  let! fd1 := (if fd0 <? 0 then ret (-1) else fdalloc wf) in
  if (fd0 <? 0) || (fd1 <? 0) then
    when (0 <=? fd0) (let! (i, _) := myproc_get in set_fd i (Z.to_nat fd0) None) ;;
    fileclose rf ;;
    fileclose wf ;;
    ret (-1)
  else
    ustore32 fd fd0 ;;
    ustore32 (fd + 4) fd1 ;;
    ret 0.
End Sysfile.
