(* ===== verification/Fscreate.v ===== *)
(** * Creating a file

    [create] of sysfile.c, for a new name in the root directory: an inode is
    taken, filled in and written, and its number is entered in the directory,
    in one transaction. *)

From stdpp Require Import base numbers list gmap strings.
From S2P Require Import Prelude Kernel Spinlock Sched Sleeplock Kalloc Console Umem Signal Str Vm Mkfs Mkfsok Mkfsimg.
From S2P Require Import Buf Memide Ring Bio Bcache Log Logsafe Crash Inode Consdev Dir Fsread Fsimage Fstxn Fsview Fswrite Fsfile Fstrunc Fsdir.
From S2P Require Import File Fsatomic Fsdrop Sysarg Sysfile.

Section Create.
Context {DR : Driver} (me : nat) (mp : proc) (size L nlog : Z) {may : Prop} {SD : SyncDisk size may} (B : superblock) (NI : Z).
Context (Hlo : laid_out size L nlog B NI).
Implicit Types (s : kst) (bs : list Z) (D : Z -> list Z).

Notation txn := (txn me mp size L nlog).
Notation cut_off := (@cut_off may).
Notation spare := (spare nlog).
Notation bm := (sb_bmapstart B).
Notation N := (sb_size B).

(** The blocks with a new inode [t], and an entry for it in directory
    [dinum]. *)
Record made (t : Z) (d : dinode) (dinum off : Z) (data : list Z) D D' : Prop := {
  ma_wf : fs_wf B NI D';
  ma_inode : disk_inode B D' t = d;
  ma_dir : whole B D' dinum /\ file_at B D' dinum = splice (file_at B D dinum) off data;
  ma_others : forall j, an_inode NI j -> j <> t -> j <> dinum ->
    disk_inode B D' j = disk_inode B D j /\ (whole B D j -> whole B D' j /\ file_at B D' j = file_at B D j);
  ma_room : (free_count bm N D <= free_count bm N D' + 2)%nat;
}.

(** Inode [t] is the first free one, the root directory has [n] entries,
    none of them for [e], and there are blocks for another. *)
Record can_create D (e : list Z) (t : Z) (n : nat) : Prop := {
  cc_wf : fs_wf B NI D;
  cc_name : e <> [] /\ slash ∉ e;
  cc_free : 1 < t < sb_ninodes B /\ sb_ninodes B <= NI /\ di_type (disk_inode B D t) = 0;
  cc_used : forall k, 1 <= k < t -> di_type (disk_inode B D k) <> 0;
  cc_root : dir_ok B NI D ROOTINO n /\ di_nlink (disk_inode B D ROOTINO) <> 0;
  cc_new : no_entry B D ROOTINO n e;
  cc_room : 16 * (Z.of_nat n + 1) <= 140 * 512 /\ (2 <= free_count bm N D)%nat;
}.

(** The places in the cache: [r] for the directory, [q] for the new inode. *)
Record places D s (t : Z) (r : nat) (c : list inode) (ipr : inode) (q : nat) (c2 : list inode) (x : inode) : Prop := {
  pl_root : iget_to (icache s) ROOTDEV ROOTINO = Some (r, c) /\ c !! r = Some ipr;
  pl_loaded : is_loaded ipr = true -> di_of ipr = disk_inode B D ROOTINO;
  pl_new : iget_to (<[r := fetched D B ipr]> c) 1 t = Some (q, c2) /\ c2 !! q = Some x;
  pl_fresh : is_loaded x = false /\ r <> q;
  pl_locks : slocks s !! SLinode r = None /\ slocks s !! SLinode q = None;
}.

(** The new inode in memory. *)
Definition new_ip (type major minor : Z) (x : inode) : inode :=
  set_i_nlink 1 (set_i_minor minor (set_i_major major
    (set_i_flags (Z.lor (i_flags x) I_VALID) (load_di (new_dinode type) x)))).
Definition made_dinode (type major minor : Z) : dinode := mkdi type major minor 1 0 (replicate 13 0).

Lemma valid_loaded ip : is_loaded (set_i_flags (Z.lor (i_flags ip) I_VALID) ip) = true.
Proof using.
  unfold is_loaded. change (i_flags (set_i_flags ?f ip)) with f. apply negb_true_iff, Z.eqb_neq. unfold I_VALID.
  rewrite Z.land_lor_distr_l, Z.lor_eq_0_iff. intros [_ H]. done.
Qed.

Lemma fetched_root D ipr : i_inum ipr = ROOTINO -> (is_loaded ipr = true -> di_of ipr = disk_inode B D ROOTINO) ->
  let dir := fetched D B ipr in
  di_of dir = disk_inode B D ROOTINO /\ i_ref dir = i_ref ipr /\ i_dev dir = i_dev ipr /\ i_inum dir = i_inum ipr /\ is_loaded dir = true.
Proof using.
  intros Hn Hl dir. unfold dir, fetched. destruct (is_loaded ipr) eqn:E; [by split; [apply Hl|]|].
  unfold loaded. rewrite Hn. fold (disk_inode B D ROOTINO). split_and!; try done. apply valid_loaded.
Qed.

Lemma rest_locked s s1 q : rest s s1 -> rest (locked_inode mp q s) (locked_inode mp q s1).
Proof using.
  intros (A1 & A2 & A3 & A4 & A5). repeat split; try done. intros j. cbn. destruct (decide (j = q)) as [->|Hne]; [by rewrite !lookup_insert_eq|].
  by rewrite !lookup_insert_ne by congruence.
Qed.

Lemma seq_five {A} (m1 m2 m3 m4 m5 : M unit) (k : M A) env s :
  (m1 ;; m2 ;; m3 ;; m4 ;; m5 ;; k) env s = ((m1 ;; m2 ;; m3 ;; m4 ;; m5) ;; k) env s.
Proof using.
  unfold bind. destruct (m1 env s) as [[] s1 e1| |]; [|done..]. destruct (m2 e1 s1) as [[] s2 e2| |]; [|done..].
  destruct (m3 e2 s2) as [[] s3 e3| |]; [|done..]. by destruct (m4 e3 s3) as [[] s4 e4| |].
Qed.

(** The first part: the directory is locked, and the inode is taken. *)
Section Parts.
Context (d0 : gmap (Z * Z) (list Z)) (bs : list Z) (D : Z -> list Z) (s : kst) (e : list Z) (t : Z) (n : nat) (type major minor : Z).
Context (r : nat) (c : list inode) (ipr : inode) (q : nat) (c2 : list inode) (x : inode) (env : list (kst -> kst)).
Hypotheses (Ht : txn ∅ d0 bs D s) (Hsb : sb s = B) (Hsp : spare 13 bs) (Hty : short_ok type /\ type <> 0).
Hypotheses (Hc : can_create D e t n) (Hpl : places D s t r c ipr q c2 x).
Let dir := fetched D B ipr.
Let nm := set_elem e name_buf.

Lemma root_entry : i_dev ipr = 1 /\ i_inum ipr = ROOTINO /\ 1 <= i_ref ipr.
Proof using Hpl.
  destruct (pl_root _ _ _ _ _ _ _ _ _ Hpl) as [Hg Hr]. destruct (iget_to_got _ _ _ _ _ Hg) as (y & Hy & H1 & H2 & H3). rewrite Hr in Hy. injection Hy as <-. done.
Qed.
Lemma dir_facts : di_of dir = disk_inode B D ROOTINO /\ i_ref dir = i_ref ipr /\ i_dev dir = 1 /\ i_inum dir = ROOTINO /\ is_loaded dir = true.
Proof using Hpl.
  destruct root_entry as (H1 & H2 & H3). destruct (fetched_root D ipr H2 (pl_loaded _ _ _ _ _ _ _ _ _ Hpl)) as (F1 & F2 & F3 & F4 & F5).
  fold dir in F1, F2, F3, F4, F5. split_and!; congruence.
Qed.

(** The blocks in between: the inode is taken, and written. *)
Let D1 := put_inode B t (new_dinode type) D.
Let D2 := put_inode B t (made_dinode type major minor) D1.
Hypothesis Hmm : short_ok major /\ short_ok minor.

Lemma taken_set : inode_set B NI t (new_dinode type) D D1.
Proof using Hc Hty Hlo.
  destruct Hc as [C1 _ (C2 & C3 & _) _ _ _ _]. apply (new_inode_set size L nlog B NI Hlo); [done|unfold an_inode; lia|apply Hty].
Qed.
Lemma made_ok : di_ok (made_dinode type major minor).
Proof using Hty Hmm. destruct Hty, Hmm. split; try done; cbn; unfold short_ok, uint_ok; try lia. repeat constructor; lia. Qed.
Lemma filled_set : inode_set B NI t (made_dinode type major minor) D1 D2.
Proof using Hc Hty Hlo Hmm.
  destruct taken_set as [T1 T2 T3 T4]. destruct Hc as [_ _ (C2 & C3 & _) _ _ _ _]. assert (an_inode NI t) as Hi by (unfold an_inode; lia).
  apply (put_inode_set size L nlog B NI Hlo); [done|done|apply made_ok|]. unfold disk_addrs. by rewrite T2, decide_True by done.
Qed.

Lemma root_kept : disk_inode B D2 ROOTINO = disk_inode B D ROOTINO /\ whole B D2 ROOTINO /\ file_at B D2 ROOTINO = file_at B D ROOTINO.
Proof using Hc Hty Hlo Hmm.
  destruct Hc as [_ _ (C2 & C3 & _) _ [[R1 R2 R3 R4] _] _ _]. assert (ROOTINO <> t) as Hne by (unfold ROOTINO; lia).
  destruct (is_others _ _ _ _ _ _ taken_set ROOTINO R1 Hne) as [E1 F1]. destruct (F1 R4) as [W1 G1].
  destruct (is_others _ _ _ _ _ _ filled_set ROOTINO R1 Hne) as [E2 F2]. destruct (F2 W1) as [W2 G2]. split; [by rewrite E2|]. split; [done|by rewrite G2].
Qed.
Lemma room_kept : free_count bm N D2 = free_count bm N D.
Proof using Hc Hty Hlo Hmm.
  apply free_count_ext. by rewrite (is_rest _ _ _ _ _ _ filled_set bm ltac:(left; lia)), (is_rest _ _ _ _ _ _ taken_set bm ltac:(left; lia)).
Qed.
Lemma dir_kept : dir_ok B NI D2 ROOTINO n /\ no_entry B D2 ROOTINO n nm /\ (2 <= free_count bm N D2)%nat /\ entry_off B D2 ROOTINO n = entry_off B D ROOTINO n.
Proof using Hc Hty Hlo Hmm.
  destruct root_kept as (E1 & E2 & E3).
  destruct Hc as [_ _ _ _ [[R1 R2 R3 R4] _] Cn [_ Cf]].
  assert (forall k, entry_of B D2 ROOTINO k = entry_of B D ROOTINO k) as Hen by (intros k; unfold entry_of; by rewrite E3). split_and!.
  - split; [done|by rewrite E1|unfold file_size; by rewrite E1|done].
  - intros k Hk. unfold nm. rewrite names_set_elem, Hen. by apply Cn.
  - by rewrite room_kept.
  - unfold entry_off. by rewrite (free_from_ext B D D2).
Qed.

(** The new entry completes it. *)
Lemma made_intro D3 :
  saved B NI ROOTINO (entry_off B D ROOTINO n) (new_entry nm t) D2 D3 -> (free_count bm N D2 <= free_count bm N D3 + 2)%nat ->
  made t (made_dinode type major minor) ROOTINO (entry_off B D ROOTINO n) (new_entry e t) D D3.
Proof using Hc Hty Hlo Hmm.
  intros [V1 V2 V3 V4 V5] Hf. destruct root_kept as (E1 & E2 & E3). rewrite room_kept in Hf. destruct Hc as [_ _ (C2 & C3 & _) _ _ _ _].
  assert (an_inode NI t) as Hi by (unfold an_inode; lia). assert (t <> ROOTINO) as Hne by (unfold ROOTINO; lia). split.
  - done.
  - destruct (V4 t Hi Hne) as [-> _]. by rewrite (is_inode _ _ _ _ _ _ filled_set), decide_True by done.
  - split; [done|]. rewrite V3, E3. f_equal. unfold new_entry, nm. by rewrite strncpy_set_elem.
  - intros j Hj Hjt Hjd. destruct (V4 j Hj Hjd) as [A1 A2]. destruct (is_others _ _ _ _ _ _ taken_set j Hj Hjt) as [B1 B2].
    destruct (is_others _ _ _ _ _ _ filled_set j Hj Hjt) as [F1 F2]. split; [congruence|]. intros W. destruct (B2 W) as [W1 G1]. destruct (F2 W1) as [W2 G2].
    destruct (A2 W2) as [W3 G3]. split; [done|congruence].
  - done.
Qed.

(** What [create] leaves: the new inode in place [q], locked; memory, files
    and the other locks are as they were. *)
Definition leaves s' : Prop :=
  icache s' !! q = Some (new_ip type major minor x) /\ slocks s' !! SLinode q = Some (pid mp) /\ sb s' = sb s /\ umem s' = umem s /\ files s' = files s.

Lemma new_entry_facts : i_inum x = t /\ i_dev x = 1 /\ 1 <= i_ref x /\ c2 !! r = Some dir /\ (q < length c2)%nat.
Proof using Hpl.
  destruct dir_facts as (F1 & F2 & F3 & F4 & F5). destruct root_entry as (R1 & R2 & R3).
  destruct (pl_new _ _ _ _ _ _ _ _ _ Hpl) as [Hg Hx]. destruct (pl_fresh _ _ _ _ _ _ _ _ _ Hpl) as [_ Hne]. fold dir in Hg.
  destruct (iget_to_got _ _ _ _ _ Hg) as (y & Hy & H1 & H2 & H3). rewrite Hx in Hy. injection Hy as <-.
  destruct (pl_root _ _ _ _ _ _ _ _ _ Hpl) as [_ Hr].
  destruct (iget_to_keeps _ _ _ _ _ r dir Hg) as (m & Hm & _ & Em); [apply list_lookup_insert_eq; by eapply lookup_lt_Some|lia|].
  split_and!; try done; [|by eapply lookup_lt_Some]. rewrite Hm, (Em Hne). by destruct dir.
Qed.

(** The part after [ialloc]. *)
Lemma create_fills s4 :
  type <> T_DIR -> txn ∅ d0 (add_block (IBLOCK t B) bs) D1 s4 -> rest (set_icache c2 (locked_inode mp r s)) s4 ->
  rc (cut_off d0) env
    ((ilock (Some q) ;;
      mod_inode q (set_i_major major) ;;
      mod_inode q (set_i_minor minor) ;;
      mod_inode q (set_i_nlink 1) ;;
      iupdate q) env s4)
    (fun _ s' => (exists bs', txn ∅ d0 bs' D2 s' /\ spare 11 bs') /\
       rest (set_icache (<[q := new_ip type major minor x]> c2) (locked_inode mp q (locked_inode mp r s))) s').
Proof using Hlo SD Hsb Hsp Hty Hc Hpl Hmm.
  intros Htd Ht4 R4. destruct new_entry_facts as (N1 & N2 & N3 & N4 & N5). destruct (pl_new _ _ _ _ _ _ _ _ _ Hpl) as [_ Hx].
  destruct (pl_fresh _ _ _ _ _ _ _ _ _ Hpl) as [Hnl Hne]. destruct (pl_locks _ _ _ _ _ _ _ _ _ Hpl) as [_ Hlq].
  assert (an_inode NI t) as Hi by (destruct Hc as [_ _ (C2 & C3 & _) _ _ _ _]; unfold an_inode; lia).
  pose proof (length_add_block (IBLOCK t B) bs) as Hla. destruct Hsp as [Hs1 Hs2]. pose proof R4 as (Q1 & Q2 & Q3 & Q4 & Q5). cbn in Q1, Q2, Q4, Q5.
  assert (fetched D1 B x = set_i_flags (Z.lor (i_flags x) I_VALID) (load_di (new_dinode type) x)) as Efe.
  { unfold fetched. rewrite Hnl. unfold loaded. rewrite N1. fold (disk_inode B D1 t). by rewrite (is_inode _ _ _ _ _ _ taken_set), decide_True by done. }
  destruct (inode_block_ok B NI (lo_inode_blocks size L nlog B NI Hlo) (lo_data _ _ _ _ _ Hlo) t Hi) as (_ & Hb1 & Hb2 & _).
  destruct (lo_data _ _ _ _ _ Hlo) as (G1 & G2 & G3). pose proof (lo_disk _ _ _ _ _ Hlo) as G4.
  eapply rc_step; [apply (txn_ilock me mp size L nlog d0 _ D1 s4 q x env Ht4); rewrite ?Q1, ?Q2, ?Hsb, ?N1; try done; [lia| |lia|rewrite Efe; apply Hty]|done|].
  { rewrite Q5, lookup_insert_ne by congruence. done. }
  rewrite Q1, Q2, Hsb, Efe. intros a s5 [Ht5 R5]. unfold mod_inode. rewrite !bind_modify. cbn [icache set_icache].
  set (ip5 := set_i_flags _ _) in R5. assert (icache s5 = <[q := ip5]> c2) as Ei5 by apply R5.
  assert (icache s5 !! q = Some ip5) as Hi5 by (rewrite Ei5; by apply list_lookup_insert_eq).
  rewrite !upd_upd, (upd_insert _ _ _ _ Hi5). cbv beta. fold (new_ip type major minor x). rewrite Ei5, list_insert_insert_eq.
  set (s6 := set_icache _ _). assert (icache s6 !! q = Some (new_ip type major minor x)) as Hi6 by by apply list_lookup_insert_eq.
  assert (sb s6 = B) as Hsb6 by (destruct R5 as (_ & E & _); cbn in E |- *; congruence).
  assert (txn ∅ d0 (add_block (IBLOCK t B) bs) D1 s6) as Ht6 by by do 3 apply txn_icache.
  eapply rc_mono; [apply (iupdate_refines me mp size L nlog B NI Hlo d0 _ D1 s6 q (new_ip type major minor x) env Ht6 Hsb6 Hi6 N2)|done|].
  - change (i_inum (new_ip type major minor x)) with (i_inum x). by rewrite N1.
  - apply made_ok.
  - change (i_inum (new_ip type major minor x)) with (i_inum x). rewrite N1. apply (fw_len _ _ _ (is_wf _ _ _ _ _ _ taken_set)). apply Hb1.
  - split; lia.
  - change (i_inum (new_ip type major minor x)) with (i_inum x). rewrite N1. intros b s7 [Ht7 R7]. split.
    + eexists. split; [exact Ht7|]. pose proof (length_add_block (IBLOCK t B) (add_block (IBLOCK t B) bs)). split; lia.
    + eapply rest_trans; [|exact R7]. eapply rest_trans; [|exact (rest_icache _ _ (<[q := new_ip type major minor x]> c2) R5)].
      exact (rest_icache _ _ (<[q := new_ip type major minor x]> c2) (rest_locked _ _ q R4)).
Qed.

(** The part with the entry in the directory. *)
Lemma create_enters s7 bs7 :
  txn ∅ d0 bs7 D2 s7 -> spare 11 bs7 ->
  rest (set_icache (<[q := new_ip type major minor x]> c2) (locked_inode mp q (locked_inode mp r s))) s7 ->
  rc (cut_off d0) env
    ((let! y := get_inode q in
      let! a := dirlink r nm (i_inum y) in
      if a <? 0 then panic "create: dirlink" else
      iunlockput r ;;
      ret (Some q)) env s7)
    (fun a s' => a = Some q /\ (exists bs' D', txn ∅ d0 bs' D' s' /\ (length bs' <= 28)%nat /\
       made t (made_dinode type major minor) ROOTINO (entry_off B D ROOTINO n) (new_entry e t) D D') /\ leaves s').
Proof using Hlo SD Hsb Hty Hc Hpl Hmm.
  intros Ht7 Hsp7 (Q1 & Q2 & Q3 & Q4 & Q5). change (umem s7 = umem s) in Q3. cbn in Q1, Q2, Q4, Q5. destruct new_entry_facts as (N1 & N2 & N3 & N4 & N5).
  destruct (pl_fresh _ _ _ _ _ _ _ _ _ Hpl) as [_ Hne]. destruct dir_facts as (F1 & F2 & F3 & F4 & F5). destruct root_entry as (R1 & R2 & R3).
  destruct root_kept as (K1 & K2 & K3). destruct dir_kept as (O1 & O2 & O3 & O4). pose proof Hc as [_ _ _ _ [_ Cnl] _ [Croom _]].
  assert (icache s7 !! q = Some (new_ip type major minor x)) as Hq by (rewrite Q1; by apply list_lookup_insert_eq).
  assert (icache s7 !! r = Some dir) as Hr by (rewrite Q1, list_lookup_insert_ne by done; done).
  rewrite (bind_get_inode _ _ _ _ _ Hq). change (i_inum (new_ip type major minor x)) with (i_inum x). rewrite N1.
  assert (open_dir B NI D2 ROOTINO n r dir s7) as Hod by (split; try done; by rewrite K1).
  eapply rc_step; [apply (dirlink_refines me mp size L nlog B NI Hlo d0 bs7 D2 s7 ROOTINO n r dir nm t env Ht7); try done; [congruence|apply (is_wf _ _ _ _ _ _ filled_set)]|done|].
  intros a s8 (-> & bs8 & D3 & ip8 & Ht8 & Hl8 & Hsv & Hf8 & Hdi8 & Hr8 & (P1 & P2 & P3 & P4 & P5)). change (umem s8 = umem s7) in P3. cbn in P1, P2, P4, P5.
  cbn [Z.ltb Z.compare]. rewrite O4 in Hsv. assert (icache s8 !! r = Some ip8) as Hi8 by (rewrite P1; apply list_lookup_insert_eq; by eapply lookup_lt_Some).
  eapply rc_step; [apply (txn_iunlockput me mp size L nlog d0 bs8 D3 s8 r ip8 env Ht8 Hl8 Hi8)|done|].
  - lia.
  - rewrite P5, Q5. rewrite lookup_insert_ne, lookup_insert_eq by congruence. by eexists.
  - change (i_nlink ip8) with (di_nlink (di_of ip8)). rewrite Hdi8. destruct (sv_meta _ _ _ _ _ _ _ Hsv) as (_ & _ & _ & ->). by rewrite K1.
  - intros b s9 [Ht9 (U1 & U2 & U3 & U4 & U5)]. change (umem s9 = umem s8) in U3. cbn in U1, U2, U4, U5. split; [|done]. split; [done|]. split.
    + exists bs8, D3. split_and!; [done|done|by apply made_intro].
    + unfold leaves. split_and!; try congruence.
      * rewrite U1, P1, !list_lookup_insert_ne by done. done.
      * rewrite U5, lookup_delete_ne, P5, Q5, lookup_insert_eq by congruence. done.
Qed.

Lemma create_run :
  type <> T_DIR ->
  rc (cut_off d0) env (create (slash :: e) type major minor env s)
    (fun a s' => a = Some q /\ (exists bs' D', txn ∅ d0 bs' D' s' /\ (length bs' <= 28)%nat /\
       made t (made_dinode type major minor) ROOTINO (entry_off B D ROOTINO n) (new_entry e t) D D') /\ leaves s').
Proof using Hlo SD Ht Hsb Hsp Hty Hc Hpl Hmm.
  intros Htd. destruct (pl_root _ _ _ _ _ _ _ _ _ Hpl) as [Hg Hr]. destruct (pl_locks _ _ _ _ _ _ _ _ _ Hpl) as [Hlr _]. destruct Hsp as [Hs1 Hs2].
  destruct dir_facts as (F1 & F2 & F3 & F4 & F5). destruct root_entry as (R1 & R2 & R3). pose proof Hc as [C1 [C2 C3] (C4 & C5 & C6) C7 [C8 C9] C10 _].
  assert (i_type dir = T_DIR) as Etd by (change (i_type dir) with (di_type (di_of dir)); rewrite F1; apply C8).
  unfold create. eapply rc_step; [apply (nameiparent_root me mp size L nlog B NI Hlo d0 bs D s e name_buf r c ipr env Ht); try done; [lia|apply C8]|done|].
  fold dir nm. intros a s1 (-> & Ht1 & R1'). assert (r < length c)%nat as Hlt by by eapply lookup_lt_Some.
  assert (icache s1 = <[r := dir]> c) as Ei1 by apply R1'. assert (icache s1 !! r = Some dir) as Hr1 by (rewrite Ei1; by apply list_lookup_insert_eq).
  assert (sb s1 = B) as Hsb1 by (destruct R1' as (_ & E & _); cbn in E; congruence). assert (fetched D B dir = dir) as Efd by (unfold fetched; by rewrite F5).
  eapply rc_step; [apply (txn_ilock me mp size L nlog d0 bs D s1 r dir env Ht1); rewrite ?Hsb1, ?Efd, ?F4, ?Etd; try done; [lia|lia| |]|done|].
  { destruct R1' as (_ & _ & _ & _ & ->). done. } { apply (root_block size L nlog B NI Hlo). apply C8. }
  rewrite Hsb1, Efd, Ei1, list_insert_insert_eq. intros a s2 [Ht2 R2']. assert (icache s2 = <[r := dir]> c) as Ei2 by apply R2'.
  assert (open_dir B NI D ROOTINO n r dir s2) as Hod by (split; try done; rewrite Ei2; by apply list_lookup_insert_eq).
  eapply rc_step; [apply (dirlookup_misses me mp size L nlog B NI Hlo d0 bs D s2 ROOTINO n r dir nm env Ht2); try done; [lia|]|done|].
  { intros k Hk. unfold nm. rewrite names_set_elem. by apply C10. }
  intros a' s3 (-> & Ht3 & R3'). assert (icache s3 = <[r := dir]> c) as Ei3 by (destruct R3' as (-> & _); done).
  rewrite (bind_get_inode _ r dir) by (rewrite Ei3; by apply list_lookup_insert_eq). rewrite F3.
  assert (rest (set_icache (<[r := dir]> c) (locked_inode mp r s)) s3) as R03.
  { eapply rest_trans; [|exact R3']. eapply rest_trans; [|exact R2']. exact (rest_icache _ _ (<[r := dir]> c) (rest_locked _ _ r R1')). }
  eapply rc_step; [apply (ialloc_takes me mp size L nlog B NI Hlo d0 bs D s3 type t q c2 env Ht3); try done; [by destruct R03 as (_ & -> & _)|split; lia|lia|]|done|].
  { rewrite Ei3. apply (pl_new _ _ _ _ _ _ _ _ _ Hpl). }
  fold D1. intros a4 s4 (-> & Ht4 & R4). rewrite seq_five.
  eapply rc_step; [apply (create_fills s4 Htd Ht4)|done|].
  { eapply rest_trans; [|exact R4]. exact (rest_icache _ _ c2 R03). }
  intros a5 s7 [(bs7 & Ht7 & Hsp7) R7]. rewrite (proj2 (Z.eqb_neq type T_DIR)) by done. cbn [when]. rewrite bind_ret. by apply (create_enters s7 bs7).
Qed.
End Parts.
End Create.
