(* ===== verification/Fsopen.v ===== *)
(** * Opening a new file

    [sys_open] with O_CREATE of sysfile.c, for a new name in the root
    directory: the inode is created and entered in the directory in one
    transaction, a file and a descriptor are taken, and the file can be
    written. *)

From stdpp Require Import base numbers list gmap strings.
From S2P Require Import Prelude Kernel Spinlock Sched Sleeplock Kalloc Console Umem Signal Pipe Str Vm Mkfs Mkfsok Mkfsimg.
From S2P Require Import Buf Memide Ring Bio Bcache Log Logsafe Crash Inode Consdev Dir Fsread Fsimage Fstxn Fsview Fswrite Fsfile Fstrunc Fsdir.
From S2P Require Import File Fsatomic Fsdrop Sysarg Sysfile Fscreate.

(** ** The caller's entry in the process table may change *)

Lemma cache_proc me mp mp' size H P s :
  Cache me mp size H P s -> state mp' = RUNNING -> Cache me mp' size H P (set_procs (<[me := mp']> (procs s)) s).
Proof.
  intros [[C1 [C2 C3] C4 C5 C6] ? ? ? ? ? ?] Hr. split; try done. split; try done. split; [done|]. cbn. apply list_lookup_insert_eq. by eapply lookup_lt_Some.
Qed.

Lemma txn_proc me mp mp' size L nlog H d0 bs D s :
  txn me mp size L nlog H d0 bs D s -> state mp' = RUNNING -> txn me mp' size L nlog H d0 bs D (set_procs (<[me := mp']> (procs s)) s).
Proof.
  intros [(P & HC & Hp & HD) Hh Hy Hdk Hsz Hcnt] Hr. split; try done; [|by eapply header_same].
  exists P. split; [by apply (cache_proc me mp)|done].
Qed.

Lemma cur_of_txn me mp size L nlog H d0 bs D s : txn me mp size L nlog H d0 bs D s -> calm me mp s.
Proof. intros [(P & HC & _) _ _ _ _ _]. apply HC. Qed.

(** A new inode has no contents. *)
Lemma made_empty B NI t dinum off data D D1 :
  made B NI t (made_dinode T_FILE 0 0) dinum off data D D1 -> file_size B D1 t = 0 /\ whole B D1 t /\ file_at B D1 t = [].
Proof.
  intros HD. assert (file_size B D1 t = 0) as Es by (unfold file_size; by rewrite (ma_inode _ _ _ _ _ _ _ _ _ HD)).
  split; [done|]. split; [split; rewrite Es; [lia|intros k Hk; lia]|]. unfold file_at. by rewrite Es.
Qed.

Section Open.
Context `{Link} {DR : Driver} (me : nat) (mp : proc) (size L nlog : Z) {may : Prop} {SD : SyncDisk size may} (B : superblock) (NI : Z).
Context (Hlo : laid_out size L nlog B NI).
Notation txn := (txn me mp size L nlog).
Notation cut_off := (@cut_off may).
Notation bm := (sb_bmapstart B).
Notation N := (sb_size B).

(** ** A file and a descriptor *)

Definition free_places (s : kst) (f fd : nat) : Prop :=
  find_idx (fun y => f_ref y =? 0) (files s) = Some f /\ find_idx (fun o => bool_decide (o = None)) (ofile mp) = Some fd.
Definition with_fd (f fd : nat) : proc := set_ofile (<[fd := Some f]> (ofile mp)) mp.

Lemma open_file_run s f fd env :
  calm me mp s -> free_places s f fd ->
  open_file env s = Ok (Some (f, Z.of_nat fd)) (set_procs (<[me := with_fd f fd]> (procs s)) (set_files (upd f (set_f_ref 1) (files s)) s)) env.
Proof using.
  intros [C1 C2 C3 C4 C5] [Hf Hfd]. assert (locks s !! LFtable = None) as Hl by (by rewrite C1). unfold open_file, filealloc.
  rewrite !bind_assoc, (bind_ok _ _ _ _ _ _ _ (acquire_free LFtable env s Hl)), bind_assoc, bind_gets.
  cbn [files acquired set_locks set_kcpu]. rewrite Hf, bind_assoc. unfold mod_file. rewrite bind_modify, bind_assoc.
  crit_release LFtable s Hl C4. rewrite bind_ret.
  cbv beta iota. rewrite C5. replace (set_locks (locks s) _) with (set_files (upd f (set_f_ref 1) (files s)) s) by (by destruct s).
  set (s1 := set_files _ s). assert (cur s1 me mp) as Hc1 by done. unfold fdalloc.
  rewrite bind_assoc, (bind_ok _ _ _ _ _ _ _ (myproc_get_run env s1 me mp Hc1)). cbv beta iota. rewrite Hfd. unfold set_fd, mod_proc.
  rewrite bind_assoc, bind_modify, bind_ret, (proj2 (Z.ltb_ge (Z.of_nat fd) 0)) by lia. unfold ret. do 2 f_equal.
  destruct C2 as [_ C2]. by rewrite (upd_insert _ _ _ _ C2).
Qed.

(** ** The call *)

(** The arguments: the path is [/e], and the mode asks for a new file. *)
Record open_call (s : kst) (env : list (kst -> kst)) (p : Z) (e : list Z) (omode : Z) : Prop := {
  oc_path : argstr 0 env s = Ok (Some (p, Z.of_nat (length e) + 1)) s env;
  oc_mode : argint 1 env s = Ok (Some omode) s env;
  oc_bytes : user_bytes s p (slash :: e);
  oc_create : has_flag omode O_CREATE = true;
}.

(** The new file, in the place of [y]. *)
Definition new_file_of (q : nat) (omode : Z) (y : Kernel.file) : Kernel.file :=
  mkfile FD_INODE 1 (negb (has_flag omode O_WRONLY)) (has_flag omode O_WRONLY || has_flag omode O_RDWR) (f_pipe y) (Some q) 0.

Lemma str_at_run s p bs env : user_bytes s p bs -> str_at (p, Z.of_nat (length bs)) env s = Ok bs s env.
Proof using. intros Hu. unfold str_at, uload. cbn [fst snd]. by rewrite Nat2Z.id, (ubytes_user _ _ (length bs) p bs). Qed.

Section Run.
Context (s : kst) (e : list Z) (t : Z) (n : nat) (p omode : Z) (f fd : nat) (env : list (kst -> kst)).
Context (r : nat) (c : list inode) (ipr : inode) (q : nat) (c2 : list inode) (x : inode).
Let D := block_of (disk s) 1.
Hypotheses (Hid : Logsafe.idle me mp size L nlog s) (Hsb : sb s = B) (Hnlog : LOGSIZE <= nlog).
Hypotheses (Hcall : open_call s env p e omode) (Hc : can_create B NI D e t n) (Hpl : places B D s t r c ipr q c2 x) (Hfree : free_places s f fd).

Notation makes := (made B NI t (made_dinode T_FILE 0 0) ROOTINO (entry_off B D ROOTINO n) (new_entry e t) D).

(** The file is open, on the new inode. *)
Record opened (s' : kst) : Prop := {
  on_idle : Logsafe.idle me (with_fd f fd) size L nlog s';
  on_file : exists y, files s !! f = Some y /\ files s' = <[f := new_file_of q omode y]> (files s);
  on_inode : icache s' !! q = Some (new_ip T_FILE 0 0 x);
  on_lock : slocks s' !! SLinode q = None;
  on_rest : sb s' = sb s /\ umem s' = umem s;
}.

Lemma places_rest s1 : rest s s1 -> places B D s1 t r c ipr q c2 x.
Proof using Hpl. intros (E1 & _ & _ & _ & E5). destruct Hpl as [[P1 P2] P3 P4 P5 P6]. split; rewrite ?E1, ?E5; done. Qed.

(** From the end of [create] on. *)
Lemma open_ends s1 bs D' :
  txn ∅ (disk s) bs D' s1 -> (length bs <= 28)%nat -> makes D' -> leaves mp s T_FILE 0 0 q x s1 ->
  rc (fun s' => cut_with size L nlog makes (disk s) (disk s')) env
    ((let! a := open_file in
      match a with
      | None => iunlockput q ;; end_op ;; ret (-1)
      | Some (f, fd) =>
          iunlock (Some q) ;;
          end_op ;;
          mod_file f (set_f_type FD_INODE) ;;
          mod_file f (set_f_ip (Some q)) ;;
          mod_file f (set_f_off 0) ;;
          mod_file f (set_f_readable (negb (has_flag omode O_WRONLY))) ;;
          mod_file f (set_f_writable (has_flag omode O_WRONLY || has_flag omode O_RDWR)) ;;
          ret fd
      end) env s1)
    (fun a s' => (a = Z.of_nat fd /\ opened s') /\ done_with size L nlog makes (disk s) (disk s')).
Proof using SD Hid Hfree Hpl.
  intros Ht1 Hl HD (L1 & L2 & L3 & L4 & L5). destruct Hfree as [Hf Hfd]. pose proof (cur_of_txn _ _ _ _ _ _ _ _ _ _ Ht1) as Hcalm.
  erewrite bind_ok by (apply (open_file_run s1 f fd env Hcalm); split; [by rewrite L5|done]). cbv beta iota.
  set (s2 := set_procs _ _). assert (Fstxn.txn me (with_fd f fd) size L nlog ∅ (disk s) bs D' s2) as Ht2.
  { apply (txn_proc me mp (with_fd f fd) size L nlog ∅ (disk s) bs D' (set_files (upd f (set_f_ref 1) (files s1)) s1)); [by apply txn_files|apply Hcalm]. }
  assert (1 <= i_ref (new_ip T_FILE 0 0 x)) as Href by apply (new_entry_facts B D s t r c ipr q c2 x Hpl).
  eapply rc_step; [apply (txn_iunlock me (with_fd f fd) size L nlog (disk s) bs D' s2 q (new_ip T_FILE 0 0 x) env Ht2 Hl); try done|done|].
  intros a s3 [Ht3 R3]. pose proof (in_txn_of_txn _ _ _ _ _ _ _ _ _ Ht3 Hl) as Hx. pose proof (in_txn_confined _ _ _ _ _ _ _ _ _ Hx) as Hcf.
  eapply rc_step; [apply (end_op_spec me (with_fd f fd) size L nlog (disk s) bs D' s3 env Hx (id_log _ _ _ _ _ _ Hid))| |].
  { intros s' [_ Hcp]. right. by exists D', bs. }
  intros a' s4 (Hcm & Hid4 & R4). unfold mod_file. rewrite !bind_modify. cbn [files set_files]. rewrite !upd_upd.
  split; [|done]. split; [|by exists D', bs]. split; [done|].
  destruct (rest_trans _ _ _ R3 R4) as (E1 & E2 & E3 & E4 & E5). cbn in E1, E2, E4, E5. change (umem s4 = umem s1) in E3.
  apply find_idx_Some in Hf as [(y & Hy & _) _]. split; cbn.
  - by do 5 apply idle_files.
  - exists y. split; [done|]. rewrite E4, upd_upd, L5. by rewrite (upd_insert _ _ _ _ Hy).
  - by rewrite E1.
  - rewrite E5. apply lookup_delete_eq.
  - split; [congruence|]. change (umem s4 = umem s). congruence.
Qed.

Lemma sys_open_run :
  rc (fun s' => cut_with size L nlog makes (disk s) (disk s')) env (sys_open env s)
    (fun a s' => (a = Z.of_nat fd /\ opened s') /\ done_with size L nlog makes (disk s) (disk s')).
Proof using SD Hlo Hid Hsb Hnlog Hcall Hc Hpl Hfree.
  destruct Hcall as [O1 O2 O3 O4]. unfold sys_open, arg. rewrite (bind_ok _ _ _ _ _ _ _ O1), (bind_ok _ _ _ _ _ _ _ O2).
  eapply rc_step; [apply (begin_op_spec me mp size L nlog s env Hid)|done|]. intros _ s1 [Ht1%txn_of_in_txn R1]. fold D in Ht1.
  pose proof R1 as (_ & R2 & R3 & R4 & _). assert (user_bytes s1 p (slash :: e)) as Hu1.
  { unfold umem in R3. injection R3 as E1 E2. intros k b Hk. rewrite E1, E2. by apply O3. }
  pose proof (str_at_run s1 p (slash :: e) env Hu1) as Hs. replace (Z.of_nat (length (slash :: e))) with (Z.of_nat (length e) + 1) in Hs by (cbn [length]; lia).
  rewrite (bind_ok _ _ _ _ _ _ _ Hs). unfold open_inode. rewrite O4, bind_assoc. change LOGSIZE with 30 in Hnlog.
  eapply rc_step; [apply (create_run me mp size L nlog B NI Hlo (disk s) [] D s1 e t n T_FILE 0 0 r c ipr q c2 x env Ht1); try done|..].
  - congruence.
  - split; cbn [length]; lia.
  - by apply places_rest.
  - intros s' [_ ->]. left. split; [apply (id_log _ _ _ _ _ _ Hid)|done].
  - intros a s2 (-> & (bs & D' & Ht2 & Hl & HD) & (L1 & L2 & L3 & L4 & L5)). rewrite bind_ret.
    apply (open_ends s2 bs D' Ht2 Hl HD). split; [done|]. split; [done|]. split; [congruence|]. split; congruence.
Qed.

(** The log's own blocks do not matter. *)
Lemma made_outside_log D1 D2 : makes D1 -> (forall b, ~ in_log L nlog b -> D2 b = D1 b) -> makes D2.
Proof using Hlo Hc.
  intros [M1 M2 [M3 M4] M5 M6] Hd. pose proof (lo_inode_blocks size L nlog B NI Hlo) as Hb. pose proof Hlo as [(L1 & L2 & L3) _ L4 L5 _].
  assert (forall b, sb_inodestart B <= b -> D2 b = D1 b) as Hag by (intros b ?; apply Hd; unfold in_log; lia).
  destruct Hc as [_ _ (C2 & C3 & _) _ [[C4 _ _ _] _] _ _]. assert (an_inode NI t) as Ht by (unfold an_inode; lia).
  destruct (agree_file B NI Hb L5 ltac:(lia) D1 D2 Hag M1 ROOTINO C4 M3) as [W1 E1]. split.
  - apply (agree_wf B NI Hb L5 ltac:(lia) D1 D2 Hag M1).
  - by rewrite (agree_inode B NI Hb L5 D1 D2 Hag).
  - split; [done|congruence].
  - intros j Hj Hjt Hjr. destruct (M5 j Hj Hjt Hjr) as [F1 F2]. split; [by rewrite (agree_inode B NI Hb L5 D1 D2 Hag)|]. intros Hw.
    destruct (F2 Hw) as [Hw1 Ef]. destruct (agree_file B NI Hb L5 ltac:(lia) D1 D2 Hag M1 j Hj Hw1) as [Hw2 Ef2]. split; [done|congruence].
  - rewrite (free_count_ext bm N D1 D2); [done|]. apply Hag. lia.
Qed.

(** If it was opened for writing, it can be written. *)
Lemma opened_can_write s' m :
  opened s' -> makes (block_of (disk s') 1) -> has_flag omode O_WRONLY || has_flag omode O_RDWR = true -> (28 * m + 2 <= free_count bm N D)%nat ->
  exists y, can_write nlog B NI m s' f (new_file_of q omode y) q (new_ip T_FILE 0 0 x).
Proof using Hlo Hc Hpl Hnlog Hsb.
  intros [Hi (y & Hy & Hf) Hin Hlk [Hs Hm]] HD Hfl Hroom. exists y. destruct (new_entry_facts B D s t r c ipr q c2 x Hpl) as (N1 & N2 & N3 & _).
  destruct (made_empty _ _ _ _ _ _ _ _ HD) as (E1 & E2 & E3). pose proof (ma_inode _ _ _ _ _ _ _ _ _ HD) as Hdi. pose proof (ma_room _ _ _ _ _ _ _ _ _ HD) as Hr.
  destruct Hc as [_ _ (C2 & C3 & _) _ _ _ _].
  constructor; change (i_inum (new_ip T_FILE 0 0 x)) with (i_inum x); rewrite ?N1; try done.
  - congruence.
  - rewrite Hf. apply list_lookup_insert_eq. by eapply lookup_lt_Some.
  - split_and!; try done. unfold an_inode. change (i_inum (new_ip T_FILE 0 0 x)) with (i_inum x). lia.
  - apply HD.
  - by rewrite Hdi.
  - rewrite E1. by cbn.
  - lia.
Qed.
End Run.
End Open.

(** C4: a file is created atomically.  [sys_open] with O_CREATE, for a new
    name in the root directory of a well-formed file system, on a disk whose
    power may fail at any request.  If it returns, it returns the first free
    descriptor, which is a file on a new inode, not locked; and the disk is a
    well-formed file system in which the first free inode is an empty file
    with one link and the directory has an entry for it in its first free
    place, while every other inode and the contents of every other file are as
    before; this survives every later reboot.  If the power fails, recovery
    gives this file system, or the blocks as they were: never an inode
    without an entry or an entry without an inode. *)
Theorem open_creates `{Link} fails me mp size L nlog B NI s e t n p omode f fd r c ipr q c2 x env :
  let D := block_of (disk s) 1 in
  laid_out size L nlog B NI -> Logsafe.idle me mp size L nlog s -> sb s = B -> LOGSIZE <= nlog ->
  open_call s env p e omode -> can_create B NI D e t n -> places B D s t r c ipr q c2 x -> free_places mp s f fd ->
  let old d := forall b, ~ in_log L nlog b -> block_of d 1 b = block_of (disk s) 1 b in
  let new d := made B NI t (made_dinode T_FILE 0 0) ROOTINO (entry_off B D ROOTINO n) (new_entry e t) D (block_of d 1) in
  match @sys_open (failing fails (memide_driver size)) _ env s with
  | Ok a s' _ => (a = Z.of_nat fd /\ opened me mp size L nlog s omode f fd q x s') /\ new (disk s') /\ survives size L new (disk s')
  | Blocked WHalt s' => survives size L (fun d => old d \/ new d) (disk s')
  | _ => False
  end.
Proof.
  intros D Hlo Hid Hsb Hn Hcall Hc Hpl Hfr. apply (atomic_outcome size L nlog _ _ (disk s) env).
  - apply (id_layout _ _ _ _ _ _ Hid).
  - exact (made_outside_log size L nlog B NI Hlo s e t n Hc).
  - by apply (@sys_open_run _ _ me mp size L nlog True (failing_sync fails size) B NI Hlo s e t n p omode f fd env r c ipr q c2 x).
Qed.

(** ** A file is created and written *)

(** The file system has a new file [e] with contents [data]: inode [t], with
    an entry in the root directory; every other file is as it was. *)
Record has_file (B : superblock) (NI : Z) (t : Z) (n : nat) (e data : list Z) (D D' : Z -> list Z) : Prop := {
  hf_wf : fs_wf B NI D';
  hf_inode : di_type (disk_inode B D' t) = T_FILE /\ di_nlink (disk_inode B D' t) = 1;
  hf_file : whole B D' t /\ file_at B D' t = data;
  hf_dir : whole B D' ROOTINO /\ file_at B D' ROOTINO = splice (file_at B D ROOTINO) (entry_off B D ROOTINO n) (new_entry e t);
  hf_others : forall j, an_inode NI j -> j <> t -> j <> ROOTINO ->
    disk_inode B D' j = disk_inode B D j /\ (whole B D j -> whole B D' j /\ file_at B D' j = file_at B D j);
}.

Section Both.
Context (B : superblock) (NI t : Z) (n : nat) (e : list Z) (D : Z -> list Z) (Hroot : an_inode NI ROOTINO /\ ROOTINO <> t).
Notation makes := (made B NI t (made_dinode T_FILE 0 0) ROOTINO (entry_off B D ROOTINO n) (new_entry e t) D).

Lemma made_has D1 : makes D1 -> has_file B NI t n e [] D D1.
Proof using.
  intros HD. destruct (made_empty _ _ _ _ _ _ _ _ HD) as (_ & E2 & E3). destruct HD as [M1 M2 M3 M4 M5]. split; try done. by rewrite M2.
Qed.

Lemma saved_has D1 D2 data : makes D1 -> saved B NI t 0 data D1 D2 -> has_file B NI t n e data D D2.
Proof using Hroot.
  intros HD [S1 S2 S3 S4 (S5 & _ & _ & S6)]. destruct (made_empty _ _ _ _ _ _ _ _ HD) as (_ & _ & E3). destruct HD as [M1 M2 [M3 M4] M5 _]. destruct Hroot as [Hr Hne]. split.
  - done.
  - rewrite S5, S6, M2. done.
  - split; [done|]. rewrite S3, E3. unfold splice. cbn. by rewrite drop_nil, app_nil_r.
  - destruct (S4 ROOTINO Hr Hne) as [_ Hk]. destruct (Hk M3) as [W E]. split; [done|congruence].
  - intros j Hj Hjt Hjr. destruct (M5 j Hj Hjt Hjr) as [F1 F2]. destruct (S4 j Hj Hjt) as [G1 G2]. split; [congruence|].
    intros Hw. destruct (F2 Hw) as [W1 E1]. destruct (G2 W1) as [W2 E2]. split; [done|congruence].
Qed.
End Both.

Section Program.
Context `{Link} {DR : Driver} (me : nat) (mp : proc) (size L nlog : Z) {may : Prop} {SD : SyncDisk size may} (B : superblock) (NI : Z).
Context (Hlo : laid_out size L nlog B NI).

(** What is left of both calls after a recovery: nothing, or the file with
    the bytes of the first transactions. *)
Definition left_of_both (s : kst) (t : Z) (n : nat) (e data : list Z) (d : gmap (Z * Z) (list Z)) : Prop :=
  (forall b, ~ in_log L nlog b -> block_of d 1 b = block_of (disk s) 1 b) \/
  exists j, 0 <= j /\ has_file B NI t n e (take (Z.to_nat (j * write_max)) data) (block_of (disk s) 1) (block_of d 1).

Lemma open_write_run s e t n p omode f fd r c ipr q c2 x addr data m env :
  let D := block_of (disk s) 1 in
  Logsafe.idle me mp size L nlog s -> sb s = B -> LOGSIZE <= nlog ->
  open_call s env p e omode -> can_create B NI D e t n -> places B D s t r c ipr q c2 x -> free_places mp s f fd ->
  has_flag omode O_WRONLY || has_flag omode O_RDWR = true -> (28 * m + 2 <= free_count (sb_bmapstart B) (sb_size B) D)%nat ->
  user_bytes s addr data -> 0 < Z.of_nat (length data) <= Z.of_nat m * write_max -> Z.of_nat (length data) <= MAXFILE * BSIZE ->
  let has d := has_file B NI t n e data D (block_of d 1) in
  rc (fun s' => survives size L (left_of_both s t n e data) (disk s')) env ((let! _ := sys_open in filewrite f addr (Z.of_nat (length data))) env s)
    (fun a s' => a = Z.of_nat (length data) /\ has (disk s') /\ survives size L has (disk s')).
Proof using SD Hlo.
  intros D Hid Hsb Hnl Hcall Hc Hpl Hfr Hfl Hroom Hu Hn Hmax has. pose proof (made_outside_log size L nlog B NI Hlo s e t n Hc) as Hol. fold D in Hol.
  assert (an_inode NI ROOTINO /\ ROOTINO <> t) as Hroot by (destruct Hc as [_ _ (C2 & _) _ [[C4 _ _ _] _] _ _]; split; [done|unfold ROOTINO; lia]).
  eapply rc_step; [apply (sys_open_run me mp size L nlog B NI Hlo s e t n p omode f fd env r c ipr q c2 x); done| |].
  { intros s' Hcut. eapply survives_mono; [|apply (cut_survives size L nlog _ _ _ (id_layout _ _ _ _ _ _ Hid) Hol Hcut)].
    intros d [Hd|Hd]; [by left|right]. exists 0. split; [lia|]. by apply made_has. }
  intros a s1 [[-> Hop] Hdone]. destruct (done_survives _ _ _ _ _ _ Hol Hdone) as [Hmk _].
  destruct (opened_can_write me mp size L nlog B NI Hlo s e t n omode f fd r c ipr q c2 x Hsb Hnl Hc Hpl s1 m Hop Hmk Hfl Hroom) as (y & Hcw).
  destruct Hop as [Hid1 _ _ _ [_ Hm1]]. assert (user_bytes s1 addr data) as Hu1.
  { unfold umem in Hm1. injection Hm1 as E1 E2. intros k b Hk. rewrite E1, E2. by apply Hu. }
  pose proof (filewrite_run me (with_fd mp f fd) size L nlog B NI Hlo m s1 f _ q _ addr data env Hid1 Hcw Hu1 Hn Hmax) as Hr.
  destruct (new_entry_facts B D s t r c ipr q c2 x Hpl) as (N1 & _). change (i_inum (new_ip T_FILE 0 0 x)) with (i_inum x) in Hr. rewrite N1 in Hr.
  change (f_off (new_file_of q omode y)) with 0 in Hr. eapply rc_mono; [exact Hr| |].
  - intros s'. apply survives_mono. intros d (j & Hj & _ & Hd). right. exists j. split; [done|]. unfold written_to in Hd. case_decide as E.
    + rewrite E. apply made_has. by apply (Hol (block_of (disk s1) 1)).
    + by apply (saved_has B NI t n e D Hroot (block_of (disk s1) 1)).
  - intros a' s' (-> & Hs & Hsv). split; [done|]. assert (forall d, saved B NI t 0 data (block_of (disk s1) 1) (block_of d 1) -> has d) as Hh.
    { intros d. by apply (saved_has B NI t n e D Hroot). }
    split; [by apply Hh|]. eapply survives_mono; [exact Hh|exact Hsv].
Qed.
End Program.

(** C2: a file that is created and written is there after a crash.
    [sys_open] with O_CREATE and [filewrite] to the file, one after the other,
    on a disk whose power may fail at any request.  In the end the root
    directory has a new entry for a file with exactly the bytes of the
    process, the file system is well-formed, every other file is as it was,
    and this survives every later reboot.  If the power fails, then recovery
    gives the blocks as they were, or a well-formed file system with the
    entry and the file, which has the bytes of the first transactions. *)
Theorem create_then_write `{Link} fails me mp size L nlog B NI s e t n p omode f fd r c ipr q c2 x addr data m env :
  let D := block_of (disk s) 1 in
  laid_out size L nlog B NI -> Logsafe.idle me mp size L nlog s -> sb s = B -> LOGSIZE <= nlog ->
  open_call s env p e omode -> can_create B NI D e t n -> places B D s t r c ipr q c2 x -> free_places mp s f fd ->
  has_flag omode O_WRONLY || has_flag omode O_RDWR = true -> (28 * m + 2 <= free_count (sb_bmapstart B) (sb_size B) D)%nat ->
  user_bytes s addr data -> 0 < Z.of_nat (length data) <= Z.of_nat m * write_max -> Z.of_nat (length data) <= MAXFILE * BSIZE ->
  let has d := has_file B NI t n e data D (block_of d 1) in
  let _ := failing fails (memide_driver size) in
  match (let! _ := sys_open in filewrite f addr (Z.of_nat (length data))) env s with
  | Ok a s' _ => a = Z.of_nat (length data) /\ has (disk s') /\ survives size L has (disk s')
  | Blocked WHalt s' => survives size L (left_of_both L nlog B NI s t n e data) (disk s')
  | _ => False
  end.
Proof.
  intros D Hlo Hid Hsb Hnl Hcall Hc Hpl Hfr Hfl Hroom Hu Hn Hmax has DR.
  pose proof (@open_write_run _ DR me mp size L nlog True (failing_sync fails size) B NI Hlo s e t n p omode f fd r c ipr q c2 x addr data m env
    Hid Hsb Hnl Hcall Hc Hpl Hfr Hfl Hroom Hu Hn Hmax) as Hr. cbv zeta in Hr.
  destruct ((let! _ := sys_open in filewrite f addr (Z.of_nat (length data))) env s) as [a s' e'| |[]]; cbn in Hr; try done. by destruct Hr.
Qed.

(** ** A new file on the disk that mkfs built *)

(** A process with its stack at [esp] in one page, in which there are bytes to
    write at address 100, arguments for [open] at 204, and a path for [unlink]
    at 404. *)
Definition new_name : list Z := bytes_of "new".
Definition old_name : list Z := bytes_of "cat".
Definition phys_args : gmap Z Z := Eval vm_compute in
  default ∅ (uput phys_text 4096 204 (bytes32 300 ++ bytes32 514) ≫= fun m => uput m 4096 300 (slash :: new_name ++ [0]) ≫= fun m =>
    uput m 4096 404 (bytes32 500) ≫= fun m => uput m 4096 500 (slash :: old_name ++ [0])).
Definition proc_calling (esp : Z) : proc := set_sz 4096 (set_tf (set_esp esp (tf proc_running)) proc_running).
Definition calling_on (esp : Z) (im : list block) : kst :=
  after_binit (set_phys phys_args (set_kcpu (set_cr3 4096 (kcpu kst_idle)) (set_procs (<[0%nat := proc_calling esp]> (procs kst_idle))
    (set_sb sb_built (set_disk (disk_of im) kst_idle))))).

Lemma calling_bytes esp im addr bs :
  Forall (fun k => uget8 phys_args 4096 (u32 (addr + Z.of_nat k)) = bs !! k) (seq 0 (length bs)) -> user_bytes (calling_on esp im) addr bs.
Proof.
  intros Hb k b Hk. rewrite Forall_forall in Hb. change (uget8 phys_args 4096 (u32 (addr + Z.of_nat k)) = Some b).
  rewrite Hb; [done|]. apply elem_of_seq. apply lookup_lt_Some in Hk. lia.
Qed.

Lemma find_nul_is s env bs : forall n a len, (length bs < n)%nat -> Forall (fun b => b <> 0) bs ->
  (forall k b, (bs ++ [0]) !! k = Some b -> uload (a + Z.of_nat k) 1 env s = Ok [b] s env) -> find_nul n a len env s = Ok (Some (len + Z.of_nat (length bs))) s env.
Proof.
  induction bs as [|b bs IH]; intros [|n] a len Hn Hb Hu; try (cbn in Hn; lia); cbn [find_nul].
  - pose proof (Hu 0%nat 0 eq_refl) as E. rewrite Z.add_0_r in E. rewrite (bind_ok _ _ _ _ _ _ _ E). cbn. unfold ret. do 2 f_equal. lia.
  - pose proof (Hu 0%nat b eq_refl) as E. rewrite Z.add_0_r in E. rewrite (bind_ok _ _ _ _ _ _ _ E). apply Forall_cons in Hb as [Hb0 Hb]. cbn [hd].
    rewrite (proj2 (Z.eqb_neq b 0)) by done. rewrite (IH n (a + 1) (len + 1)); [cbn [length]; do 2 f_equal; lia|cbn in Hn; lia|done|].
    intros k c Hk. rewrite <- (Hu (S k) c Hk). f_equal. lia.
Qed.

(** The arguments of a process with this memory. *)
Section Args.
Context (esp : Z) (s : kst) (env : list (kst -> kst)) (Hcur : cur s 0 (proc_calling esp)) (Hp : phys s = phys_args) (Hcr : cr3 (kcpu s) = 4096).

Lemma args_load a n bs : ubytes phys_args 4096 a n = Some bs -> uload a n env s = Ok bs s env.
Proof using Hp Hcr. intros E. unfold uload. by rewrite Hp, Hcr, E. Qed.
Lemma args_int n a v bs : u32 (esp + 4 + 4 * n) = a -> a + 4 <= 4096 -> 0 <= a -> ubytes phys_args 4096 a 4 = Some bs -> s32 (of_bytes32 bs) = v ->
  argint n env s = Ok (Some v) s env.
Proof using Hp Hcr Hcur.
  intros Ea Ha H0 E Ev. unfold argint, fetchint. rewrite !(bind_ok _ _ _ _ _ _ _ (myproc_get_run env s 0 (proc_calling esp) Hcur)). cbv beta iota.
  change (tf_esp (tf (proc_calling esp))) with esp. change (sz (proc_calling esp)) with 4096. rewrite Ea.
  rewrite (proj2 (Z.leb_gt 4096 a)), u32_small, (proj2 (Z.ltb_ge 4096 (a + 4))) by lia. cbn [orb].
  unfold uload32. rewrite bind_assoc, (bind_ok _ _ _ _ _ _ _ (args_load a 4 bs E)), bind_ret, Ev. done.
Qed.
Lemma args_path a p bs : u32 (esp + 4) = a -> a + 4 <= 4096 -> 0 <= a -> ubytes phys_args 4096 a 4 = Some (bytes32 p) -> s32 (of_bytes32 (bytes32 p)) = p ->
  0 <= p -> p + Z.of_nat (length bs) < 4096 -> Forall (fun b => b <> 0) bs ->
  (forall k b, (bs ++ [0]) !! k = Some b -> ubytes phys_args 4096 (p + Z.of_nat k) 1 = Some [b]) -> argstr 0 env s = Ok (Some (p, Z.of_nat (length bs))) s env.
Proof using Hp Hcr Hcur.
  intros Ea Ha H0 E Ev H1 H2 Hb Hu. unfold argstr. rewrite (bind_ok _ _ _ _ _ _ _ (args_int 0 a p (bytes32 p) ltac:(by rewrite Z.mul_0_r, Z.add_0_r) Ha H0 E Ev)).
  unfold fetchstr. rewrite (bind_ok _ _ _ _ _ _ _ (myproc_get_run env s 0 (proc_calling esp) Hcur)). cbv beta iota. change (sz (proc_calling esp)) with 4096.
  rewrite u32_small, (proj2 (Z.leb_gt 4096 p)) by lia.
  erewrite bind_ok by (apply (find_nul_is s env bs); [lia|done|]; intros k b Hk; by apply args_load, Hu). done.
Qed.
End Args.

(** The call of [open], for a new file that can be written. *)
Definition opening_on : list block -> kst := calling_on 200.
Lemma opening_call im : open_call (opening_on im) [] 300 new_name 514.
Proof.
  split; [| |apply calling_bytes; cbn [seq length new_name bytes_of]; repeat constructor|reflexivity].
  - apply (args_path 200 (opening_on im) [] (conj eq_refl eq_refl) eq_refl eq_refl 204 300 (slash :: new_name)); try reflexivity; try lia; [by repeat constructor|].
    intros k b Hk. do 5 (destruct k as [|k]; [injection Hk as <-; reflexivity|]). done.
  - exact (args_int 200 (opening_on im) [] (conj eq_refl eq_refl) eq_refl eq_refl 1 208 514 (bytes32 514) eq_refl ltac:(lia) ltac:(lia) eq_refl eq_refl).
Qed.

Section Opening.
Context (im : list block) (Him : image im (59 + total (all_files args_example)) (all_files args_example)).
Let D := block_of (disk_of im) 1.

Lemma calling_idle esp : Logsafe.idle 0 (proc_calling esp) 1000 2 30 (calling_on esp im).
Proof using Him.
  constructor; [|by constructor| | |reflexivity|split; reflexivity].
  - apply after_binit_cache; [|reflexivity|]; [|intros b; apply length_block_of_disk, Him].
    constructor; [reflexivity|split; reflexivity|reflexivity|split; [cbn; lia|done]|reflexivity].
  - change (disk (calling_on esp im)) with (disk_of im). rewrite (image_block im _ _ Him), (ig_log _ _ _ Him) by lia.
    split; [reflexivity|]. intros k b Hb. by rewrite lookup_nil in Hb.
  - constructor; [lia|apply NoDup_nil_2|intros b Hb; by apply elem_of_nil in Hb|cbn; lia|cbn; lia].
Qed.

(** The root directory: three entries, and room for more in its block. *)
Lemma image_root : dir_ok sb_built 208 D ROOTINO 32 /\ file_at sb_built D ROOTINO = snd (root_dir args_example) ++ replicate 464 0.
Proof using Him.
  pose proof (ig_files _ _ _ Him 0%nat (root_dir args_example) eq_refl) as Hf.
  destruct (image_padded im _ _ Him ltac:(cbn; lia) 0 (root_dir args_example) eq_refl) as [Hw Hc]; [by vm_compute|by vm_compute|].
  change (inum_of 0) with ROOTINO in *. split; [|exact Hc]. pose proof (image_inode im _ _ Him ltac:(cbn; lia) ROOTINO ltac:(unfold ROOTINO; lia)) as Hi.
  split; [by vm_compute| | |done].
  - unfold D. rewrite Hi. apply (sd_type _ _ _ Hf).
  - unfold file_size, D. rewrite Hi. apply (sd_size _ _ _ Hf).
Qed.

Lemma opening_can : can_create sb_built 208 D new_name 3 32.
Proof using Him.
  assert (forall i, 0 <= i < 208 -> disk_inode sb_built D i = kernel_inode im i) as Hi by (apply (image_inode im _ _ Him); cbn; lia).
  pose proof (ig_files _ _ _ Him 0%nat _ eq_refl) as Hr. pose proof (ig_files _ _ _ Him 1%nat _ eq_refl) as Hf. destruct image_root as [Hd Hc].
  split.
  - apply (image_wf im _ _ Him). cbn. lia.
  - split; [done|]. apply (bool_decide_unpack (slash ∉ new_name)). by vm_compute.
  - split; [by vm_compute|]. split; [by vm_compute|]. rewrite Hi by lia. rewrite (ig_unused _ _ _ Him 3); [done|lia|right; cbn; lia].
  - intros k Hk. rewrite Hi by lia. assert (k = 1 \/ k = 2) as [-> | ->] by lia; [pose proof (sd_type _ _ _ Hr : di_type (kernel_inode im 1) = T_DIR) as ->|pose proof (sd_type _ _ _ Hf : di_type (kernel_inode im 2) = T_FILE) as ->]; done.
  - split; [done|]. rewrite Hi by (unfold ROOTINO; lia). pose proof (sd_nlink _ _ _ Hr) as Hn. change (inum_of 0) with ROOTINO in Hn. by rewrite Hn.
  - intros k Hk. unfold entry_of. rewrite Hc. clear -Hk.
    assert (Forall (fun k => names new_name (de_of (slice (snd (root_dir args_example) ++ replicate 464 0) (16 * Z.of_nat k) 16)) = false) (seq 0 32)) as H by (by vm_compute; repeat constructor).
    rewrite Forall_forall in H. apply H, elem_of_seq. lia.
  - split; [lia|]. pose proof (image_free im _ _ Him) as Hn. change (59 + total _) with 61 in Hn.
    change (sb_bmapstart sb_built) with 58. change (sb_size sb_built) with 1000. unfold D. lia.
Qed.

(** The two places in the cache, for the root directory and inode [t]. *)
Definition got (inum : Z) : inode := set_i_flags 0 (set_i_ref 1 (set_i_inum inum (set_i_dev 1 inode_zero))).
Definition cache_root : list inode := <[0%nat := got 1]> (icache kst_boot).
Definition cache_new (t : Z) : list inode := <[1%nat := got t]> (<[0%nat := fetched D sb_built (got 1)]> cache_root).
Lemma second_place y t : i_ref y = 1 -> i_dev y = 1 -> i_inum y = 1 -> 1 < t ->
  iget_to (<[0%nat := y]> cache_root) 1 t = Some (1%nat, <[1%nat := got t]> (<[0%nat := y]> cache_root)).
Proof using. intros E1 E2 E3 Ht. unfold iget_to. cbn. rewrite E1, E2, E3, (proj2 (Z.eqb_neq 1 t)) by lia. cbn. reflexivity. Qed.
Lemma calling_places esp t : 1 < t -> places sb_built D (calling_on esp im) t 0 cache_root (got 1) 1 (cache_new t) (got t).
Proof using.
  intros Ht. destruct (fetched_root sb_built D (got 1) eq_refl ltac:(discriminate)) as (_ & E1 & E2 & E3 & _). split.
  - change (icache (calling_on esp im)) with (icache kst_boot). split; reflexivity.
  - discriminate.
  - split; [by apply second_place|reflexivity].
  - split; [reflexivity|discriminate].
  - split; apply lookup_empty.
Qed.
End Opening.

Lemma opening_text im : user_bytes (opening_on im) 100 text.
Proof. apply calling_bytes. cbn [seq length text bytes_of]. repeat constructor. Qed.
Lemma opening_free im : free_places (proc_calling 200) (opening_on im) 0 0.
Proof. split; reflexivity. Qed.

Lemma open_creates_witness :
  exists st, Mkfs.main (host <$> args_example) = Some st /\
    let D := block_of (disk_of (img st)) 1 in
    let new d := made sb_built 208 3 (made_dinode T_FILE 0 0) ROOTINO (entry_off sb_built D ROOTINO 32) (new_entry new_name 3) D (block_of d 1) in
    match @sys_open (failing (fun s => 2 <? lh_n (log s)) (memide_driver 1000)) link_example [] (opening_on (img st)) with
    | Ok a s' _ => a = 0 /\ new (disk s') /\ survives 1000 2 new (disk s')
    | Blocked WHalt s' => survives 1000 2 (fun d => (forall b, ~ in_log 2 30 b -> block_of d 1 b = D b) \/ new d) (disk s')
    | _ => False
    end.
Proof.
  destruct example_image as (st & E & Him). exists st. split; [exact E|]. clear E. revert Him. generalize (img st). clear st. intros im Him D new.
  pose proof (@open_creates link_example (fun s => 2 <? lh_n (log s)) 0 (proc_calling 200) 1000 2 30 sb_built 208 (opening_on im) new_name 3 32 300 514 0 0 0 cache_root (got 1) 1 (cache_new im 3) (got 3) []
    image_laid_out (calling_idle im Him 200) eq_refl ltac:(discriminate) (opening_call im) (opening_can im Him) (calling_places im 200 3 ltac:(lia)) (opening_free im)) as Hr.
  cbv zeta in Hr. change (disk (opening_on im)) with (disk_of im) in Hr. fold D in Hr. revert Hr.
  generalize (@sys_open (failing (fun s => 2 <? lh_n (log s)) (memide_driver 1000)) link_example [] (opening_on im)).
  intros o Hr. destruct o as [a s' e| |w]; [|exact Hr|destruct w; exact Hr].
  destruct Hr as ((H1 & _) & H2 & H3). split; [exact H1|]. split; [exact H2|exact H3].
Defined.

Lemma create_then_write_witness :
  exists st, Mkfs.main (host <$> args_example) = Some st /\
    let s := opening_on (img st) in
    let has d := has_file sb_built 208 3 32 new_name text (block_of (disk_of (img st)) 1) (block_of d 1) in
    let H := link_example in
    let _ := failing (fun s => 3 <? lh_n (log s)) (memide_driver 1000) in
    match (let! _ := sys_open in filewrite 0 100 9) [] s with
    | Ok a s' _ => a = 9 /\ has (disk s') /\ survives 1000 2 has (disk s')
    | Blocked WHalt s' => survives 1000 2 (left_of_both 2 30 sb_built 208 s 3 32 new_name text) (disk s')
    | _ => False
    end.
Proof.
  destruct example_image as (st & E & Him). exists st. split; [exact E|]. clear E. revert Him. generalize (img st). clear st. intros im Him s has H DR.
  assert (28 * 1 + 2 <= free_count 58 1000 (block_of (disk_of im) 1))%nat as Hroom.
  { pose proof (image_free im _ _ Him) as Hn. change (59 + total _) with 61 in Hn. lia. }
  exact (@create_then_write link_example (fun s => 3 <? lh_n (log s)) 0 (proc_calling 200) 1000 2 30 sb_built 208 (opening_on im) new_name 3 32 300 514 0 0 0 cache_root (got 1) 1 (cache_new im 3) (got 3)
    100 text 1 [] image_laid_out (calling_idle im Him 200) eq_refl ltac:(discriminate) (opening_call im) (opening_can im Him) (calling_places im 200 3 ltac:(lia)) (opening_free im)
    eq_refl Hroom (opening_text im) ltac:(vm_compute; split; [reflexivity|discriminate]) ltac:(vm_compute; discriminate)).
Defined.
