(* ===== verification/Fsunlink.v ===== *)
(** * Removing a file

    [sys_unlink] of sysfile.c, for the last link of a file in the root
    directory that is not open: the entry is cleared, the inode loses its
    link, and with the last reference the inode and the blocks of the file
    are freed, all in one transaction. *)

From stdpp Require Import base numbers list gmap strings.
From S2P Require Import Prelude Kernel Spinlock Sched Sleeplock Kalloc Console Umem Signal Pipe Str Vm Mkfs Mkfsok Mkfsimg.
From S2P Require Import Buf Memide Ring Bio Bcache Log Logsafe Crash Inode Consdev Dir Fsread Fsimage Fstxn Fsview Fswrite Fsfile Fstrunc Fsdir.
From S2P Require Import File Fsatomic Fsdrop Sysarg Sysfile Fscreate Fsopen.

Section Unlink.
Context {DR : Driver} (me : nat) (mp : proc) (size L nlog : Z) {may : Prop} {SD : SyncDisk size may} (B : superblock) (NI : Z).
Context (Hlo : laid_out size L nlog B NI).
Implicit Types (s : kst) (bs : list Z) (D : Z -> list Z).

Notation txn := (txn me mp size L nlog).
Notation cut_off := (@cut_off may).
Notation spare := (spare nlog).
Notation bm := (sb_bmapstart B).
Notation N := (sb_size B).

(** The blocks without file [t], which had the entry at [off] of directory
    [dinum]. *)
Record removed (t dinum off : Z) D D' : Prop := {
  rm_wf : fs_wf B NI D';
  rm_inode : di_type (disk_inode B D' t) = 0;
  rm_dir : whole B D' dinum /\ file_at B D' dinum = splice (file_at B D dinum) off de_zero;
  rm_others : forall j, an_inode NI j -> j <> t -> j <> dinum ->
    disk_inode B D' j = disk_inode B D j /\ (whole B D j -> whole B D' j /\ file_at B D' j = file_at B D j);
  rm_free : forall b, b ∈ file_blocks D (disk_addrs B D) t -> is_free bm D' b = true;
}.

(** Entry [k] of the [n] of the root directory is the first for [e], and it
    is for inode [t], a file with one link. *)
Record can_remove D (e : list Z) (t : Z) (n k : nat) : Prop := {
  cr_wf : fs_wf B NI D;
  cr_sb : sb_of_block (D 1) = B;
  cr_name : e <> [] /\ (slash ∉ e) /\ namecmp e (bytes_of ".") <> 0 /\ namecmp e (bytes_of "..") <> 0;
  cr_root : dir_ok B NI D ROOTINO n /\ di_nlink (disk_inode B D ROOTINO) <> 0;
  cr_entry : (k < n)%nat /\ (forall j, (j < k)%nat -> names e (entry_of B D ROOTINO j) = false) /\
    names e (entry_of B D ROOTINO k) = true /\ de_inum (entry_of B D ROOTINO k) = t;
  cr_file : an_inode NI t /\ t <> ROOTINO /\ di_type (disk_inode B D t) = T_FILE /\ di_nlink (disk_inode B D t) = 1;
  cr_room : (2 <= free_count bm N D)%nat;
}.

(** ** The three changes *)

Lemma blocks_carried D D1 t b : an_inode NI t -> carried B NI D D1 ->
  b ∈ file_blocks D (disk_addrs B D) t -> b ∈ file_blocks D1 (disk_addrs B D1) t.
Proof using.
  intros Ht Hc (Hb & sl & Hsl & E)%elem_of_blocks. apply elem_of_blocks. split; [done|]. exists sl. split; [done|].
  rewrite (cd_slots _ _ _ _ Hc t sl Ht); [done| |by rewrite E]. unfold is_slot.
  apply elem_of_app in Hsl as [Hsl%elem_of_seqZ|Hsl%list_elem_of_singleton]; lia.
Qed.

Lemma file_blocks_range D t b : fs_wf B NI D -> an_inode NI t -> b ∈ file_blocks D (disk_addrs B D) t -> 0 <= b < N.
Proof using Hlo.
  intros Hwf Ht (Hb & sl & Hsl & E)%elem_of_blocks. assert (is_slot sl) as His.
  { unfold is_slot. apply elem_of_app in Hsl as [Hsl%elem_of_seqZ|Hsl%list_elem_of_singleton]; lia. }
  destruct (fk_slot _ _ _ _ _ (fw_ok _ _ _ Hwf) t sl Ht His ltac:(by rewrite E)) as [Hr _]. rewrite E in Hr. destruct (lo_data _ _ _ _ _ Hlo). lia.
Qed.

Lemma inode_set_carried D D1 t d : fs_wf B NI D -> inode_set B NI t d D D1 -> di_addrs d = disk_addrs B D t -> carried B NI D D1.
Proof using Hlo.
  intros Hwf [I1 I2 I3 I4] Hd. split; [|intros c Hc; apply I4; lia]. intros j sl Hj Hsl Hn.
  assert (disk_addrs B D1 j = disk_addrs B D j) as E by (unfold disk_addrs at 1; rewrite I2 by done; by case_decide; subst).
  rewrite E. destruct (decide (nth 12 (disk_addrs B D j) 0 = 0)) as [E0|E0].
  - unfold aslot. change (Z.to_nat NDIRECT) with 12%nat. by rewrite E0.
  - apply aslot_ext, I4. left. pose proof (indirect_used bm N NI D _ (fw_ok _ _ _ Hwf) j Hj E0). lia.
Qed.

Lemma removed_intro D t off D1 d2 D2 d3 D3 :
  an_inode NI t -> an_inode NI ROOTINO -> t <> ROOTINO ->
  saved B NI ROOTINO off de_zero D D1 -> carried B NI D D1 -> inode_set B NI t d2 D1 D2 -> di_addrs d2 = disk_addrs B D1 t ->
  emptied L B NI t d3 D2 D3 -> di_type d3 = 0 -> removed t ROOTINO off D D3.
Proof using Hlo.
  intros Ht Hr Hne [V1 V2 V3 V4 V5] Hc1 Hs Ha [E1 E2 E3 E4 E5] Hty. pose proof (inode_set_carried D1 D2 t d2 V1 Hs Ha) as Hc2. destruct Hs as [I1 I2 I3 I4].
  pose proof (others_trans B NI t D1 D2 D3 I3 E3) as Ho. split.
  - done.
  - by rewrite E2.
  - destruct (Ho ROOTINO Hr ltac:(done)) as [_ Hk]. destruct (Hk V2) as [W E]. split; [done|congruence].
  - intros j Hj Hjt Hjr. destruct (V4 j Hj Hjr) as [A1 A2]. destruct (Ho j Hj Hjt) as [B1 B2]. split; [congruence|].
    intros W. destruct (A2 W) as [W1 F1]. destruct (B2 W1) as [W2 F2]. split; [done|congruence].
  - intros b Hb. pose proof (blocks_carried D D1 t b Ht Hc1 Hb) as Hb1. pose proof (blocks_carried D1 D2 t b Ht Hc2 Hb1) as Hb2.
    rewrite E4 by (by apply (file_blocks_range D2 t)). by rewrite bool_decide_true, orb_true_r by done.
Qed.

(** ** The call *)

Section Run.
Context (s : kst) (e : list Z) (t : Z) (n k : nat) (env : list (kst -> kst)).
Context (r : nat) (c : list inode) (ipr : inode) (q : nat) (c2 : list inode) (x : inode).
Let D := block_of (disk s) 1.
Hypotheses (Hid : Logsafe.idle me mp size L nlog s) (Hsb : sb s = B) (Hnlog : LOGSIZE <= nlog).
Hypotheses (Hc : can_remove D e t n k) (Hpl : places B D s t r c ipr q c2 x) (Href : i_ref x = 1).
Let dir := fetched D B ipr.
Let file := fetched D B x.
Let off := 16 * Z.of_nat k.
Notation removes := (removed t ROOTINO off D).

Lemma file_facts : di_of file = disk_inode B D t /\ i_ref file = 1 /\ i_dev file = 1 /\ i_inum file = t /\ is_loaded file = true /\ c2 !! r = Some dir /\ c2 !! q = Some x /\ r <> q.
Proof using Hpl Href.
  destruct (new_entry_facts B D s t r c ipr q c2 x Hpl) as (N1 & N2 & N3 & N4 & N5). destruct (pl_fresh _ _ _ _ _ _ _ _ _ _ Hpl) as [Hnl Hne].
  destruct (pl_new _ _ _ _ _ _ _ _ _ _ Hpl) as [_ Hx]. unfold file, fetched. rewrite Hnl. unfold loaded. rewrite N1. fold (disk_inode B D t).
  split; [by destruct (disk_inode B D t)|]. split_and!; try done. apply valid_loaded.
Qed.

(** The first change: the entry is cleared and the directory is let go. *)
Lemma unlink_clears s1 {A} (m : M A) R :
  txn ∅ (disk s) [] D s1 -> rest (set_icache (<[q := file]> c2) (locked_inode mp q (locked_inode mp r s))) s1 ->
  (forall bs1 D1 s2, txn ∅ (disk s) bs1 D1 s2 -> spare 5 bs1 -> saved B NI ROOTINO off de_zero D D1 -> carried B NI D D1 ->
     icache s2 !! q = Some file -> slocks s2 !! SLinode q = Some (pid mp) -> sb s2 = B ->
     rc (fun s' => cut_with size L nlog removes (disk s) (disk s')) env (m env s2) R) ->
  rc (fun s' => cut_with size L nlog removes (disk s) (disk s')) env
    ((let! a := writei r (from_local de_zero) off SIZEOF_DIRENT in
      if negb (a =? SIZEOF_DIRENT) then panic "unlink: writei" else
      let! y := get_inode q in
      when (i_type y =? T_DIR) (add_nlink r (-1)) ;;
      iunlockput r ;;
      m) env s1) R.
Proof using SD Hlo Hid Hsb Hnlog Hc Hpl Href.
  intros Ht1 (Q1 & Q2 & Q3 & Q4 & Q5) Hm. cbn in Q1, Q2, Q4, Q5. destruct file_facts as (F1 & F2 & F3 & F4 & F5 & F6 & F7 & F8).
  destruct (dir_facts B D s t r c ipr q c2 x Hpl) as (G1 & G2 & G3 & G4 & G5). fold dir in G1, G2, G3, G4, G5. destruct (root_entry B D s t r c ipr q c2 x Hpl) as (_ & _ & R3).
  destruct Hc as [C1 C2 _ [[O1 O2 O3 O4] Cn] (Ck & _) (T1 & T2 & T3 & T4) Croom].
  assert (icache s1 !! r = Some dir) as Hr1 by (rewrite Q1, list_lookup_insert_ne by done; done). change LOGSIZE with 30 in Hnlog.
  assert (Z.of_nat (length de_zero) = SIZEOF_DIRENT) as Hlen by reflexivity. change SIZEOF_DIRENT with 16 in Hlen. assert (16 * Z.of_nat n <= 140 * 512) as Hmax by (rewrite <- O3; apply O4).
  change SIZEOF_DIRENT with 16. rewrite <- Hlen.
  eapply rc_step; [apply (writei_writes me mp size L nlog B NI Hlo (disk s) [] D s1 r dir off (umem s1) (from_local de_zero) de_zero 1 env); rewrite ?G4; try done|..].
  - congruence.
  - change (i_type dir) with (di_type (di_of dir)). by rewrite G1, O2.
  - rewrite O3. unfold off. lia.
  - rewrite Hlen. unfold off. lia.
  - right. rewrite Hlen. unfold off. Z.div_mod_to_equations. lia.
  - split; cbn [length]; lia.
  - intros s' [_ ->]. left. split; [apply (id_log _ _ _ _ _ _ Hid)|done].
  - intros a s2 (-> & bs1 & D1 & ip' & Ht2 & Hsp & Hsv & Hcd & Hdi & [I1 I2 I3] & _ & (P1 & P2 & P3 & P4 & P5)). cbn in P1, P2, P5. rewrite Z.eqb_refl. cbn [negb]. rewrite G4 in Hsv, Hdi.
    assert (icache s2 !! q = Some file) as Hq2 by (rewrite P1, Q1, list_lookup_insert_ne, list_lookup_insert_eq by (done || by eapply lookup_lt_Some); done).
    rewrite (bind_get_inode _ _ _ _ _ Hq2). change (i_type file) with (di_type (di_of file)). rewrite F1, T3. change (T_FILE =? T_DIR) with false. cbn [when]. rewrite bind_ret.
    eapply rc_step; [apply (txn_iunlockput me mp size L nlog (disk s) bs1 D1 s2 r ip' env Ht2)|done|].
    + destruct Hsp. lia.
    + rewrite P1. apply list_lookup_insert_eq. by eapply lookup_lt_Some.
    + lia.
    + rewrite P5, Q5, lookup_insert_ne, lookup_insert_eq by congruence. by eexists.
    + change (i_nlink ip') with (di_nlink (di_of ip')). rewrite Hdi. destruct (sv_meta _ _ _ _ _ _ _ Hsv) as (_ & _ & _ & ->). done.
    + intros b s3 [Ht3 (U1 & U2 & U3 & U4 & U5)]. cbn in U1, U2, U5. apply (Hm bs1 D1 s3 Ht3 Hsp Hsv Hcd).
      * rewrite U1, list_lookup_insert_ne by done. done.
      * rewrite U5, lookup_delete_ne, P5, Q5, lookup_insert_eq by congruence. done.
      * congruence.
Qed.

(** The others: the inode loses its link and is dropped. *)
Lemma unlink_drops s1 bs1 D1 :
  txn ∅ (disk s) bs1 D1 s1 -> spare 5 bs1 -> saved B NI ROOTINO off de_zero D D1 -> carried B NI D D1 ->
  icache s1 !! q = Some file -> slocks s1 !! SLinode q = Some (pid mp) -> sb s1 = B ->
  rc (fun s' => cut_with size L nlog removes (disk s) (disk s')) env ((add_nlink q (-1) ;; iunlockput q ;; end_op ;; ret 0) env s1)
    (fun a s' => (a = 0 /\ Logsafe.idle me mp size L nlog s') /\ done_with size L nlog removes (disk s) (disk s')).
Proof using SD Hlo Hid Hc Hpl Href.
  intros Ht1 Hsp Hsv Hcd Hq1 Hlk Hsb1. destruct file_facts as (F1 & F2 & F3 & F4 & F5 & F6 & F7 & F8). destruct Hc as [C1 C2 _ [[O1 O2 O3 O4] Cn] _ (T1 & T2 & T3 & T4) _].
  assert (forall s', cut_off (disk s) s' -> cut_with size L nlog removes (disk s) (disk s')) as Hcut.
  { intros s' [_ ->]. left. split; [apply (id_log _ _ _ _ _ _ Hid)|done]. }
  assert (disk_inode B D1 t = disk_inode B D t) as Edi by (by destruct (sv_others _ _ _ _ _ _ _ Hsv t T1 T2)).
  unfold add_nlink. rewrite bind_assoc. unfold mod_inode at 1. rewrite bind_modify, (upd_insert _ _ _ _ Hq1).
  assert (i_nlink file = 1) as En by (change (i_nlink file) with (di_nlink (di_of file)); by rewrite F1). rewrite En. change (s16 (1 + -1)) with 0.
  set (ip2 := set_i_nlink 0 file). set (s2 := set_icache _ s1). assert (q < length (icache s1))%nat as Hlt by by eapply lookup_lt_Some.
  assert (icache s2 !! q = Some ip2) as Hq2 by by apply list_lookup_insert_eq.
  assert (di_ok (di_of ip2)) as Hok.
  { pose proof (fw_di _ _ _ C1 t T1) as [K1 K2 K3 K4 K5 K6 K7]. rewrite <- F1 in K1, K2, K3, K4, K5, K6, K7. by split. }
  assert (di_addrs (di_of ip2) = disk_addrs B D1 t) as Ha by (unfold disk_addrs; rewrite Edi, <- F1; done).
  pose proof (put_inode_set size L nlog B NI Hlo D1 t (di_of ip2) (sv_wf _ _ _ _ _ _ _ Hsv) T1 Hok Ha) as Hset. destruct Hset as [I1 I2 I3 I4] eqn:HS. clear HS.
  eapply rc_step; [apply (iupdate_refines me mp size L nlog B NI Hlo (disk s) bs1 D1 s2 q ip2 env (txn_icache _ _ _ _ _ _ _ _ _ _ _ Ht1) Hsb1 Hq2 F3)|exact Hcut|].
  { change (i_inum ip2) with (i_inum file). by rewrite F4. } { done. }
  { change (i_inum ip2) with (i_inum file). rewrite F4. apply (fw_len _ _ _ (sv_wf _ _ _ _ _ _ _ Hsv)). by apply (inode_block_ok B NI (lo_inode_blocks size L nlog B NI Hlo) (lo_data _ _ _ _ _ Hlo)). }
  { destruct Hsp; split; lia. }
  change (i_inum ip2) with (i_inum file). rewrite F4. intros a s3 [Ht3 (R1 & R2 & R3 & R4 & R5)]. set (D2 := put_inode B t (di_of ip2) D1) in *.
  pose proof (length_add_block (IBLOCK t B) bs1) as Hla. destruct Hsp as [Hs1 Hs2]. unfold iunlockput. rewrite bind_assoc.
  eapply rc_step; [apply (txn_iunlock me mp size L nlog (disk s) _ D2 s3 q ip2 env Ht3); [lia|by rewrite R1|change (i_ref ip2) with (i_ref file); lia|]|done|].
  { rewrite R5. cbn. rewrite Hlk. by eexists. }
  intros b s4 [Ht4 (U1 & U2 & U3 & U4 & U5)]. cbn in U1, U2.
  assert (disk_inode B D2 t = di_of ip2) as Ed2 by (by rewrite I2, decide_True by done).
  eapply rc_step; [apply (iput_drops me mp size L nlog B NI Hlo (disk s) _ D2 s4 q ip2 env Ht4); change (i_inum ip2) with (i_inum file); rewrite ?F4; try done|exact Hcut|].
  - rewrite U2, R2. done.
  - rewrite I4, (cd_low _ _ _ _ Hcd); [done| |]; destruct (lo_log _ _ _ _ _ Hlo); lia.
  - by rewrite U1, R1.
  - split; lia.
  - change (i_inum ip2) with (i_inum file). rewrite F4. intros d s5 [(bs5 & D3 & Ht5 & Hw & He) _]. pose proof (within_length me mp size L nlog _ _ _ _ _ _ _ Ht5 Hw) as Hl5. cbn [length] in Hl5.
    assert (removes D3) as HR by (by apply (removed_intro D t off D1 (di_of ip2) D2 (di_of (dropped ip2)) D3)).
    pose proof (in_txn_of_txn _ _ _ _ _ _ _ _ _ Ht5 ltac:(lia)) as Hx. pose proof (in_txn_confined _ _ _ _ _ _ _ _ _ Hx) as Hcf.
    eapply rc_step; [apply (end_op_spec me mp size L nlog (disk s) bs5 D3 s5 env Hx (id_log _ _ _ _ _ _ Hid))| |].
    + intros s' [_ Hcp]. right. by exists D3, bs5.
    + intros f s6 (Hcm & Hid6 & _). split; [|done]. split; [done|]. by exists D3, bs5.
Qed.

Lemma not_dots : let nm := set_elem e name_buf in (namecmp nm (bytes_of ".") =? 0) || (namecmp nm (bytes_of "..") =? 0) = false.
Proof using Hc.
  destruct (cr_name _ _ _ _ _ Hc) as (_ & _ & H1 & H2). intros nm. pose proof (names_set_elem e name_buf (mkde 1 (bytes_of "."))) as E1. pose proof (names_set_elem e name_buf (mkde 1 (bytes_of ".."))) as E2.
  unfold names in E1, E2. cbn [de_inum de_name Z.eqb negb andb] in E1, E2. unfold nm. rewrite E1, E2. by rewrite !(proj2 (Z.eqb_neq _ _)).
Qed.

(** Up to the lock of the file. *)
Lemma unlink_run s1 :
  txn ∅ (disk s) [] D s1 -> rest s s1 ->
  rc (fun s' => cut_with size L nlog removes (disk s) (disk s')) env
    ((let! (d, nm) := nameiparent (slash :: e) name_buf in
      match d with
      | None => end_op ;; ret (-1)
      | Some dp =>
          ilock (Some dp) ;;
          if (namecmp nm (bytes_of ".") =? 0) || (namecmp nm (bytes_of "..") =? 0) then unlink_bad dp else
          let! a := dirlookup dp nm in
          match a with
          | None => unlink_bad dp
          | Some (ip, off) =>
              ilock (Some ip) ;;
              let! y := get_inode ip in
              if i_nlink y <? 1 then panic "unlink: nlink < 1" else
              let! full := (if i_type y =? T_DIR then let! e := isdirempty ip in ret (negb e) else ret false) in
              if (full : bool) then iunlockput ip ;; unlink_bad dp else
              let! a := writei dp (from_local de_zero) off SIZEOF_DIRENT in
              if negb (a =? SIZEOF_DIRENT) then panic "unlink: writei" else
              let! y := get_inode ip in
              when (i_type y =? T_DIR) (add_nlink dp (-1)) ;;
              iunlockput dp ;;
              add_nlink ip (-1) ;;
              iunlockput ip ;;
              end_op ;;
              ret 0
          end
      end) env s1)
    (fun a s' => (a = 0 /\ Logsafe.idle me mp size L nlog s') /\ done_with size L nlog removes (disk s) (disk s')).
Proof using SD Hlo Hid Hsb Hnlog Hc Hpl Href.
  intros Ht1 (E1 & E2 & E3 & E4 & E5). destruct file_facts as (F1 & F2 & F3 & F4 & F5 & F6 & F7 & F8).
  destruct (dir_facts B D s t r c ipr q c2 x Hpl) as (G1 & G2 & G3 & G4 & G5). fold dir in G1, G2, G3, G4, G5. destruct (root_entry B D s t r c ipr q c2 x Hpl) as (_ & _ & R3).
  destruct (pl_root _ _ _ _ _ _ _ _ _ _ Hpl) as [Hg Hr]. destruct (pl_locks _ _ _ _ _ _ _ _ _ _ Hpl) as [Hlr Hlq]. destruct (pl_new _ _ _ _ _ _ _ _ _ _ Hpl) as [Hgq _]. fold dir in Hgq.
  destruct (new_entry_facts B D s t r c ipr q c2 x Hpl) as (N1 & N2 & N3 & _ & N5).
  pose proof Hc as [C1 _ (C2 & C3 & _) [C4 _] (Ck & Cno & Cyes & Cnum) (T1 & T2 & T3 & T4) _].
  assert (forall s', cut_off (disk s) s' -> cut_with size L nlog removes (disk s) (disk s')) as Hcut.
  { intros s' [_ ->]. left. split; [apply (id_log _ _ _ _ _ _ Hid)|done]. }
  assert (i_type dir = T_DIR) as Etd by (change (i_type dir) with (di_type (di_of dir)); rewrite G1; apply C4).
  eapply rc_step; [apply (nameiparent_root me mp size L nlog B NI Hlo (disk s) [] D s1 e name_buf r c ipr env Ht1); rewrite ?E1, ?E5; try done; [cbn; lia|congruence|apply C4]|exact Hcut|].
  fold dir. intros a s2 (-> & Ht2 & R2). assert (r < length c)%nat as Hlt by by eapply lookup_lt_Some.
  assert (icache s2 = <[r := dir]> c) as Ei2 by apply R2. assert (sb s2 = B) as Hsb2 by (destruct R2 as (_ & E & _); cbn in E; congruence).
  assert (fetched D B dir = dir) as Efd by (unfold fetched; by rewrite G5).
  eapply rc_step; [apply (txn_ilock me mp size L nlog (disk s) [] D s2 r dir env Ht2); rewrite ?Hsb2, ?Efd, ?G4, ?Etd, ?Ei2; try done; [cbn; lia|by apply list_lookup_insert_eq|lia| |]|exact Hcut|].
  { destruct R2 as (_ & _ & _ & _ & ->). cbn. by rewrite E5. } { apply (root_block size L nlog B NI Hlo). apply C4. }
  rewrite Hsb2, Efd, Ei2, list_insert_insert_eq. intros a s3 [Ht3 R3']. assert (icache s3 = <[r := dir]> c) as Ei3 by apply R3'.
  rewrite not_dots. assert (open_dir B NI D ROOTINO n r dir s3) as Hod by (split; try done; rewrite Ei3; by apply list_lookup_insert_eq).
  eapply rc_step; [apply (dirlookup_finds me mp size L nlog B NI Hlo (disk s) [] D s3 ROOTINO n r dir (set_elem e name_buf) k q c2 env Ht3); try done; [cbn; lia| | |]|exact Hcut|].
  { intros j Hj. rewrite names_set_elem. by apply Cno. } { by rewrite names_set_elem. } { by rewrite Ei3, Cnum. }
  fold off. intros a' s4 (-> & Ht4 & R4).
  assert (rest (set_icache c2 (locked_inode mp r s)) s4) as R04.
  { assert (rest (set_icache (<[r := dir]> c) s) s2) as R02 by (eapply rest_trans; [|exact R2]; by apply rest_icache).
    assert (rest (set_icache (<[r := dir]> c) (locked_inode mp r s)) s3) as R03 by (eapply rest_trans; [exact (rest_icache _ _ (<[r := dir]> c) (rest_locked mp _ _ r R02))|exact R3']).
    eapply rest_trans; [exact (rest_icache _ _ c2 R03)|exact R4]. }
  pose proof R04 as (K1 & K2 & _ & _ & K5). cbn in K1, K2, K5. destruct (inode_block_ok B NI (lo_inode_blocks size L nlog B NI Hlo) (lo_data _ _ _ _ _ Hlo) t T1) as (_ & Hb1 & Hb2 & _).
  destruct (lo_data _ _ _ _ _ Hlo) as (L1 & L2 & L3). pose proof (lo_disk _ _ _ _ _ Hlo) as L4.
  eapply rc_step; [apply (txn_ilock me mp size L nlog (disk s) [] D s4 q x env Ht4); rewrite ?K1, ?K2, ?Hsb, ?N1; try done; [cbn; lia| |lia|]|exact Hcut|].
  { rewrite K5, lookup_insert_ne by congruence. done. } { fold file. change (i_type file) with (di_type (di_of file)). by rewrite F1, T3. }
  rewrite K1, K2, Hsb. fold file. intros a5 s5 [Ht5 R5].
  assert (icache s5 !! q = Some file) as Hq5 by (destruct R5 as (-> & _); by apply list_lookup_insert_eq). rewrite (bind_get_inode _ _ _ _ _ Hq5).
  change (i_nlink file) with (di_nlink (di_of file)). change (i_type file) with (di_type (di_of file)). rewrite F1, T3, T4. change (1 <? 1) with false. change (T_FILE =? T_DIR) with false. cbv iota.
  rewrite bind_ret. apply (unlink_clears s5 (add_nlink q (-1) ;; iunlockput q ;; end_op ;; ret 0) _ Ht5).
  - eapply rest_trans; [|exact R5]. exact (rest_icache _ _ (<[q := file]> c2) (rest_locked mp _ _ q R04)).
  - intros bs1 D1 s6. apply unlink_drops.
Qed.

Lemma sys_unlink_run p :
  argstr 0 env s = Ok (Some (p, Z.of_nat (length e) + 1)) s env -> user_bytes s p (slash :: e) ->
  rc (fun s' => cut_with size L nlog removes (disk s) (disk s')) env (sys_unlink env s)
    (fun a s' => (a = 0 /\ Logsafe.idle me mp size L nlog s') /\ done_with size L nlog removes (disk s) (disk s')).
Proof using SD Hlo Hid Hsb Hnlog Hc Hpl Href.
  intros O1 O2. unfold sys_unlink, arg. rewrite (bind_ok _ _ _ _ _ _ _ O1).
  eapply rc_step; [apply (begin_op_spec me mp size L nlog s env Hid)|done|]. intros a s1 [Ht1%txn_of_in_txn R1]. fold D in Ht1.
  pose proof R1 as (_ & _ & R3 & _). assert (user_bytes s1 p (slash :: e)) as Hu1.
  { unfold umem in R3. injection R3 as E1 E2. intros j b Hj. rewrite E1, E2. by apply O2. }
  pose proof (str_at_run s1 p (slash :: e) env Hu1) as Hs. replace (Z.of_nat (length (slash :: e))) with (Z.of_nat (length e) + 1) in Hs by (cbn [length]; lia).
  rewrite (bind_ok _ _ _ _ _ _ _ Hs). by apply unlink_run.
Qed.

(** The log's own blocks do not matter. *)
Lemma removed_outside_log D1 D2 : removes D1 -> (forall b, ~ in_log L nlog b -> D2 b = D1 b) -> removes D2.
Proof using Hlo Hc.
  intros [M1 M2 [M3 M4] M5 M6] Hd. pose proof (lo_inode_blocks size L nlog B NI Hlo) as Hb. pose proof Hlo as [(L1 & L2 & L3) _ L4 L5 _].
  assert (forall b, sb_inodestart B <= b -> D2 b = D1 b) as Hag by (intros b ?; apply Hd; unfold in_log; lia).
  destruct Hc as [_ _ _ [[C4 _ _ _] _] _ (Ht & _) _]. destruct (agree_file B NI Hb L5 ltac:(lia) D1 D2 Hag M1 ROOTINO C4 M3) as [W1 E1]. split.
  - apply (agree_wf B NI Hb L5 ltac:(lia) D1 D2 Hag M1).
  - by rewrite (agree_inode B NI Hb L5 D1 D2 Hag).
  - split; [done|congruence].
  - intros j Hj Hjt Hjr. destruct (M5 j Hj Hjt Hjr) as [F1 F2]. split; [by rewrite (agree_inode B NI Hb L5 D1 D2 Hag)|]. intros Hw.
    destruct (F2 Hw) as [Hw1 Ef]. destruct (agree_file B NI Hb L5 ltac:(lia) D1 D2 Hag M1 j Hj Hw1) as [Hw2 Ef2]. split; [done|congruence].
  - intros b Hbf. rewrite <- (M6 b Hbf). unfold is_free. by rewrite Hag by lia.
Qed.
End Run.
End Unlink.

(** C5: a file is removed atomically.  [sys_unlink] of the last link to a file
    in the root directory that is not open, on a disk whose power may fail at
    any request.  When it returns 0, the directory has an empty entry in its
    place, the inode is unused, the blocks of the file are free, every other
    inode and file is as before, the file system is well-formed, and this
    survives every later reboot.  If the power fails, recovery gives this or
    the blocks as they were: never a name without a file, or a file that is
    lost. *)
Theorem unlink_removes fails me mp size L nlog B NI s e t n k p r c ipr q c2 x env :
  let D := block_of (disk s) 1 in
  laid_out size L nlog B NI -> Logsafe.idle me mp size L nlog s -> sb s = B -> LOGSIZE <= nlog ->
  argstr 0 env s = Ok (Some (p, Z.of_nat (length e) + 1)) s env -> user_bytes s p (slash :: e) ->
  can_remove B NI D e t n k -> places B D s t r c ipr q c2 x -> i_ref x = 1 ->
  let old d := forall b, ~ in_log L nlog b -> block_of d 1 b = block_of (disk s) 1 b in
  let new d := removed B NI t ROOTINO (16 * Z.of_nat k) D (block_of d 1) in
  match @sys_unlink (failing fails (memide_driver size)) env s with
  | Ok a s' _ => (a = 0 /\ Logsafe.idle me mp size L nlog s') /\ new (disk s') /\ survives size L new (disk s')
  | Blocked WHalt s' => survives size L (fun d => old d \/ new d) (disk s')
  | _ => False
  end.
Proof.
  intros D Hlo Hid Hsb Hn Hp Hu Hc Hpl Hr. apply (atomic_outcome size L nlog _ _ (disk s) env).
  - apply (id_layout _ _ _ _ _ _ Hid).
  - exact (removed_outside_log size L nlog B NI Hlo s e t n k Hc).
  - by apply (@sys_unlink_run _ me mp size L nlog True (failing_sync fails size) B NI Hlo s e t n k env r c ipr q c2 x Hid Hsb Hn Hc Hpl Hr p).
Qed.

(** ** The file of the image is removed *)

Section Removing.
Context (im : list block) (Him : image im (59 + total (all_files args_example)) (all_files args_example)).
Let D := block_of (disk_of im) 1.

Lemma removing_can : can_remove sb_built 208 D old_name 2 32 2.
Proof using Him.
  assert (forall i, 0 <= i < 208 -> disk_inode sb_built D i = kernel_inode im i) as Hi by (apply (image_inode im _ _ Him); cbn; lia).
  pose proof (ig_files _ _ _ Him 0%nat _ eq_refl) as Hr. pose proof (ig_files _ _ _ Him 1%nat _ eq_refl) as Hf. destruct (image_root im Him) as [Hd Hc].
  assert (forall k, entry_of sb_built D ROOTINO k = de_of (slice (snd (root_dir args_example) ++ replicate 464 0) (16 * Z.of_nat k) 16)) as He by (intros k; unfold entry_of, D; by rewrite Hc).
  split.
  - apply (image_wf im _ _ Him). cbn. lia.
  - unfold D. rewrite (image_block im _ _ Him) by lia. apply (ig_sb _ _ _ Him).
  - split; [done|]. split; [apply (bool_decide_unpack (slash ∉ old_name)); by vm_compute|]. split; by vm_compute.
  - split; [done|]. rewrite Hi by (unfold ROOTINO; lia). pose proof (sd_nlink _ _ _ Hr) as Hn. change (inum_of 0) with ROOTINO in Hn. by rewrite Hn.
  - split; [lia|]. split; [|rewrite !He; split; by vm_compute]. intros j Hj. rewrite He. clear -Hj. destruct j as [|[|j]]; [by vm_compute|by vm_compute|lia].
  - pose proof (sd_type _ _ _ Hf) as E1. pose proof (sd_nlink _ _ _ Hf) as E2. change (inum_of 1) with 2 in E1, E2.
    split; [by vm_compute|]. split; [done|]. rewrite Hi by lia. by rewrite E1, E2.
  - pose proof (image_free im _ _ Him) as Hn. change (59 + total _) with 61 in Hn. change (sb_bmapstart sb_built) with 58. change (sb_size sb_built) with 1000. unfold D. lia.
Qed.

Lemma removing_path : argstr 0 [] (calling_on 400 im) = Ok (Some (500, Z.of_nat (length old_name) + 1)) (calling_on 400 im) [].
Proof using.
  apply (args_path 400 (calling_on 400 im) [] (conj eq_refl eq_refl) eq_refl eq_refl 404 500 (slash :: old_name)); try reflexivity; try lia; [by repeat constructor|].
  intros k b Hk. do 5 (destruct k as [|k]; [injection Hk as <-; reflexivity|]). done.
Qed.
End Removing.

Lemma unlink_removes_witness :
  exists st, Mkfs.main (host <$> args_example) = Some st /\
    let D := block_of (disk_of (img st)) 1 in
    let new d := removed sb_built 208 2 ROOTINO 32 D (block_of d 1) in
    match @sys_unlink (failing (fun s => 2 <? lh_n (log s)) (memide_driver 1000)) [] (calling_on 400 (img st)) with
    | Ok a s' _ => a = 0 /\ new (disk s') /\ survives 1000 2 new (disk s')
    | Blocked WHalt s' => survives 1000 2 (fun d => (forall b, ~ in_log 2 30 b -> block_of d 1 b = D b) \/ new d) (disk s')
    | _ => False
    end.
Proof.
  destruct example_image as (st & E & Him). exists st. split; [exact E|]. clear E. revert Him. generalize (img st). clear st. intros im Him D new.
  assert (user_bytes (calling_on 400 im) 500 (slash :: old_name)) as Hu by (apply calling_bytes; cbn [seq length old_name bytes_of]; repeat constructor).
  pose proof (unlink_removes (fun s => 2 <? lh_n (log s)) 0 (proc_calling 400) 1000 2 30 sb_built 208 (calling_on 400 im) old_name 2 32 2 500 0 cache_root (got 1) 1 (cache_new im 2) (got 2) []
    image_laid_out (calling_idle im Him 400) eq_refl ltac:(discriminate) (removing_path im) Hu (removing_can im Him) (calling_places im 400 2 ltac:(lia)) eq_refl) as Hr.
  cbv zeta in Hr. change (disk (calling_on 400 im)) with (disk_of im) in Hr. fold D in Hr. revert Hr.
  generalize (@sys_unlink (failing (fun s => 2 <? lh_n (log s)) (memide_driver 1000)) [] (calling_on 400 im)).
  intros o Hr. destruct o as [a s' e| |w]; [|exact Hr|destruct w; exact Hr].
  destruct Hr as ((H1 & _) & H2 & H3). split; [exact H1|]. split; [exact H2|exact H3].
Defined.
