(* ===== verification/Exec.v ===== *)
(** * exec.c, loaduvm of vm.c and sys_exec: running a program

    The arguments are strings of the calling program's memory, each an
    address and a length as [fetchstr] gives them. *)

From stdpp Require Import base numbers list gmap strings.
From S2P Require Import Prelude Kernel Spinlock Sched Kalloc Console Umem Str Vm Pipe Intr Kbd Sleeplock Buf Bio Log Inode Consdev Dir File Sysarg Sysfile.

Section Exec.
Context `{Driver}.

Definition MAXARG : nat := 32.
Definition ELF_MAGIC : Z := 1179403647.
Definition ELF_PROG_LOAD : Z := 1.

(** elf.h: the fields of struct elfhdr and struct proghdr that are used. *)
Definition SIZEOF_ELFHDR : Z := 52.
Definition elf_magic (h : list Z) : Z := word_at h 0.
Definition elf_entry (h : list Z) : Z := word_at h 24.
Definition elf_phoff (h : list Z) : Z := word_at h 28.
Definition elf_phnum (h : list Z) : Z := u16 (short_at h 44).
Definition SIZEOF_PROGHDR : Z := 32.
Definition ph_type (h : list Z) : Z := word_at h 0.
Definition ph_off (h : list Z) : Z := word_at h 4.
Definition ph_vaddr (h : list Z) : Z := word_at h 8.
Definition ph_filesz (h : list Z) : Z := word_at h 16.
Definition ph_memsz (h : list Z) : Z := word_at h 20.

(** A destination in memory the kernel has mapped. *)
Definition to_kernel (a : Z) (off : Z) (bs : list Z) : M unit := kput (u32 (a + off)) bs.

(** A turn for each page of the segment. *)
Fixpoint loaduvm_loop (fuel : nat) (pgdir addr : Z) (ip : nat) (offset sz i : Z) : M Z :=
  if sz <=? i then ret 0 else
  match fuel with
  | O => halt WFuel
  | S f =>
      let! pte := walkpgdir pgdir (u32 (addr + i)) false in
      if pte =? 0 then panic "loaduvm: address should exist" else
      let! e := kread32 pte in
      let pa := PTE_ADDR e in
      let n := if sz - i <? PGSIZE then sz - i else PGSIZE in
      let! (r, _) := readi ip (to_kernel (P2V pa)) (u32 (offset + i)) n in
      if negb (r =? n) then ret (-1) else loaduvm_loop f pgdir addr ip offset sz (i + PGSIZE)
  end.
Definition loaduvm (pgdir addr : Z) (ip : nat) (offset sz : Z) : M Z :=
  if negb (addr mod PGSIZE =? 0) then panic "loaduvm: addr must be page aligned" else
  loaduvm_loop (Z.to_nat (sz / PGSIZE + 1)) pgdir addr ip offset sz 0.

(** The [bad] exit; [pgdir] is 0 and [ip] absent when there is nothing to
    give back. *)
Definition exec_bad `{Link} (pgdir : Z) (ip : option nat) : M Z :=
  when (negb (pgdir =? 0)) (freevm pgdir) ;;
  (match ip with Some i => iunlockput i ;; end_op | None => ret tt end) ;;
  ret (-1).

(** A program header: the new size, [None] for [goto bad]. *)
Definition load_segment `{Link} (pgdir : Z) (ip : nat) (ph : list Z) (sz : Z) : M (option Z) :=
  if negb (ph_type ph =? ELF_PROG_LOAD) then ret (Some sz) else
  if ph_memsz ph <? ph_filesz ph then ret None else
  if u32 (ph_vaddr ph + ph_memsz ph) <? ph_vaddr ph then ret None else
  let! sz := allocuvm pgdir sz (u32 (ph_vaddr ph + ph_memsz ph)) in
  if sz =? 0 then ret None else
  if negb (ph_vaddr ph mod PGSIZE =? 0) then ret None else
  let! r := loaduvm pgdir (ph_vaddr ph) ip (ph_off ph) (ph_filesz ph) in
  if r <? 0 then ret None else ret (Some sz).

(** The [n] program headers from [off] on. *)
Fixpoint load_segments `{Link} (n : nat) (pgdir : Z) (ip : nat) (off sz : Z) : M (option Z) :=
  match n with
  | O => ret (Some sz)
  | S n' =>
      let! (r, ph) := readi ip to_local (u32 off) SIZEOF_PROGHDR in
      if negb (r =? SIZEOF_PROGHDR) then ret None else
      let! sz := load_segment pgdir ip ph sz in
      match sz with
      | None => ret None
      | Some sz => load_segments n' pgdir ip (s32 (off + SIZEOF_PROGHDR)) sz
      end
  end.

(** The argument strings are pushed from [sp] down; [uargv] are their
    addresses, and the result the new [sp] and all the addresses. *)
Fixpoint push_args (pgdir : Z) (argv : list (Z * Z)) (sp : Z) (uargv : list Z) : M (option (Z * list Z)) :=
  match argv with
  | [] => ret (Some (sp, uargv))
  | a :: argv' =>
      if (MAXARG <=? length uargv)%nat then ret None else
      let! bs := str_at a in
      let sp := Z.land (u32 (sp - (snd a + 1))) (u32 (Z.lnot 3)) in
      let! r := copyout pgdir sp (bs ++ [0]) in
      if r <? 0 then ret None else push_args pgdir argv' sp (uargv ++ [sp])
  end.

(** The stack frame of main: a return address, argc, argv and the vector. *)
Definition ustack (sp : Z) (uargv : list Z) : list Z :=
  let argc := Z.of_nat (length uargv) in
  [4294967295; argc; u32 (sp - (argc + 1) * 4)] ++ uargv ++ [0].

(** [for(last=s=path; *s; s++) if( *s == '/') last = s+1]. *)
Fixpoint last_elem (last s : list Z) : list Z :=
  match s with
  | [] => last
  | c :: s' => last_elem (if c =? slash then s' else last) s'
  end.

(** [safestrcpy(dst, src, n)] on a list; the rest of [dst] stays. *)
Definition safestrcpy_l (dst src : list Z) (n : nat) : list Z :=
  let bs := take (n - 1) src ++ [0] in bs ++ drop (length bs) dst.

(** The new image's stack, in the two pages allocated above the program. *)
Definition build_stack `{Link} (pgdir sz : Z) (argv : list (Z * Z)) : M (option (Z * Z)) :=
  let sz := PGROUNDUP sz in
  let! sz := allocuvm pgdir sz (u32 (sz + 2 * PGSIZE)) in
  if sz =? 0 then ret None else
  clearpteu pgdir (u32 (sz - 2 * PGSIZE)) ;;
  let! r := push_args pgdir argv sz [] in
  match r with
  | None => ret None
  | Some (sp, uargv) =>
      let us := ustack sp uargv in
      let sp := u32 (sp - 4 * Z.of_nat (length us)) in
      let! r := copyout pgdir sp (us ≫= bytes32) in
      if r <? 0 then ret None else ret (Some (sz, sp))
  end.

Definition exec_commit `{Link} (path : list Z) (pgdir' sz' entry sp : Z) : M Z :=
  let! (i, p) := myproc_get in
  mod_proc i (fun p => set_name (safestrcpy_l (name p) (last_elem path path) 16) p) ;;
  mod_proc i (set_pgdir pgdir') ;;
  mod_proc i (set_sz sz') ;;
  mod_proc i (fun p => set_tf (set_eip entry (tf p)) p) ;;
  mod_proc i (fun p => set_tf (set_esp sp (tf p)) p) ;;
  switchuvm i ;;
  freevm (pgdir p) ;;
  ret 0.

Definition exec `{Link} (path : list Z) (argv : list (Z * Z)) : M Z :=
  begin_op ;;
  let! r := namei path in
  match r with
  | None => end_op ;; ret (-1)
  | Some ip =>
      ilock (Some ip) ;;
      let! (r, elf) := readi ip to_local 0 SIZEOF_ELFHDR in
      if negb (r =? SIZEOF_ELFHDR) then exec_bad 0 (Some ip) else
      if negb (elf_magic elf =? ELF_MAGIC) then exec_bad 0 (Some ip) else
      let! pgdir := setupkvm in
      if pgdir =? 0 then exec_bad 0 (Some ip) else
      let! sz := load_segments (Z.to_nat (elf_phnum elf)) pgdir ip (s32 (elf_phoff elf)) 0 in
      match sz with
      | None => exec_bad pgdir (Some ip)
      | Some sz =>
          iunlockput ip ;;
          end_op ;;
          let! r := build_stack pgdir sz argv in
          match r with
          | None => exec_bad pgdir None
          | Some (sz, sp) => exec_commit path pgdir sz (elf_entry elf) sp
          end
      end
  end.

(** ** sysfile.c: sys_exec *)

(** [n] entries are left of the array [argv], [i] the next one. *)
Fixpoint fetch_argv (n : nat) (uargv i : Z) : M (option (list (Z * Z))) :=
  match n with
  | O => ret None
  | S n' =>
      let! r := fetchint (u32 (uargv + 4 * i)) in
      match r with
      | None => ret None
      | Some uarg =>
          if uarg =? 0 then ret (Some []) else
          let! s := fetchstr (u32 uarg) in
          match s with
          | None => ret None
          | Some s =>
              let! rest := fetch_argv n' uargv (i + 1) in
              ret ((fun l => s :: l) <$> rest)
          end
      end
  end.

Definition sys_exec `{Link} : M Z :=
  arg! path := argstr 0 in
  arg! uargv := argint 1 in
  arg! argv := fetch_argv MAXARG (u32 uargv) 0 in
  let! path := str_at path in
  exec path argv.
End Exec.
