(* ===== verification/Proc.v ===== *)
(** * proc.c: the life of processes

    [tf_ptr] and [context_ptr] are the pointers into the kernel stack that
    C keeps in [tf] and [context]; what they point to is in the fields
    [tf] and [p_context]. *)

From stdpp Require Import base numbers list gmap strings.
From S2P Require Import Prelude Kernel Spinlock Sched Kalloc Console Umem Signal Str Vm Pipe Intr Kbd Sleeplock Buf Bio Log Inode Consdev Dir File Sysarg Sysfile Exec.

Section Proc.
Context `{Driver}.

Definition SIZEOF_CONTEXT : Z := 20.

Definition pinit : M unit := initlock LPtable.

(** The contents of a region of kernel memory. *)
Definition kbytes (a : Z) (n : nat) : M (list Z) :=
  gets (fun s => (fun k => mget (phys s) (V2P a + Z.of_nat k)) <$> seq 0 n).

(** The trap frame is not initialised: it is what the page holds. *)
Definition allocproc `{Link} : M (option nat) :=
  acquire LPtable ;;
  let! ps := gets procs in
  match find_idx (fun p => bool_decide (state p = UNUSED)) ps with
  | None => release LPtable ;; ret None
  | Some i =>
      mod_proc i (set_state EMBRYO) ;;
      let! n := gets nextpid in
      mod_proc i (set_pid n) ;;
      modify (set_nextpid (s32 (n + 1))) ;;
      release LPtable ;;
      let! k := kalloc in
      mod_proc i (set_kstack k) ;;
      if k =? 0 then mod_proc i (set_state UNUSED) ;; ret None else
      let sp := u32 (k + KSTACKSIZE - Z.of_nat TF_SIZE) in
      mod_proc i (set_tf_ptr sp) ;;
      let! bs := kbytes sp TF_SIZE in
      mod_proc i (set_tf (tf_of_bytes bs)) ;;
      let sp := u32 (sp - 4) in
      kwrite32 sp a_trapret ;;
      let sp := u32 (sp - SIZEOF_CONTEXT) in
      mod_proc i (set_context_ptr sp) ;;
      mod_proc i (set_p_context (mkcontext 0 0 0 0 0)) ;;
      mod_proc i (set_p_context (mkcontext 0 0 0 0 a_forkret)) ;;
      ret (Some i)
  end.

(** The frame with which the first process enters user space. *)
Definition tf_init : trapframe :=
  let ds := Z.lor (Z.shiftl SEG_UDATA 3) DPL_USER in
  set_eip 0 (set_esp PGSIZE (set_eflags FL_IF (set_ss ds (set_es ds (set_ds ds
    (set_cs (Z.lor (Z.shiftl SEG_UCODE 3) DPL_USER) tf_zero)))))).

(** [initcode] is the program of initcode.S, assembled.  A null [p] is
    dereferenced. *)
Definition userinit `{Link} (initcode : list Z) : M unit :=
  let! p := allocproc in
  modify (set_initproc p) ;;
  let! i := deref p in
  let! d := setupkvm in
  mod_proc i (set_pgdir d) ;;
  if d =? 0 then panic "userinit: out of memory?" else
  inituvm d initcode ;;
  mod_proc i (set_sz PGSIZE) ;;
  mod_proc i (set_tf tf_init) ;;
  mod_proc i (fun p => set_name (safestrcpy_l (name p) (bytes_of "initcode") 16) p) ;;
  let! root := namei (bytes_of "/") in
  mod_proc i (set_cwd root) ;;
  initHandlers i ;;
  acquire LPtable ;;
  mod_proc i (set_state RUNNABLE) ;;
  release LPtable.

Definition growproc `{Link} (n : Z) : M Z :=
  let! (i, p) := myproc_get in
  let! r :=
    (if 0 <? n then
       let! sz' := allocuvm (pgdir p) (sz p) (u32 (sz p + n)) in
       ret (if sz' =? 0 then None else Some sz')
     else if n <? 0 then
       let! sz' := deallocuvm (pgdir p) (sz p) (u32 (sz p + n)) in
       ret (if sz' =? 0 then None else Some sz')
     else ret (Some (sz p))) in
  match r with
  | None => ret (-1)
  | Some sz' =>
      mod_proc i (set_sz sz') ;;
      switchuvm i ;;
      ret 0
  end.

(** [if(proc->ofile[k]) np->ofile[k] = filedup(proc->ofile[k])]. *)
Definition dup_fd (i np k : nat) : M unit :=
  let! p := get_proc i in
  match nth k (ofile p) None with
  | None => ret tt
  | Some f => let! f := filedup f in set_fd np k (Some f)
  end.

Definition fork `{Link} : M Z :=
  let! r := allocproc in
  match r with
  | None => ret (-1)
  | Some np =>
      let! (i, p) := myproc_get in
      let! d := copyuvm (pgdir p) (sz p) in
      mod_proc np (set_pgdir d) ;;
      if d =? 0 then
        let! q := get_proc np in
        kfree (kstack q) ;;
        mod_proc np (set_kstack 0) ;;
        mod_proc np (set_state UNUSED) ;;
        ret (-1)
      else
      let! p := get_proc i in
      mod_proc np (set_sz (sz p)) ;;
      mod_proc np (set_parent (Some i)) ;;
      mod_proc np (set_tf (tf p)) ;;
      mod_proc np (fun q => set_tf (set_eax 0 (tf q)) q) ;;
      for_each (seq 0 NOFILE) (dup_fd i np) ;;
      let! p := get_proc i in
      let! c := deref (cwd p) in
      let! c := idup c in
      mod_proc np (set_cwd (Some c)) ;;
      let! p := get_proc i in
      mod_proc np (fun q => set_name (safestrcpy_l (name q) (cstr (name p)) 16) q) ;;
      let! q := get_proc np in
      let pid' := pid q in
      for_each (seq 0 NUMSIG) (fun j =>
        let! p := get_proc i in
        mod_proc np (fun q => set_signals (<[j := nth j (signals p) 0]> (signals q)) q)) ;;
      mod_proc np (set_pending 0) ;;
      acquire LPtable ;;
      mod_proc np (set_state RUNNABLE) ;;
      release LPtable ;;
      ret pid'
  end.

(** [if(proc->ofile[k]){ fileclose(proc->ofile[k]); proc->ofile[k] = 0; }]. *)
Definition close_fd `{Link} (i k : nat) : M unit :=
  let! p := get_proc i in
  match nth k (ofile p) None with
  | None => ret tt
  | Some f => fileclose f ;; set_fd i k None
  end.

(** A child of [i] becomes a child of init, which is told if it is dead. *)
Definition give_to_init (i k : nat) : M unit :=
  let! q := get_proc k in
  when (bool_decide (parent q = Some i))
    (let! ini := gets initproc in
     mod_proc k (set_parent ini) ;;
     let! q := get_proc k in
     when (bool_decide (state q = ZOMBIE)) (wakeup1 (CProc <$> ini))).

Definition exit {A} `{Link} : M A :=
  let! i := myproc in
  let! ini := gets initproc in
  if bool_decide (Some i = ini) then panic "init exiting" else
  for_each (seq 0 NOFILE) (close_fd i) ;;
  begin_op ;;
  let! p := get_proc i in
  let! c := deref (cwd p) in
  iput c ;;
  end_op ;;
  mod_proc i (set_cwd None) ;;
  acquire LPtable ;;
  let! p := get_proc i in
  wakeup1 (CProc <$> parent p) ;;
  for_each (seq 0 NPROC) (give_to_init i) ;;
  mod_proc i (set_state ZOMBIE) ;;
  sched ;;
  panic "zombie exit".

Definition is_child (i : nat) (q : proc) : bool := bool_decide (parent q = Some i).
Definition is_dead_child (i : nat) (q : proc) : bool := is_child i q && bool_decide (state q = ZOMBIE).

(** Giving back what a dead child still has. *)
Definition reap `{Link} (k : nat) : M Z :=
  let! q := get_proc k in
  let pid' := pid q in
  kfree (kstack q) ;;
  mod_proc k (set_kstack 0) ;;
  freevm (pgdir q) ;;
  mod_proc k (set_pid 0) ;;
  mod_proc k (set_parent None) ;;
  mod_proc k (fun q => set_name (<[0%nat := 0]> (name q)) q) ;;
  mod_proc k (set_killed false) ;;
  mod_proc k (set_state UNUSED) ;;
  release LPtable ;;
  ret pid'.

Definition wait `{Link} : M Z :=
  acquire LPtable ;;
  wait_loop (fun _ : unit =>
    let! (i, p) := myproc_get in
    let! ps := gets procs in
    match find_idx (is_dead_child i) ps with
    | Some k => let! r := reap k in ret (inr r)
    | None =>
        if negb (existsb (is_child i) ps) || killed p then release LPtable ;; ret (inr (-1)) else
        sleep (CProc i) LPtable ;; ret (inl tt)
    end) tt.

Definition forkret : M unit :=
  release LPtable ;;
  let! first := gets forkret_first in
  when first
    (modify (set_forkret_first false) ;;
     iinit ROOTDEV ;;
     initlog ROOTDEV).

Definition kill (pid' : Z) : M Z :=
  acquire LPtable ;;
  let! ps := gets procs in
  match find_idx (fun p => pid p =? pid') ps with
  | Some k =>
      mod_proc k (set_killed true) ;;
      mod_proc k (fun p => if bool_decide (state p = SLEEPING) then set_state RUNNABLE p else p) ;;
      release LPtable ;;
      ret 0
  | None => release LPtable ;; ret (-1)
  end.
End Proc.
