(* ===== verification/Life.v ===== *)
(** * What the operations of proc.c do *)

From stdpp Require Import base numbers list gmap strings.
From S2P Require Import Prelude Kernel Spinlock Sched Kalloc Console Umem Signal Str Vm Vmspace Vmops Pipe Intr Kbd Sleeplock Buf Memide Bio Log Inode Consdev Dir File Sysarg Sysfile Exec Proc.

Section Life.
Context {DR : Driver} {LK : Link}.

(** ** Killing a process *)

(** What [kill] does to the process it finds. *)
Definition marked_killed (p : proc) : proc :=
  let p := set_killed true p in if bool_decide (state p = SLEEPING) then set_state RUNNABLE p else p.

Lemma kill_run pid' env s :
  locks s !! LPtable = None -> wf_cpu (kcpu s) ->
  kill pid' env s =
    let s' := set_kcpu (crit (kcpu s)) s in
    match find_idx (fun p => pid p =? pid') (procs s) with
    | Some k => Ok 0 (set_procs (upd k marked_killed (procs s)) s') env
    | None => Ok (-1) s' env
    end.
Proof.
  intros Hl Hw. unfold kill. rewrite (bind_ok _ _ _ _ _ _ _ (acquire_free _ env s Hl)), bind_gets.
  cbn [procs acquired set_locks set_kcpu].
  destruct (find_idx _ (procs s)) as [k|].
  - unfold mod_proc. rewrite !bind_modify.
    crit_release LPtable s Hl Hw.
    unfold ret. cbn. by rewrite upd_upd.
  - crit_release LPtable s Hl Hw.
    done.
Qed.

(** ** A new entry of the process table *)

Definition is_unused (p : proc) : bool := bool_decide (state p = UNUSED).

(** Entry [q] with the stack page [v], the process id [n] and whatever
    trap frame [t] the page held. *)
Definition newborn (t : trapframe) (n v : Z) (q : proc) : proc :=
  set_p_context (mkcontext 0 0 0 0 a_forkret) (set_context_ptr (v + 3996) (set_tf t
    (set_tf_ptr (v + 4020) (set_kstack v (set_pid n (set_state EMBRYO q)))))).

Definition allocated (s : kst) (k : nat) (q' : proc) (v : Z) : kst :=
  set_procs (<[k := q']> (procs s)) (set_nextpid (s32 (nextpid s + 1))
    (set_phys (store32 (phys s) (V2P v + 4016) a_trapret)
      (set_freelist (load32 (phys s) (V2P v)) (set_kcpu (crit (kcpu s)) s)))).

Lemma same_page_stack m v x u :
  good_page v -> good_page u -> u <> v -> same_page m (store32 m (V2P v + 4016) x) u.
Proof.
  intros Hv Hu Hne y Hy. rewrite store32_mput. apply mget_mput_out. cbn [length bytes32].
  pose proof (V2P_apart u v Hu Hv Hne). unfold PGSIZE in *. lia.
Qed.

Lemma kmem_cpu_crit s c : kcpu s = crit c -> kmem_cpu s = crit c.
Proof. intros E. unfold kmem_cpu. rewrite E, crit_idem. by destruct (use_lock s). Qed.

Lemma allocproc_run s k q v l env :
  locks s !! LPtable = None -> kmem_ready s -> fl_rep s (v :: l) ->
  find_idx is_unused (procs s) = Some k -> procs s !! k = Some q ->
  exists t, let s' := allocated s k (newborn t (nextpid s) v q) v in
    allocproc env s = Ok (Some k) s' env /\ kmem_ready s' /\ fl_rep s' l.
Proof.
  intros Hl Hr Hf Hk Hq. pose proof Hr as [Hrl Hw].
  destruct (fl_rep_pop v s l Hf) as (Hh & H0 & Hg & Hv & Hf').
  unfold allocproc. rewrite (bind_ok _ _ _ _ _ _ _ (acquire_free _ env s Hl)), bind_gets.
  cbn [procs acquired set_locks set_kcpu]. unfold is_unused in Hk. rewrite Hk.
  unfold mod_proc. rewrite bind_modify, bind_gets, !bind_modify.
  crit_release LPtable s Hl Hw.
  set (s1 := set_locks (locks s) _).
  assert (kmem_ready s1) as Hr1 by (by split).
  rewrite (bind_ok _ _ _ _ _ _ _ (kalloc_run env s1 Hr1)).
  change (freelist s1) with (freelist s). rewrite Hh, (kmem_cpu_crit s1 (kcpu s)) by done.
  rewrite bind_modify. destruct (Z.eqb_spec v 0) as [|_]; [done|].
  rewrite bind_modify. unfold kbytes. rewrite bind_gets, bind_modify.
  unfold kwrite32. rewrite !bind_modify. unfold ret.
  set (t := tf_of_bytes _). exists t. cbn zeta.
  assert (u32 (v + KSTACKSIZE - Z.of_nat TF_SIZE) = v + 4020) as ->.
  { destruct Hg as (_ & _ & Hr2). unfold KSTACKSIZE, TF_SIZE, KERNBASE, PHYSTOP in *. rewrite u32_small; lia. }
  assert (u32 (v + 4020 - 4) = v + 4016) as ->.
  { destruct Hg as (_ & _ & Hr2). unfold KERNBASE, PHYSTOP in *. rewrite u32_small; lia. }
  assert (V2P (v + 4016) = V2P v + 4016) as ->.
  { destruct Hg as (_ & _ & Hr2). unfold V2P, KERNBASE, PHYSTOP in *. rewrite !u32_small by lia. lia. }
  assert (u32 (v + 4016 - SIZEOF_CONTEXT) = v + 3996) as ->.
  { destruct Hg as (_ & _ & Hr2). unfold SIZEOF_CONTEXT, KERNBASE, PHYSTOP in *. rewrite u32_small; lia. }
  split; [|split].
  - f_equal. unfold allocated, s1. cbn. rewrite !upd_upd, (upd_insert _ _ _ q Hq). done.
  - by split.
  - apply (fl_rep_same (set_freelist (load32 (phys s) (V2P v)) (set_kcpu (crit (kcpu s)) s))); [apply Hf'|].
    intros w Hw'. apply same_page_stack; [done|by apply (fl_rep_good _ _ _ (Hf' (crit (kcpu s))))|].
    by intros ->.
Qed.

(** In the process table, the entries with pid 0 are the unused ones. *)
Definition pids_ok (ps : list proc) : Prop :=
  forall p, p ∈ ps -> (pid p =? 0) = is_unused p.

(** proc.c [kill] and [allocproc].  The system call kill(0) finds an
    unused entry, and returns success: it marks the first of them as
    killed.  Nothing clears the mark when the entry is given to the next
    process: the process that [allocproc] then makes, for a fork by
    anybody, is killed before it starts. *)
Theorem kill_zero_dooms_next s k q v l env env' :
  locks s !! LPtable = None -> kmem_ready s -> fl_rep s (v :: l) -> pids_ok (procs s) ->
  find_idx is_unused (procs s) = Some k -> procs s !! k = Some q ->
  exists s1 s2 q2,
    kill 0 env s = Ok 0 s1 env /\
    allocproc env' s1 = Ok (Some k) s2 env' /\
    procs s2 !! k = Some q2 /\ pid q2 = nextpid s /\ killed q2 = true.
Proof.
  intros Hl Hr Hf Hp Hk Hq. pose proof Hr as [Hrl Hw].
  assert (state q = UNUSED) as Hu.
  { apply find_idx_Some in Hk as [(q' & Hq' & Hu) _]. rewrite Hq in Hq'. injection Hq' as <-.
    by apply bool_decide_eq_true in Hu. }
  rewrite kill_run by done. rewrite (find_idx_ext _ is_unused _ Hp), Hk. cbn zeta.
  set (s1 := set_procs _ _).
  assert (procs s1 !! k = Some (set_killed true q)) as Hq1.
  { cbn. rewrite lookup_upd_eq, Hq. cbn. unfold marked_killed. cbn [state set_killed]. by rewrite Hu. }
  destruct (allocproc_run s1 k (set_killed true q) v l env') as (t & E & _); try done.
  { rewrite <- Hk. unfold s1. cbn. apply find_idx_upd. intros x. unfold is_unused, marked_killed.
    cbn [state set_killed]. destruct (bool_decide (state x = SLEEPING)) eqn:E; [|done].
    apply bool_decide_eq_true in E. cbn [state set_state]. by rewrite E. }
  eexists s1, _, (newborn t (nextpid s) v (set_killed true q)).
  split; [done|]. split; [exact E|]. split; [|by split].
  cbn. apply list_lookup_insert_eq. rewrite length_upd. by eapply lookup_lt_Some.
Qed.

(** ** Sharing files and inodes *)

Definition add_ref (x : file) : file := set_f_ref (f_ref x + 1) x.
Definition add_iref (x : inode) : inode := set_i_ref (i_ref x + 1) x.

Lemma filedup_run f x env s :
  locks s !! LFtable = None -> wf_cpu (kcpu s) -> files s !! f = Some x -> 1 <= f_ref x ->
  filedup f env s = Ok f (set_files (upd f add_ref (files s)) (set_kcpu (crit (kcpu s)) s)) env.
Proof.
  intros Hl Hw Hx Hr. unfold filedup. rewrite (bind_ok _ _ _ _ _ _ _ (acquire_free _ env s Hl)).
  assert (get_file f env (acquired LFtable s) = Ok x (acquired LFtable s) env) as E
    by (unfold get_file; cbn; by rewrite Hx).
  rewrite (bind_ok _ _ _ _ _ _ _ E). destruct (Z.ltb_spec (f_ref x) 1); [lia|].
  unfold mod_file. rewrite bind_modify. crit_release LFtable s Hl Hw. done.
Qed.

Lemma idup_run c env s :
  locks s !! LIcache = None -> wf_cpu (kcpu s) ->
  idup c env s = Ok c (set_icache (upd c add_iref (icache s)) (set_kcpu (crit (kcpu s)) s)) env.
Proof.
  intros Hl Hw. unfold idup. rewrite (bind_ok _ _ _ _ _ _ _ (acquire_free _ env s Hl)).
  unfold mod_inode. rewrite bind_modify. crit_release LIcache s Hl Hw. done.
Qed.

(** The file table after the descriptors [os] have been duplicated. *)
Definition dup_files (os : list (option nat)) (fs : list file) : list file :=
  foldl (fun fs o => match o with Some f => upd f add_ref fs | None => fs end) fs os.

(** The child's descriptors, after those at [ks] have been copied. *)
Definition copy_fds (os : list (option nat)) (ks : list nat) (t : list (option nat)) : list (option nat) :=
  foldl (fun t k => match nth k os None with Some f => <[k := Some f]> t | None => t end) t ks.

Definition refs_ok (os : list (option nat)) (fs : list file) : Prop :=
  forall f, Some f ∈ os -> exists x, fs !! f = Some x /\ 1 <= f_ref x.

Lemma refs_ok_add os f fs : refs_ok os fs -> refs_ok os (upd f add_ref fs).
Proof.
  intros Hr g Hg. destruct (Hr g Hg) as (x & Hx & H1). destruct (decide (f = g)) as [<-|Hne].
  - exists (add_ref x). rewrite lookup_upd_eq, Hx. split; [done|]. cbn. lia.
  - exists x. by rewrite lookup_upd_ne.
Qed.

(** How often [f] is among the descriptors. *)
Definition fd_count (f : nat) (os : list (option nat)) : Z :=
  Z.of_nat (length (filter (fun o => o = Some f) os)).

Lemma dup_files_lookup os : forall fs f x,
  fs !! f = Some x -> dup_files os fs !! f = Some (set_f_ref (f_ref x + fd_count f os) x).
Proof.
  induction os as [|o os IH]; intros fs f x Hx.
  { cbn. rewrite Hx. unfold fd_count. cbn. rewrite Z.add_0_r. by destruct x. }
  change (dup_files (o :: os) fs) with
    (dup_files os (match o with Some f => upd f add_ref fs | None => fs end)).
  unfold fd_count. rewrite filter_cons.
  destruct o as [g|].
  - destruct (decide (g = f)) as [->|Hne].
    + rewrite decide_True by done. rewrite (IH _ f (add_ref x)) by (by rewrite lookup_upd_eq, Hx).
      cbn [length f_ref add_ref set_f_ref]. unfold fd_count, add_ref, set_f_ref. cbn.
      do 2 f_equal. lia.
    + rewrite decide_False by congruence. by rewrite (IH _ f x) by (by rewrite lookup_upd_ne).
  - rewrite decide_False by done. by rewrite (IH _ f x).
Qed.

Lemma length_copy_fds os ks : forall t, length (copy_fds os ks t) = length t.
Proof.
  induction ks as [|k ks IH]; intros t; [done|]. unfold copy_fds in *. cbn [foldl].
  rewrite IH. destruct (nth k os None); [by rewrite length_insert|done].
Qed.

(** Copying all of them into an empty table. *)
Lemma copy_fds_all os n :
  length os = n -> copy_fds os (seq 0 n) (replicate n None) = os.
Proof.
  intros Hn.
  assert (forall m, (m <= n)%nat -> forall j, (j < n)%nat ->
    copy_fds os (seq 0 m) (replicate n None) !! j = Some (if (j <? m)%nat then nth j os None else None)) as Hm.
  { induction m as [|m IH]; intros Hle j Hj.
    { cbn. rewrite lookup_replicate_2 by done. done. }
    rewrite seq_S. unfold copy_fds in *. rewrite foldl_app. cbn [foldl Nat.add].
    specialize (IH ltac:(lia)). destruct (nth m os None) as [f|] eqn:Ef.
    - destruct (decide (m = j)) as [<-|Hne].
      + rewrite list_lookup_insert_eq.
        * destruct (Nat.ltb_spec m (S m)); [by rewrite Ef|lia].
        * fold (copy_fds os (seq 0 m) (replicate n None)). rewrite length_copy_fds, length_replicate. lia.
      + rewrite list_lookup_insert_ne, IH by lia.
        destruct (Nat.ltb_spec j m), (Nat.ltb_spec j (S m)); try lia; done.
    - rewrite IH by lia. destruct (Nat.ltb_spec j m), (Nat.ltb_spec j (S m)); try lia; try done.
      replace j with m by lia. by rewrite Ef. }
  apply list_eq. intros j. destruct (decide (j < n)%nat) as [Hj|Hj].
  - rewrite Hm by lia. destruct (Nat.ltb_spec j n); [|lia]. symmetry. rewrite <- Hn in Hj.
    apply lookup_lt_is_Some in Hj as [o Ho]. rewrite Ho. by erewrite nth_lookup_Some.
  - rewrite !lookup_ge_None_2; [done|lia|]. rewrite length_copy_fds, length_replicate. lia.
Qed.

(** ** Giving memory back *)

(** proc.c [growproc].  A process that gives back all its memory,
    with sbrk(-sz), is told that the call failed, and its size is left as
    it was, but the memory is gone: no page below the size is mapped any
    more ([deallocuvm] returns the new size 0, which [growproc] takes for
    an error).  When the process then forks, [copyuvm] panics on its first
    page, and the kernel stops. *)
Theorem growproc_all_is_lost s i p l tabs E env :
  link_ok -> cur s i p -> world s l (pgdir p) tabs E -> 0 < sz p <= KERNBASE ->
  is_Some (E !! 0) ->
  exists s' l' E',
    growproc (- sz p) env s = Ok (-1) s' env /\ procs s' = procs s /\
    world s' l' (pgdir p) tabs E' /\
    (forall va wr, 0 <= va < sz p -> walk (phys s') (V2P (pgdir p)) wr va = None) /\
    (forall d env', copy_page (pgdir p) (sz p) d 0 env' s' = Panic "copyuvm: page not present").
Proof.
  intros HL Hc Hw Hsz HE0. unfold growproc. rewrite (bind_ok _ _ _ _ _ _ _ (myproc_get_run env s i p Hc)).
  destruct (Z.ltb_spec 0 (- sz p)); [lia|]. destruct (Z.ltb_spec (- sz p) 0); [|lia].
  replace (u32 (sz p + - sz p)) with 0 by (by rewrite Z.add_opp_diag_r).
  destruct (deallocuvm_run s l (pgdir p) tabs E (sz p) 0 env HL Hw) as (s' & l' & E' & ED & Hw' & HE' & Hm & _); [lia..|].
  rewrite !bind_assoc, (bind_ok _ _ _ _ _ _ _ ED). exists s', l', E'.
  pose proof (w_space _ _ _ _ _ Hw') as Hsp.
  assert (forall n, 0 <= n < up_vpn (sz p) -> E' !! n = None) as Hnone.
  { intros n Hn. rewrite (HE' n). change (up_vpn 0) with 0.
    destruct (Z.leb_spec 0 n), (Z.ltb_spec n (up_vpn (sz p))); try lia; done. }
  split_and!; [done| |done|..].
  - by destruct Hm as (m & fl & c & -> & _).
  - intros va wr Hva. unfold KERNBASE in *. rewrite (walk_space _ _ tabs E') by (done || lia).
    rewrite Hnone; [done|]. unfold up_vpn. Z.div_mod_to_equations. lia.
  - intros d env'. unfold copy_page. destruct (Z.ltb_spec 0 (sz p)); [|lia]. cbn [negb].
    destruct HE0 as [e He]. destruct (space_tab _ _ _ _ _ _ (w_space _ _ _ _ _ Hw) He) as [t Ht].
    destruct (sp_tab _ _ _ _ Hsp _ _ Ht) as [_ Hgt].
    rewrite (bind_ok _ _ _ _ _ _ _ (walkpgdir_found s' (pgdir p) tabs E' 0 t false env' Hsp Ht)).
    change (PTX 0) with 0. rewrite Z.add_0_r. destruct (Z.eqb_spec t 0) as [E0|_].
    { by destruct (good_nonzero t Hgt). }
    unfold kread32. rewrite bind_gets.
    pose proof (sp_pte _ _ _ _ Hsp 0 ltac:(unfold NVPN; lia)) as Hpt. unfold pte_word in Hpt.
    change (0 / 1024) with 0 in *. rewrite Ht, Hnone in Hpt by (unfold up_vpn; Z.div_mod_to_equations; lia).
    change (4 * (0 mod 1024)) with 0 in Hpt. rewrite Z.add_0_r in Hpt. by rewrite Hpt.
Qed.
End Life.

#[local] Existing Instance link_example.
Definition driver_life : Driver := memide_driver 1000.
#[local] Existing Instance driver_life.

(** After boot, with two free pages. *)
Lemma kill_zero_dooms_next_witness :
  exists s1 s2 q2, kill 0 [] kst_space = Ok 0 s1 [] /\ allocproc [] s1 = Ok (Some 0%nat) s2 [] /\
    procs s2 !! 0%nat = Some q2 /\ killed q2 = true.
Proof.
  destruct (kill_zero_dooms_next kst_space 0 proc_zero 2148675584 [2148679680] [] [])
    as (s1 & s2 & q2 & E1 & E2 & E3 & _ & E4).
  - done.
  - by vm_compute.
  - apply fl_example.
  - intros p Hp. apply elem_of_replicate in Hp as [-> _]. done.
  - done.
  - done.
  - exists s1, s2, q2. exact (conj E1 (conj E2 (conj E3 E4))).
Defined.

(** The process of Vmops.v's example, on the CPU. *)
Definition proc_small : proc := set_state RUNNING (set_pid 7 (set_pgdir pg_dir (set_sz 4096 proc_zero))).
Definition kst_small : kst :=
  set_kcpu (set_curproc (Some 0%nat) cpu_boot) (set_procs (<[0%nat := proc_small]> (procs kst_boot)) kst_space).

Lemma world_small :
  world kst_small free_example pg_dir {[ 0 := pg_tab ]} {[ 0 := V2P pg_frame + 7 ]}.
Proof.
  destruct world_example as [H1 H2 H3 H4]. constructor; [by vm_compute|exact H2|exact H3|exact H4].
Qed.

Lemma growproc_all_is_lost_witness :
  exists s', growproc (-4096) [] kst_small = Ok (-1) s' [] /\
    (sz <$> procs s' !! 0%nat) = Some 4096 /\ walk (phys s') (V2P pg_dir) false 0 = None.
Proof.
  destruct (growproc_all_is_lost kst_small 0 proc_small free_example {[ 0 := pg_tab ]}
    {[ 0 := V2P pg_frame + 7 ]} []) as (s' & l' & E' & EG & Ep & _ & Hn & _).
  - apply link_ok_example.
  - split; reflexivity.
  - apply world_small.
  - by vm_compute.
  - exists (V2P pg_frame + 7). by rewrite lookup_singleton_eq.
  - exists s'. split; [exact EG|]. split; [by rewrite Ep|]. apply (Hn 0 false). change (sz proc_small) with 4096. lia.
Defined.
