(* ===== verification/Fork.v ===== *)
(** * proc.c: fork makes a child that is a copy of its parent *)

From stdpp Require Import base numbers list gmap strings.
From S2P Require Import Prelude Kernel Spinlock Sched Kalloc Console Umem Signal Str Vm Vmspace Vmops Pipe Intr Kbd Sleeplock Buf Memide Bio Log Inode Consdev Dir File Sysarg Sysfile Exec Proc Life.

Section Fork.
Context {DR : Driver} {LK : Link}.

(** ** The part of fork that fills in the child's entry

    It starts from [s0], the state the copy of the memory has left; the
    child's entry, the file table and the inode cache change. *)

Section Body.
Context (s0 : kst) (i np : nat) (p : proc).
Context (Hne : i <> np) (Hp : procs s0 !! i = Some p) (Hnp : (np < length (procs s0))%nat).
Context (Hc : crit (kcpu s0) = kcpu s0) (Hw : wf_cpu (kcpu s0)).

Definition st (q : proc) (F : list file) (I : list inode) : kst :=
  set_procs (<[np := q]> (procs s0)) (set_files F (set_icache I s0)).

Lemma get_parent q F I env : get_proc i env (st q F I) = Ok p (st q F I) env.
Proof using Hne Hp. apply get_proc_run. cbn. by rewrite list_lookup_insert_ne. Qed.

Lemma get_child q F I env : get_proc np env (st q F I) = Ok q (st q F I) env.
Proof using Hnp. apply get_proc_run. cbn. by apply list_lookup_insert_eq. Qed.

Lemma mod_child g q F I env : mod_proc np g env (st q F I) = Ok tt (st (g q) F I) env.
Proof using Hnp.
  unfold mod_proc, modify, st. cbn. rewrite (upd_insert _ _ _ q) by (by apply list_lookup_insert_eq).
  by rewrite list_insert_insert_eq.
Qed.

Lemma set_crit F q I : set_kcpu (crit (kcpu (st q F I))) (st q F I) = st q F I.
Proof using Hc. change (kcpu (st q F I)) with (kcpu s0). rewrite Hc. exact (set_kcpu_id (st q F I)). Qed.

Lemma dup_fd_run k q F I env :
  locks s0 !! LFtable = None -> refs_ok (ofile p) F ->
  dup_fd i np k env (st q F I) =
    Ok tt (match nth k (ofile p) None with
           | Some f => st (set_ofile (<[k := Some f]> (ofile q)) q) (upd f add_ref F) I
           | None => st q F I
           end) env.
Proof using Hne Hp Hnp Hc Hw.
  intros Hl Hr. unfold dup_fd. rewrite (bind_ok _ _ _ _ _ _ _ (get_parent q F I env)).
  destruct (nth k (ofile p) None) as [f|] eqn:Ef; [|done].
  assert (Some f ∈ ofile p) as Hin.
  { apply list_elem_of_In. rewrite <- Ef. apply nth_In. destruct (decide (k < length (ofile p))%nat); [done|].
    rewrite nth_overflow in Ef by lia. done. }
  destruct (Hr f Hin) as (x & Hx & H1).
  rewrite (bind_ok _ _ _ _ _ _ _ (filedup_run f x env (st q F I) Hl Hw Hx H1)).
  pose proof (set_crit (upd f add_ref F) q I) as E.
  change (set_files (upd f add_ref (files (st q F I))) (set_kcpu (crit (kcpu (st q F I))) (st q F I)))
    with (set_kcpu (crit (kcpu (st q (upd f add_ref F) I))) (st q (upd f add_ref F) I)).
  rewrite E. unfold set_fd. by rewrite mod_child.
Qed.

Lemma dup_fds_run ks env I : locks s0 !! LFtable = None -> forall q F, refs_ok (ofile p) F ->
  for_each ks (dup_fd i np) env (st q F I) =
    Ok tt (st (set_ofile (copy_fds (ofile p) ks (ofile q)) q)
              (dup_files ((fun k => nth k (ofile p) None) <$> ks) F) I) env.
Proof using Hne Hp Hnp Hc Hw.
  intros Hl. induction ks as [|k ks IH]; intros q F Hr; cbn [for_each].
  { cbn. by destruct q. }
  rewrite (bind_ok _ _ _ _ _ _ _ (dup_fd_run k q F I env Hl Hr)).
  unfold copy_fds. cbn [foldl fmap list_fmap]. unfold dup_files. cbn [foldl].
  destruct (nth k (ofile p) None) as [f|]; [|by apply IH].
  rewrite IH by (by apply refs_ok_add). done.
Qed.

Lemma copy_signals_run js env F I : forall q,
  for_each js (fun j => let! p := get_proc i in
    mod_proc np (fun q => set_signals (<[j := nth j (signals p) 0]> (signals q)) q)) env (st q F I) =
  Ok tt (st (set_signals (foldl (fun t j => <[j := nth j (signals p) 0]> t) (signals q) js) q) F I) env.
Proof using Hne Hp Hnp.
  induction js as [|j js IH]; intros q; cbn [for_each].
  { cbn. by destruct q. }
  rewrite bind_assoc, (bind_ok _ _ _ _ _ _ _ (get_parent q F I env)).
  rewrite (bind_ok _ _ _ _ _ _ _ (mod_child _ q F I env)). by rewrite IH.
Qed.

Lemma st_start q : procs s0 !! np = Some q -> st q (files s0) (icache s0) = s0.
Proof using. intros Hq. unfold st. by rewrite list_insert_id, set_icache_id, set_files_id, set_procs_id. Qed.

Lemma idup_st c q F I env :
  locks s0 !! LIcache = None -> idup c env (st q F I) = Ok c (st q F (upd c add_iref I)) env.
Proof using Hc Hw.
  intros Hl. rewrite (idup_run c env (st q F I) Hl Hw).
  change (set_icache (upd c add_iref (icache (st q F I))) (set_kcpu (crit (kcpu (st q F I))) (st q F I)))
    with (set_kcpu (crit (kcpu (st q F (upd c add_iref I)))) (st q F (upd c add_iref I))).
  by rewrite set_crit.
Qed.

(** [acquire(&ptable.lock); np->state = RUNNABLE; release(&ptable.lock)]. *)
Lemma set_runnable q F I env (r : Z) :
  locks s0 !! LPtable = None ->
  (acquire LPtable ;; mod_proc np (set_state RUNNABLE) ;; release LPtable ;; ret r) env (st q F I) =
    Ok r (st (set_state RUNNABLE q) F I) env.
Proof using Hnp Hc Hw.
  intros Hl. change (locks (st q F I) !! LPtable = None) in Hl.
  rewrite (bind_ok _ _ _ _ _ _ _ (acquire_free _ env _ Hl)).
  unfold mod_proc. rewrite bind_modify. crit_release LPtable (st q F I) Hl Hw. unfold ret. f_equal.
  etransitivity; [|apply set_crit]. unfold st. cbn.
  rewrite (upd_insert _ _ _ q) by (by apply list_lookup_insert_eq). by rewrite list_insert_insert_eq.
Qed.
End Body.

Lemma nth_seq_all {A} (d : A) (l : list A) n : length l = n -> (fun k => nth k l d) <$> seq 0 n = l.
Proof.
  intros <-. apply list_eq. intros j. rewrite list_lookup_fmap.
  destruct (decide (j < length l)%nat) as [Hj|Hj].
  - rewrite lookup_seq_lt by done. cbn. apply lookup_lt_is_Some in Hj as [x Hx]. rewrite Hx. f_equal.
    by erewrite nth_lookup_Some.
  - rewrite lookup_ge_None_2 by (rewrite length_seq; lia). by rewrite lookup_ge_None_2 by lia.
Qed.

Lemma inserts_all (l : list Z) n : forall t,
  length l = n -> length t = n -> foldl (fun t j => <[j := nth j l 0]> t) t (seq 0 n) = l.
Proof.
  intros t Hn Ht.
  assert (forall m, (m <= n)%nat -> forall j, foldl (fun t j => <[j := nth j l 0]> t) t (seq 0 m) !! j =
    if (j <? m)%nat then l !! j else t !! j) as Hm.
  { induction m as [|m IH]; intros Hle j; [done|]. rewrite seq_S, foldl_app. cbn [foldl Nat.add].
    assert (length (foldl (fun t j => <[j := nth j l 0]> t) t (seq 0 m)) = n) as HL.
    { clear IH. rewrite <- Ht. generalize (seq 0 m) as js. intros js. revert t Ht.
      induction js as [|a js IHj]; intros t Ht; cbn [foldl]; [done|]. rewrite IHj; by rewrite length_insert. }
    destruct (decide (m = j)) as [<-|Hne].
    - rewrite list_lookup_insert_eq by lia. destruct (Nat.ltb_spec m (S m)); [|lia].
      assert (m < length l)%nat as Hx by lia. apply lookup_lt_is_Some in Hx as [x Hx]. rewrite Hx. f_equal.
      by erewrite nth_lookup_Some.
    - rewrite list_lookup_insert_ne, IH by lia.
      destruct (Nat.ltb_spec j m), (Nat.ltb_spec j (S m)); try lia; done. }
  apply list_eq. intros j. rewrite Hm by lia. destruct (Nat.ltb_spec j n); [done|].
  rewrite !lookup_ge_None_2 by lia. done.
Qed.

(** ** The whole of fork *)

(** Process [i] may fork: [k] is the first unused entry, [v] and [l] are
    the free pages, and [tabs] and [E] describe its address space. *)
Record fork_ready (s : kst) (i : nat) (p : proc) (k : nat) (q : proc) (c : nat) (v : Z) (l : list Z)
    (tabs E : gmap Z Z) : Prop := {
  fr_cur : cur s i p;
  fr_running : state p = RUNNING;
  fr_slot : find_idx is_unused (procs s) = Some k;
  fr_entry : procs s !! k = Some q;
  fr_nofiles : ofile q = replicate NOFILE None;
  fr_qsig : length (signals q) = NUMSIG;
  fr_ptable : locks s !! LPtable = None;
  fr_ftable : locks s !! LFtable = None;
  fr_icache : locks s !! LIcache = None;
  fr_mem : kmem_ready s;
  fr_free : fl_rep s (v :: l);
  fr_space : parent_ok (v :: l) (phys s) (pgdir p) tabs E (sz p);
  fr_size : 0 <= sz p <= KERNBASE;
  fr_ofile : length (ofile p) = NOFILE;
  fr_refs : refs_ok (ofile p) (files s);
  fr_psig : length (signals p) = NUMSIG;
  fr_cwd : cwd p = Some c;
}.

(** The child of process [i] in an entry that was [q]: its memory is [d],
    its pid [n], its kernel stack [v]. *)
Definition child (i : nat) (p q : proc) (c : nat) (d n v : Z) (t : trapframe) : proc :=
  set_state RUNNABLE (set_pending 0 (set_signals (signals p)
    (set_name (safestrcpy_l (name q) (cstr (name p)) 16) (set_cwd (Some c) (set_ofile (ofile p)
      (set_tf (set_eax 0 (tf p)) (set_parent (Some i) (set_sz (sz p) (set_pgdir d (newborn t n v q)))))))))).

Lemma parent_sub l0 l1 m pgd tabs E sz :
  parent_ok l0 m pgd tabs E sz -> (forall v, v ∈ l1 -> v ∈ l0) -> parent_ok l1 m pgd tabs E sz.
Proof. intros [H1 H2 H3] Hs. constructor; try done. intros x v Hx Hv. by apply (H2 x v Hx), Hs. Qed.

Lemma slot_not_current s i p k q c v l tabs E : fork_ready s i p k q c v l tabs E -> i <> k.
Proof.
  intros HR ->. destruct (fr_cur _ _ _ _ _ _ _ _ _ _ HR) as [_ Hp].
  pose proof (fr_slot _ _ _ _ _ _ _ _ _ _ HR) as Hk. apply find_idx_Some in Hk as [(x & Hx & Hu) _].
  rewrite Hp in Hx. injection Hx as <-. apply bool_decide_eq_true in Hu.
  by rewrite (fr_running _ _ _ _ _ _ _ _ _ _ HR) in Hu.
Qed.

Lemma fork_body s2 i p k q c d n v t env :
  i <> k -> cur s2 i p -> procs s2 !! k = Some (set_pgdir d (newborn t n v q)) ->
  crit (kcpu s2) = kcpu s2 -> wf_cpu (kcpu s2) ->
  locks s2 !! LPtable = None -> locks s2 !! LFtable = None -> locks s2 !! LIcache = None ->
  ofile q = replicate NOFILE None -> length (ofile p) = NOFILE -> refs_ok (ofile p) (files s2) ->
  length (signals q) = NUMSIG -> length (signals p) = NUMSIG -> cwd p = Some c ->
  (let! p := get_proc i in
   mod_proc k (set_sz (sz p)) ;;
   mod_proc k (set_parent (Some i)) ;;
   mod_proc k (set_tf (tf p)) ;;
   mod_proc k (fun q => set_tf (set_eax 0 (tf q)) q) ;;
   for_each (seq 0 NOFILE) (dup_fd i k) ;;
   let! p := get_proc i in
   let! c := deref (cwd p) in
   let! c := idup c in
   mod_proc k (set_cwd (Some c)) ;;
   let! p := get_proc i in
   mod_proc k (fun q => set_name (safestrcpy_l (name q) (cstr (name p)) 16) q) ;;
   let! q := get_proc k in
   let pid' := pid q in
   for_each (seq 0 NUMSIG) (fun j =>
     let! p := get_proc i in
     mod_proc k (fun q => set_signals (<[j := nth j (signals p) 0]> (signals q)) q)) ;;
   mod_proc k (set_pending 0) ;;
   acquire LPtable ;;
   mod_proc k (set_state RUNNABLE) ;;
   release LPtable ;;
   ret pid') env s2 =
  Ok n (set_procs (<[k := child i p q c d n v t]> (procs s2))
         (set_files (dup_files (ofile p) (files s2)) (set_icache (upd c add_iref (icache s2)) s2))) env.
Proof.
  intros Hne [Hc1 Hp] Hq Hcr Hw HlP HlF HlI Hqo Hpo Hr Hqs Hps Hcwd.
  assert (k < length (procs s2))%nat as Hk by (by eapply lookup_lt_Some).
  rewrite <- (st_start s2 k _ Hq) at 1.
  rewrite (bind_ok _ _ _ _ _ _ _ (get_parent s2 i k p Hne Hp _ _ _ env)).
  do 4 rewrite (bind_ok _ _ _ _ _ _ _ (mod_child s2 k Hk _ _ _ _ env)).
  rewrite (bind_ok _ _ _ _ _ _ _ (dup_fds_run s2 i k p Hne Hp Hk Hcr Hw _ env _ HlF _ _ Hr)).
  rewrite (bind_ok _ _ _ _ _ _ _ (get_parent s2 i k p Hne Hp _ _ _ env)), Hcwd. unfold deref. rewrite bind_ret.
  rewrite (bind_ok _ _ _ _ _ _ _ (idup_st s2 k Hcr Hw c _ _ _ env HlI)).
  rewrite (bind_ok _ _ _ _ _ _ _ (mod_child s2 k Hk _ _ _ _ env)).
  rewrite (bind_ok _ _ _ _ _ _ _ (get_parent s2 i k p Hne Hp _ _ _ env)).
  rewrite (bind_ok _ _ _ _ _ _ _ (mod_child s2 k Hk _ _ _ _ env)).
  rewrite (bind_ok _ _ _ _ _ _ _ (get_child s2 k Hk _ _ _ env)).
  rewrite (bind_ok _ _ _ _ _ _ _ (copy_signals_run s2 i k p Hne Hp Hk _ env _ _ _)).
  rewrite (bind_ok _ _ _ _ _ _ _ (mod_child s2 k Hk _ _ _ _ env)).
  rewrite (set_runnable s2 k Hk Hcr Hw _ _ _ env _ HlP).
  assert (child i p q c d n v t =
    set_state RUNNABLE (set_pending 0
      (set_signals (foldl (fun t j => <[j := nth j (signals p) 0]> t) (signals q) (seq 0 NUMSIG))
        (set_name (safestrcpy_l (name q) (cstr (name p)) 16) (set_cwd (Some c)
          (set_ofile (copy_fds (ofile p) (seq 0 NOFILE) (ofile q)) (set_tf (set_eax 0 (tf p))
            (set_parent (Some i) (set_sz (sz p) (set_pgdir d (newborn t n v q))))))))))) as ->
    by (unfold child; by rewrite Hqo, copy_fds_all, inserts_all).
  rewrite (nth_seq_all None (ofile p) NOFILE Hpo). reflexivity.
Qed.

(** What the copy of the memory leaves of the rest of the state. *)
Lemma mem_rel_fields s1 s2 :
  mem_rel s1 s2 -> crit (kcpu s1) = kcpu s1 ->
  kcpu s2 = kcpu s1 /\ procs s2 = procs s1 /\ locks s2 = locks s1 /\ files s2 = files s1 /\
  icache s2 = icache s1 /\ curproc (kcpu s2) = curproc (kcpu s1).
Proof.
  intros (m & fl & c & -> & Hc) Hcr. assert (c = kcpu s1) as ->; [|done].
  destruct Hc as [->| ->]; [done|]. unfold kmem_cpu. by destruct (use_lock s1).
Qed.

End Fork.

#[local] Existing Instance link_example.
#[local] Existing Instance driver_life.

(** The process of Vmops.v's example, with one open file. *)
Definition proc_parent : proc :=
  set_cwd (Some 0%nat) (set_ofile (<[0%nat := Some 3%nat]> (replicate NOFILE None))
    (set_state RUNNING (set_pid 7 (set_pgdir pg_dir (set_sz 4096 proc_zero))))).
Definition kst_parent : kst :=
  set_kcpu (set_curproc (Some 0%nat) cpu_boot)
    (set_procs (<[0%nat := proc_parent]> (procs kst_boot))
      (set_files (<[3%nat := set_f_ref 1 file_zero]> (files kst_boot)) kst_space)).

