(* ===== verification/Syscall.v ===== *)
(** * sysproc.c and the dispatcher of syscall.c *)

From stdpp Require Import base numbers list gmap strings.
From S2P Require Import Prelude Kernel Spinlock Sched Kalloc Console Umem Signal Str Vm Pipe Intr Kbd Sleeplock Buf Bio Log Inode Consdev Dir File Sysarg Sysfile Exec Proc.

Section Syscall.
Context `{Driver}.

(** ** sysproc.c *)

Definition sys_sigsend : M Z :=
  arg! pid' := argint 0 in
  arg! signum := argint 1 in
  sigsend pid' signum.

Definition sys_signal : M Z :=
  arg! signum := argint 0 in
  arg! handle := argint 1 in
  let! r := signal signum (u32 handle) in
  ret (s32 r).

Definition sys_sigreturn : M Z := sigreturn.

Definition sys_alarm : M Z :=
  arg! tickTime := argint 0 in
  alarm tickTime.

Definition sys_fork `{Link} : M Z := fork.

Definition sys_exit `{Link} : M Z := exit.

Definition sys_wait `{Link} : M Z := wait.

Definition sys_kill : M Z :=
  arg! pid' := argint 0 in
  kill pid'.

Definition sys_getpid : M Z := let! (_, p) := myproc_get in ret (pid p).

Definition sys_sbrk `{Link} : M Z :=
  arg! n := argint 0 in
  let! (_, p) := myproc_get in
  let addr := s32 (sz p) in
  let! r := growproc n in
  ret (if r <? 0 then -1 else addr).

(** [ticks - ticks0 < n] compares unsigned. *)
Definition sys_sleep : M Z :=
  arg! n := argint 0 in
  acquire LTicks ;;
  let! ticks0 := gets ticks in
  wait_loop (fun _ : unit =>
    let! t := gets ticks in
    if negb (u32 (t - ticks0) <? u32 n) then release LTicks ;; ret (inr 0) else
    let! (_, p) := myproc_get in
    if killed p then release LTicks ;; ret (inr (-1)) else
    sleep CTicks LTicks ;; ret (inl tt)) tt.

Definition sys_uptime : M Z :=
  acquire LTicks ;;
  let! xticks := gets ticks in
  release LTicks ;;
  ret (s32 xticks).

(** ** syscall.c *)

Definition SYS_fork : Z := 1.
Definition SYS_exit : Z := 2.
Definition SYS_wait : Z := 3.
Definition SYS_pipe : Z := 4.
Definition SYS_read : Z := 5.
Definition SYS_kill : Z := 6.
Definition SYS_exec : Z := 7.
Definition SYS_fstat : Z := 8.
Definition SYS_chdir : Z := 9.
Definition SYS_dup : Z := 10.
Definition SYS_getpid : Z := 11.
Definition SYS_sbrk : Z := 12.
Definition SYS_sleep : Z := 13.
Definition SYS_uptime : Z := 14.
Definition SYS_open : Z := 15.
Definition SYS_write : Z := 16.
Definition SYS_mknod : Z := 17.
Definition SYS_unlink : Z := 18.
Definition SYS_link : Z := 19.
Definition SYS_mkdir : Z := 20.
Definition SYS_close : Z := 21.
Definition SYS_signal : Z := 22.
Definition SYS_sigsend : Z := 23.
Definition SYS_alarm : Z := 25.

(** The table, by number. *)
Definition syscalls `{Link} (num : Z) : option (M Z) :=
  (fun x => snd (snd x)) <$> list_find (fun e => fst e = num)
    [ (SYS_fork, sys_fork); (SYS_exit, sys_exit); (SYS_wait, sys_wait); (SYS_pipe, sys_pipe);
      (SYS_read, sys_read); (SYS_kill, sys_kill); (SYS_exec, sys_exec); (SYS_fstat, sys_fstat);
      (SYS_chdir, sys_chdir); (SYS_dup, sys_dup); (SYS_getpid, sys_getpid); (SYS_sbrk, sys_sbrk);
      (SYS_sleep, sys_sleep); (SYS_uptime, sys_uptime); (SYS_open, sys_open); (SYS_write, sys_write);
      (SYS_mknod, sys_mknod); (SYS_unlink, sys_unlink); (SYS_link, sys_link); (SYS_mkdir, sys_mkdir);
      (SYS_close, sys_close); (SYS_signal, sys_signal); (SYS_sigsend, sys_sigsend);
      (SYS_sigreturn, sys_sigreturn); (SYS_alarm, sys_alarm) ].

Definition set_result (v : Z) : M unit := let! i := myproc in mod_tf i (set_eax (u32 v)).

Definition syscall `{Link} : M unit :=
  let! (_, p) := myproc_get in
  let num := s32 (tf_eax (tf p)) in
  match syscalls num with
  | Some f => let! r := f in set_result r
  | None =>
      cprintf (bytes_of "%d %s: unknown sys call %d" ++ [ch_newline])
        [AInt (pid p); AStr (Some (cstr (name p))); AInt num] ;;
      set_result (-1)
  end.
End Syscall.
