(* ===== verification/Trap.v ===== *)
(** * trap.c and trapasm.S: entering and leaving the kernel

    [trap] gets the frame that alltraps built.  A trap from user space
    finds the kernel stack empty, so that its frame is where [proc->tf]
    points to; a trap from the kernel builds its frame further down. *)

From stdpp Require Import base numbers list gmap strings.
From S2P Require Import Prelude Kernel Spinlock Sched Kalloc Console Umem Signal Str Vm Pipe Intr Kbd Sleeplock Buf Memide Bio Log Inode Consdev Dir File Sysarg Sysfile Exec Proc Syscall.

Section Trap.
Context `{Driver}.

Definition tvinit `{Link} : M unit :=
  for_each (seq 0 256) (fun i =>
    modify (fun s => set_idt (<[i := SETGATE false (Z.shiftl SEG_KCODE 3) (a_vectors i) 0]> (idt s)) s)) ;;
  modify (fun s => set_idt (<[Z.to_nat T_SYSCALL :=
    SETGATE true (Z.shiftl SEG_KCODE 3) (a_vectors (Z.to_nat T_SYSCALL)) DPL_USER]> (idt s)) s) ;;
  initlock LTicks.

(** 256 gates of 8 bytes. *)
Definition idtinit `{Link} : M unit := mod_segs (set_idtr (a_idt, 256 * 8 - 1)).

Definition from_user_mode (t : trapframe) : bool := Z.land (tf_cs t) 3 =? DPL_USER.

(** The current process, if there is one. *)
Definition curp : M (option (nat * proc)) :=
  let! c := gets (fun s => curproc (kcpu s)) in
  match c with None => ret None | Some i => let! p := get_proc i in ret (Some (i, p)) end.

(** [if(proc && proc->killed && (tf->cs&3) == DPL_USER) exit()]. *)
Definition exit_if_killed `{Link} (t : trapframe) : M unit :=
  let! c := curp in
  match c with
  | Some (_, p) => if killed p && from_user_mode t then exit else ret tt
  | None => ret tt
  end.

Definition timer_tick `{Hw} : M unit :=
  let! c := cpunum 0 in
  when (c =? 0)
    (acquire LTicks ;;
     modify (fun s => set_ticks (u32 (ticks s + 1)) s) ;;
     wakeup CTicks ;;
     release LTicks) ;;
  lapiceoi.

(** The [default] case; [cr2] is the address of the last page fault. *)
Definition unexpected `{Hw} (cr2 : Z) (t : trapframe) : M unit :=
  let! c := curp in
  let! n := cpunum 0 in
  match c with
  | Some (i, p) =>
      if Z.land (tf_cs t) 3 =? 0 then
        cprintf (bytes_of "unexpected trap %d from cpu %d eip %x (cr2=0x%x)" ++ [ch_newline])
          (AInt <$> [tf_trapno t; n; tf_eip t; cr2]) ;;
        panic "trap"
      else
        cprintf (bytes_of "pid %d %s: trap %d err %d on cpu %d eip 0x%x addr 0x%x--kill proc" ++ [ch_newline])
          [AInt (pid p); AStr (Some (cstr (name p))); AInt (tf_trapno t); AInt (tf_err t); AInt n;
           AInt (tf_eip t); AInt cr2] ;;
        mod_proc i (set_killed true)
  | None =>
      cprintf (bytes_of "unexpected trap %d from cpu %d eip %x (cr2=0x%x)" ++ [ch_newline])
        (AInt <$> [tf_trapno t; n; tf_eip t; cr2]) ;;
      panic "trap"
  end.

Definition spurious `{Hw} (t : trapframe) : M unit :=
  let! n := cpunum 0 in
  cprintf (bytes_of "cpu%d: spurious interrupt at %x:%x" ++ [ch_newline]) (AInt <$> [n; tf_cs t; tf_eip t]) ;;
  lapiceoi.

(** The [switch] on the trap number. *)
Definition dispatch `{Link} `{Hw} (cr2 : Z) (t : trapframe) : M unit :=
  let n := tf_trapno t in
  if n =? T_IRQ0 + IRQ_TIMER then timer_tick
  else if n =? T_IRQ0 + IRQ_IDE then drv_intr ;; lapiceoi
  else if n =? T_IRQ0 + IRQ_IDE + 1 then ret tt
  else if n =? T_IRQ0 + IRQ_KBD then kbdintr ;; lapiceoi
  else if n =? T_IRQ0 + IRQ_COM1 then uartintr ;; lapiceoi
  else if (n =? T_IRQ0 + 7) || (n =? T_IRQ0 + IRQ_SPURIOUS) then spurious t
  else unexpected cr2 t.

Definition trap `{Link} `{Hw} (cr2 : Z) (t : trapframe) : M unit :=
  if tf_trapno t =? T_SYSCALL then
    let! (i, p) := myproc_get in
    if killed p then exit else
    mod_proc i (set_tf t) ;;
    syscall ;;
    let! (_, p) := myproc_get in
    if killed p then exit else ret tt
  else
    dispatch cr2 t ;;
    exit_if_killed t ;;
    (let! c := curp in
     match c with
     | Some (_, p) =>
         when (bool_decide (state p = RUNNING) && (tf_trapno t =? T_IRQ0 + IRQ_TIMER)) yield
     | None => ret tt
     end) ;;
    exit_if_killed t.

(** ** trapasm.S *)

(** The frame of a trap from user space is [*proc->tf]. *)
Definition frame_now (t : trapframe) : M trapframe :=
  if Z.land (tf_cs t) 3 =? 0 then ret t else
  let! c := curp in
  match c with Some (_, p) => ret (tf p) | None => ret t end.

(** The trap, and what trapret does on the way out: the result is the
    frame the registers are restored from. *)
Definition alltraps `{Link} `{Hw} (cr2 : Z) (t : trapframe) : M trapframe :=
  (if Z.land (tf_cs t) 3 =? 0 then ret tt else let! i := myproc in mod_proc i (set_tf t)) ;;
  trap cr2 t ;;
  let! t := frame_now t in
  handleSignal t ;;
  frame_now t.
End Trap.

(** ** The way back from a signal handler

    The stub on the stack executes the system call sigreturn, so that what
    the process resumes with is decided by [sigreturn] and by [syscall],
    which stores the result of the call. *)

Section Sigreturn.
Context `{Driver} `{Link} `{Hw}.

(** A trap by which process [i], whose esp is [esp], calls [num]. *)
Definition is_call (t : trapframe) (num esp : Z) : Prop :=
  tf_trapno t = T_SYSCALL /\ tf_eax t = num /\ tf_esp t = esp.

Lemma set_result_run s i p v env :
  cur s i p ->
  set_result v env s =
    Ok tt (set_procs (<[i := set_tf (set_eax (u32 v) (tf p)) p]> (procs s)) s) env.
Proof.
  intros [Hc Hp]. unfold set_result. rewrite (bind_ok _ _ _ _ _ _ _ (myproc_is env s i Hc)).
  unfold mod_tf, mod_proc, modify. by rewrite (upd_insert _ _ _ p Hp).
Qed.

Lemma syscall_sigreturn s i p t0 env :
  cur s i p -> tf_eax (tf p) = SYS_sigreturn -> 0 <= tf_esp (tf p) + 4 < 4294967296 ->
  wf_tf t0 -> ubytes (phys s) (cr3 (kcpu s)) (tf_esp (tf p) + 4) TF_SIZE = Some (tf_bytes t0) ->
  syscall env s = Ok tt (set_procs (<[i := set_tf (set_eax 0 t0) p]> (procs s)) s) env.
Proof.
  intros Hc Ha He Hwf Hb. pose proof Hc as [Hc1 Hc2]. unfold syscall.
  rewrite (bind_ok _ _ _ _ _ _ _ (myproc_get_run env s i p Hc)). rewrite Ha.
  change (syscalls (s32 SYS_sigreturn)) with (Some sys_sigreturn). unfold sys_sigreturn.
  rewrite (bind_ok _ _ _ _ _ _ _ (sigreturn_run s i p (tf_bytes t0) env Hc He Hb)).
  rewrite tf_of_bytes_tf_bytes by done.
  erewrite set_result_run by (split; [exact Hc1 | by apply (with_cur_lookup i s p)]).
  unfold with_cur. rewrite set_phys_id. cbn [procs set_procs]. rewrite list_insert_insert_eq. done.
Qed.

Lemma cur_set_tf s i p t :
  cur s i p -> cur (set_procs (upd i (set_tf t) (procs s)) s) i (set_tf t p).
Proof. intros [Hc Hp]. split; [done|]. simpl. by rewrite lookup_upd_eq, Hp. Qed.

(** The trap by which the stub calls [sigreturn]. *)
Lemma trap_sigreturn cr2 t s i p t0 env :
  cur s i p -> killed p = false -> is_call t SYS_sigreturn (tf_esp t) ->
  0 <= tf_esp t + 4 < 4294967296 -> wf_tf t0 ->
  ubytes (phys s) (cr3 (kcpu s)) (tf_esp t + 4) TF_SIZE = Some (tf_bytes t0) ->
  trap cr2 t env s = Ok tt (set_procs (<[i := set_tf (set_eax 0 t0) p]> (procs s)) s) env.
Proof.
  intros Hc Hk (Hn & Ha & _) He Hwf Hb. pose proof Hc as [Hc1 Hc2]. unfold trap. rewrite Hn, Z.eqb_refl.
  rewrite (bind_ok _ _ _ _ _ _ _ (myproc_get_run env s i p Hc)). rewrite Hk.
  pose proof (cur_set_tf s i p t Hc) as Hc'.
  unfold mod_proc. rewrite bind_modify.
  rewrite (bind_ok _ _ _ _ _ _ _ (syscall_sigreturn _ i _ t0 env Hc' Ha He Hwf Hb)).
  cbn [procs set_procs]. erewrite bind_ok.
  2: { apply (myproc_get_run _ _ i (set_tf (set_eax 0 t0) (set_tf t p))). split; [done|].
       simpl. apply list_lookup_insert_eq. rewrite length_upd. by eapply lookup_lt_Some. }
  cbn [killed set_tf]. rewrite Hk. unfold ret. f_equal.
  rewrite (upd_insert _ _ _ p Hc2), list_insert_insert_eq. done.
Qed.

(** C38: proc.c [handleSignal] and [sigreturn] with trap.c [trap] and
    syscall.c [syscall].  When the handler of a signal has returned into
    the stub and the stub has made its system call, the process resumes
    with the registers it had when the signal was delivered, but for eax,
    which [syscall] overwrites with the result of [sigreturn]: it is 0
    whatever it was before.  A process that was interrupted by the timer
    between two instructions, with a value in eax, loses it. *)
Theorem sigreturn_loses_eax cr2 s i p j t f env :
  due s i p j -> user_frame t ->
  let esp := tf_esp (tf p) in
  nth j (signals p) 0 <> a_defaultHandler -> wf_tf (tf p) ->
  mapped (phys s) (cr3 (kcpu s)) (esp - FRAME_SIZE) FRAME_SIZE f ->
  exists s1,
    handleSignal t env s = Ok tt s1 env /\
    forall s2 p2 t2 env2,
      cur s2 i p2 -> killed p2 = false -> is_call t2 SYS_sigreturn (esp - FRAME_SIZE + 4) ->
      ubytes (phys s2) (cr3 (kcpu s2)) (esp - 84) TF_SIZE =
        ubytes (phys s1) (cr3 (kcpu s1)) (esp - 84) TF_SIZE ->
      trap cr2 t2 env2 s2 =
        Ok tt (set_procs (<[i := set_tf (set_eax 0 (tf p)) p2]> (procs s2)) s2) env2.
Proof.
  intros Hd Hu esp Hh Hwf Hm. pose proof (wf_tf_esp _ Hwf) as Hesp. fold esp in Hesp.
  destruct (handleSignal_saved s i p j t f env Hd Hu Hh Hesp Hm) as (s1 & E & Hs).
  exists s1. split; [exact E|]. intros s2 p2 t2 env2 Hc Hk Ht Hb.
  pose proof (mapped_lo _ _ _ _ _ Hm). unfold FRAME_SIZE, is_word in *.
  destruct Ht as (Hn & Ha & He). apply trap_sigreturn; try done.
  - rewrite He. lia.
  - rewrite He. replace (esp - 92 + 4 + 4) with (esp - 84) by lia. by rewrite Hb.
Qed.

(** C39: proc.c [sigreturn].  A process decides what all its registers
    become: whatever well-formed trap frame it has in memory above its
    stack pointer, the system call sigreturn makes it the frame the trap
    returns with, the segment selectors and the flags included.  With a
    code segment of privilege 0 in it, the process goes on with the
    privileges of the kernel. *)
Theorem sigreturn_takes_any_frame cr2 t s i p t0 env :
  cur s i p -> killed p = false -> is_call t SYS_sigreturn (tf_esp t) ->
  0 <= tf_esp t + 4 < 4294967296 -> wf_tf t0 ->
  ubytes (phys s) (cr3 (kcpu s)) (tf_esp t + 4) TF_SIZE = Some (tf_bytes t0) ->
  Z.land (tf_cs t0) 3 = 0 -> user_frame t ->
  alltraps cr2 t env s =
    Ok (set_eax 0 t0) (set_procs (<[i := set_tf (set_eax 0 t0) p]> (procs s)) s) env.
Proof.
  intros Hc Hk Ht He Hwf Hb Hcs Hu. pose proof Hc as [Hc1 Hc2]. unfold alltraps, user_frame in *.
  destruct (Z.eqb_spec (Z.land (tf_cs t) 3) 0) as [|_]; [done|].
  rewrite bind_assoc, (bind_ok _ _ _ _ _ _ _ (myproc_is env s i Hc1)).
  unfold mod_proc. rewrite bind_modify.
  pose proof (cur_set_tf s i p t Hc) as Hc'.
  rewrite (bind_ok _ _ _ _ _ _ _ (trap_sigreturn cr2 t _ i _ t0 env Hc' Hk Ht He Hwf Hb)).
  cbn [procs set_procs]. rewrite (upd_insert _ _ _ p Hc2), list_insert_insert_eq.
  set (s' := set_procs _ _). assert (cur s' i (set_tf (set_eax 0 t0) p)) as [Hc1' Hc2'].
  { split; [done|]. simpl. apply list_lookup_insert_eq. by eapply lookup_lt_Some. }
  assert (frame_now t env s' = Ok (set_eax 0 t0) s' env) as E.
  { unfold frame_now, curp. destruct (Z.eqb_spec (Z.land (tf_cs t) 3) 0) as [|_]; [done|].
    rewrite bind_assoc, bind_gets, Hc1'.
    rewrite bind_assoc, (bind_ok _ _ _ _ _ _ _ (get_proc_run env s' i _ Hc2')). done. }
  rewrite (bind_ok _ _ _ _ _ _ _ E).
  assert (handleSignal (set_eax 0 t0) env s' = Ok tt s' env) as E2.
  { unfold handleSignal. rewrite bind_gets, Hc1'. cbn [tf_cs set_eax]. by rewrite Hcs. }
  rewrite (bind_ok _ _ _ _ _ _ _ E2). unfold frame_now. cbn [tf_cs set_eax]. by rewrite Hcs.
Qed.
End Sigreturn.

#[local] Existing Instance link_example.
Definition hw_example : Hw := {| dev_in := fun _ _ => 0 |}.
Definition driver_example : Driver := memide_driver 1000.
#[local] Existing Instance hw_example.
#[local] Existing Instance driver_example.

(** The process of Signal.v's example, in its handler's stub. *)
Definition tf_stub : trapframe := set_eax SYS_sigreturn (set_esp 3752 (tf_user 3840)).

Lemma sigreturn_loses_eax_witness :
  let p := proc_example in
  tf_eax (tf p) = 8 /\
  exists s1 s2, handleSignal (tf p) [] (kst_user p) = Ok tt s1 [] /\
    trap 0 tf_stub [] s1 = Ok tt s2 [] /\ (tf <$> procs s2 !! 0%nat) = Some (set_eax 0 (tf p)).
Proof.
  intros p. split; [done|].
  destruct (sigreturn_loses_eax 0 (kst_user p) 0 p 3 (tf p) (fun va => 12288 + va) [])
    as (s1 & E & HR).
  - apply due_example.
  - by vm_compute.
  - by vm_compute.
  - constructor; repeat constructor; by vm_compute.
  - exact (kst_user_mapped p 3840 eq_refl).
  - set (p2 := set_pending 0 (set_tf (set_eip 4660 (set_esp 3748 (tf p))) p)).
    assert ((curproc (kcpu s1), procs s1 !! 0%nat) = (Some 0%nat, Some p2)) as Hc.
    { transitivity (match handleSignal (tf p) [] (kst_user p) with
        Ok _ s _ => (curproc (kcpu s), procs s !! 0%nat) | _ => (None, None) end);
      [by rewrite E | by vm_compute]. }
    injection Hc as Hc1 Hc2. exists s1. eexists. split_and!; [exact E | apply (HR s1 p2) |].
    + by split.
    + done.
    + split_and!; reflexivity.
    + reflexivity.
    + cbn [procs set_procs]. rewrite list_lookup_insert_eq by (by eapply lookup_lt_Some). done.
Defined.

(** A frame with the kernel's code segment, where the process put it. *)
Definition tf_forged : trapframe := set_cs 8 (tf_user 3840).

Definition kst_forged : kst :=
  let s := kst_user proc_example in
  set_phys (mput (phys s) (12288 + 3756) (tf_bytes tf_forged)) s.

Lemma sigreturn_takes_any_frame_witness :
  exists s', alltraps 0 tf_stub [] kst_forged = Ok (set_eax 0 tf_forged) s' [] /\
    Z.land (tf_cs tf_stub) 3 = 3 /\ Z.land (tf_cs tf_forged) 3 = 0.
Proof.
  eexists. split; [apply (sigreturn_takes_any_frame 0 tf_stub kst_forged 0 proc_example tf_forged []) |].
  - by vm_compute.
  - done.
  - by vm_compute.
  - by vm_compute.
  - constructor; repeat constructor; by vm_compute.
  - by vm_compute.
  - by vm_compute.
  - by vm_compute.
  - by vm_compute.
Defined.
