(* ===== verification/Main.v ===== *)
(** * main.c: starting the system

    [initcode] and [entryother] are the assembled initcode.S and
    entryother.S. *)

From stdpp Require Import base numbers list gmap strings.
From S2P Require Import Prelude Kernel Spinlock Sched Kalloc Console Umem Signal Str Vm Pipe Intr Kbd Sleeplock Buf Bio Log Inode Consdev Dir File Sysarg Sysfile Exec Proc Syscall Trap.

Section Main.
Context `{Driver}.

(** [xchg(&cpu->started, 1)], on the CPU that runs. *)
Definition set_cpu_started : M unit :=
  let! c := gets kcpu in
  mod_mp (fun m => set_started (<[Z.to_nat (cpuid c) := 1]> (started m)) m).

(** [rounds] is how long the scheduler is observed. *)
Definition mpmain `{Link} `{Hw} (rounds : nat) : M unit :=
  let! n := cpunum 0 in
  cprintf (bytes_of "cpu%d: starting" ++ [ch_newline]) [AInt n] ;;
  idtinit ;;
  set_cpu_started ;;
  scheduler rounds.

Definition mpenter `{Link} `{Hw} (rounds : nat) : M unit :=
  switchkvm ;;
  seginit ;;
  lapicinit ;;
  mpmain rounds.

(** [while(c->started == 0)]: another CPU sets it. *)
Definition wait_started (c : nat) : M unit :=
  wait_loop (fun _ : unit =>
    let! m := gets mpc in
    if nth c (started m) 0 =? 0 then wait_env WHalt ;; ret (inl tt) else ret (inr tt)) tt.

Definition startothers `{Link} `{Hw} (entryother : list Z) : M unit :=
  let code := P2V 28672 in
  kput code entryother ;;
  let! n := gets (fun s => ncpu (mpc s)) in
  for_each (seqZ 0 n) (fun c =>
    let! me := cpunum 0 in
    if c =? me then ret tt else
    let! stack := kalloc in
    kwrite32 (code - 4) (u32 (stack + KSTACKSIZE)) ;;
    kwrite32 (code - 8) a_mpenter ;;
    kwrite32 (code - 12) (V2P a_entrypgdir) ;;
    let! m := gets mpc in
    lapicstartap (nth (Z.to_nat c) (apicids m) 0) (V2P code) ;;
    wait_started (Z.to_nat c)).

Definition main `{Link} `{Hw} (initcode entryother : list Z) (rounds : nat) : M unit :=
  kinit1 a_end (P2V (4 * 1024 * 1024)) ;;
  kvmalloc ;;
  mpinit ;;
  lapicinit ;;
  seginit ;;
  let! n := cpunum 0 in
  cprintf ([ch_newline] ++ bytes_of "cpu%d: starting xv6" ++ [ch_newline; ch_newline]) [AInt n] ;;
  picinit ;;
  ioapicinit ;;
  consoleinit ;;
  uartinit ;;
  pinit ;;
  tvinit ;;
  binit ;;
  fileinit ;;
  drv_init ;;
  let! m := gets mpc in
  when (negb (ismp m)) timerinit ;;
  startothers entryother ;;
  kinit2 (P2V (4 * 1024 * 1024)) (P2V PHYSTOP) ;;
  userinit initcode ;;
  mpmain rounds.
End Main.
